(* ===== verification/_CoqProject ===== *)
-Q . S2P
Prelude.v
Effects.v
DList.v
Os.v
Sysdeps.v
Wire.v
Globals.v
Fdevent.v
Transport.v
FdeventFacts.v
FdeventLoop.v
FdeventReg.v
FdeventSpec.v
FileSync.v
FileSyncFacts.v
FileSyncSend.v
FileSyncSpec.v
Sockets.v
Registry.v
Smart.v
Host.v
Jdwp.v
Auth.v
Protocol.v
Frame.v
AuthSpec.v
SocketsSpec.v
JdwpSpec.v
ProtocolSpec.v
Services.v
ServicesSpec.v
RegistrySpec.v
HostSpec.v
Zip.v
ZipSpec.v
BipBuffer.v
BipSpec.v
Win32.v
Win32Spec.v
Win32Events.v
Win32EventsSpec.v
Win32LoopSpec.v
Win32ProcessSpec.v
Win32RegSpec.v
AdbClient.v
AdbClientSpec.v
StringCov.v
SyncClient.v
SyncClientSpec.v
DeviceServices.v
DeviceServicesSpec.v
CommandLine.v
CommandLineSpec.v
AuthHost.v
AuthHostSpec.v
AuthKeySpec.v
Usb.v
UsbClient.v
UsbSpec.v
UsbIoSpec.v
Startup.v
StartupSpec.v
Buff.v
