(* ===== verification/Prelude.v ===== *)
(** * A verification library for adb (root file)

    adb connects a host to Android devices.  On the device the daemon adbd runs
    an event loop ([src/adb/fdevent.c]) over descriptors.  Threads carry packets
    between the loop and the host ([transport.cpp], [transport_local.cpp],
    [transport_usb.cpp]); the loop hands every packet to the protocol state
    machine ([adb.cpp], [handle_packet]), which authenticates the host
    ([adb_auth_client.c]) and opens, feeds and closes streams
    ([sockets.cpp]).  A stream ends in a service: the file transfer of
    push, pull and ls ([file_sync_service.c]), the debugger connections
    ([jdwp_service.c]), or one of the small services for the log, the screen,
    backups and remounting.  On the host the server finds the same transports
    by serial number and lists them for clients, finds devices on USB
    ([usb_linux.c]) and signs with its keys ([adb_auth_host.cpp]); the client
    program talks to the server ([adb_client.cpp], [commandline.cpp],
    [file_sync_client.cpp]).  On Windows descriptors and the event loop are
    emulated ([sysdeps_win32.cpp]).

    ** How the C code is represented

    A C function is a Rocq function of the same name in the monad [M] of
    [Effects]: it returns a value or stops, and a stop says why: [Abort] (fatal,
    exit), [Undef] (undefined behaviour: a dangling pointer, an access outside
    an array, an indeterminate value), [Blocked] (a system call that does not
    return), [Diverge] (out of fuel).  Theorems exclude [Undef] and [Diverge]
    where the code deserves it, so memory safety and termination are part of
    what is proved.  Structures are records, one heap ([gmap] from addresses)
    per structure type; pointers are addresses; function pointers are
    constructors of an enumeration per kind of callback, resolved in one place
    per build ([Protocol.dispatch], [Host.host_dispatch]), so re-entrant calls through sockets and their peers
    run the code of all components.  Integers are [Z] with the wrap-around of
    [unsigned] and [int] written out ([u8], [u16], [u32], [s32]); overflow of
    a signed integer is [Undef] where the code can reach it.

    The operating system is the parameter [env]: it answers each call as an
    arbitrary function of the calls before it.  What POSIX promises is the
    predicate [posix], a hypothesis of the theorems that need it, with
    concrete environments that satisfy it ([stream_env], [ready_env]).  Other
    code that is not in the repository is a parameter of the definitions that
    use it: base64 decoding and RSA on the device, the printing of a pointer,
    zlib, the conversions of Win32, and OpenSSL, whose numbers are a class with
    laws ([AuthHost.BigNum]), whose files and base64 encoders are a class with
    laws ([AuthKeySpec.BioLaws]) and whose other functions are calls answered by
    an environment of their own; the shell of the device is any function with
    the rules of POSIX for backslashes and blanks ([CommandLineSpec.PosixShell]).
    A read into an array of the C code carries the size of the array
    ([Sysdeps.readx_into]): more than fits is [Undef].  What other threads do to
    a shared structure while a function waits is a parameter too ([others],
    [meanwhile]).

    ** Files, in dependency order

    - [Prelude]: integers, bytes, text, lists that fit a buffer; hints.
    - [Effects]: the monad, loops, Hoare triples [wp], lenses.
    - [DList]: the circular lists ([list.cpp] and the same code written out in
      the other files) and their specifications.
    - [Os], [Sysdeps]: the environment, its calls and promises; the wrappers of
      [sysdeps.h], [readx] and [writex], with specifications [ospec] that
      relate a result to the calls made.
    - [Wire]: packets, their checks and byte order, and reading and writing
      them on a socket.
    - [Globals], [Transport]: the shared structures ([adb.h]), packet memory,
      the pipe between a transport's threads and the loop, disconnect
      callbacks.
    - [Fdevent] with [FdeventFacts], [FdeventLoop], [FdeventReg],
      [FdeventSpec]: the event loop (select build), its invariant [fd_inv] and
      its correctness against the interface [Handlers] of its clients.
    - [FileSync] with [FileSyncFacts], [FileSyncSend], [FileSyncSpec]: the sync
      service.
    - [Sockets]: local and remote sockets, the two ends of a stream.
    - [Registry]: registration, reference counts and the threads of a
      transport, device selection and the list of devices, the connections to
      emulators ([transport.cpp], [transport_usb.cpp], [transport_local.cpp]).
    - [Smart], [Host]: the smart socket clients talk to first ([sockets.cpp]);
      device trackers, forwarded ports, the requests a server answers itself
      and its services ([transport.cpp], [adb.cpp], [services.cpp]).
    - [Jdwp], [Auth], [Protocol]: the JDWP service, the device's half of
      authentication, the packet handler.
    - [Frame]: which part of the shared data a function leaves alone.
    - [AuthSpec], [SocketsSpec], [JdwpSpec], [ProtocolSpec]: their properties.
    - [Services], [ServicesSpec]: log, framebuffer, backup and remount.
    - [RegistrySpec], [HostSpec]: the registry and the server's side.
    - [Zip], [ZipSpec]: the reader of archives ([centraldir.cpp],
      [zipfile.cpp]).
    - [BipBuffer], [BipSpec]: the ring buffer of the Windows socket pair;
      [Win32], [Win32Spec]: its table of descriptors; [Win32Events] with
      [Win32EventsSpec], [Win32LoopSpec], [Win32ProcessSpec], [Win32RegSpec]:
      its event loop ([sysdeps_win32.cpp]).
    - [AdbClient], [AdbClientSpec]: the connection of a client to the server
      and its launch; [StringCov]: encodings; [SyncClient], [SyncClientSpec]:
      push, pull, sync and ls; [CommandLine], [CommandLineSpec]: the commands.
    - [DeviceServices], [DeviceServicesSpec]: the services of the device
      ([services.cpp]).
    - [AuthHost], [AuthHostSpec], [AuthKeySpec]: the keys of the host.
    - [Usb], [UsbClient], [UsbSpec], [UsbIoSpec]: USB on Linux, at the host and
      at the device, and the known vendors.
    - [Startup], [StartupSpec]: tracing, privileges and [adb_main] of the
      daemon.
    - [Buff]: text in a buffer of fixed size ([utils.cpp]).

    ** What the theorems show

    - The event loop ([FdeventSpec]): from any state that keeps its invariant it
      never gets stuck, whatever functions are registered; what select reports
      is delivered, handlers that only use the operating system are called once
      each and in order; the sets given to select always agree with what
      the handlers asked for; registration and removal are complete and within
      bounds.
    - The wire ([Wire]): a packet written is the packet read, across byte
      orders; the reader accepts exactly the valid packets and never asks for more
      than its buffer holds; a changed byte is noticed.
    - The sync service ([FileSyncSpec]): it closes what it opens on every path
      and overruns no buffer; the bytes that are sent are written, in order, to
      the file at the path that was sent, with owner, mode and time; LIST is
      complete; directories are made outermost first.
    - Authentication ([AuthSpec]): a transport comes online only by a signature
      of its token under a key on a line of the key files that were read, and an
      offline transport reaches no socket.
    - Streams ([SocketsSpec], [ProtocolSpec]): no byte is lost, repeated or
      reordered between a packet and a descriptor, with back-pressure both
      ways; a whole shell session.
    - JDWP ([JdwpSpec]): pids are reassembled, the list stays in its buffer,
      descriptors reach the process once.
    - Services ([ServicesSpec]): pixels and log entries are passed on in order;
      backup arguments round-trip; the device of a mount is found.
    - The registry ([RegistrySpec]): device selection equals a reference
      definition; registration keeps both lists, with and without permission;
      the last reference, and only it, closes a transport; requests between the threads round-trip; the list
      of devices stays within its buffer.

    - The server ([HostSpec]): a request is served as it was sent, however it
      is cut into packets; serial numbers with colons are read back; a client
      is bound to the device the selection names; the list of forwarded ports
      is complete.  Sessions for the version and for forwarding a port.

    - The client ([AdbClientSpec], [SyncClientSpec], [CommandLineSpec]): its
      requests reach the server as the server reads them; files are pushed and
      pulled byte for byte when the sync service of the device runs at the other
      end; arguments without special characters survive a POSIX shell; the escape of the interactive
      shell equals its reference definition; accepted ports are in range;
      [adb_commandline] calls itself at most once.
    - The services of the device ([DeviceServicesSpec]): a connection on USB is
      online only after a signature; root is given only to a debuggable device;
      the end of a shell that waitpid reports reaches the client of its
      descriptor, unless the notification cannot be written.
    - The host's keys ([AuthHostSpec], [AuthKeySpec]): a key is converted to
      the words the device computes with; the device reads the line a
      little-endian host writes; every key is tried once, in order, and the public key is
      sent last; the private key is created
      under a closed mask; what is loaded is exactly what was readable.
    - Archives ([ZipSpec]): an entry of a well-formed archive is read back.
    - Windows ([BipSpec], [Win32Spec], [Win32EventsSpec], [Win32RegSpec]): the
      ring buffer refines a bounded queue; descriptors and hooks stay
      consistent; what a wait reports is delivered.
    - USB ([UsbSpec], [UsbIoSpec]): the search for an ADB interface equals a
      search in the list of descriptors and finds the daemon's; what is written
      reaches the endpoint in order and with the empty packet it needs.
    - Start-up ([StartupSpec]): the daemon gives up root exactly when it must,
      completely or it exits.
    - Text buffers ([Buff]): they are never overrun and stay terminated.

    Where the code does something its comments or its callers do not expect,
    the behaviour is a theorem as well (for instance
    [fdevent_set_drops_wanted], [transport_fd_closed_twice],
    [unregister_unlinks_twice], [tracker_dangles_after_close_all],
    [jdwp_descriptor_closed_twice], [emulator_slot_dangles],
    [killforward_stops_server]).

    ** Bounds and fuel

    An environment answers [w_budget] calls and then blocks; a loop whose body
    makes a call takes its fuel from that budget, so it stops as [Blocked] and
    never as [Diverge], and results hold for every budget.  A walk along a list
    takes the size of its heap as fuel, which the list invariant shows to be
    enough; the method calls of sockets nest to the depth [dispatch] unfolds
    (a socket, its peer, and the transport), and exceeding it would be a
    [Diverge].  [adb_commandline] unfolds to depth two ([commandline_depth]
    shows that no command line goes further), the search for USB descriptors
    takes one turn more than there are bytes, and loops over text take its
    length.  Pointers have [sizeof_ptr] bytes (4 in theorems that need the
    table of descriptors to be initialised, see
    [fdevent_register_lp64_uninitialised]).

    ** Not modelled

    The epoll build of the event loop; [handle_packet] of the host apart from
    its AUTH packets (the model is the device's build), and [adb_main] of the
    host; the launch of the server and logging on Windows; the thread of the
    emulator pipe and tracing through the emulator; USB on Windows, on OS X and
    through libusb, which only drives those libraries; the thread primitives of
    Win32; raw terminals; progress displays, help texts and dumps; the test
    programs; [common.cpp], which nothing calls; headers of other projects
    ([src/include]) apart from the lists and the RSA key.  Interleavings of
    threads are modelled as sequences of whole functions, or by what the others
    may do while a function waits. *)

From Stdlib Require Export ZArith Lia.
From stdpp Require Export base numbers option strings gmap fin_maps list.

#[global] Open Scope Z_scope.

(** ** Scopes, hint databases *)

Declare Scope adb_scope.
Delimit Scope adb_scope with adb.
#[global] Open Scope adb_scope.

(** [adb] holds the facts the components' proofs close side conditions with;
    [adb_simpl] the rewrite rules that compute lengths and lookups. *)
Create HintDb adb.
Create Rewrite HintDb adb_simpl.

(** ** Machine integers

    A C [unsigned] is a [Z] in [0, 2^32); arithmetic that can leave the range
    is followed by an explicit wrap. *)

Definition u8 (x : Z) : Z := x mod 2 ^ 8.

Definition u16 (x : Z) : Z := x mod 2 ^ 16.

Definition u32 (x : Z) : Z := x mod 2 ^ 32.

(** The value a 32-bit pattern has as an [int] (two's complement). *)
Definition s32 (x : Z) : Z :=
  let y := u32 x in if y <? 2 ^ 31 then y else y - 2 ^ 32.

(** [flags & f] used as a condition. *)
Definition has (flags f : Z) : bool := negb (Z.land flags f =? 0).

(** [flags & ~f] *)
Definition clear (flags f : Z) : Z := Z.land flags (Z.lnot f).

(** ** Bytes and C strings *)

(** A byte is a [Z]; a [char*] with a known extent is a list of bytes. *)
Abbreviation bytes := (list Z).

Definition is_byte (b : Z) : Prop := 0 <= b < 256.

#[global] Instance is_byte_dec b : Decision (is_byte b).
Proof. unfold is_byte. apply _. Defined.

(** The bytes of a string literal. *)
Definition chr (a : Ascii.ascii) : Z := Z.of_N (Ascii.N_of_ascii a).

Fixpoint str (s : string) : bytes :=
  match s with
  | EmptyString => []
  | String a s' => chr a :: str s'
  end.

(** The C string that starts a buffer: the bytes before the first NUL. *)
Fixpoint cstr (bs : bytes) : bytes :=
  match bs with
  | [] => []
  | b :: bs' => if b =? 0 then [] else b :: cstr bs'
  end.

(** [strncmp(s, prefix, strlen(prefix)) == 0] on C strings without NULs. *)
Fixpoint has_prefix (prefix s : bytes) : bool :=
  match prefix, s with
  | [], _ => true
  | p :: ps, c :: cs => (p =? c) && has_prefix ps cs
  | _ :: _, [] => false
  end.

(** [strchr(s, c)] as the offset of the first [c]. *)
Fixpoint strchr (c : Z) (s : bytes) : option nat :=
  match s with
  | [] => None
  | x :: s' => if x =? c then Some 0%nat else S <$> strchr c s'
  end.

(** [strrchr(s, c)] as the offset of the last [c]. *)
Fixpoint strrchr (c : Z) (s : bytes) : option nat :=
  match s with
  | [] => None
  | x :: s' =>
      match strrchr c s' with
      | Some i => Some (S i)
      | None => if x =? c then Some 0%nat else None
      end
  end.

Definition bytes_eqb (a b : bytes) : bool := bool_decide (a = b).

(** ** Little-endian words, as the wire and the sync protocol use them *)

Fixpoint le_bytes (n : nat) (x : Z) : bytes :=
  match n with
  | O => []
  | S n' => x mod 256 :: le_bytes n' (x / 256)
  end.

Fixpoint le_val (bs : bytes) : Z :=
  match bs with
  | [] => 0
  | b :: bs' => b + 256 * le_val bs'
  end.

Abbreviation le32 := (le_bytes 4).

(** ** Numbers in text: the [%x], [%04x] and [%d] conversions of printf *)

Definition digit (d : Z) : Z := if d <? 10 then 48 + d else 87 + d.

Fixpoint digits (base : Z) (fuel : nat) (n : Z) (acc : bytes) : bytes :=
  match fuel with
  | O => acc
  | S f =>
      let acc' := digit (n mod base) :: acc in
      if n / base =? 0 then acc' else digits base f (n / base) acc'
  end.

(** Enough fuel for every base from two up: one unit per binary digit. *)
Definition fmt_base (base n : Z) : bytes :=
  digits base (S (Z.to_nat (Z.log2 n))) n [].

Definition fmt_x (n : Z) : bytes := fmt_base 16 n.

Definition fmt_d (n : Z) : bytes :=
  if n <? 0 then 45 :: fmt_base 10 (- n) else fmt_base 10 n.

Definition zero_pad (w : nat) (s : bytes) : bytes :=
  replicate (w - length s)%nat 48 ++ s.

(** [%04x] *)
Definition fmt_04x (n : Z) : bytes := zero_pad 4 (fmt_x n).

(** ** Lemmas: machine integers *)

Lemma u32_range x : 0 <= u32 x < 2 ^ 32.
Proof. apply Z.mod_pos_bound. lia. Qed.

Lemma u16_range x : 0 <= u16 x < 2 ^ 16.
Proof. apply Z.mod_pos_bound. lia. Qed.

Lemma u32_small x : 0 <= x < 2 ^ 32 -> u32 x = x.
Proof. apply Z.mod_small. Qed.

Lemma u16_small x : 0 <= x < 2 ^ 16 -> u16 x = x.
Proof. apply Z.mod_small. Qed.

Lemma u32_u32_add a b : u32 (u32 a + b) = u32 (a + b).
Proof. unfold u32. apply Zplus_mod_idemp_l. Qed.

#[export] Hint Resolve u32_range u16_range : adb.
#[export] Hint Rewrite u32_small using lia : adb_simpl.
#[export] Hint Rewrite u16_small using lia : adb_simpl.
#[export] Hint Rewrite u32_u32_add : adb_simpl.

(** Bit-level reasoning: an equation between words is an equation between
    their bits; [bits] reduces it to booleans. *)
Lemma testbit_ext a b : (forall n, 0 <= n -> Z.testbit a n = Z.testbit b n) -> a = b.
Proof. intros H. apply Z.bits_inj'. exact H. Qed.

Ltac bits_norm :=
  repeat first
    [ rewrite Z.land_spec | rewrite Z.lor_spec | rewrite Z.lxor_spec
    | rewrite Z.lnot_spec by lia | rewrite Z.bits_0 ].

Ltac bits :=
  apply testbit_ext; intros ?n ?Hn; bits_norm;
  repeat match goal with |- context [Z.testbit ?a ?n] => destruct (Z.testbit a n) end;
  try reflexivity.

Lemma has_lor a b f : has (Z.lor a b) f = has a f || has b f.
Proof.
  unfold has. rewrite Z.land_lor_distr_l.
  destruct (Z.eqb_spec (Z.land a f) 0) as [->|Ha]; simpl.
  - by rewrite Z.lor_0_l.
  - destruct (Z.eqb_spec (Z.lor (Z.land a f) (Z.land b f)) 0) as [E|]; [|done].
    by apply Z.lor_eq_0_iff in E as [? _].
Qed.

Lemma has_0 f : has 0 f = false.
Proof. by unfold has. Qed.

Lemma has_clear_disjoint a f g : Z.land f g = 0 -> has (clear a f) g = has a g.
Proof.
  intros E. unfold has, clear.
  replace (Z.land (Z.land a (Z.lnot f)) g) with (Z.land a g); [done|].
  apply testbit_ext. intros n Hn.
  apply (f_equal (fun z => Z.testbit z n)) in E. revert E. bits_norm.
  destruct (Z.testbit a n), (Z.testbit f n), (Z.testbit g n); done.
Qed.

Lemma has_clear_same a f : has (clear a f) f = false.
Proof. unfold has, clear. replace (Z.land (Z.land a (Z.lnot f)) f) with 0; [done|]. bits. Qed.

(** A flag with one bit set is present in a mask exactly when that bit is. *)
Lemma has_pow2 a k : 0 <= k -> has a (2 ^ k) = Z.testbit a k.
Proof.
  intros Hk. unfold has. destruct (Z.testbit a k) eqn:E.
  - apply negb_true_iff, Z.eqb_neq. intros H0.
    apply (f_equal (fun z => Z.testbit z k)) in H0. revert H0. bits_norm.
    by rewrite E, Z.pow2_bits_true by lia.
  - apply negb_false_iff, Z.eqb_eq, testbit_ext. intros n Hn. bits_norm.
    destruct (decide (n = k)) as [->|Hne]; [by rewrite E|].
    rewrite (Z.pow2_bits_false k n) by lia. apply andb_false_r.
Qed.

(** ** Lemmas: lists of bytes *)

Lemma length_le_bytes n x : length (le_bytes n x) = n.
Proof. revert x. induction n; intros x; simpl; [done|]. by rewrite IHn. Qed.

Lemma le_bytes_bytes n x : Forall is_byte (le_bytes n x).
Proof.
  revert x. induction n; intros x; constructor; [|done].
  apply Z.mod_pos_bound. lia.
Qed.

Lemma le_val_le_bytes n x : le_val (le_bytes n x) = x mod 256 ^ Z.of_nat n.
Proof.
  revert x. induction n as [|n IH]; intros x.
  - simpl. by rewrite Z.mod_1_r.
  - cbn [le_bytes le_val]. rewrite IH.
    rewrite Nat2Z.inj_succ, Z.pow_succ_r by lia.
    rewrite Z.rem_mul_r by lia. lia.
Qed.

Lemma le_bytes_le_val bs :
  Forall is_byte bs -> le_bytes (length bs) (le_val bs) = bs.
Proof.
  induction 1 as [|b bs Hb _ IH]; simpl; [done|].
  unfold is_byte in Hb. rewrite Z.mul_comm. f_equal.
  - rewrite Z.mod_add by lia. apply Z.mod_small. lia.
  - rewrite Z.div_add, Z.div_small, Z.add_0_l by lia. done.
Qed.

Lemma le_val_range bs :
  Forall is_byte bs -> 0 <= le_val bs < 256 ^ Z.of_nat (length bs).
Proof.
  induction 1 as [|b bs Hb _ IH]; [done|].
  cbn [le_val length]. unfold is_byte in Hb.
  rewrite Nat2Z.inj_succ, Z.pow_succ_r by lia. lia.
Qed.

Lemma s32_small x : 0 <= x < 2 ^ 31 -> s32 x = x.
Proof. intros H. unfold s32. rewrite u32_small by lia. by rewrite (proj2 (Z.ltb_lt _ _)) by lia. Qed.

Lemma le_val_le32 x : 0 <= x < 2 ^ 32 -> le_val (le32 x) = x.
Proof. intros H. rewrite le_val_le_bytes. by apply Z.mod_small. Qed.

#[export] Hint Rewrite length_le_bytes @length_app @length_replicate : adb_simpl.
#[export] Hint Rewrite le_val_le32 using lia : adb_simpl.

Lemma cstr_no_nul bs : Forall (fun b => b <> 0) (cstr bs).
Proof.
  induction bs as [|b bs IH]; simpl; [constructor|].
  destruct (Z.eqb_spec b 0); by constructor.
Qed.

Lemma cstr_id bs : Forall (fun b => b <> 0) bs -> cstr bs = bs.
Proof.
  induction 1 as [|b bs Hb _ IH]; simpl; [done|].
  rewrite (proj2 (Z.eqb_neq b 0)) by done. by rewrite IH.
Qed.

Lemma cstr_app_nul bs rest : Forall (fun b => b <> 0) bs -> cstr (bs ++ 0 :: rest) = bs.
Proof.
  induction 1 as [|b bs Hb _ IH]; simpl; [done|].
  rewrite (proj2 (Z.eqb_neq b 0)) by done. by rewrite IH.
Qed.

Lemma length_cstr bs : (length (cstr bs) <= length bs)%nat.
Proof. induction bs as [|b bs IH]; simpl; [done|]. destruct (b =? 0); simpl; lia. Qed.

Lemma has_prefix_app p s : has_prefix p (p ++ s) = true.
Proof. induction p; simpl; [done|]. by rewrite Z.eqb_refl. Qed.

Lemma has_prefix_spec p s : has_prefix p s = true <-> exists t, s = p ++ t.
Proof.
  revert s. induction p as [|a p IH]; intros s; simpl.
  - split; [eauto|done].
  - destruct s as [|b s]; [split; [done|intros [t ?]; done]|].
    rewrite andb_true_iff, Z.eqb_eq, IH. split.
    + intros [-> [t ->]]. eauto.
    + intros [t [= -> ->]]. eauto.
Qed.

Lemma strchr_Some c s i :
  strchr c s = Some i <-> s !! i = Some c /\ forall j, (j < i)%nat -> s !! j <> Some c.
Proof.
  revert i. induction s as [|x s IH]; intros i; simpl.
  - split; [done|]. by intros [? _].
  - destruct (Z.eqb_spec x c) as [->|Hne].
    + split.
      * intros [= <-]. split; [done|]. lia.
      * intros [_ H]. destruct i; [done|]. exfalso. apply (H 0%nat); [lia|done].
    + destruct i as [|i].
      * split; [|intros [[=] _]; done].
        destruct (strchr c s); by intros [=].
      * rewrite fmap_Some. setoid_rewrite IH. split.
        -- intros (i' & [H1 H2] & [= ->]). split; [done|].
           intros [|j] Hj; simpl; [congruence|]. apply H2. lia.
        -- intros [H1 H2]. exists i. split_and!; [done| |done].
           intros j Hj. apply (H2 (S j)). lia.
Qed.

Lemma strchr_None c s : strchr c s = None <-> c ∉ s.
Proof.
  induction s as [|x s IH]; simpl; [split; [by intros _ ?%not_elem_of_nil|done]|].
  rewrite not_elem_of_cons. destruct (Z.eqb_spec x c) as [->|Hne].
  - split; [done|]. by intros [].
  - rewrite fmap_None, IH. naive_solver.
Qed.

(** ** Lemmas: lists *)

Lemma Forall2_impl_elem {A B} (P Q : A -> B -> Prop) l k :
  Forall2 P l k -> (forall x y, x ∈ l -> P x y -> Q x y) -> Forall2 Q l k.
Proof.
  induction 1 as [|x y l k Hxy _ IH]; intros H; constructor.
  - apply H; [left|done].
  - apply IH. intros x' y' Hx. apply H. by right.
Qed.

(** ** Lines in a buffer

    The items whose lines fit, with the final NUL, into a buffer of [room]
    bytes when they are written one after the other until one does not. *)
Section fits.
Context {A : Type} (line : A -> bytes).

Fixpoint fits (room : Z) (xs : list A) : list A * list A :=
  match xs with
  | [] => ([], [])
  | x :: xs' =>
      if Z.of_nat (length (line x)) >=? room then ([], xs) else
      let '(a, b) := fits (room - Z.of_nat (length (line x))) xs' in (x :: a, b)
  end.

Lemma fits_app room xs : xs = (fits room xs).1 ++ (fits room xs).2.
Proof.
  revert room. induction xs as [|x xs IH]; intros room; simpl; [done|].
  destruct (_ >=? _); [done|]. specialize (IH (room - Z.of_nat (length (line x)))).
  destruct (fits _ xs) as [a b]. simpl. by rewrite IH at 1.
Qed.

Lemma fits_length room xs : 0 < room -> Z.of_nat (length ((fits room xs).1 ≫= line)) < room.
Proof.
  revert room. induction xs as [|x xs IH]; intros room Hr; simpl; [done|].
  destruct (Z.geb_spec (Z.of_nat (length (line x))) room); [done|].
  specialize (IH (room - Z.of_nat (length (line x))) ltac:(lia)).
  destruct (fits _ xs) as [a b]. cbn [fst] in *. rewrite bind_cons, length_app. lia.
Qed.

Lemma fits_maximal room xs x b :
  (fits room xs).2 = x :: b -> room <= Z.of_nat (length (((fits room xs).1 ++ [x]) ≫= line)).
Proof.
  revert room. induction xs as [|y xs IH]; intros room; simpl; [done|].
  destruct (Z.geb_spec (Z.of_nat (length (line y))) room).
  - simpl. intros [= -> _]. change ([x] ≫= line) with (line x ++ []). rewrite app_nil_r. lia.
  - specialize (IH (room - Z.of_nat (length (line y)))).
    destruct (fits _ xs) as [a' b']. cbn [fst snd] in *. intros E.
    specialize (IH E). rewrite <- app_comm_cons, bind_cons, length_app. lia.
Qed.
End fits.

(** ** Tactics *)

(** Case analysis on the conditions a model function branches on. *)
Ltac case_cond :=
  match goal with
  | |- context [if ?b then _ else _] => destruct b eqn:?
  | |- context [match ?x with _ => _ end] => destruct x eqn:?
  end.

Ltac case_cond_in H :=
  match type of H with
  | context [if ?b then _ else _] => destruct b eqn:?
  | context [match ?x with _ => _ end] => destruct x eqn:?
  end.

(** Turn boolean tests in the context into propositions. *)
Ltac bool_norm :=
  repeat match goal with
  | H : (_ =? _) = true |- _ => apply Z.eqb_eq in H
  | H : (_ =? _) = false |- _ => apply Z.eqb_neq in H
  | H : (_ <? _) = true |- _ => apply Z.ltb_lt in H
  | H : (_ <? _) = false |- _ => apply Z.ltb_ge in H
  | H : (_ <=? _) = true |- _ => apply Z.leb_le in H
  | H : (_ <=? _) = false |- _ => apply Z.leb_gt in H
  | H : (_ && _) = true |- _ => apply andb_true_iff in H as [? ?]
  | H : (_ || _) = false |- _ => apply orb_false_iff in H as [? ?]
  | H : negb _ = true |- _ => apply negb_true_iff in H
  | H : negb _ = false |- _ => apply negb_false_iff in H
  end.
