(* ===== verification/Effects.v ===== *)
(** * Effects: the monad of the C model

    A C function is a computation over an explicit state.  It returns a value,
    or the program stops: it aborts ([fatal], [exit], [abort]), it executes
    undefined behaviour (a null or dangling pointer, an access outside an
    array, a read of an indeterminate value), it waits for an operating-system
    call that never returns, or a loop of the model runs out of fuel.  The
    state at the point of the stop is kept, so properties of the calls made
    so far can be stated for every run.

    Loops take their fuel from the state ([budget]): a loop whose body makes
    an operating-system call per iteration never runs out ([wp_loop]). *)

From S2P Require Import Prelude.

(** ** Outcomes and the monad *)

Inductive stop :=
| Abort (why : string)
| Undef (why : string)
| Blocked
| Diverge.

Inductive outcome (A : Type) :=
| Done (a : A)
| Stop (e : stop).
Arguments Done {A} a.
Arguments Stop {A} e.

#[global] Instance stop_eq_dec : EqDecision stop.
Proof. solve_decision. Defined.

Definition M (S A : Type) : Type := S -> outcome A * S.

#[global] Instance M_ret S : MRet (M S) := fun A (a : A) (s : S) => (Done a, s).

#[global] Instance M_bind S : MBind (M S) := fun A B (k : A -> M S B) (m : M S A) (s : S) =>
  match m s with
  | (Done a, s') => k a s'
  | (Stop e, s') => (Stop e, s')
  end.

Definition stop_with {S A} (e : stop) : M S A := fun s => (Stop e, s).

Definition abort {S A} (why : string) : M S A := stop_with (Abort why).

Definition undef {S A} (why : string) : M S A := stop_with (Undef why).

Definition gets {S A} (f : S -> A) : M S A := fun s => (Done (f s), s).

Definition modify {S} (f : S -> S) : M S unit := fun s => (Done tt, f s).

Definition skip {S} : M S unit := mret tt.

(** [if (b) m;] *)
Definition when {S} (b : bool) (m : M S unit) : M S unit := if b then m else skip.

(** Reading through a pointer or an array index that must be valid. *)
Definition must {S A} (why : string) (f : S -> option A) : M S A := fun s =>
  match f s with
  | Some a => (Done a, s)
  | None => (Stop (Undef why), s)
  end.

(** ** Part of a state *)

Class Lens (S T : Type) := {
  view : S -> T;
  put : T -> S -> S;
  view_put : forall t s, view (put t s) = t;
  put_view : forall s, put (view s) s = s;
  put_put : forall t t' s, put t (put t' s) = put t s;
}.

(** Run a component's operation on the part of the state it owns. *)
Definition zoom {S T A} `{Lens S T} (m : M T A) : M S A := fun s =>
  let '(o, t) := m (view s) in (o, put t s).

#[global] Program Instance Lens_id S : Lens S S := {| view s := s; put t _ := t |}.
Solve All Obligations with done.

(** ** Loops *)

Class Budget (S : Type) := budget : S -> nat.

Fixpoint loop_fuel {S L R} (n : nat) (body : L -> M S (L + R)) (l : L) : M S R :=
  match n with
  | O => stop_with Diverge
  | Datatypes.S n' =>
      x ← body l;
      match x with
      | inl l' => loop_fuel n' body l'
      | inr r => mret r
      end
  end.

(** [for(;;)] with the loop-carried variables [l]; [inl] continues, [inr] leaves. *)
Definition loop {S L R} `{Budget S} (body : L -> M S (L + R)) (l : L) : M S R := fun s =>
  loop_fuel (Datatypes.S (budget s)) body l s.

(** [for (x in xs) f(x);] over a list fixed before the loop. *)
Fixpoint for_each {S A} (xs : list A) (f : A -> M S unit) : M S unit :=
  match xs with
  | [] => skip
  | x :: xs' => f x;; for_each xs' f
  end.

(** ** Weakest preconditions

    [wp m Q X s]: run from [s], [m] either returns with [Q] or stops with [X]. *)
Definition wp {S A} (m : M S A) (Q : A -> S -> Prop) (X : stop -> S -> Prop) (s : S) : Prop :=
  match m s with
  | (Done a, s') => Q a s'
  | (Stop e, s') => X e s'
  end.

(** ** Laws *)

Lemma bind_done {S A B} (m : M S A) (k : A -> M S B) s a s' :
  m s = (Done a, s') -> (m ≫= k) s = k a s'.
Proof. intros E. unfold mbind, M_bind. by rewrite E. Qed.

Lemma bind_stop {S A B} (m : M S A) (k : A -> M S B) s e s' :
  m s = (Stop e, s') -> (m ≫= k) s = (Stop e, s').
Proof. intros E. unfold mbind, M_bind. by rewrite E. Qed.

Lemma bind_ret {S A B} (a : A) (k : A -> M S B) s : (mret a ≫= k) s = k a s.
Proof. done. Qed.

Lemma bind_assoc {S A B C} (m : M S A) (k : A -> M S B) (k' : B -> M S C) s :
  ((m ≫= k) ≫= k') s = (m ≫= fun a => k a ≫= k') s.
Proof. unfold mbind, M_bind. destruct (m s) as [[a|e] s']; done. Qed.

Lemma bind_Done_inv {S A B} (m : M S A) (k : A -> M S B) s b s' :
  (m ≫= k) s = (Done b, s') ->
  exists a s1, m s = (Done a, s1) /\ k a s1 = (Done b, s').
Proof. unfold mbind, M_bind. destruct (m s) as [[a|e] s1]; [eauto|done]. Qed.

Lemma wp_ret {S A} (a : A) Q X (s : S) : Q a s -> wp (mret a) Q X s.
Proof. done. Qed.

Lemma wp_bind {S A B} (m : M S A) (k : A -> M S B) Q X s :
  wp m (fun a => wp (k a) Q X) X s -> wp (m ≫= k) Q X s.
Proof. unfold wp, mbind, M_bind. destruct (m s) as [[a|e] s']; done. Qed.

Lemma wp_assoc {S A B C} (m : M S A) (k : A -> M S B) (k' : B -> M S C) Q X s :
  wp ((m ≫= k) ≫= k') Q X s -> wp (m ≫= fun a => k a ≫= k') Q X s.
Proof. unfold wp. by rewrite bind_assoc. Qed.

Lemma wp_eq {S A} (m m' : M S A) Q X s : m s = m' s -> wp m' Q X s -> wp m Q X s.
Proof. unfold wp. by intros ->. Qed.

Lemma wp_Done {S A} (m : M S A) Q X s a : wp m Q X s -> (m s).1 = Done a -> Q a (m s).2.
Proof. unfold wp. destruct (m s) as [o s']. simpl. by intros H ->. Qed.

Lemma wp_mono {S A} (m : M S A) (Q Q' : A -> S -> Prop) (X X' : stop -> S -> Prop) s :
  wp m Q X s -> (forall a s', Q a s' -> Q' a s') -> (forall e s', X e s' -> X' e s') ->
  wp m Q' X' s.
Proof. unfold wp. destruct (m s) as [[a|e] s']; eauto. Qed.

Lemma wp_gets {S A} (f : S -> A) Q X s : Q (f s) s -> wp (gets f) Q X s.
Proof. done. Qed.

Lemma wp_modify {S} (f : S -> S) Q X s : Q tt (f s) -> wp (modify f) Q X s.
Proof. done. Qed.

Lemma wp_when {S} b (m : M S unit) Q X s :
  (b = true -> wp m Q X s) -> (b = false -> Q tt s) -> wp (when b m) Q X s.
Proof. destruct b; intros H1 H2; [by apply H1|by apply H2]. Qed.

Lemma wp_must {S A} why (f : S -> option A) Q X s a :
  f s = Some a -> Q a s -> wp (must why f) Q X s.
Proof. intros E HQ. unfold wp, must. by rewrite E. Qed.

Lemma wp_zoom {S T A} `{Lens S T} (m : M T A) Q X s :
  wp m (fun a t => Q a (put t s)) (fun e t => X e (put t s)) (view s) -> wp (zoom m) Q X s.
Proof. unfold wp, zoom. destruct (m (view s)) as [[a|e] t]; done. Qed.

Lemma wp_for_each {S A} (xs : list A) (f : A -> M S unit) (I : list A -> S -> Prop) Q X s :
  I xs s ->
  (forall x xs' s, I (x :: xs') s -> wp (f x) (fun _ => I xs') X s) ->
  (forall s, I [] s -> Q tt s) ->
  wp (for_each xs f) Q X s.
Proof.
  revert s. induction xs as [|x xs IH]; intros s H0 Hs Hq; simpl; [by apply wp_ret, Hq|].
  apply wp_bind. eapply wp_mono; [by apply Hs| |done]. simpl. intros _ s' H'. by apply IH.
Qed.

(** Invariant rule for [loop]: the body keeps [I] and uses up budget whenever
    it continues, so the fuel taken from the budget is enough. *)
Lemma wp_loop {S L R} `{Budget S} (I : L -> S -> Prop) (body : L -> M S (L + R)) Q X l s :
  I l s ->
  (forall l s, I l s ->
    wp (body l)
      (fun x s' => match x with
                   | inl l' => I l' s' /\ (budget s' < budget s)%nat
                   | inr r => Q r s'
                   end) X s) ->
  wp (loop body l) Q X s.
Proof.
  intros HI Hstep. unfold wp, loop.
  assert (Hn : (budget s < Datatypes.S (budget s))%nat) by lia. revert Hn.
  generalize (Datatypes.S (budget s)) as n. intros n. revert l s HI.
  induction n as [|n IH]; intros l s HI Hn; [lia|].
  simpl. unfold mbind, M_bind. specialize (Hstep l s HI). unfold wp in Hstep.
  destruct (body l s) as [[[l'|r]|e] s']; [|done|done].
  destruct Hstep as [HI' Hlt]. apply IH; [done|lia].
Qed.

(** Symbolic execution: one rule per construct. *)
Ltac wp_step :=
  lazymatch goal with
  | |- wp (mret _) _ _ _ => apply wp_ret
  | |- wp (_ ≫= _) _ _ _ => apply wp_bind
  | |- wp (gets _) _ _ _ => apply wp_gets
  | |- wp (modify _) _ _ _ => apply wp_modify
  | |- wp (when _ _) _ _ _ => apply wp_when; intros ?
  | |- wp (must _ _) _ _ _ => eapply wp_must
  | |- wp (zoom _) _ _ _ => apply wp_zoom
  | |- wp skip _ _ _ => apply wp_ret
  end.
