(* ===== verification/DList.v ===== *)
(** * Intrusive circular doubly linked lists

    [list.cpp] implements [struct listnode]; [fdevent.c], [sockets.cpp],
    [jdwp_service.c], [transport.cpp] and [adb.cpp] write the same pointer
    manipulations out by hand on structures that embed [next] and [prev].
    A heap maps addresses to structures; the class [Linked] says where the two
    pointers are in a structure, so the operations and their correctness are
    shared.  [dll h l xs] states that from the sentinel [l] the heap holds the
    circular list with the nodes [xs], in both directions. *)

From S2P Require Import Prelude Effects.

(** ** Addresses and heaps *)

(** [0] is [NULL]; a heap never holds an object there. *)
Abbreviation ptr := N.

Definition NULL : ptr := 0%N.

(** A structure with [next] and [prev] fields, and what remains of it. *)
Class Linked (T : Type) := {
  next : T -> ptr;
  prev : T -> ptr;
  set_next : ptr -> T -> T;
  set_prev : ptr -> T -> T;
  next_set_next : forall p t, next (set_next p t) = p;
  next_set_prev : forall p t, next (set_prev p t) = next t;
  prev_set_prev : forall p t, prev (set_prev p t) = p;
  prev_set_next : forall p t, prev (set_next p t) = prev t;
  set_next_prev_comm : forall p q t, set_next p (set_prev q t) = set_prev q (set_next p t);
  set_next_next : forall p q t, set_next p (set_next q t) = set_next p t;
  set_prev_prev : forall p q t, set_prev p (set_prev q t) = set_prev p t;
}.

(** [struct listnode] itself (include/cutils/list.h). *)
Record listnode := { ln_next : ptr; ln_prev : ptr }.

#[global] Program Instance Linked_listnode : Linked listnode := {|
  next := ln_next;
  prev := ln_prev;
  set_next p t := {| ln_next := p; ln_prev := ln_prev t |};
  set_prev p t := {| ln_next := ln_next t; ln_prev := p |};
|}.
Solve All Obligations with done.

Section operations.
Context {T : Type} `{Linked T}.

(** ** Field accesses through a pointer *)

Definition load (p : ptr) : M (gmap N T) T := must "dangling pointer" (fun h => h !! p).

Definition store (p : ptr) (f : T -> T) : M (gmap N T) unit :=
  t ← load p; modify (<[p := f t]>).

Definition load_next (p : ptr) : M (gmap N T) ptr := t ← load p; mret (next t).

Definition load_prev (p : ptr) : M (gmap N T) ptr := t ← load p; mret (prev t).

Definition store_next (p q : ptr) : M (gmap N T) unit := store p (set_next q).

Definition store_prev (p q : ptr) : M (gmap N T) unit := store p (set_prev q).

(** ** list.cpp *)

Definition list_init (node : ptr) : M (gmap N T) unit :=
  store_next node node;;
  store_prev node node.

Definition list_add_tail (head item : ptr) : M (gmap N T) unit :=
  store_next item head;;
  p ← load_prev head;
  store_prev item p;;
  q ← load_prev head;
  store_next q item;;
  store_prev head item.

Definition list_remove (item : ptr) : M (gmap N T) unit :=
  n ← load_next item;
  p ← load_prev item;
  store_prev n p;;
  p' ← load_prev item;
  n' ← load_next item;
  store_next p' n'.

(** ** The same by hand

    [sockets.cpp], [jdwp_service.c] and [transport.cpp] append with
    [n->next = l; n->prev = n->next->prev; n->prev->next = n; n->next->prev = n;]
    (the trackers with the last two statements the other way round), and
    unlink with [n->prev->next = n->next; n->next->prev = n->prev;]. *)

Definition link_before (node head : ptr) : M (gmap N T) unit :=
  store_next node head;;
  h ← load_next node; p ← load_prev h; store_prev node p;;
  p' ← load_prev node; store_next p' node;;
  n ← load_next node; store_prev n node.

Definition link_before' (node head : ptr) : M (gmap N T) unit :=
  store_next node head;;
  h ← load_next node; p ← load_prev h; store_prev node p;;
  n ← load_next node; store_prev n node;;
  p' ← load_prev node; store_next p' node.

Definition unlink (node : ptr) : M (gmap N T) unit :=
  p ← load_prev node; n ← load_next node; store_next p n;;
  n' ← load_next node; p' ← load_prev node; store_prev n' p'.

(** [list_empty] of include/cutils/list.h. *)
Definition list_empty (l : ptr) : M (gmap N T) bool :=
  n ← load_next l; mret (bool_decide (l = n)).

(** [list_head] *)
Definition list_head (l : ptr) : M (gmap N T) ptr := load_next l.

(** ** Representation *)

Definition next_is (h : gmap N T) (p q : ptr) : Prop := next <$> h !! p = Some q.

Definition prev_is (h : gmap N T) (p q : ptr) : Prop := prev <$> h !! p = Some q.

(** A segment: from [a] through [xs] to [b], every link in both directions. *)
Fixpoint lseg (h : gmap N T) (a : ptr) (xs : list ptr) (b : ptr) : Prop :=
  match xs with
  | [] => next_is h a b /\ prev_is h b a
  | x :: xs' => next_is h a x /\ prev_is h x a /\ lseg h x xs' b
  end.

Definition dll (h : gmap N T) (l : ptr) (xs : list ptr) : Prop :=
  NoDup (l :: xs) /\ lseg h l xs l.

(** The part of a structure that list operations do not touch. *)
Definition payload (t : T) : T := set_next NULL (set_prev NULL t).

(** The last node of a list, or the sentinel. *)
Definition last_or (a : ptr) (xs : list ptr) : ptr := default a (last xs).

(** Two heaps with the same objects up to the link fields. *)
Definition same_payload (h h' : gmap N T) : Prop :=
  forall p, payload <$> h !! p = payload <$> h' !! p.

(** ** Lemmas *)

Lemma payload_set_next p t : payload (set_next p t) = payload t.
Proof. unfold payload. by rewrite <- !set_next_prev_comm, !set_next_next. Qed.

Lemma payload_set_prev p t : payload (set_prev p t) = payload t.
Proof. unfold payload. by rewrite set_prev_prev. Qed.

#[global] Instance same_payload_equiv : Equivalence same_payload.
Proof.
  split; [by intros h p|by intros h h' E p|].
  intros h1 h2 h3 E1 E2 p. by rewrite E1.
Qed.

Lemma same_payload_store p f (h : gmap N T) t :
  h !! p = Some t -> payload (f t) = payload t -> same_payload h (<[p := f t]> h).
Proof.
  intros E Ef q. destruct (decide (p = q)) as [<-|Hne].
  - rewrite lookup_insert_eq, E. simpl. by rewrite Ef.
  - by rewrite lookup_insert_ne.
Qed.

Lemma same_payload_is_Some h h' p : same_payload h h' -> is_Some (h !! p) -> is_Some (h' !! p).
Proof. intros E [t Ht]. specialize (E p). rewrite Ht in E. by destruct (h' !! p). Qed.

Lemma same_payload_lookup h h' p t :
  same_payload h h' -> h !! p = Some t -> exists t', h' !! p = Some t' /\ payload t' = payload t.
Proof.
  intros E Ht. specialize (E p). rewrite Ht in E. destruct (h' !! p) as [t'|]; [|done].
  exists t'. split; [done|]. by injection E.
Qed.

(** Frame: a segment depends only on the objects it visits. *)
Lemma lseg_frame h h' a xs b :
  lseg h a xs b -> (forall p, p ∈ a :: b :: xs -> h' !! p = h !! p) -> lseg h' a xs b.
Proof.
  revert a. induction xs as [|x xs IH]; intros a; simpl; unfold next_is, prev_is.
  - intros [H1 H2] E. by rewrite (E a), (E b) by set_solver.
  - intros (H1 & H2 & H3) E. rewrite (E a), (E x) by set_solver. split_and!; [done..|].
    apply IH; [done|]. intros p Hp. apply E. set_solver.
Qed.

Lemma dll_frame h h' l xs :
  dll h l xs -> (forall p, p ∈ l :: xs -> h' !! p = h !! p) -> dll h' l xs.
Proof. intros [Hd Hs] E. split; [done|]. eapply lseg_frame; [done|]. intros p Hp. apply E. set_solver. Qed.

(** A list is a fact about the link fields only. *)
Lemma dll_ext h h' l xs :
  dll h l xs -> (forall p, next <$> h' !! p = next <$> h !! p) ->
  (forall p, prev <$> h' !! p = prev <$> h !! p) -> dll h' l xs.
Proof.
  intros [Hd Hs] En Ep. split; [done|]. clear Hd. revert Hs. generalize l at 1 3 as a.
  induction xs as [|x xs IH]; intros a; simpl; unfold next_is, prev_is; rewrite !En, !Ep; [done|].
  intros (? & ? & ?). split_and!; auto.
Qed.

Lemma lseg_app h a xs y ys b :
  lseg h a (xs ++ y :: ys) b <-> lseg h a xs y /\ lseg h y ys b.
Proof.
  revert a. induction xs as [|x xs IH]; intros a; simpl; [tauto|].
  rewrite IH. tauto.
Qed.

Lemma last_or_cons (a x : ptr) xs : last_or a (x :: xs) = last_or x xs.
Proof. unfold last_or. rewrite last_cons. by destruct (last xs). Qed.

Lemma last_or_elem_of (a : ptr) xs : last_or a xs ∈ a :: xs.
Proof.
  unfold last_or. destruct (last xs) as [y|] eqn:E; simpl; [|set_solver].
  right. by apply last_Some_elem_of.
Qed.

(** The node before [b]: the last of [xs], or [a]. *)
Lemma lseg_prev_last h a xs b : lseg h a xs b -> prev_is h b (last_or a xs).
Proof.
  revert a. induction xs as [|x xs IH]; intros a; simpl; [tauto|].
  intros (_ & _ & H3). rewrite last_or_cons. by apply IH.
Qed.

Lemma lseg_next_hd h a xs b : lseg h a xs b -> next_is h a (List.hd b xs).
Proof. destruct xs; simpl; tauto. Qed.

(** Redirect the end of a segment from [b] to [b']. *)
Lemma lseg_retarget h h' a xs b b' :
  lseg h a xs b -> NoDup (a :: xs) ->
  next_is h' (last_or a xs) b' -> prev_is h' b' (last_or a xs) ->
  (forall p, p ∈ a :: xs -> p <> last_or a xs -> next <$> h' !! p = next <$> h !! p) ->
  (forall p, p ∈ xs -> prev <$> h' !! p = prev <$> h !! p) ->
  lseg h' a xs b'.
Proof.
  revert a. induction xs as [|x xs IH]; intros a Hs Hd Hn Hp En Ep; [done|].
  destruct Hs as (H1 & H2 & H3). apply NoDup_cons in Hd as [Ha Hd].
  pose proof (last_or_elem_of x xs) as Hl.
  rewrite last_or_cons in *. simpl. unfold next_is, prev_is in *. split_and!.
  - rewrite En; [done|set_solver|]. intros ->. done.
  - by rewrite Ep by set_solver.
  - apply IH; [done..| |].
    + intros p Hin Hne. apply En; [set_solver|done].
    + intros p Hin. apply Ep. set_solver.
Qed.

(** What one pointer write does to the links. *)
Lemma wp_store_next p q Q X h :
  is_Some (h !! p) ->
  (forall h',
    (forall r, next <$> h' !! r = if decide (r = p) then Some q else next <$> h !! r) ->
    (forall r, prev <$> h' !! r = prev <$> h !! r) ->
    (forall r, r <> p -> h' !! r = h !! r) ->
    same_payload h h' -> Q tt h') ->
  wp (store_next p q) Q X h.
Proof.
  intros [t Ht] HQ. unfold store_next, store, load. wp_step. wp_step; [done|]. wp_step.
  apply HQ.
  - intros r. case_decide as E; [subst r|].
    + rewrite lookup_insert_eq. simpl. by rewrite next_set_next.
    + by rewrite lookup_insert_ne.
  - intros r. destruct (decide (p = r)) as [<-|].
    + rewrite lookup_insert_eq, Ht. simpl. by rewrite prev_set_next.
    + by rewrite lookup_insert_ne.
  - intros r Hr. by rewrite lookup_insert_ne.
  - apply same_payload_store; [done|apply payload_set_next].
Qed.

Lemma wp_store_prev p q Q X h :
  is_Some (h !! p) ->
  (forall h',
    (forall r, prev <$> h' !! r = if decide (r = p) then Some q else prev <$> h !! r) ->
    (forall r, next <$> h' !! r = next <$> h !! r) ->
    (forall r, r <> p -> h' !! r = h !! r) ->
    same_payload h h' -> Q tt h') ->
  wp (store_prev p q) Q X h.
Proof.
  intros [t Ht] HQ. unfold store_prev, store, load. wp_step. wp_step; [done|]. wp_step.
  apply HQ.
  - intros r. case_decide as E; [subst r|].
    + rewrite lookup_insert_eq. simpl. by rewrite prev_set_prev.
    + by rewrite lookup_insert_ne.
  - intros r. destruct (decide (p = r)) as [<-|].
    + rewrite lookup_insert_eq, Ht. simpl. by rewrite next_set_prev.
    + by rewrite lookup_insert_ne.
  - intros r Hr. by rewrite lookup_insert_ne.
  - apply same_payload_store; [done|apply payload_set_prev].
Qed.

Lemma wp_load_next p q Q X h : next_is h p q -> Q q h -> wp (load_next p) Q X h.
Proof.
  unfold next_is. destruct (h !! p) as [t|] eqn:E; simpl; intros [= <-] HQ.
  unfold load_next, load. wp_step. by wp_step.
Qed.

Lemma wp_load_prev p q Q X h : prev_is h p q -> Q q h -> wp (load_prev p) Q X h.
Proof.
  unfold prev_is. destruct (h !! p) as [t|] eqn:E; simpl; intros [= <-] HQ.
  unfold load_prev, load. wp_step. by wp_step.
Qed.

Lemma next_is_Some h p q : next_is h p q -> is_Some (h !! p).
Proof. unfold next_is. by destruct (h !! p). Qed.

Lemma prev_is_Some h p q : prev_is h p q -> is_Some (h !! p).
Proof. unfold prev_is. by destruct (h !! p). Qed.

Lemma lseg_is_Some h a xs b p : lseg h a xs b -> p ∈ a :: b :: xs -> is_Some (h !! p).
Proof.
  revert a. induction xs as [|x xs IH]; intros a; simpl.
  - intros [H1 H2] Hp. assert (p = a \/ p = b) as [->| ->] by set_solver;
      eauto using next_is_Some, prev_is_Some.
  - intros (H1 & H2 & H3) Hp.
    destruct (decide (p = a)) as [->|]; [eauto using next_is_Some|].
    eapply IH; [done|]. set_solver.
Qed.

Lemma dll_is_Some h l xs p : dll h l xs -> p ∈ l :: xs -> is_Some (h !! p).
Proof. intros [_ Hs] Hp. eapply lseg_is_Some; [done|]. set_solver. Qed.

(** Reading the list from the sentinel: [list_empty] and [list_head]. *)
Lemma dll_next h l xs : dll h l xs -> next_is h l (List.hd l xs).
Proof. intros [_ Hs]. by apply lseg_next_hd. Qed.

Lemma dll_prev h l xs : dll h l xs -> prev_is h l (last_or l xs).
Proof. intros [_ Hs]. by apply lseg_prev_last. Qed.

Lemma dll_empty h l xs : dll h l xs -> l = List.hd l xs <-> xs = [].
Proof.
  intros [Hd _]. destruct xs as [|x xs]; simpl; [done|].
  apply NoDup_cons in Hd as [Hl _]. split; [|done]. intros ->. set_solver.
Qed.

(** Insertion before the sentinel appends to the list. *)
Lemma dll_snoc h h' l xs x :
  dll h l xs -> x ∉ l :: xs ->
  (forall r, next <$> h' !! r =
     if decide (r = last_or l xs) then Some x
     else if decide (r = x) then Some l else next <$> h !! r) ->
  (forall r, prev <$> h' !! r =
     if decide (r = l) then Some x
     else if decide (r = x) then Some (last_or l xs) else prev <$> h !! r) ->
  dll h' l (xs ++ [x]).
Proof.
  intros [Hd Hs] Hx En Ep. pose proof (last_or_elem_of l xs) as Hlast.
  assert (last_or l xs <> x) by (intros E; by rewrite E in Hlast).
  assert (x <> l) by set_solver.
  split; [rewrite app_comm_cons; apply NoDup_app; split_and!; [done|set_solver|apply NoDup_singleton]|].
  apply lseg_app. split.
  - eapply lseg_retarget; [done..| | | |].
    + unfold next_is. by rewrite En, decide_True.
    + unfold prev_is. by rewrite Ep, decide_False, decide_True.
    + intros p Hp Hne. rewrite En, decide_False, decide_False; [done| |done]. set_solver.
    + intros p Hp. apply NoDup_cons in Hd as [Hl _].
      rewrite Ep, decide_False, decide_False; [done|set_solver|set_solver].
  - simpl. unfold next_is, prev_is. split.
    + by rewrite En, decide_False, decide_True.
    + by rewrite Ep, decide_True.
Qed.

Lemma wp_list_add_tail l x xs Q X h :
  dll h l xs -> x ∉ l :: xs -> is_Some (h !! x) ->
  (forall h', dll h' l (xs ++ [x]) -> same_payload h h' ->
     (forall r, r ∉ x :: l :: xs -> h' !! r = h !! r) -> Q tt h') ->
  wp (list_add_tail l x) Q X h.
Proof.
  intros Hl Hx Hsx HQ. pose proof (dll_prev _ _ _ Hl) as Hpl.
  pose proof (last_or_elem_of l xs) as Hlast. assert (x <> l) by set_solver.
  pose proof (dll_is_Some _ _ _ _ Hl Hlast) as Hsl.
  pose proof (dll_is_Some _ _ _ l Hl ltac:(set_solver)) as Hsl'.
  unfold list_add_tail. wp_step.
  apply wp_store_next; [done|]. intros h1 N1 P1 F1 S1. wp_step.
  apply wp_load_prev with (q := last_or l xs); [unfold prev_is; by rewrite P1|]. wp_step.
  apply wp_store_prev; [by eapply same_payload_is_Some|]. intros h2 P2 N2 F2 S2.
  wp_step. apply wp_load_prev with (q := last_or l xs).
  { unfold prev_is. rewrite P2, decide_False, P1 by done. done. }
  assert (same_payload h h2) as S02 by (by etrans).
  wp_step. apply wp_store_next; [by eapply same_payload_is_Some|]. intros h3 N3 P3 F3 S3.
  assert (same_payload h h3) as S03 by (by etrans).
  apply wp_store_prev; [by eapply same_payload_is_Some|]. intros h4 P4 N4 F4 S4.
  apply HQ; [|by etrans|].
  - eapply dll_snoc; [done..| |].
    + intros r. rewrite N4, N3, N2, N1. done.
    + intros r. rewrite P4, P3, P2, P1. done.
  - intros r Hr. rewrite F4, F3, F2, F1 by set_solver. done.
Qed.

(** Unlinking a node removes it from the list and leaves the node itself alone. *)
Lemma dll_unlink h h' l xs x ys :
  dll h l (xs ++ x :: ys) ->
  (forall r, next <$> h' !! r =
     if decide (r = last_or l xs) then Some (List.hd l ys) else next <$> h !! r) ->
  (forall r, prev <$> h' !! r =
     if decide (r = List.hd l ys) then Some (last_or l xs) else prev <$> h !! r) ->
  dll h' l (xs ++ ys).
Proof.
  intros [Hd Hs] En Ep. pose proof (last_or_elem_of l xs) as Hlast.
  apply NoDup_cons in Hd as [Hl Hd]. apply NoDup_app in Hd as (Hd1 & Hd12 & Hd2).
  apply NoDup_cons in Hd2 as [Hx Hd2].
  apply lseg_app in Hs as [Hs1 Hs2].
  split.
  { apply NoDup_cons; split; [set_solver|]. apply NoDup_app; split_and!; [done|set_solver|done]. }
  assert (Hy : List.hd l ys ∈ l :: ys) by (destruct ys; set_solver).
  assert (Hdisj : forall p q, p ∈ l :: xs -> q ∈ ys -> q <> p) by (intros p q ?? ->; set_solver).
  assert (Hs1' : lseg h' l xs (List.hd l ys)).
  { eapply lseg_retarget; [done| | | | |].
    - apply NoDup_cons. split; [set_solver|done].
    - unfold next_is. by rewrite En, decide_True.
    - unfold prev_is. by rewrite Ep, decide_True.
    - intros p Hp Hne. by rewrite En, decide_False.
    - intros p Hp. rewrite Ep, decide_False; [done|]. intros ->.
      apply elem_of_cons in Hy as [E|Hy]; [rewrite E in Hp; set_solver|].
      apply (Hdisj (List.hd l ys) (List.hd l ys)); [set_solver|done|done]. }
  destruct ys as [|y ys]; [by rewrite app_nil_r|]. simpl in *.
  apply lseg_app. split; [done|].
  destruct Hs2 as (_ & Hyx & Hs2).
  eapply (lseg_retarget h h' y ys l l); [done..| | | |].
  - unfold next_is. rewrite En, decide_False.
    + pose proof (last_or_elem_of y ys). clear - Hs2.
      revert y Hs2. induction ys as [|z ys IH]; intros y; simpl; [unfold last_or; simpl; tauto|].
      rewrite last_or_cons. intros (_ & _ & ?). by apply IH.
    + apply Hdisj; [done|apply last_or_elem_of].
  - unfold prev_is. rewrite Ep, decide_False; [by apply lseg_prev_last|].
    intros ->. apply (Hdisj y y); [left|left|done].
  - intros p Hp Hne. rewrite En, decide_False; [done|]. by apply Hdisj.
  - intros p Hp. rewrite Ep, decide_False; [done|]. apply NoDup_cons in Hd2. set_solver.
Qed.

(** The neighbours of a node, and that it is none of the others. *)
Lemma dll_links h l xs x ys :
  dll h l (xs ++ x :: ys) ->
  next_is h x (List.hd l ys) /\ prev_is h x (last_or l xs) /\
  x <> last_or l xs /\ x <> List.hd l ys /\ x <> l /\ x ∉ xs ++ ys.
Proof.
  intros [Hd Hs]. pose proof (last_or_elem_of l xs) as Hlast.
  assert (Hy : List.hd l ys ∈ l :: ys) by (destruct ys; set_solver).
  apply NoDup_cons in Hd as [Hnl Hd]. apply NoDup_app in Hd as (_ & Hd12 & Hd2).
  apply NoDup_cons in Hd2 as [Hx _]. apply lseg_app in Hs as [Hs1 Hs2].
  split_and!; [by apply lseg_next_hd|by apply lseg_prev_last| | |set_solver|set_solver].
  - intros E. rewrite <- E in Hlast. set_solver.
  - intros E. rewrite <- E in Hy. set_solver.
Qed.

Lemma wp_list_remove l x xs ys Q X h :
  dll h l (xs ++ x :: ys) ->
  (forall h', dll h' l (xs ++ ys) -> same_payload h h' -> h' !! x = h !! x ->
     (forall r, r ∉ l :: xs ++ ys -> h' !! r = h !! r) -> Q tt h') ->
  wp (list_remove x) Q X h.
Proof.
  intros Hl HQ. pose proof (last_or_elem_of l xs) as Hlast.
  assert (Hy : List.hd l ys ∈ l :: ys) by (destruct ys; set_solver).
  destruct (dll_links _ _ _ _ _ Hl) as (Hnx & Hpx & Hn1 & Hn2 & Hxl & Hx).
  assert (Hsy : is_Some (h !! List.hd l ys)) by (eapply dll_is_Some; [done|set_solver]).
  assert (Hsl : is_Some (h !! last_or l xs)) by (eapply dll_is_Some; [done|set_solver]).
  unfold list_remove. wp_step. apply wp_load_next with (q := List.hd l ys); [done|].
  wp_step. apply wp_load_prev with (q := last_or l xs); [done|].
  wp_step. apply wp_store_prev; [done|]. intros h1 P1 N1 F1 S1.
  wp_step. apply wp_load_prev with (q := last_or l xs).
  { unfold prev_is. rewrite P1, decide_False by done. done. }
  wp_step. apply wp_load_next with (q := List.hd l ys); [unfold next_is; by rewrite N1|].
  apply wp_store_next; [by eapply same_payload_is_Some|]. intros h2 N2 P2 F2 S2.
  apply HQ; [|by etrans| |].
  - eapply dll_unlink; [done| |].
    + intros r. by rewrite N2, N1.
    + intros r. by rewrite P2, P1.
  - by rewrite F2, F1.
  - intros r Hr. rewrite F2, F1; [done| |].
    + intros ->. set_solver.
    + intros ->. set_solver.
Qed.

Lemma wp_link_before l x xs Q X h :
  dll h l xs -> x ∉ l :: xs -> is_Some (h !! x) ->
  (forall h', dll h' l (xs ++ [x]) -> same_payload h h' ->
     (forall r, r ∉ x :: l :: xs -> h' !! r = h !! r) -> Q tt h') ->
  wp (link_before x l) Q X h.
Proof.
  intros Hl Hx Hsx HQ. pose proof (dll_prev _ _ _ Hl) as Hpl.
  pose proof (last_or_elem_of l xs) as Hlast. assert (x <> l) by set_solver.
  assert (x <> last_or l xs) by (intros E; rewrite <- E in Hlast; done).
  pose proof (dll_is_Some _ _ _ _ Hl Hlast) as Hsl.
  pose proof (dll_is_Some _ _ _ l Hl ltac:(set_solver)) as Hsl'.
  unfold link_before. wp_step. apply wp_store_next; [done|]. intros h1 N1 P1 F1 S1. wp_step.
  apply wp_load_next with (q := l); [unfold next_is; by rewrite N1, decide_True|]. wp_step.
  apply wp_load_prev with (q := last_or l xs); [unfold prev_is; by rewrite P1|]. wp_step.
  apply wp_store_prev; [by eapply same_payload_is_Some|]. intros h2 P2 N2 F2 S2.
  wp_step. apply wp_load_prev with (q := last_or l xs); [unfold prev_is; by rewrite P2, decide_True|].
  assert (same_payload h h2) as S02 by (by etrans).
  wp_step. apply wp_store_next; [by eapply same_payload_is_Some|]. intros h3 N3 P3 F3 S3.
  assert (same_payload h h3) as S03 by (by etrans). wp_step.
  apply wp_load_next with (q := l).
  { unfold next_is. by rewrite N3, decide_False, N2, N1, decide_True. }
  apply wp_store_prev; [by eapply same_payload_is_Some|]. intros h4 P4 N4 F4 S4.
  apply HQ; [|by etrans|].
  - eapply dll_snoc; [done..| |].
    + intros r. rewrite N4, N3, N2, N1. done.
    + intros r. rewrite P4, P3, P2, P1. done.
  - intros r Hr. rewrite F4, F3, F2, F1 by set_solver. done.
Qed.

Lemma wp_link_before' l x xs Q X h :
  dll h l xs -> x ∉ l :: xs -> is_Some (h !! x) ->
  (forall h', dll h' l (xs ++ [x]) -> same_payload h h' ->
     (forall r, r ∉ x :: l :: xs -> h' !! r = h !! r) -> Q tt h') ->
  wp (link_before' x l) Q X h.
Proof.
  intros Hl Hx Hsx HQ. pose proof (dll_prev _ _ _ Hl) as Hpl.
  pose proof (last_or_elem_of l xs) as Hlast. assert (x <> l) by set_solver.
  assert (x <> last_or l xs) by (intros E; rewrite <- E in Hlast; done).
  pose proof (dll_is_Some _ _ _ _ Hl Hlast) as Hsl.
  pose proof (dll_is_Some _ _ _ l Hl ltac:(set_solver)) as Hsl'.
  unfold link_before'. wp_step. apply wp_store_next; [done|]. intros h1 N1 P1 F1 S1. wp_step.
  apply wp_load_next with (q := l); [unfold next_is; by rewrite N1, decide_True|]. wp_step.
  apply wp_load_prev with (q := last_or l xs); [unfold prev_is; by rewrite P1|]. wp_step.
  apply wp_store_prev; [by eapply same_payload_is_Some|]. intros h2 P2 N2 F2 S2.
  assert (same_payload h h2) as S02 by (by etrans). wp_step.
  apply wp_load_next with (q := l); [unfold next_is; by rewrite N2, N1, decide_True|].
  wp_step. apply wp_store_prev; [by eapply same_payload_is_Some|]. intros h3 P3 N3 F3 S3.
  assert (same_payload h h3) as S03 by (by etrans). wp_step.
  apply wp_load_prev with (q := last_or l xs).
  { unfold prev_is. by rewrite P3, decide_False, P2, decide_True. }
  apply wp_store_next; [by eapply same_payload_is_Some|]. intros h4 N4 P4 F4 S4.
  apply HQ; [|by etrans|].
  - eapply dll_snoc; [done..| |].
    + intros r. rewrite N4, N3, N2, N1. done.
    + intros r. rewrite P4, P3, P2, P1. done.
  - intros r Hr. rewrite F4, F3, F2, F1 by set_solver. done.
Qed.

Lemma wp_unlink l x xs ys Q X h :
  dll h l (xs ++ x :: ys) ->
  (forall h', dll h' l (xs ++ ys) -> same_payload h h' -> h' !! x = h !! x ->
     (forall r, r ∉ l :: xs ++ ys -> h' !! r = h !! r) -> Q tt h') ->
  wp (unlink x) Q X h.
Proof.
  intros Hl HQ. pose proof (last_or_elem_of l xs) as Hlast.
  assert (Hy : List.hd l ys ∈ l :: ys) by (destruct ys; set_solver).
  destruct (dll_links _ _ _ _ _ Hl) as (Hnx & Hpx & Hn1 & Hn2 & Hxl & Hx).
  assert (Hsy : is_Some (h !! List.hd l ys)) by (eapply dll_is_Some; [done|set_solver]).
  assert (Hsl : is_Some (h !! last_or l xs)) by (eapply dll_is_Some; [done|set_solver]).
  unfold unlink. wp_step. apply wp_load_prev with (q := last_or l xs); [done|].
  wp_step. apply wp_load_next with (q := List.hd l ys); [done|].
  wp_step. apply wp_store_next; [done|]. intros h1 N1 P1 F1 S1.
  wp_step. apply wp_load_next with (q := List.hd l ys).
  { unfold next_is. rewrite N1, decide_False by done. done. }
  wp_step. apply wp_load_prev with (q := last_or l xs); [unfold prev_is; by rewrite P1|].
  apply wp_store_prev; [by eapply same_payload_is_Some|]. intros h2 P2 N2 F2 S2.
  apply HQ; [|by etrans| |].
  - eapply dll_unlink; [done| |].
    + intros r. by rewrite N2, N1.
    + intros r. by rewrite P2, P1.
  - by rewrite F2, F1.
  - intros r Hr. rewrite F2, F1; [done| |]; intros ->; set_solver.
Qed.

Lemma wp_list_init l Q X h :
  is_Some (h !! l) ->
  (forall h', dll h' l [] -> (forall r, r <> l -> h' !! r = h !! r) -> Q tt h') ->
  wp (list_init l) Q X h.
Proof.
  intros Hl HQ. unfold list_init. wp_step. apply wp_store_next; [done|]. intros h1 N1 P1 F1 S1.
  apply wp_store_prev; [by eapply same_payload_is_Some|]. intros h2 P2 N2 F2 S2. apply HQ.
  - split; [apply NoDup_singleton|]. simpl. unfold next_is, prev_is.
    by rewrite N2, N1, P2, !decide_True.
  - intros r Hr. by rewrite F2, F1.
Qed.

(** The nodes of a list are objects of the heap, so it has no more of them. *)
Lemma dll_length h l xs : dll h l xs -> (length xs < size h)%nat.
Proof.
  intros Hl. assert (Hs : (size (list_to_set (l :: xs) : gset N) <= size (dom h))%nat).
  { apply subseteq_size. intros p Hp%elem_of_list_to_set. apply elem_of_dom. by eapply dll_is_Some. }
  rewrite size_dom, size_list_to_set in Hs by apply Hl. exact Hs.
Qed.
End operations.

(** ** Walking a list

    [for (x = head.next; x != &head; x = x->next) body(x);] where the body may
    leave the loop with a value.  A list visits each object of the heap at most
    once, so the heap's size is enough fuel. *)
Section scan.
Context {S0 T R : Type} `{Linked T} `{Lens S0 (gmap N T)}.

Fixpoint scan_fuel (n : nat) (head cur : ptr) (body : ptr -> M S0 (option R)) : M S0 (option R) :=
  if bool_decide (cur = head) then mret None else
  match n with
  | O => stop_with Diverge
  | S n' =>
      r ← body cur;
      match r with
      | Some v => mret (Some v)
      | None => nx ← zoom (load_next cur); scan_fuel n' head nx body
      end
  end.

Definition list_scan (head : ptr) (body : ptr -> M S0 (option R)) : M S0 (option R) :=
  first ← zoom (load_next head);
  n ← gets (fun s => size (view s));
  scan_fuel n head first body.

(** Invariant rule: [I seen todo] holds between the iterations, and the body
    keeps the list itself. *)
Lemma wp_scan_fuel (I : list ptr -> list ptr -> S0 -> Prop) head body Q X n seen todo s :
  (length todo <= n)%nat -> dll (view s) head (seen ++ todo) -> I seen todo s ->
  (forall seen x todo s, dll (view s) head (seen ++ x :: todo) -> I seen (x :: todo) s ->
     wp (body x) (fun r s' => match r with
       | Some v => Q (Some v) s'
       | None => dll (view s') head (seen ++ x :: todo) /\ I (seen ++ [x]) todo s'
       end) X s) ->
  (forall s, dll (view s) head (seen ++ todo) -> I (seen ++ todo) [] s -> Q None s) ->
  wp (scan_fuel n head (List.hd head todo) body) Q X s.
Proof.
  revert seen todo s. induction n as [|n IH]; intros seen todo s Hn Hl HI Hb Hq.
  - destruct todo; [|simpl in Hn; lia]. simpl. rewrite bool_decide_true by done. apply wp_ret.
    apply Hq; [done|]. by rewrite app_nil_r.
  - destruct todo as [|x todo]; simpl.
    { rewrite bool_decide_true by done. apply wp_ret. apply Hq; [done|]. by rewrite app_nil_r. }
    destruct (dll_links _ _ _ _ _ Hl) as (_ & _ & _ & _ & Hne & _).
    rewrite bool_decide_false by done. wp_step. eapply wp_mono; [by apply Hb| |done].
    intros [v|] s'; [by intros ?|]. intros [Hl' HI']. wp_step. wp_step.
    apply wp_load_next with (q := List.hd head todo); [apply (dll_links _ _ _ _ _ Hl')|].
    rewrite put_view. apply (IH (seen ++ [x])); [simpl in Hn; lia| |done|done|].
    + by rewrite <- app_assoc.
    + intros s2. rewrite <- !app_assoc. exact (Hq s2).
Qed.

Lemma wp_list_scan (I : list ptr -> list ptr -> S0 -> Prop) head body xs Q X s :
  dll (view s) head xs -> I [] xs s ->
  (forall seen x todo s, dll (view s) head (seen ++ x :: todo) -> I seen (x :: todo) s ->
     wp (body x) (fun r s' => match r with
       | Some v => Q (Some v) s'
       | None => dll (view s') head (seen ++ x :: todo) /\ I (seen ++ [x]) todo s'
       end) X s) ->
  (forall s, dll (view s) head xs -> I xs [] s -> Q None s) ->
  wp (list_scan head body) Q X s.
Proof.
  intros Hl HI Hb Hq. unfold list_scan. wp_step. wp_step.
  apply wp_load_next with (q := List.hd head xs); [by apply dll_next|]. rewrite put_view.
  wp_step. wp_step. apply (wp_scan_fuel I head body Q X _ [] xs s); try done.
  pose proof (dll_length _ _ _ Hl). lia.
Qed.
End scan.

(** ** Walks *)

(** Walking along the list: from [t] the nodes [ts] follow, then [head]. *)
Fixpoint chain {T} `{Linked T} (h : gmap N T) (head t : ptr) (ts : list (ptr * T)) : Prop :=
  match ts with
  | [] => t = head
  | (x, k) :: ts' => t = x /\ x <> head /\ x <> NULL /\ h !! x = Some k /\ chain h head (next k) ts'
  end.

Lemma dll_chain {T} `{Linked T} (h : gmap N T) head seen (ts : list (ptr * T)) :
  dll h head (seen ++ ts.*1) -> Forall (fun '(t, k) => h !! t = Some k) ts -> NULL ∉ ts.*1 ->
  chain h head (List.hd head (ts.*1)) ts.
Proof.
  revert seen. induction ts as [|[x k] ts IH]; intros seen Hd Hf Hn; [done|].
  apply Forall_cons in Hf as [Hx Hf]. rewrite fmap_cons in *. apply not_elem_of_cons in Hn as [Hx0 Hn].
  destruct (dll_links _ _ _ _ _ Hd) as (Hnx & _ & _ & _ & Hne & _). simpl in *.
  split_and!; [done|done|done|done|].
  assert (E : next k = List.hd head (ts.*1)).
  { unfold next_is in Hnx. rewrite Hx in Hnx. by injection Hnx. }
  rewrite E. apply (IH (seen ++ [x])); [|done|done]. by rewrite <- app_assoc.
Qed.
