(* ===== verification/Os.v ===== *)
(** * The operating system as the environment of the program

    The kernel and libc are not part of the repository.  A call is a value
    of [call], its answer either a result or an error number; the environment
    [env] answers each call as any function of the calls made before it, and
    stops answering after [w_budget] calls (the process then waits for ever,
    [Blocked]).  Theorems quantify over all environments, so they hold for
    every behaviour the operating system can show; what POSIX promises about
    the answers is the predicate [posix], an assumption where one is needed. *)

From S2P Require Import Prelude Effects.

(** ** Error numbers and constants *)

Definition ENOENT : Z := 2.
Definition EINTR : Z := 4.
Definition EBADF : Z := 9.
Definition EAGAIN : Z := 11.
Definition EEXIST : Z := 17.
Definition ERANGE : Z := 34.
Definition ECONNABORTED : Z := 103.

Definition O_RDONLY : Z := 0.
Definition O_WRONLY : Z := 1.
Definition O_CREAT : Z := 0x40.
Definition O_EXCL : Z := 0x80.
Definition O_NONBLOCK : Z := 0x800.
Definition FD_CLOEXEC : Z := 1.
Definition NAME_MAX : Z := 255.

(** ** Calls and their answers *)

Inductive sysres (A : Type) :=
| Ok (a : A)
| Err (errno : Z).
Arguments Ok {A} a.
Arguments Err {A} errno.

Record stat_t := { st_mode : Z; st_size : Z; st_mtime : Z }.

Inductive call :=
| Read (fd n : Z)
| Write (fd : Z) (bs : bytes)
| Recv (fd n : Z)
| Sendmsg (fd passed : Z)
| Close (fd : Z)
| Shutdown (fd : Z)
| Open (path : bytes) (flags : Z) (mode : option Z)
| Mkdir (path : bytes) (mode : Z)
| Chown (path : bytes) (uid gid : Z)
| Fchown (fd uid gid : Z)
| Fchmod (fd mode : Z)
| Lstat (path : bytes)
| Unlink (path : bytes)
| Symlink (target path : bytes)
| Utime (path : bytes) (actime modtime : Z)
| Restorecon (path : bytes)
| Opendir (path : bytes)
| Readdir (dir : Z)
| Closedir (dir : Z)
| Getfl (fd : Z)
| Setfl (fd flags : Z)
| Setfd (fd flags : Z)
| Fionread (fd : Z)
| Select (n : Z) (rfds wfds efds : gset Z)
| Socketpair
| Pipe
| Socket
| Bind (fd : Z) (name : bytes)
| Listen (fd backlog : Z)
| Accept (fd : Z)
| Fork
| Dup2 (src dst : Z)
| Execvp (file : bytes) (args : list bytes)
| Waitpid (pid : Z)
| Blkroset (fd : Z)
| Mount (dev dir : bytes)
| Usleep (usec : Z)
| Malloc (size : Z)
| Fopen (path : bytes)
| Fgets (f n : Z)
| Fread (f n : Z)
| Fclose (f : Z)
| Stat (path : bytes)
| Control_socket (name : bytes)
| Property_get (key : bytes)
| Getuid
| Thread_create (start : string)
| Getenv (name : bytes)
| Setsockopt (fd opt value : Z)
| Loopback_client (port : Z)
| Network_client (host : bytes) (port : Z)
| Network_client_timeout (host : bytes) (port timeout : Z)
| Local_client (name : bytes) (namespace : Z)
| Loopback_server (port : Z)
| Inaddr_any_server (port : Z)
| Local_server (name : bytes) (namespace : Z)
| Creat (path : bytes) (mode : Z)
| Lseek (fd pos whence : Z)
| Readlink (path : bytes) (n : Z)
| Access (path : bytes)
| Chdir (path : bytes)
| Findfirst (pattern : bytes)
| Findnext (h : Z)
| Findclose (h : Z)
| Execl (path : bytes) (args : list bytes)
| Setsid
| Getpid
| Property_set (key value : bytes)
| Grantpt (fd : Z)
| Unlockpt (fd : Z)
| Ptsname (fd : Z)
| Wait_status (pid : Z)
| Sync
| Pause
| Getcwd (size : Z)
| Gethostname (size : Z)
| Getlogin (size : Z)
| Umask (mask : Z)
| Fopen_write (path : bytes)
| Claim_interface (fd ifc : Z)
| Usb_control (fd value index n : Z)
| Submit_urb (fd endpoint n : Z) (out : bytes)
| Reap_urb (fd : Z)
| Discard_urb (fd endpoint : Z)
| Clear_halt (fd : Z)
| Fstat (fd : Z)
| Cond_timedwait
| Cond_wait
| Capbset_read (cap : Z)
| Capbset_drop (cap : Z)
| Setgroups (gids : list Z)
| Setgid (gid : Z)
| Setuid (uid : Z)
| Is_selinux_enabled
| Setcon (label : bytes)
| Setenv (name value : bytes).

(** What a successful call returns. *)
Definition res (c : call) : Type :=
  match c with
  | Read _ _ | Recv _ _ | Property_get _ | Readlink _ _ | Findnext _ | Ptsname _ | Getcwd _
  | Gethostname _ | Getlogin _ | Usb_control _ _ _ _ => bytes
  | Write _ _ | Sendmsg _ _ | Open _ _ _ | Opendir _ | Getfl _ | Fionread _
  | Socket | Accept _ | Fork | Fopen _ | Control_socket _ | Getuid
  | Loopback_client _ | Network_client _ _ | Network_client_timeout _ _ _ | Local_client _ _
  | Loopback_server _ | Inaddr_any_server _ | Local_server _ _
  | Creat _ _ | Lseek _ _ _ | Getpid | Property_set _ _ | Umask _ | Fopen_write _ | Is_selinux_enabled => Z
  | Lstat _ | Stat _ => stat_t
  | Readdir _ | Fgets _ _ | Fread _ _ | Getenv _ => option bytes
  | Select _ _ _ _ => Z * (gset Z * gset Z * gset Z)
  | Socketpair | Pipe | Wait_status _ => Z * Z
  | Reap_urb _ => bool * (Z * bytes)
  | Fstat _ => Z * (Z * Z)
  | Findfirst _ => Z * bytes
  | _ => unit
  end.

Definition ans (c : call) : Type := sysres (res c).

(** A call with its answer. *)
Definition event : Type := {c : call & ans c}.

Definition ev (c : call) (a : ans c) : event := existT c a.

Definition env : Type := list event -> forall c : call, ans c.

(** ** The world: the environment, the calls made, the calls it will still
    answer, and [errno] *)

Record world := {
  w_env : env;
  w_hist : list event;
  w_budget : nat;
  w_errno : Z;
}.

#[global] Instance Budget_world : Budget world := w_budget.

Definition errno_after {A} (a : sysres A) (e : Z) : Z :=
  match a with Ok _ => e | Err e' => e' end.

Definition syscall (c : call) : M world (ans c) := fun w =>
  match w_budget w with
  | O => (Stop Blocked, w)
  | S n =>
      let a := w_env w (w_hist w) c in
      (Done a,
       {| w_env := w_env w; w_hist := w_hist w ++ [ev c a]; w_budget := n;
          w_errno := errno_after a (w_errno w) |})
  end.

Definition get_errno : M world Z := gets w_errno.

Definition set_errno (e : Z) : M world unit :=
  modify (fun w => {| w_env := w_env w; w_hist := w_hist w; w_budget := w_budget w; w_errno := e |}).

(** A world that has made no calls yet. *)
Definition boot (e : env) (n : nat) : world :=
  {| w_env := e; w_hist := []; w_budget := n; w_errno := 0 |}.

(** The C return value of a call that returns an [int]: [-1] on error. *)
Definition rc {A} (a : sysres A) : Z := match a with Ok _ => 0 | Err _ => -1 end.

Definition rc_int (a : sysres Z) : Z := match a with Ok r => r | Err _ => -1 end.

(** ** What POSIX says about the answers *)

Definition answer_ok (c : call) : ans c -> Prop :=
  match c return ans c -> Prop with
  | Read _ n | Recv _ n => fun a =>
      match a with
      | Ok bs => Z.of_nat (length bs) <= Z.max 0 n /\ Forall is_byte bs
      | Err _ => True
      end
  | Readlink _ n => fun a =>
      match a with
      | Ok bs => Z.of_nat (length bs) <= Z.max 0 n
      | Err _ => True
      end
  | Write _ bs => fun a =>
      match a with
      | Ok r => 0 <= r <= Z.of_nat (length bs)
      | Err _ => True
      end
  | Open _ _ _ | Creat _ _ | Accept _ | Socket | Opendir _
  | Loopback_client _ | Network_client _ _ | Network_client_timeout _ _ _ | Local_client _ _
  | Loopback_server _ | Inaddr_any_server _ | Local_server _ _ => fun a =>
      match a with
      | Ok r => 0 <= r
      | Err _ => True
      end
  | Select n rf wf ef => fun a =>
      match a with
      | Ok (k, (r, w, x)) =>
          r ⊆ rf /\ w ⊆ wf /\ x ⊆ ef /\ (forall fd, fd ∈ r ∪ w ∪ x -> 0 <= fd < n) /\
          k = Z.of_nat (size r + size w + size x)
      | Err _ => True
      end
  | Socketpair | Pipe => fun a =>
      match a with
      | Ok (r, s) => 0 <= r /\ 0 <= s
      | Err _ => True
      end
  | Readdir _ => fun a =>
      match a with
      | Ok (Some name) => Z.of_nat (length name) <= NAME_MAX
      | _ => True
      end
  | Fgets _ n => fun a =>
      match a with
      | Ok (Some line) => Z.of_nat (length line) < n /\ Forall is_byte line
      | _ => True
      end
  | Fread _ n => fun a =>
      match a with
      | Ok (Some bs) => Z.of_nat (length bs) = n /\ Forall is_byte bs
      | _ => True
      end
  | _ => fun _ => True
  end.

Definition posix (e : env) : Prop := forall h c, answer_ok c (e h c).

(** ** Reading a history *)

(** The bytes a descriptor delivered. *)
Definition ev_read (fd : Z) (e : event) : bytes :=
  match e with
  | existT (Read fd' _) (Ok bs) => if fd' =? fd then bs else []
  | _ => []
  end.

Definition read_from (fd : Z) (h : list event) : bytes := h ≫= ev_read fd.

(** The bytes a descriptor accepted. *)
Definition ev_written (fd : Z) (e : event) : bytes :=
  match e with
  | existT (Write fd' bs) (Ok r) => if fd' =? fd then take (Z.to_nat r) bs else []
  | _ => []
  end.

Definition written_to (fd : Z) (h : list event) : bytes := h ≫= ev_written fd.

(** The calls made between two points of a run. *)
Definition calls_since (w w' : world) : list event := drop (length (w_hist w)) (w_hist w').

(** The answer of a call that has nothing to report. *)
Definition ok_default (c : call) : ans c :=
  match c return ans c with
  | Read _ _ | Recv _ _ | Property_get _ | Readlink _ _ | Findnext _ | Ptsname _ | Getcwd _
  | Gethostname _ | Getlogin _ | Usb_control _ _ _ _ => Ok []
  | Write _ bs => Ok (Z.of_nat (length bs))
  | Sendmsg _ _ | Open _ _ _ | Opendir _ | Getfl _ | Fionread _
  | Socket | Accept _ | Fork | Fopen _ | Control_socket _ | Getuid
  | Loopback_client _ | Network_client _ _ | Network_client_timeout _ _ _ | Local_client _ _
  | Loopback_server _ | Inaddr_any_server _ | Local_server _ _ | Creat _ _ | Getpid
  | Fopen_write _ => Ok 3
  | Lseek _ _ _ | Property_set _ _ | Umask _ | Is_selinux_enabled => Ok 0
  | Wait_status pid => Ok (pid, 0)
  | Reap_urb _ => Ok (false, (0, []))
  | Fstat _ => Ok (0, (0, 0))
  | Findfirst _ => Ok (3, [46])
  | Lstat _ | Stat _ => Ok {| st_mode := 0; st_size := 0; st_mtime := 0 |}
  | Readdir _ | Fgets _ _ | Fread _ _ | Getenv _ => Ok None
  | Select _ _ _ _ => Ok (0, (∅, ∅, ∅))
  | Socketpair | Pipe => Ok (3, 4)
  | _ => Ok tt
  end.

(** A concrete environment: every descriptor delivers [stream fd], every write
    is accepted in full, every other call succeeds. *)
Definition stream_env (stream : Z -> bytes) : env := fun h c =>
  match c return ans c with
  | Read fd n => Ok (take (Z.to_nat n) (drop (length (read_from fd h)) (stream fd)))
  | c => ok_default c
  end.

(** Another: everything watched for reading is ready, and every other call
    succeeds. *)
Definition ready_env : env := fun h c =>
  match c return ans c with
  | Select n r _ _ =>
      let r' := filter (fun fd => 0 <= fd < n) r in Ok (Z.of_nat (size r'), (r', ∅, ∅))
  | c => ok_default c
  end.

Arguments read_from : simpl never.
Arguments written_to : simpl never.

(** [steps w new w']: from [w], the calls [new] were made and led to [w']. *)
Record steps (w : world) (new : list event) (w' : world) : Prop := {
  steps_env : w_env w' = w_env w;
  steps_hist : w_hist w' = w_hist w ++ new;
  steps_budget : w_budget w = (length new + w_budget w')%nat;
}.

(** ** Lemmas *)

Lemma steps_refl w : steps w [] w.
Proof. split; [done| |done]. by rewrite app_nil_r. Qed.

Lemma steps_trans w1 n1 w2 n2 w3 : steps w1 n1 w2 -> steps w2 n2 w3 -> steps w1 (n1 ++ n2) w3.
Proof.
  intros [E1 H1 B1] [E2 H2 B2]. split.
  - congruence.
  - by rewrite H2, H1, app_assoc.
  - rewrite length_app. lia.
Qed.

Lemma steps_budget_lt w new w' : steps w new w' -> new <> [] -> (budget w' < budget w)%nat.
Proof. intros [_ _ B] Hn. unfold budget, Budget_world. destruct new; [done|]. simpl in B. lia. Qed.

Lemma steps_nil_inv w w' : steps w [] w' -> w_hist w' = w_hist w.
Proof. intros [_ H _]. by rewrite app_nil_r in H. Qed.

Lemma read_from_cons fd e h : read_from fd (e :: h) = ev_read fd e ++ read_from fd h.
Proof. done. Qed.

Lemma written_to_cons fd e h : written_to fd (e :: h) = ev_written fd e ++ written_to fd h.
Proof. done. Qed.

Lemma read_from_app fd h1 h2 : read_from fd (h1 ++ h2) = read_from fd h1 ++ read_from fd h2.
Proof. apply bind_app. Qed.

Lemma written_to_app fd h1 h2 : written_to fd (h1 ++ h2) = written_to fd h1 ++ written_to fd h2.
Proof. apply bind_app. Qed.

#[export] Hint Rewrite read_from_app written_to_app : adb_simpl.
#[export] Hint Resolve steps_refl : adb.

(** One call: the answer is the environment's, and it is recorded. *)
Lemma wp_syscall c Q (X : stop -> world -> Prop) w :
  (forall w', let a := w_env w (w_hist w) c in
     steps w [ev c a] w' -> w_errno w' = errno_after a (w_errno w) -> Q a w') ->
  X Blocked w ->
  wp (syscall c) Q X w.
Proof.
  intros HQ HX. unfold wp, syscall. destruct (w_budget w) as [|n] eqn:E; [done|].
  apply HQ; [|done]. by split.
Qed.

Lemma steps_calls_since w new w' : steps w new w' -> calls_since w w' = new.
Proof. intros [_ H _]. unfold calls_since. rewrite H. apply drop_app_length. Qed.

Lemma stream_env_posix stream : (forall fd, Forall is_byte (stream fd)) -> posix (stream_env stream).
Proof.
  intros Hs h c. destruct c; simpl; try lia; try done.
  - rewrite length_take. split; [lia|by apply Forall_take, Forall_drop].
  - split; [lia|constructor].
Qed.

Lemma ok_default_answer c : answer_ok c (ok_default c).
Proof. destruct c; simpl; try lia; try done; (split; [lia|by apply Forall_nil]). Qed.

Lemma ready_env_posix : posix ready_env.
Proof.
  intros h c. destruct c; try apply ok_default_answer. cbn [answer_ok ready_env].
  rewrite size_empty. split_and!; [set_solver|set_solver|set_solver| |lia].
  intros fd. rewrite !elem_of_union, elem_of_filter. set_solver.
Qed.

(** ** A logic for programs that only talk to the operating system

    [ospec e m Q X]: in every POSIX environment, started with [errno = e],
    [m] makes some calls [new] and either returns [a] with errno [e'] such
    that [Q a new e'], or stops for a reason [x] with [X x new].  Answers are
    universally quantified, so a proof covers every behaviour of the system. *)

Definition ospec {A} (e : Z) (m : M world A)
    (Q : A -> list event -> Z -> Prop) (X : stop -> list event -> Prop) : Prop :=
  forall w, posix (w_env w) -> w_errno w = e ->
    wp m (fun a w' => exists new, steps w new w' /\ Q a new (w_errno w'))
         (fun x w' => exists new, steps w new w' /\ X x new) w.

(** The usual stop condition: only an unanswered call stops the program. *)
Definition blocked (B : list event -> Prop) (x : stop) (new : list event) : Prop :=
  x = Blocked /\ B new.

Lemma ospec_ret {A} e (a : A) Q X : Q a [] e -> ospec e (mret a) Q X.
Proof. intros HQ w _ <-. apply wp_ret. eauto using steps_refl. Qed.

Lemma ospec_mono {A} e (m : M world A) (Q Q' : A -> list event -> Z -> Prop)
    (X X' : stop -> list event -> Prop) :
  ospec e m Q X -> (forall a new e', Q a new e' -> Q' a new e') ->
  (forall x new, X x new -> X' x new) -> ospec e m Q' X'.
Proof.
  intros Hm HQ HX w Hp He. eapply wp_mono; [by apply Hm|naive_solver|naive_solver].
Qed.

Lemma ospec_bind {A B} e (m : M world A) (k : A -> M world B) Q1 Q X :
  ospec e m Q1 X ->
  (forall a n1 e1, Q1 a n1 e1 ->
     ospec e1 (k a) (fun b n2 e2 => Q b (n1 ++ n2) e2) (fun x n2 => X x (n1 ++ n2))) ->
  ospec e (m ≫= k) Q X.
Proof.
  intros Hm Hk w Hp He. apply wp_bind. eapply wp_mono; [by apply Hm| |done].
  intros a w1 (n1 & S1 & HQ1). specialize (Hk a n1 _ HQ1 w1).
  rewrite (steps_env _ _ _ S1) in Hk. eapply wp_mono; [by apply Hk| |].
  - intros b w2 (n2 & S2 & HQ). exists (n1 ++ n2). eauto using steps_trans.
  - intros x w2 (n2 & S2 & HX). exists (n1 ++ n2). eauto using steps_trans.
Qed.

(** Sequencing after a call whose contract is known. *)
Lemma ospec_seq {A B} e (m : M world A) (k : A -> M world B) Q1 X1 Q X :
  ospec e m Q1 X1 -> (forall x n, X1 x n -> X x n) ->
  (forall a n1 e1, Q1 a n1 e1 ->
     ospec e1 (k a) (fun b n2 e2 => Q b (n1 ++ n2) e2) (fun x n2 => X x (n1 ++ n2))) ->
  ospec e (m ≫= k) Q X.
Proof. intros Hm HX Hk. eapply ospec_bind; [|done]. by eapply ospec_mono. Qed.

Lemma ospec_syscall e c Q (X : stop -> list event -> Prop) :
  (forall a : ans c, answer_ok c a -> Q a [ev c a] (errno_after a e)) ->
  X Blocked [] -> ospec e (syscall c) Q X.
Proof.
  intros HQ HX w Hp He. apply wp_syscall.
  - intros w' a S E. exists [ev c a]. split; [done|]. rewrite E, He. apply HQ, Hp.
  - exists []. split; [apply steps_refl|done].
Qed.

Lemma ospec_get_errno e Q X : Q e [] e -> ospec e get_errno Q X.
Proof. intros HQ w _ E. apply wp_gets. exists []. rewrite E. eauto using steps_refl. Qed.

Lemma ospec_set_errno e e' Q X : Q tt [] e' -> ospec e (set_errno e') Q X.
Proof.
  intros HQ w _ E. apply wp_modify. exists []. split; [|done].
  split; simpl; [done|by rewrite app_nil_r|done].
Qed.

Lemma ospec_stop {A} e x (Q : A -> list event -> Z -> Prop) X : X x [] -> ospec e (stop_with x) Q X.
Proof. intros HX w _ _. exists []. eauto using steps_refl. Qed.

(** Binds after a step that makes no call. *)
Lemma ospec_bind_errno {B} e (k : Z -> M world B) Q X : ospec e (k e) Q X -> ospec e (get_errno ≫= k) Q X.
Proof.
  intros Hk w Hp He. apply wp_bind. unfold get_errno. apply wp_gets. rewrite He. by apply Hk.
Qed.

Lemma ospec_bind_set_errno {B} e e' (k : unit -> M world B) Q X :
  ospec e' (k tt) Q X -> ospec e (set_errno e' ≫= k) Q X.
Proof.
  intros Hk. eapply (ospec_bind _ _ _ (fun _ new e1 => new = [] /\ e1 = e')); [by apply ospec_set_errno|].
  by intros [] n1 e1 [-> ->].
Qed.

Lemma ospec_bind_ret {A B} e (a : A) (k : A -> M world B) Q X :
  ospec e (k a) Q X -> ospec e (mret a ≫= k) Q X.
Proof. intros Hk w Hp He. by apply Hk. Qed.

Lemma ospec_assoc {A B C} e (m : M world A) (k : A -> M world B) (k' : B -> M world C) Q X :
  ospec e (m ≫= fun a => k a ≫= k') Q X -> ospec e ((m ≫= k) ≫= k') Q X.
Proof. intros H w Hp He. specialize (H w Hp He). unfold wp in *. by rewrite bind_assoc. Qed.

(** Loops: [I l h e] relates the loop variables to the calls [h] the loop has
    made; a continuing iteration makes at least one. *)
Lemma ospec_loop {L R} (I : L -> list event -> Z -> Prop) e (body : L -> M world (L + R)) l Q X :
  I l [] e ->
  (forall l h e, I l h e ->
     ospec e (body l)
       (fun x new e' => match x with
                        | inl l' => new <> [] /\ I l' (h ++ new) e'
                        | inr r => Q r (h ++ new) e'
                        end)
       (fun x new => X x (h ++ new))) ->
  ospec e (loop body l) Q X.
Proof.
  intros HI Hb w Hp He.
  apply (wp_loop (fun l w' => exists h, steps w h w' /\ I l h (w_errno w'))).
  - exists []. rewrite He. eauto using steps_refl.
  - intros l1 w1 (h & S1 & HI1).
    assert (Hp1 : posix (w_env w1)) by (by rewrite (steps_env _ _ _ S1)).
    eapply wp_mono; [exact (Hb l1 h _ HI1 w1 Hp1 eq_refl)| |].
    + intros [l2|r] w2 (new & S2 & HQ).
      * destruct HQ as [Hne HI2]. split; [eauto using steps_trans|]. by eapply steps_budget_lt.
      * eauto using steps_trans.
    + intros x w2 (new & S2 & HX). eauto using steps_trans.
Qed.

(** From a contract to one run. *)
Lemma ospec_run {A} (m : M world A) Q X w a w' :
  ospec (w_errno w) m Q X -> posix (w_env w) -> m w = (Done a, w') ->
  Q a (calls_since w w') (w_errno w').
Proof.
  intros Hm Hp E. specialize (Hm w Hp eq_refl). unfold wp in Hm. rewrite E in Hm.
  destruct Hm as (new & S & HQ). by rewrite (steps_calls_since _ _ _ S).
Qed.

Lemma ospec_run_stop {A} (m : M world A) Q X w x w' :
  ospec (w_errno w) m Q X -> posix (w_env w) -> m w = (Stop x, w') -> X x (calls_since w w').
Proof.
  intros Hm Hp E. specialize (Hm w Hp eq_refl). unfold wp in Hm. rewrite E in Hm.
  destruct Hm as (new & S & HX). by rewrite (steps_calls_since _ _ _ S).
Qed.

Lemma ospec_total {A} (m : M world A) Q X w :
  ospec (w_errno w) m Q X -> posix (w_env w) ->
  match m w with
  | (Done a, w') => Q a (calls_since w w') (w_errno w')
  | (Stop x, w') => X x (calls_since w w')
  end.
Proof.
  intros Hm Hp. destruct (m w) as [[a|x] w'] eqn:E; [by eapply ospec_run|by eapply ospec_run_stop].
Qed.

(** Symbolic execution of a program over the operating system. *)
Ltac os_step :=
  lazymatch goal with
  | |- ospec _ (mret _) _ _ => apply ospec_ret
  | |- ospec _ skip _ _ => apply ospec_ret
  | |- ospec _ (get_errno ≫= _) _ _ => apply ospec_bind_errno
  | |- ospec _ (set_errno _ ≫= _) _ _ => apply ospec_bind_set_errno
  | |- ospec _ (mret _ ≫= _) _ _ => apply ospec_bind_ret
  | |- ospec _ (skip ≫= _) _ _ => apply ospec_bind_ret
  | |- ospec _ ((_ ≫= _) ≫= _) _ _ => apply ospec_assoc
  | |- ospec _ (_ ≫= _) _ _ => eapply ospec_bind
  | |- ospec _ (syscall _) _ _ => apply ospec_syscall
  | |- ospec _ get_errno _ _ => apply ospec_get_errno
  | |- ospec _ (set_errno _) _ _ => apply ospec_set_errno
  | |- ospec _ (if ?b then _ else _) _ _ => destruct b eqn:?
  end.

Ltac os_call spec := eapply ospec_seq; [apply spec| |].
