(* ===== verification/Sysdeps.v ===== *)
(** * sysdeps.h (the Unix half) and the full-transfer helpers

    [sysdeps.h] wraps the POSIX calls the rest of adb uses, most of them in
    [TEMP_FAILURE_RETRY]; [transport.cpp] builds [readx] and [writex] on top.
    The specifications at the end say what a caller of [readx]/[writex] may
    rely on, and are the only facts the service files use. *)

From S2P Require Import Prelude Effects Os.

(** ** Wrappers (sysdeps.h) *)

(** [do { _rc = (exp); } while (_rc == -1 && errno == EINTR);] *)
Definition temp_failure_retry (c : call) : M world (ans c) :=
  loop (fun _ : unit =>
    a ← syscall c;
    match a with
    | Err e => mret (if e =? EINTR then inl tt else inr (Err e))
    | Ok r => mret (inr (Ok r))
    end) tt.

Definition close_on_exec (fd : Z) : M world unit :=
  syscall (Setfd fd FD_CLOEXEC);; skip.

Definition unix_open (path : bytes) (options : Z) (mode : Z) : M world (sysres Z) :=
  if Z.land options O_CREAT =? 0
  then temp_failure_retry (Open path options None)
  else temp_failure_retry (Open path options (Some mode)).

Definition adb_open_mode (path : bytes) (options mode : Z) : M world (sysres Z) :=
  temp_failure_retry (Open path options (Some mode)).

Definition adb_open (path : bytes) (options : Z) : M world (sysres Z) :=
  r ← temp_failure_retry (Open path options None);
  match r with
  | Ok fd => if fd <? 0 then mret (Ok (-1)) else close_on_exec fd;; mret (Ok fd)
  | Err e => mret (Err e)
  end.

Definition adb_creat (path : bytes) (mode : Z) : M world (sysres Z) :=
  r ← temp_failure_retry (Creat path mode);
  match r with
  | Ok fd => if fd <? 0 then mret (Ok (-1)) else close_on_exec fd;; mret (Ok fd)
  | Err e => mret (Err e)
  end.

(** The result of [lseek] as an [int]. *)
Definition adb_lseek (fd pos where_ : Z) : M world Z :=
  r ← syscall (Lseek fd pos where_);
  mret (s32 (rc_int r)).

Definition adb_shutdown (fd : Z) : M world (sysres unit) := syscall (Shutdown fd).

Definition adb_close (fd : Z) : M world (sysres unit) := syscall (Close fd).

Definition adb_read (fd n : Z) : M world (sysres bytes) := temp_failure_retry (Read fd n).

Definition adb_write (fd : Z) (bs : bytes) : M world (sysres Z) :=
  temp_failure_retry (Write fd bs).

Definition adb_unlink (path : bytes) : M world (sysres unit) := syscall (Unlink path).

Definition adb_mkdir (path : bytes) (mode : Z) : M world (sysres unit) := syscall (Mkdir path mode).

Definition adb_socket_accept (serverfd : Z) : M world (sysres Z) :=
  r ← temp_failure_retry (Accept serverfd);
  match r with
  | Ok fd => (if fd >=? 0 then close_on_exec fd else skip);; mret (Ok fd)
  | Err e => mret (Err e)
  end.

Definition adb_socketpair : M world (sysres (Z * Z)) :=
  r ← syscall Socketpair;
  match r with
  | Err e => mret (Err e)
  | Ok (s0, s1) => close_on_exec s0;; close_on_exec s1;; mret (Ok (s0, s1))
  end.

(** [setsockopt(fd, IPPROTO_TCP, TCP_NODELAY, 1)] and [setsockopt(fd,
    SOL_SOCKET, SO_RCVBUF, bufsize)] *)
Definition disable_tcp_nagle (fd : Z) : M world unit := syscall (Setsockopt fd 1 1);; skip.

Definition adb_socket_setbufsize (fd bufsize : Z) : M world Z :=
  r ← syscall (Setsockopt fd 8 bufsize);
  mret (rc r).

Definition adb_sleep_ms (ms : Z) : M world unit := syscall (Usleep (ms * 1000));; skip.

(** [strchr(path, '/')] and [strrchr(path, '/')], as offsets. *)
Definition adb_dirstart (path : bytes) : option nat := strchr 47 path.

Definition adb_dirstop (path : bytes) : option nat := strrchr 47 path.

Definition adb_is_absolute_host_path (path : bytes) : bool :=
  match path with c :: _ => c =? 47 | [] => false end.

(** ** readx and writex (transport.cpp) *)

(** [readx(fd, ptr, len)]: [Some] of the bytes stored at [ptr] for a result of
    0, [None] for -1. *)
Definition readx (fd len : Z) : M world (option bytes) :=
  loop (fun '(len, acc) =>
    if len <=? 0 then mret (inr (Some acc)) else
    r ← adb_read fd len;
    match r with
    | Ok (b :: bs) => mret (inl (len - Z.of_nat (length (b :: bs)), acc ++ b :: bs))
    | Ok [] => mret (inr None)
    | Err e => mret (if e =? EINTR then inl (len, acc) else inr None)
    end) (len, []).

(** [readx(fd, ptr, len)] where [size] bytes are left of the object at [ptr]:
    asking for more than the object holds is outside the contract of [read]. *)
Definition readx_into (size fd len : Z) : M world (option bytes) :=
  if size <? len then undef "read past the end of a buffer" else readx fd len.

(** [writex(fd, ptr, len)] on the [len] bytes at [ptr]. *)
Definition writex (fd : Z) (bs : bytes) : M world Z :=
  loop (fun bs =>
    match bs with
    | [] => mret (inr 0)
    | _ =>
        r ← adb_write fd bs;
        match r with
        | Ok n => if n >? 0 then mret (inl (drop (Z.to_nat n) bs)) else mret (inr (-1))
        | Err e =>
            if e =? EINTR then mret (inl bs) else
            if e =? EAGAIN then adb_sleep_ms 1;; mret (inl bs) else
            mret (inr (-1))
        end
    end) bs.

(** ** Calls a function may make *)

(** Every call of the history satisfies [P]. *)
Definition only (P : call -> Prop) (h : list event) : Prop := Forall (fun e => P (projT1 e)) h.

Definition reads (fd : Z) (c : call) : Prop :=
  match c with Read fd' _ => fd' = fd | _ => False end.

Definition writes (fd : Z) (c : call) : Prop :=
  match c with Write fd' _ => fd' = fd | Usleep _ => True | _ => False end.

(** ** Lemmas *)

Lemma only_nil P : only P [].
Proof. constructor. Qed.

Lemma only_app P h1 h2 : only P (h1 ++ h2) <-> only P h1 /\ only P h2.
Proof. apply Forall_app. Qed.

Lemma only_one (P : call -> Prop) c a : P c -> only P [ev c a].
Proof. intros H. by constructor. Qed.

Lemma only_mono (P Q : call -> Prop) h : only P h -> (forall c, P c -> Q c) -> only Q h.
Proof. intros H HPQ. eapply Forall_impl; [done|]. intros e. apply HPQ. Qed.

#[export] Hint Resolve only_nil only_one : adb.
#[export] Hint Rewrite only_app : adb_simpl.

Lemma written_to_reads fd fd' h : only (reads fd) h -> written_to fd' h = [].
Proof.
  induction 1 as [|[c a] h Hc _ IH]; [done|]. rewrite written_to_cons, IH, app_nil_r.
  destruct c; simpl in *; done.
Qed.

Lemma read_from_writes fd fd' h : only (writes fd) h -> read_from fd' h = [].
Proof.
  induction 1 as [|[c a] h Hc _ IH]; [done|]. rewrite read_from_cons, IH, app_nil_r.
  destruct c; simpl in *; done.
Qed.

Lemma written_to_writes_ne fd fd' h : only (writes fd) h -> fd <> fd' -> written_to fd' h = [].
Proof.
  intros Hh Hne. induction Hh as [|[c a] h Hc _ IH]; [done|].
  rewrite written_to_cons, IH, app_nil_r.
  destruct c; simpl in *; try done. subst. destruct a; [|done].
  by rewrite (proj2 (Z.eqb_neq fd fd')).
Qed.

Lemma read_from_reads_ne fd fd' h : only (reads fd) h -> fd <> fd' -> read_from fd' h = [].
Proof.
  intros Hh Hne. induction Hh as [|[c a] h Hc _ IH]; [done|].
  rewrite read_from_cons, IH, app_nil_r.
  destruct c; simpl in *; try done. subst. destruct a; [|done].
  by rewrite (proj2 (Z.eqb_neq fd fd')).
Qed.

(** Retrying makes the same call again, each time answered by EINTR, until
    another answer arrives. *)
Definition eintr (c : call) : event := ev c (Err EINTR).

Lemma ospec_retry e c Q X :
  (forall (a : ans c) n, answer_ok c a -> a <> Err EINTR ->
     Q a (replicate n (eintr c) ++ [ev c a]) (errno_after a (if decide (n = 0%nat) then e else EINTR))) ->
  (forall n, X Blocked (replicate n (eintr c))) ->
  ospec e (temp_failure_retry c) Q X.
Proof.
  intros HQ HX.
  apply (ospec_loop (fun _ h e1 => exists n, h = replicate n (eintr c) /\
                                     e1 = if decide (n = 0%nat) then e else EINTR)).
  - exists 0%nat. done.
  - intros _ h e1 (n & -> & ->). os_step.
    + apply (ospec_syscall _ _ (fun a new e' => answer_ok c a /\ new = [ev c a] /\
        e' = errno_after a (if decide (n = 0%nat) then e else EINTR))); [done|].
      rewrite app_nil_r. apply HX.
    + intros a n1 e2 (Ha & -> & ->). destruct a as [r|err].
      * os_step. rewrite app_nil_r. by apply HQ.
      * os_step. rewrite app_nil_r. destruct (Z.eqb_spec err EINTR) as [->|Hne].
        -- split; [done|]. exists (S n). rewrite replicate_S_end. done.
        -- apply HQ; [done|]. by intros [= ->].
Qed.

Lemma only_retry P c a n : P c -> only P (replicate n (eintr c) ++ [ev c a]).
Proof.
  intros H. apply only_app. split; [|by apply only_one].
  apply Forall_replicate. done.
Qed.

Lemma only_eintrs (P : call -> Prop) c n : P c -> only P (replicate n (eintr c)).
Proof. intros H. by apply Forall_replicate. Qed.

Lemma read_from_eintrs fd c n : read_from fd (replicate n (eintr c)) = [].
Proof.
  induction n as [|n IH]; [done|]. simpl. rewrite read_from_cons, IH, app_nil_r.
  by destruct c.
Qed.

Lemma written_to_eintrs fd c n : written_to fd (replicate n (eintr c)) = [].
Proof.
  induction n as [|n IH]; [done|]. simpl. rewrite written_to_cons, IH, app_nil_r.
  by destruct c.
Qed.

#[export] Hint Rewrite read_from_eintrs written_to_eintrs : adb_simpl.

(** ** The wrappers' contracts *)

Lemma ospec_adb_read e fd n :
  ospec e (adb_read fd n)
    (fun a new e' => only (reads fd) new /\ new <> [] /\ a <> Err EINTR /\
       match a with
       | Ok bs => read_from fd new = bs /\ Z.of_nat (length bs) <= Z.max 0 n /\ Forall is_byte bs
       | Err err => read_from fd new = [] /\ e' = err
       end)
    (blocked (fun new => only (reads fd) new /\ read_from fd new = [])).
Proof.
  apply (ospec_retry e (Read fd n)).
  - intros a k Ha Hne. split_and!; [by apply only_retry|by destruct k|done|].
    autorewrite with adb_simpl. rewrite read_from_cons. simpl.
    destruct a as [bs|err]; simpl in *; [|done].
    rewrite Z.eqb_refl, app_nil_r. done.
  - intros k. split_and!; [done|by apply only_eintrs|]. by autorewrite with adb_simpl.
Qed.

Lemma ospec_adb_write e fd bs :
  ospec e (adb_write fd bs)
    (fun a new e' => only (writes fd) new /\ new <> [] /\ a <> Err EINTR /\
       match a with
       | Ok r => written_to fd new = take (Z.to_nat r) bs /\ 0 <= r <= Z.of_nat (length bs)
       | Err err => written_to fd new = [] /\ e' = err
       end)
    (blocked (fun new => only (writes fd) new /\ written_to fd new = [])).
Proof.
  apply (ospec_retry e (Write fd bs)).
  - intros a k Ha Hne. split_and!; [by apply only_retry|by destruct k|done|].
    autorewrite with adb_simpl. rewrite written_to_cons. simpl.
    destruct a as [r|err]; simpl in *; [|done].
    rewrite Z.eqb_refl, app_nil_r. done.
  - intros k. split_and!; [done|by apply only_eintrs|]. by autorewrite with adb_simpl.
Qed.

(** A call that is made once. *)
Lemma ospec_close e fd :
  ospec e (adb_close fd) (fun a new _ => new = [ev (Close fd) a]) (blocked (fun new => new = [])).
Proof. by apply (ospec_syscall e (Close fd)). Qed.

Lemma ospec_sleep e ms :
  ospec e (adb_sleep_ms ms)
    (fun _ new _ => exists a, new = [ev (Usleep (ms * 1000)) a]) (blocked (fun new => new = [])).
Proof.
  unfold adb_sleep_ms. os_step.
  - apply (ospec_syscall _ _ (fun a new _ => new = [ev (Usleep (ms * 1000)) a])); done.
  - intros a n1 e1 ->. os_step. by exists a.
Qed.

(** [readx] reads only from its descriptor.  It succeeds exactly when it has
    received [len] bytes, which it then returns in the order they arrived;
    otherwise fewer arrived, and it stops only to wait for more. *)
Lemma ospec_readx e fd len : 0 <= len ->
  ospec e (readx fd len)
    (fun r new _ => only (reads fd) new /\
       match r with
       | Some bs => read_from fd new = bs /\ Z.of_nat (length bs) = len /\ Forall is_byte bs
       | None => Z.of_nat (length (read_from fd new)) < len
       end)
    (blocked (fun new => only (reads fd) new /\ Z.of_nat (length (read_from fd new)) < len)).
Proof.
  intros Hlen. unfold readx.
  apply (ospec_loop (fun '(n, acc) h _ =>
    only (reads fd) h /\ read_from fd h = acc /\ Forall is_byte acc /\
    0 <= n /\ Z.of_nat (length acc) + n = len)).
  - split_and!; [apply only_nil|done|constructor|lia|simpl; lia].
  - intros [n acc] h e1 (Ho & Hr & Hb & Hn & Hsum). destruct (Z.leb_spec n 0).
    { os_step. rewrite app_nil_r. split_and!; [done..|lia|done]. }
    os_call ospec_adb_read.
    + intros x new (-> & Ho' & Hr'). split; [done|].
      rewrite only_app, read_from_app, Hr', Hr, app_nil_r. split; [by split|]. lia.
    + intros a n1 e2 (Ho' & Hne & _ & Ha). destruct a as [[|b bs]|err].
      * destruct Ha as [Hr' _]. os_step. rewrite app_nil_r.
        rewrite only_app, read_from_app, Hr', Hr, app_nil_r. split; [by split|]. lia.
      * destruct Ha as (Hr' & Hl & Hb'). os_step. rewrite app_nil_r. split; [done|].
        rewrite only_app, read_from_app, Hr', Hr, Forall_app, length_app.
        split_and!; [done..|lia|lia].
      * destruct Ha as [Hr' ->]. os_step. rewrite app_nil_r.
        destruct (err =? EINTR); rewrite only_app, read_from_app, Hr', Hr, app_nil_r.
        -- split_and!; done.
        -- split; [by split|]. lia.
Qed.

Lemma readx_into_fits size fd len : len <= size -> readx_into size fd len = readx fd len.
Proof. intros H. unfold readx_into. by destruct (Z.ltb_spec size len); [lia|]. Qed.

Lemma ospec_readx_into e size fd len : 0 <= len <= size ->
  ospec e (readx_into size fd len)
    (fun r new _ => only (reads fd) new /\
       match r with
       | Some bs => read_from fd new = bs /\ Z.of_nat (length bs) = len /\ Forall is_byte bs
       | None => Z.of_nat (length (read_from fd new)) < len
       end)
    (blocked (fun new => only (reads fd) new /\ Z.of_nat (length (read_from fd new)) < len)).
Proof. intros [H1 H2]. rewrite readx_into_fits by done. by apply ospec_readx. Qed.

(** [writex] writes only to its descriptor, in order: on success exactly the
    bytes it was given, on failure or while it waits a proper prefix of them. *)
Lemma ospec_writex e fd bs :
  ospec e (writex fd bs)
    (fun r new _ => only (writes fd) new /\
       ((r = 0 /\ written_to fd new = bs) \/
        (r = -1 /\ exists rest, rest <> [] /\ bs = written_to fd new ++ rest)))
    (blocked (fun new => only (writes fd) new /\
       exists rest, rest <> [] /\ bs = written_to fd new ++ rest)).
Proof.
  unfold writex.
  apply (ospec_loop (fun rest h _ => only (writes fd) h /\ bs = written_to fd h ++ rest)).
  - split; [constructor|done].
  - intros rest h e1 [Ho Hw]. destruct rest as [|c rest].
    { os_step. rewrite !app_nil_r in *. split; [done|]. by left. }
    os_call ospec_adb_write.
    + intros x new (-> & Ho' & Hw'). split; [done|].
      rewrite only_app, written_to_app, Hw', app_nil_r. split; [by split|]. by exists (c :: rest).
    + intros a n1 e2 (Ho' & Hne & _ & Ha). destruct a as [r|err].
      * destruct Ha as (Hw' & Hr). destruct (Z.gtb_spec r 0); os_step;
          rewrite app_nil_r, only_app, written_to_app, Hw'.
        -- split; [done|]. split; [by split|]. rewrite Hw, <- !app_assoc. f_equal.
           by rewrite take_drop.
        -- split; [by split|]. right. split; [done|]. exists (c :: rest). split; [done|].
           replace r with 0 by lia. by rewrite app_nil_r.
      * destruct Ha as (Hw' & ->).
        assert (Hstay : only (writes fd) (h ++ n1) /\ bs = written_to fd (h ++ n1) ++ c :: rest).
        { rewrite only_app, written_to_app, Hw', app_nil_r. by split. }
        destruct (err =? EINTR).
        { os_step. rewrite app_nil_r. by split. }
        destruct (err =? EAGAIN).
        -- os_call ospec_sleep.
           ++ intros x new (-> & ->). split; [done|]. rewrite app_nil_r.
              split; [apply Hstay|]. exists (c :: rest). split; [done|apply Hstay].
           ++ intros _ n2 e3 (a & ->). os_step. rewrite app_nil_r. split; [by destruct n1|].
              rewrite app_assoc, (only_app _ (h ++ n1)), (written_to_app _ (h ++ n1)), written_to_cons. simpl.
              rewrite app_nil_r. split_and!; [tauto|by apply only_one|tauto].
        -- os_step. rewrite app_nil_r. split; [apply Hstay|]. right. split; [done|].
           exists (c :: rest). split; [done|apply Hstay].
Qed.

(** ** Descriptors a run closed *)

Definition closed_fds (h : list event) : list Z :=
  omap (fun e : event => match e with existT (Close fd) _ => Some fd | _ => None end) h.

Lemma closed_fds_app h1 h2 : closed_fds (h1 ++ h2) = closed_fds h1 ++ closed_fds h2.
Proof. apply omap_app. Qed.

#[export] Hint Rewrite closed_fds_app : adb_simpl.

Lemma closed_fds_writes fd h : only (writes fd) h -> closed_fds h = [].
Proof.
  induction 1 as [|[c a] h Hc _ IH]; [done|]. unfold closed_fds in *. simpl. destruct c; simpl in *; done.
Qed.

Lemma closed_fds_reads fd h : only (reads fd) h -> closed_fds h = [].
Proof.
  induction 1 as [|[c a] h Hc _ IH]; [done|]. unfold closed_fds in *. simpl. destruct c; simpl in *; done.
Qed.

(** ** Failures leave their trace *)

(** A read that ended the stream or failed. *)
Definition read_failed (fd : Z) (h : list event) : Prop :=
  exists n (a : ans (Read fd n)), ev (Read fd n) a ∈ h /\
    match a with Ok bs => bs = [] | Err err => err <> EINTR end.

(** A write that was refused for good. *)
Definition write_failed (fd : Z) (h : list event) : Prop :=
  exists bs (a : ans (Write fd bs)), ev (Write fd bs) a ∈ h /\
    match a with Ok r => r <= 0 | Err err => err <> EINTR /\ err <> EAGAIN end.

Lemma read_failed_app fd h1 h2 : read_failed fd h1 \/ read_failed fd h2 -> read_failed fd (h1 ++ h2).
Proof. intros [(n & a & H & ?)|(n & a & H & ?)]; exists n, a; (split; [|done]); apply elem_of_app; auto. Qed.

Lemma write_failed_app fd h1 h2 : write_failed fd h1 \/ write_failed fd h2 -> write_failed fd (h1 ++ h2).
Proof. intros [(n & a & H & ?)|(n & a & H & ?)]; exists n, a; (split; [|done]); apply elem_of_app; auto. Qed.

Lemma ospec_conj {A} e (m : M world A) Q1 X1 Q2 X2 :
  ospec e m Q1 X1 -> ospec e m Q2 X2 ->
  ospec e m (fun a new e' => Q1 a new e' /\ Q2 a new e') (fun x new => X1 x new /\ X2 x new).
Proof.
  intros H1 H2 w Hp He. specialize (H1 w Hp He). specialize (H2 w Hp He). unfold wp in *.
  destruct (m w) as [[a|x] w'], H1 as (n1 & S1 & ?), H2 as (n2 & S2 & ?); exists n1; (split; [done|]);
    by rewrite <- (steps_calls_since _ _ _ S1), (steps_calls_since _ _ _ S2) in *.
Qed.

Lemma ospec_readx_failed e fd len :
  ospec e (readx fd len) (fun r new _ => r = None -> read_failed fd new) (fun _ _ => True).
Proof.
  unfold readx. apply (ospec_loop (fun _ _ _ => True)); [done|].
  intros [n acc] h e1 _. destruct (n <=? 0); [by os_step|].
  eapply ospec_seq; [apply (ospec_retry _ _ (fun a new _ => ev (Read fd n) a ∈ new /\ a <> Err EINTR /\ new <> [])
    (fun _ _ => True))|done|].
  - intros a k _ Ha. split_and!; [set_solver|done|by destruct k].
  - done.
  - intros a n1 e2 (Hin & Ha & Hne). destruct a as [[|b bs]|err]; os_step; rewrite app_nil_r.
    + intros _. apply read_failed_app. right. by exists n, (Ok []).
    + done.
    + destruct (Z.eqb_spec err EINTR) as [->|Hx]; [done|]. intros _. apply read_failed_app. right.
      by exists n, (Err err).
Qed.

Lemma ospec_writex_failed e fd bs :
  ospec e (writex fd bs) (fun r new _ => r <> 0 -> write_failed fd new) (fun _ _ => True).
Proof.
  unfold writex. apply (ospec_loop (fun _ _ _ => True)); [done|].
  intros [|b rest] h e1 _; [by os_step|].
  eapply ospec_seq; [apply (ospec_retry _ _ (fun a new _ => ev (Write fd (b :: rest)) a ∈ new /\ new <> [])
    (fun _ _ => True))|done|].
  - intros a k _ Ha. split; [set_solver|by destruct k].
  - done.
  - intros a n1 e2 (Hin & Hne). destruct a as [r|err].
    + destruct (Z.gtb_spec r 0); os_step; rewrite app_nil_r; [done|]. intros _. apply write_failed_app. right.
      by exists (b :: rest), (Ok r).
    + destruct (Z.eqb_spec err EINTR); [by os_step; rewrite app_nil_r|].
      destruct (Z.eqb_spec err EAGAIN).
      * os_call ospec_sleep; [done|]. intros _ n2 e3 _. os_step. rewrite app_nil_r. split; [|done].
        by intros [? _]%app_eq_nil.
      * os_step. rewrite app_nil_r. intros _. apply write_failed_app. right. by exists (b :: rest), (Err err).
Qed.

(** The contracts of [readx] and [writex] with the reason of a failure. *)
Lemma ospec_readx_why e fd len : 0 <= len ->
  ospec e (readx fd len)
    (fun r new _ => only (reads fd) new /\
       match r with
       | Some bs => read_from fd new = bs /\ Z.of_nat (length bs) = len /\ Forall is_byte bs
       | None => Z.of_nat (length (read_from fd new)) < len /\ read_failed fd new
       end)
    (blocked (fun new => only (reads fd) new /\ Z.of_nat (length (read_from fd new)) < len)).
Proof.
  intros Hl. eapply ospec_mono; [apply (ospec_conj _ _ _ _ _ _ (ospec_readx e fd len Hl) (ospec_readx_failed e fd len))| |].
  - intros [bs|] new e' [[? ?] ?]; naive_solver.
  - by intros x new [? _].
Qed.

Lemma ospec_writex_why e fd bs :
  ospec e (writex fd bs)
    (fun r new _ => only (writes fd) new /\
       ((r = 0 /\ written_to fd new = bs) \/
        (r = -1 /\ write_failed fd new /\ exists rest, rest <> [] /\ bs = written_to fd new ++ rest)))
    (blocked (fun new => only (writes fd) new /\
       exists rest, rest <> [] /\ bs = written_to fd new ++ rest)).
Proof.
  eapply ospec_mono; [apply (ospec_conj _ _ _ _ _ _ (ospec_writex e fd bs) (ospec_writex_failed e fd bs))| |].
  - intros r new e' [[? [?|[-> ?]]] Hf]; [auto|]. split; [done|]. right. split_and!; [done|by apply Hf|done].
  - by intros x new [? _].
Qed.
