(* ===== verification/Wire.v ===== *)
(** * The wire format: packets, checks, and the two ends of a local transport

    [adb.h] declares [amessage] and [apacket]; [transport.cpp] fills the
    checksum and magic before sending ([send_packet]) and checks them on
    arrival ([check_header], [check_data]); [transport_local.cpp] and
    [transport_usb.cpp] move packets over a byte stream, swapping the header
    words on big-endian hosts ([fix_endians]). *)

From S2P Require Import Prelude Effects Os Sysdeps.

(** ** Data (adb.h) *)

Definition MAX_PAYLOAD : Z := 4096.

Definition A_SYNC : Z := 0x434e5953.
Definition A_CNXN : Z := 0x4e584e43.
Definition A_OPEN : Z := 0x4e45504f.
Definition A_OKAY : Z := 0x59414b4f.
Definition A_CLSE : Z := 0x45534c43.
Definition A_WRTE : Z := 0x45545257.
Definition A_AUTH : Z := 0x48545541.

Definition A_VERSION : Z := 0x01000000.

Record amessage := {
  command : Z;
  arg0 : Z;
  arg1 : Z;
  data_length : Z;
  data_check : Z;
  magic : Z;
}.

(** [data] is the whole array of [MAX_PAYLOAD] bytes; what a message carries
    is its first [data_length] bytes.  [next] and [ptr] belong to the socket
    queues and are modelled there. *)
Record apacket := {
  msg : amessage;
  data : bytes;
}.

(** ** Checksums (transport.cpp) *)

(** [while(count-- > 0) sum += *x++;] on unsigned 32-bit [sum]. *)
Fixpoint sum_bytes (sum : Z) (x : bytes) : Z :=
  match x with
  | [] => sum
  | b :: x' => sum_bytes (u32 (sum + b)) x'
  end.

(** The part of [send_packet] that completes the header: the magic word and
    the checksum of the first [data_length] bytes. *)
Definition seal (p : apacket) : apacket :=
  {| msg := {| command := command (msg p); arg0 := arg0 (msg p); arg1 := arg1 (msg p);
               data_length := data_length (msg p);
               data_check := sum_bytes 0 (take (Z.to_nat (data_length (msg p))) (data p));
               magic := Z.lxor (command (msg p)) 0xffffffff |};
     data := data p |}.

Definition check_header (p : apacket) : Z :=
  if negb (magic (msg p) =? Z.lxor (command (msg p)) 0xffffffff) then -1 else
  if data_length (msg p) >? MAX_PAYLOAD then -1 else 0.

Definition check_data (p : apacket) : Z :=
  let sum := sum_bytes 0 (take (Z.to_nat (data_length (msg p))) (data p)) in
  if negb (sum =? data_check (msg p)) then -1 else 0.

(** ** Byte order *)

(** How the host lays out a 32-bit word in memory. *)
Definition host_bytes (big_endian : bool) (x : Z) : bytes :=
  if big_endian then rev (le32 x) else le32 x.

Definition host_word (big_endian : bool) (bs : bytes) : Z :=
  if big_endian then le_val (rev bs) else le_val bs.

(** The macro [H4]. *)
Definition H4 (x : Z) : Z :=
  Z.lor (Z.lor (Z.lor
    (Z.shiftr (Z.land x 0xFF000000) 24)
    (Z.shiftr (Z.land x 0x00FF0000) 8))
    (Z.shiftl (Z.land x 0x0000FF00) 8))
    (Z.shiftl (Z.land x 0x000000FF) 24).

Definition host_to_le32 (big_endian : bool) (n : Z) : Z := if big_endian then H4 n else n.

Definition fix_endians (big_endian : bool) (m : amessage) : amessage :=
  if big_endian then
    {| command := H4 (command m); arg0 := H4 (arg0 m); arg1 := H4 (arg1 m);
       data_length := H4 (data_length m); data_check := H4 (data_check m); magic := H4 (magic m) |}
  else m.

(** The memory of an [amessage]: six words in declaration order. *)
Definition message_words (m : amessage) : list Z :=
  [command m; arg0 m; arg1 m; data_length m; data_check m; magic m].

Definition message_bytes (big_endian : bool) (m : amessage) : bytes :=
  message_words m ≫= host_bytes big_endian.

Definition message_of_bytes (big_endian : bool) (bs : bytes) : amessage :=
  let w i := host_word big_endian (take 4 (drop (4 * i)%nat bs)) in
  {| command := w 0%nat; arg0 := w 1%nat; arg1 := w 2%nat;
     data_length := w 3%nat; data_check := w 4%nat; magic := w 5%nat |}.

(** [memcpy] of [bs] to the start of the array [buf]. *)
Definition fill (bs buf : bytes) : bytes := bs ++ drop (length bs) buf.

(** ** The local transport's reader and writer (transport_local.cpp) *)

Section local_transport.
Context (big_endian : bool).

(** [remote_read(p, t)] with [t->sfd = sfd]; [p->data] holds [buf] before.  The
    header goes into [p->msg], 24 bytes, the payload into the [MAX_PAYLOAD] bytes
    of [p->data]. *)
Definition remote_read (sfd : Z) (buf : bytes) : M world (option apacket) :=
  h ← readx_into 24 sfd 24;
  match h with
  | None => mret None
  | Some hb =>
      let m := fix_endians big_endian (message_of_bytes big_endian hb) in
      let p := {| msg := m; data := buf |} in
      if negb (check_header p =? 0) then mret None else
      d ← readx_into MAX_PAYLOAD sfd (data_length m);
      match d with
      | None => mret None
      | Some db =>
          let p' := {| msg := m; data := fill db buf |} in
          if negb (check_data p' =? 0) then mret None else mret (Some p')
      end
  end.

(** [remote_write(p, t)]: header and payload in one [writex]. *)
Definition remote_write (sfd : Z) (p : apacket) : M world Z :=
  let length := data_length (msg p) in
  let m := fix_endians big_endian (msg p) in
  r ← writex sfd (message_bytes big_endian m ++ take (Z.to_nat length) (data p));
  mret (if negb (r =? 0) then -1 else 0).
End local_transport.

(** ** Well-formed packets *)

Definition word (x : Z) : Prop := 0 <= x < 2 ^ 32.

Definition wf_message (m : amessage) : Prop := Forall word (message_words m).

(** What the reader accepts: a packet whose header and payload check. *)
Record valid_packet (p : apacket) : Prop := {
  vp_words : wf_message (msg p);
  vp_length : data_length (msg p) <= MAX_PAYLOAD;
  vp_data : length (data p) = Z.to_nat MAX_PAYLOAD;
  vp_magic : magic (msg p) = Z.lxor (command (msg p)) 0xffffffff;
  vp_check : data_check (msg p) = sum_bytes 0 (take (Z.to_nat (data_length (msg p))) (data p));
}.

(** The bytes of a message as they travel: little-endian header, then payload. *)
Definition payload_of (p : apacket) : bytes := take (Z.to_nat (data_length (msg p))) (data p).

Definition wire_bytes (p : apacket) : bytes :=
  (message_words (msg p) ≫= le32) ++ payload_of p.

(** ** Lemmas: byte order *)

Lemma land_low_zero a b k : 0 <= k -> 0 <= a < 2 ^ k -> Z.land a (Z.shiftl b k) = 0.
Proof.
  intros Hk Ha. apply testbit_ext. intros n Hn. bits_norm.
  destruct (Z.ltb_spec n k) as [Hlt|Hge].
  - rewrite Z.shiftl_spec_low by lia. apply andb_false_r.
  - rewrite <- (Z.mod_small a (2 ^ k)) by lia. by rewrite Z.mod_pow2_bits_high by lia.
Qed.

Lemma lor_shiftl_add a b k : 0 <= k -> 0 <= a < 2 ^ k -> Z.lor a (Z.shiftl b k) = a + b * 2 ^ k.
Proof.
  intros Hk Ha. pose proof (land_low_zero a b k Hk Ha) as E.
  rewrite <- Z.lxor_lor, <- Z.add_nocarry_lxor by done. by rewrite Z.shiftl_mul_pow2 by lia.
Qed.

(** Selecting byte [i] of a word, in place. *)
Lemma land_byte x i : 0 <= i -> Z.land x (Z.shiftl 255 i) = Z.shiftl ((x / 2 ^ i) mod 256) i.
Proof.
  intros Hi. change 256 with (2 ^ 8). rewrite <- Z.land_ones by lia.
  rewrite <- Z.shiftr_div_pow2 by lia. apply testbit_ext. intros n Hn. bits_norm.
  change (Z.ones 8) with 255. destruct (Z.ltb_spec n i) as [Hlt|Hge].
  - rewrite !Z.shiftl_spec_low by lia. apply andb_false_r.
  - rewrite !Z.shiftl_spec_high by lia. bits_norm. rewrite Z.shiftr_spec by lia.
    by replace (n - i + i) with n by lia.
Qed.

(** [H4] reverses the four bytes of a word. *)
Lemma H4_reverses x : H4 x = le_val (rev (le32 x)).
Proof.
  unfold H4.
  change 0xFF000000 with (Z.shiftl 255 24). change 0x00FF0000 with (Z.shiftl 255 16).
  change 0x0000FF00 with (Z.shiftl 255 8). change 0x000000FF with (Z.shiftl 255 0).
  rewrite !land_byte by lia.
  rewrite Z.shiftr_shiftl_l, Z.shiftr_shiftl_l, !Z.shiftl_shiftl by lia.
  change (24 - 24) with 0. change (16 - 8) with 8. change (8 + 8) with 16. change (0 + 24) with 24.
  rewrite Z.shiftl_0_r, Z.pow_0_r, Z.div_1_r.
  assert (Hb : forall y, 0 <= y mod 256 < 256) by (intros; apply Z.mod_pos_bound; lia).
  cbn [le_bytes rev app le_val]. rewrite !Z.div_div by lia.
  change (256 * (256 * 256)) with (2 ^ 24). change (256 * 256) with (2 ^ 16).
  change (x / 256) with (x / 2 ^ 8).
  pose proof (Hb (x / 2 ^ 24)) as H3. pose proof (Hb (x / 2 ^ 16)) as H2.
  pose proof (Hb (x / 2 ^ 8)) as H1. pose proof (Hb x) as H0.
  generalize dependent ((x / 2 ^ 24) mod 256). generalize dependent ((x / 2 ^ 16) mod 256).
  generalize dependent ((x / 2 ^ 8) mod 256). generalize dependent (x mod 256).
  intros b0 H0 b1 H1 b2 H2 b3 H3.
  rewrite (lor_shiftl_add b3 b2 8) by lia. rewrite (lor_shiftl_add _ b1 16) by lia.
  rewrite (lor_shiftl_add _ b0 24) by lia. lia.
Qed.

Lemma rev_le32_bytes x : Forall is_byte (rev (le32 x)).
Proof. apply Forall_rev, le_bytes_bytes. Qed.

Lemma H4_word x : word (H4 x).
Proof.
  rewrite H4_reverses. pose proof (le_val_range _ (rev_le32_bytes x)) as H.
  rewrite length_rev, length_le_bytes in H. done.
Qed.

Lemma le32_H4 x : le32 (H4 x) = rev (le32 x).
Proof.
  rewrite H4_reverses. pose proof (le_bytes_le_val _ (rev_le32_bytes x)) as E.
  by rewrite length_rev, length_le_bytes in E.
Qed.

Lemma H4_involutive x : word x -> H4 (H4 x) = x.
Proof. intros Hx. rewrite H4_reverses, le32_H4, rev_involutive. by apply le_val_le32. Qed.

(** A swapped word, laid out by a big-endian host, is the little-endian word. *)
Lemma host_bytes_fix be x : host_bytes be (host_to_le32 be x) = le32 x.
Proof. unfold host_bytes, host_to_le32. destruct be; [|done]. by rewrite le32_H4, rev_involutive. Qed.

Lemma host_word_fix be bs :
  Forall is_byte bs -> length bs = 4%nat -> host_to_le32 be (host_word be bs) = le_val bs.
Proof.
  intros Hb Hl. unfold host_word, host_to_le32. destruct be; [|done]. rewrite H4_reverses.
  assert (E : le32 (le_val (rev bs)) = rev bs).
  { rewrite <- (le_bytes_le_val (rev bs)) at 2 by (by apply Forall_rev).
    by rewrite length_rev, Hl. }
  by rewrite E, rev_involutive.
Qed.

Lemma fix_endians_words be m :
  message_words (fix_endians be m) = host_to_le32 be <$> message_words m.
Proof. destruct be; [done|]. unfold fix_endians. by destruct m. Qed.

(** Whatever the host's byte order, the header leaves in little-endian order. *)
Lemma message_bytes_fix be m :
  message_bytes be (fix_endians be m) = message_words m ≫= le32.
Proof.
  unfold message_bytes. rewrite fix_endians_words, list_fmap_bind.
  apply list_bind_ext; [|done]. intros x. apply host_bytes_fix.
Qed.

Lemma length_header m : length (message_words m ≫= le32) = 24%nat.
Proof. done. Qed.

(** ... and it is read back on either kind of host. *)
Lemma message_of_bytes_fix be m :
  wf_message m -> fix_endians be (message_of_bytes be (message_words m ≫= le32)) = m.
Proof.
  intros Hwf. unfold wf_message, message_words in Hwf.
  repeat (apply Forall_cons in Hwf as [? Hwf]).
  assert (Hw : forall x, word x -> host_to_le32 be (host_word be (le32 x)) = x).
  { intros x Hx. rewrite host_word_fix by (try apply le_bytes_bytes; done). by apply le_val_le32. }
  destruct m as [c a0 a1 dl dc mg]; simpl in *.
  unfold fix_endians, message_of_bytes in *. unfold host_to_le32 in Hw.
  change (take 4 (drop (4 * 0) _)) with (le32 c).
  destruct be; simpl in *; f_equal; by apply Hw.
Qed.

Lemma six_words (bs : bytes) :
  length bs = 24%nat ->
  take 4 (drop (4 * 0) bs) ++ take 4 (drop (4 * 1) bs) ++ take 4 (drop (4 * 2) bs) ++
  take 4 (drop (4 * 3) bs) ++ take 4 (drop (4 * 4) bs) ++ take 4 (drop (4 * 5) bs) ++ [] = bs.
Proof.
  intros Hl. rewrite (take_ge (drop (4 * 5) bs)) by (rewrite length_drop; lia).
  rewrite app_nil_r.
  assert (E : forall i, take 4 (drop (4 * i) bs) ++ drop (4 * S i) bs = drop (4 * i) bs).
  { intros i. replace (4 * S i)%nat with (4 * i + 4)%nat by lia.
    rewrite <- drop_drop. apply take_drop. }
  by rewrite !E.
Qed.

Lemma message_of_bytes_wf be bs :
  Forall is_byte bs -> length bs = 24%nat ->
  wf_message (fix_endians be (message_of_bytes be bs)) /\
  message_words (fix_endians be (message_of_bytes be bs)) ≫= le32 = bs.
Proof.
  intros Hb Hl.
  assert (Hc : forall i, (i < 6)%nat ->
    let ch := take 4 (drop (4 * i) bs) in Forall is_byte ch /\ length ch = 4%nat).
  { intros i Hi. split; [by apply Forall_take, Forall_drop|].
    rewrite length_take, length_drop. lia. }
  assert (Hw : forall i, (i < 6)%nat ->
    let ch := take 4 (drop (4 * i) bs) in
    word (host_to_le32 be (host_word be ch)) /\ le32 (host_to_le32 be (host_word be ch)) = ch).
  { intros i Hi ch. destruct (Hc i Hi) as [H1 H2]. fold ch in H1, H2.
    rewrite host_word_fix by done. split.
    - pose proof (le_val_range _ H1) as H. by rewrite H2 in H.
    - pose proof (le_bytes_le_val _ H1) as H. by rewrite H2 in H. }
  unfold wf_message. rewrite fix_endians_words. unfold message_of_bytes, message_words. simpl fmap.
  split.
  - repeat apply Forall_cons_2; [..|constructor].
    + exact (proj1 (Hw 0%nat ltac:(lia))). + exact (proj1 (Hw 1%nat ltac:(lia))).
    + exact (proj1 (Hw 2%nat ltac:(lia))). + exact (proj1 (Hw 3%nat ltac:(lia))).
    + exact (proj1 (Hw 4%nat ltac:(lia))). + exact (proj1 (Hw 5%nat ltac:(lia))).
  - change (le32 (host_to_le32 be (host_word be (take 4 (drop (4 * 0) bs)))) ++
            le32 (host_to_le32 be (host_word be (take 4 (drop (4 * 1) bs)))) ++
            le32 (host_to_le32 be (host_word be (take 4 (drop (4 * 2) bs)))) ++
            le32 (host_to_le32 be (host_word be (take 4 (drop (4 * 3) bs)))) ++
            le32 (host_to_le32 be (host_word be (take 4 (drop (4 * 4) bs)))) ++
            le32 (host_to_le32 be (host_word be (take 4 (drop (4 * 5) bs)))) ++ [] = bs).
    rewrite (proj2 (Hw 0%nat ltac:(lia))), (proj2 (Hw 1%nat ltac:(lia))),
      (proj2 (Hw 2%nat ltac:(lia))), (proj2 (Hw 3%nat ltac:(lia))),
      (proj2 (Hw 4%nat ltac:(lia))), (proj2 (Hw 5%nat ltac:(lia))).
    by apply six_words.
Qed.

(** ** Lemmas: checksums *)

Fixpoint sum_list (x : bytes) : Z :=
  match x with [] => 0 | b :: x' => b + sum_list x' end.

Lemma sum_bytes_spec s x : word s -> sum_bytes s x = u32 (s + sum_list x).
Proof.
  revert s. induction x as [|b x IH]; intros s Hs; simpl.
  - rewrite Z.add_0_r. by rewrite u32_small.
  - rewrite IH by apply u32_range. rewrite u32_u32_add. f_equal. lia.
Qed.

Lemma sum_list_insert x i b c :
  x !! i = Some b -> sum_list (<[i := c]> x) = sum_list x - b + c.
Proof.
  revert i. induction x as [|a x IH]; intros [|i] H; simplify_eq/=; [lia|]. rewrite (IH i) by done. lia.
Qed.

(** One corrupted byte always changes the checksum. *)
Lemma sum_bytes_detects x i b c :
  x !! i = Some b -> is_byte b -> is_byte c -> b <> c ->
  sum_bytes 0 (<[i := c]> x) <> sum_bytes 0 x.
Proof.
  intros Hi Hb Hc Hne. rewrite !sum_bytes_spec by done. rewrite (sum_list_insert _ _ b) by done.
  unfold u32. rewrite !Z.add_0_l. intros E. unfold is_byte in *.
  assert (Hd : (c - b) mod 2 ^ 32 = 0).
  { replace (c - b) with ((sum_list x - b + c) - sum_list x) by lia.
    by rewrite Zminus_mod, E, Z.sub_diag. }
  apply Z.mod_divide in Hd as [k Hk]; lia.
Qed.

(** ** Lemmas: what the two checks accept *)

Lemma check_header_ok p :
  check_header p = 0 <->
  magic (msg p) = Z.lxor (command (msg p)) 0xffffffff /\ data_length (msg p) <= MAX_PAYLOAD.
Proof.
  unfold check_header. destruct (Z.eqb_spec (magic (msg p)) (Z.lxor (command (msg p)) 0xffffffff));
    simpl; [|naive_solver].
  destruct (Z.gtb_spec (data_length (msg p)) MAX_PAYLOAD); naive_solver lia.
Qed.

Lemma check_data_ok p : check_data p = 0 <-> data_check (msg p) = sum_bytes 0 (payload_of p).
Proof.
  unfold check_data, payload_of.
  destruct (Z.eqb_spec (sum_bytes 0 (take (Z.to_nat (data_length (msg p))) (data p)))
    (data_check (msg p))); simpl; naive_solver.
Qed.

Lemma lxor_word a b : word a -> word b -> word (Z.lxor a b).
Proof.
  unfold word. intros Ha Hb.
  assert (E : Z.lxor a b = (Z.lxor a b) mod 2 ^ 32); [|rewrite E; apply Z.mod_pos_bound; lia].
  rewrite <- Z.land_ones by lia. apply testbit_ext. intros n Hn. bits_norm.
  destruct (Z.ltb_spec n 32).
  - rewrite Z.ones_spec_low by lia. by rewrite andb_true_r.
  - rewrite <- (Z.mod_small a (2 ^ 32)), <- (Z.mod_small b (2 ^ 32)) by lia.
    rewrite !Z.mod_pow2_bits_high by lia. done.
Qed.

(** Sealing any packet whose fields are words gives one the reader accepts. *)
Lemma seal_valid p :
  Forall word [command (msg p); arg0 (msg p); arg1 (msg p); data_length (msg p)] ->
  data_length (msg p) <= MAX_PAYLOAD -> length (data p) = Z.to_nat MAX_PAYLOAD ->
  valid_packet (seal p).
Proof.
  intros Hw Hl Hd. repeat (apply Forall_cons in Hw as [? Hw]).
  split; simpl; [|done..]. unfold wf_message; simpl.
  repeat apply Forall_cons_2; [done..| |by apply lxor_word|constructor].
  rewrite sum_bytes_spec by done. apply u32_range.
Qed.

Lemma valid_header p : valid_packet p -> check_header p = 0.
Proof. intros []. by apply check_header_ok. Qed.

Lemma length_payload_of p : valid_packet p -> Z.of_nat (length (payload_of p)) = data_length (msg p).
Proof.
  intros [Hw Hl Hd _ _]. unfold payload_of. rewrite length_take, Hd.
  unfold wf_message in Hw. repeat (apply Forall_cons in Hw as [? Hw]). unfold word, MAX_PAYLOAD in *. lia.
Qed.

(** The header a reader has received determines the message. *)
Lemma wire_header be q hb rest :
  valid_packet q -> wire_bytes q = hb ++ rest -> length hb = 24%nat ->
  fix_endians be (message_of_bytes be hb) = msg q /\ rest = payload_of q.
Proof.
  intros Hq E Hl. unfold wire_bytes in E. apply app_inj_1 in E as [E1 E2]; [|by rewrite Hl].
  subst. split; [|done]. apply message_of_bytes_fix, Hq.
Qed.

Lemma payload_of_fill m db buf :
  Z.of_nat (length db) = data_length m -> payload_of {| msg := m; data := fill db buf |} = db.
Proof.
  intros E. unfold payload_of, fill. simpl. rewrite <- E, Nat2Z.id. apply take_app_length.
Qed.

Lemma length_fill db buf : (length db <= length buf)%nat -> length (fill db buf) = length buf.
Proof. intros H. unfold fill. rewrite length_app, length_drop. lia. Qed.

(** ** The local transport's contract *)

Lemma ospec_remote_write be e sfd p :
  ospec e (remote_write be sfd p)
    (fun r new _ => only (writes sfd) new /\
       ((r = 0 /\ written_to sfd new = wire_bytes p) \/
        (r = -1 /\ exists rest, rest <> [] /\ wire_bytes p = written_to sfd new ++ rest)))
    (blocked (fun new => only (writes sfd) new /\
       exists rest, rest <> [] /\ wire_bytes p = written_to sfd new ++ rest)).
Proof.
  unfold remote_write. rewrite message_bytes_fix. fold (payload_of p). fold (wire_bytes p).
  os_call ospec_writex; [done|]. intros r n1 e1 (Ho & Hr). os_step. rewrite app_nil_r.
  split; [done|]. destruct Hr as [[-> Hw]|[-> Hw]]; [left|right]; done.
Qed.

(** The reader returns a packet exactly when the bytes it consumed are the
    wire form of a valid one; then that is the packet it returns. *)
Lemma ospec_remote_read be e sfd buf :
  length buf = Z.to_nat MAX_PAYLOAD ->
  ospec e (remote_read be sfd buf)
    (fun r new _ => only (reads sfd) new /\
       match r with
       | Some p => valid_packet p /\ wire_bytes p = read_from sfd new
       | None => forall q, valid_packet q -> wire_bytes q <> read_from sfd new
       end)
    (blocked (fun new => only (reads sfd) new)).
Proof.
  intros Hbuf. unfold remote_read.
  eapply ospec_seq; [apply ospec_readx_into; lia| |].
  { by intros x n [-> [? _]]. }
  intros h n1 e1 [Ho1 Hh]. destruct h as [hb|].
  2:{ os_step. rewrite app_nil_r. split; [done|]. intros q Hq E.
      apply (f_equal length) in E. unfold wire_bytes in E. rewrite length_app, length_header in E. lia. }
  destruct Hh as (Hr1 & Hl1 & Hb1).
  destruct (message_of_bytes_wf be hb) as [Hwf Hhb]; [done|lia|].
  set (m := fix_endians be (message_of_bytes be hb)) in *.
  destruct (Z.eqb_spec (check_header {| msg := m; data := buf |}) 0) as [Hc|Hc]; simpl negb; cbv iota.
  2:{ os_step. rewrite app_nil_r. split; [done|]. intros q Hq E. rewrite Hr1 in E.
      destruct (wire_header be q hb []) as [Em _]; [done|by rewrite app_nil_r|lia|].
      apply Hc, check_header_ok. simpl. subst m. rewrite Em. by apply check_header_ok, valid_header. }
  apply check_header_ok in Hc as [Hmg Hlen]. simpl in Hmg, Hlen.
  assert (Hdl : 0 <= data_length m).
  { unfold wf_message in Hwf. repeat (apply Forall_cons in Hwf as [? Hwf]). unfold word in *. lia. }
  eapply ospec_seq; [by apply ospec_readx_into| |].
  { intros x n [-> [? _]]. split; [done|]. by apply only_app. }
  intros d n2 e2 [Ho2 Hd].
  assert (Ho : only (reads sfd) (n1 ++ n2)) by (by apply only_app).
  destruct d as [db|].
  2:{ os_step. rewrite app_nil_r. split; [done|]. intros q Hq E.
      rewrite read_from_app, Hr1 in E. destruct (wire_header be q hb (read_from sfd n2)) as [Em Ep]; [done..|lia|].
      pose proof (length_payload_of q Hq) as Hlp. rewrite <- Ep in Hlp. fold m in Em. rewrite Em in Hd. lia. }
  destruct Hd as (Hr2 & Hl2 & Hb2).
  pose proof (payload_of_fill m db buf Hl2) as Hpay.
  destruct (Z.eqb_spec (check_data {| msg := m; data := fill db buf |}) 0) as [Hk|Hk]; simpl negb; cbv iota;
    os_step; rewrite app_nil_r; (split; [done|]).
  - apply check_data_ok in Hk. rewrite Hpay in Hk. simpl in Hk. split.
    + split; simpl; [done|done| |done|].
      * rewrite length_fill; [done|]. unfold MAX_PAYLOAD in *. lia.
      * rewrite Hk. f_equal. symmetry. exact Hpay.
    + unfold wire_bytes. rewrite Hpay, read_from_app, Hr1, Hr2. cbn [msg]. by rewrite Hhb.
  - intros q Hq E. rewrite read_from_app, Hr1, Hr2 in E.
    destruct (wire_header be q hb db) as [Em Ep]; [done..|lia|]. fold m in Em.
    apply Hk, check_data_ok. rewrite Hpay. simpl. rewrite Em, Ep. apply Hq.
Qed.

(** ** Properties *)

(** C9: a packet written by a host of either byte order and read
    by a host of either byte order arrives unchanged: whenever [remote_write]
    reports success and [remote_read] finishes having consumed exactly the
    bytes that were written, it returns a packet with the same header and the
    same payload. *)
Theorem wire_roundtrip be1 be2 p sfd1 w1 w1' sfd2 buf w2 r w2' :
  posix (w_env w1) -> posix (w_env w2) -> valid_packet p ->
  length buf = Z.to_nat MAX_PAYLOAD ->
  remote_write be1 sfd1 p w1 = (Done 0, w1') ->
  remote_read be2 sfd2 buf w2 = (Done r, w2') ->
  read_from sfd2 (calls_since w2 w2') = written_to sfd1 (calls_since w1 w1') ->
  exists q, r = Some q /\ msg q = msg p /\ payload_of q = payload_of p.
Proof.
  intros Hp1 Hp2 Hv Hbuf Hw Hr Hsame.
  destruct (ospec_run _ _ _ _ _ _ (ospec_remote_write be1 _ sfd1 p) Hp1 Hw) as [_ [[_ E]|[[=] _]]].
  destruct (ospec_run _ _ _ _ _ _ (ospec_remote_read be2 _ sfd2 buf Hbuf) Hp2 Hr) as [_ Hres].
  rewrite Hsame, E in Hres. destruct r as [q|]; [|by apply Hres in Hv].
  destruct Hres as [Hq Eq]. exists q. split; [done|]. unfold wire_bytes in Eq.
  destruct (wire_header be1 p (message_words (msg q) ≫= le32) (payload_of q) Hv (eq_sym Eq) (length_header _))
    as [Em Ep]. split; [|done].
  rewrite <- Em. symmetry. apply message_of_bytes_fix, Hq.
Qed.

(** C10: for every behaviour of the peer and of the system, and whatever the
    header claims, [remote_read] never asks for more bytes than the packet's
    data array holds, accepted packet or not: it stops only to wait for bytes.
    It reads only from its socket.  It returns a packet only when the packet
    passes both checks and its wire form is exactly what was consumed; when it
    rejects, what it consumed is not the wire form of any valid packet. *)
Theorem remote_read_sound be sfd buf w :
  posix (w_env w) -> length buf = Z.to_nat MAX_PAYLOAD ->
  match remote_read be sfd buf w with
  | (Done (Some p), w') =>
      valid_packet p /\ wire_bytes p = read_from sfd (calls_since w w') /\
      only (reads sfd) (calls_since w w')
  | (Done None, w') =>
      (forall q, valid_packet q -> wire_bytes q <> read_from sfd (calls_since w w')) /\
      only (reads sfd) (calls_since w w')
  | (Stop x, w') => x = Blocked /\ only (reads sfd) (calls_since w w')
  end.
Proof.
  intros Hp Hbuf. pose proof (ospec_remote_read be (w_errno w) sfd buf Hbuf) as Hs.
  destruct (remote_read be sfd buf w) as [[[p|]|x] w'] eqn:E.
  - apply (ospec_run _ _ _ _ _ _ Hs Hp) in E. tauto.
  - apply (ospec_run _ _ _ _ _ _ Hs Hp) in E. tauto.
  - apply (ospec_run_stop _ _ _ _ _ _ Hs Hp) in E. exact E.
Qed.

(** a message whose payload was changed in one byte
    on the way is never accepted. *)
Theorem corrupt_payload_rejected be p i b c sfd buf w r w' :
  posix (w_env w) -> length buf = Z.to_nat MAX_PAYLOAD -> valid_packet p ->
  payload_of p !! i = Some b -> is_byte b -> is_byte c -> b <> c ->
  remote_read be sfd buf w = (Done r, w') ->
  read_from sfd (calls_since w w') =
    (message_words (msg p) ≫= le32) ++ <[i := c]> (payload_of p) ->
  r = None.
Proof.
  intros Hp Hbuf Hv Hi Hb Hc Hne Hr Hin.
  destruct (ospec_run _ _ _ _ _ _ (ospec_remote_read be _ sfd buf Hbuf) Hp Hr) as [_ Hres].
  rewrite Hin in Hres. destruct r as [q|]; [|done]. destruct Hres as [Hq Eq]. exfalso.
  destruct (wire_header be q _ _ Hq Eq (length_header _)) as [Em Ep].
  rewrite message_of_bytes_fix in Em by apply Hv.
  apply (sum_bytes_detects _ _ _ _ Hi Hb Hc Hne). rewrite Ep.
  unfold payload_of at 1. rewrite <- (vp_check _ Hq). rewrite <- Em. apply (vp_check _ Hv).
Qed.

(** The checksum is a plain sum: it does not see the order of the bytes, so
    exchanging two payload bytes goes unnoticed (protocol.txt calls the field
    [data_crc32], "crc32 of data payload"). *)
Lemma checksum_ignores_order a b s x y :
  sum_bytes 0 (s ++ a :: x ++ b :: y) = sum_bytes 0 (s ++ b :: x ++ a :: y).
Proof.
  rewrite !sum_bytes_spec by done. f_equal.
  assert (Happ : forall u v, sum_list (u ++ v) = sum_list u + sum_list v).
  { intros u v. induction u as [|c u IH]; simpl; [done|]. rewrite IH. lia. }
  rewrite !Happ. simpl. rewrite !Happ. simpl. lia.
Qed.

(** *** Witnesses: an OPEN packet for "shell:" *)

Definition demo_packet : apacket :=
  seal {| msg := {| command := A_OPEN; arg0 := 7; arg1 := 0; data_length := 7;
                    data_check := 0; magic := 0 |};
          data := fill (str "shell:" ++ [0]) (replicate 4096 0) |}.

Lemma demo_packet_valid : valid_packet demo_packet.
Proof.
  apply seal_valid; [|done|done]. simpl. unfold word.
  repeat (apply Forall_cons_2; [split; [discriminate|reflexivity]|]). constructor.
Qed.

Definition demo_world (bs : bytes) : world := boot (stream_env (fun _ => bs)) 10.

Lemma demo_wire_posix bs : Forall is_byte bs -> posix (w_env (demo_world bs)).
Proof. intros H. by apply stream_env_posix. Qed.

Lemma demo_bytes bs : forallb (fun b => bool_decide (is_byte b)) bs = true -> Forall is_byte bs.
Proof.
  intros H. apply List.Forall_forall. intros x Hx.
  eapply List.forallb_forall in H; [|exact Hx]. by apply bool_decide_eq_true in H.
Qed.

Lemma wire_roundtrip_witness : exists q,
  fst (remote_read true 5 (replicate 4096 0) (demo_world (wire_bytes demo_packet))) = Done (Some q) /\
  msg q = msg demo_packet /\ payload_of q = payload_of demo_packet.
Proof.
  destruct (wire_roundtrip false true demo_packet 5 (demo_world []) _ 5 (replicate 4096 0)
    (demo_world (wire_bytes demo_packet)) _ _
    ltac:(apply demo_wire_posix, demo_bytes; reflexivity)
    ltac:(apply demo_wire_posix, demo_bytes; reflexivity)
    demo_packet_valid eq_refl eq_refl eq_refl eq_refl) as (q & E & Hm & Hd).
  exists q. split; [|split; assumption].
  exact (f_equal Done E).
Defined.

Lemma remote_read_sound_witness :
  exists p w', remote_read false 5 (replicate 4096 0) (demo_world (wire_bytes demo_packet)) =
    (Done (Some p), w') /\ valid_packet p.
Proof.
  pose proof (remote_read_sound false 5 (replicate 4096 0) (demo_world (wire_bytes demo_packet))
    ltac:(apply demo_wire_posix, demo_bytes; reflexivity) eq_refl) as H.
  destruct (remote_read false 5 (replicate 4096 0) (demo_world (wire_bytes demo_packet)))
    as [[[p|]|x] w'] eqn:E.
  - exists p, w'. split; [reflexivity|]. exact (proj1 H).
  - vm_compute in E. discriminate E.
  - vm_compute in E. discriminate E.
Defined.

Lemma corrupt_payload_rejected_witness :
  fst (remote_read false 5 (replicate 4096 0)
    (demo_world ((message_words (msg demo_packet) ≫= le32) ++ <[1%nat := 72]> (payload_of demo_packet))))
  = Done None.
Proof.
  destruct (remote_read false 5 (replicate 4096 0)
    (demo_world ((message_words (msg demo_packet) ≫= le32) ++ <[1%nat := 72]> (payload_of demo_packet))))
    as [[r|x] w'] eqn:E; [|vm_compute in E; discriminate E].
  assert (r = None) as ->; [|reflexivity].
  refine (corrupt_payload_rejected false demo_packet 1 104 72 5 (replicate 4096 0) _ r w'
    _ eq_refl demo_packet_valid eq_refl _ _ _ E _).
  - apply demo_wire_posix, demo_bytes. vm_compute. reflexivity.
  - split; [discriminate|reflexivity].
  - split; [discriminate|reflexivity].
  - discriminate.
  - vm_compute in E. injection E as <- <-. vm_compute. reflexivity.
Defined.
