(* ===== verification/Globals.v ===== *)
(** * The daemon's shared data (adb.h, jdwp_service.c)

    The structures the components of adbd link to each other through: sockets
    and their peers, packets, transports with their disconnect callbacks, the
    JDWP processes and trackers, and the authentication state.  Every
    structure type has a heap of its own.  A structure that embeds another at
    its start (a [JdwpTracker] or an [aremotesocket] begins with its
    [asocket]) is stored in both heaps under one address, so a cast between
    the two is the same address; an embedded [fdevent] lives in the heap of
    fdevent.c and is named by its address there. *)

From S2P Require Import Prelude Effects DList Os Sysdeps Wire.

(** ** Constants (adb.h) *)

Definition CS_ANY : Z := -1.
Definition CS_OFFLINE : Z := 0.
Definition CS_BOOTLOADER : Z := 1.
Definition CS_DEVICE : Z := 2.
Definition CS_HOST : Z := 3.
Definition CS_RECOVERY : Z := 4.
Definition CS_NOPERM : Z := 5.
Definition CS_SIDELOAD : Z := 6.
Definition CS_UNAUTHORIZED : Z := 7.

Definition TOKEN_SIZE : Z := 20.

(** ** Packets in memory

    [p_body] is the message and the part of [data] that has been written; the
    bytes after it are indeterminate.  [p_ptr] is the offset of [ptr] in
    [data], [None] for NULL. *)
Record pkt := {
  p_addr : Z;
  p_len : Z;
  p_ptr : option Z;
  p_body : apacket;
}.

Definition set_len (n : Z) (p : pkt) : pkt :=
  {| p_addr := p_addr p; p_len := n; p_ptr := p_ptr p; p_body := p_body p |}.

Definition set_pptr (n : Z) (p : pkt) : pkt :=
  {| p_addr := p_addr p; p_len := p_len p; p_ptr := Some n; p_body := p_body p |}.

Definition set_body (b : apacket) (p : pkt) : pkt :=
  {| p_addr := p_addr p; p_len := p_len p; p_ptr := p_ptr p; p_body := b |}.

(** The header fields a sender sets; the rest stay zero. *)
Definition set_msg (c a0 a1 n : Z) (p : pkt) : pkt :=
  set_body {| msg := {| command := c; arg0 := a0; arg1 := a1; data_length := n;
                        data_check := 0; magic := 0 |}; data := data (p_body p) |} p.

(** [memcpy] of [bs] to the start of [p->data]. *)
Definition set_data (bs : bytes) (p : pkt) : pkt :=
  set_body {| msg := msg (p_body p); data := bs |} p.

(** ** Sockets *)

(** The functions the four method pointers of an [asocket] can hold. *)
Inductive enqueue_fn :=
| local_socket_enqueue_fn | remote_socket_enqueue_fn
| jdwp_socket_enqueue_fn | jdwp_tracker_enqueue_fn
| smart_socket_enqueue_fn | device_tracker_enqueue_fn.

Inductive ready_fn :=
| local_socket_ready_fn | remote_socket_ready_fn | local_socket_ready_notify_fn
| jdwp_socket_ready_fn | jdwp_tracker_ready_fn
| smart_socket_ready_fn | device_tracker_ready_fn.

Inductive shutdown_fn := remote_socket_shutdown_fn.

Inductive close_fn :=
| local_socket_close_fn | remote_socket_close_fn | local_socket_close_notify_fn
| jdwp_socket_close_fn | jdwp_tracker_close_fn
| smart_socket_close_fn | device_tracker_close_fn.

#[global] Instance close_fn_eq_dec : EqDecision close_fn.
Proof. solve_decision. Defined.

(** [sk_pkts] is the chain from [pkt_first] to [pkt_last]. *)
Record asocket := {
  sk_next : ptr;
  sk_prev : ptr;
  sk_id : Z;
  sk_closing : Z;
  sk_exit_on_close : Z;
  sk_peer : ptr;
  sk_fde : ptr;
  sk_fd : Z;
  sk_pkts : list pkt;
  sk_enqueue : enqueue_fn;
  sk_ready : ready_fn;
  sk_shutdown : option shutdown_fn;
  sk_close : close_fn;
  sk_transport : ptr;
}.

#[global] Program Instance Linked_asocket : Linked asocket := {|
  next := sk_next;
  prev := sk_prev;
  set_next p k :=
    {| sk_next := p; sk_prev := sk_prev k; sk_id := sk_id k; sk_closing := sk_closing k;
       sk_exit_on_close := sk_exit_on_close k; sk_peer := sk_peer k; sk_fde := sk_fde k;
       sk_fd := sk_fd k; sk_pkts := sk_pkts k; sk_enqueue := sk_enqueue k;
       sk_ready := sk_ready k; sk_shutdown := sk_shutdown k; sk_close := sk_close k;
       sk_transport := sk_transport k |};
  set_prev p k :=
    {| sk_next := sk_next k; sk_prev := p; sk_id := sk_id k; sk_closing := sk_closing k;
       sk_exit_on_close := sk_exit_on_close k; sk_peer := sk_peer k; sk_fde := sk_fde k;
       sk_fd := sk_fd k; sk_pkts := sk_pkts k; sk_enqueue := sk_enqueue k;
       sk_ready := sk_ready k; sk_shutdown := sk_shutdown k; sk_close := sk_close k;
       sk_transport := sk_transport k |};
|}.
Solve All Obligations with done.

Definition set_id (x : Z) (k : asocket) : asocket :=
  {| sk_next := sk_next k; sk_prev := sk_prev k; sk_id := x; sk_closing := sk_closing k;
     sk_exit_on_close := sk_exit_on_close k; sk_peer := sk_peer k; sk_fde := sk_fde k;
     sk_fd := sk_fd k; sk_pkts := sk_pkts k; sk_enqueue := sk_enqueue k; sk_ready := sk_ready k;
     sk_shutdown := sk_shutdown k; sk_close := sk_close k; sk_transport := sk_transport k |}.

Definition set_closing (x : Z) (k : asocket) : asocket :=
  {| sk_next := sk_next k; sk_prev := sk_prev k; sk_id := sk_id k; sk_closing := x;
     sk_exit_on_close := sk_exit_on_close k; sk_peer := sk_peer k; sk_fde := sk_fde k;
     sk_fd := sk_fd k; sk_pkts := sk_pkts k; sk_enqueue := sk_enqueue k; sk_ready := sk_ready k;
     sk_shutdown := sk_shutdown k; sk_close := sk_close k; sk_transport := sk_transport k |}.

Definition set_exit_on_close (x : Z) (k : asocket) : asocket :=
  {| sk_next := sk_next k; sk_prev := sk_prev k; sk_id := sk_id k; sk_closing := sk_closing k;
     sk_exit_on_close := x; sk_peer := sk_peer k; sk_fde := sk_fde k; sk_fd := sk_fd k;
     sk_pkts := sk_pkts k; sk_enqueue := sk_enqueue k; sk_ready := sk_ready k;
     sk_shutdown := sk_shutdown k; sk_close := sk_close k; sk_transport := sk_transport k |}.

Definition set_peer (x : ptr) (k : asocket) : asocket :=
  {| sk_next := sk_next k; sk_prev := sk_prev k; sk_id := sk_id k; sk_closing := sk_closing k;
     sk_exit_on_close := sk_exit_on_close k; sk_peer := x; sk_fde := sk_fde k; sk_fd := sk_fd k;
     sk_pkts := sk_pkts k; sk_enqueue := sk_enqueue k; sk_ready := sk_ready k;
     sk_shutdown := sk_shutdown k; sk_close := sk_close k; sk_transport := sk_transport k |}.

Definition set_sk_transport (x : ptr) (k : asocket) : asocket :=
  {| sk_next := sk_next k; sk_prev := sk_prev k; sk_id := sk_id k; sk_closing := sk_closing k;
     sk_exit_on_close := sk_exit_on_close k; sk_peer := sk_peer k; sk_fde := sk_fde k; sk_fd := sk_fd k;
     sk_pkts := sk_pkts k; sk_enqueue := sk_enqueue k; sk_ready := sk_ready k;
     sk_shutdown := sk_shutdown k; sk_close := sk_close k; sk_transport := x |}.

Definition set_pkts (x : list pkt) (k : asocket) : asocket :=
  {| sk_next := sk_next k; sk_prev := sk_prev k; sk_id := sk_id k; sk_closing := sk_closing k;
     sk_exit_on_close := sk_exit_on_close k; sk_peer := sk_peer k; sk_fde := sk_fde k;
     sk_fd := sk_fd k; sk_pkts := x; sk_enqueue := sk_enqueue k; sk_ready := sk_ready k;
     sk_shutdown := sk_shutdown k; sk_close := sk_close k; sk_transport := sk_transport k |}.

Definition set_methods (r : ready_fn) (sh : option shutdown_fn) (c : close_fn) (k : asocket) : asocket :=
  {| sk_next := sk_next k; sk_prev := sk_prev k; sk_id := sk_id k; sk_closing := sk_closing k;
     sk_exit_on_close := sk_exit_on_close k; sk_peer := sk_peer k; sk_fde := sk_fde k;
     sk_fd := sk_fd k; sk_pkts := sk_pkts k; sk_enqueue := sk_enqueue k; sk_ready := r;
     sk_shutdown := sh; sk_close := c; sk_transport := sk_transport k |}.

(** [static asocket local_socket_list] and [local_socket_closing_list]. *)
Definition local_socket_list : ptr := 1%N.
Definition local_socket_closing_list : ptr := 2%N.

(** ** JDWP (jdwp_service.c) *)

Definition MAX_OUT_FDS : Z := 4.

(** [in_buff] and [out_fds] hold the elements written so far. *)
Record JdwpProcess := {
  jp_next : ptr;
  jp_prev : ptr;
  jp_pid : Z;
  jp_socket : Z;
  jp_fde : ptr;
  jp_in_buff : bytes;
  jp_in_len : Z;
  jp_out_fds : list Z;
  jp_out_count : Z;
}.

#[global] Program Instance Linked_JdwpProcess : Linked JdwpProcess := {|
  next := jp_next;
  prev := jp_prev;
  set_next p k := {| jp_next := p; jp_prev := jp_prev k; jp_pid := jp_pid k; jp_socket := jp_socket k;
    jp_fde := jp_fde k; jp_in_buff := jp_in_buff k; jp_in_len := jp_in_len k;
    jp_out_fds := jp_out_fds k; jp_out_count := jp_out_count k |};
  set_prev p k := {| jp_next := jp_next k; jp_prev := p; jp_pid := jp_pid k; jp_socket := jp_socket k;
    jp_fde := jp_fde k; jp_in_buff := jp_in_buff k; jp_in_len := jp_in_len k;
    jp_out_fds := jp_out_fds k; jp_out_count := jp_out_count k |};
|}.
Solve All Obligations with done.

Definition set_pid (x : Z) (k : JdwpProcess) : JdwpProcess :=
  {| jp_next := jp_next k; jp_prev := jp_prev k; jp_pid := x; jp_socket := jp_socket k;
     jp_fde := jp_fde k; jp_in_buff := jp_in_buff k; jp_in_len := jp_in_len k;
     jp_out_fds := jp_out_fds k; jp_out_count := jp_out_count k |}.

Definition set_socket (x : Z) (k : JdwpProcess) : JdwpProcess :=
  {| jp_next := jp_next k; jp_prev := jp_prev k; jp_pid := jp_pid k; jp_socket := x;
     jp_fde := jp_fde k; jp_in_buff := jp_in_buff k; jp_in_len := jp_in_len k;
     jp_out_fds := jp_out_fds k; jp_out_count := jp_out_count k |}.

Definition set_fde (x : ptr) (k : JdwpProcess) : JdwpProcess :=
  {| jp_next := jp_next k; jp_prev := jp_prev k; jp_pid := jp_pid k; jp_socket := jp_socket k;
     jp_fde := x; jp_in_buff := jp_in_buff k; jp_in_len := jp_in_len k;
     jp_out_fds := jp_out_fds k; jp_out_count := jp_out_count k |}.

Definition set_in (b : bytes) (n : Z) (k : JdwpProcess) : JdwpProcess :=
  {| jp_next := jp_next k; jp_prev := jp_prev k; jp_pid := jp_pid k; jp_socket := jp_socket k;
     jp_fde := jp_fde k; jp_in_buff := b; jp_in_len := n;
     jp_out_fds := jp_out_fds k; jp_out_count := jp_out_count k |}.

Definition set_out (l : list Z) (n : Z) (k : JdwpProcess) : JdwpProcess :=
  {| jp_next := jp_next k; jp_prev := jp_prev k; jp_pid := jp_pid k; jp_socket := jp_socket k;
     jp_fde := jp_fde k; jp_in_buff := jp_in_buff k; jp_in_len := jp_in_len k;
     jp_out_fds := l; jp_out_count := n |}.

(** The fields a [JdwpTracker] adds to its [asocket]. *)
Record JdwpTracker := {
  tk_next : ptr;
  tk_prev : ptr;
  tk_need_update : Z;
}.

#[global] Program Instance Linked_JdwpTracker : Linked JdwpTracker := {|
  next := tk_next;
  prev := tk_prev;
  set_next p k := {| tk_next := p; tk_prev := tk_prev k; tk_need_update := tk_need_update k |};
  set_prev p k := {| tk_next := tk_next k; tk_prev := p; tk_need_update := tk_need_update k |};
|}.
Solve All Obligations with done.

Definition set_need_update (x : Z) (k : JdwpTracker) : JdwpTracker :=
  {| tk_next := tk_next k; tk_prev := tk_prev k; tk_need_update := x |}.

Record JdwpControl := { jc_listen_socket : Z; jc_fde : ptr }.

(** [static JdwpProcess _jdwp_list] and [static JdwpTracker _jdwp_trackers_list]. *)
Definition _jdwp_list : ptr := 1%N.
Definition _jdwp_trackers_list : ptr := 1%N.

(** ** Transports (adb.h) *)

Inductive disconnect_fn := remote_socket_disconnect_fn | usb_disconnected_fn | listener_disconnect_fn.

Record adisconnect := {
  ad_func : disconnect_fn;
  ad_opaque : ptr;
  ad_next : ptr;
  ad_prev : ptr;
}.

#[global] Program Instance Linked_adisconnect : Linked adisconnect := {|
  next := ad_next;
  prev := ad_prev;
  set_next p k := {| ad_func := ad_func k; ad_opaque := ad_opaque k; ad_next := p; ad_prev := ad_prev k |};
  set_prev p k := {| ad_func := ad_func k; ad_opaque := ad_opaque k; ad_next := ad_next k; ad_prev := p |};
|}.
Solve All Obligations with done.

(** The static [usb_disconnect] of adb_auth_client.c. *)
Definition usb_disconnect : ptr := 1%N.

Inductive transport_type := kTransportUsb | kTransportLocal | kTransportAny | kTransportHost.

#[global] Instance transport_type_eq_dec : EqDecision transport_type.
Proof. solve_decision. Defined.

(** The functions [kick], [close], [read_from_remote] and [write_to_remote] are
    set together, to those of transport_local.cpp or of transport_usb.cpp. *)
Inductive remote_fns := local_remote | usb_remote.

(** [at_transport_fde], [at_auth_fde] and [at_disconnects] are the addresses of
    the embedded event objects and list head. *)
Record atransport := {
  at_next : ptr;
  at_prev : ptr;
  at_remote : option remote_fns;
  at_fd : Z;
  at_transport_socket : Z;
  at_transport_fde : ptr;
  at_ref_count : Z;
  at_sync_token : Z;
  at_connection_state : Z;
  at_online : Z;
  at_type : transport_type;
  at_usb : ptr;
  at_sfd : Z;
  at_serial : option bytes;
  at_product : option bytes;
  at_model : option bytes;
  at_device : option bytes;
  at_devpath : option bytes;
  at_adb_port : Z;
  at_kicked : Z;
  at_disconnects : ptr;
  at_token : bytes;
  at_auth_fde : ptr;
  at_failed_auth_attempts : Z;
}.

#[global] Program Instance Linked_atransport : Linked atransport := {|
  next := at_next;
  prev := at_prev;
  set_next p t :=
    {| at_next := p; at_prev := at_prev t; at_remote := at_remote t; at_fd := at_fd t;
       at_transport_socket := at_transport_socket t; at_transport_fde := at_transport_fde t;
       at_ref_count := at_ref_count t; at_sync_token := at_sync_token t;
       at_connection_state := at_connection_state t; at_online := at_online t;
       at_type := at_type t; at_usb := at_usb t; at_sfd := at_sfd t; at_serial := at_serial t;
       at_product := at_product t; at_model := at_model t; at_device := at_device t;
       at_devpath := at_devpath t; at_adb_port := at_adb_port t; at_kicked := at_kicked t;
       at_disconnects := at_disconnects t; at_token := at_token t; at_auth_fde := at_auth_fde t;
       at_failed_auth_attempts := at_failed_auth_attempts t |};
  set_prev p t :=
    {| at_next := at_next t; at_prev := p; at_remote := at_remote t; at_fd := at_fd t;
       at_transport_socket := at_transport_socket t; at_transport_fde := at_transport_fde t;
       at_ref_count := at_ref_count t; at_sync_token := at_sync_token t;
       at_connection_state := at_connection_state t; at_online := at_online t;
       at_type := at_type t; at_usb := at_usb t; at_sfd := at_sfd t; at_serial := at_serial t;
       at_product := at_product t; at_model := at_model t; at_device := at_device t;
       at_devpath := at_devpath t; at_adb_port := at_adb_port t; at_kicked := at_kicked t;
       at_disconnects := at_disconnects t; at_token := at_token t; at_auth_fde := at_auth_fde t;
       at_failed_auth_attempts := at_failed_auth_attempts t |};
|}.
Solve All Obligations with done.

(** The memory [calloc] returns. *)
Definition no_atransport : atransport :=
  {| at_next := NULL; at_prev := NULL; at_remote := None; at_fd := 0; at_transport_socket := 0;
     at_transport_fde := NULL; at_ref_count := 0; at_sync_token := 0; at_connection_state := 0;
     at_online := 0; at_type := kTransportUsb; at_usb := NULL; at_sfd := 0; at_serial := None;
     at_product := None; at_model := None; at_device := None; at_devpath := None;
     at_adb_port := 0; at_kicked := 0; at_disconnects := NULL; at_token := [];
     at_auth_fde := NULL; at_failed_auth_attempts := 0 |}.

Definition set_connection_state (x : Z) (t : atransport) : atransport :=
  {| at_next := at_next t; at_prev := at_prev t; at_remote := at_remote t; at_fd := at_fd t;
     at_transport_socket := at_transport_socket t; at_transport_fde := at_transport_fde t;
     at_ref_count := at_ref_count t; at_sync_token := at_sync_token t; at_connection_state := x;
     at_online := at_online t; at_type := at_type t; at_usb := at_usb t; at_sfd := at_sfd t;
     at_serial := at_serial t; at_product := at_product t; at_model := at_model t;
     at_device := at_device t; at_devpath := at_devpath t; at_adb_port := at_adb_port t;
     at_kicked := at_kicked t; at_disconnects := at_disconnects t; at_token := at_token t;
     at_auth_fde := at_auth_fde t; at_failed_auth_attempts := at_failed_auth_attempts t |}.

Definition set_online (x : Z) (t : atransport) : atransport :=
  {| at_next := at_next t; at_prev := at_prev t; at_remote := at_remote t; at_fd := at_fd t;
     at_transport_socket := at_transport_socket t; at_transport_fde := at_transport_fde t;
     at_ref_count := at_ref_count t; at_sync_token := at_sync_token t;
     at_connection_state := at_connection_state t; at_online := x; at_type := at_type t;
     at_usb := at_usb t; at_sfd := at_sfd t; at_serial := at_serial t;
     at_product := at_product t; at_model := at_model t; at_device := at_device t;
     at_devpath := at_devpath t; at_adb_port := at_adb_port t; at_kicked := at_kicked t;
     at_disconnects := at_disconnects t; at_token := at_token t; at_auth_fde := at_auth_fde t;
     at_failed_auth_attempts := at_failed_auth_attempts t |}.

Definition set_token (x : bytes) (t : atransport) : atransport :=
  {| at_next := at_next t; at_prev := at_prev t; at_remote := at_remote t; at_fd := at_fd t;
     at_transport_socket := at_transport_socket t; at_transport_fde := at_transport_fde t;
     at_ref_count := at_ref_count t; at_sync_token := at_sync_token t;
     at_connection_state := at_connection_state t; at_online := at_online t;
     at_type := at_type t; at_usb := at_usb t; at_sfd := at_sfd t; at_serial := at_serial t;
     at_product := at_product t; at_model := at_model t; at_device := at_device t;
     at_devpath := at_devpath t; at_adb_port := at_adb_port t; at_kicked := at_kicked t;
     at_disconnects := at_disconnects t; at_token := x; at_auth_fde := at_auth_fde t;
     at_failed_auth_attempts := at_failed_auth_attempts t |}.

Definition set_failed_auth_attempts (x : Z) (t : atransport) : atransport :=
  {| at_next := at_next t; at_prev := at_prev t; at_remote := at_remote t; at_fd := at_fd t;
     at_transport_socket := at_transport_socket t; at_transport_fde := at_transport_fde t;
     at_ref_count := at_ref_count t; at_sync_token := at_sync_token t;
     at_connection_state := at_connection_state t; at_online := at_online t;
     at_type := at_type t; at_usb := at_usb t; at_sfd := at_sfd t; at_serial := at_serial t;
     at_product := at_product t; at_model := at_model t; at_device := at_device t;
     at_devpath := at_devpath t; at_adb_port := at_adb_port t; at_kicked := at_kicked t;
     at_disconnects := at_disconnects t; at_token := at_token t; at_auth_fde := at_auth_fde t;
     at_failed_auth_attempts := x |}.

Definition set_kicked (x : Z) (t : atransport) : atransport :=
  {| at_next := at_next t; at_prev := at_prev t; at_remote := at_remote t; at_fd := at_fd t;
     at_transport_socket := at_transport_socket t; at_transport_fde := at_transport_fde t;
     at_ref_count := at_ref_count t; at_sync_token := at_sync_token t;
     at_connection_state := at_connection_state t; at_online := at_online t;
     at_type := at_type t; at_usb := at_usb t; at_sfd := at_sfd t; at_serial := at_serial t;
     at_product := at_product t; at_model := at_model t; at_device := at_device t;
     at_devpath := at_devpath t; at_adb_port := at_adb_port t; at_kicked := x;
     at_disconnects := at_disconnects t; at_token := at_token t; at_auth_fde := at_auth_fde t;
     at_failed_auth_attempts := at_failed_auth_attempts t |}.

Definition set_adb_port (x : Z) (t : atransport) : atransport :=
  {| at_next := at_next t; at_prev := at_prev t; at_remote := at_remote t; at_fd := at_fd t;
     at_transport_socket := at_transport_socket t; at_transport_fde := at_transport_fde t;
     at_ref_count := at_ref_count t; at_sync_token := at_sync_token t;
     at_connection_state := at_connection_state t; at_online := at_online t;
     at_type := at_type t; at_usb := at_usb t; at_sfd := at_sfd t; at_serial := at_serial t;
     at_product := at_product t; at_model := at_model t; at_device := at_device t;
     at_devpath := at_devpath t; at_adb_port := x; at_kicked := at_kicked t;
     at_disconnects := at_disconnects t; at_token := at_token t; at_auth_fde := at_auth_fde t;
     at_failed_auth_attempts := at_failed_auth_attempts t |}.

Definition set_ref_count (x : Z) (t : atransport) : atransport :=
  {| at_next := at_next t; at_prev := at_prev t; at_remote := at_remote t; at_fd := at_fd t;
     at_transport_socket := at_transport_socket t; at_transport_fde := at_transport_fde t;
     at_ref_count := x; at_sync_token := at_sync_token t;
     at_connection_state := at_connection_state t; at_online := at_online t;
     at_type := at_type t; at_usb := at_usb t; at_sfd := at_sfd t; at_serial := at_serial t;
     at_product := at_product t; at_model := at_model t; at_device := at_device t;
     at_devpath := at_devpath t; at_adb_port := at_adb_port t; at_kicked := at_kicked t;
     at_disconnects := at_disconnects t; at_token := at_token t; at_auth_fde := at_auth_fde t;
     at_failed_auth_attempts := at_failed_auth_attempts t |}.

Definition set_sync_token (x : Z) (t : atransport) : atransport :=
  {| at_next := at_next t; at_prev := at_prev t; at_remote := at_remote t; at_fd := at_fd t;
     at_transport_socket := at_transport_socket t; at_transport_fde := at_transport_fde t;
     at_ref_count := at_ref_count t; at_sync_token := x;
     at_connection_state := at_connection_state t; at_online := at_online t;
     at_type := at_type t; at_usb := at_usb t; at_sfd := at_sfd t; at_serial := at_serial t;
     at_product := at_product t; at_model := at_model t; at_device := at_device t;
     at_devpath := at_devpath t; at_adb_port := at_adb_port t; at_kicked := at_kicked t;
     at_disconnects := at_disconnects t; at_token := at_token t; at_auth_fde := at_auth_fde t;
     at_failed_auth_attempts := at_failed_auth_attempts t |}.

Definition set_sfd (x : Z) (t : atransport) : atransport :=
  {| at_next := at_next t; at_prev := at_prev t; at_remote := at_remote t; at_fd := at_fd t;
     at_transport_socket := at_transport_socket t; at_transport_fde := at_transport_fde t;
     at_ref_count := at_ref_count t; at_sync_token := at_sync_token t;
     at_connection_state := at_connection_state t; at_online := at_online t;
     at_type := at_type t; at_usb := at_usb t; at_sfd := x; at_serial := at_serial t;
     at_product := at_product t; at_model := at_model t; at_device := at_device t;
     at_devpath := at_devpath t; at_adb_port := at_adb_port t; at_kicked := at_kicked t;
     at_disconnects := at_disconnects t; at_token := at_token t; at_auth_fde := at_auth_fde t;
     at_failed_auth_attempts := at_failed_auth_attempts t |}.

Definition set_usb (x : ptr) (t : atransport) : atransport :=
  {| at_next := at_next t; at_prev := at_prev t; at_remote := at_remote t; at_fd := at_fd t;
     at_transport_socket := at_transport_socket t; at_transport_fde := at_transport_fde t;
     at_ref_count := at_ref_count t; at_sync_token := at_sync_token t;
     at_connection_state := at_connection_state t; at_online := at_online t;
     at_type := at_type t; at_usb := x; at_sfd := at_sfd t; at_serial := at_serial t;
     at_product := at_product t; at_model := at_model t; at_device := at_device t;
     at_devpath := at_devpath t; at_adb_port := at_adb_port t; at_kicked := at_kicked t;
     at_disconnects := at_disconnects t; at_token := at_token t; at_auth_fde := at_auth_fde t;
     at_failed_auth_attempts := at_failed_auth_attempts t |}.

Definition set_quals (p m d : option bytes) (t : atransport) : atransport :=
  {| at_next := at_next t; at_prev := at_prev t; at_remote := at_remote t; at_fd := at_fd t;
     at_transport_socket := at_transport_socket t; at_transport_fde := at_transport_fde t;
     at_ref_count := at_ref_count t; at_sync_token := at_sync_token t;
     at_connection_state := at_connection_state t; at_online := at_online t;
     at_type := at_type t; at_usb := at_usb t; at_sfd := at_sfd t; at_serial := at_serial t;
     at_product := p; at_model := m; at_device := d; at_devpath := at_devpath t;
     at_adb_port := at_adb_port t; at_kicked := at_kicked t; at_disconnects := at_disconnects t;
     at_token := at_token t; at_auth_fde := at_auth_fde t;
     at_failed_auth_attempts := at_failed_auth_attempts t |}.

Definition set_names (serial devpath : option bytes) (t : atransport) : atransport :=
  {| at_next := at_next t; at_prev := at_prev t; at_remote := at_remote t; at_fd := at_fd t;
     at_transport_socket := at_transport_socket t; at_transport_fde := at_transport_fde t;
     at_ref_count := at_ref_count t; at_sync_token := at_sync_token t;
     at_connection_state := at_connection_state t; at_online := at_online t;
     at_type := at_type t; at_usb := at_usb t; at_sfd := at_sfd t; at_serial := serial;
     at_product := at_product t; at_model := at_model t; at_device := at_device t;
     at_devpath := devpath; at_adb_port := at_adb_port t; at_kicked := at_kicked t;
     at_disconnects := at_disconnects t; at_token := at_token t; at_auth_fde := at_auth_fde t;
     at_failed_auth_attempts := at_failed_auth_attempts t |}.

(** The two ends of the socket pair of a registered transport. *)
Definition set_ends (socket fd : Z) (t : atransport) : atransport :=
  {| at_next := at_next t; at_prev := at_prev t; at_remote := at_remote t; at_fd := fd;
     at_transport_socket := socket; at_transport_fde := at_transport_fde t;
     at_ref_count := at_ref_count t; at_sync_token := at_sync_token t;
     at_connection_state := at_connection_state t; at_online := at_online t;
     at_type := at_type t; at_usb := at_usb t; at_sfd := at_sfd t; at_serial := at_serial t;
     at_product := at_product t; at_model := at_model t; at_device := at_device t;
     at_devpath := at_devpath t; at_adb_port := at_adb_port t; at_kicked := at_kicked t;
     at_disconnects := at_disconnects t; at_token := at_token t; at_auth_fde := at_auth_fde t;
     at_failed_auth_attempts := at_failed_auth_attempts t |}.

(** Addresses of the embedded structures. *)
Definition set_embedded (fde auth_fde disconnects : ptr) (t : atransport) : atransport :=
  {| at_next := at_next t; at_prev := at_prev t; at_remote := at_remote t; at_fd := at_fd t;
     at_transport_socket := at_transport_socket t; at_transport_fde := fde;
     at_ref_count := at_ref_count t; at_sync_token := at_sync_token t;
     at_connection_state := at_connection_state t; at_online := at_online t;
     at_type := at_type t; at_usb := at_usb t; at_sfd := at_sfd t; at_serial := at_serial t;
     at_product := at_product t; at_model := at_model t; at_device := at_device t;
     at_devpath := at_devpath t; at_adb_port := at_adb_port t; at_kicked := at_kicked t;
     at_disconnects := disconnects; at_token := at_token t; at_auth_fde := auth_fde;
     at_failed_auth_attempts := at_failed_auth_attempts t |}.

(** What [init_socket_transport] and [init_usb_transport] set. *)
Definition set_remote (r : remote_fns) (sfd : Z) (usb : ptr) (state : Z) (ty : transport_type)
    (t : atransport) : atransport :=
  {| at_next := at_next t; at_prev := at_prev t; at_remote := (Some r); at_fd := at_fd t;
     at_transport_socket := at_transport_socket t; at_transport_fde := at_transport_fde t;
     at_ref_count := at_ref_count t; at_sync_token := 1; at_connection_state := state;
     at_online := at_online t; at_type := ty; at_usb := usb; at_sfd := sfd;
     at_serial := at_serial t; at_product := at_product t; at_model := at_model t;
     at_device := at_device t; at_devpath := at_devpath t; at_adb_port := at_adb_port t;
     at_kicked := at_kicked t; at_disconnects := at_disconnects t; at_token := at_token t;
     at_auth_fde := at_auth_fde t; at_failed_auth_attempts := at_failed_auth_attempts t |}.

(** [static atransport transport_list] and [pending_list] (transport.cpp). *)
Definition transport_list : ptr := 1%N.
Definition pending_list : ptr := 2%N.

(** ** Keys (adb_auth_client.c) *)

(** [key] is the memory of the [RSAPublicKey]. *)
Record adb_public_key := {
  pk_next : ptr;
  pk_prev : ptr;
  pk_key : bytes;
}.

#[global] Program Instance Linked_adb_public_key : Linked adb_public_key := {|
  next := pk_next;
  prev := pk_prev;
  set_next p k := {| pk_next := p; pk_prev := pk_prev k; pk_key := pk_key k |};
  set_prev p k := {| pk_next := pk_next k; pk_prev := p; pk_key := pk_key k |};
|}.
Solve All Obligations with done.

(** ** Listeners (adb.h), device trackers (transport.cpp) and emulators
    (transport_local.cpp) *)

(** The callback [disconnect] of a listener is stored at the listener's
    address, its [fde] is in the heap of fdevent.c. *)
Record alistener := {
  al_next : ptr;
  al_prev : ptr;
  al_fde : ptr;
  al_fd : Z;
  al_local_name : bytes;
  al_connect_to : bytes;
  al_transport : ptr;
}.

#[global] Program Instance Linked_alistener : Linked alistener := {|
  next := al_next;
  prev := al_prev;
  set_next p l := {| al_next := p; al_prev := al_prev l; al_fde := al_fde l; al_fd := al_fd l;
                     al_local_name := al_local_name l; al_connect_to := al_connect_to l;
                     al_transport := al_transport l |};
  set_prev p l := {| al_next := al_next l; al_prev := p; al_fde := al_fde l; al_fd := al_fd l;
                     al_local_name := al_local_name l; al_connect_to := al_connect_to l;
                     al_transport := al_transport l |};
|}.
Solve All Obligations with done.

Definition set_al_transport (t : ptr) (l : alistener) : alistener :=
  {| al_next := al_next l; al_prev := al_prev l; al_fde := al_fde l; al_fd := al_fd l;
     al_local_name := al_local_name l; al_connect_to := al_connect_to l; al_transport := t |}.

Definition set_connect_to (c : bytes) (l : alistener) : alistener :=
  {| al_next := al_next l; al_prev := al_prev l; al_fde := al_fde l; al_fd := al_fd l;
     al_local_name := al_local_name l; al_connect_to := c; al_transport := al_transport l |}.

Definition no_alistener : alistener :=
  {| al_next := NULL; al_prev := NULL; al_fde := NULL; al_fd := 0; al_local_name := [];
     al_connect_to := []; al_transport := NULL |}.

(** [alistener listener_list] *)
Definition listener_list : ptr := 1%N.

(** The fields a [device_tracker] adds to its [asocket]. *)
Record device_tracker := { dt_update_needed : Z; dt_next : ptr }.

Definition ADB_LOCAL_TRANSPORT_MAX : nat := 64.

Record hostside := {
  listeners : gmap N alistener;  (** the [alistener]s, with [listener_list] *)
  device_trackers : gmap N device_tracker;
  device_tracker_list : ptr;
  local_transports : list ptr;  (** the transports of emulators, NULL when free *)
  local_transports_lock : bool;
}.

Definition set_listeners (x : gmap N alistener) (h : hostside) : hostside :=
  {| listeners := x; device_trackers := device_trackers h; device_tracker_list := device_tracker_list h;
     local_transports := local_transports h; local_transports_lock := local_transports_lock h |}.

Definition set_device_trackers (x : gmap N device_tracker) (l : ptr) (h : hostside) : hostside :=
  {| listeners := listeners h; device_trackers := x; device_tracker_list := l;
     local_transports := local_transports h; local_transports_lock := local_transports_lock h |}.

Definition set_local_transports (x : list ptr) (h : hostside) : hostside :=
  {| listeners := listeners h; device_trackers := device_trackers h; device_tracker_list := device_tracker_list h;
     local_transports := x; local_transports_lock := local_transports_lock h |}.

Definition set_local_transports_lock (x : bool) (h : hostside) : hostside :=
  {| listeners := listeners h; device_trackers := device_trackers h; device_tracker_list := device_tracker_list h;
     local_transports := local_transports h; local_transports_lock := x |}.

Definition hostside_boot : hostside :=
  {| listeners := {[ listener_list := set_next listener_list (set_prev listener_list no_alistener) ]};
     device_trackers := ∅; device_tracker_list := NULL;
     local_transports := replicate ADB_LOCAL_TRANSPORT_MAX NULL; local_transports_lock := false |}.

(** ** All of it *)

Record globals := {
  sockets : gmap N asocket;  (** the [asocket]s, with the two list heads of sockets.cpp *)
  local_socket_next_id : Z;
  socket_list_lock : bool;
  jdwp_passes : gmap N Z;  (** [pass] of the [JdwpSocket]s *)
  trackers : gmap N JdwpTracker;  (** the tracker fields of the [JdwpTracker]s *)
  procs : gmap N JdwpProcess;  (** the [JdwpProcess]es, with [_jdwp_list] *)
  jdwp_control : JdwpControl;
  transports : gmap N atransport;  (** the [atransport]s, with the two list heads of transport.cpp *)
  transport_lock : bool;
  transport_registration_send : Z;
  transport_registration_recv : Z;
  transport_registration_fde : ptr;
  disconnects : gmap N adisconnect;  (** the [adisconnect]s, with the heads inside the transports *)
  pubkeys : gmap N adb_public_key;  (** the keys of a [key_list] *)
  framework_fd : Z;
  usb_transport : ptr;
  needs_retry : bool;
  listener_fde : ptr;
  live : gset Z;  (** addresses of the packets allocated and neither freed nor sent *)
  brk : Z;  (** the next address [malloc] hands out for a packet *)
  sent : list (ptr * apacket);  (** what [send_packet] handed over, with its transport *)
  inflight : gmap Z apacket;  (** the packets whose address is on its way through a socket pair *)
  hosts : hostside;  (** listeners, and what only the host's build has *)
}.

Definition set_sockets (x : gmap N asocket) (g : globals) : globals :=
  {| sockets := x; local_socket_next_id := local_socket_next_id g;
     socket_list_lock := socket_list_lock g; jdwp_passes := jdwp_passes g;
     trackers := trackers g; procs := procs g; jdwp_control := jdwp_control g;
     transports := transports g; transport_lock := transport_lock g;
     transport_registration_send := transport_registration_send g;
     transport_registration_recv := transport_registration_recv g;
     transport_registration_fde := transport_registration_fde g; disconnects := disconnects g;
     pubkeys := pubkeys g; framework_fd := framework_fd g; usb_transport := usb_transport g;
     needs_retry := needs_retry g; listener_fde := listener_fde g; live := live g; brk := brk g;
     sent := sent g; inflight := inflight g; hosts := hosts g |}.

Definition set_local_socket_next_id (x : Z) (g : globals) : globals :=
  {| sockets := sockets g; local_socket_next_id := x; socket_list_lock := socket_list_lock g;
     jdwp_passes := jdwp_passes g; trackers := trackers g; procs := procs g;
     jdwp_control := jdwp_control g; transports := transports g;
     transport_lock := transport_lock g;
     transport_registration_send := transport_registration_send g;
     transport_registration_recv := transport_registration_recv g;
     transport_registration_fde := transport_registration_fde g; disconnects := disconnects g;
     pubkeys := pubkeys g; framework_fd := framework_fd g; usb_transport := usb_transport g;
     needs_retry := needs_retry g; listener_fde := listener_fde g; live := live g; brk := brk g;
     sent := sent g; inflight := inflight g; hosts := hosts g |}.

Definition set_socket_list_lock (x : bool) (g : globals) : globals :=
  {| sockets := sockets g; local_socket_next_id := local_socket_next_id g; socket_list_lock := x;
     jdwp_passes := jdwp_passes g; trackers := trackers g; procs := procs g;
     jdwp_control := jdwp_control g; transports := transports g;
     transport_lock := transport_lock g;
     transport_registration_send := transport_registration_send g;
     transport_registration_recv := transport_registration_recv g;
     transport_registration_fde := transport_registration_fde g; disconnects := disconnects g;
     pubkeys := pubkeys g; framework_fd := framework_fd g; usb_transport := usb_transport g;
     needs_retry := needs_retry g; listener_fde := listener_fde g; live := live g; brk := brk g;
     sent := sent g; inflight := inflight g; hosts := hosts g |}.

Definition set_jdwp_passes (x : gmap N Z) (g : globals) : globals :=
  {| sockets := sockets g; local_socket_next_id := local_socket_next_id g;
     socket_list_lock := socket_list_lock g; jdwp_passes := x; trackers := trackers g;
     procs := procs g; jdwp_control := jdwp_control g; transports := transports g;
     transport_lock := transport_lock g;
     transport_registration_send := transport_registration_send g;
     transport_registration_recv := transport_registration_recv g;
     transport_registration_fde := transport_registration_fde g; disconnects := disconnects g;
     pubkeys := pubkeys g; framework_fd := framework_fd g; usb_transport := usb_transport g;
     needs_retry := needs_retry g; listener_fde := listener_fde g; live := live g; brk := brk g;
     sent := sent g; inflight := inflight g; hosts := hosts g |}.

Definition set_trackers (x : gmap N JdwpTracker) (g : globals) : globals :=
  {| sockets := sockets g; local_socket_next_id := local_socket_next_id g;
     socket_list_lock := socket_list_lock g; jdwp_passes := jdwp_passes g; trackers := x;
     procs := procs g; jdwp_control := jdwp_control g; transports := transports g;
     transport_lock := transport_lock g;
     transport_registration_send := transport_registration_send g;
     transport_registration_recv := transport_registration_recv g;
     transport_registration_fde := transport_registration_fde g; disconnects := disconnects g;
     pubkeys := pubkeys g; framework_fd := framework_fd g; usb_transport := usb_transport g;
     needs_retry := needs_retry g; listener_fde := listener_fde g; live := live g; brk := brk g;
     sent := sent g; inflight := inflight g; hosts := hosts g |}.

Definition set_procs (x : gmap N JdwpProcess) (g : globals) : globals :=
  {| sockets := sockets g; local_socket_next_id := local_socket_next_id g;
     socket_list_lock := socket_list_lock g; jdwp_passes := jdwp_passes g;
     trackers := trackers g; procs := x; jdwp_control := jdwp_control g;
     transports := transports g; transport_lock := transport_lock g;
     transport_registration_send := transport_registration_send g;
     transport_registration_recv := transport_registration_recv g;
     transport_registration_fde := transport_registration_fde g; disconnects := disconnects g;
     pubkeys := pubkeys g; framework_fd := framework_fd g; usb_transport := usb_transport g;
     needs_retry := needs_retry g; listener_fde := listener_fde g; live := live g; brk := brk g;
     sent := sent g; inflight := inflight g; hosts := hosts g |}.

Definition set_jdwp_control (x : JdwpControl) (g : globals) : globals :=
  {| sockets := sockets g; local_socket_next_id := local_socket_next_id g;
     socket_list_lock := socket_list_lock g; jdwp_passes := jdwp_passes g;
     trackers := trackers g; procs := procs g; jdwp_control := x; transports := transports g;
     transport_lock := transport_lock g;
     transport_registration_send := transport_registration_send g;
     transport_registration_recv := transport_registration_recv g;
     transport_registration_fde := transport_registration_fde g; disconnects := disconnects g;
     pubkeys := pubkeys g; framework_fd := framework_fd g; usb_transport := usb_transport g;
     needs_retry := needs_retry g; listener_fde := listener_fde g; live := live g; brk := brk g;
     sent := sent g; inflight := inflight g; hosts := hosts g |}.

Definition set_transports (x : gmap N atransport) (g : globals) : globals :=
  {| sockets := sockets g; local_socket_next_id := local_socket_next_id g;
     socket_list_lock := socket_list_lock g; jdwp_passes := jdwp_passes g;
     trackers := trackers g; procs := procs g; jdwp_control := jdwp_control g; transports := x;
     transport_lock := transport_lock g;
     transport_registration_send := transport_registration_send g;
     transport_registration_recv := transport_registration_recv g;
     transport_registration_fde := transport_registration_fde g; disconnects := disconnects g;
     pubkeys := pubkeys g; framework_fd := framework_fd g; usb_transport := usb_transport g;
     needs_retry := needs_retry g; listener_fde := listener_fde g; live := live g; brk := brk g;
     sent := sent g; inflight := inflight g; hosts := hosts g |}.

Definition set_transport_lock (x : bool) (g : globals) : globals :=
  {| sockets := sockets g; local_socket_next_id := local_socket_next_id g;
     socket_list_lock := socket_list_lock g; jdwp_passes := jdwp_passes g;
     trackers := trackers g; procs := procs g; jdwp_control := jdwp_control g;
     transports := transports g; transport_lock := x;
     transport_registration_send := transport_registration_send g;
     transport_registration_recv := transport_registration_recv g;
     transport_registration_fde := transport_registration_fde g; disconnects := disconnects g;
     pubkeys := pubkeys g; framework_fd := framework_fd g; usb_transport := usb_transport g;
     needs_retry := needs_retry g; listener_fde := listener_fde g; live := live g; brk := brk g;
     sent := sent g; inflight := inflight g; hosts := hosts g |}.

Definition set_transport_registration_send (x : Z) (g : globals) : globals :=
  {| sockets := sockets g; local_socket_next_id := local_socket_next_id g;
     socket_list_lock := socket_list_lock g; jdwp_passes := jdwp_passes g;
     trackers := trackers g; procs := procs g; jdwp_control := jdwp_control g;
     transports := transports g; transport_lock := transport_lock g;
     transport_registration_send := x;
     transport_registration_recv := transport_registration_recv g;
     transport_registration_fde := transport_registration_fde g; disconnects := disconnects g;
     pubkeys := pubkeys g; framework_fd := framework_fd g; usb_transport := usb_transport g;
     needs_retry := needs_retry g; listener_fde := listener_fde g; live := live g; brk := brk g;
     sent := sent g; inflight := inflight g; hosts := hosts g |}.

Definition set_transport_registration_recv (x : Z) (g : globals) : globals :=
  {| sockets := sockets g; local_socket_next_id := local_socket_next_id g;
     socket_list_lock := socket_list_lock g; jdwp_passes := jdwp_passes g;
     trackers := trackers g; procs := procs g; jdwp_control := jdwp_control g;
     transports := transports g; transport_lock := transport_lock g;
     transport_registration_send := transport_registration_send g;
     transport_registration_recv := x;
     transport_registration_fde := transport_registration_fde g; disconnects := disconnects g;
     pubkeys := pubkeys g; framework_fd := framework_fd g; usb_transport := usb_transport g;
     needs_retry := needs_retry g; listener_fde := listener_fde g; live := live g; brk := brk g;
     sent := sent g; inflight := inflight g; hosts := hosts g |}.

Definition set_transport_registration_fde (x : ptr) (g : globals) : globals :=
  {| sockets := sockets g; local_socket_next_id := local_socket_next_id g;
     socket_list_lock := socket_list_lock g; jdwp_passes := jdwp_passes g;
     trackers := trackers g; procs := procs g; jdwp_control := jdwp_control g;
     transports := transports g; transport_lock := transport_lock g;
     transport_registration_send := transport_registration_send g;
     transport_registration_recv := transport_registration_recv g;
     transport_registration_fde := x; disconnects := disconnects g; pubkeys := pubkeys g;
     framework_fd := framework_fd g; usb_transport := usb_transport g;
     needs_retry := needs_retry g; listener_fde := listener_fde g; live := live g; brk := brk g;
     sent := sent g; inflight := inflight g; hosts := hosts g |}.

Definition set_disconnects (x : gmap N adisconnect) (g : globals) : globals :=
  {| sockets := sockets g; local_socket_next_id := local_socket_next_id g;
     socket_list_lock := socket_list_lock g; jdwp_passes := jdwp_passes g;
     trackers := trackers g; procs := procs g; jdwp_control := jdwp_control g;
     transports := transports g; transport_lock := transport_lock g;
     transport_registration_send := transport_registration_send g;
     transport_registration_recv := transport_registration_recv g;
     transport_registration_fde := transport_registration_fde g; disconnects := x;
     pubkeys := pubkeys g; framework_fd := framework_fd g; usb_transport := usb_transport g;
     needs_retry := needs_retry g; listener_fde := listener_fde g; live := live g; brk := brk g;
     sent := sent g; inflight := inflight g; hosts := hosts g |}.

Definition set_pubkeys (x : gmap N adb_public_key) (g : globals) : globals :=
  {| sockets := sockets g; local_socket_next_id := local_socket_next_id g;
     socket_list_lock := socket_list_lock g; jdwp_passes := jdwp_passes g;
     trackers := trackers g; procs := procs g; jdwp_control := jdwp_control g;
     transports := transports g; transport_lock := transport_lock g;
     transport_registration_send := transport_registration_send g;
     transport_registration_recv := transport_registration_recv g;
     transport_registration_fde := transport_registration_fde g; disconnects := disconnects g;
     pubkeys := x; framework_fd := framework_fd g; usb_transport := usb_transport g;
     needs_retry := needs_retry g; listener_fde := listener_fde g; live := live g; brk := brk g;
     sent := sent g; inflight := inflight g; hosts := hosts g |}.

Definition set_framework_fd (x : Z) (g : globals) : globals :=
  {| sockets := sockets g; local_socket_next_id := local_socket_next_id g;
     socket_list_lock := socket_list_lock g; jdwp_passes := jdwp_passes g;
     trackers := trackers g; procs := procs g; jdwp_control := jdwp_control g;
     transports := transports g; transport_lock := transport_lock g;
     transport_registration_send := transport_registration_send g;
     transport_registration_recv := transport_registration_recv g;
     transport_registration_fde := transport_registration_fde g; disconnects := disconnects g;
     pubkeys := pubkeys g; framework_fd := x; usb_transport := usb_transport g;
     needs_retry := needs_retry g; listener_fde := listener_fde g; live := live g; brk := brk g;
     sent := sent g; inflight := inflight g; hosts := hosts g |}.

Definition set_usb_transport (x : ptr) (g : globals) : globals :=
  {| sockets := sockets g; local_socket_next_id := local_socket_next_id g;
     socket_list_lock := socket_list_lock g; jdwp_passes := jdwp_passes g;
     trackers := trackers g; procs := procs g; jdwp_control := jdwp_control g;
     transports := transports g; transport_lock := transport_lock g;
     transport_registration_send := transport_registration_send g;
     transport_registration_recv := transport_registration_recv g;
     transport_registration_fde := transport_registration_fde g; disconnects := disconnects g;
     pubkeys := pubkeys g; framework_fd := framework_fd g; usb_transport := x;
     needs_retry := needs_retry g; listener_fde := listener_fde g; live := live g; brk := brk g;
     sent := sent g; inflight := inflight g; hosts := hosts g |}.

Definition set_needs_retry (x : bool) (g : globals) : globals :=
  {| sockets := sockets g; local_socket_next_id := local_socket_next_id g;
     socket_list_lock := socket_list_lock g; jdwp_passes := jdwp_passes g;
     trackers := trackers g; procs := procs g; jdwp_control := jdwp_control g;
     transports := transports g; transport_lock := transport_lock g;
     transport_registration_send := transport_registration_send g;
     transport_registration_recv := transport_registration_recv g;
     transport_registration_fde := transport_registration_fde g; disconnects := disconnects g;
     pubkeys := pubkeys g; framework_fd := framework_fd g; usb_transport := usb_transport g;
     needs_retry := x; listener_fde := listener_fde g; live := live g; brk := brk g;
     sent := sent g; inflight := inflight g; hosts := hosts g |}.

Definition set_listener_fde (x : ptr) (g : globals) : globals :=
  {| sockets := sockets g; local_socket_next_id := local_socket_next_id g;
     socket_list_lock := socket_list_lock g; jdwp_passes := jdwp_passes g;
     trackers := trackers g; procs := procs g; jdwp_control := jdwp_control g;
     transports := transports g; transport_lock := transport_lock g;
     transport_registration_send := transport_registration_send g;
     transport_registration_recv := transport_registration_recv g;
     transport_registration_fde := transport_registration_fde g; disconnects := disconnects g;
     pubkeys := pubkeys g; framework_fd := framework_fd g; usb_transport := usb_transport g;
     needs_retry := needs_retry g; listener_fde := x; live := live g; brk := brk g;
     sent := sent g; inflight := inflight g; hosts := hosts g |}.

Definition set_live (x : gset Z) (g : globals) : globals :=
  {| sockets := sockets g; local_socket_next_id := local_socket_next_id g;
     socket_list_lock := socket_list_lock g; jdwp_passes := jdwp_passes g;
     trackers := trackers g; procs := procs g; jdwp_control := jdwp_control g;
     transports := transports g; transport_lock := transport_lock g;
     transport_registration_send := transport_registration_send g;
     transport_registration_recv := transport_registration_recv g;
     transport_registration_fde := transport_registration_fde g; disconnects := disconnects g;
     pubkeys := pubkeys g; framework_fd := framework_fd g; usb_transport := usb_transport g;
     needs_retry := needs_retry g; listener_fde := listener_fde g; live := x; brk := brk g;
     sent := sent g; inflight := inflight g; hosts := hosts g |}.

Definition set_brk (x : Z) (g : globals) : globals :=
  {| sockets := sockets g; local_socket_next_id := local_socket_next_id g;
     socket_list_lock := socket_list_lock g; jdwp_passes := jdwp_passes g;
     trackers := trackers g; procs := procs g; jdwp_control := jdwp_control g;
     transports := transports g; transport_lock := transport_lock g;
     transport_registration_send := transport_registration_send g;
     transport_registration_recv := transport_registration_recv g;
     transport_registration_fde := transport_registration_fde g; disconnects := disconnects g;
     pubkeys := pubkeys g; framework_fd := framework_fd g; usb_transport := usb_transport g;
     needs_retry := needs_retry g; listener_fde := listener_fde g; live := live g; brk := x;
     sent := sent g; inflight := inflight g; hosts := hosts g |}.

Definition set_sent (x : list (ptr * apacket)) (g : globals) : globals :=
  {| sockets := sockets g; local_socket_next_id := local_socket_next_id g;
     socket_list_lock := socket_list_lock g; jdwp_passes := jdwp_passes g;
     trackers := trackers g; procs := procs g; jdwp_control := jdwp_control g;
     transports := transports g; transport_lock := transport_lock g;
     transport_registration_send := transport_registration_send g;
     transport_registration_recv := transport_registration_recv g;
     transport_registration_fde := transport_registration_fde g; disconnects := disconnects g;
     pubkeys := pubkeys g; framework_fd := framework_fd g; usb_transport := usb_transport g;
     needs_retry := needs_retry g; listener_fde := listener_fde g; live := live g; brk := brk g;
     sent := x; inflight := inflight g; hosts := hosts g |}.

Definition set_inflight (x : gmap Z apacket) (g : globals) : globals :=
  {| sockets := sockets g; local_socket_next_id := local_socket_next_id g;
     socket_list_lock := socket_list_lock g; jdwp_passes := jdwp_passes g;
     trackers := trackers g; procs := procs g; jdwp_control := jdwp_control g;
     transports := transports g; transport_lock := transport_lock g;
     transport_registration_send := transport_registration_send g;
     transport_registration_recv := transport_registration_recv g;
     transport_registration_fde := transport_registration_fde g; disconnects := disconnects g;
     pubkeys := pubkeys g; framework_fd := framework_fd g; usb_transport := usb_transport g;
     needs_retry := needs_retry g; listener_fde := listener_fde g; live := live g; brk := brk g;
     sent := sent g; inflight := x; hosts := hosts g |}.

Definition set_hosts (x : hostside) (g : globals) : globals :=
  {| sockets := sockets g; local_socket_next_id := local_socket_next_id g;
     socket_list_lock := socket_list_lock g; jdwp_passes := jdwp_passes g;
     trackers := trackers g; procs := procs g; jdwp_control := jdwp_control g;
     transports := transports g; transport_lock := transport_lock g;
     transport_registration_send := transport_registration_send g;
     transport_registration_recv := transport_registration_recv g;
     transport_registration_fde := transport_registration_fde g; disconnects := disconnects g;
     pubkeys := pubkeys g; framework_fd := framework_fd g; usb_transport := usb_transport g;
     needs_retry := needs_retry g; listener_fde := listener_fde g; live := live g; brk := brk g;
     sent := sent g; inflight := inflight g; hosts := x |}.

(** The static variables before [main]. *)
Definition no_asocket : asocket :=
  {| sk_next := NULL; sk_prev := NULL; sk_id := 0; sk_closing := 0; sk_exit_on_close := 0;
     sk_peer := NULL; sk_fde := NULL; sk_fd := 0; sk_pkts := [];
     sk_enqueue := local_socket_enqueue_fn; sk_ready := local_socket_ready_fn; sk_shutdown := None;
     sk_close := local_socket_close_fn; sk_transport := NULL |}.

Definition no_process : JdwpProcess :=
  {| jp_next := NULL; jp_prev := NULL; jp_pid := 0; jp_socket := 0; jp_fde := NULL;
     jp_in_buff := []; jp_in_len := 0; jp_out_fds := []; jp_out_count := 0 |}.

Definition globals_boot : globals :=
  {| sockets :=
       <[local_socket_list := set_next local_socket_list (set_prev local_socket_list no_asocket)]>
       {[ local_socket_closing_list :=
            set_next local_socket_closing_list (set_prev local_socket_closing_list no_asocket) ]};
     local_socket_next_id := 1; socket_list_lock := false; jdwp_passes := ∅;
     trackers := {[ _jdwp_trackers_list := {| tk_next := NULL; tk_prev := NULL; tk_need_update := 0 |} ]};
     procs := {[ _jdwp_list := no_process ]};
     jdwp_control := {| jc_listen_socket := 0; jc_fde := NULL |};
     transports :=
       <[transport_list := set_next transport_list (set_prev transport_list no_atransport)]>
       {[ pending_list := set_next pending_list (set_prev pending_list no_atransport) ]};
     transport_lock := false; transport_registration_send := -1; transport_registration_recv := -1;
     transport_registration_fde := NULL;
     disconnects := {[ usb_disconnect := {| ad_func := usb_disconnected_fn; ad_opaque := NULL;
                                            ad_next := NULL; ad_prev := NULL |} ]};
     pubkeys := ∅; framework_fd := -1; usb_transport := NULL; needs_retry := false; listener_fde := NULL;
     live := ∅; brk := 4096; sent := []; inflight := ∅; hosts := hostside_boot |}.
