(* ===== verification/Fdevent.v ===== *)
(** * fdevent.c: the event loop

    The loop watches file descriptors with [select], keeps the objects with
    events in a pending list, and calls their functions in turn.  The module
    models the [USE_SELECT] half of [fdevent.c] with its data as the code has
    it: [fdevent] objects linked through their own [next]/[prev] fields, the
    growing [fd_table], the three [fd_set]s and [select_n].  The functions a
    client registers are a parameter ([client]); the shell-exit handler the
    file registers itself is modelled. *)

From S2P Require Import Prelude Effects DList Os Sysdeps Wire Globals.

(** ** Data (fdevent.h, fdevent.c) *)

Definition FDE_READ : Z := 0x0001.
Definition FDE_WRITE : Z := 0x0002.
Definition FDE_ERROR : Z := 0x0004.
Definition FDE_TIMEOUT : Z := 0x0008.
Definition FDE_DONT_CLOSE : Z := 0x0080.

Definition FDE_EVENTMASK : Z := 0x00ff.
Definition FDE_STATEMASK : Z := 0xff00.
Definition FDE_ACTIVE : Z := 0x0100.
Definition FDE_PENDING : Z := 0x0200.
Definition FDE_CREATED : Z := 0x0400.

(** The descriptors an [fd_set] can hold. *)
Definition FD_SETSIZE : Z := 1024.

(** A function pointer of type [fd_func]: the handler of this file, or one of
    the functions its clients register. *)
Inductive fd_func :=
| fdevent_subproc_event_func
| client_func (id : N).

Record fdevent := {
  fde_next : ptr;
  fde_prev : ptr;
  fde_fd : Z;
  fde_force_eof : Z;
  fde_state : Z;
  fde_events : Z;
  fde_func : fd_func;
  fde_arg : ptr;
}.

#[global] Program Instance Linked_fdevent : Linked fdevent := {|
  next := fde_next;
  prev := fde_prev;
  set_next p f := {| fde_next := p; fde_prev := fde_prev f; fde_fd := fde_fd f;
    fde_force_eof := fde_force_eof f; fde_state := fde_state f; fde_events := fde_events f;
    fde_func := fde_func f; fde_arg := fde_arg f |};
  set_prev p f := {| fde_next := fde_next f; fde_prev := p; fde_fd := fde_fd f;
    fde_force_eof := fde_force_eof f; fde_state := fde_state f; fde_events := fde_events f;
    fde_func := fde_func f; fde_arg := fde_arg f |};
|}.
Solve All Obligations with done.

(** The two [unsigned short] fields, stored modulo 2^16. *)
Definition set_state (s : Z) (f : fdevent) : fdevent :=
  {| fde_next := fde_next f; fde_prev := fde_prev f; fde_fd := fde_fd f;
     fde_force_eof := fde_force_eof f; fde_state := u16 s; fde_events := fde_events f;
     fde_func := fde_func f; fde_arg := fde_arg f |}.

Definition set_events (e : Z) (f : fdevent) : fdevent :=
  {| fde_next := fde_next f; fde_prev := fde_prev f; fde_fd := fde_fd f;
     fde_force_eof := fde_force_eof f; fde_state := fde_state f; fde_events := u16 e;
     fde_func := fde_func f; fde_arg := fde_arg f |}.

Definition set_force_eof (b : Z) (f : fdevent) : fdevent :=
  {| fde_next := fde_next f; fde_prev := fde_prev f; fde_fd := fde_fd f;
     fde_force_eof := b; fde_state := fde_state f; fde_events := fde_events f;
     fde_func := fde_func f; fde_arg := fde_arg f |}.

(** The global variables of the file, the objects in memory, and the world.
    An entry of [fd_table] is [None] while its memory is indeterminate; [rest]
    is the data of the other components, which no function here touches. *)
Record fdstate := {
  fde_heap : gmap N fdevent;
  fd_table : list (option ptr);
  fd_table_max : Z;
  read_fds : gset Z;
  write_fds : gset Z;
  error_fds : gset Z;
  select_n : Z;
  SHELL_EXIT_NOTIFY_FD : Z;
  fd_world : world;
  rest : globals;
}.

#[global] Instance Budget_fdstate : Budget fdstate := fun s => budget (fd_world s).

#[global] Program Instance Lens_fd_world : Lens fdstate world := {|
  view := fd_world;
  put w s := {| fde_heap := fde_heap s; fd_table := fd_table s; fd_table_max := fd_table_max s;
    read_fds := read_fds s; write_fds := write_fds s; error_fds := error_fds s;
    select_n := select_n s; SHELL_EXIT_NOTIFY_FD := SHELL_EXIT_NOTIFY_FD s; fd_world := w; rest := rest s |};
|}.
Next Obligation. done. Qed.
Next Obligation. by intros []. Qed.
Next Obligation. done. Qed.

#[global] Program Instance Lens_fde_heap : Lens fdstate (gmap N fdevent) := {|
  view := fde_heap;
  put h s := {| fde_heap := h; fd_table := fd_table s; fd_table_max := fd_table_max s;
    read_fds := read_fds s; write_fds := write_fds s; error_fds := error_fds s;
    select_n := select_n s; SHELL_EXIT_NOTIFY_FD := SHELL_EXIT_NOTIFY_FD s; fd_world := fd_world s; rest := rest s |};
|}.
Next Obligation. done. Qed.
Next Obligation. by intros []. Qed.
Next Obligation. done. Qed.

(** Updates of the other variables. *)
Definition with_table (t : list (option ptr)) (max : Z) (s : fdstate) : fdstate :=
  {| fde_heap := fde_heap s; fd_table := t; fd_table_max := max;
     read_fds := read_fds s; write_fds := write_fds s; error_fds := error_fds s;
     select_n := select_n s; SHELL_EXIT_NOTIFY_FD := SHELL_EXIT_NOTIFY_FD s; fd_world := fd_world s; rest := rest s |}.

Definition with_fds (r w e : gset Z) (s : fdstate) : fdstate :=
  {| fde_heap := fde_heap s; fd_table := fd_table s; fd_table_max := fd_table_max s;
     read_fds := r; write_fds := w; error_fds := e;
     select_n := select_n s; SHELL_EXIT_NOTIFY_FD := SHELL_EXIT_NOTIFY_FD s; fd_world := fd_world s; rest := rest s |}.

Definition with_select_n (n : Z) (s : fdstate) : fdstate :=
  {| fde_heap := fde_heap s; fd_table := fd_table s; fd_table_max := fd_table_max s;
     read_fds := read_fds s; write_fds := write_fds s; error_fds := error_fds s;
     select_n := n; SHELL_EXIT_NOTIFY_FD := SHELL_EXIT_NOTIFY_FD s; fd_world := fd_world s; rest := rest s |}.

Definition with_notify_fd (fd : Z) (s : fdstate) : fdstate :=
  {| fde_heap := fde_heap s; fd_table := fd_table s; fd_table_max := fd_table_max s;
     read_fds := read_fds s; write_fds := write_fds s; error_fds := error_fds s;
     select_n := select_n s; SHELL_EXIT_NOTIFY_FD := fd; fd_world := fd_world s; rest := rest s |}.

(** The sentinel [static fdevent list_pending]. *)
Definition list_pending : ptr := 1%N.

Abbreviation F := (M fdstate).

Definition os {A} (m : M world A) : F A := zoom m.

Definition deref (p : ptr) : F fdevent := zoom (load p).

Definition assign (p : ptr) (f : fdevent -> fdevent) : F unit := zoom (store p f).

(** [FD_SET]/[FD_CLR] on a set outside its [FD_SETSIZE] bits is undefined. *)
Definition FD_SET (fd : Z) (fds : gset Z) : F (gset Z) :=
  if (0 <=? fd) && (fd <? FD_SETSIZE) then mret ({[fd]} ∪ fds) else undef "FD_SET out of range".

Definition FD_CLR (fd : Z) (fds : gset Z) : F (gset Z) :=
  if (0 <=? fd) && (fd <? FD_SETSIZE) then mret (fds ∖ {[fd]}) else undef "FD_CLR out of range".

(** [fd_table[i]] as an rvalue. *)
Definition table_get (i : Z) : F ptr :=
  if i <? 0 then undef "fd_table index" else
  x ← must "fd_table index" (fun s => fd_table s !! Z.to_nat i);
  match x with
  | Some p => mret p
  | None => undef "indeterminate fd_table entry"
  end.

Definition table_set (i : Z) (p : ptr) : F unit :=
  _ ← must "fd_table index" (fun s => fd_table s !! Z.to_nat i);
  modify (fun s => with_table (<[Z.to_nat i := Some p]> (fd_table s)) (fd_table_max s) s).

(** ** The select back end *)

Definition fdevent_init : F unit := modify (with_fds ∅ ∅ ∅).

Definition fdevent_connect (p : ptr) : F unit :=
  fde ← deref p;
  n ← gets select_n;
  when (fde_fd fde >=? n) (modify (with_select_n (fde_fd fde + 1))).

(** [for(n = 0, i = 0; i < select_n; i++) if(fd_table[i] != 0) n = i;] *)
Fixpoint last_used (idx : list Z) (n : Z) : F Z :=
  match idx with
  | [] => mret n
  | i :: idx' =>
      p ← table_get i;
      last_used idx' (if bool_decide (p <> NULL) then i else n)
  end.

Definition fdevent_disconnect (p : ptr) : F unit :=
  fde ← deref p;
  s ← gets id;
  r ← FD_CLR (fde_fd fde) (read_fds s);
  w ← FD_CLR (fde_fd fde) (write_fds s);
  e ← FD_CLR (fde_fd fde) (error_fds s);
  modify (with_fds r w e);;
  n ← last_used (seqZ 0 (select_n s)) 0;
  modify (with_select_n (n + 1)).

Definition fdevent_update (p : ptr) (events : Z) : F unit :=
  fde ← deref p;
  let fd := fde_fd fde in
  s ← gets id;
  r ← (if has events FDE_READ then FD_SET fd (read_fds s) else FD_CLR fd (read_fds s));
  w ← (if has events FDE_WRITE then FD_SET fd (write_fds s) else FD_CLR fd (write_fds s));
  e ← (if has events FDE_ERROR then FD_SET fd (error_fds s) else FD_CLR fd (error_fds s));
  modify (with_fds r w e);;
  assign p (set_state (Z.lor (Z.land (fde_state fde) FDE_STATEMASK) events)).

(** [fdevent_fd_check]: marks the descriptors that [fcntl] no longer knows;
    returns how many and the updated set. *)
Fixpoint fd_check_loop (idx : list Z) (n : Z) (fds : gset Z) : F (Z * gset Z) :=
  match idx with
  | [] => mret (n, fds)
  | i :: idx' =>
      fde ← table_get i;
      if bool_decide (fde = NULL) then fd_check_loop idx' n fds else
      r ← os (syscall (Getfl i));
      if rc_int r <? 0 then
        fds' ← FD_SET i fds;
        fd_check_loop idx' (n + 1) fds'
      else fd_check_loop idx' n fds
  end.

Definition fdevent_fd_check (fds : gset Z) : F (Z * gset Z) :=
  n ← gets select_n;
  fd_check_loop (seqZ 0 n) 0 fds.

(** ** The pending list *)

Definition fdevent_plist_enqueue (node : ptr) : F unit :=
  zoom (
    store_next node list_pending;;
    lp ← load_prev list_pending;
    store_prev node lp;;
    np ← load_prev node;
    store_next np node;;
    store_prev list_pending node).

Definition fdevent_plist_remove (node : ptr) : F unit :=
  zoom (
    p ← load_prev node;
    n ← load_next node;
    store_next p n;;
    n' ← load_next node;
    p' ← load_prev node;
    store_prev n' p';;
    store_next node NULL;;
    store_prev node NULL).

(** Returns [NULL] when the list is empty. *)
Definition fdevent_plist_dequeue : F ptr :=
  zoom (
    node ← load_next list_pending;
    if bool_decide (node = list_pending) then mret NULL else
    n ← load_next node;
    store_next list_pending n;;
    n' ← load_next list_pending;
    store_prev n' list_pending;;
    store_next node NULL;;
    store_prev node NULL;;
    mret node).

(** ** Waiting for events *)

(** The events [select] reported for descriptor [i], and how many bits that is. *)
Definition reported (i : Z) (rfd wfd efd : gset Z) : Z * Z :=
  let r := bool_decide (i ∈ rfd) in
  let w := bool_decide (i ∈ wfd) in
  let e := bool_decide (i ∈ efd) in
  (Z.lor (Z.lor (if r then FDE_READ else 0) (if w then FDE_WRITE else 0)) (if e then FDE_ERROR else 0),
   (if r then 1 else 0) + (if w then 1 else 0) + (if e then 1 else 0)).

(** One descriptor of the loop of [fdevent_process]. *)
Definition process_fd (i events : Z) : F unit :=
  if events =? 0 then skip else
  fde ← table_get i;
  if bool_decide (fde = NULL) then abort "missing fde for fd" else
  f ← deref fde;
  assign fde (set_events (Z.lor (fde_events f) events));;
  if has (fde_state f) FDE_PENDING then skip else
  assign fde (set_state (Z.lor (fde_state f) FDE_PENDING));;
  fdevent_plist_enqueue fde.

(** [for(i = 0; (i < select_n) && (n > 0); i++)] *)
Fixpoint process_loop (idx : list Z) (n : Z) (rfd wfd efd : gset Z) : F unit :=
  match idx with
  | [] => skip
  | i :: idx' =>
      if n >? 0 then
        let '(events, k) := reported i rfd wfd efd in
        process_fd i events;;
        process_loop idx' (n - k) rfd wfd efd
      else skip
  end.

Definition fdevent_process : F unit :=
  s ← gets id;
  a ← os (syscall (Select (select_n s) (read_fds s) (write_fds s) (error_fds s)));
  let go n rfd wfd efd :=
    '(n', rfd') ← (if n <=? 0 then fdevent_fd_check rfd else mret (n, rfd));
    process_loop (seqZ 0 (select_n s)) n' rfd' wfd efd in
  match a with
  | Ok (n, (rfd, wfd, efd)) => go n rfd wfd efd
  | Err e => if e =? EINTR then skip else if e =? EBADF then go (-1) ∅ ∅ ∅ else skip
  end.

(** ** Registration *)

(** [while(fd_table_max <= fde->fd) fd_table_max *= 2;] *)
Fixpoint double_until (fuel : nat) (max fd : Z) : option Z :=
  if max <=? fd then
    match fuel with
    | O => None
    | S fuel' => double_until fuel' (max * 2) fd
    end
  else Some max.

(** The size of a pointer on the platform: 4 or 8. *)
Section platform.
Context (sizeof_ptr : Z).

(** [realloc] to [max] entries, then [memset(fd_table + oldmax, 0, sizeof(int) *
    (fd_table_max - oldmax))]: only the entries those bytes cover are zero. *)
Definition grow_table (table : list (option ptr)) (oldmax max : Z) : list (option ptr) :=
  let zeroed := 4 * (max - oldmax) / sizeof_ptr in
  take (Z.to_nat oldmax) table ++ replicate (Z.to_nat zeroed) (Some NULL) ++
  replicate (Z.to_nat (max - oldmax - zeroed)) None.

Definition fdevent_register (p : ptr) : F unit :=
  fde ← deref p;
  let fd := fde_fd fde in
  if fd <? 0 then abort "bogus negative fd" else
  max ← gets fd_table_max;
  (if fd >=? max then
     if fd >? 32000 then abort "bogus huuuuge fd" else
     (if max =? 0 then fdevent_init else skip);;
     match double_until 8 (if max =? 0 then 256 else max) fd with
     | None => stop_with Diverge
     | Some max' =>
         r ← os (syscall (Malloc (sizeof_ptr * max')));
         match r with
         | Err _ => abort "could not expand fd_table"
         | Ok _ => modify (fun s => with_table (grow_table (fd_table s) max max') max' s)
         end
     end
   else skip);;
  table_set fd p.

Definition fdevent_unregister (p : ptr) : F unit :=
  fde ← deref p;
  let fd := fde_fd fde in
  max ← gets fd_table_max;
  if (fd <? 0) || (fd >=? max) then abort "fd out of range" else
  q ← table_get fd;
  if bool_decide (q <> p) then abort "fd_table out of sync" else
  table_set fd NULL;;
  if has (fde_state fde) FDE_DONT_CLOSE then skip else (os (adb_close fd);; skip).

Definition fdevent_install (p : ptr) (fd : Z) (func : fd_func) (arg : ptr) : F unit :=
  assign p (fun _ => {| fde_next := NULL; fde_prev := NULL; fde_fd := fd; fde_force_eof := 0;
                        fde_state := FDE_ACTIVE; fde_events := 0; fde_func := func; fde_arg := arg |});;
  os (syscall (Setfl fd O_NONBLOCK));;
  fdevent_register p;;
  fdevent_connect p;;
  f ← deref p;
  assign p (set_state (Z.lor (fde_state f) FDE_ACTIVE)).

Definition fdevent_remove (p : ptr) : F unit :=
  f ← deref p;
  when (has (fde_state f) FDE_PENDING) (fdevent_plist_remove p);;
  when (has (fde_state f) FDE_ACTIVE) (fdevent_disconnect p;; fdevent_unregister p);;
  assign p (fun f => set_events 0 (set_state 0 f)).

(** Memory for a new object: [malloc]'s address is one not in use. *)
Definition fresh_addr (h : gmap N fdevent) : ptr := fresh (dom h ∪ {[NULL; list_pending]}).

Definition blank : fdevent :=
  {| fde_next := NULL; fde_prev := NULL; fde_fd := 0; fde_force_eof := 0; fde_state := 0;
     fde_events := 0; fde_func := client_func 0; fde_arg := NULL |}.

Definition fdevent_create (fd : Z) (func : fd_func) (arg : ptr) : F ptr :=
  r ← os (syscall (Malloc 32));
  match r with
  | Err _ => mret NULL
  | Ok _ =>
      h ← gets fde_heap;
      let p := fresh_addr h in
      modify (put (<[p := blank]> h));;
      fdevent_install p fd func arg;;
      f ← deref p;
      assign p (set_state (Z.lor (fde_state f) FDE_CREATED));;
      mret p
  end.

Definition fdevent_destroy (p : ptr) : F unit :=
  if bool_decide (p = NULL) then skip else
  f ← deref p;
  if negb (has (fde_state f) FDE_CREATED) then abort "fde not created by fdevent_create()" else
  fdevent_remove p.

(** ** Changing the events of interest *)

Definition fdevent_set (p : ptr) (events : Z) : F unit :=
  let events := Z.land events FDE_EVENTMASK in
  f ← deref p;
  if Z.land (fde_state f) FDE_EVENTMASK =? events then skip else
  when (has (fde_state f) FDE_ACTIVE) (fdevent_update p events);;
  assign p (fun f => set_state (Z.lor (Z.land (fde_state f) FDE_STATEMASK) events) f);;
  f' ← deref p;
  if has (fde_state f') FDE_PENDING then
    assign p (fun f => set_events (clear (fde_events f) events) f);;
    f'' ← deref p;
    if fde_events f'' =? 0 then
      fdevent_plist_remove p;;
      assign p (fun f => set_state (clear (fde_state f) FDE_PENDING) f)
    else skip
  else skip.

Definition fdevent_add (p : ptr) (events : Z) : F unit :=
  f ← deref p;
  fdevent_set p (Z.lor (Z.land (fde_state f) FDE_EVENTMASK) (Z.land events FDE_EVENTMASK)).

Definition fdevent_del (p : ptr) (events : Z) : F unit :=
  f ← deref p;
  fdevent_set p (Z.land (Z.land (fde_state f) FDE_EVENTMASK) (Z.lnot (Z.land events FDE_EVENTMASK))).

(** ** Dispatch *)

(** The functions the clients of the loop register, with their C arguments
    [(fd, events, arg)]. *)
Context (client : N -> Z -> Z -> ptr -> F unit).

(** [fdevent_subproc_event_func(fd, ev, userdata)], the handler of the
    shell-exit notification socket; [call_fdfunc] stands for
    [fdevent_call_fdfunc], which it calls at the end. *)
Definition subproc_event (call_fdfunc : ptr -> F unit) (fd ev : Z) : F unit :=
  max ← gets fd_table_max;
  if (fd <? 0) || (fd >=? max) then abort "fd out of range for fd_table" else
  fde ← table_get fd;
  fdevent_add fde FDE_READ;;
  if negb (has ev FDE_READ) then skip else
  b ← os (readx fd 4);
  match b with
  | None => abort "Failed to read the subproc's fd"
  | Some bs =>
      let subproc_fd := s32 (le_val bs) in
      max' ← gets fd_table_max;
      if (subproc_fd <? 0) || (subproc_fd >=? max') then skip else
      subproc_fde ← table_get subproc_fd;
      if bool_decide (subproc_fde = NULL) then skip else
      f ← deref subproc_fde;
      if negb (fde_fd f =? subproc_fd) then skip else
      assign subproc_fde (set_force_eof 1);;
      rcount ← os (syscall (Fionread subproc_fd));
      if negb (match rcount with Ok n => n | Err _ => 0 end =? 0) then skip else
      assign subproc_fde (fun f => set_events (Z.lor (fde_events f) FDE_READ) f);;
      f' ← deref subproc_fde;
      if has (fde_state f') FDE_PENDING then skip else
      assign subproc_fde (fun f => set_state (Z.lor (fde_state f) FDE_PENDING) f);;
      call_fdfunc subproc_fde
  end.

(** [fdevent_call_fdfunc] and the shell-exit handler call each other; every
    round trip reads from the notification socket, so the calls the world will
    still answer bound the depth. *)
Fixpoint call_fdfunc (depth : nat) (p : ptr) : F unit :=
  match depth with
  | O => stop_with Diverge
  | S depth' =>
      fde ← deref p;
      let events := fde_events fde in
      assign p (set_events 0);;
      if negb (has (fde_state fde) FDE_PENDING) then skip else
      assign p (set_state (clear (fde_state fde) FDE_PENDING));;
      match fde_func fde with
      | client_func id => client id (fde_fd fde) events (fde_arg fde)
      | fdevent_subproc_event_func => subproc_event (call_fdfunc depth') (fde_fd fde) events
      end
  end.

Definition fdevent_call_fdfunc (p : ptr) : F unit := fun s => call_fdfunc (S (budget s)) p s.

(** ** The loop *)

Definition fdevent_subproc_setup : F unit :=
  r ← os adb_socketpair;
  match r with
  | Err _ => abort "cannot create shell-exit socket-pair"
  | Ok (s0, s1) =>
      modify (with_notify_fd s0);;
      fde ← fdevent_create s1 fdevent_subproc_event_func NULL;
      if bool_decide (fde = NULL) then abort "cannot create fdevent for shell-exit handler" else
      fdevent_add fde FDE_READ
  end.

(** [while((fde = fdevent_plist_dequeue())) fdevent_call_fdfunc(fde);] *)
Fixpoint drain_fuel (fuel : nat) : F unit :=
  match fuel with
  | O => stop_with Diverge
  | S fuel' =>
      fde ← fdevent_plist_dequeue;
      if bool_decide (fde = NULL) then skip else
      fdevent_call_fdfunc fde;;
      drain_fuel fuel'
  end.

(** The interface never adds to the pending list while it is drained, so one
    unit per object is enough. *)
Definition drain : F unit := fun s => drain_fuel (S (size (fde_heap s))) s.

(** One turn of [for(;;)]. *)
Definition fdevent_loop_turn : F unit :=
  fdevent_process;;
  drain.

Definition fdevent_loop : F unit :=
  fdevent_subproc_setup;;
  loop (fun _ : unit => fdevent_loop_turn;; mret (inl tt)) tt.
End platform.

(** ** Representation and invariant *)

(** An object up to its list links. *)
Definition obj (s : fdstate) (p : ptr) : option fdevent := payload <$> fde_heap s !! p.

Definition active (f : fdevent) : bool := has (fde_state f) FDE_ACTIVE.

Definition pending (f : fdevent) : bool := has (fde_state f) FDE_PENDING.

(** Some active object watches [fd] for [flag]. *)
Definition watched (s : fdstate) (flag fd : Z) : Prop :=
  exists p f, obj s p = Some f /\ active f = true /\ fde_fd f = fd /\ has (fde_state f) flag = true.

(** The table, the sets and the objects agree. *)
Record fd_ok (s : fdstate) : Prop := {
  ok_len : Z.of_nat (length (fd_table s)) = fd_table_max s;
  ok_init : Forall is_Some (fd_table s);
  ok_size : fd_table_max s = 0 \/ 256 <= fd_table_max s;
  ok_select : 0 <= select_n s <= fd_table_max s;
  ok_table : forall i p, fd_table s !! i = Some (Some p) -> p <> NULL ->
    exists f, obj s p = Some f /\ fde_fd f = Z.of_nat i /\ active f = true;
  ok_active : forall p f, obj s p = Some f -> active f = true ->
    p <> NULL /\ p <> list_pending /\ 0 <= fde_fd f < FD_SETSIZE /\ fde_fd f < select_n s /\
    fd_table s !! Z.to_nat (fde_fd f) = Some (Some p);
  ok_pending : forall p f, obj s p = Some f -> pending f = true -> active f = true;
  ok_range : forall p f, obj s p = Some f -> 0 <= fde_state f < 2 ^ 16 /\ 0 <= fde_events f < 2 ^ 16;
  ok_read : forall fd, fd ∈ read_fds s <-> watched s FDE_READ fd;
  ok_write : forall fd, fd ∈ write_fds s <-> watched s FDE_WRITE fd;
  ok_error : forall fd, fd ∈ error_fds s <-> watched s FDE_ERROR fd;
}.

(** The pending list holds exactly the pending objects, in the order [pend]. *)
Record fd_inv (s : fdstate) (pend : list ptr) : Prop := {
  inv_ok : fd_ok s;
  inv_list : dll (fde_heap s) list_pending pend;
  inv_pend : forall p, p ∈ pend <-> exists f, obj s p = Some f /\ pending f = true;
}.

(** ** Lemmas: flags of the state word *)

Lemma state_split st ev : 0 <= ev <= 0xff ->
  Z.land (Z.lor (Z.land st FDE_STATEMASK) ev) FDE_EVENTMASK = ev.
Proof.
  intros H. rewrite Z.land_lor_distr_l, <- Z.land_assoc.
  change (Z.land FDE_STATEMASK FDE_EVENTMASK) with 0. rewrite Z.land_0_r, Z.lor_0_l.
  change FDE_EVENTMASK with (Z.ones 8). rewrite Z.land_ones by lia. apply Z.mod_small. lia.
Qed.

Lemma land_eventmask_range ev : 0 <= Z.land ev FDE_EVENTMASK <= 0xff.
Proof.
  change FDE_EVENTMASK with (Z.ones 8). rewrite Z.land_ones by lia.
  pose proof (Z.mod_pos_bound ev (2 ^ 8) ltac:(lia)). lia.
Qed.

(** The state bits survive a change of events, and the other way round. *)
Lemma has_new_state st ev k : 0 <= ev <= 0xff -> 8 <= k < 16 ->
  has (Z.lor (Z.land st FDE_STATEMASK) ev) (2 ^ k) = has st (2 ^ k).
Proof.
  intros Hev Hk. rewrite !has_pow2 by lia. bits_norm.
  rewrite (Z.bits_above_log2 ev k); [|lia|].
  - rewrite orb_false_r. assert (Z.testbit FDE_STATEMASK k = true) as ->; [|by rewrite andb_true_r].
    assert (k = 8 \/ k = 9 \/ k = 10 \/ k = 11 \/ k = 12 \/ k = 13 \/ k = 14 \/ k = 15) by lia.
    naive_solver.
  - destruct (Z.eq_dec ev 0) as [->|]; [simpl; lia|].
    assert (Z.log2 ev < 8); [|lia]. apply Z.log2_lt_pow2; lia.
Qed.

Lemma has_new_event st ev k : 0 <= ev <= 0xff -> 0 <= k < 8 ->
  has (Z.lor (Z.land st FDE_STATEMASK) ev) (2 ^ k) = has ev (2 ^ k).
Proof.
  intros Hev Hk. rewrite !has_pow2 by lia. bits_norm.
  assert (Z.testbit FDE_STATEMASK k = false) as ->; [|by rewrite andb_false_r].
  assert (k = 0 \/ k = 1 \/ k = 2 \/ k = 3 \/ k = 4 \/ k = 5 \/ k = 6 \/ k = 7) by lia.
  naive_solver.
Qed.

Lemma lor_u16_range a b : 0 <= a < 2 ^ 16 -> 0 <= b < 2 ^ 16 -> 0 <= Z.lor a b < 2 ^ 16.
Proof.
  intros Ha Hb. split; [apply Z.lor_nonneg; lia|].
  destruct (Z.eq_dec (Z.lor a b) 0) as [->|Hne]; [lia|].
  assert (0 < Z.lor a b) by (pose proof (proj2 (Z.lor_nonneg a b)); lia).
  apply Z.log2_lt_pow2; [lia|]. rewrite Z.log2_lor by lia.
  assert (Hl : forall x, 0 <= x < 2 ^ 16 -> Z.log2 x < 16).
  { intros x Hx. destruct (Z.eq_dec x 0) as [->|]; [simpl; lia|]. apply Z.log2_lt_pow2; lia. }
  pose proof (Hl a Ha). pose proof (Hl b Hb). lia.
Qed.

Lemma land_u16_range a b : 0 <= a < 2 ^ 16 -> 0 <= Z.land a b < 2 ^ 16.
Proof.
  intros Ha. assert (E : Z.land a b = (Z.land a b) mod 2 ^ 16).
  { rewrite <- Z.land_ones by lia. apply testbit_ext. intros n Hn. bits_norm.
    destruct (Z.ltb_spec n 16).
    - rewrite Z.ones_spec_low by lia. by rewrite andb_true_r.
    - rewrite <- (Z.mod_small a (2 ^ 16)) by lia. by rewrite Z.mod_pow2_bits_high by lia. }
  rewrite E. apply Z.mod_pos_bound. lia.
Qed.
