(* ===== verification/Transport.v ===== *)
(** * Packets and transports as the event loop sees them (adb.cpp, transport.cpp)

    Access to the shared data of [Globals] from the program's monad, packet
    allocation, [send_packet] (which hands a packet's address to the transport
    thread through a socket pair) and the disconnect callbacks of a
    transport. *)

From S2P Require Import Prelude Effects DList Os Sysdeps Wire Globals Fdevent.

(** ** Access *)

#[global] Program Instance Lens_rest : Lens fdstate globals := {|
  view := rest;
  put g s := {| fde_heap := fde_heap s; fd_table := fd_table s; fd_table_max := fd_table_max s;
    read_fds := read_fds s; write_fds := write_fds s; error_fds := error_fds s;
    select_n := select_n s; SHELL_EXIT_NOTIFY_FD := SHELL_EXIT_NOTIFY_FD s; fd_world := fd_world s;
    rest := g |};
|}.
Next Obligation. done. Qed.
Next Obligation. by intros []. Qed.
Next Obligation. done. Qed.

#[global] Program Instance Lens_sockets : Lens globals (gmap N asocket) := {|
  view := sockets; put := set_sockets |}.
Next Obligation. done. Qed.
Next Obligation. by intros []. Qed.
Next Obligation. done. Qed.

#[global] Program Instance Lens_trackers : Lens globals (gmap N JdwpTracker) := {|
  view := trackers; put := set_trackers |}.
Next Obligation. done. Qed.
Next Obligation. by intros []. Qed.
Next Obligation. done. Qed.

#[global] Program Instance Lens_procs : Lens globals (gmap N JdwpProcess) := {|
  view := procs; put := set_procs |}.
Next Obligation. done. Qed.
Next Obligation. by intros []. Qed.
Next Obligation. done. Qed.

#[global] Program Instance Lens_transports : Lens globals (gmap N atransport) := {|
  view := transports; put := set_transports |}.
Next Obligation. done. Qed.
Next Obligation. by intros []. Qed.
Next Obligation. done. Qed.

#[global] Program Instance Lens_disconnects : Lens globals (gmap N adisconnect) := {|
  view := disconnects; put := set_disconnects |}.
Next Obligation. done. Qed.
Next Obligation. by intros []. Qed.
Next Obligation. done. Qed.

#[global] Program Instance Lens_pubkeys : Lens globals (gmap N adb_public_key) := {|
  view := pubkeys; put := set_pubkeys |}.
Next Obligation. done. Qed.
Next Obligation. by intros []. Qed.
Next Obligation. done. Qed.

#[global] Program Instance Lens_listeners : Lens globals (gmap N alistener) := {|
  view g := listeners (hosts g); put x g := set_hosts (set_listeners x (hosts g)) g |}.
Next Obligation. done. Qed.
Next Obligation. by intros [? ? ? ? ? ? ? ? ? ? ? ? ? ? ? ? ? ? ? ? ? ? []]. Qed.
Next Obligation. done. Qed.

#[global] Program Instance Lens_device_trackers : Lens globals (gmap N device_tracker) := {|
  view g := device_trackers (hosts g);
  put x g := set_hosts (set_device_trackers x (device_tracker_list (hosts g)) (hosts g)) g |}.
Next Obligation. done. Qed.
Next Obligation. by intros [? ? ? ? ? ? ? ? ? ? ? ? ? ? ? ? ? ? ? ? ? ? []]. Qed.
Next Obligation. done. Qed.

(** A heap of [globals] as a part of the whole state. *)
#[global] Program Instance Lens_heap {T} `{Lens globals (gmap N T)} : Lens fdstate (gmap N T) := {|
  view s := view (rest s);
  put h s := put (put h (rest s)) s |}.
Next Obligation. intros. simpl. apply view_put. Qed.
Next Obligation. intros T ? []. simpl. by rewrite put_view. Qed.
Next Obligation. intros. simpl. by rewrite put_put. Qed.

Definition global {A} (f : globals -> A) : F A := gets (fun s => f (rest s)).

Definition update (f : globals -> globals) : F unit := modify (fun s => put (f (rest s)) s).

Section heap.
Context {T : Type} `{Lens globals (gmap N T)}.

(** [*p] and [*p = f( *p )]; undefined when [p] is NULL, freed or never allocated. *)
Definition get (p : ptr) : F T := must "dangling pointer" (fun s => view (rest s) !! p).

Definition set (p : ptr) (f : T -> T) : F unit :=
  t ← get p; update (fun g => put (<[p := f t]> (view g)) g).

(** [calloc] at an address that is not in use, and [free]. *)
Definition alloc (p : ptr) (t : T) : F unit := update (fun g => put (<[p := t]> (view g)) g).

Definition dealloc (p : ptr) : F unit :=
  _ ← get p; update (fun g => put (base.delete p (view g)) g).
End heap.

(** The addresses in use; a new object gets another one. *)
Definition used (g : globals) : gset N :=
  {[NULL]} ∪ dom (sockets g) ∪ dom (trackers g) ∪ dom (jdwp_passes g) ∪ dom (procs g) ∪
  dom (transports g) ∪ dom (disconnects g) ∪ dom (pubkeys g) ∪ dom (listeners (hosts g)).

Definition calloc (size : Z) : F ptr :=
  r ← os (syscall (Malloc size));
  match r with
  | Err _ => mret NULL
  | Ok _ => global (fun g => fresh (used g))
  end.

(** Memory for an [fdevent] embedded in another structure. *)
Definition embed_fde : F ptr :=
  h ← gets fde_heap;
  let p := fresh_addr h in
  modify (put (<[p := blank]> h));;
  mret p.

Definition free_fde (p : ptr) : F unit :=
  _ ← deref p; modify (fun s => put (base.delete p (fde_heap s)) s).

(** ** Packets (adb.cpp) *)

(** [sizeof(apacket)]: the header, the two pointers and the payload. *)
Definition sizeof_apacket : Z := 48 + MAX_PAYLOAD.

Definition zero_message : amessage :=
  {| command := 0; arg0 := 0; arg1 := 0; data_length := 0; data_check := 0; magic := 0 |}.

Definition get_apacket : F pkt :=
  r ← os (syscall (Malloc sizeof_apacket));
  match r with
  | Err _ => abort "failed to allocate an apacket"
  | Ok _ =>
      a ← global brk;
      update (fun g => set_brk (a + sizeof_apacket) (set_live ({[a]} ∪ live g) g));;
      mret {| p_addr := a; p_len := 0; p_ptr := None;
              p_body := {| msg := zero_message; data := [] |} |}
  end.

(** Give up a packet: only one that is still allocated. *)
Definition release (p : pkt) : F unit :=
  l ← global live;
  if bool_decide (p_addr p ∈ l) then update (set_live (l ∖ {[p_addr p]}))
  else undef "packet freed or sent before".

Definition put_apacket (p : pkt) : F unit := release p.

(** ** Sending (transport.cpp) *)

(** [write_packet]: all the bytes of the packet's address, or -1. *)
Definition write_packet (fd : Z) (bs : bytes) : M world Z :=
  loop (fun bs =>
    match bs with
    | [] => mret (inr 0)
    | _ =>
        r ← adb_write fd bs;
        match r with
        | Ok n => if n >? 0 then mret (inl (drop (Z.to_nat n) bs)) else mret (inr (-1))
        | Err e => if e =? EINTR then mret (inl bs) else mret (inr (-1))
        end
    end) bs.

Section platform.
Context (sizeof_ptr : Z).

Definition send_packet (p : pkt) (t : ptr) : F unit :=
  let b := seal (p_body p) in
  if bool_decide (t = NULL) then abort "Transport is null" else
  tr ← get (T := atransport) t;
  r ← os (write_packet (at_transport_socket tr) (le_bytes (Z.to_nat sizeof_ptr) (p_addr p)));
  if negb (r =? 0) then abort "cannot enqueue packet on transport socket" else
  release p;;
  update (fun g => set_inflight (<[p_addr p := b]> (inflight g)) (set_sent (sent g ++ [(t, b)]) g)).
End platform.

(** [read_packet]: the address of a packet, or [None] for -1; the packet itself
    is the one the other side gave up, and belongs to the reader now. *)
Definition read_all (fd len : Z) : M world (option bytes) :=
  loop (fun '(len, acc) =>
    if len <=? 0 then mret (inr (Some acc)) else
    r ← adb_read fd len;
    match r with
    | Ok (b :: bs) => mret (inl (len - Z.of_nat (length (b :: bs)), acc ++ b :: bs))
    | Ok [] => mret (inr None)
    | Err e => mret (if e =? EINTR then inl (len, acc) else inr None)
    end) (len, []).

Definition read_packet (sizeof_ptr fd : Z) : F (option pkt) :=
  r ← os (read_all fd sizeof_ptr);
  match r with
  | None => mret None
  | Some bs =>
      let a := le_val bs in
      b ← must "not the address of a packet" (fun s => inflight (rest s) !! a);
      update (fun g => set_inflight (base.delete a (inflight g)) (set_live ({[a]} ∪ live g) g));;
      mret (Some {| p_addr := a; p_len := 0; p_ptr := None; p_body := b |})
  end.

(** [write_packet] by the thread that reads from the remote side: the packet
    goes to the event loop. *)
Definition pass_packet (sizeof_ptr fd : Z) (p : pkt) : F Z :=
  r ← os (write_packet fd (le_bytes (Z.to_nat sizeof_ptr) (p_addr p)));
  if negb (r =? 0) then mret (-1) else
  release p;;
  update (fun g => set_inflight (<[p_addr p := p_body p]> (inflight g)) g);;
  mret 0.

(** ** Disconnect callbacks (transport.cpp) *)

Definition lock_transports : F unit :=
  b ← global transport_lock;
  if (b : bool) then undef "transport_lock locked twice" else update (set_transport_lock true).

Definition unlock_transports : F unit := update (set_transport_lock false).

Definition add_transport_disconnect (t dis : ptr) : F unit :=
  lock_transports;;
  tr ← get (T := atransport) t;
  zoom (link_before (T := adisconnect) dis (at_disconnects tr));;
  unlock_transports.

Definition remove_transport_disconnect (t dis : ptr) : F unit :=
  zoom (unlink (T := adisconnect) dis;; store_prev dis dis;; store_next dis dis).

(** [run_transport_disconnects]: the successor is read before the call. *)
Fixpoint run_disconnects (fuel : nat) (call : disconnect_fn -> ptr -> ptr -> F unit)
    (head t dis : ptr) : F unit :=
  if bool_decide (dis = head) then skip else
  match fuel with
  | O => stop_with Diverge
  | S fuel' =>
      d ← get (T := adisconnect) dis;
      call (ad_func d) (ad_opaque d) t;;
      run_disconnects fuel' call head t (ad_next d)
  end.

Definition run_transport_disconnects (call : disconnect_fn -> ptr -> ptr -> F unit) (t : ptr) : F unit :=
  tr ← get (T := atransport) t;
  first ← zoom (load_next (T := adisconnect) (at_disconnects tr));
  n ← global (fun g => size (disconnects g));
  run_disconnects n call (at_disconnects tr) t first.

(** ** Rules for the accesses *)

(** A system call of the whole program. *)
Lemma wp_sys c Q (X : stop -> fdstate -> Prop) s :
  (forall (a : ans c) w', steps (fd_world s) [ev c a] w' -> Q a (put w' s)) ->
  X Blocked s -> wp (os (syscall c)) Q X s.
Proof.
  intros HQ HX. apply wp_zoom, wp_syscall.
  - intros w' a S _. by apply HQ.
  - by destruct s.
Qed.

Ltac sys := lazymatch goal with |- wp (os (syscall ?c)) _ _ _ => apply (wp_sys c) end.

Lemma wp_global {A} (f : globals -> A) Q X s : Q (f (rest s)) s -> wp (global f) Q X s.
Proof. done. Qed.

Lemma wp_update f Q X s : Q tt (put (f (rest s)) s) -> wp (update f) Q X s.
Proof. done. Qed.

Section access.
Context {T : Type} `{Lens globals (gmap N T)}.

Lemma wp_get p t Q X s : view (rest s) !! p = Some t -> Q t s -> wp (get p) Q X s.
Proof. intros E HQ. unfold get. by eapply wp_must. Qed.

Lemma wp_set p f t Q X s :
  view (rest s) !! p = Some t -> Q tt (put (put (<[p := f t]> (view (rest s))) (rest s)) s) ->
  wp (set p f) Q X s.
Proof. intros E HQ. unfold set. wp_step. eapply wp_get; [done|]. by apply wp_update. Qed.

Lemma wp_alloc p (t : T) Q X s :
  Q tt (put (put (<[p := t]> (view (rest s))) (rest s)) s) -> wp (alloc p t) Q X s.
Proof. done. Qed.

Lemma wp_dealloc p t Q X s :
  view (rest s) !! p = Some t -> Q tt (put (put (base.delete p (view (rest s))) (rest s)) s) ->
  wp (dealloc p) Q X s.
Proof. intros E HQ. unfold dealloc. wp_step. eapply wp_get; [done|]. by apply wp_update. Qed.
End access.

Lemma wp_calloc n Q (X : stop -> fdstate -> Prop) s :
  (forall w' (e : Z), steps (fd_world s) [ev (Malloc n) (Err e)] w' -> Q NULL (put w' s)) ->
  (forall w' p, steps (fd_world s) [ev (Malloc n) (Ok tt)] w' -> p <> NULL -> p ∉ used (rest s) ->
     Q p (put w' s)) ->
  X Blocked s -> wp (calloc n) Q X s.
Proof.
  intros H0 H1 HX. unfold calloc. wp_step. sys; [|done]. intros [[]|e] w' S; [|by eapply H0].
  apply wp_gets. apply H1; [done| |apply is_fresh].
  intros E. apply (is_fresh (used (rest s))). simpl in *. rewrite E. unfold used. set_solver.
Qed.
