(* ===== verification/FdeventFacts.v ===== *)
(** * Correctness of the event loop

    The operations of [Fdevent] keep [fd_inv]; the theorems at the end state
    what each promises: the descriptors handed to [select] are exactly the
    ones the active objects watch, a reported event makes its object pending
    exactly once, pending objects are called in the order they became pending,
    and the arithmetic of the table is in range. *)

From S2P Require Import Prelude Effects DList Os Sysdeps Wire Globals Fdevent.

(** ** Stores to one object *)

Lemma wp_deref p f Q X s : fde_heap s !! p = Some f -> Q f s -> wp (deref p) Q X s.
Proof.
  intros E HQ. unfold deref, load. wp_step. wp_step; [exact E|]. by rewrite put_view.
Qed.

Lemma wp_assign p g f Q X s :
  fde_heap s !! p = Some f -> Q tt (put (<[p := g f]> (fde_heap s)) s) -> wp (assign p g) Q X s.
Proof.
  intros E HQ. unfold assign, store, load. wp_step. wp_step. wp_step; [exact E|]. by wp_step.
Qed.

Lemma obj_payload s p f : fde_heap s !! p = Some f -> obj s p = Some (payload f).
Proof. unfold obj. by intros ->. Qed.

Lemma obj_inv s p f : obj s p = Some f -> exists f0, fde_heap s !! p = Some f0 /\ payload f0 = f.
Proof. unfold obj. intros (f0 & ? & ->)%fmap_Some. eauto. Qed.

Lemma obj_put_insert s p f q :
  obj (put (<[p := f]> (fde_heap s)) s) q = if decide (q = p) then Some (payload f) else obj s q.
Proof.
  unfold obj. simpl. case_decide as E; [subst; by rewrite lookup_insert_eq|].
  by rewrite lookup_insert_ne.
Qed.

Lemma obj_same_payload s h' p : same_payload (fde_heap s) h' -> obj (put h' s) p = obj s p.
Proof. intros E. unfold obj. simpl. by rewrite <- E. Qed.

(** ** The invariant only looks at objects, table and sets *)

Lemma fd_ok_ext s s' :
  fd_ok s -> (forall p, obj s' p = obj s p) ->
  fd_table s' = fd_table s -> fd_table_max s' = fd_table_max s -> select_n s' = select_n s ->
  read_fds s' = read_fds s -> write_fds s' = write_fds s -> error_fds s' = error_fds s ->
  fd_ok s'.
Proof.
  intros [] Ho Et Em En Er Ew Ee.
  assert (Hw : forall flag fd, watched s' flag fd <-> watched s flag fd).
  { intros. unfold watched. by setoid_rewrite Ho. }
  split; rewrite ?Et, ?Em, ?En, ?Er, ?Ew, ?Ee; try setoid_rewrite Ho; try setoid_rewrite Hw; done.
Qed.

(** Two active objects never share a descriptor. *)
Lemma active_unique s p q f g :
  fd_ok s -> obj s p = Some f -> obj s q = Some g -> active f = true -> active g = true ->
  fde_fd f = fde_fd g -> p = q.
Proof.
  intros Hok Hp Hq Hf Hg E.
  destruct (ok_active s Hok _ _ Hp Hf) as (_ & _ & _ & _ & Tp).
  destruct (ok_active s Hok _ _ Hq Hg) as (_ & _ & _ & _ & Tq).
  rewrite E in Tp. congruence.
Qed.

Lemma watched_iff s p f flag :
  fd_ok s -> obj s p = Some f -> active f = true ->
  watched s flag (fde_fd f) <-> has (fde_state f) flag = true.
Proof.
  intros Hok Hp Hf. split.
  - intros (q & g & Hq & Hg & E & H). assert (q = p) as -> by (by eapply active_unique).
    congruence.
  - intros H. by exists p, f.
Qed.

(** Replacing one object by one with the same descriptor and activity, with the
    sets adjusted at that descriptor. *)
Lemma fd_ok_update s s' p f f' :
  fd_ok s -> obj s p = Some f -> (forall q, obj s' q = if decide (q = p) then Some f' else obj s q) ->
  fd_table s' = fd_table s -> fd_table_max s' = fd_table_max s -> select_n s' = select_n s ->
  fde_fd f' = fde_fd f -> active f' = active f -> (pending f' = true -> active f' = true) ->
  0 <= fde_state f' < 2 ^ 16 -> 0 <= fde_events f' < 2 ^ 16 ->
  (forall fd, fd ∈ read_fds s' <-> if decide (active f = true /\ fd = fde_fd f)
                                 then has (fde_state f') FDE_READ = true else fd ∈ read_fds s) ->
  (forall fd, fd ∈ write_fds s' <-> if decide (active f = true /\ fd = fde_fd f)
                                 then has (fde_state f') FDE_WRITE = true else fd ∈ write_fds s) ->
  (forall fd, fd ∈ error_fds s' <-> if decide (active f = true /\ fd = fde_fd f)
                                 then has (fde_state f') FDE_ERROR = true else fd ∈ error_fds s) ->
  fd_ok s'.
Proof.
  intros Hok Hp Ho Et Em En Efd Eact Hpend Hst Hev Hr Hw He.
  assert (Hwatch : forall flag fd, watched s' flag fd <->
    if decide (active f = true /\ fd = fde_fd f) then has (fde_state f') flag = true
    else watched s flag fd).
  { intros flag fd. split.
    - intros (q & g & Hq & Hg & Eg & Hh). rewrite Ho in Hq. case_decide as Eqp.
      + simplify_eq. rewrite decide_True by (split; congruence). done.
      + rewrite decide_False; [by exists q, g|]. intros [Ha Efd'].
        apply Eqp. eapply (active_unique s q p g f); try done. congruence.
    - destruct (decide (active f = true /\ fd = fde_fd f)) as [[Ha Efd']|Hd].
      + intros Hh. exists p, f'. rewrite Ho, decide_True by done.
        split_and!; [done|congruence|congruence|done].
      + intros (q & g & Hq & Hg & Eg & Hh). exists q, g. rewrite Ho, decide_False; [done|].
        intros E. subst q. apply Hd. assert (g = f) by congruence. subst g. by split. }
  pose proof (ok_len s Hok). pose proof (ok_init s Hok).
  pose proof (ok_size s Hok). pose proof (ok_select s Hok).
  split; rewrite ?Et, ?Em, ?En; try done.
  - intros i q Hi Hq. destruct (ok_table s Hok i q Hi Hq) as (g & Hg & E & Ha).
    destruct (decide (q = p)) as [Eq|Ne].
    + subst q. exists f'. rewrite Ho, decide_True by done.
      assert (g = f) by congruence. subst g. split_and!; congruence.
    + exists g. by rewrite Ho, decide_False.
  - intros q g Hq Ha. rewrite Ho in Hq. case_decide.
    + simplify_eq. rewrite Efd. eapply ok_active; [done|done|congruence].
    + by eapply ok_active.
  - intros q g Hq Hpg. rewrite Ho in Hq. case_decide; [simplify_eq; auto|]. by eapply ok_pending.
  - intros q g Hq. rewrite Ho in Hq. case_decide; [injection Hq as <-; auto|]. by eapply ok_range.
  - intros fd. rewrite Hr, Hwatch. destruct (decide (_ /\ _)); [done|]. by apply ok_read.
  - intros fd. rewrite Hw, Hwatch. destruct (decide (_ /\ _)); [done|]. by apply ok_write.
  - intros fd. rewrite He, Hwatch. destruct (decide (_ /\ _)); [done|]. by apply ok_error.
Qed.

(** A change of [state] and [events] that leaves the watched flags alone. *)
Lemma fd_ok_restate s p f f' :
  fd_ok s -> fde_heap s !! p = Some f ->
  fde_fd f' = fde_fd f -> active f' = active f -> (pending f' = true -> active f' = true) ->
  0 <= fde_state f' < 2 ^ 16 -> 0 <= fde_events f' < 2 ^ 16 ->
  (forall flag, flag ∈ [FDE_READ; FDE_WRITE; FDE_ERROR] ->
     has (fde_state f') flag = has (fde_state f) flag) ->
  fd_ok (put (<[p := f']> (fde_heap s)) s).
Proof.
  intros Hok Hp Efd Ha Hpe Hst Hev Hfl.
  pose proof (obj_payload _ _ _ Hp) as Hpo.
  eapply (fd_ok_update s _ p (payload f) (payload f')); try done.
  - intros q. apply obj_put_insert.
  - intros fd. simpl. destruct (decide (active _ = true /\ _)) as [[Hd Efd']|]; [|done]. subst fd.
    rewrite (ok_read s Hok), Hfl by set_solver. exact (watched_iff s p (payload f) _ Hok Hpo Hd).
  - intros fd. simpl. destruct (decide (active _ = true /\ _)) as [[Hd Efd']|]; [|done]. subst fd.
    rewrite (ok_write s Hok), Hfl by set_solver. exact (watched_iff s p (payload f) _ Hok Hpo Hd).
  - intros fd. simpl. destruct (decide (active _ = true /\ _)) as [[Hd Efd']|]; [|done]. subst fd.
    rewrite (ok_error s Hok), Hfl by set_solver. exact (watched_iff s p (payload f) _ Hok Hpo Hd).
Qed.

(** ** The pending list

    The three list operations of the file against the representation of
    [DList]: append, unlink, take the head. *)

Lemma wp_plist_enqueue x xs Q X s :
  dll (fde_heap s) list_pending xs -> x ∉ list_pending :: xs -> is_Some (fde_heap s !! x) ->
  (forall h', dll h' list_pending (xs ++ [x]) -> same_payload (fde_heap s) h' -> Q tt (put h' s)) ->
  wp (fdevent_plist_enqueue x) Q X s.
Proof.
  intros Hl Hx Hsx HQ. apply wp_zoom. simpl. revert Hl Hsx HQ. generalize (fde_heap s) as h. intros h Hl Hsx HQ.
  pose proof (dll_prev _ _ _ Hl) as Hpl. pose proof (last_or_elem_of list_pending xs) as Hlast.
  assert (x <> list_pending) by set_solver.
  pose proof (dll_is_Some _ _ _ _ Hl Hlast) as Hsl.
  pose proof (dll_is_Some _ _ _ list_pending Hl ltac:(set_solver)) as Hsl'.
  wp_step. apply wp_store_next; [done|]. intros h1 N1 P1 F1 S1.
  wp_step. apply wp_load_prev with (q := last_or list_pending xs); [unfold prev_is; by rewrite P1|].
  wp_step. apply wp_store_prev; [by eapply same_payload_is_Some|]. intros h2 P2 N2 F2 S2.
  assert (same_payload h h2) as S02 by (by etrans).
  wp_step. apply wp_load_prev with (q := last_or list_pending xs).
  { unfold prev_is. by rewrite P2, decide_True. }
  wp_step. apply wp_store_next; [by eapply same_payload_is_Some|]. intros h3 N3 P3 F3 S3.
  assert (same_payload h h3) as S03 by (by etrans).
  apply wp_store_prev; [by eapply same_payload_is_Some|]. intros h4 P4 N4 F4 S4.
  apply HQ; [|by etrans]. eapply dll_snoc; [done..| |].
  - intros r. by rewrite N4, N3, N2, N1.
  - intros r. by rewrite P4, P3, P2, P1.
Qed.

Lemma wp_plist_remove x xs ys Q X s :
  dll (fde_heap s) list_pending (xs ++ x :: ys) ->
  (forall h', dll h' list_pending (xs ++ ys) -> same_payload (fde_heap s) h' -> Q tt (put h' s)) ->
  wp (fdevent_plist_remove x) Q X s.
Proof.
  intros Hl HQ. apply wp_zoom. simpl. revert Hl HQ. generalize (fde_heap s) as h. intros h Hl HQ.
  pose proof (last_or_elem_of list_pending xs) as Hlast.
  assert (Hy : List.hd list_pending ys ∈ list_pending :: ys) by (destruct ys; set_solver).
  destruct (dll_links _ _ _ _ _ Hl) as (Hnx & Hpx & Hn1 & Hn2 & Hxl & Hx).
  assert (Hsy : is_Some (h !! List.hd list_pending ys)) by (eapply dll_is_Some; [done|set_solver]).
  assert (Hsl : is_Some (h !! last_or list_pending xs)) by (eapply dll_is_Some; [done|set_solver]).
  assert (Hsx : is_Some (h !! x)) by (eapply dll_is_Some; [done|set_solver]).
  wp_step. apply wp_load_prev with (q := last_or list_pending xs); [done|].
  wp_step. apply wp_load_next with (q := List.hd list_pending ys); [done|].
  wp_step. apply wp_store_next; [done|]. intros h1 N1 P1 F1 S1.
  wp_step. apply wp_load_next with (q := List.hd list_pending ys).
  { unfold next_is. by rewrite N1, decide_False. }
  wp_step. apply wp_load_prev with (q := last_or list_pending xs); [unfold prev_is; by rewrite P1|].
  wp_step. apply wp_store_prev; [by eapply same_payload_is_Some|]. intros h2 P2 N2 F2 S2.
  assert (S02 : same_payload h h2) by (by etrans).
  assert (Hd2 : dll h2 list_pending (xs ++ ys)).
  { eapply dll_unlink; [done| |]; intros r; [by rewrite N2, N1|by rewrite P2, P1]. }
  wp_step. apply wp_store_next; [by eapply same_payload_is_Some|]. intros h3 N3 P3 F3 S3.
  assert (S03 : same_payload h h3) by (by etrans).
  apply wp_store_prev; [by eapply same_payload_is_Some|]. intros h4 P4 N4 F4 S4.
  apply HQ; [|by etrans]. eapply dll_frame; [done|]. intros r Hr.
  rewrite F4, F3; [done|set_solver|set_solver].
Qed.

Lemma wp_plist_dequeue xs Q X s :
  dll (fde_heap s) list_pending xs ->
  match xs with
  | [] => Q NULL s
  | x :: ys => forall h', dll h' list_pending ys -> same_payload (fde_heap s) h' -> Q x (put h' s)
  end ->
  wp fdevent_plist_dequeue Q X s.
Proof.
  intros Hl HQ. unfold fdevent_plist_dequeue. apply wp_zoom. simpl.
  pose proof (dll_next _ _ _ Hl) as Hn. pose proof (dll_empty _ _ _ Hl) as He.
  wp_step. apply wp_load_next with (q := List.hd list_pending xs); [done|].
  destruct xs as [|x ys].
  { rewrite bool_decide_true by done. wp_step. by destruct s. }
  rewrite bool_decide_false by (simpl in *; naive_solver). simpl in Hn, HQ.
  revert Hl HQ Hn. generalize (fde_heap s) as h. intros h Hl HQ Hn.
  destruct (dll_links h list_pending [] x ys Hl) as (Hnx & Hpx & Hn1 & Hn2 & Hxl & Hx).
  assert (Hy : List.hd list_pending ys ∈ list_pending :: ys) by (destruct ys; set_solver).
  assert (Hsy : is_Some (h !! List.hd list_pending ys)) by (eapply dll_is_Some; [done|set_solver]).
  assert (Hsl : is_Some (h !! list_pending)) by (eapply dll_is_Some; [done|set_solver]).
  assert (Hsx : is_Some (h !! x)) by (eapply dll_is_Some; [done|set_solver]).
  wp_step. apply wp_load_next with (q := List.hd list_pending ys); [done|].
  wp_step. apply wp_store_next; [done|]. intros h1 N1 P1 F1 S1.
  wp_step. apply wp_load_next with (q := List.hd list_pending ys).
  { unfold next_is. by rewrite N1, decide_True. }
  wp_step. apply wp_store_prev; [by eapply same_payload_is_Some|]. intros h2 P2 N2 F2 S2.
  assert (S02 : same_payload h h2) by (by etrans).
  assert (Hd2 : dll h2 list_pending ys).
  { apply (dll_unlink h h2 list_pending [] x ys); [done| |]; intros r; [by rewrite N2, N1|by rewrite P2, P1]. }
  wp_step. apply wp_store_next; [by eapply same_payload_is_Some|]. intros h3 N3 P3 F3 S3.
  assert (S03 : same_payload h h3) by (by etrans).
  wp_step. apply wp_store_prev; [by eapply same_payload_is_Some|]. intros h4 P4 N4 F4 S4.
  wp_step. apply HQ; [|by etrans]. eapply dll_frame; [done|]. intros r Hr.
  rewrite F4, F3; [done|set_solver|set_solver].
Qed.

(** ** Changes of one object's flags *)

(** What an operation on one object leaves alone. *)
Record fd_frame (s s' : fdstate) : Prop := {
  frame_table : fd_table s' = fd_table s;
  frame_max : fd_table_max s' = fd_table_max s;
  frame_n : select_n s' = select_n s;
  frame_notify : SHELL_EXIT_NOTIFY_FD s' = SHELL_EXIT_NOTIFY_FD s;
  frame_world : fd_world s' = fd_world s;
}.

#[global] Instance fd_frame_refl : Reflexive fd_frame.
Proof. by split. Qed.

#[global] Instance fd_frame_trans : Transitive fd_frame.
Proof. intros s1 s2 s3 [] []. split; congruence. Qed.

Lemma fd_frame_put h s : fd_frame s (put h s).
Proof. by split. Qed.

#[export] Hint Resolve fd_frame_put : adb.

(** The state word after a change of the events of interest. *)
Definition new_state (st ev : Z) : Z := Z.lor (Z.land st FDE_STATEMASK) ev.

Lemma new_state_range st ev : 0 <= st < 2 ^ 16 -> 0 <= ev <= 0xff -> 0 <= new_state st ev < 2 ^ 16.
Proof. intros. apply lor_u16_range; [by apply land_u16_range|lia]. Qed.

Lemma new_state_idem st ev : 0 <= ev <= 0xff -> new_state (new_state st ev) ev = new_state st ev.
Proof.
  intros Hev. unfold new_state. rewrite Z.land_lor_distr_l, <- Z.land_assoc, Z.land_diag, <- Z.lor_assoc.
  f_equal. apply testbit_ext. intros n Hn. bits_norm. by destruct (Z.testbit ev n), (Z.testbit _ n).
Qed.

Lemma active_new_state f ev : 0 <= ev <= 0xff -> 0 <= fde_state f < 2 ^ 16 ->
  active (set_state (new_state (fde_state f) ev) f) = active f.
Proof.
  intros. unfold active. simpl. rewrite u16_small by (by apply new_state_range).
  exact (has_new_state (fde_state f) ev 8 ltac:(done) ltac:(lia)).
Qed.

Lemma pending_new_state f ev : 0 <= ev <= 0xff -> 0 <= fde_state f < 2 ^ 16 ->
  pending (set_state (new_state (fde_state f) ev) f) = pending f.
Proof.
  intros. unfold pending. simpl. rewrite u16_small by (by apply new_state_range).
  exact (has_new_state (fde_state f) ev 9 ltac:(done) ltac:(lia)).
Qed.

(** [fdevent_update] and [fdevent_set] both store the new word. *)
Lemma set_mask_twice f ev : 0 <= ev <= 0xff -> 0 <= fde_state f < 2 ^ 16 ->
  let g := set_state (new_state (fde_state f) ev) f in set_state (new_state (fde_state g) ev) g = g.
Proof.
  intros Hev Hst. unfold set_state. cbn [fde_next fde_prev fde_fd fde_force_eof fde_state fde_events fde_func fde_arg].
  pose proof (new_state_range _ _ Hst Hev).
  rewrite (u16_small (new_state (fde_state f) ev)), new_state_idem, u16_small by done. done.
Qed.

Lemma flag_new_state st ev flag : 0 <= ev <= 0xff -> 0 <= st < 2 ^ 16 ->
  flag ∈ [FDE_READ; FDE_WRITE; FDE_ERROR] -> has (u16 (new_state st ev)) flag = has ev flag.
Proof.
  intros. rewrite u16_small by (by apply new_state_range).
  assert (flag = 2 ^ 0 \/ flag = 2 ^ 1 \/ flag = 2 ^ 2) as [->|[->| ->]]
    by (rewrite !elem_of_cons, elem_of_nil in *; naive_solver); by apply has_new_event.
Qed.

(** One of the three sets after [fdevent_update]. *)
Definition set_bit (b : bool) (fd : Z) (fds : gset Z) : gset Z :=
  if b then {[fd]} ∪ fds else fds ∖ {[fd]}.

Lemma wp_fd_bit (b : bool) fd fds Q X s :
  0 <= fd < FD_SETSIZE -> Q (set_bit b fd fds) s ->
  wp (if b then FD_SET fd fds else FD_CLR fd fds) Q X s.
Proof.
  intros H HQ. unfold FD_SET, FD_CLR.
  rewrite (proj2 (Z.leb_le 0 fd)), (proj2 (Z.ltb_lt fd FD_SETSIZE)) by lia.
  by destruct b.
Qed.

Lemma elem_of_set_bit b fd fds x : x ∈ set_bit b fd fds <-> if decide (x = fd) then b = true else x ∈ fds.
Proof. unfold set_bit. destruct b; case_decide; set_solver. Qed.

Lemma ok_state s p f : fd_ok s -> fde_heap s !! p = Some f -> 0 <= fde_state f < 2 ^ 16.
Proof. intros Hok Hp. by destruct (ok_range s Hok p (payload f) (obj_payload _ _ _ Hp)). Qed.

Lemma ok_events s p f : fd_ok s -> fde_heap s !! p = Some f -> 0 <= fde_events f < 2 ^ 16.
Proof. intros Hok Hp. by destruct (ok_range s Hok p (payload f) (obj_payload _ _ _ Hp)). Qed.

Lemma set_bit_ok (f : fdevent) b b' (fds : gset Z) :
  active f = true -> b' = b ->
  forall fd, fd ∈ set_bit b (fde_fd f) fds <->
    if decide (active f = true /\ fd = fde_fd f) then b' = true else fd ∈ fds.
Proof.
  intros Ha -> fd. rewrite elem_of_set_bit.
  destruct (decide (fd = fde_fd f)); [by rewrite decide_True|rewrite decide_False; [done|tauto]].
Qed.

Lemma inactive_ok (f : fdevent) (P R : Z -> Prop) :
  active f = false -> forall fd, R fd <-> if decide (active f = true /\ fd = fde_fd f) then P fd else R fd.
Proof. intros Ha fd. rewrite decide_False; [done|]. rewrite Ha. naive_solver. Qed.

(** Setting the events of interest: the sets handed to [select] follow. *)
Lemma wp_set_mask p f ev Q X s :
  fd_ok s -> fde_heap s !! p = Some f -> 0 <= ev <= 0xff ->
  (forall s', fd_ok s' -> fd_frame s s' ->
     fde_heap s' = <[p := set_state (new_state (fde_state f) ev) f]> (fde_heap s) -> Q tt s') ->
  wp (when (active f) (fdevent_update p ev);;
      assign p (fun f => set_state (new_state (fde_state f) ev) f)) Q X s.
Proof.
  intros Hok Hp Hev HQ. pose proof (ok_state s p f Hok Hp) as Hst.
  pose proof (obj_payload _ _ _ Hp) as Hpo. pose proof (new_state_range _ _ Hst Hev) as Hns.
  wp_step. wp_step.
  - destruct (ok_active s Hok p (payload f) Hpo) as (_ & _ & Hfd & _); [done|].
    unfold fdevent_update. wp_step. eapply wp_deref; [exact Hp|]. wp_step. wp_step.
    wp_step. apply wp_fd_bit; [done|]. wp_step. apply wp_fd_bit; [done|].
    wp_step. apply wp_fd_bit; [done|]. wp_step. wp_step.
    eapply wp_assign; [exact Hp|]. eapply wp_assign; [by apply lookup_insert_eq|].
    fold (new_state (fde_state f) ev). apply HQ.
    + eapply (fd_ok_update s _ p (payload f) (payload (set_state (new_state (fde_state f) ev) f)));
        try done.
      * intros q. unfold obj. cbn [fde_heap put Lens_fde_heap]. rewrite insert_insert_eq.
        rewrite (set_mask_twice f ev Hev Hst).
        case_decide as E; [subst; by rewrite lookup_insert_eq|by rewrite lookup_insert_ne].
      * exact (active_new_state f ev Hev Hst).
      * intros _. transitivity (active f); [exact (active_new_state f ev Hev Hst)|done].
      * apply u16_range.
      * by apply (ok_events s p f).
      * exact (set_bit_ok (payload f) (has ev FDE_READ) (has (u16 (new_state (fde_state f) ev)) FDE_READ) (read_fds s) H
                 (flag_new_state _ _ FDE_READ Hev Hst ltac:(set_solver))).
      * exact (set_bit_ok (payload f) (has ev FDE_WRITE) (has (u16 (new_state (fde_state f) ev)) FDE_WRITE) (write_fds s) H
                 (flag_new_state _ _ FDE_WRITE Hev Hst ltac:(set_solver))).
      * exact (set_bit_ok (payload f) (has ev FDE_ERROR) (has (u16 (new_state (fde_state f) ev)) FDE_ERROR) (error_fds s) H
                 (flag_new_state _ _ FDE_ERROR Hev Hst ltac:(set_solver))).
    + by split.
    + cbn [fde_heap put Lens_fde_heap]. rewrite insert_insert_eq.
      by rewrite (set_mask_twice f ev Hev Hst).
  - eapply wp_assign; [exact Hp|]. apply HQ; [|by split|done].
    eapply (fd_ok_update s _ p (payload f) (payload (set_state (new_state (fde_state f) ev) f)));
      try done.
    + intros q. apply obj_put_insert.
    + exact (active_new_state f ev Hev Hst).
    + intros Hpe. transitivity (active f); [exact (active_new_state f ev Hev Hst)|].
      apply (ok_pending s Hok p (payload f) Hpo). exact (eq_trans (eq_sym (pending_new_state f ev Hev Hst)) Hpe).
    + apply u16_range.
    + by apply (ok_events s p f).
    + by apply (inactive_ok (payload f) (fun _ => _) (fun fd => fd ∈ read_fds s)).
    + by apply (inactive_ok (payload f) (fun _ => _) (fun fd => fd ∈ write_fds s)).
    + by apply (inactive_ok (payload f) (fun _ => _) (fun fd => fd ∈ error_fds s)).
Qed.

(** ** The invariant with the pending list *)

(** A change of one object that keeps its links and whether it is pending. *)
Lemma fd_inv_assign s s' pend p f f' :
  fd_inv s pend -> fd_ok s' -> fde_heap s !! p = Some f -> fde_heap s' = <[p := f']> (fde_heap s) ->
  fde_next f' = fde_next f -> fde_prev f' = fde_prev f -> pending f' = pending f ->
  fd_inv s' pend.
Proof.
  intros [Hok Hl Hp] Hok' Ef Eh En Ep Epend. split; [done| |].
  - eapply dll_ext; [exact Hl| |]; intros q; rewrite Eh; destruct (decide (p = q)) as [<-|];
      rewrite ?lookup_insert_eq, ?lookup_insert_ne, ?Ef by done; simpl; congruence.
  - intros q. rewrite Hp. unfold obj. rewrite Eh. destruct (decide (p = q)) as [<-|].
    + rewrite lookup_insert_eq, Ef. simpl. split; intros (g & [= <-] & Hg); eexists; (split; [done|]).
      * exact (eq_trans Epend Hg).
      * exact (eq_trans (eq_sym Epend) Hg).
    + by rewrite lookup_insert_ne.
Qed.

(** An object leaves the list when it stops being pending. *)
Lemma fd_inv_unlink s s' xs ys p f' :
  fd_inv s (xs ++ p :: ys) -> fd_ok s' -> dll (fde_heap s') list_pending (xs ++ ys) ->
  (forall q, obj s' q = if decide (q = p) then Some f' else obj s q) -> pending f' = false ->
  fd_inv s' (xs ++ ys).
Proof.
  intros [Hok Hl Hp] Hok' Hl' Ho Hf. split; [done|done|]. intros q. rewrite Ho.
  destruct (dll_links _ _ _ _ _ Hl) as (_ & _ & _ & _ & _ & Hn). case_decide as E.
  - subst q. split; [done|]. intros (g & [= <-] & Hg). congruence.
  - rewrite <- Hp. set_solver.
Qed.

Lemma filter_unlink xs ys (p : ptr) :
  p ∉ xs ++ ys -> filter (.≠ p) (xs ++ p :: ys) = xs ++ ys.
Proof.
  intros Hn. rewrite filter_app, filter_cons_False by naive_solver.
  rewrite <- filter_app. clear - Hn. induction (xs ++ ys) as [|x l IH]; [done|].
  rewrite filter_cons_True by set_solver. f_equal. apply IH. set_solver.
Qed.

(** The pending objects are in the list, and split it. *)
Lemma inv_split s pend p f :
  fd_inv s pend -> fde_heap s !! p = Some f -> pending f = true ->
  exists xs ys, pend = xs ++ p :: ys /\ filter (.≠ p) pend = xs ++ ys.
Proof.
  intros [Hok Hl Hp] Ef Hf. assert (Hin : p ∈ pend).
  { apply Hp. exists (payload f). split; [by apply obj_payload|done]. }
  apply list_elem_of_split in Hin as (xs & ys & ->). exists xs, ys. split; [done|].
  apply filter_unlink. by destruct (dll_links _ _ _ _ _ Hl) as (_ & _ & _ & _ & _ & Hn).
Qed.

Lemma pending_clear f : 0 <= fde_state f < 2 ^ 16 ->
  pending (set_state (clear (fde_state f) FDE_PENDING) f) = false /\
  active (set_state (clear (fde_state f) FDE_PENDING) f) = active f.
Proof.
  intros H. unfold pending, active. simpl. rewrite u16_small by (by apply land_u16_range).
  split; [apply has_clear_same|by apply has_clear_disjoint].
Qed.

Lemma pending_mark f : 0 <= fde_state f < 2 ^ 16 ->
  pending (set_state (Z.lor (fde_state f) FDE_PENDING) f) = true /\
  active (set_state (Z.lor (fde_state f) FDE_PENDING) f) = active f.
Proof.
  intros H. unfold pending, active. simpl. rewrite u16_small by (by apply lor_u16_range).
  rewrite !has_lor. split; [apply orb_true_r|apply orb_false_r].
Qed.

(** Clearing or setting the pending bit leaves the watched events alone. *)
Lemma fd_ok_clear_pending s p f :
  fd_ok s -> fde_heap s !! p = Some f ->
  fd_ok (put (<[p := set_state (clear (fde_state f) FDE_PENDING) f]> (fde_heap s)) s).
Proof.
  intros Hok Hp. pose proof (ok_state s p f Hok Hp) as Hst. destruct (pending_clear f Hst) as [E1 E2].
  apply (fd_ok_restate s p f); [done|done|done|done|by rewrite E1|apply u16_range|exact (ok_events s p f Hok Hp)|].
  intros flag Hfl. simpl. rewrite u16_small by (by apply land_u16_range). apply has_clear_disjoint.
  rewrite !elem_of_cons, elem_of_nil in Hfl. by destruct Hfl as [->|[->|[->|[]]]].
Qed.

Lemma fd_ok_mark_pending s p f :
  fd_ok s -> fde_heap s !! p = Some f -> active f = true ->
  fd_ok (put (<[p := set_state (Z.lor (fde_state f) FDE_PENDING) f]> (fde_heap s)) s).
Proof.
  intros Hok Hp Ha. pose proof (ok_state s p f Hok Hp) as Hst. destruct (pending_mark f Hst) as [E1 E2].
  apply (fd_ok_restate s p f); [done|done|done|done|by rewrite E2|apply u16_range|exact (ok_events s p f Hok Hp)|].
  intros flag Hfl. simpl. rewrite u16_small by (by apply lor_u16_range). rewrite has_lor.
  rewrite !elem_of_cons, elem_of_nil in Hfl. destruct Hfl as [->|[->|[->|[]]]]; apply orb_false_r.
Qed.

Lemma fd_ok_set_events s p f e :
  fd_ok s -> fde_heap s !! p = Some f -> fd_ok (put (<[p := set_events e f]> (fde_heap s)) s).
Proof.
  intros Hok Hp. apply (fd_ok_restate s p f); try done.
  - exact (ok_pending s Hok p (payload f) (obj_payload _ _ _ Hp)).
  - exact (ok_state s p f Hok Hp).
  - apply u16_range.
Qed.

Lemma payload_clear_pending f g : payload f = payload g ->
  payload (set_state (clear (fde_state f) FDE_PENDING) f) =
  payload (set_state (clear (fde_state g) FDE_PENDING) g).
Proof. destruct f, g. unfold payload. simpl. by intros [= -> -> -> -> -> ->]. Qed.

(** ** fdevent_set *)

(** What [fdevent_set] makes of the object, and whether it leaves the list. *)
Definition set_outcome (f : fdevent) (events : Z) : fdevent * bool :=
  let ev := Z.land events FDE_EVENTMASK in
  if Z.land (fde_state f) FDE_EVENTMASK =? ev then (f, false) else
  let f1 := set_state (new_state (fde_state f) ev) f in
  if negb (pending f) then (f1, false) else
  let f2 := set_events (clear (fde_events f) ev) f1 in
  if fde_events f2 =? 0 then (set_state (clear (fde_state f2) FDE_PENDING) f2, true) else (f2, false).

Lemma wp_fdevent_set p f events pend Q X s :
  fd_inv s pend -> fde_heap s !! p = Some f ->
  (forall s', fd_inv s' (if (set_outcome f events).2 then filter (.≠ p) pend else pend) ->
     fd_frame s s' ->
     (forall q, obj s' q = if decide (q = p) then Some (payload (set_outcome f events).1) else obj s q) ->
     Q tt s') ->
  wp (fdevent_set p events) Q X s.
Proof.
  intros Hi Hp HQ. unfold fdevent_set. pose proof (inv_ok _ _ Hi) as Hok.
  pose proof (ok_state s p f Hok Hp) as Hst. pose proof (land_eventmask_range events) as Hev.
  wp_step. eapply wp_deref; [exact Hp|]. unfold set_outcome in HQ.
  revert Hev HQ. generalize (Z.land events FDE_EVENTMASK) as ev. intros ev Hev HQ.
  destruct (Z.eqb_spec (Z.land (fde_state f) FDE_EVENTMASK) ev).
  { wp_step. apply HQ; [done|done|]. intros q. case_decide; [subst; by apply obj_payload|done]. }
  apply (wp_assoc (when _ _) (fun _ => assign _ _)).
  wp_step. apply (wp_set_mask p f ev); [done..|]. intros s1 Hok1 Hfr1 Eh1.
  set (f1 := set_state (new_state (fde_state f) ev) f) in *.
  assert (Hp1 : fde_heap s1 !! p = Some f1) by (by rewrite Eh1, lookup_insert_eq).
  assert (Epf : pending f1 = pending f) by (by apply pending_new_state).
  assert (Ho1 : forall q, obj s1 q = if decide (q = p) then Some (payload f1) else obj s q).
  { intros q. unfold obj. rewrite Eh1. case_decide; [subst; by rewrite lookup_insert_eq|by rewrite lookup_insert_ne]. }
  assert (Hi1 : fd_inv s1 pend) by (by eapply fd_inv_assign).
  wp_step. eapply wp_deref; [exact Hp1|]. fold (pending f1). rewrite Epf.
  destruct (pending f) eqn:Hpend; cbn [negb] in HQ; [|wp_step; by apply HQ].
  wp_step. eapply wp_assign; [exact Hp1|].
  set (f2 := set_events (clear (fde_events f) ev) f1) in *.
  change (set_events (clear (fde_events f1) ev) f1) with f2.
  set (s2 := put (<[p := f2]> (fde_heap s1)) s1) in *.
  assert (Hp2 : fde_heap s2 !! p = Some f2) by apply lookup_insert_eq.
  assert (Hok2 : fd_ok s2) by (by apply fd_ok_set_events).
  assert (Hi2 : fd_inv s2 pend) by (by eapply (fd_inv_assign s1 s2 pend p f1 f2)).
  assert (Ho2 : forall q, obj s2 q = if decide (q = p) then Some (payload f2) else obj s q).
  { intros q. unfold s2. rewrite obj_put_insert, Ho1. by case_decide. }
  assert (Hfr2 : fd_frame s s2) by (etrans; [done|apply fd_frame_put]).
  wp_step. eapply wp_deref; [exact Hp2|].
  destruct (fde_events f2 =? 0); [|wp_step; by apply HQ].
  destruct (inv_split s2 pend p f2 Hi2 Hp2 Epf) as (xs & ys & -> & Efl).
  wp_step. eapply wp_plist_remove; [apply Hi2|]. intros h3 Hl3 Hsp.
  assert (Ho3 : forall q, obj (put h3 s2) q = obj s2 q) by (intros; by apply obj_same_payload).
  destruct (same_payload_lookup _ _ _ _ Hsp Hp2) as (f3 & Hp3 & Ef3).
  assert (Hok3 : fd_ok (put h3 s2)) by (by eapply (fd_ok_ext s2)).
  eapply wp_assign; [exact Hp3|].
  assert (Ho4 : forall q, obj (put (<[p := set_state (clear (fde_state f3) FDE_PENDING) f3]> h3) (put h3 s2)) q =
    if decide (q = p) then Some (payload (set_state (clear (fde_state f2) FDE_PENDING) f2)) else obj s q).
  { intros q. etrans; [exact (obj_put_insert (put h3 s2) p _ q)|]. rewrite Ho3, Ho2.
    case_decide; [|done]. f_equal. by apply payload_clear_pending. }
  apply HQ; [|etrans; [done|by split]|exact Ho4].
  cbn [snd]. rewrite Efl. eapply (fd_inv_unlink s2).
  - exact Hi2.
  - exact (fd_ok_clear_pending (put h3 s2) p f3 Hok3 Hp3).
  - eapply dll_ext; [exact Hl3| |]; intros q; cbn [fde_heap put Lens_fde_heap];
      destruct (decide (p = q)) as [<-|]; rewrite ?lookup_insert_eq, ?lookup_insert_ne, ?Hp3 by done; done.
  - intros q. rewrite Ho2, Ho4. by case_decide.
  - exact (proj1 (pending_clear f2 (ok_state s2 p f2 Hok2 Hp2))).
Qed.

(** ** fdevent_process *)

(** What a reported event does to its object. *)
Definition marked (e : Z) (f : fdevent) : fdevent :=
  set_state (Z.lor (fde_state f) FDE_PENDING) (set_events (Z.lor (fde_events f) e) f).

Lemma lor_has st k : 0 <= k -> has st (2 ^ k) = true -> Z.lor st (2 ^ k) = st.
Proof.
  intros Hk H. rewrite has_pow2 in H by done. apply testbit_ext. intros n Hn. bits_norm.
  destruct (decide (n = k)) as [->|]; [by rewrite H|]. by rewrite Z.pow2_bits_false, orb_false_r by lia.
Qed.

Lemma set_state_same f : 0 <= fde_state f < 2 ^ 16 -> set_state (fde_state f) f = f.
Proof. intros H. unfold set_state. rewrite u16_small by done. by destruct f. Qed.

Lemma wp_table_get i p Q X s :
  0 <= i -> fd_table s !! Z.to_nat i = Some (Some p) -> Q p s -> wp (table_get i) Q X s.
Proof.
  intros Hi E HQ. unfold table_get. destruct (Z.ltb_spec i 0); [lia|].
  wp_step. wp_step; [exact E|]. done.
Qed.

(** An object in the table, with its descriptor. *)
Lemma active_lookup s p f :
  fd_ok s -> obj s p = Some f -> active f = true ->
  0 <= fde_fd f /\ p <> NULL /\ p <> list_pending /\ fd_table s !! Z.to_nat (fde_fd f) = Some (Some p).
Proof. intros Hok Hp Ha. destruct (ok_active s Hok p f Hp Ha) as (? & ? & ? & ? & ?). split_and!; [lia|done..]. Qed.

Lemma fd_inv_enqueue s s' pend p f' :
  fd_inv s pend -> fd_ok s' -> dll (fde_heap s') list_pending (pend ++ [p]) ->
  (forall q, obj s' q = if decide (q = p) then Some f' else obj s q) -> pending f' = true ->
  fd_inv s' (pend ++ [p]).
Proof.
  intros [Hok Hl Hp] Hok' Hl' Ho Hf. split; [done|done|]. intros q.
  rewrite Ho, elem_of_app, list_elem_of_singleton. case_decide as E.
  - split; [|by right]. intros _. eauto.
  - rewrite <- Hp. naive_solver.
Qed.

Lemma payload_marked e f f0 : payload f = payload f0 -> payload (marked e f) = payload (marked e f0).
Proof. destruct f, f0. unfold payload. simpl. by intros [= -> -> -> -> -> ->]. Qed.

Lemma wp_process_fd i e p f pend Q X s :
  fd_inv s pend -> e <> 0 -> 0 <= e < 2 ^ 16 -> fde_heap s !! p = Some f -> active f = true -> fde_fd f = i ->
  (forall s', fd_inv s' (pend ++ if pending f then [] else [p]) -> fd_frame s s' ->
     (forall q, obj s' q = if decide (q = p) then Some (payload (marked e f)) else obj s q) -> Q tt s') ->
  wp (process_fd i e) Q X s.
Proof.
  intros Hi He Her Hp Ha <- HQ. pose proof (inv_ok _ _ Hi) as Hok.
  destruct (active_lookup s p (payload f) Hok (obj_payload _ _ _ Hp) Ha) as (H0 & Hnn & Hnl & Ht).
  pose proof (ok_state s p f Hok Hp) as Hst.
  unfold process_fd. rewrite (proj2 (Z.eqb_neq e 0)) by done.
  wp_step. eapply wp_table_get; [done|exact Ht|]. rewrite bool_decide_false by done.
  wp_step. eapply wp_deref; [exact Hp|]. wp_step. eapply wp_assign; [exact Hp|].
  set (f1 := set_events (Z.lor (fde_events f) e) f).
  set (s1 := put (<[p := f1]> (fde_heap s)) s).
  assert (Hp1 : fde_heap s1 !! p = Some f1) by apply lookup_insert_eq.
  assert (Hok1 : fd_ok s1) by (by apply fd_ok_set_events).
  assert (Hi1 : fd_inv s1 pend) by (by eapply (fd_inv_assign s s1 pend p f f1)).
  fold (pending f). destruct (pending f) eqn:Hpend.
  - wp_step. apply HQ; [by rewrite app_nil_r|by split|].
    intros q. unfold s1. rewrite obj_put_insert. case_decide; [|done]. unfold marked.
    change FDE_PENDING with (2 ^ 9). rewrite (lor_has (fde_state f) 9) by done.
    do 2 f_equal. symmetry. exact (set_state_same f1 Hst).
  - wp_step. eapply wp_assign; [exact Hp1|].
    change (set_state (Z.lor (fde_state f) FDE_PENDING) f1) with (marked e f).
    set (s2 := put (<[p := marked e f]> (fde_heap s1)) s1).
    assert (Hp2 : fde_heap s2 !! p = Some (marked e f)) by apply lookup_insert_eq.
    assert (Hok2 : fd_ok s2) by (by apply (fd_ok_mark_pending s1 p f1)).
    assert (Ho2 : forall q, obj s2 q = if decide (q = p) then Some (payload (marked e f)) else obj s q).
    { intros q. unfold s2, s1. rewrite !obj_put_insert. by case_decide. }
    assert (Hnp : p ∉ pend).
    { intros Hin%(inv_pend _ _ Hi). rewrite (obj_payload _ _ _ Hp) in Hin.
      destruct Hin as (g & [= <-] & Hg). change (pending f = true) in Hg. congruence. }
    assert (Hl2 : dll (fde_heap s2) list_pending pend).
    { eapply dll_ext; [apply Hi1| |]; intros q; cbn [fde_heap s2 put Lens_fde_heap];
        destruct (decide (p = q)) as [<-|]; rewrite ?lookup_insert_eq, ?lookup_insert_ne, ?Hp1 by done; done. }
    eapply wp_plist_enqueue; [exact Hl2|set_solver|by eexists|]. intros h3 Hl3 Hsp.
    assert (Ho3 : forall q, obj (put h3 s2) q = obj s2 q) by (intros; by apply obj_same_payload).
    assert (Ho : forall q, obj (put h3 s2) q = if decide (q = p) then Some (payload (marked e f)) else obj s q)
      by (intros q; by rewrite Ho3, Ho2).
    apply HQ; [|by split|done].
    eapply fd_inv_enqueue; [exact Hi| |done|done|]; [by eapply (fd_ok_ext s2)|].
    exact (proj1 (pending_mark f Hst)).
Qed.

(** The effect of a whole report [e] (the events of each descriptor) on the
    descriptors [idx]: which objects change, and which join the list. *)
Definition mark (e : Z -> Z) (idx : list Z) (f : fdevent) : fdevent :=
  if active f && bool_decide (fde_fd f ∈ idx) && negb (e (fde_fd f) =? 0)
  then marked (e (fde_fd f)) f else f.

Definition ready1 (e : Z -> Z) (s : fdstate) (i : Z) : option ptr :=
  if e i =? 0 then None else
  p ← mjoin (fd_table s !! Z.to_nat i);
  f ← obj s p;
  if pending f then None else Some p.

Fixpoint ready (e : Z -> Z) (s : fdstate) (idx : list Z) : list ptr :=
  match idx with
  | [] => []
  | i :: idx' => option_list (ready1 e s i) ++ ready e s idx'
  end.

(** Every reported descriptor belongs to an active object. *)
Definition report_ok (e : Z -> Z) (s : fdstate) (idx : list Z) : Prop :=
  forall i, i ∈ idx -> 0 <= e i < 2 ^ 16 /\
    (e i <> 0 -> exists p f, obj s p = Some f /\ active f = true /\ fde_fd f = i).

Lemma active_marked e f : 0 <= fde_state f < 2 ^ 16 -> active (marked e f) = active f.
Proof. intros H. exact (proj2 (pending_mark f H)). Qed.

Lemma mark_nil e f : mark e [] f = f.
Proof. unfold mark. rewrite bool_decide_false by set_solver. by rewrite andb_false_r. Qed.

Lemma mark_cons_other e i idx f : fde_fd f <> i -> mark e (i :: idx) f = mark e idx f.
Proof.
  intros Hne. unfold mark. rewrite (bool_decide_ext (fde_fd f ∈ i :: idx) (fde_fd f ∈ idx)); [done|].
  set_solver.
Qed.

Lemma mark_inactive e idx f : active f = false -> mark e idx f = f.
Proof. intros H. unfold mark. by rewrite H. Qed.

Lemma mark_absent e idx f : fde_fd f ∉ idx -> mark e idx f = f.
Proof. intros H. unfold mark. rewrite bool_decide_false by done. by rewrite andb_false_r. Qed.

Lemma mark_quiet e i idx f : e i = 0 -> mark e (i :: idx) f = mark e idx f.
Proof.
  intros He. destruct (decide (fde_fd f = i)) as [E|]; [|by apply mark_cons_other].
  unfold mark. by rewrite E, He, !andb_false_r.
Qed.

Lemma mark_hit e i idx f :
  e i <> 0 -> i ∉ idx -> 0 <= fde_state f < 2 ^ 16 -> active f = true -> fde_fd f = i ->
  mark e (i :: idx) f = marked (e i) f /\ mark e idx (marked (e i) f) = marked (e i) f.
Proof.
  intros He Hn Hst Ha <-. split.
  - unfold mark. rewrite Ha, bool_decide_true by set_solver. by rewrite (proj2 (Z.eqb_neq _ 0)).
  - by apply mark_absent.
Qed.

(** The [ready] list of the later descriptors does not depend on an object of
    an earlier one. *)
Lemma ready_other e s s' i p g g' idx :
  fd_ok s -> fd_table s' = fd_table s -> obj s p = Some g -> active g = true -> fde_fd g = i -> i ∉ idx ->
  Forall (fun j => 0 <= j) idx ->
  (forall q, obj s' q = if decide (q = p) then Some g' else obj s q) ->
  ready e s' idx = ready e s idx.
Proof.
  intros Hok Et Hp Ha Hfd Hn Hpos Ho. induction Hpos as [|j idx Hj _ IH]; [done|].
  assert (E : ready1 e s' j = ready1 e s j); [|simpl; rewrite E, IH by set_solver; done].
  unfold ready1. destruct (e j =? 0); [done|]. rewrite Et.
  destruct (fd_table s !! Z.to_nat j) as [[q|]|] eqn:Eq; simpl; [|done|done].
  rewrite Ho. case_decide as E; [subst q|done].
  destruct (active_lookup s p g Hok Hp Ha) as (H0 & Hnn & _).
  destruct (ok_table s Hok _ p Eq Hnn) as (g2 & Hg2 & Hfd2 & _).
  assert (g2 = g) by congruence. subst g2. exfalso. apply Hn. rewrite <- Hfd, Hfd2, Z2Nat.id by done. set_solver.
Qed.

Lemma ready_ext e e' s idx : (forall i, e i = e' i) -> ready e s idx = ready e' s idx.
Proof.
  intros E. induction idx as [|i idx IH]; [done|]. cbn [ready]. rewrite IH. unfold ready1. by rewrite E.
Qed.

Lemma wp_process_each e idx pend Q X s :
  fd_inv s pend -> NoDup idx -> Forall (fun i => 0 <= i) idx -> report_ok e s idx ->
  (forall s', fd_inv s' (pend ++ ready e s idx) -> fd_frame s s' ->
     (forall q, obj s' q = mark e idx <$> obj s q) -> Q tt s') ->
  wp (for_each idx (fun i => process_fd i (e i))) Q X s.
Proof.
  intros Hi Hnd Hpos Hrep HQ. revert s pend Hi Hrep HQ.
  induction idx as [|i idx IH]; intros s pend Hi Hrep HQ; simpl.
  { wp_step. apply HQ; [by rewrite app_nil_r|done|]. intros q.
    destruct (obj s q) eqn:E; [simpl; by rewrite mark_nil|done]. }
  apply NoDup_cons in Hnd as [Hn Hnd]. apply Forall_cons in Hpos as [Hi0 Hpos]. wp_step.
  destruct (Hrep i ltac:(set_solver)) as [Her Hown]. destruct (decide (e i = 0)) as [E0|Hne].
  - unfold process_fd. rewrite E0. simpl. wp_step. apply (IH Hnd Hpos s pend Hi).
    + intros j Hj. apply Hrep. set_solver.
    + intros s' Hi' Hf Ho. apply HQ; [|done|].
      * simpl. unfold ready1. by rewrite E0.
      * intros q. rewrite Ho. destruct (obj s q); [|done]. simpl. by rewrite mark_quiet.
  - destruct (Hown Hne) as (p & g & Hp & Ha & Hfd).
    destruct (obj_inv _ _ _ Hp) as (f & Hpf & Epf). pose proof (inv_ok _ _ Hi) as Hok.
    pose proof (ok_state s p f Hok Hpf) as Hst.
    assert (Haf : active f = true) by (by rewrite <- Epf in Ha).
    assert (Hff : fde_fd f = i) by (by rewrite <- Epf in Hfd).
    eapply wp_process_fd; [exact Hi|done|done|exact Hpf|done|done|].
    intros s1 Hi1 Hf1 Ho1.
    assert (Hmark : active (payload (marked (e i) f)) = true) by exact (eq_trans (active_marked (e i) f Hst) Haf).
    assert (Hfdm : fde_fd (payload (marked (e i) f)) = i) by done.
    assert (Hrd : ready e s1 idx = ready e s idx).
    { by eapply (ready_other e s s1 i p g); [|apply Hf1|..]. }
    assert (Hr1 : ready1 e s i = if pending f then None else Some p).
    { unfold ready1. rewrite (proj2 (Z.eqb_neq _ 0)) by done.
      destruct (active_lookup s p g Hok Hp Ha) as (_ & _ & _ & Ht). rewrite Hfd in Ht. rewrite Ht. simpl.
      rewrite Hp. simpl. by rewrite <- Epf. }
    eapply (IH Hnd Hpos s1); [exact Hi1| |].
    + intros j Hj. destruct (Hrep j ltac:(set_solver)) as [Hej Hoj]. split; [done|]. intros Hj0.
      destruct (Hoj Hj0) as (p' & g' & Hp' & Ha' & Hfd'). exists p', g'. rewrite Ho1.
      rewrite decide_False; [done|]. intros ->. congruence.
    + intros s' Hi' Hf' Ho'. apply HQ.
      * rewrite Hrd, <- app_assoc in Hi'. simpl. rewrite Hr1. by destruct (pending f).
      * by etrans.
      * intros q. rewrite Ho', Ho1. case_decide as Eq.
        -- subst q. rewrite Hp. cbn [fmap option_fmap option_map].
           destruct (mark_hit e i idx g Hne Hn (proj1 (ok_range s Hok p g Hp)) Ha Hfd) as [E1 E2].
           rewrite E1, <- Epf in *. f_equal. exact E2.
        -- destruct (obj s q) as [g'|] eqn:Eg; [|done]. simpl. f_equal.
           destruct (active g') eqn:Ea; [|by rewrite !mark_inactive].
           rewrite mark_cons_other; [done|]. intros Efd. apply Eq. eapply active_unique; [done|done|done|..]; congruence.
Qed.

(** *** The early exit of the loop of fdevent_process *)

Abbreviation ev_of r w x i := (reported i r w x).1.
Abbreviation bits_of r w x i := (reported i r w x).2.

Lemma reported_range i r w x : 0 <= ev_of r w x i < 2 ^ 16.
Proof. unfold reported. simpl. by repeat case_bool_decide. Qed.

Lemma bits_nonneg i r w x : 0 <= bits_of r w x i.
Proof. unfold reported. simpl. by repeat case_bool_decide. Qed.

Lemma reported_zero i r w x : bits_of r w x i = 0 <-> ev_of r w x i = 0.
Proof. unfold reported. simpl. by repeat case_bool_decide. Qed.

Lemma reported_none i r w x : ev_of r w x i <> 0 <-> i ∈ r ∪ w ∪ x.
Proof. unfold reported. simpl. repeat case_bool_decide; set_solver. Qed.

Definition bits_sum (r w x : gset Z) (idx : list Z) : Z :=
  foldr (fun i a => bits_of r w x i + a) 0 idx.

Lemma bits_sum_cons r w x i idx : bits_sum r w x (i :: idx) = bits_of r w x i + bits_sum r w x idx.
Proof. done. Qed.

Lemma bits_sum_nonneg r w x idx : 0 <= bits_sum r w x idx.
Proof. induction idx as [|i idx IH]; [done|]. rewrite bits_sum_cons. pose proof (bits_nonneg i r w x). lia. Qed.

Lemma count_in (r : gset Z) idx :
  NoDup idx -> (forall i, i ∈ r -> i ∈ idx) ->
  foldr (fun i a => (if bool_decide (i ∈ r) then 1 else 0) + a) 0 idx = Z.of_nat (size r).
Proof.
  intros Hnd Hin. assert (E : list_to_set (filter (.∈ r) idx) = r).
  { apply set_eq. intros i. rewrite elem_of_list_to_set, list_elem_of_filter. set_solver. }
  transitivity (Z.of_nat (length (filter (.∈ r) idx))).
  2:{ rewrite <- (size_list_to_set (C := gset Z)), E by (by apply NoDup_filter). done. }
  clear E Hin Hnd.
  induction idx as [|i idx IH]; [done|]. simpl. rewrite IH, filter_cons. case_bool_decide.
  - rewrite decide_True by done. simpl. lia.
  - rewrite decide_False by done. lia.
Qed.

(** [n] counts every bit, so the loop stops early only when nothing is left. *)
Lemma bits_sum_size (r w x : gset Z) idx :
  NoDup idx -> (forall i, i ∈ r ∪ w ∪ x -> i ∈ idx) ->
  bits_sum r w x idx = Z.of_nat (size r + size w + size x).
Proof.
  intros Hnd Hin. rewrite !Nat2Z.inj_add.
  rewrite <- (count_in r idx), <- (count_in w idx), <- (count_in x idx) by set_solver.
  clear. induction idx as [|i idx IH]; [done|]. rewrite bits_sum_cons, IH.
  unfold reported. simpl. lia.
Qed.

Lemma for_each_skip {A} (idx : list A) (g : A -> F unit) s :
  (forall i, i ∈ idx -> forall s, g i s = skip s) -> for_each idx g s = skip s.
Proof.
  induction idx as [|i idx IH]; intros H; [done|]. simpl. unfold mbind, M_bind.
  rewrite (H i) by set_solver. simpl. apply IH. set_solver.
Qed.

Lemma bits_sum_zero r w x idx i : bits_sum r w x idx <= 0 -> i ∈ idx -> ev_of r w x i = 0.
Proof.
  induction idx as [|j idx IH]; [set_solver|]. rewrite bits_sum_cons. intros H.
  pose proof (bits_sum_nonneg r w x idx). pose proof (bits_nonneg j r w x).
  rewrite elem_of_cons. intros [->|Hi]; [apply reported_zero; lia|]. apply IH; [lia|done].
Qed.

Lemma process_loop_full r w x idx n s :
  n = bits_sum r w x idx ->
  process_loop idx n r w x s = for_each idx (fun i => process_fd i (ev_of r w x i)) s.
Proof.
  revert n s. induction idx as [|i idx IH]; intros n s ->; [done|].
  cbn [process_loop]. destruct (Z.gtb_spec (bits_sum r w x (i :: idx)) 0) as [H|H].
  - destruct (reported i r w x) as [e k] eqn:E. cbn [for_each]. rewrite E. cbn [fst].
    unfold mbind, M_bind. destruct (process_fd i e s) as [[[]|?] s']; [|done].
    apply IH. rewrite bits_sum_cons, E. simpl. lia.
  - symmetry. apply for_each_skip. intros j Hj s'.
    rewrite (bits_sum_zero r w x (i :: idx) j) by (done || lia). done.
Qed.
