(* ===== verification/FdeventLoop.v ===== *)
(** * Correctness of the event loop: waiting, dispatch, registration

    [fdevent_process] against what [select] reported, the drain of the
    pending list, and the life of an object from [fdevent_install] to
    [fdevent_remove]; the theorems about [fdevent.c] are at the end. *)

From S2P Require Import Prelude Effects DList Os Sysdeps Wire Globals Fdevent FdeventFacts.

(** ** Calls of the operating system *)

Lemma fd_ok_world (w : world) s : fd_ok s -> fd_ok (put w s).
Proof. intros H. by eapply (fd_ok_ext s). Qed.

Lemma fd_inv_world (w : world) s pend : fd_inv s pend -> fd_inv (put w s) pend.
Proof. intros [H1 H2 H3]. split; [by apply fd_ok_world|done|done]. Qed.

Abbreviation posix_state s := (posix (w_env (fd_world s))).

(** The world only moves on: same environment, never more calls to come. *)
Record later (w w' : world) : Prop := {
  later_env : w_env w' = w_env w;
  later_budget : (budget w' <= budget w)%nat;
}.

#[global] Instance later_preorder : PreOrder later.
Proof.
  split; [by split|]. intros w1 w2 w3 [E1 B1] [E2 B2]. split; [congruence|lia].
Qed.

Lemma steps_later w new w' : steps w new w' -> later w w'.
Proof. intros [E _ B]. split; [done|]. unfold budget, Budget_world. lia. Qed.

Lemma later_posix w w' : later w w' -> posix (w_env w) -> posix (w_env w').
Proof. by intros [-> _]. Qed.

#[export] Hint Resolve steps_later later_posix : adb.

Lemma wp_os_syscall c Q (X : stop -> fdstate -> Prop) s :
  posix_state s ->
  (forall w', let a := w_env (fd_world s) (w_hist (fd_world s)) c in
     steps (fd_world s) [ev c a] w' -> answer_ok c a -> Q a (put w' s)) ->
  X Blocked s ->
  wp (os (syscall c)) Q X s.
Proof.
  intros Hp HQ HX. apply wp_zoom, wp_syscall.
  - intros w' a S _. apply HQ; [done|apply Hp].
  - by destruct s.
Qed.

(** ** The check for closed descriptors *)

Definition registered (s : fdstate) (i : Z) : Prop :=
  exists p f, obj s p = Some f /\ active f = true /\ fde_fd f = i.

Lemma table_entry s i :
  fd_ok s -> 0 <= i < select_n s ->
  exists p, fd_table s !! Z.to_nat i = Some (Some p) /\ (p <> NULL -> registered s i).
Proof.
  intros Hok Hi. pose proof (ok_len s Hok). pose proof (ok_select s Hok).
  destruct (lookup_lt_is_Some_2 (fd_table s) (Z.to_nat i) ltac:(lia)) as [x Hx].
  destruct (proj1 (Forall_lookup _ _) (ok_init s Hok) _ _ Hx) as [p ->].
  exists p. split; [done|]. intros Hp. destruct (ok_table s Hok _ _ Hx Hp) as (f & Hf & Hfd & Ha).
  exists p, f. split_and!; [done..|lia].
Qed.

Lemma registered_range s i : fd_ok s -> registered s i -> 0 <= i < FD_SETSIZE /\ i < select_n s.
Proof.
  intros Hok (p & f & Hp & Ha & <-). destruct (ok_active s Hok p f Hp Ha) as (_ & _ & ? & ? & _). by split.
Qed.

Lemma wp_fd_check_loop idx n fds Q (X : stop -> fdstate -> Prop) s :
  fd_ok s -> posix_state s -> NoDup idx -> Forall (fun i => 0 <= i < select_n s) idx ->
  (forall i, i ∈ idx -> i ∉ fds) ->
  (forall w' bad, later (fd_world s) w' -> (forall i, i ∈ bad -> i ∈ idx /\ registered s i) ->
     Q (n + Z.of_nat (size bad), fds ∪ bad) (put w' s)) ->
  (forall s', X Blocked s') ->
  wp (fd_check_loop idx n fds) Q X s.
Proof.
  intros Hok Hpx Hnd Hr Hfr HQ HX. revert n fds s Hok Hpx Hr Hfr HQ.
  induction idx as [|i idx IH]; intros n fds s Hok Hpx Hr Hfr HQ; simpl.
  { wp_step. specialize (HQ (fd_world s) ∅ ltac:(done) ltac:(set_solver)).
    rewrite size_empty, Z.add_0_r, (right_id_L ∅ (∪)) in HQ. by destruct s. }
  apply NoDup_cons in Hnd as [Hn Hnd]. apply Forall_cons in Hr as [Hi Hr].
  destruct (table_entry s i Hok Hi) as (p & Ht & Hreg).
  wp_step. eapply wp_table_get; [lia|exact Ht|]. case_bool_decide as Ep.
  { apply IH; [done..|set_solver|]. intros w' bad Hw Hb. apply HQ; [done|]. set_solver. }
  specialize (Hreg Ep). wp_step. apply (wp_os_syscall (Getfl i)); [done| |done].
  intros w1 a S1 _. cbv zeta. apply steps_later in S1. destruct (rc_int a <? 0).
  - wp_step. apply (wp_fd_bit true); [by apply (registered_range s)|].
    apply IH; [done|by apply fd_ok_world|by eapply later_posix|done|set_solver|].
    intros w' bad Hw Hb. specialize (HQ w' ({[i]} ∪ bad) ltac:(by etrans)).
    rewrite size_union, size_singleton in HQ by set_solver. simpl.
    replace (n + 1 + Z.of_nat (size bad)) with (n + Z.of_nat (1 + size bad)) by lia.
    replace ({[i]} ∪ fds ∪ bad) with (fds ∪ ({[i]} ∪ bad)) by set_solver.
    apply HQ. set_solver.
  - apply IH; [done|by apply fd_ok_world|by eapply later_posix|done|set_solver|].
    intros w' bad Hw Hb. apply HQ; [by etrans|]. set_solver.
Qed.

(** ** fdevent_process *)

Lemma registered_seqZ s i : fd_ok s -> registered s i -> i ∈ seqZ 0 (select_n s).
Proof. intros Hok Hr%registered_range; [|done]. apply elem_of_seqZ. lia. Qed.

(** The loop over the descriptors, for any report about registered ones. *)
Lemma wp_process_sets (r w x : gset Z) pend Q X s :
  fd_inv s pend -> (forall i, i ∈ r ∪ w ∪ x -> registered s i) ->
  (forall s', fd_inv s' (pend ++ ready (fun i => ev_of r w x i) s (seqZ 0 (select_n s))) -> fd_frame s s' ->
     (forall q, obj s' q = mark (fun i => ev_of r w x i) (seqZ 0 (select_n s)) <$> obj s q) -> Q tt s') ->
  wp (process_loop (seqZ 0 (select_n s)) (Z.of_nat (size r + size w + size x)) r w x) Q X s.
Proof.
  intros Hi Hreg HQ. pose proof (inv_ok _ _ Hi) as Hok. unfold wp. rewrite process_loop_full.
  - apply (wp_process_each (fun i => ev_of r w x i) _ pend); [done|apply NoDup_seqZ| | |done].
    + apply Forall_forall. intros i Hin. apply elem_of_seqZ in Hin. lia.
    + intros i Hin. split; [apply reported_range|]. intros Hne. by apply Hreg, reported_none.
  - symmetry. apply bits_sum_size; [apply NoDup_seqZ|]. intros i Hin. apply registered_seqZ; auto.
Qed.

(** The events each descriptor is given, from the answer of [select]: those it
    reported, or after [EBADF] (or a report of nothing) a read event for
    descriptors that [fcntl] does not know. *)
Definition report_of (a : sysres (Z * (gset Z * gset Z * gset Z))) (e : Z -> Z) : Prop :=
  match a with
  | Ok (n, (r, w, x)) =>
      if n >? 0 then forall i, e i = ev_of r w x i else forall i, e i = 0 \/ e i = FDE_READ
  | Err err => if err =? EBADF then forall i, e i = 0 \/ e i = FDE_READ else forall i, e i = 0
  end.

(** What waiting leaves alone. *)
Record same_config (s s' : fdstate) : Prop := {
  config_table : fd_table s' = fd_table s;
  config_max : fd_table_max s' = fd_table_max s;
  config_n : select_n s' = select_n s;
  config_notify : SHELL_EXIT_NOTIFY_FD s' = SHELL_EXIT_NOTIFY_FD s;
  config_world : later (fd_world s) (fd_world s');
}.

Lemma frame_config (w : world) s s' :
  later (fd_world s) w -> fd_frame (put w s) s' -> same_config s s'.
Proof. intros Hw [E1 E2 E3 E4 E5]. split; [done..|]. by rewrite E5. Qed.

Abbreviation select_call s := (Select (select_n s) (read_fds s) (write_fds s) (error_fds s)).

Lemma select_registered s flag i : watched s flag i -> registered s i.
Proof. intros (p & f & ? & ? & ? & _). by exists p, f. Qed.

(** A quiet report changes nothing. *)
Lemma mark_none e idx f : (forall i, e i = 0) -> mark e idx f = f.
Proof. intros H. unfold mark. by rewrite H, andb_false_r. Qed.

Lemma ready_none e s idx : (forall i, e i = 0) -> ready e s idx = [].
Proof. intros H. induction idx as [|i idx IH]; [done|]. simpl. unfold ready1. by rewrite H. Qed.

Lemma ready_world (w : world) e s idx : ready e (put w s) idx = ready e s idx.
Proof. induction idx as [|i idx IH]; [done|]. cbn [ready]. by rewrite IH. Qed.

Lemma same_config_world (w : world) s s' :
  later (fd_world s) w -> same_config (put w s) s' -> same_config s s'.
Proof. intros Hw [E1 E2 E3 E4 E5]. split; [done..|]. by etrans. Qed.

(** The path through [fdevent_fd_check]. *)
Lemma wp_process_check pend Q (X : stop -> fdstate -> Prop) s :
  fd_inv s pend -> posix_state s ->
  (forall e s', (forall i, e i = 0 \/ e i = FDE_READ) ->
     fd_inv s' (pend ++ ready e s (seqZ 0 (select_n s))) ->
     (forall q, obj s' q = mark e (seqZ 0 (select_n s)) <$> obj s q) -> same_config s s' -> Q tt s') ->
  (forall s', X Blocked s') ->
  wp ('(n', rfd') ← fdevent_fd_check ∅; process_loop (seqZ 0 (select_n s)) n' rfd' ∅ ∅) Q X s.
Proof.
  intros Hi Hpx HQ HX. unfold fdevent_fd_check. wp_step. wp_step. wp_step.
  apply wp_fd_check_loop; [apply Hi|done|apply NoDup_seqZ| |set_solver| |done].
  { apply Forall_forall. intros i Hin. apply elem_of_seqZ in Hin. lia. }
  intros w2 bad Hw2 Hbad. cbn beta iota. rewrite Z.add_0_l, (left_id_L ∅ (∪)).
  replace (Z.of_nat (size bad)) with (Z.of_nat (size bad + size (∅ : gset Z) + size (∅ : gset Z)))
    by (rewrite size_empty; lia).
  change (select_n s) with (select_n (put w2 s)).
  apply (wp_process_sets bad ∅ ∅ pend Q X (put w2 s)); [by apply fd_inv_world| |].
  - intros i Hin. apply Hbad. set_solver.
  - intros s' Hi' Hf' Ho'. rewrite ready_world in Hi'. eapply HQ; [|exact Hi'|exact Ho'|by eapply frame_config].
    intros i. unfold reported. simpl. case_bool_decide; [by right|by left].
Qed.

Lemma wp_fdevent_process pend Q (X : stop -> fdstate -> Prop) s :
  fd_inv s pend -> posix_state s ->
  (forall e s', report_of (w_env (fd_world s) (w_hist (fd_world s)) (select_call s)) e ->
     fd_inv s' (pend ++ ready e s (seqZ 0 (select_n s))) ->
     (forall q, obj s' q = mark e (seqZ 0 (select_n s)) <$> obj s q) -> same_config s s' ->
     (budget s' < budget s)%nat -> Q tt s') ->
  (forall s', X Blocked s') ->
  wp fdevent_process Q X s.
Proof.
  intros Hi Hpx HQ HX. pose proof (inv_ok _ _ Hi) as Hok. unfold fdevent_process.
  wp_step. wp_step. wp_step. apply (wp_os_syscall (select_call s)); [done| |done].
  intros w1 a S1 Ha. cbv zeta. fold a in HQ. clearbody a. simpl in Ha.
  pose proof (steps_later _ _ _ S1) as Hl1. pose proof (later_posix _ _ Hl1 Hpx) as Hp1.
  pose proof (steps_budget_lt _ _ _ S1 ltac:(done)) as Hb1.
  assert (Hi1 : fd_inv (put w1 s) pend) by (by apply fd_inv_world).
  assert (Hquiet : report_of a (fun _ => 0) -> Q tt (put w1 s)).
  { intros Hr. apply (HQ (fun _ => 0)); [done| | |by split|done].
    - by rewrite ready_none, app_nil_r.
    - intros q. change (obj (put w1 s) q) with (obj s q). destruct (obj s q); [simpl; by rewrite mark_none|done]. }
  assert (Hcheck : (forall e, (forall i, e i = 0 \/ e i = FDE_READ) -> report_of a e) ->
    wp ('(n', rfd') ← fdevent_fd_check ∅; process_loop (seqZ 0 (select_n s)) n' rfd' ∅ ∅) Q X (put w1 s)).
  { intros Hrep. change (select_n s) with (select_n (put w1 s)). apply (wp_process_check pend Q X (put w1 s)); [done|done| |done].
    intros e s' He Hi' Ho' Hc. rewrite ready_world in Hi'. eapply HQ; [by apply Hrep|exact Hi'|exact Ho'|by eapply same_config_world|].
    eapply Nat.le_lt_trans; [apply (config_world _ _ Hc)|done]. }
  destruct a as [[n [[r w] x]]|err].
  - destruct Ha as (Hr & Hw & Hx & _ & ->). destruct (Z.leb_spec (Z.of_nat (size r + size w + size x)) 0) as [H0|H0].
    + assert (size r = 0%nat /\ size w = 0%nat /\ size x = 0%nat) as (Er & Ew & Ex) by lia.
      apply size_empty_inv, leibniz_equiv in Er. apply size_empty_inv, leibniz_equiv in Ew.
      apply size_empty_inv, leibniz_equiv in Ex. subst r w x. apply Hcheck. intros e He. simpl. exact He.
    + wp_step. wp_step. cbn beta iota. change (select_n (id s)) with (select_n (put w1 s)).
      apply (wp_process_sets r w x pend Q X (put w1 s)); [done| |].
      * intros i Hin. rewrite !elem_of_union in Hin. destruct Hin as [[Hin|Hin]|Hin].
        -- apply (select_registered s FDE_READ), (ok_read s Hok). set_solver.
        -- apply (select_registered s FDE_WRITE), (ok_write s Hok). set_solver.
        -- apply (select_registered s FDE_ERROR), (ok_error s Hok). set_solver.
      * intros s' Hi' Hf' Ho'. rewrite ready_world in Hi'.
        eapply HQ; [|exact Hi'|exact Ho'|by eapply frame_config|].
        2:{ unfold budget, Budget_fdstate. by rewrite (frame_world _ _ Hf'). }
        simpl. by rewrite (proj2 (Z.gtb_lt _ _)).
  - destruct (Z.eqb_spec err EINTR) as [->|]; [wp_step; by apply Hquiet|].
    destruct (Z.eqb_spec err EBADF) as [->|Hne].
    + change (-1 <=? 0) with true. cbn iota. apply Hcheck. intros e He. exact He.
    + wp_step. apply Hquiet. simpl. by rewrite (proj2 (Z.eqb_neq _ _)).
Qed.

(** ** Dispatch *)

(** The loop stops only where the code aborts or waits: never by undefined
    behaviour, never because the model ran out of fuel. *)
Definition safe_stop (x : stop) : Prop :=
  match x with Abort _ | Blocked => True | Undef _ | Diverge => False end.

(** The list and the flags agree except for [p], which is pending but has left
    the list: the state in which [fdevent_call_fdfunc] is called. *)
Record fd_inv_but (s : fdstate) (pend : list ptr) (p : ptr) : Prop := {
  but_ok : fd_ok s;
  but_list : dll (fde_heap s) list_pending pend;
  but_obj : exists f, fde_heap s !! p = Some f /\ pending f = true;
  but_pend : forall q, q ∈ pend <-> q <> p /\ exists f, obj s q = Some f /\ pending f = true;
}.

(** What a handler leaves behind: the invariant, a pending list from which
    objects may have been taken, and a world that has moved on. *)
Definition handled (s : fdstate) (pend : list ptr) (s' : fdstate) : Prop :=
  exists pend', pend' `sublist_of` pend /\ fd_inv s' pend' /\ later (fd_world s) (fd_world s').

(** What the loop asks of the functions its clients register. *)
Class Handlers (client : N -> Z -> Z -> ptr -> F unit) : Prop :=
  handlers_ok : forall id fd evs arg s pend,
    fd_inv s pend -> posix_state s ->
    wp (client id fd evs arg) (fun _ => handled s pend) (fun x _ => safe_stop x) s.

Lemma handled_trans s1 pend1 s2 pend2 s3 :
  pend2 `sublist_of` pend1 -> later (fd_world s1) (fd_world s2) -> handled s2 pend2 s3 -> handled s1 pend1 s3.
Proof. intros Hs Hl (pend3 & Hs3 & Hi & Hl3). exists pend3. split_and!; [by etrans|done|by etrans]. Qed.

Lemma handled_refl s pend : fd_inv s pend -> handled s pend s.
Proof. intros H. by exists pend. Qed.

(** Clearing the events and the pending bit restores the full invariant. *)
Lemma fd_inv_but_clear s pend p f :
  fd_inv_but s pend p -> fde_heap s !! p = Some f ->
  let s1 := put (<[p := set_events 0 f]> (fde_heap s)) s in
  let s2 := put (<[p := set_state (clear (fde_state f) FDE_PENDING) (set_events 0 f)]> (fde_heap s1)) s1 in
  fd_inv s2 pend.
Proof.
  intros [Hok Hl _ Hb] Hp s1 s2.
  assert (Hp1 : fde_heap s1 !! p = Some (set_events 0 f)) by apply lookup_insert_eq.
  assert (Hok1 : fd_ok s1) by (by apply fd_ok_set_events).
  split.
  - exact (fd_ok_clear_pending s1 p (set_events 0 f) Hok1 Hp1).
  - eapply dll_ext; [exact Hl| |]; intros q; unfold s2, s1; cbn [fde_heap put Lens_fde_heap];
      rewrite insert_insert_eq; destruct (decide (p = q)) as [<-|];
      rewrite ?lookup_insert_eq, ?lookup_insert_ne, ?Hp by done; done.
  - intros q. unfold s2, s1. rewrite Hb, !obj_put_insert. case_decide as E.
    + subst q. split; [naive_solver|]. intros (g & [= <-] & Hg). exfalso.
      destruct (pending_clear f (ok_state s p f Hok Hp)) as [Hc _].
      change (pending (set_state (clear (fde_state f) FDE_PENDING) f) = true) in Hg. congruence.
    + naive_solver.
Qed.

Lemma wp_fdevent_add p f events pend Q X s :
  fd_inv s pend -> fde_heap s !! p = Some f -> pending f = false ->
  (forall s', fd_inv s' pend -> fd_frame s s' ->
     (forall q, is_Some (obj s' q) <-> is_Some (obj s q)) -> Q tt s') ->
  wp (fdevent_add p events) Q X s.
Proof.
  intros Hi Hp Hn HQ. unfold fdevent_add. wp_step. eapply wp_deref; [exact Hp|].
  eapply wp_fdevent_set; [exact Hi|exact Hp|]. intros s' Hi' Hf Ho. apply HQ; [|done|].
  - unfold set_outcome in Hi'. rewrite Hn in Hi'. by destruct (_ =? _) in Hi'.
  - intros q. rewrite Ho. case_decide; [|done]. subst. rewrite (obj_payload _ _ _ Hp). by split; eexists.
Qed.

Lemma ospec_os {A} (m : M world A) Q1 X1 Q (X : stop -> fdstate -> Prop) s :
  ospec (w_errno (fd_world s)) m Q1 X1 -> posix_state s ->
  (forall a new w', steps (fd_world s) new w' -> Q1 a new (w_errno w') -> Q a (put w' s)) ->
  (forall x new (w' : world), X1 x new -> X x (put w' s)) ->
  wp (os m) Q X s.
Proof.
  intros Hm Hp HQ HX. apply wp_zoom. eapply wp_mono; [by apply Hm| |].
  - intros a w' (new & S & Hq). by eapply HQ.
  - intros x w' (new & _ & Hx). by eapply HX.
Qed.

(** Marking an idle object pending without queueing it. *)
Lemma fd_inv_but_mark s pend p f :
  fd_inv s pend -> fde_heap s !! p = Some f -> active f = true -> pending f = false ->
  fd_inv_but (put (<[p := set_state (Z.lor (fde_state f) FDE_PENDING) f]> (fde_heap s)) s) pend p.
Proof.
  intros [Hok Hl Hpd] Hp Ha Hn. pose proof (ok_state s p f Hok Hp) as Hst. split.
  - by apply fd_ok_mark_pending.
  - eapply dll_ext; [exact Hl| |]; intros q; cbn [fde_heap put Lens_fde_heap];
      destruct (decide (p = q)) as [<-|]; rewrite ?lookup_insert_eq, ?lookup_insert_ne, ?Hp by done; done.
  - eexists. split; [apply lookup_insert_eq|]. exact (proj1 (pending_mark f Hst)).
  - intros q. rewrite Hpd, obj_put_insert. case_decide as E; [|naive_solver]. subst q.
    rewrite (obj_payload _ _ _ Hp). split; [|naive_solver]. intros (g & [= <-] & Hg).
    change (pending f = true) in Hg. congruence.
Qed.

Lemma fd_inv_set_events s pend p f e :
  fd_inv s pend -> fde_heap s !! p = Some f ->
  fd_inv (put (<[p := set_events e f]> (fde_heap s)) s) pend.
Proof.
  intros Hi Hp. eapply fd_inv_assign; [exact Hi| |exact Hp|done|done|done|done].
  apply fd_ok_set_events; [apply Hi|done].
Qed.

Lemma fd_inv_set_force_eof s pend p f b :
  fd_inv s pend -> fde_heap s !! p = Some f ->
  fd_inv (put (<[p := set_force_eof b f]> (fde_heap s)) s) pend.
Proof.
  intros Hi Hp. pose proof (inv_ok _ _ Hi) as Hok.
  eapply fd_inv_assign; [exact Hi| |exact Hp|done|done|done|done].
  apply (fd_ok_restate s p f); try done.
  - exact (ok_pending s Hok p (payload f) (obj_payload _ _ _ Hp)).
  - exact (ok_state s p f Hok Hp).
  - exact (ok_events s p f Hok Hp).
Qed.

Lemma pend_length s pend : fd_inv s pend -> (length pend < S (size (fde_heap s)))%nat.
Proof.
  intros [_ [Hnd _] Hp]. apply NoDup_cons in Hnd as [_ Hnd].
  rewrite <- (size_list_to_set (C := gset N) pend) by done. rewrite <- size_dom.
  apply Nat.lt_succ_r, subseteq_size. intros q Hq%elem_of_list_to_set.
  apply Hp in Hq as (f & Hf & _). apply obj_inv in Hf as (f0 & Hf & _). by apply elem_of_dom_2 in Hf.
Qed.

Lemma fd_inv_dequeue s x ys h' :
  fd_inv s (x :: ys) -> dll h' list_pending ys -> same_payload (fde_heap s) h' ->
  fd_inv_but (put h' s) ys x /\ x <> NULL.
Proof.
  intros [Hok Hl Hp] Hl' Hsp. destruct (proj1 (Hp x) ltac:(set_solver)) as (g & Hg & Hpg).
  destruct (obj_inv _ _ _ Hg) as (f & Hf & Epf).
  destruct (same_payload_lookup _ _ _ _ Hsp Hf) as (f' & Hf' & Ep'). split; [split|].
  - eapply (fd_ok_ext s); [done|intros q; by apply obj_same_payload|done..].
  - done.
  - exists f'. split; [done|]. rewrite <- Epf, <- Ep' in Hpg. exact Hpg.
  - intros q. rewrite obj_same_payload, <- Hp by done. destruct Hl as [Hnd _].
    apply NoDup_cons in Hnd as [_ Hnd]. apply NoDup_cons in Hnd as [Hx _]. set_solver.
  - by destruct (ok_active s Hok x g Hg (ok_pending s Hok x g Hg Hpg)) as (? & _).
Qed.

Section dispatch.
Context (client : N -> Z -> Z -> ptr -> F unit) `{Hc : !Handlers client}.

(** The contract of [fdevent_call_fdfunc], on a given depth. *)
Definition calls_ok (depth : nat) (call : ptr -> F unit) : Prop :=
  forall s pend p, (budget s < depth)%nat -> fd_inv_but s pend p -> posix_state s ->
    wp (call p) (fun _ => handled s pend) (fun x _ => safe_stop x) s.

(** The end of the shell-exit handler, once the descriptor is known. *)
Lemma wp_subproc_target depth call subproc_fde f pend s :
  calls_ok depth call -> (budget s < depth)%nat -> fd_inv s pend -> posix_state s ->
  fde_heap s !! subproc_fde = Some f -> active f = true ->
  wp (assign subproc_fde (set_force_eof 1);;
      rcount ← os (syscall (Fionread (fde_fd f)));
      if negb (match rcount with Ok n => n | Err _ => 0 end =? 0) then skip else
      assign subproc_fde (fun f => set_events (Z.lor (fde_events f) FDE_READ) f);;
      f' ← deref subproc_fde;
      if has (fde_state f') FDE_PENDING then skip else
      assign subproc_fde (fun f => set_state (Z.lor (fde_state f) FDE_PENDING) f);;
      call subproc_fde) (fun _ => handled s pend) (fun x _ => safe_stop x) s.
Proof.
  intros Hcall Hbud Hi Hpx Hp Ha. wp_step. eapply wp_assign; [exact Hp|].
  set (s1 := put (<[subproc_fde := set_force_eof 1 f]> (fde_heap s)) s).
  assert (Hi1 : fd_inv s1 pend) by (by apply fd_inv_set_force_eof).
  wp_step. apply (wp_os_syscall (Fionread (fde_fd f))); [done| |done]. intros w2 a S2 _. cbv zeta.
  apply steps_later in S2. case_cond.
  { wp_step. exists pend. split_and!; [done|by apply fd_inv_world|done]. }
  set (s2 := put w2 s1). set (g := set_force_eof 1 f).
  assert (Hi2 : fd_inv s2 pend) by (by apply fd_inv_world).
  assert (Hp2 : fde_heap s2 !! subproc_fde = Some g) by apply lookup_insert_eq.
  wp_step. eapply wp_assign; [exact Hp2|].
  set (g3 := set_events (Z.lor (fde_events g) FDE_READ) g).
  set (s3 := put (<[subproc_fde := g3]> (fde_heap s2)) s2).
  assert (Hi3 : fd_inv s3 pend) by (by apply fd_inv_set_events).
  assert (Hp3 : fde_heap s3 !! subproc_fde = Some g3) by apply lookup_insert_eq.
  wp_step. eapply wp_deref; [exact Hp3|]. destruct (has (fde_state g3) FDE_PENDING) eqn:Epend.
  { wp_step. by exists pend. }
  wp_step. eapply wp_assign; [exact Hp3|].
  eapply wp_mono; [eapply Hcall; [|by apply fd_inv_but_mark|]| |done].
  - eapply Nat.le_lt_trans; [apply (later_budget _ _ S2)|done].
  - by eapply later_posix.
  - intros [] s' Hh. eapply handled_trans; [reflexivity| |exact Hh]. exact S2.
Qed.

Lemma wp_subproc_event depth call p f evs pend s :
  calls_ok depth call -> (budget s <= depth)%nat -> fd_inv s pend -> posix_state s ->
  fde_heap s !! p = Some f -> active f = true -> pending f = false ->
  wp (subproc_event call (fde_fd f) evs) (fun _ => handled s pend) (fun x _ => safe_stop x) s.
Proof.
  intros Hcall Hbud Hi Hpx Hp Ha Hn. pose proof (inv_ok _ _ Hi) as Hok.
  destruct (ok_active s Hok p (payload f) (obj_payload _ _ _ Hp) Ha) as (_ & _ & Hfd & Hsel & Ht).
  change (fde_fd (payload f)) with (fde_fd f) in *. pose proof (ok_select s Hok) as Hsn.
  unfold subproc_event. wp_step. wp_step. case_cond; [done|].
  wp_step. eapply wp_table_get; [lia|exact Ht|].
  wp_step. eapply wp_fdevent_add; [exact Hi|exact Hp|done|]. intros s1 Hi1 Hf1 _.
  assert (Hpx1 : posix_state s1) by (by rewrite (frame_world _ _ Hf1)).
  case_cond; [wp_step; exists pend; split_and!; [done|done|by rewrite (frame_world _ _ Hf1)]|].
  wp_step. eapply ospec_os; [by apply (ospec_readx _ _ 4)|done| |by intros x new w' [-> _]].
  intros bs new w2 S2 [_ Hbs]. pose proof (steps_later _ _ _ S2) as Hl2.
  set (s2 := put w2 s1). assert (Hi2 : fd_inv s2 pend) by (by apply fd_inv_world).
  assert (Hl02 : later (fd_world s) (fd_world s2)) by (by rewrite <- (frame_world _ _ Hf1)).
  assert (Hskip : handled s pend s2) by (by exists pend).
  destruct bs as [bs|]; [|done]. destruct Hbs as (Hrd & Hlen & _). cbv zeta.
  assert (Hlt : (budget s2 < budget s)%nat).
  { unfold budget, Budget_fdstate. rewrite <- (frame_world _ _ Hf1).
    eapply steps_budget_lt; [exact S2|]. intros ->. rewrite <- Hrd in Hlen. done. }
  generalize (s32 (le_val bs)) as fd. intros fd.
  wp_step. wp_step. case_cond; [by wp_step|]. bool_norm.
  pose proof (inv_ok _ _ Hi2) as Hok2. pose proof (ok_len s2 Hok2) as Hlen2.
  destruct (lookup_lt_is_Some_2 (fd_table s2) (Z.to_nat fd)) as [x Hx]; [lia|].
  destruct (proj1 (Forall_lookup _ _) (ok_init s2 Hok2) _ _ Hx) as [q ->].
  wp_step. eapply wp_table_get; [lia|exact Hx|]. case_bool_decide as Eq; [by wp_step|].
  destruct (ok_table s2 Hok2 _ _ Hx Eq) as (g & Hg & Hgfd & Hga).
  destruct (obj_inv _ _ _ Hg) as (g0 & Hg0 & Epg).
  wp_step. eapply wp_deref; [exact Hg0|]. destruct (Z.eqb_spec (fde_fd g0) fd) as [Efd|]; cbn [negb]; [|by wp_step].
  cbn [negb]. rewrite <- Efd. eapply wp_mono; [eapply wp_subproc_target; [exact Hcall| |exact Hi2| |exact Hg0|]| |done].
  - lia.
  - by eapply later_posix.
  - by rewrite <- Epg in Hga.
  - intros [] s' Hh. by eapply handled_trans.
Qed.

Lemma wp_call_fdfunc depth : calls_ok depth (call_fdfunc client depth).
Proof.
  induction depth as [|depth IH]; intros s pend p Hb Hi Hpx; [lia|].
  cbn [call_fdfunc]. destruct (but_obj _ _ _ Hi) as (f & Hp & Hpend).
  pose proof (but_ok _ _ _ Hi) as Hok. pose proof (ok_state s p f Hok Hp) as Hst.
  wp_step. eapply wp_deref; [exact Hp|]. cbv zeta. wp_step. eapply wp_assign; [exact Hp|].
  fold (pending f). rewrite Hpend. cbn [negb].
  wp_step. eapply wp_assign; [apply lookup_insert_eq|].
  pose proof (fd_inv_but_clear s pend p f Hi Hp) as Hi2. cbv zeta in Hi2.
  set (s1 := put (<[p := set_events 0 f]> (fde_heap s)) s) in *.
  set (g := set_state (clear (fde_state f) FDE_PENDING) (set_events 0 f)) in *.
  set (s2 := put (<[p := g]> (fde_heap s1)) s1) in *.
  assert (Hact : active f = true).
  { exact (ok_pending s Hok p (payload f) (obj_payload _ _ _ Hp) Hpend). }
  assert (Hng : pending g = false) by exact (proj1 (pending_clear (set_events 0 f) Hst)).
  assert (Hag : active g = true) by exact (eq_trans (proj2 (pending_clear (set_events 0 f) Hst)) Hact).
  assert (Hp2 : fde_heap s2 !! p = Some g) by apply lookup_insert_eq.
  destruct (fde_func f).
  - change (fde_fd f) with (fde_fd g).
    eapply wp_mono; [eapply (wp_subproc_event depth _ p g); [exact IH| |exact Hi2|done|exact Hp2| |exact Hng]| |done].
    + unfold budget, Budget_fdstate in *. simpl. lia.
    + exact Hag.
    + intros [] s' Hh. by eapply handled_trans.
  - eapply wp_mono; [apply Hc; [exact Hi2|done]| |done]. intros [] s' Hh. by eapply handled_trans.
Qed.

Lemma wp_fdevent_call_fdfunc s pend p :
  fd_inv_but s pend p -> posix_state s ->
  wp (fdevent_call_fdfunc client p) (fun _ => handled s pend) (fun x _ => safe_stop x) s.
Proof.
  intros Hi Hpx. apply (wp_eq _ (call_fdfunc client (S (budget s)) p)); [done|].
  apply wp_call_fdfunc; [lia|done|done].
Qed.

(** ** Draining the pending list *)

Lemma wp_drain_fuel n s pend :
  (length pend < n)%nat -> fd_inv s pend -> posix_state s ->
  wp (drain_fuel client n) (fun _ s' => fd_inv s' [] /\ later (fd_world s) (fd_world s'))
    (fun x _ => safe_stop x) s.
Proof.
  revert s pend. induction n as [|n IH]; intros s pend Hn Hi Hpx; [lia|].
  cbn [drain_fuel]. wp_step. eapply wp_plist_dequeue; [apply Hi|].
  destruct pend as [|x ys].
  { rewrite bool_decide_true by done. by wp_step. }
  intros h' Hl Hsp. destruct (fd_inv_dequeue s x ys h' Hi Hl Hsp) as [Hb Hx].
  rewrite bool_decide_false by done. wp_step.
  eapply wp_mono; [apply (wp_fdevent_call_fdfunc (put h' s) ys x); done| |done].
  intros [] s2 (pend2 & Hsub & Hi2 & Hl2). apply sublist_length in Hsub. simpl in Hn.
  eapply wp_mono; [eapply (IH s2 pend2); [lia|done|by eapply later_posix]| |done].
  intros [] s3 [Hi3 Hl3]. split; [done|]. by etrans.
Qed.

(** One turn of the loop. *)
Lemma wp_loop_turn s pend :
  fd_inv s pend -> posix_state s ->
  wp (fdevent_loop_turn client)
    (fun _ s' => fd_inv s' [] /\ later (fd_world s) (fd_world s') /\ (budget s' < budget s)%nat)
    (fun x _ => safe_stop x) s.
Proof.
  intros Hi Hpx. unfold fdevent_loop_turn. wp_step.
  eapply wp_fdevent_process; [exact Hi|done| |done]. intros e s1 _ Hi1 _ Hc1 Hb1.
  pose proof (config_world _ _ Hc1) as Hl1.
  apply (wp_eq _ (drain_fuel client (S (size (fde_heap s1))))); [done|].
  eapply wp_mono; [eapply (wp_drain_fuel _ s1); [exact (pend_length _ _ Hi1)|exact Hi1|by eapply later_posix]| |done].
  intros [] s2 [Hi2 Hl2]. split_and!; [done|by etrans|]. eapply Nat.le_lt_trans; [exact (later_budget _ _ Hl2)|done].
Qed.
End dispatch.
