(* ===== verification/FdeventReg.v ===== *)
(** * Correctness of the event loop: registration

    The life of an object: [fdevent_install] puts it in the table,
    [fdevent_remove] takes it out of everything.  The growth of the table is
    proved for 4-byte pointers; on 8-byte pointers the code clears only half
    of the new entries. *)

From S2P Require Import Prelude Effects DList Os Sysdeps Wire Globals Fdevent FdeventFacts FdeventLoop.

(** ** The size of the table *)

(** Seven doublings reach every descriptor the code accepts. *)
Lemma double_until_spec n max fd :
  256 <= max -> fd < max * 2 ^ Z.of_nat n ->
  exists max', double_until n max fd = Some max' /\ max <= max' /\ fd < max' /\
    (max' = max \/ max' <= 2 * fd).
Proof.
  revert max. induction n as [|n IH]; intros max Hm Hfd; simpl.
  - destruct (Z.leb_spec max fd); [rewrite Z.mul_1_r in Hfd; lia|].
    exists max. split_and!; [done|lia|lia|by left].
  - destruct (Z.leb_spec max fd).
    + destruct (IH (max * 2)) as (m & -> & H1 & H2 & H3); [lia| |].
      { rewrite Nat2Z.inj_succ, Z.pow_succ_r in Hfd by lia. lia. }
      exists m. split_and!; [done|lia|lia|right; lia].
    + exists max. split_and!; [done|lia|lia|by left].
Qed.

(** On 4-byte pointers the new entries are all zero. *)
Lemma grow_table_ilp32 table oldmax max :
  Z.of_nat (length table) = oldmax -> oldmax <= max ->
  grow_table 4 table oldmax max = table ++ replicate (Z.to_nat (max - oldmax)) (Some NULL).
Proof.
  intros Hl Hm. unfold grow_table. rewrite Z.mul_comm, Z.div_mul, Z.sub_diag by lia. simpl.
  rewrite app_nil_r, take_ge by lia. done.
Qed.

(** On 8-byte pointers the upper half of them keeps what [realloc] left. *)
Lemma grow_table_lp64 table oldmax max i :
  Z.of_nat (length table) = oldmax -> oldmax <= max -> max - oldmax = 2 * ((max - oldmax) / 2) ->
  oldmax + (max - oldmax) / 2 <= i < max ->
  grow_table 8 table oldmax max !! Z.to_nat i = Some None.
Proof.
  intros Hl Hm Heven Hi. unfold grow_table.
  replace (4 * (max - oldmax) / 8) with ((max - oldmax) / 2).
  2:{ rewrite Heven at 2. rewrite Z.mul_assoc. change (4 * 2) with 8. rewrite Z.mul_comm, Z.div_mul by lia. done. }
  rewrite take_ge, app_assoc, lookup_app_r; rewrite ?length_app, ?length_replicate; [|lia..].
  apply lookup_replicate_2. lia.
Qed.

(** The table without the objects: what registration needs of it. *)
Record table_wf (s : fdstate) : Prop := {
  wf_len : Z.of_nat (length (fd_table s)) = fd_table_max s;
  wf_init : Forall is_Some (fd_table s);
  wf_size : fd_table_max s = 0 \/ 256 <= fd_table_max s;
}.

Lemma fd_ok_wf s : fd_ok s -> table_wf s.
Proof. intros []. by split. Qed.

(** The table after registering [p] under [fd]. *)
Record registers (p : ptr) (fd : Z) (s s' : fdstate) : Prop := {
  regs_table : exists k, fd_table s' = <[Z.to_nat fd := Some p]> (fd_table s ++ replicate k (Some NULL)) /\
    fd_table_max s' = fd_table_max s + Z.of_nat k;
  regs_fit : 0 <= fd < fd_table_max s' /\ 256 <= fd_table_max s';
  regs_bound : fd_table_max s' <= Z.max 64000 (fd_table_max s);
  regs_heap : fde_heap s' = fde_heap s;
  regs_n : select_n s' = select_n s;
  regs_notify : SHELL_EXIT_NOTIFY_FD s' = SHELL_EXIT_NOTIFY_FD s;
  regs_sets : (read_fds s' = read_fds s /\ write_fds s' = write_fds s /\ error_fds s' = error_fds s) \/
    (fd_table_max s = 0 /\ read_fds s' = ∅ /\ write_fds s' = ∅ /\ error_fds s' = ∅);
  regs_world : later (fd_world s) (fd_world s');
}.

Lemma wp_table_set i p Q X s :
  0 <= i < Z.of_nat (length (fd_table s)) ->
  Q tt (with_table (<[Z.to_nat i := Some p]> (fd_table s)) (fd_table_max s) s) ->
  wp (table_set i p) Q X s.
Proof.
  intros Hi HQ. unfold table_set. wp_step.
  destruct (lookup_lt_is_Some_2 (fd_table s) (Z.to_nat i) ltac:(lia)) as [x Hx].
  wp_step; [exact Hx|]. by wp_step.
Qed.

Lemma wp_register_any p f Q (X : stop -> fdstate -> Prop) s :
  table_wf s -> posix_state s -> fde_heap s !! p = Some f ->
  0 <= fde_fd f -> fde_fd f <= 32000 \/ fde_fd f < fd_table_max s ->
  (forall s', registers p (fde_fd f) s s' -> Q tt s') ->
  (forall s', X Blocked s') -> (forall s', X (Abort "could not expand fd_table") s') ->
  wp (fdevent_register 4 p) Q X s.
Proof.
  intros [Hl Hin Hsz] Hpx Hp Hfd0 Hfd HQ HX HX'. unfold fdevent_register.
  wp_step. eapply wp_deref; [exact Hp|]. cbv zeta. destruct (Z.ltb_spec (fde_fd f) 0); [lia|].
  wp_step. wp_step. wp_step. rewrite Z.geb_leb.
  destruct (Z.leb_spec (fd_table_max s) (fde_fd f)) as [Hgrow|Hfit].
  2:{ wp_step. apply wp_table_set; [lia|]. apply HQ. split; simpl; try done; [|lia|lia|by left].
      exists 0%nat. rewrite app_nil_r. split; [done|lia]. }
  rewrite Z.gtb_ltb. destruct (Z.ltb_spec 32000 (fde_fd f)); [lia|].
  destruct (double_until_spec 8 (if fd_table_max s =? 0 then 256 else fd_table_max s) (fde_fd f))
    as (max' & -> & Hm1 & Hm2 & Hm3); [case_cond; bool_norm; lia|case_cond; bool_norm; lia|].
  assert (Hrest : forall s1, s1 = (if fd_table_max s =? 0 then with_fds ∅ ∅ ∅ s else s) ->
    wp (r ← os (syscall (Malloc (4 * max')));
        match r with
        | Err _ => abort "could not expand fd_table"
        | Ok _ => modify (fun s' => with_table (grow_table 4 (fd_table s') (fd_table_max s) max') max' s')
        end) (fun _ => wp (table_set (fde_fd f) p) Q X) X s1).
  { intros s1 Es1. assert (Et : fd_table s1 = fd_table s) by (subst s1; by destruct (_ =? 0)).
    assert (Ew : fd_world s1 = fd_world s) by (subst s1; by destruct (_ =? 0)).
    wp_step. apply (wp_os_syscall (Malloc (4 * max'))); [by rewrite Ew| |by apply HX].
    intros w2 a S2 _. cbv zeta. apply steps_later in S2. rewrite Ew in S2.
    destruct a; [|by apply HX']. wp_step. cbn [fd_table put Lens_fd_world]. rewrite Et.
    assert (Hle : fd_table_max s <= max') by (destruct (_ =? 0) eqn:E in Hm1; bool_norm; lia).
    rewrite grow_table_ilp32 by done. apply wp_table_set.
    { cbn [fd_table with_table]. rewrite length_app, length_replicate. lia. }
    apply HQ. split; try (subst s1; by destruct (_ =? 0)).
    - exists (Z.to_nat (max' - fd_table_max s)). split; [done|]. simpl. lia.
    - simpl. destruct (_ =? 0) eqn:E in Hm1; bool_norm; lia.
    - simpl. destruct (_ =? 0) eqn:E in Hm3; bool_norm; lia.
    - subst s1. destruct (_ =? 0) eqn:E; bool_norm; [by right|by left]. }
  wp_step. destruct (_ =? 0); apply Hrest; done.
Qed.

Lemma wp_fdevent_register p f Q X s :
  table_wf s -> posix_state s -> fde_heap s !! p = Some f -> 0 <= fde_fd f <= 32000 ->
  (forall s', registers p (fde_fd f) s s' -> Q tt s') ->
  (forall x s', safe_stop x -> X x s') ->
  wp (fdevent_register 4 p) Q X s.
Proof.
  intros Hwf Hpx Hp Hfd HQ HX.
  apply (wp_register_any p f); [done|done|done|lia|lia|done|by intros; apply HX|by intros; apply HX].
Qed.

(** ** fdevent_install *)

(** Adding an active object under a free descriptor. *)
Lemma fd_ok_register s s' p f fd k :
  fd_ok s -> ~ registered s fd -> 0 <= fd < FD_SETSIZE -> p <> NULL -> p <> list_pending ->
  (forall g, obj s p = Some g -> active g = false) ->
  (forall q, obj s' q = if decide (q = p) then Some f else obj s q) ->
  fde_fd f = fd -> fde_state f = FDE_ACTIVE -> 0 <= fde_events f < 2 ^ 16 ->
  fd_table s' = <[Z.to_nat fd := Some p]> (fd_table s ++ replicate k (Some NULL)) ->
  fd_table_max s' = fd_table_max s + Z.of_nat k -> fd < fd_table_max s' -> 256 <= fd_table_max s' ->
  select_n s' = Z.max (select_n s) (fd + 1) ->
  read_fds s' = read_fds s -> write_fds s' = write_fds s -> error_fds s' = error_fds s ->
  fd_ok s'.
Proof.
  intros Hok Hfree Hfd Hp0 Hpl Hina Ho Ef Est Eev Et Em Hfit Hmin En Er Ew Ee.
  pose proof (ok_len s Hok) as Hlen. pose proof (ok_select s Hok) as Hsel.
  assert (Haf : active f = true) by (unfold active; by rewrite Est).
  assert (Hlt : (Z.to_nat fd < length (fd_table s ++ replicate k (Some NULL)))%nat)
    by (rewrite length_app, length_replicate; lia).
  assert (Hwatch : forall flag i, flag ∈ [FDE_READ; FDE_WRITE; FDE_ERROR] -> watched s' flag i <-> watched s flag i).
  { intros flag i Hfl. split; intros (q & g & Hq & Ha & Eg & Hh).
    - rewrite Ho in Hq. case_decide; [|by exists q, g]. injection Hq as <-. rewrite Est in Hh.
      rewrite !elem_of_cons, elem_of_nil in Hfl. by destruct Hfl as [->|[->|[->|[]]]].
    - exists q, g. rewrite Ho, decide_False; [done|]. intros ->. rewrite (Hina g Hq) in Ha. done. }
  split; rewrite ?Er, ?Ew, ?Ee.
  - rewrite Et, Em, length_insert, length_app, length_replicate. lia.
  - rewrite Et. apply Forall_insert; [|by eexists]. apply Forall_app. split; [apply Hok|].
    apply Forall_replicate. by eexists.
  - by right.
  - lia.
  - intros i q Hi Hq. rewrite Et in Hi. apply list_lookup_insert_Some in Hi as [(<- & [= <-] & _)|[Hne Hi]].
    + exists f. rewrite Ho, decide_True by done. split_and!; [done|lia|done].
    + apply lookup_app_Some in Hi as [Hi|[_ Hi]].
      * destruct (ok_table s Hok i q Hi Hq) as (g & Hg & Hgfd & Ha). exists g. rewrite Ho, decide_False; [done|].
        intros ->. rewrite (Hina g Hg) in Ha. done.
      * apply lookup_replicate in Hi as [[= ->] _]. done.
  - intros q g Hq Ha. rewrite Ho in Hq. case_decide as E.
    + injection Hq as <-. subst q. rewrite Ef. split_and!; [done|done|lia|lia|lia|].
      rewrite Et. by apply list_lookup_insert_eq.
    + destruct (ok_active s Hok q g Hq Ha) as (? & ? & Hr & ? & Ht). split_and!; [done|done|lia|lia|lia|].
      rewrite Et, list_lookup_insert_ne.
      * by apply lookup_app_l_Some.
      * intros E'. apply Hfree. exists q, g. split_and!; [done|done|]. lia.
  - intros q g Hq Hpe. rewrite Ho in Hq. case_decide; [injection Hq as <-; done|]. by eapply ok_pending.
  - intros q g Hq. rewrite Ho in Hq. case_decide; [injection Hq as <-; rewrite Est; done|]. by eapply ok_range.
  - intros i. rewrite (ok_read s Hok), Hwatch by set_solver. done.
  - intros i. rewrite (ok_write s Hok), Hwatch by set_solver. done.
  - intros i. rewrite (ok_error s Hok), Hwatch by set_solver. done.
Qed.

(** The object [fdevent_install] leaves. *)
Definition installed (fd : Z) (func : fd_func) (arg : ptr) : fdevent :=
  {| fde_next := NULL; fde_prev := NULL; fde_fd := fd; fde_force_eof := 0;
     fde_state := FDE_ACTIVE; fde_events := 0; fde_func := func; fde_arg := arg |}.

(** With no table there is nothing to watch. *)
Lemma no_table_no_watch s :
  fd_ok s -> fd_table_max s = 0 -> read_fds s = ∅ /\ write_fds s = ∅ /\ error_fds s = ∅.
Proof.
  intros Hok Hm. assert (Hno : forall flag i, ~ watched s flag i).
  { intros flag i (p & f & Hp & Ha & _). pose proof (ok_select s Hok).
    destruct (ok_active s Hok p f Hp Ha) as (_ & _ & ? & ? & _). lia. }
  split_and!; apply set_eq; intros i.
  - rewrite (ok_read s Hok). set_solver.
  - rewrite (ok_write s Hok). set_solver.
  - rewrite (ok_error s Hok). set_solver.
Qed.

Lemma not_pending_notin s pend p f :
  fd_inv s pend -> fde_heap s !! p = Some f -> pending f = false -> p ∉ pend.
Proof.
  intros Hi Hp Hn Hin%(inv_pend _ _ Hi). rewrite (obj_payload _ _ _ Hp) in Hin.
  destruct Hin as (g & [= <-] & Hg). change (pending f = true) in Hg. congruence.
Qed.

(** Objects appear and change, but who is pending stays the same. *)
Lemma fd_inv_swap s s' pend p f f' :
  fd_inv s pend -> fd_ok s' -> fde_heap s !! p = Some f -> pending f = false -> pending f' = false ->
  p <> list_pending -> fde_heap s' = <[p := f']> (fde_heap s) -> fd_inv s' pend.
Proof.
  intros Hi Hok' Hp Hn Hn' Hne Eh. pose proof (not_pending_notin _ _ _ _ Hi Hp Hn) as Hnin.
  destruct Hi as [Hok Hl Hpd]. split; [done| |].
  - eapply dll_frame; [exact Hl|]. intros q Hq. rewrite Eh, lookup_insert_ne; [done|]. set_solver.
  - intros q. rewrite Hpd. unfold obj. rewrite Eh. destruct (decide (p = q)) as [<-|].
    + rewrite lookup_insert_eq, Hp. simpl. split; intros (g & [= <-] & Hg); exfalso.
      * change (pending f = true) in Hg. congruence.
      * change (pending f' = true) in Hg. congruence.
    + by rewrite lookup_insert_ne.
Qed.

Lemma wp_fdevent_install p f0 fd func arg pend Q X s :
  fd_inv s pend -> posix_state s -> fde_heap s !! p = Some f0 -> active f0 = false ->
  p <> NULL -> p <> list_pending -> 0 <= fd < FD_SETSIZE -> ~ registered s fd ->
  (forall s', fd_inv s' pend -> fde_heap s' = <[p := installed fd func arg]> (fde_heap s) ->
     later (fd_world s) (fd_world s') -> SHELL_EXIT_NOTIFY_FD s' = SHELL_EXIT_NOTIFY_FD s -> Q tt s') ->
  (forall x s', safe_stop x -> X x s') ->
  wp (fdevent_install 4 p fd func arg) Q X s.
Proof.
  intros Hi Hpx Hp Hina Hp0 Hpl Hfd Hfree HQ HX. pose proof (inv_ok _ _ Hi) as Hok.
  assert (Hnp : pending f0 = false).
  { destruct (pending f0) eqn:E; [|done].
    pose proof (ok_pending s Hok p (payload f0) (obj_payload _ _ _ Hp) E) as Ha.
    change (active f0 = true) in Ha. congruence. }
  unfold fdevent_install. fold (installed fd func arg). set (g := installed fd func arg).
  wp_step. eapply wp_assign; [exact Hp|]. fold g.
  set (s1 := put (<[p := g]> (fde_heap s)) s).
  wp_step. apply (wp_os_syscall (Setfl fd O_NONBLOCK)); [done| |by apply HX].
  intros w2 a S2 _. apply steps_later in S2. set (s2 := put w2 s1).
  assert (Hp2 : fde_heap s2 !! p = Some g) by apply lookup_insert_eq.
  wp_step. eapply (wp_fdevent_register p g); [|by eapply later_posix|exact Hp2|simpl; unfold FD_SETSIZE in *; lia| |done].
  { destruct (fd_ok_wf s Hok). by split. }
  intros s3 [(k & Et3 & Em3) Hfit _ Eh3 En3 Eno3 Esets El3].
  change (fd_table s2) with (fd_table s) in Et3. change (fd_table_max s2) with (fd_table_max s) in Em3.
  assert (Hp3 : fde_heap s3 !! p = Some g) by (by rewrite Eh3).
  assert (Es3 : read_fds s3 = read_fds s /\ write_fds s3 = write_fds s /\ error_fds s3 = error_fds s).
  { destruct Esets as [Esets|(Hm0 & E1 & E2 & E3)]; [exact Esets|].
    destruct (no_table_no_watch s Hok Hm0) as (F1 & F2 & F3). by rewrite F1, F2, F3. }
  destruct Es3 as (Er3 & Ew3 & Ee3).
  unfold fdevent_connect. wp_step. wp_step. eapply wp_deref; [exact Hp3|]. wp_step. wp_step.
  set (s4 := if fde_fd g >=? select_n s3 then with_select_n (fde_fd g + 1) s3 else s3).
  enough (Hend : wp (f ← deref p; assign p (set_state (Z.lor (fde_state f) FDE_ACTIVE))) Q X s4).
  { unfold s4 in Hend. by destruct (fde_fd g >=? select_n s3); wp_step. }
  assert (E4 : fde_heap s4 = fde_heap s3 /\ fd_table s4 = fd_table s3 /\ fd_table_max s4 = fd_table_max s3 /\
    read_fds s4 = read_fds s3 /\ write_fds s4 = write_fds s3 /\ error_fds s4 = error_fds s3 /\
    fd_world s4 = fd_world s3 /\ SHELL_EXIT_NOTIFY_FD s4 = SHELL_EXIT_NOTIFY_FD s3 /\
    select_n s4 = Z.max (select_n s) (fd + 1)).
  { unfold s4. rewrite Z.geb_leb. change (select_n s) with (select_n s2). rewrite <- En3. simpl.
    destruct (Z.leb_spec (select_n s3) fd); simpl; split_and!; done || lia. }
  destruct E4 as (Eh4 & Et4 & Em4 & Er4 & Ew4 & Ee4 & Ewd4 & Eno4 & En4).
  wp_step. eapply wp_deref; [rewrite Eh4; exact Hp3|]. eapply wp_assign; [rewrite Eh4; exact Hp3|].
  change (set_state (Z.lor (fde_state g) FDE_ACTIVE) g) with g. rewrite Eh4, Eh3.
  cbn [s2 s1 fde_heap put Lens_fd_world Lens_fde_heap]. rewrite insert_insert_eq.
  assert (Hok5 : fd_ok (put (<[p := g]> (fde_heap s)) s4)).
  { eapply (fd_ok_register s _ p g fd k); try done; simpl; try congruence.
    - intros g' Hg'. rewrite (obj_payload _ _ _ Hp) in Hg'. injection Hg' as <-. exact Hina.
    - intros q. unfold obj. simpl. case_decide; [subst; by rewrite lookup_insert_eq|by rewrite lookup_insert_ne].
    - rewrite Et4. exact Et3.
    - rewrite Em4. apply Hfit.
    - rewrite Em4. apply Hfit. }
  apply HQ; [by eapply (fd_inv_swap s _ pend p f0 g)|done| |].
  - cbn [fd_world put Lens_fde_heap]. rewrite Ewd4. by etrans.
  - cbn [SHELL_EXIT_NOTIFY_FD put Lens_fde_heap]. by rewrite Eno4, Eno3.
Qed.

(** ** fdevent_remove *)

(** The scan of [fdevent_disconnect] finds the highest descriptor in use. *)
Lemma wp_last_used m a n Q X s :
  0 <= a -> (Z.to_nat a + m <= length (fd_table s))%nat -> Forall is_Some (fd_table s) ->
  (forall r, (r = n \/ a <= r < a + Z.of_nat m) ->
     (forall i p, fd_table s !! i = Some (Some p) -> p <> NULL -> a <= Z.of_nat i < a + Z.of_nat m -> Z.of_nat i <= r) ->
     Q r s) ->
  n < a \/ n = 0 ->
  wp (last_used (seqZ a (Z.of_nat m)) n) Q X s.
Proof.
  revert a n. induction m as [|m IH]; intros a n Ha Hlen Hin HQ Hn.
  { simpl. wp_step. apply HQ; [by left|]. intros; lia. }
  rewrite seqZ_cons by lia. cbn [last_used].
  destruct (lookup_lt_is_Some_2 (fd_table s) (Z.to_nat a) ltac:(lia)) as [x Hx].
  destruct (proj1 (Forall_lookup _ _) Hin _ _ Hx) as [p ->].
  wp_step. eapply wp_table_get; [done|exact Hx|].
  replace (Z.pred (Z.of_nat (S m))) with (Z.of_nat m) by lia. rewrite <- Z.add_1_r.
  apply IH; [lia|lia|done| |case_bool_decide; lia].
  intros r Hr Hmax. apply HQ; [case_bool_decide; lia|].
  intros i q Hi Hq Hr'. destruct (decide (Z.of_nat i = a)) as [Ea|].
  - rewrite <- Ea, Nat2Z.id, Hi in Hx. injection Hx as ->. rewrite bool_decide_true in Hr by done. lia.
  - apply (Hmax i q); [done|done|lia].
Qed.

(** Taking an object out of the table and the sets. *)
Lemma fd_ok_unregister s s' p f f' :
  fd_ok s -> obj s p = Some f -> active f = true ->
  (forall q, obj s' q = if decide (q = p) then Some f' else obj s q) ->
  active f' = false -> pending f' = false -> 0 <= fde_state f' < 2 ^ 16 -> 0 <= fde_events f' < 2 ^ 16 ->
  fd_table s' = <[Z.to_nat (fde_fd f) := Some NULL]> (fd_table s) -> fd_table_max s' = fd_table_max s ->
  0 <= select_n s' <= fd_table_max s ->
  (forall q g, q <> p -> obj s q = Some g -> active g = true -> fde_fd g < select_n s') ->
  read_fds s' = read_fds s ∖ {[fde_fd f]} -> write_fds s' = write_fds s ∖ {[fde_fd f]} ->
  error_fds s' = error_fds s ∖ {[fde_fd f]} ->
  fd_ok s'.
Proof.
  intros Hok Hp Ha Ho Ha' Hp' Hst Hev Et Em Hsel Hn Er Ew Ee.
  destruct (ok_active s Hok p f Hp Ha) as (Hp0 & _ & Hfd & _ & Ht).
  assert (Hother : forall q g, q <> p -> obj s q = Some g -> active g = true -> fde_fd g <> fde_fd f).
  { intros q g Hq Hg Hga E. apply Hq. by eapply (active_unique s q p g f). }
  assert (Hwatch : forall flag i, watched s' flag i <-> watched s flag i /\ i <> fde_fd f).
  { intros flag i. split.
    - intros (q & g & Hq & Hga & Eg & Hh). rewrite Ho in Hq. case_decide; [congruence|].
      split; [by exists q, g|]. rewrite <- Eg. by eapply Hother.
    - intros [(q & g & Hq & Hga & Eg & Hh) Hi]. exists q, g. rewrite Ho, decide_False; [done|].
      intros ->. rewrite Hp in Hq. injection Hq as <-. done. }
  split; rewrite ?Em.
  - rewrite Et, length_insert. apply Hok.
  - rewrite Et. apply Forall_insert; [apply Hok|by eexists].
  - apply Hok.
  - done.
  - intros i q Hi Hq. rewrite Et in Hi. apply list_lookup_insert_Some in Hi as [(_ & [= <-] & _)|[Hne Hi]]; [done|].
    destruct (ok_table s Hok i q Hi Hq) as (g & Hg & Hgfd & Hga). exists g. rewrite Ho, decide_False; [done|].
    intros ->. rewrite Hp in Hg. injection Hg as <-. rewrite Hgfd in Hne. lia.
  - intros q g Hq Hga. rewrite Ho in Hq. case_decide as E; [congruence|].
    destruct (ok_active s Hok q g Hq Hga) as (? & ? & Hr & ? & Htq).
    pose proof (Hother q g E Hq Hga). split_and!; [done|done|lia|lia|by eapply Hn|].
    rewrite Et, list_lookup_insert_ne; [done|lia].
  - intros q g Hq Hpe. rewrite Ho in Hq. case_decide; [congruence|]. by eapply ok_pending.
  - intros q g Hq. rewrite Ho in Hq. case_decide; [by injection Hq as <-|]. by eapply ok_range.
  - intros i. rewrite Er, Hwatch, <- (ok_read s Hok). set_solver.
  - intros i. rewrite Ew, Hwatch, <- (ok_write s Hok). set_solver.
  - intros i. rewrite Ee, Hwatch, <- (ok_error s Hok). set_solver.
Qed.

(** The calls of [fdevent_unregister]. *)
Definition closes (f : fdevent) (new : list event) : Prop :=
  if active f && negb (has (fde_state f) FDE_DONT_CLOSE)
  then exists a, new = [ev (Close (fde_fd f)) a] else new = [].

(** Both steps for an active object, in any state whose table and sets agree. *)
Lemma wp_disconnect_unregister p f Q X s :
  fd_ok s -> posix_state s -> fde_heap s !! p = Some f -> active f = true ->
  (forall s' new, fde_heap s' = fde_heap s -> steps (fd_world s) new (fd_world s') -> closes f new ->
     fd_table s' = <[Z.to_nat (fde_fd f) := Some NULL]> (fd_table s) -> fd_table_max s' = fd_table_max s ->
     0 <= select_n s' <= fd_table_max s ->
     (forall q g, q <> p -> obj s q = Some g -> active g = true -> fde_fd g < select_n s') ->
     read_fds s' = read_fds s ∖ {[fde_fd f]} -> write_fds s' = write_fds s ∖ {[fde_fd f]} ->
     error_fds s' = error_fds s ∖ {[fde_fd f]} ->
     SHELL_EXIT_NOTIFY_FD s' = SHELL_EXIT_NOTIFY_FD s -> Q tt s') ->
  (forall s', X Blocked s') ->
  wp (fdevent_disconnect p;; fdevent_unregister p) Q X s.
Proof.
  intros Hok Hpx Hp Ha HQ HX. pose proof (obj_payload _ _ _ Hp) as Hpo.
  destruct (ok_active s Hok p (payload f) Hpo Ha) as (_ & _ & Hfd & Hlt & Ht).
  change (fde_fd (payload f)) with (fde_fd f) in *.
  pose proof (ok_len s Hok) as Hlen. pose proof (ok_select s Hok) as Hsel.
  wp_step. unfold fdevent_disconnect. wp_step. eapply wp_deref; [exact Hp|]. wp_step. wp_step.
  wp_step. apply (wp_fd_bit false); [done|]. wp_step. apply (wp_fd_bit false); [done|].
  wp_step. apply (wp_fd_bit false); [done|]. wp_step. wp_step.
  change (id s) with s. set (s1 := with_fds _ _ _ s).
  wp_step. rewrite <- (Z2Nat.id (select_n s)) by lia.
  apply wp_last_used; [lia|simpl; lia|exact (ok_init s Hok)| |by right].
  intros r Hr Hmax. wp_step.
  unfold fdevent_unregister. wp_step. eapply wp_deref; [exact Hp|]. cbv zeta. wp_step. wp_step.
  case_cond; [bool_norm; simpl in *; lia|]. clear Heqb.
  wp_step. eapply wp_table_get; [lia|exact Ht|]. rewrite bool_decide_false by naive_solver.
  wp_step. apply wp_table_set; [simpl; lia|]. set (s2 := with_table _ _ _).
  assert (Hend : forall (w' : world) new, steps (fd_world s) new w' -> closes f new -> Q tt (put w' s2)).
  { intros w' new S Hc. eapply (HQ _ new); try done; simpl; [lia|].
    intros q g Hq Hg Hga. destruct (ok_active s Hok q g Hg Hga) as (Hq0 & _ & Hqf & Hql & Hqt).
    pose proof (Hmax _ _ Hqt Hq0). lia. }
  unfold closes in Hend. rewrite Ha in Hend. destruct (has (fde_state f) FDE_DONT_CLOSE).
  - wp_step. apply (Hend (fd_world s) []); [apply steps_refl|done].
  - wp_step. apply (wp_os_syscall (Close (fde_fd f))); [done| |done].
    intros w3 a S3 _. cbv zeta. wp_step. eapply Hend; [exact S3|]. by exists a.
Qed.

(** The object [fdevent_remove] leaves: not watched, not pending. *)
Definition removed (f : fdevent) : fdevent := set_events 0 (set_state 0 f).

Lemma payload_removed f g : payload f = payload g -> payload (removed f) = payload (removed g).
Proof. destruct f, g. unfold payload. simpl. by intros [= -> -> -> -> -> ->]. Qed.

Lemma filter_notin (p : ptr) (pend : list ptr) : p ∉ pend -> filter (.≠ p) pend = pend.
Proof.
  induction pend as [|x l IH]; intros H; [done|].
  rewrite filter_cons_True by set_solver. f_equal. apply IH. set_solver.
Qed.

(** The first step, for both cases: the object is out of the list. *)
Lemma wp_unlink_if_pending p f pend Q X s :
  fd_inv s pend -> fde_heap s !! p = Some f ->
  (forall h' g, dll h' list_pending (filter (.≠ p) pend) -> same_payload (fde_heap s) h' ->
     h' !! p = Some g -> payload g = payload f -> Q tt (put h' s)) ->
  wp (when (pending f) (fdevent_plist_remove p)) Q X s.
Proof.
  intros Hi Hp HQ. wp_step.
  - destruct (inv_split s pend p f Hi Hp H) as (xs & ys & -> & Ef). rewrite Ef in HQ.
    eapply wp_plist_remove; [apply Hi|]. intros h' Hl Hsp.
    destruct (same_payload_lookup _ _ _ _ Hsp Hp) as (g & Hg & Epg). by eapply HQ.
  - rewrite filter_notin in HQ by (by eapply not_pending_notin).
    assert (E : put (fde_heap s) s = s) by (by destruct s). rewrite <- E. by apply (HQ _ f (inv_list _ _ Hi)).
Qed.

(** The last step: the flags are cleared, which settles the pending list. *)
Lemma fd_inv_remove s s' pend p f :
  fd_inv s pend -> fd_ok s' -> dll (fde_heap s') list_pending (filter (.≠ p) pend) ->
  (forall q, obj s' q = if decide (q = p) then Some (payload (removed f)) else obj s q) ->
  fd_inv s' (filter (.≠ p) pend).
Proof.
  intros [Hok Hl Hpd] Hok' Hl' Ho. split; [done|done|]. intros q.
  rewrite list_elem_of_filter, Hpd, Ho. case_decide as E; [|naive_solver].
  split; [naive_solver|]. intros (g & [= <-] & Hg). done.
Qed.

Lemma wp_fdevent_remove p f pend Q X s :
  fd_inv s pend -> posix_state s -> fde_heap s !! p = Some f ->
  (forall s' new, fd_inv s' (filter (.≠ p) pend) ->
     (forall q, obj s' q = if decide (q = p) then Some (payload (removed f)) else obj s q) ->
     steps (fd_world s) new (fd_world s') -> closes f new ->
     SHELL_EXIT_NOTIFY_FD s' = SHELL_EXIT_NOTIFY_FD s -> Q tt s') ->
  (forall s', X Blocked s') ->
  wp (fdevent_remove p) Q X s.
Proof.
  intros Hi Hpx Hp HQ HX. pose proof (inv_ok _ _ Hi) as Hok. unfold fdevent_remove.
  wp_step. eapply wp_deref; [exact Hp|].
  wp_step. apply (wp_unlink_if_pending p f pend); [done|done|]. intros h1 g Hl1 Hsp1 Hg1 Epg.
  set (s1 := put h1 s).
  assert (Ho1 : forall q, obj s1 q = obj s q) by (intros q; by apply obj_same_payload).
  assert (Hok1 : fd_ok s1) by (by eapply (fd_ok_ext s)).
  assert (Hfin : forall s2, fde_heap s2 = h1 ->
    forall q, obj (put (<[p := removed g]> h1) s2) q = if decide (q = p) then Some (payload (removed f)) else obj s q).
  { intros s2 E2 q. rewrite <- E2. rewrite obj_put_insert. case_decide.
    - f_equal. by apply payload_removed.
    - rewrite <- Ho1. unfold obj. by rewrite E2. }
  assert (Hlfin : dll (<[p := removed g]> h1) list_pending (filter (.≠ p) pend)).
  { eapply dll_ext; [exact Hl1| |]; intros q; destruct (decide (p = q)) as [<-|];
      rewrite ?lookup_insert_eq, ?lookup_insert_ne, ?Hg1 by done; done. }
  assert (Eact : active g = active f) by exact (f_equal active Epg).
  assert (Eclose : closes g = closes f).
  { unfold closes. rewrite Eact. injection Epg as E1 _ E3 _ _ _. by rewrite E1, E3. }
  wp_step. fold (active f). wp_step.
  - apply (wp_disconnect_unregister p g); [done|done|done|congruence| |done].
    intros s2 new Eh2 S2 Hc Et2 Em2 Hsel2 Hn2 Er2 Ew2 Ee2 Eno2.
    eapply wp_assign; [rewrite Eh2; exact Hg1|]. rewrite Eh2. fold (removed g).
    pose proof (Hfin s2 Eh2) as Ho. apply (HQ _ new); [|done|done|by rewrite <- Eclose|done].
    eapply fd_inv_remove; [exact Hi| |exact Hlfin|exact Ho].
    eapply (fd_ok_unregister s1 _ p (payload g) (payload (removed f))); try done.
    + by apply obj_payload.
    + exact (eq_trans Eact H).
    + intros q. rewrite Ho, Ho1. done.
  - eapply wp_assign; [exact Hg1|]. fold (removed g). pose proof (Hfin s1 eq_refl) as Ho.
    apply (HQ _ []); [|done|apply steps_refl| |done].
    2:{ unfold closes. fold (active f) in *. by rewrite H. }
    eapply fd_inv_remove; [exact Hi| |exact Hlfin|exact Ho].
    eapply (fd_ok_update s1 _ p (payload g) (payload (removed g))); try done.
    + by apply obj_payload.
    + intros q. exact (obj_put_insert s1 p _ q).
    + change (active (payload g)) with (active g). by rewrite Eact, H.
    + by apply (inactive_ok (payload g) (fun _ => _) (fun fd => fd ∈ read_fds s)); change (active g = false); rewrite Eact.
    + by apply (inactive_ok (payload g) (fun _ => _) (fun fd => fd ∈ write_fds s)); change (active g = false); rewrite Eact.
    + by apply (inactive_ok (payload g) (fun _ => _) (fun fd => fd ∈ error_fds s)); change (active g = false); rewrite Eact.
Qed.

(** ** fdevent_create *)

Lemma fresh_addr_spec h : h !! fresh_addr h = None /\ fresh_addr h <> NULL /\ fresh_addr h <> list_pending.
Proof.
  unfold fresh_addr. pose proof (is_fresh (dom h ∪ {[NULL; list_pending]})) as Hf.
  rewrite !not_elem_of_union, !not_elem_of_singleton, not_elem_of_dom in Hf. naive_solver.
Qed.

(** A new object that is not registered yet. *)
Lemma fd_inv_alloc s pend p :
  fd_inv s pend -> fde_heap s !! p = None -> fd_inv (put (<[p := blank]> (fde_heap s)) s) pend.
Proof.
  intros [Hok Hl Hpd] Hp. set (s' := put _ s).
  assert (Hnone : obj s p = None) by (unfold obj; by rewrite Hp).
  assert (Ho : forall q, obj s' q = if decide (q = p) then Some blank else obj s q).
  { intros q. unfold s'. by rewrite obj_put_insert. }
  assert (Hact : forall q f, active f = true -> obj s' q = Some f <-> obj s q = Some f).
  { intros q f Ha. rewrite Ho. case_decide; [|done]. subst. rewrite Hnone. split; [by intros [= <-]|done]. }
  assert (Hw : forall flag i, watched s' flag i <-> watched s flag i).
  { intros flag i. unfold watched. split; intros (q & f & Hq & Ha & H); exists q, f; [rewrite <- Hact|rewrite Hact]; done. }
  split.
  - split; try apply Hok.
    + intros i q Hi Hq. destruct (ok_table s Hok i q Hi Hq) as (f & Hf & H1 & H2). exists f. by rewrite Hact.
    + intros q f Hq Ha. rewrite Hact in Hq by done. exact (ok_active s Hok q f Hq Ha).
    + intros q f Hq Hpe. rewrite Ho in Hq. case_decide; [by injection Hq as <-|]. exact (ok_pending s Hok q f Hq Hpe).
    + intros q f Hq. rewrite Ho in Hq. case_decide; [by injection Hq as <-|]. exact (ok_range s Hok q f Hq).
    + intros i. rewrite Hw. apply (ok_read s Hok).
    + intros i. rewrite Hw. apply (ok_write s Hok).
    + intros i. rewrite Hw. apply (ok_error s Hok).
  - eapply dll_frame; [exact Hl|]. intros q Hq. simpl. rewrite lookup_insert_ne; [done|].
    intros <-. destruct (dll_is_Some _ _ _ _ Hl Hq) as [t Ht]. congruence.
  - intros q. rewrite Hpd, Ho. case_decide as E; [|done]. subst. rewrite Hnone.
    split; [naive_solver|]. by intros (g & [= <-] & ?).
Qed.

Definition created (fd : Z) (func : fd_func) (arg : ptr) : fdevent :=
  set_state (Z.lor FDE_ACTIVE FDE_CREATED) (installed fd func arg).

Lemma wp_fdevent_create fd func arg pend Q X s :
  fd_inv s pend -> posix_state s -> 0 <= fd < FD_SETSIZE -> ~ registered s fd ->
  (forall p s', p <> NULL -> fde_heap s !! p = None -> fd_inv s' pend ->
     fde_heap s' = <[p := created fd func arg]> (fde_heap s) -> later (fd_world s) (fd_world s') ->
     SHELL_EXIT_NOTIFY_FD s' = SHELL_EXIT_NOTIFY_FD s -> Q p s') ->
  (forall w', later (fd_world s) w' -> Q NULL (put w' s)) ->
  (forall x s', safe_stop x -> X x s') ->
  wp (fdevent_create 4 fd func arg) Q X s.
Proof.
  intros Hi Hpx Hfd Hfree HQ HQ0 HX. unfold fdevent_create.
  wp_step. apply (wp_os_syscall (Malloc 32)); [done| |by apply HX].
  intros w1 a S1 _. cbv zeta. apply steps_later in S1. destruct a; [|wp_step; by apply HQ0].
  wp_step. wp_step. cbv zeta. set (p := fresh_addr _).
  destruct (fresh_addr_spec (fde_heap s)) as (Hp & Hp0 & Hpl). fold p in Hp, Hp0, Hpl.
  assert (Ep : fresh_addr (fde_heap (put w1 s)) = p) by done.
  wp_step. wp_step. set (s2 := put (<[p := blank]> (fde_heap (put w1 s))) (put w1 s)).
  assert (Hi2 : fd_inv s2 pend) by (by apply fd_inv_alloc; [apply fd_inv_world|]).
  assert (Hp2 : fde_heap s2 !! p = Some blank) by apply lookup_insert_eq.
  wp_step. eapply (wp_fdevent_install p blank); [exact Hi2|by eapply later_posix|exact Hp2|done|done|done|done| | |done].
  { intros (q & g & Hq & Ha & Eg). apply Hfree. exists q, g. split_and!; [|done|done].
    unfold s2 in Hq. rewrite obj_put_insert in Hq. case_decide; [by injection Hq as <-|done]. }
  intros s3 Hi3 Eh3 Hl3 Eno3. cbn [s2 fde_heap put Lens_fde_heap Lens_fd_world] in Eh3. rewrite insert_insert_eq in Eh3.
  assert (Hp3 : fde_heap s3 !! p = Some (installed fd func arg)) by (by rewrite Eh3, lookup_insert_eq).
  wp_step. eapply wp_deref; [exact Hp3|]. wp_step. eapply wp_assign; [exact Hp3|].
  fold (created fd func arg). wp_step. apply (HQ p); [done|done| | |by etrans|done].
  - eapply (fd_inv_assign s3 _ pend p); [exact Hi3| |exact Hp3|done|done|done|done].
    apply (fd_ok_restate s3 p (installed fd func arg)); [apply Hi3|done|done|done|done|done|done|].
    intros flag Hfl. rewrite !elem_of_cons, elem_of_nil in Hfl. by destruct Hfl as [->|[->|[->|[]]]].
  - simpl. by rewrite Eh3, insert_insert_eq.
Qed.

(** ** The whole loop *)

(** The state a process starts in. *)
Definition fd_boot (e : env) (n : nat) : fdstate :=
  {| fde_heap := {[ list_pending := {| fde_next := list_pending; fde_prev := list_pending; fde_fd := 0;
       fde_force_eof := 0; fde_state := 0; fde_events := 0; fde_func := client_func 0; fde_arg := NULL |} ]};
     fd_table := []; fd_table_max := 0; read_fds := ∅; write_fds := ∅; error_fds := ∅;
     select_n := 0; SHELL_EXIT_NOTIFY_FD := -1; fd_world := boot e n;
     rest := globals_boot |}.

Lemma fd_boot_obj e n p f : obj (fd_boot e n) p = Some f -> fde_state f = 0 /\ fde_events f = 0.
Proof.
  intros (f0 & H & <-)%obj_inv. simpl in H. apply lookup_singleton_Some in H as [_ <-]. done.
Qed.

Lemma fd_boot_inv e n : fd_inv (fd_boot e n) [].
Proof.
  assert (Hina : forall p f, obj (fd_boot e n) p = Some f -> active f = false /\ pending f = false).
  { intros p f [H _]%fd_boot_obj. unfold active, pending. by rewrite H. }
  assert (Hno : forall flag i, ~ watched (fd_boot e n) flag i).
  { intros flag i (p & f & H & Ha & _). apply Hina in H as [H _]. congruence. }
  split.
  - split; try done.
    + by left.
    + intros p f H Ha. apply Hina in H as [H _]. congruence.
    + intros p f H Ha. apply Hina in H as [_ H]. congruence.
    + intros p f H. apply fd_boot_obj in H as [-> ->]. done.
    + intros i. split; [set_solver|]. by intros H%Hno.
    + intros i. split; [set_solver|]. by intros H%Hno.
    + intros i. split; [set_solver|]. by intros H%Hno.
  - split; [apply NoDup_singleton|]. done.
  - intros p. split; [set_solver|]. intros (f & H & Hp). apply Hina in H as [_ H]. congruence.
Qed.
