(* ===== verification/FdeventSpec.v ===== *)
(** * What the event loop promises

    The theorems about [fdevent.c]: the loop as a whole, waiting, dispatch
    order, a change of interest, registration and removal, and the places
    where the code does not do what it means to. *)

From S2P Require Import Prelude Effects DList Os Sysdeps Wire Globals Fdevent FdeventFacts FdeventLoop FdeventReg.

(** ** Dispatch order *)

Section fifo.
(** Clients that only talk to the operating system. *)
Context (h : N -> Z -> Z -> ptr -> M world unit).

Definition os_client (id : N) (fd evs : Z) (arg : ptr) : F unit := os (h id fd evs arg).

(** The call an object asks for. *)
Definition deliver (f : fdevent) : M world unit :=
  match fde_func f with
  | client_func id => h id (fde_fd f) (fde_events f) (fde_arg f)
  | fdevent_subproc_event_func => skip
  end.

(** An object after its events have been delivered. *)
Definition idle (f : fdevent) : fdevent :=
  if pending f then set_state (clear (fde_state f) FDE_PENDING) (set_events 0 f) else f.

Definition is_client (f : fdevent) : Prop := exists id, fde_func f = client_func id.

Lemma wp_call_client s pend p f :
  fd_inv_but s pend p -> fde_heap s !! p = Some f -> is_client f ->
  wp (fdevent_call_fdfunc os_client p)
    (fun _ s' => deliver f (fd_world s) = (Done tt, fd_world s') /\ fd_inv s' pend /\
       forall q, obj s' q = if decide (q = p) then Some (payload (idle f)) else obj s q)
    (fun x s' => deliver f (fd_world s) = (Stop x, fd_world s')) s.
Proof.
  intros Hb Hp [id Eid]. pose proof (fd_inv_but_clear s pend p f Hb Hp) as Hi2. cbv zeta in Hi2.
  destruct (but_obj _ _ _ Hb) as (f' & Hp' & Hpend). assert (f' = f) by congruence. subst f'.
  apply (wp_eq _ (call_fdfunc os_client (S (budget s)) p)); [done|]. cbn [call_fdfunc].
  wp_step. eapply wp_deref; [exact Hp|]. cbv zeta. wp_step. eapply wp_assign; [exact Hp|].
  fold (pending f). rewrite Hpend. cbn [negb].
  wp_step. eapply wp_assign; [apply lookup_insert_eq|]. rewrite Eid.
  match type of Hi2 with fd_inv ?t _ => set (s2 := t) in * end.
  unfold os_client, os, deliver. rewrite Eid. unfold wp, zoom.
  change (view s2) with (fd_world s). destruct (h id (fde_fd f) (fde_events f) (fde_arg f) (fd_world s)) as [[[]|x] w'] eqn:E; [|done].
  split_and!; [done|by apply fd_inv_world|]. intros q.
  change (obj (put w' s2) q) with (obj s2 q). unfold s2. rewrite !obj_put_insert. unfold idle. rewrite Hpend.
  by case_decide.
Qed.

Lemma pending_idle f : 0 <= fde_state f < 2 ^ 16 -> pending (idle f) = false.
Proof.
  intros H. unfold idle. destruct (pending f) eqn:E; [|done].
  exact (proj1 (pending_clear (set_events 0 f) H)).
Qed.

Lemma idle_idem f : 0 <= fde_state f < 2 ^ 16 -> idle (idle f) = idle f.
Proof. intros H. unfold idle at 1. by rewrite pending_idle. Qed.

Lemma wp_drain_fifo n s pend :
  (length pend < n)%nat -> fd_inv s pend ->
  (forall p f, p ∈ pend -> obj s p = Some f -> is_client f) ->
  wp (drain_fuel os_client n)
    (fun _ s' => for_each (omap (obj s) pend) deliver (fd_world s) = (Done tt, fd_world s') /\
       fd_inv s' [] /\ forall q, obj s' q = idle <$> obj s q)
    (fun x s' => for_each (omap (obj s) pend) deliver (fd_world s) = (Stop x, fd_world s')) s.
Proof.
  revert s pend. induction n as [|n IH]; intros s pend Hn Hi Hcl; [lia|].
  cbn [drain_fuel]. wp_step. eapply wp_plist_dequeue; [apply Hi|].
  pose proof (inv_ok _ _ Hi) as Hok. destruct pend as [|x ys].
  { rewrite bool_decide_true by done. wp_step. split_and!; [done|done|]. intros q.
    destruct (obj s q) as [f|] eqn:Eq; [|done]. simpl. unfold idle. destruct (pending f) eqn:E; [|done].
    exfalso. apply (not_elem_of_nil q), (inv_pend _ _ Hi). eauto. }
  intros h' Hl Hsp. destruct (fd_inv_dequeue s x ys h' Hi Hl Hsp) as [Hb Hx].
  assert (Ho1 : forall q, obj (put h' s) q = obj s q) by (intros; by apply obj_same_payload).
  destruct (proj1 (inv_pend _ _ Hi x) ltac:(set_solver)) as (g & Hg & Hpg).
  destruct (obj_inv (put h' s) x g ltac:(by rewrite Ho1)) as (f & Hf & Epf).
  assert (Hcf : is_client f).
  { destruct (Hcl x g ltac:(set_solver) Hg) as [id Hid]. exists id. by rewrite <- Epf in Hid. }
  assert (Edf : deliver g = deliver f) by (by rewrite <- Epf).
  assert (Ecalls : omap (obj s) (x :: ys) = g :: omap (obj s) ys) by (simpl; by rewrite Hg).
  rewrite bool_decide_false by done. wp_step. rewrite Ecalls. cbn [for_each].
  eapply wp_mono; [apply (wp_call_client (put h' s) ys x f Hb Hf Hcf)| |].
  2:{ intros e s2 E. rewrite Edf. by apply bind_stop. }
  intros [] s2 (E & Hi2 & Ho2). change (fd_world (put h' s)) with (fd_world s) in E.
  assert (Ho : forall q, obj s2 q = if decide (q = x) then Some (idle g) else obj s q).
  { intros q. rewrite Ho2, Ho1. case_decide; [|done]. rewrite <- Epf. unfold idle.
    change (pending (payload f)) with (pending f). by destruct (pending f). }
  assert (Hxy : x ∉ ys).
  { destruct (inv_list _ _ Hi) as [Hnd _]. apply NoDup_cons in Hnd as [_ Hnd]. by apply NoDup_cons in Hnd as [? _]. }
  assert (Etail : omap (obj s2) ys = omap (obj s) ys).
  { apply list_omap_ext, Forall2_same_length_lookup. split; [done|]. intros i y z Hy Hz.
    assert (y = z) as -> by congruence. rewrite Ho, decide_False; [done|].
    intros ->. by apply Hxy, (list_elem_of_lookup_2 _ i). }
  assert (Hrun : (deliver g ≫= λ _ : (), for_each (omap (obj s) ys) deliver) (fd_world s) =
    for_each (omap (obj s2) ys) deliver (fd_world s2)).
  { rewrite Edf, Etail. exact (bind_done _ _ _ _ _ E). }
  rewrite Hrun. eapply wp_mono; [apply (IH s2 ys); [simpl in Hn; lia|done|]| |done].
  - intros p0 f0 Hin0 Hf0. apply (Hcl p0 f0); [set_solver|]. rewrite Ho, decide_False in Hf0; [done|].
    intros ->. done.
  - intros [] s3 (E3 & Hi3 & Ho3). split_and!; [done|done|]. intros q. rewrite Ho3, Ho. case_decide; [|done].
    subst q. rewrite Hg. simpl. f_equal. apply idle_idem. apply (ok_range s Hok x g Hg).
Qed.
End fifo.

(** ** The loop as a whole *)

Lemma wp_close_on_exec fd Q (X : stop -> world -> Prop) w :
  posix (w_env w) -> (forall w', later w w' -> Q tt w') -> (forall w', X Blocked w') ->
  wp (close_on_exec fd) Q X w.
Proof.
  intros Hp HQ HX. unfold close_on_exec. wp_step. apply (wp_syscall (Setfd fd FD_CLOEXEC)); [|done].
  intros w' a S _. wp_step. apply HQ. by eapply steps_later.
Qed.

(** The socket pair of the shell-exit notification, which [fdevent_loop] asks for
    first, fits an [fd_set] and is new: no object watches it yet. *)
Definition pair_fits (s : fdstate) : Prop :=
  match w_env (fd_world s) (w_hist (fd_world s)) Socketpair with
  | Ok (_, s1) => s1 < FD_SETSIZE /\ ~ registered s s1
  | Err _ => True
  end.

Lemma wp_adb_socketpair Q (X : stop -> world -> Prop) w :
  posix (w_env w) ->
  (forall s0 s1 w', w_env w (w_hist w) Socketpair = Ok (s0, s1) -> 0 <= s1 -> later w w' -> Q (Ok (s0, s1)) w') ->
  (forall e w', Q (Err e) w') -> (forall w', X Blocked w') ->
  wp adb_socketpair Q X w.
Proof.
  intros Hp HQ HE HX. unfold adb_socketpair. wp_step. apply (wp_syscall Socketpair); [|done].
  intros w1 a S1 _. pose proof (Hp (w_hist w) Socketpair) as Ha. fold a in Ha.
  apply steps_later in S1. pose proof (later_posix _ _ S1 Hp) as Hp1.
  destruct a as [[s0 s1]|e] eqn:Ea; [|wp_step; by apply HE]. simpl in Ha.
  wp_step. apply wp_close_on_exec; [done| |done]. intros w2 S2. pose proof (later_posix _ _ S2 Hp1) as Hp2.
  wp_step. apply wp_close_on_exec; [done| |done]. intros w3 S3. wp_step.
  apply HQ; [done|lia|]. etrans; [exact S1|]. by etrans.
Qed.

Lemma wp_subproc_setup Q X s pend :
  fd_inv s pend -> posix_state s -> pair_fits s ->
  (forall s' pend', fd_inv s' pend' -> posix_state s' -> Q tt s') ->
  (forall x s', safe_stop x -> X x s') ->
  wp (fdevent_subproc_setup 4) Q X s.
Proof.
  intros Hi0 Hp Hs HQ HX. unfold fdevent_subproc_setup. wp_step. apply wp_zoom.
  apply wp_adb_socketpair; [done| |by intros; apply HX|by intros; apply HX].
  intros s0 s1 w1 E Hs1 Hl1. unfold pair_fits in Hs. rewrite (E : w_env (fd_world s) (w_hist (fd_world s)) Socketpair = _) in Hs. destruct Hs as [Hlt Hfree].
  wp_step. wp_step. wp_step. set (s2 := with_notify_fd s0 _).
  assert (Hi : fd_inv s2 pend).
  { pose proof (fd_inv_world w1 _ _ Hi0) as [H1 H2 H3]. split; [by eapply fd_ok_ext|done|done]. }
  apply (wp_fdevent_create s1 fdevent_subproc_event_func NULL pend);
    [exact Hi|by eapply later_posix|done|exact Hfree| | |done].
  - intros p s3 Hp0 _ Hi3 Eh3 Hl3 _. rewrite bool_decide_false by done.
    assert (Hp3 : fde_heap s3 !! p = Some (created s1 fdevent_subproc_event_func NULL)) by (by rewrite Eh3, lookup_insert_eq).
    eapply wp_fdevent_add; [exact Hi3|exact Hp3|done|]. intros s4 Hi4 Hf4 _. eapply HQ; [done|].
    rewrite (frame_world _ _ Hf4). eapply later_posix; [exact Hl3|]. by eapply later_posix.
  - intros w3 Hl3. rewrite bool_decide_true by done. by apply HX.
Qed.

(** C1: The event loop never returns and never gets stuck.  It is started in any
    state of the table that keeps the invariant, with any objects registered,
    watched and pending, and runs whatever functions they were registered with;
    it stops only where the code aborts or a system call does not return: no
    dangling or null pointer is followed, no [fd_set] or table access is out of
    range, no uninitialised table entry is read, and neither the deliver recursion
    nor the drain of the pending list runs for ever.  The platform has 4-byte
    pointers, the operating system behaves as POSIX says, the notification socket
    is a new descriptor below FD_SETSIZE, and the registered functions keep the
    invariant ([Handlers]). *)
Theorem fdevent_loop_never_stuck client `{!Handlers client} (s : fdstate) (pend : list ptr) :
  fd_inv s pend -> posix_state s -> pair_fits s ->
  wp (fdevent_loop 4 client) (fun _ _ => False) (fun x _ => safe_stop x) s.
Proof.
  intros Hi0 Hp Hs. unfold fdevent_loop. wp_step.
  apply (wp_subproc_setup _ _ s pend); [done|done|done| |done]. intros s' pend0 Hi Hpx.
  apply (wp_loop (fun _ s => (exists pend, fd_inv s pend) /\ posix_state s)); [eauto|].
  intros _ s1 [[pend1 Hi'] Hpx']. wp_step.
  eapply wp_mono; [by apply (wp_loop_turn client s1 pend1)| |done].
  intros [] s2 (Hi2 & Hl2 & Hb2). wp_step. split_and!; [eauto|by eapply later_posix|done].
Qed.

(** A client that reads its descriptor and leaves the loop at end of file. *)
Definition reader (id : N) (fd evs : Z) (arg : ptr) : F unit :=
  r ← os (adb_read fd 4);
  match r with
  | Ok [] =>
      h ← gets fde_heap;
      match h !! arg with
      | Some _ => fdevent_remove arg
      | None => skip
      end
  | _ => skip
  end.

#[global] Instance reader_handlers : Handlers reader.
Proof.
  intros id fd evs arg s pend Hi Hpx. unfold reader. wp_step.
  eapply ospec_os; [apply ospec_adb_read|done| |by intros x new w' [-> _]].
  intros a new w' S _. apply steps_later in S.
  assert (Hh : handled s pend (put w' s)) by (exists pend; split_and!; [done|by apply fd_inv_world|done]).
  destruct a as [[|b bs]|]; [|by wp_step|by wp_step]. wp_step. wp_step.
  destruct (fde_heap (put w' s) !! arg) as [f|] eqn:E; [|by wp_step].
  eapply wp_fdevent_remove; [by apply fd_inv_world|by eapply later_posix|exact E| |done].
  intros s2 new2 Hi2 _ S2 _ _. apply steps_later in S2. exists (filter (.≠ arg) pend).
  split_and!; [apply sublist_filter|done|by etrans].
Qed.

(** ** A concrete state: one client of descriptor 5, interested in reading *)

Definition demo : F ptr := p ← fdevent_create 4 5 (client_func 7) NULL; fdevent_set p FDE_READ;; mret p.

Definition demo_boot : fdstate := fd_boot ready_env 50.

Definition demo_ptr : ptr := fresh_addr (fde_heap demo_boot).

Definition demo_state : fdstate := (demo demo_boot).2.

Lemma wp_demo : wp demo (fun _ s' => fd_inv s' [] /\ posix_state s') (fun _ _ => True) demo_boot.
Proof.
  unfold demo. wp_step.
  apply (wp_fdevent_create 5 (client_func 7) NULL []); [apply fd_boot_inv|exact ready_env_posix|done| | |by intros|done].
  - intros (p & f & Hf & Ha & _). apply fd_boot_obj in Hf as [Hf _]. unfold active in Ha. by rewrite Hf in Ha.
  - intros p s1 _ _ Hi1 Eh1 Hl1 _. wp_step.
    eapply wp_fdevent_set; [exact Hi1|rewrite Eh1; apply lookup_insert_eq|].
    intros s2 Hi2 Hf2 _. wp_step. split.
    + by destruct (_.2) in Hi2.
    + rewrite (frame_world _ _ Hf2). eapply later_posix; [exact Hl1|exact ready_env_posix].
Qed.

Lemma demo_inv : fd_inv demo_state [].
Proof. by apply (wp_Done demo _ _ demo_boot demo_ptr wp_demo). Qed.

Lemma demo_posix : posix_state demo_state.
Proof. by apply (wp_Done demo _ _ demo_boot demo_ptr wp_demo). Qed.

Definition demo_obj : fdevent :=
  {| fde_next := NULL; fde_prev := NULL; fde_fd := 5; fde_force_eof := 0;
     fde_state := 0x0501; fde_events := 0; fde_func := client_func 7; fde_arg := NULL |}.

Lemma demo_lookup : fde_heap demo_state !! demo_ptr = Some demo_obj.
Proof. by vm_compute. Qed.

(** The loop with the client of descriptor 5 registered and, as [select] always
    reports it, called again and again. *)
Lemma demo_pair_fits : pair_fits demo_state.
Proof.
  unfold pair_fits. change (w_env (fd_world demo_state) (w_hist (fd_world demo_state)) Socketpair)
    with (ready_env (w_hist (fd_world demo_state)) Socketpair). simpl. split; [done|].
  intros (p & f & (f0 & Hf & <-)%obj_inv & _ & E).
  assert (Hall : map_Forall (fun _ g => fde_fd g <> 4) (fde_heap demo_state)).
  { apply (bool_decide_unpack _). vm_compute. done. }
  by apply (Hall p f0 Hf).
Qed.

Lemma fdevent_loop_never_stuck_witness :
  fde_heap demo_state !! demo_ptr = Some demo_obj /\
  wp (fdevent_loop 4 reader) (fun _ _ => False) (fun x _ => safe_stop x) demo_state.
Proof.
  split; [exact demo_lookup|].
  apply (fdevent_loop_never_stuck reader demo_state []); [exact demo_inv|exact demo_posix|exact demo_pair_fits].
Defined.

(** ** Waiting *)

(** C8: [fdevent_process] hands [select] exactly the watched descriptors and
    turns its answer into events: every object whose descriptor was reported
    gets the reported events added to its own and becomes pending, objects that
    were not pending join the end of the pending list once, in the order of
    their descriptors, and no other object changes.  The count that ends its
    loop early never cuts it short, and it never aborts on a descriptor without
    an object: it only ever stops to wait. *)
Theorem fdevent_process_delivers (s : fdstate) (pend : list ptr) (n : Z) (r w x : gset Z) :
  fd_inv s pend -> posix_state s -> 0 < n ->
  w_env (fd_world s) (w_hist (fd_world s)) (select_call s) = Ok (n, (r, w, x)) ->
  wp fdevent_process
    (fun _ s' =>
       fd_inv s' (pend ++ ready (fun i => ev_of r w x i) s (seqZ 0 (select_n s))) /\
       (forall p f, obj s p = Some f ->
          obj s' p = Some (if active f && negb (ev_of r w x (fde_fd f) =? 0)
                           then marked (ev_of r w x (fde_fd f)) f else f)) /\
       same_config s s')
    (fun e _ => e = Blocked) s.
Proof.
  intros Hi Hpx Hn Ea. eapply wp_fdevent_process; [exact Hi|done| |done].
  intros e s' Hrep Hi' Ho' Hc _. rewrite Ea in Hrep. simpl in Hrep. rewrite (proj2 (Z.gtb_lt n 0)) in Hrep by done.
  split_and!; [|intros p f Hp|done].
  - by rewrite (ready_ext e (fun i => ev_of r w x i)) in Hi'.
  - rewrite Ho', Hp. simpl. f_equal. unfold mark. destruct (active f) eqn:Ha; [|done]. rewrite Hrep.
    destruct (ok_active s (inv_ok _ _ Hi) p f Hp Ha) as (_ & _ & ? & ? & _).
    rewrite bool_decide_true by (apply elem_of_seqZ; lia). done.
Qed.

Lemma demo_select :
  w_env (fd_world demo_state) (w_hist (fd_world demo_state)) (select_call demo_state) = Ok (1, ({[5]}, ∅, ∅)).
Proof. vm_compute. reflexivity. Qed.

Lemma demo_ready : ready (fun i => ev_of {[5]} ∅ ∅ i) demo_state (seqZ 0 (select_n demo_state)) = [demo_ptr].
Proof. vm_compute. reflexivity. Qed.

Lemma fdevent_process_delivers_witness :
  ready (fun i => ev_of {[5]} ∅ ∅ i) demo_state (seqZ 0 (select_n demo_state)) = [demo_ptr] /\
  wp fdevent_process
    (fun _ s' => fd_inv s' ([] ++ ready (fun i => ev_of {[5]} ∅ ∅ i) demo_state (seqZ 0 (select_n demo_state))) /\
       (forall p f, obj demo_state p = Some f ->
          obj s' p = Some (if active f && negb (ev_of {[5]} ∅ ∅ (fde_fd f) =? 0)
                           then marked (ev_of {[5]} ∅ ∅ (fde_fd f)) f else f)) /\
       same_config demo_state s')
    (fun e _ => e = Blocked) demo_state.
Proof.
  split; [exact demo_ready|].
  exact (fdevent_process_delivers demo_state [] 1 {[5]} ∅ ∅ demo_inv demo_posix eq_refl demo_select).
Defined.

(** ** Dispatch *)

Section fifo_theorem.
Context (h : N -> Z -> Z -> ptr -> M world unit).

(** The drain of the pending list calls the function of every pending
    object exactly once, in the order the objects became pending, each with its
    descriptor, the events recorded for it and its argument, and leaves the
    list empty with the events and pending bits of those objects cleared.  It
    always terminates; if a client's function stops the program, it stops
    there.  (For clients that only talk to the operating system.) *)
Theorem drain_calls_in_order (s : fdstate) (pend : list ptr) :
  fd_inv s pend -> (forall p f, p ∈ pend -> obj s p = Some f -> is_client f) ->
  wp (drain (os_client h))
    (fun _ s' => for_each (omap (obj s) pend) (deliver h) (fd_world s) = (Done tt, fd_world s') /\
       fd_inv s' [] /\ forall q, obj s' q = idle <$> obj s q)
    (fun x s' => for_each (omap (obj s) pend) (deliver h) (fd_world s) = (Stop x, fd_world s')) s.
Proof.
  intros Hi Hcl. apply (wp_eq _ (drain_fuel (os_client h) (S (size (fde_heap s))))); [done|].
  apply wp_drain_fifo; [by apply pend_length|done|done].
Qed.
End fifo_theorem.

Definition busy_state : fdstate := (fdevent_process demo_state).2.

Lemma wp_busy : wp fdevent_process (fun _ s' => fd_inv s' [demo_ptr]) (fun _ _ => True) demo_state.
Proof.
  eapply wp_fdevent_process; [exact demo_inv|exact demo_posix| |done].
  intros e s' Hrep Hi _ _ _. rewrite demo_select in Hrep.
  change (forall i, e i = ev_of {[5]} ∅ ∅ i) in Hrep.
  rewrite (ready_ext e (fun i => ev_of {[5]} ∅ ∅ i)), demo_ready in Hi by done. exact Hi.
Qed.

Lemma busy_inv : fd_inv busy_state [demo_ptr].
Proof. exact (wp_Done fdevent_process _ _ demo_state tt wp_busy eq_refl). Qed.

Definition echo (id : N) (fd evs : Z) (arg : ptr) : M world unit := syscall (Write fd [evs]);; skip.

Definition busy_obj : fdevent :=
  {| fde_next := list_pending; fde_prev := list_pending; fde_fd := 5; fde_force_eof := 0;
     fde_state := 0x0701; fde_events := 1; fde_func := client_func 7; fde_arg := NULL |}.

Lemma busy_lookup : fde_heap busy_state !! demo_ptr = Some busy_obj.
Proof. by vm_compute. Qed.

Lemma busy_client : forall p f, p ∈ [demo_ptr] -> obj busy_state p = Some f -> is_client f.
Proof.
  intros p f Hp. apply list_elem_of_singleton in Hp. subst p. rewrite (obj_payload _ _ _ busy_lookup).
  intros [= <-]. by exists 7%N.
Qed.

Lemma drain_calls_in_order_witness :
  wp (drain (os_client echo))
    (fun _ s' => for_each (omap (obj busy_state) [demo_ptr]) (deliver echo) (fd_world busy_state) = (Done tt, fd_world s') /\
       fd_inv s' [] /\ forall q, obj s' q = idle <$> obj busy_state q)
    (fun x s' => for_each (omap (obj busy_state) [demo_ptr]) (deliver echo) (fd_world busy_state) = (Stop x, fd_world s'))
    busy_state.
Proof. exact (drain_calls_in_order echo busy_state [demo_ptr] busy_inv busy_client). Defined.

(** ** Changing the events of interest *)

Lemma has_eventmask events k : 0 <= k < 8 -> has (Z.land events FDE_EVENTMASK) (2 ^ k) = has events (2 ^ k).
Proof.
  intros Hk. rewrite !has_pow2 by lia. bits_norm.
  change FDE_EVENTMASK with (Z.ones 8). rewrite Z.ones_spec_low by lia. apply andb_true_r.
Qed.

Lemma land_clear_pending st :
  Z.land (clear st FDE_PENDING) FDE_EVENTMASK = Z.land st FDE_EVENTMASK.
Proof.
  unfold clear. rewrite <- !Z.land_assoc. f_equal.
Qed.

Lemma set_outcome_mask f events : 0 <= fde_state f < 2 ^ 16 ->
  let f' := (set_outcome f events).1 in
  Z.land (fde_state f') FDE_EVENTMASK = Z.land events FDE_EVENTMASK /\
  active f' = active f /\ fde_fd f' = fde_fd f.
Proof.
  intros Hst. unfold set_outcome. pose proof (land_eventmask_range events) as Hev.
  revert Hev. generalize (Z.land events FDE_EVENTMASK) as ev. intros ev Hev.
  destruct (Z.eqb_spec (Z.land (fde_state f) FDE_EVENTMASK) ev) as [E|]; [done|].
  set (f1 := set_state (new_state (fde_state f) ev) f).
  pose proof (new_state_range _ _ Hst Hev) as Hns.
  assert (E1 : fde_state f1 = new_state (fde_state f) ev) by (by apply u16_small).
  assert (M1 : Z.land (fde_state f1) FDE_EVENTMASK = ev) by (rewrite E1; by apply state_split).
  assert (A1 : active f1 = active f) by (by apply active_new_state).
  destruct (pending f); cbn [negb]; [|done].
  set (f2 := set_events _ f1). destruct (fde_events f2 =? 0); [|done]. cbn [fst].
  assert (H2 : 0 <= fde_state f2 < 2 ^ 16) by (change (fde_state f2) with (fde_state f1); by rewrite E1).
  split_and!; [|exact (eq_trans (proj2 (pending_clear f2 H2)) A1)|done].
  change (fde_state (set_state (clear (fde_state f2) FDE_PENDING) f2)) with (u16 (clear (fde_state f2) FDE_PENDING)).
  rewrite u16_small by (by apply land_u16_range). by rewrite land_clear_pending.
Qed.

(** [fdevent_set] replaces the events of interest of one object by the
    given ones and nothing else of the loop's view: for an active object, its
    descriptor is afterwards in the read, write and error set handed to
    [select] exactly as the mask says, the invariant holds, every other object
    is unchanged, and no system call is made. *)
Theorem fdevent_set_watches (s : fdstate) (pend : list ptr) (p : ptr) (f : fdevent) (events : Z) :
  fd_inv s pend -> fde_heap s !! p = Some f ->
  wp (fdevent_set p events)
    (fun _ s' => exists f', obj s' p = Some f' /\
       Z.land (fde_state f') FDE_EVENTMASK = Z.land events FDE_EVENTMASK /\
       active f' = active f /\ fde_fd f' = fde_fd f /\
       (active f = true ->
          (fde_fd f ∈ read_fds s' <-> has events FDE_READ = true) /\
          (fde_fd f ∈ write_fds s' <-> has events FDE_WRITE = true) /\
          (fde_fd f ∈ error_fds s' <-> has events FDE_ERROR = true)) /\
       (exists pend', pend' `sublist_of` pend /\ fd_inv s' pend') /\
       (forall q, q <> p -> obj s' q = obj s q) /\ fd_world s' = fd_world s)
    (fun _ _ => False) s.
Proof.
  intros Hi Hp. eapply wp_fdevent_set; [exact Hi|exact Hp|]. intros s' Hi' Hf Ho.
  destruct (set_outcome_mask f events (ok_state s p f (inv_ok _ _ Hi) Hp)) as (Hm & Ha & Hfd).
  set (f' := payload (set_outcome f events).1). pose proof (inv_ok _ _ Hi') as Hok'.
  assert (Hp' : obj s' p = Some f') by (by rewrite Ho, decide_True).
  assert (Hw : forall k, 0 <= k < 8 -> active f = true ->
    watched s' (2 ^ k) (fde_fd f) <-> has events (2 ^ k) = true).
  { intros k Hk Hact. rewrite <- (has_eventmask events k), <- Hm, has_eventmask by done.
    rewrite <- Hfd. apply (watched_iff s' p f'); [done|done|]. exact (eq_trans Ha Hact). }
  exists f'. split_and!; [done|exact Hm|exact Ha|exact Hfd| | | |apply Hf].
  - intros Hact. rewrite (ok_read s' Hok'), (ok_write s' Hok'), (ok_error s' Hok').
    split_and!; [apply (Hw 0)|apply (Hw 1)|apply (Hw 2)]; done.
  - eexists. split; [|exact Hi']. destruct (_.2); [apply sublist_filter|done].
  - intros q Hq. by rewrite Ho, decide_False.
Qed.

Lemma fdevent_set_watches_witness :
  wp (fdevent_set demo_ptr FDE_WRITE)
    (fun _ s' => exists f', obj s' demo_ptr = Some f' /\
       Z.land (fde_state f') FDE_EVENTMASK = Z.land FDE_WRITE FDE_EVENTMASK /\
       active f' = active demo_obj /\ fde_fd f' = fde_fd demo_obj /\
       (active demo_obj = true ->
          (fde_fd demo_obj ∈ read_fds s' <-> has FDE_WRITE FDE_READ = true) /\
          (fde_fd demo_obj ∈ write_fds s' <-> has FDE_WRITE FDE_WRITE = true) /\
          (fde_fd demo_obj ∈ error_fds s' <-> has FDE_WRITE FDE_ERROR = true)) /\
       (exists pend', pend' `sublist_of` [] /\ fd_inv s' pend') /\
       (forall q, q <> demo_ptr -> obj s' q = obj demo_state q) /\ fd_world s' = fd_world demo_state)
    (fun _ _ => False) demo_state.
Proof. exact (fdevent_set_watches demo_state [] demo_ptr demo_obj FDE_WRITE demo_inv demo_lookup). Defined.

(** ** Removal *)

(** [fdevent_remove] takes an object out of everything: it is no longer
    pending, its descriptor is unregistered and in none of the sets, its state
    is cleared; the other pending objects keep their order.  The descriptor of
    an active object is closed exactly once, unless FDE_DONT_CLOSE is set, and
    no other call is made. *)
Theorem fdevent_remove_complete (s : fdstate) (pend : list ptr) (p : ptr) (f : fdevent) :
  fd_inv s pend -> posix_state s -> fde_heap s !! p = Some f ->
  wp (fdevent_remove p)
    (fun _ s' => fd_inv s' (filter (.≠ p) pend) /\
       obj s' p = Some (payload (removed f)) /\
       (forall q, q <> p -> obj s' q = obj s q) /\
       (active f = true -> ~ registered s' (fde_fd f) /\
          fde_fd f ∉ read_fds s' ∪ write_fds s' ∪ error_fds s') /\
       exists new, steps (fd_world s) new (fd_world s') /\ closes f new)
    (fun x _ => x = Blocked) s.
Proof.
  intros Hi Hpx Hp. eapply wp_fdevent_remove; [exact Hi|done|exact Hp| |done].
  intros s' new Hi' Ho S Hc _. pose proof (inv_ok _ _ Hi) as Hok. pose proof (inv_ok _ _ Hi') as Hok'.
  assert (Hreg : active f = true -> ~ registered s' (fde_fd f)).
  { intros Ha (q & g & Hq & Hga & Eg). rewrite Ho in Hq. case_decide as E; [by injection Hq as <-|].
    apply E. exact (active_unique s q p g (payload f) Hok Hq (obj_payload _ _ _ Hp) Hga Ha Eg). }
  split_and!; [done|by rewrite Ho, decide_True|intros q Hq; by rewrite Ho, decide_False| |eauto].
  intros Ha. split; [by apply Hreg|]. rewrite !elem_of_union, (ok_read s' Hok'), (ok_write s' Hok'), (ok_error s' Hok').
  intros [[H|H]|H]; apply (Hreg Ha); by eapply select_registered.
Qed.

Lemma fdevent_remove_complete_witness :
  wp (fdevent_remove demo_ptr)
    (fun _ s' => fd_inv s' (filter (.≠ demo_ptr) [demo_ptr]) /\
       obj s' demo_ptr = Some (payload (removed busy_obj)) /\
       (forall q, q <> demo_ptr -> obj s' q = obj busy_state q) /\
       (active busy_obj = true -> ~ registered s' (fde_fd busy_obj) /\
          fde_fd busy_obj ∉ read_fds s' ∪ write_fds s' ∪ error_fds s') /\
       exists new, steps (fd_world busy_state) new (fd_world s') /\ closes busy_obj new)
    (fun x _ => x = Blocked) busy_state.
Proof.
  exact (fdevent_remove_complete busy_state [demo_ptr] demo_ptr busy_obj busy_inv ready_env_posix busy_lookup).
Defined.

(** ** Registration *)

(** [fdevent_register] accepts a descriptor up to 32000 and puts the object
    at its index of a table that is grown to hold it, fully initialised and
    never larger than 64000 entries; it refuses a negative descriptor, and one
    beyond 32000 that the table does not already cover, by aborting with its
    message.  (4-byte pointers.) *)
Theorem fdevent_register_bounds (s : fdstate) (p : ptr) (f : fdevent) :
  table_wf s -> posix_state s -> fd_table_max s <= 64000 -> fde_heap s !! p = Some f ->
  wp (fdevent_register 4 p)
    (fun _ s' => table_wf s' /\ 0 <= fde_fd f < fd_table_max s' /\ fd_table_max s' <= 64000 /\
       fd_table s' !! Z.to_nat (fde_fd f) = Some (Some p) /\ fde_heap s' = fde_heap s)
    (fun x s' => x = Blocked \/ x = Abort "could not expand fd_table" \/
       (x = Abort "bogus negative fd" /\ fde_fd f < 0) \/
       (x = Abort "bogus huuuuge fd" /\ 32000 < fde_fd f /\ fd_table_max s <= fde_fd f)) s.
Proof.
  intros Hwf Hpx Hmax Hp. destruct (decide (fde_fd f < 0)) as [Hneg|Hpos].
  { unfold fdevent_register. wp_step. eapply wp_deref; [exact Hp|]. cbv zeta.
    rewrite (proj2 (Z.ltb_lt _ _)) by done. right; right; left. done. }
  destruct (decide (fd_table_max s <= fde_fd f /\ 32000 < fde_fd f)) as [[Hm Hhuge]|Hin].
  { unfold fdevent_register. wp_step. eapply wp_deref; [exact Hp|]. cbv zeta.
    rewrite (proj2 (Z.ltb_ge _ _)) by lia. wp_step. wp_step. wp_step.
    rewrite Z.geb_leb, (proj2 (Z.leb_le _ _)) by lia. rewrite Z.gtb_ltb, (proj2 (Z.ltb_lt _ _)) by lia.
    right; right; right. done. }
  apply (wp_register_any p f); [done|done|done|lia|lia| |by left|by right; left].
  intros s' [(k & Et & Em) Hfit Hb Eh _ _ _ _]. destruct Hwf as [Hl Hini Hsz].
  assert (Hlen : Z.of_nat (length (fd_table s')) = fd_table_max s').
  { rewrite Et, length_insert, length_app, length_replicate. lia. }
  split_and!; [split; [done| |right; lia]|lia|lia|lia| |done].
  - rewrite Et. apply Forall_insert; [|by eexists]. apply Forall_app. split; [done|].
    apply Forall_replicate. by eexists.
  - rewrite Et. apply list_lookup_insert_eq. rewrite <- (length_insert _ (Z.to_nat (fde_fd f)) (Some p)), <- Et. lia.
Qed.

Lemma fdevent_register_bounds_witness :
  wp (fdevent_register 4 demo_ptr)
    (fun _ s' => table_wf s' /\ 0 <= fde_fd demo_obj < fd_table_max s' /\ fd_table_max s' <= 64000 /\
       fd_table s' !! Z.to_nat (fde_fd demo_obj) = Some (Some demo_ptr) /\ fde_heap s' = fde_heap demo_state)
    (fun x s' => x = Blocked \/ x = Abort "could not expand fd_table" \/
       (x = Abort "bogus negative fd" /\ fde_fd demo_obj < 0) \/
       (x = Abort "bogus huuuuge fd" /\ 32000 < fde_fd demo_obj /\ fd_table_max demo_state <= fde_fd demo_obj))
    demo_state.
Proof.
  assert (Hm : fd_table_max demo_state <= 64000) by (by vm_compute).
  exact (fdevent_register_bounds demo_state demo_ptr demo_obj (fd_ok_wf _ (inv_ok _ _ demo_inv)) demo_posix Hm demo_lookup).
Defined.

(** ** Where the code does not do what it means to *)

(** [fdevent_set] on a pending object keeps the recorded events that are
    NOT of interest and drops exactly the ones the caller asks for, the
    opposite of its comment ("if we are pending, make sure we don't signal an
    event that is no longer wanted"): after it, no wanted event is left in the
    object. *)
Theorem fdevent_set_drops_wanted (s : fdstate) (pend : list ptr) (p : ptr) (f : fdevent) (events k : Z) :
  fd_inv s pend -> fde_heap s !! p = Some f -> pending f = true ->
  Z.land (fde_state f) FDE_EVENTMASK <> Z.land events FDE_EVENTMASK ->
  0 <= k < 8 -> has events (2 ^ k) = true ->
  wp (fdevent_set p events)
    (fun _ s' => exists f', obj s' p = Some f' /\ has (fde_events f') (2 ^ k) = false /\
       fde_events f' = clear (fde_events f) (Z.land events FDE_EVENTMASK))
    (fun _ _ => False) s.
Proof.
  intros Hi Hp Hpend Hne Hk Hh. eapply wp_fdevent_set; [exact Hi|exact Hp|]. intros s' _ _ Ho.
  pose proof (ok_events s p f (inv_ok _ _ Hi) Hp) as Hev.
  set (f' := (set_outcome f events).1).
  assert (E : fde_events f' = clear (fde_events f) (Z.land events FDE_EVENTMASK)).
  { unfold f', set_outcome. rewrite (proj2 (Z.eqb_neq _ _) Hne), Hpend. cbn [negb].
    transitivity (u16 (clear (fde_events f) (Z.land events FDE_EVENTMASK))); [by destruct (_ =? 0)|].
    apply u16_small. by apply land_u16_range. }
  exists (payload f'). split_and!; [by rewrite Ho, decide_True| |exact E].
  change (fde_events (payload f')) with (fde_events f'). rewrite E.
  rewrite has_pow2 by lia. unfold clear. bits_norm. rewrite has_pow2 in Hh by lia. rewrite Hh.
  change FDE_EVENTMASK with (Z.ones 8). rewrite Z.ones_spec_low by lia. by rewrite andb_false_r.
Qed.

Lemma fdevent_set_drops_wanted_witness :
  wp (fdevent_set demo_ptr (Z.lor FDE_READ FDE_WRITE))
    (fun _ s' => exists f', obj s' demo_ptr = Some f' /\ has (fde_events f') (2 ^ 0) = false /\
       fde_events f' = clear (fde_events busy_obj) (Z.land (Z.lor FDE_READ FDE_WRITE) FDE_EVENTMASK))
    (fun _ _ => False) busy_state.
Proof.
  apply (fdevent_set_drops_wanted busy_state [demo_ptr] demo_ptr busy_obj);
    [exact busy_inv|exact busy_lookup|reflexivity|discriminate|lia|reflexivity].
Defined.

(** On a platform with 8-byte pointers, closing the first descriptor above
    the half of the table that [fdevent_register] cleared reads entries of
    [fd_table] that were never written: the [memset] after [realloc] counts
    [sizeof(int)] per entry. *)
Theorem fdevent_register_lp64_uninitialised :
  ((p ← fdevent_create 8 200 (client_func 0) NULL; fdevent_remove p) demo_boot).1 =
    Stop (Undef "indeterminate fd_table entry") /\
  Forall (fun k => grow_table 8 [] 0 256 !! k = Some None) (seq 128 128).
Proof.
  split; [vm_compute; reflexivity|]. apply Forall_seq. intros k Hk.
  rewrite <- (Nat2Z.id k). apply grow_table_lp64; [done|lia|done|]. change (256 - 0) with 256.
  change (256 / 2) with 128. lia.
Qed.

(** [fdevent_register] accepts descriptors up to 32000, but an [fd_set]
    holds only FD_SETSIZE of them: asking for read events of an active object
    with a larger descriptor writes outside the set. *)
Theorem fdevent_set_beyond_fd_setsize (s : fdstate) (p : ptr) (f : fdevent) (events : Z) :
  fde_heap s !! p = Some f -> active f = true -> FD_SETSIZE <= fde_fd f ->
  Z.land (fde_state f) FDE_EVENTMASK <> Z.land events FDE_EVENTMASK -> has events FDE_READ = true ->
  fdevent_set p events s = (Stop (Undef "FD_SET out of range"), s).
Proof.
  intros Hp Ha Hfd Hne Hr.
  assert (Hwp : wp (fdevent_set p events) (fun _ _ => False) (fun x s' => x = Undef "FD_SET out of range" /\ s' = s) s).
  { unfold fdevent_set. wp_step. eapply wp_deref; [exact Hp|].
    rewrite (proj2 (Z.eqb_neq _ _) Hne). wp_step. fold (active f). rewrite Ha.
    unfold when, fdevent_update. wp_step. eapply wp_deref; [exact Hp|]. cbv zeta. wp_step. wp_step. wp_step.
    change FDE_READ with (2 ^ 0). rewrite has_eventmask by lia. change (2 ^ 0) with FDE_READ. rewrite Hr.
    unfold FD_SET. rewrite (proj2 (Z.ltb_ge _ _) Hfd), andb_false_r. done. }
  unfold wp in Hwp. destruct (fdevent_set p events s) as [[[]|x] s']; [done|]. by destruct Hwp as [-> ->].
Qed.

Definition huge_obj : fdevent :=
  {| fde_next := NULL; fde_prev := NULL; fde_fd := 1024; fde_force_eof := 0;
     fde_state := FDE_ACTIVE; fde_events := 0; fde_func := client_func 7; fde_arg := NULL |}.

Definition huge_state : fdstate := put {[ 2%N := huge_obj ]} demo_boot.

Lemma fdevent_set_beyond_fd_setsize_witness :
  fdevent_set 2%N FDE_READ huge_state = (Stop (Undef "FD_SET out of range"), huge_state).
Proof.
  apply (fdevent_set_beyond_fd_setsize huge_state 2%N huge_obj FDE_READ);
    [reflexivity|reflexivity|exact (Z.le_refl _)|discriminate|reflexivity].
Defined.
