(* ===== verification/FileSync.v ===== *)
(** * file_sync_service.c: the sync service of the daemon

    The service reads commands from a socket and answers them: STAT and LIST
    describe files, RECV sends a file, SEND receives one (a regular file or a
    symbolic link).  Each function of the file is a definition over the world
    of [Os]; the transfer buffer, whose contents survive from one command to
    the next, is passed along explicitly.  [strerror] (libc) and [fs_config]
    (private/android_filesystem_config.h, not in the repository) are
    parameters. *)

From S2P Require Import Prelude Effects Os Sysdeps.

(** ** Messages (file_sync_service.h)

    [MKID] and [htoll] are chosen so that the bytes of an id and of a number
    are the same on every host; messages are built in that form. *)

Definition MKID (a b c d : Z) : Z :=
  Z.lor (Z.lor a (Z.shiftl b 8)) (Z.lor (Z.shiftl c 16) (Z.shiftl d 24)).

Definition ID_STAT : Z := MKID 83 84 65 84.
Definition ID_LIST : Z := MKID 76 73 83 84.
Definition ID_ULNK : Z := MKID 85 76 78 75.
Definition ID_SEND : Z := MKID 83 69 78 68.
Definition ID_RECV : Z := MKID 82 69 67 86.
Definition ID_DENT : Z := MKID 68 69 78 84.
Definition ID_DONE : Z := MKID 68 79 78 69.
Definition ID_DATA : Z := MKID 68 65 84 65.
Definition ID_OKAY : Z := MKID 79 75 65 89.
Definition ID_FAIL : Z := MKID 70 65 73 76.
Definition ID_QUIT : Z := MKID 81 85 73 84.

Definition SYNC_DATA_MAX : Z := 64 * 1024.

(** The members of the union [syncmsg]; [msg_data] is also the form of [req]
    and of [status]. *)
Definition msg_data (id size : Z) : bytes := le32 id ++ le32 size.

Definition msg_stat (id mode size time : Z) : bytes := le32 id ++ le32 mode ++ le32 size ++ le32 time.

Definition msg_dent (id mode size time namelen : Z) : bytes :=
  le32 id ++ le32 mode ++ le32 size ++ le32 time ++ le32 namelen.

Definition data_id (bs : bytes) : Z := le_val (take 4 bs).

Definition data_size (bs : bytes) : Z := le_val (drop 4 bs).

(** ** Files (sys/stat.h) *)

Definition S_IFMT : Z := 61440.

Definition S_ISLNK (m : Z) : bool := Z.land m S_IFMT =? 40960.

Definition S_ISREG (m : Z) : bool := Z.land m S_IFMT =? 32768.

(** ** [strtoul(s, NULL, 0)] (stdlib.h): the value and whether it overflowed *)

Definition isspace (c : Z) : bool := (c =? 32) || ((9 <=? c) && (c <=? 13)).

Definition digit_val (c : Z) : option Z :=
  if (48 <=? c) && (c <=? 57) then Some (c - 48)
  else if (97 <=? c) && (c <=? 122) then Some (c - 87)
  else if (65 <=? c) && (c <=? 90) then Some (c - 55)
  else None.

Fixpoint skip_spaces (s : bytes) : bytes :=
  match s with
  | c :: s' => if isspace c then skip_spaces s' else s
  | [] => []
  end.

(** The digits of [base] that start [s]. *)
Fixpoint scan_digits (base : Z) (s : bytes) (acc : Z) : Z :=
  match s with
  | c :: s' =>
      match digit_val c with
      | Some d => if d <? base then scan_digits base s' (acc * base + d) else acc
      | None => acc
      end
  | [] => acc
  end.

Definition is_digit_of (base : Z) (s : bytes) : bool :=
  match s with
  | c :: _ => match digit_val c with Some d => d <? base | None => false end
  | [] => false
  end.

(** The base that [0] stands for, and where its digits start. *)
Definition detect_base (s : bytes) : Z * bytes :=
  match s with
  | c :: s' =>
      if negb (c =? 48) then (10, s) else
      match s' with
      | x :: s'' => if ((x =? 120) || (x =? 88)) && is_digit_of 16 s'' then (16, s'') else (8, s')
      | [] => (8, [])
      end
  | [] => (10, [])
  end.

(** The transfer buffer: [malloc(SYNC_DATA_MAX)], so [None] where nothing has
    been stored yet. *)
Abbreviation buf := (list (option Z)).

(** [writex(s, x, ...) || writex(s, y, ...)]: 0 if both succeed. *)
Definition writex2 (s : Z) (x y : bytes) : M world Z :=
  a ← writex s x;
  if negb (a =? 0) then mret a else writex s y.

Section sync.
(** The width of [unsigned long]. *)
Context (ulong_bits : Z).
Context (strerror : Z -> bytes).
(** [fs_config(path, dir, &uid, &gid, &mode, &cap)]: the new uid, gid and mode. *)
Context (fs_config : bytes -> Z -> Z -> Z * Z * Z).

Definition strtoul (s : bytes) : Z * bool :=
  let s1 := skip_spaces s in
  let '(neg, s2) :=
    match s1 with
    | c :: s' => if c =? 45 then (true, s') else if c =? 43 then (false, s') else (false, s1)
    | [] => (false, [])
    end in
  let '(base, s3) := detect_base s2 in
  let v := scan_digits base s3 0 in
  if v <? 2 ^ ulong_bits then (if neg then (- v) mod 2 ^ ulong_bits else v, false)
  else (2 ^ ulong_bits - 1, true).

(** ** Helpers *)

Definition is_on_system (name : bytes) : bool := has_prefix (str "/system/") name.

(** [mkdirs(name)]: [x] is the offset of the pointer into [name], which the
    loop truncates at each separator in turn and restores. *)
Definition mkdirs (name : bytes) : M world Z :=
  match name with
  | c :: _ =>
      if negb (c =? 47) then mret (-1) else
      loop (fun '(x, uid, gid, mode) =>
        match adb_dirstart (drop x name) with
        | None => mret (inr 0)
        | Some i =>
            let dir := take (x + i) name in
            let '(uid, gid, mode) :=
              if is_on_system dir then fs_config dir 1 mode else (uid, gid, mode) in
            r ← adb_mkdir dir mode;
            e ← get_errno;
            match r with
            | Err _ =>
                if negb (e =? EEXIST) then mret (inr (-1))
                else mret (inl (S (x + i), uid, gid, mode))
            | Ok _ =>
                c ← syscall (Chown dir uid gid);
                match c with
                | Err _ => mret (inr (-1))
                | Ok _ => syscall (Restorecon dir);; mret (inl (S (x + i), uid, gid, mode))
                end
            end
        end) (1%nat, -1, -1, 0x1fd)
  | [] => mret (-1)
  end.

Definition do_stat (s : Z) (path : bytes) : M world Z :=
  r ← syscall (Lstat path);
  writex s
    match r with
    | Err _ => msg_stat ID_STAT 0 0 0
    | Ok st => msg_stat ID_STAT (u32 (st_mode st)) (u32 (st_size st)) (u32 (st_mtime st))
    end.

Definition TMP_SIZE : Z := 1024 + 256 + 1.

(** One entry of [do_list]: [None] to go on, [Some r] to return [r]. *)
Definition list_entry (s d : Z) (path name : bytes) : M world (option Z) :=
  let len := Z.of_nat (length name) in
  if len >? 256 then mret None else
  if Z.of_nat (length path) + 1 + len + 1 >? TMP_SIZE then undef "strcpy beyond tmp" else
  r ← syscall (Lstat (path ++ 47 :: name));
  match r with
  | Err _ => mret None
  | Ok st =>
      b ← writex2 s (msg_dent ID_DENT (u32 (st_mode st)) (u32 (st_size st)) (u32 (st_mtime st)) len) name;
      if negb (b =? 0) then syscall (Closedir d);; mret (Some (-1)) else mret None
  end.

Definition do_list (s : Z) (path : bytes) : M world Z :=
  if Z.of_nat (length path) + 1 >? TMP_SIZE then undef "memcpy beyond tmp" else
  let done := writex s (msg_dent ID_DONE 0 0 0 0) in
  o ← syscall (Opendir path);
  match o with
  | Err _ => done
  | Ok d =>
      r ← loop (fun _ : unit =>
        de ← syscall (Readdir d);
        match de with
        | Ok (Some name) =>
            x ← list_entry s d path name;
            mret (match x with Some r => inr (Some r) | None => inl tt end)
        | _ => mret (inr None)
        end) tt;
      match r with
      | Some r => mret r
      | None => syscall (Closedir d);; done
      end
  end.

Definition fail_message (s : Z) (reason : bytes) : M world Z :=
  b ← writex2 s (msg_data ID_FAIL (Z.of_nat (length reason))) reason;
  mret (if negb (b =? 0) then -1 else 0).

Definition fail_errno (s : Z) : M world Z :=
  e ← get_errno;
  fail_message s (strerror e).

(** ** Receiving a file *)

(** [bs] copied to the start of the buffer; whoever stores has asked for no more
    bytes than the buffer holds. *)
Definition buf_store (bs : bytes) (b : buf) : buf := (Some <$> bs) ++ drop (length bs) b.

(** How the loop of [handle_send_file] is left. *)
Inductive send_exit :=
| Exit_fail (fd : Z)
| Exit_done (fd timestamp : Z)
| Exit_return.

(** Opening the destination, with the directories it needs. *)
Definition send_open (s : Z) (path : bytes) (mode : Z) : M world (option Z) :=
  let flags := Z.lor (Z.lor O_WRONLY O_CREAT) O_EXCL in
  r ← adb_open_mode path flags mode;
  e ← get_errno;
  x ← (if (rc_int r <? 0) && (e =? ENOENT) then
         m ← mkdirs path;
         if negb (m =? 0) then
           f ← fail_errno s;
           mret (if negb (f =? 0) then None else Some (-1))
         else
           r' ← adb_open_mode path flags mode;
           mret (Some (rc_int r'))
       else mret (Some (rc_int r)));
  match x with
  | None => mret None
  | Some fd =>
      e' ← get_errno;
      if (fd <? 0) && (e' =? EEXIST) then
        r'' ← adb_open_mode path O_WRONLY mode;
        mret (Some (rc_int r''))
      else mret (Some fd)
  end.

(** Ownership and mode of the file, or the report that there is none. *)
Definition send_prepare (s fd uid gid mode : Z) : M world (option Z) :=
  if fd <? 0 then
    f ← fail_errno s;
    mret (if negb (f =? 0) then None else Some (-1))
  else
    o ← syscall (Fchown fd uid gid);
    (match o with
     | Err _ => fail_errno s;; set_errno 0
     | Ok _ => skip
     end);;
    syscall (Fchmod fd mode);;
    mret (Some fd).

(** [for(;;)] of [handle_send_file]: one message of the transfer. *)
Definition send_step (s : Z) (path : bytes) (do_unlink : bool) (fd : Z) (b : buf)
    : M world (Z * buf + send_exit * buf) :=
  m ← readx s 8;
  match m with
  | None => mret (inr (Exit_fail fd, b))
  | Some msg =>
      if negb (data_id msg =? ID_DATA) then
        if data_id msg =? ID_DONE then mret (inr (Exit_done fd (data_size msg), b))
        else fail_message s (str "invalid data message");; mret (inr (Exit_fail fd, b))
      else
      let len := data_size msg in
      if len >? SYNC_DATA_MAX then
        fail_message s (str "oversize data message");; mret (inr (Exit_fail fd, b))
      else
      d ← readx_into (Z.of_nat (length b)) s len;
      match d with
      | None => mret (inr (Exit_fail fd, b))
      | Some data =>
          let b' := buf_store data b in
          if fd <? 0 then mret (inl (fd, b')) else
          w ← writex fd data;
          if negb (w =? 0) then
            saved_errno ← get_errno;
            adb_close fd;;
            (if do_unlink then adb_unlink path;; skip else skip);;
            set_errno saved_errno;;
            f ← fail_errno s;
            mret (if negb (f =? 0) then inr (Exit_return, b') else inl (-1, b'))
          else mret (inl (fd, b'))
      end
  end.

(** After the loop. *)
Definition send_finish (s : Z) (path : bytes) (do_unlink : bool) (x : send_exit) : M world Z :=
  match x with
  | Exit_return => mret (-1)
  | Exit_done fd timestamp =>
      if fd >=? 0 then
        adb_close fd;;
        syscall (Restorecon path);;
        syscall (Utime path timestamp timestamp);;
        w ← writex s (msg_data ID_OKAY 0);
        mret (if negb (w =? 0) then -1 else 0)
      else mret 0
  | Exit_fail fd =>
      (if fd >=? 0 then adb_close fd;; skip else skip);;
      (if do_unlink then adb_unlink path;; skip else skip);;
      mret (-1)
  end.

Definition handle_send_file (s : Z) (path : bytes) (uid gid mode : Z) (b : buf) (do_unlink : bool)
    : M world (Z * buf) :=
  o ← send_open s path mode;
  match o with
  | None => mret (-1, b)
  | Some fd0 =>
      p ← send_prepare s fd0 uid gid mode;
      match p with
      | None => mret (-1, b)
      | Some fd =>
          '(x, b') ← loop (fun '(fd, b) => send_step s path do_unlink fd b) (fd, b);
          r ← send_finish s path do_unlink x;
          mret (r, b')
      end
  end.

(** ** Receiving a symbolic link *)

(** The C string at the start of the buffer; [None] if it is not terminated by
    a byte that was ever stored. *)
Fixpoint buf_cstr (b : buf) : option bytes :=
  match b with
  | Some c :: b' => if c =? 0 then Some [] else cons c <$> buf_cstr b'
  | _ => None
  end.

(** [symlink(buffer, path)] *)
Definition symlink (b : buf) (path : bytes) : M world (sysres unit) :=
  match buf_cstr b with
  | None => undef "link target not terminated"
  | Some target => syscall (Symlink target path)
  end.

(** Making the link, with the directories it needs: [None] if those could not
    be made, else what [symlink] returned last. *)
Definition link_create (s : Z) (path : bytes) (b : buf) : M world (option Z) :=
  r ← symlink b path;
  e ← get_errno;
  if negb (rc r =? 0) && (e =? ENOENT) then
    m ← mkdirs path;
    if negb (m =? 0) then fail_errno s;; mret None
    else r' ← symlink b path; mret (Some (rc r'))
  else mret (Some (rc r)).

Definition handle_send_link (s : Z) (path : bytes) (b : buf) : M world (Z * buf) :=
  m ← readx s 8;
  match m with
  | None => mret (-1, b)
  | Some msg =>
      if negb (data_id msg =? ID_DATA) then
        fail_message s (str "invalid data message: expected ID_DATA");; mret (-1, b)
      else
      let len := data_size msg in
      if len >? SYNC_DATA_MAX then
        fail_message s (str "oversize data message");; mret (-1, b)
      else
      d ← readx_into (Z.of_nat (length b)) s len;
      match d with
      | None => mret (-1, b)
      | Some data =>
          let b' := buf_store data b in
          x ← link_create s path b';
          match x with
          | None => mret (-1, b')
          | Some ret =>
              if negb (ret =? 0) then fail_errno s;; mret (-1, b') else
              m2 ← readx s 8;
              match m2 with
              | None => mret (-1, b')
              | Some msg2 =>
                  if data_id msg2 =? ID_DONE then
                    w ← writex s (msg_data ID_OKAY 0);
                    mret (if negb (w =? 0) then -1 else 0, b')
                  else
                    fail_message s (str "invalid data message: expected ID_DONE");;
                    mret (-1, b')
              end
          end
      end
  end.

(** ** SEND *)

(** The path, and the number after its last comma with whether it overflowed. *)
Definition parse_send (path : bytes) : bytes * option (Z * bool) :=
  match strrchr 44 path with
  | None => (path, None)
  | Some i =>
      let '(v, overflow) := strtoul (drop (S i) path) in
      (take i path, Some (u32 v, overflow))
  end.

(** [mode |= ((mode >> 3) & 0070); mode |= ((mode >> 3) & 0007);] *)
Definition spread_mode (mode : Z) : Z :=
  let mode := Z.lor mode (Z.land (Z.shiftr mode 3) 56) in
  Z.lor mode (Z.land (Z.shiftr mode 3) 7).

Definition do_send (s : Z) (path : bytes) (b : buf) : M world (Z * buf) :=
  let '(path, number) := parse_send path in
  t ←
    (match number with
    | None => mret (420, false, true)
    | Some (m, true) => set_errno ERANGE;; mret (420, false, true)
    | Some (m, false) =>
        set_errno 0;;
        r ← syscall (Lstat path);
        let do_unlink :=
          match r with
          | Err _ => true
          | Ok st => S_ISREG (st_mode st) || S_ISLNK (st_mode st)
          end in
        (if do_unlink then adb_unlink path;; skip else skip);;
        mret (Z.land m 511, S_ISLNK m, do_unlink)
    end : M world (Z * bool * bool));
  let '(mode, is_link, do_unlink) := t : Z * bool * bool in
  if is_link then handle_send_link s path b else
  let mode := spread_mode mode in
  let tmp := match path with c :: p => if c =? 47 then p else path | [] => path end in
  let '(uid, gid, mode) :=
    if is_on_system path then fs_config tmp 0 mode else (-1, -1, mode) in
  handle_send_file s path uid gid mode b do_unlink.

(** ** RECV *)

(** The loop of [do_recv]: [inr (Some r)] returns [r] (the descriptor is
    closed), [inr None] is the end of the file. *)
Definition recv_step (s fd : Z) (b : buf) : M world (buf + option Z * buf) :=
  r ← (if Z.of_nat (length b) <? SYNC_DATA_MAX then undef "read past the end of a buffer"
       else adb_read fd SYNC_DATA_MAX);
  match r with
  | Ok [] => mret (inr (None, b))
  | Ok bs =>
      let b' := buf_store bs b in
      y ← writex2 s (msg_data ID_DATA (Z.of_nat (length bs))) bs;
      if negb (y =? 0) then adb_close fd;; mret (inr (Some (-1), b')) else mret (inl b')
  | Err e =>
      if e =? EINTR then mret (inl b) else
      f ← fail_errno s;
      adb_close fd;;
      mret (inr (Some f, b))
  end.

Definition do_recv (s : Z) (path : bytes) (b : buf) : M world (Z * buf) :=
  o ← adb_open path O_RDONLY;
  let fd := rc_int o in
  if fd <? 0 then
    f ← fail_errno s;
    mret (if negb (f =? 0) then -1 else 0, b)
  else
  '(x, b') ← loop (recv_step s fd) b;
  match x with
  | Some r => mret (r, b')
  | None =>
      adb_close fd;;
      w ← writex s (msg_data ID_DONE 0);
      mret (if negb (w =? 0) then -1 else 0, b')
  end.

(** ** The service *)

(** One command: [None] to wait for the next one. *)
Definition sync_command (s id : Z) (name : bytes) (b : buf) : M world (option buf) :=
  if id =? ID_STAT then r ← do_stat s name; mret (if negb (r =? 0) then None else Some b) else
  if id =? ID_LIST then r ← do_list s name; mret (if negb (r =? 0) then None else Some b) else
  if id =? ID_SEND then '(r, b') ← do_send s name b; mret (if negb (r =? 0) then None else Some b') else
  if id =? ID_RECV then '(r, b') ← do_recv s name b; mret (if negb (r =? 0) then None else Some b') else
  if id =? ID_QUIT then mret None else
  fail_message s (str "unknown command");; mret None.

(** [char name[1025]] *)
Definition NAME_SIZE : Z := 1025.

Definition sync_step (s : Z) (b : buf) : M world (buf + unit) :=
  q ← readx s 8;
  match q with
  | None => fail_message s (str "command read failure");; mret (inr tt)
  | Some req =>
      let namelen := data_size req in
      if namelen >? 1024 then fail_message s (str "invalid namelen");; mret (inr tt) else
      n ← readx_into NAME_SIZE s namelen;
      match n with
      | None => fail_message s (str "filename read failure");; mret (inr tt)
      | Some name =>
          if NAME_SIZE <=? namelen then undef "store past the end of name" else
          x ← sync_command s (data_id req) (cstr name) b;
          mret (match x with Some b' => inl b' | None => inr tt end)
      end
  end.

Definition file_sync_service (fd : Z) : M world unit :=
  r ← syscall (Malloc SYNC_DATA_MAX);
  (match r with
   | Err _ => skip
   | Ok _ => loop (sync_step fd) (replicate (Z.to_nat SYNC_DATA_MAX) None : buf)
   end : M world unit);;
  adb_close fd;;
  skip.
End sync.
