(* ===== verification/FileSyncFacts.v ===== *)
(** * Correctness of the sync service

    The framing of file contents, RECV and SEND against it, the directories
    [mkdirs] makes, the numbers SEND carries in its path, and the service loop
    as a whole. *)

From S2P Require Import Prelude Effects Os Sysdeps FileSync.

(** ** Framing *)

(** The contents of a file on the wire: a DATA message per chunk. *)
Definition data_frame (c : bytes) : bytes := msg_data ID_DATA (Z.of_nat (length c)) ++ c.

Definition frames (chunks : list bytes) : bytes := chunks ≫= data_frame.

(** Chunks the protocol allows. *)
Definition chunk_ok (c : bytes) : Prop := Z.of_nat (length c) <= SYNC_DATA_MAX.

(** The FAIL message for a reason. *)
Definition fail_frame (reason : bytes) : bytes := msg_data ID_FAIL (Z.of_nat (length reason)) ++ reason.

Lemma frames_snoc chunks c : frames (chunks ++ [c]) = frames chunks ++ data_frame c.
Proof. unfold frames. rewrite bind_app. simpl. by rewrite app_nil_r. Qed.

Lemma length_msg_data id size : length (msg_data id size) = 8%nat.
Proof. unfold msg_data. by rewrite length_app, !length_le_bytes. Qed.

Lemma data_id_msg id size rest : 0 <= id < 2 ^ 32 -> data_id (msg_data id size ++ rest) = id.
Proof.
  intros H. unfold data_id, msg_data. rewrite <- app_assoc, take_app_length' by (by rewrite length_le_bytes).
  by apply le_val_le32.
Qed.

Lemma data_size_msg id size : 0 <= size < 2 ^ 32 -> data_size (msg_data id size) = size.
Proof.
  intros H. unfold data_size, msg_data. rewrite drop_app_length' by (by rewrite length_le_bytes).
  by apply le_val_le32.
Qed.

(** A header that was read is the message it decodes to. *)
Lemma msg_data_decode bs :
  Z.of_nat (length bs) = 8 -> Forall is_byte bs -> bs = msg_data (data_id bs) (data_size bs).
Proof.
  intros Hl Hb. unfold msg_data, data_id, data_size.
  rewrite <- (take_drop 4 bs) at 1. f_equal.
  - rewrite <- (le_bytes_le_val (take 4 bs)) at 1 by (by apply Forall_take).
    f_equal. rewrite length_take. lia.
  - rewrite <- (le_bytes_le_val (drop 4 bs)) at 1 by (by apply Forall_drop).
    f_equal. rewrite length_drop. lia.
Qed.

Lemma data_size_range bs : Z.of_nat (length bs) = 8 -> Forall is_byte bs -> 0 <= data_size bs < 2 ^ 32.
Proof.
  intros Hl Hb. unfold data_size. pose proof (le_val_range (drop 4 bs) (Forall_drop _ _ _ Hb)) as H.
  rewrite length_drop in H. replace (length bs - 4)%nat with 4%nat in H by lia. exact H.
Qed.

(** The first frame of a stream can be taken off: framing is unambiguous. *)
Lemma data_frame_inj c c' rest rest' :
  chunk_ok c -> chunk_ok c' -> data_frame c ++ rest = data_frame c' ++ rest' -> c = c' /\ rest = rest'.
Proof.
  unfold chunk_ok, data_frame, SYNC_DATA_MAX. intros Hc Hc' E. rewrite <- !app_assoc in E.
  apply app_inj_1 in E as [E1 E2]; [|by rewrite !length_msg_data].
  apply (f_equal data_size) in E1. rewrite !data_size_msg in E1 by lia.
  apply app_inj_1 in E2 as [-> ->]; [done|lia].
Qed.

(** ** The transfer buffer *)

(** The buffer has the size it was allocated with. *)
Definition buf_ok (b : buf) : Prop := Z.of_nat (length b) = SYNC_DATA_MAX.

Lemma buf_store_ok bs b : buf_ok b -> Z.of_nat (length bs) <= SYNC_DATA_MAX -> buf_ok (buf_store bs b).
Proof. unfold buf_ok, buf_store. intros Hb Hl. rewrite length_app, length_fmap, length_drop. lia. Qed.

(** ** Calls that move no data *)

Definition quiet (c : call) : Prop :=
  match c with Read _ _ | Write _ _ => False | _ => True end.

Lemma quiet_read fd h : only quiet h -> read_from fd h = [].
Proof.
  induction 1 as [|[c a] h Hc _ IH]; [done|]. rewrite read_from_cons, IH. by destruct c.
Qed.

Lemma quiet_written fd h : only quiet h -> written_to fd h = [].
Proof.
  induction 1 as [|[c a] h Hc _ IH]; [done|]. rewrite written_to_cons, IH. by destruct c.
Qed.

(** Calls that neither move data nor open or close anything. *)
Definition inert (c : call) : Prop :=
  match c with
  | Read _ _ | Write _ _ | Open _ _ _ | Creat _ _ | Loopback_client _ | Network_client _ _
  | Opendir _ | Close _ | Closedir _ => False
  | _ => True
  end.

Lemma inert_quiet c : inert c -> quiet c.
Proof. by destruct c. Qed.

Lemma inert_only_quiet h : only inert h -> only quiet h.
Proof. intros H. eapply only_mono; [exact H|apply inert_quiet]. Qed.

(** A single call of a kind. *)
Lemma ospec_one (P : call -> Prop) e (c : call) :
  P c -> ospec e (syscall c)
    (fun a new e' => new = [ev c a] /\ answer_ok c a /\ only P new /\ e' = errno_after a e)
    (blocked (fun new => new = [])).
Proof. intros Hc. apply ospec_syscall; [|done]. intros a Ha. split_and!; [done|done|by apply only_one|done]. Qed.

Lemma ospec_retry_quiet e (c : call) :
  quiet c -> ospec e (temp_failure_retry c)
    (fun a new e' => only quiet new /\ new <> [] /\ answer_ok c a /\ (exists pre, new = pre ++ [ev c a]) /\
       (forall err, a = Err err -> e' = err))
    (blocked (fun new => only quiet new)).
Proof.
  intros Hc. apply ospec_retry.
  - intros a n Ha Hne. split_and!; [by apply only_retry|by destruct n|done|eauto|]. by intros err ->.
  - intros n. split; [done|]. by apply only_eintrs.
Qed.

(** ** Two writes in a row *)

Lemma ospec_writex2 e s x y :
  ospec e (writex2 s x y)
    (fun r new _ => only (writes s) new /\
       ((r = 0 /\ written_to s new = x ++ y) \/ (r = -1 /\ exists rest, rest <> [] /\ x ++ y = written_to s new ++ rest)))
    (blocked (fun new => only (writes s) new /\ exists rest, rest <> [] /\ x ++ y = written_to s new ++ rest)).
Proof.
  unfold writex2. os_call ospec_writex.
  - intros z n (-> & Ho & rest & Hr & E). split_and!; [done|done|]. exists (rest ++ y).
    split; [by destruct rest|]. by rewrite E, <- app_assoc.
  - intros a n1 e1 [Ho [[-> E]|[-> (rest & Hr & E)]]]; simpl.
    + eapply ospec_mono; [apply ospec_writex| |].
      * intros r n2 e2 [Ho2 Hr2]. rewrite only_app, written_to_app, E. split; [done|].
        destruct Hr2 as [[-> E2]|[-> (rest & Hr & E2)]]; [left|right]; (split; [done|]).
        -- by rewrite E2.
        -- exists rest. split; [done|]. by rewrite E2 at 1; rewrite app_assoc.
      * intros z n2 (-> & Ho2 & rest & Hr & E2). split; [done|]. rewrite only_app, written_to_app, E.
        split; [done|]. exists rest. split; [done|]. by rewrite E2 at 1; rewrite app_assoc.
    + os_step. rewrite app_nil_r. split; [done|]. right. split; [done|]. exists (rest ++ y).
      split; [by destruct rest|]. by rewrite E, <- app_assoc.
Qed.

Lemma ospec_fail_message e s reason :
  ospec e (fail_message s reason)
    (fun r new _ => only (writes s) new /\ (r = 0 \/ r = -1) /\ (r = 0 -> written_to s new = fail_frame reason))
    (blocked (fun new => only (writes s) new)).
Proof.
  unfold fail_message. os_call ospec_writex2; [by intros x n (-> & Ho & _)|].
  intros b n1 e1 [Ho [[-> E]|[-> _]]]; os_step; rewrite app_nil_r; (split; [done|]); simpl.
  - split; [by left|]. intros _. exact E.
  - split; [by right|done].
Qed.

(** ** mkdirs *)

(** The directories a path names on the way to its last component, outermost
    first. *)
Definition dirs_from (x : nat) (name : bytes) : list bytes :=
  (fun i => take i name) <$> filter (fun i => name !! i = Some 47) (seq x (length name - x)).

Definition ancestors (name : bytes) : list bytes := dirs_from 1 name.

(** The directories a history tried to make. *)
Definition ev_mkdir (e : event) : list bytes :=
  match projT1 e with Mkdir path _ => [path] | _ => [] end.

Definition made (h : list event) : list bytes := h ≫= ev_mkdir.

Lemma made_app h1 h2 : made (h1 ++ h2) = made h1 ++ made h2.
Proof. apply bind_app. Qed.

Lemma filter_seq_none (P : nat -> Prop) `{forall i, Decision (P i)} x n :
  (forall i, (x <= i < x + n)%nat -> ~ P i) -> filter P (seq x n) = [].
Proof.
  revert x. induction n as [|n IH]; intros x Hn; [done|]. simpl.
  rewrite filter_cons_False by (apply Hn; lia). apply IH. intros i Hi. apply Hn. lia.
Qed.

Lemma dirs_from_none x name : strchr 47 (drop x name) = None -> dirs_from x name = [].
Proof.
  intros Hs. apply strchr_None in Hs. unfold dirs_from. rewrite filter_seq_none; [done|].
  intros i Hi Hl. apply Hs. apply (list_elem_of_lookup_2 _ (i - x)). rewrite lookup_drop.
  by replace (x + (i - x))%nat with i by lia.
Qed.

Lemma dirs_from_step x name i :
  strchr 47 (drop x name) = Some i ->
  dirs_from x name = take (x + i) name :: dirs_from (S (x + i)) name.
Proof.
  intros Hs. apply strchr_Some in Hs as [Hi Hbefore]. rewrite lookup_drop in Hi.
  pose proof (lookup_lt_Some _ _ _ Hi) as Hlt. unfold dirs_from.
  replace (length name - x)%nat with (i + (1 + (length name - S (x + i))))%nat by lia.
  rewrite seq_app, filter_app, (filter_seq_none _ x i).
  - simpl. rewrite filter_cons_True by done. done.
  - intros j Hj Hl. apply (Hbefore (j - x)%nat); [lia|]. rewrite lookup_drop.
    by replace (x + (j - x))%nat with j by lia.
Qed.

Lemma ospec_mkdirs fs_config e name :
  ospec e (mkdirs fs_config name)
    (fun r new _ => only inert new /\
       ((r = 0 /\ made new = ancestors name /\ List.hd 0 name = 47) \/
        (r = -1 /\ made new `prefix_of` ancestors name)))
    (blocked (fun new => only inert new /\ made new `prefix_of` ancestors name)).
Proof.
  unfold mkdirs. destruct name as [|c rest].
  { os_step. split; [apply only_nil|]. right. split; [done|]. apply prefix_nil. }
  set (name := c :: rest). destruct (Z.eqb_spec c 47) as [Hc|Hc]; simpl negb; cbv iota.
  2:{ os_step. split; [apply only_nil|]. right. split; [done|]. apply prefix_nil. }
  apply (ospec_loop (fun '(x, _, _, _) h _ => only inert h /\ made h ++ dirs_from x name = ancestors name)).
  { split; [apply only_nil|done]. }
  intros [[[x uid] gid] mode] h e1 [Ho Hm]. unfold adb_dirstart.
  destruct (strchr 47 (drop x name)) as [i|] eqn:Es.
  2:{ os_step. rewrite app_nil_r. split; [done|]. left. split_and!; [done| |done].
      by rewrite (dirs_from_none _ _ Es), app_nil_r in Hm. }
  rewrite (dirs_from_step _ _ _ Es) in Hm. set (dir := take (x + i) name) in *.
  destruct (if is_on_system dir then fs_config dir 1 mode else (uid, gid, mode)) as [[uid' gid'] mode'].
  assert (Hpre : made h ++ [dir] `prefix_of` ancestors name).
  { rewrite <- Hm. change (dir :: dirs_from (S (x + i)) name) with ([dir] ++ dirs_from (S (x + i)) name).
    rewrite app_assoc. by apply prefix_app_r. }
  os_call (ospec_one inert e1 (Mkdir dir mode')); [done| |].
  { intros z n [-> ->]. split; [done|]. rewrite app_nil_r. split; [done|]. rewrite <- Hm. by apply prefix_app_r. }
  intros r n1 e2 (-> & _ & Hq1 & _). os_step.
  set (h1 := h ++ [ev (Mkdir dir mode') r]).
  assert (Hh1 : only inert h1) by (by apply only_app).
  assert (Hm1 : made h1 = made h ++ [dir]) by (unfold h1; by rewrite made_app).
  assert (Hgo : made h1 ++ dirs_from (S (x + i)) name = ancestors name) by (rewrite Hm1, <- app_assoc; exact Hm).
  destruct r as [[]|err].
  - os_call (ospec_one inert e2 (Chown dir uid' gid')); [done| |].
    { intros z n [-> ->]. split; [done|]. rewrite app_nil_r. fold h1. split; [done|]. by rewrite Hm1. }
    intros r2 n2 e3 (-> & _ & Hq2 & _). destruct r2 as [[]|err].
    + os_call (ospec_one inert e3 (Restorecon dir)); [done| |].
      { intros z n [-> ->]. split; [done|]. rewrite app_nil_r, app_assoc. fold h1.
        rewrite only_app, made_app, app_nil_r, Hm1. by split. }
      intros r3 n3 e4 (-> & _ & Hq3 & _). os_step. rewrite app_nil_r. split; [done|].
      rewrite app_assoc, app_assoc. fold h1.
      rewrite !only_app, !made_app. simpl. rewrite !app_nil_r. by split_and!.
    + os_step. rewrite app_nil_r, app_assoc. fold h1. rewrite only_app, made_app, app_nil_r, Hm1.
      split; [by split|]. by right.
  - destruct (negb (e2 =? EEXIST)); os_step; rewrite app_nil_r; fold h1.
    + split; [done|]. right. by rewrite Hm1.
    + by split_and!.
Qed.

(** ** Descriptors opened and closed *)

(** Files and directories are counted apart: [true] is a directory. *)
Definition ev_opened (e : event) : list (bool * Z) :=
  match e with
  | existT (Open _ _ _) (Ok fd) | existT (Creat _ _) (Ok fd)
  | existT (Loopback_client _) (Ok fd) | existT (Network_client _ _) (Ok fd) => [(false, fd)]
  | existT (Opendir _) (Ok d) => [(true, d)]
  | _ => []
  end.

Definition ev_closed (e : event) : list (bool * Z) :=
  match projT1 e with
  | Close fd => [(false, fd)]
  | Closedir d => [(true, d)]
  | _ => []
  end.

Definition opened (h : list event) : list (bool * Z) := h ≫= ev_opened.

Definition closed (h : list event) : list (bool * Z) := h ≫= ev_closed.

(** Everything opened has been closed, in the same order. *)
Definition balanced (h : list event) : Prop := opened h = closed h.

(** [fd] is open: it is the only thing still to be closed. *)
Definition holds (k : bool * Z) (h : list event) : Prop := opened h = closed h ++ [k].

Arguments opened : simpl never.
Arguments closed : simpl never.

Lemma opened_cons e h : opened (e :: h) = ev_opened e ++ opened h.
Proof. done. Qed.

Lemma closed_cons e h : closed (e :: h) = ev_closed e ++ closed h.
Proof. done. Qed.

Lemma opened_app h1 h2 : opened (h1 ++ h2) = opened h1 ++ opened h2.
Proof. apply bind_app. Qed.

Lemma closed_app h1 h2 : closed (h1 ++ h2) = closed h1 ++ closed h2.
Proof. apply bind_app. Qed.

#[export] Hint Rewrite opened_app closed_app made_app : adb_simpl.

Definition neutral (c : call) : Prop :=
  match c with
  | Open _ _ _ | Creat _ _ | Loopback_client _ | Network_client _ _ | Opendir _ | Close _ | Closedir _ => False
  | _ => True
  end.

Lemma neutral_opened h : only neutral h -> opened h = [] /\ closed h = [].
Proof.
  induction 1 as [|[c a] h Hc _ [IH1 IH2]]; [done|]. rewrite opened_cons, closed_cons, IH1, IH2.
  by destruct c.
Qed.

Lemma writes_neutral s c : writes s c -> neutral c.
Proof. by destruct c. Qed.

Lemma reads_neutral s c : reads s c -> neutral c.
Proof. by destruct c. Qed.

Lemma neutral_app h h' : only neutral h' -> opened (h ++ h') = opened h /\ closed (h ++ h') = closed h.
Proof.
  intros H. destruct (neutral_opened h' H) as [E1 E2]. autorewrite with adb_simpl.
  by rewrite E1, E2, !app_nil_r.
Qed.

Lemma balanced_neutral h h' : balanced h -> only neutral h' -> balanced (h ++ h').
Proof. intros Hb Hn. destruct (neutral_app h h' Hn) as [E1 E2]. unfold balanced. by rewrite E1, E2. Qed.

Lemma holds_neutral k h h' : holds k h -> only neutral h' -> holds k (h ++ h').
Proof. intros Hb Hn. destruct (neutral_app h h' Hn) as [E1 E2]. unfold holds. by rewrite E1, E2. Qed.

Lemma holds_close fd h a : holds (false, fd) h -> balanced (h ++ [ev (Close fd) a]).
Proof.
  unfold holds, balanced. intros E. rewrite opened_app, closed_app, E. unfold opened, closed. simpl.
  by rewrite app_nil_r.
Qed.

Lemma balanced_app h1 h2 : balanced h1 -> balanced h2 -> balanced (h1 ++ h2).
Proof. unfold balanced. intros E1 E2. by rewrite opened_app, closed_app, E1, E2. Qed.

Lemma balanced_only P h : (forall c, P c -> neutral c) -> only P h -> balanced h.
Proof. intros HP Ho. eapply (balanced_neutral []); [done|]. by eapply only_mono. Qed.

#[export] Hint Resolve writes_neutral reads_neutral : adb.

(** The answer of an [Open] after retries. *)
Definition open_result (a : sysres Z) : list (bool * Z) :=
  match a with Ok fd => [(false, fd)] | Err _ => [] end.

(** An [Open], or a call that does nothing to files and data. *)
Definition opens (c : call) : Prop := inert c \/ match c with Open _ _ _ => True | _ => False end.

Lemma opens_quiet h : only opens h -> only quiet h.
Proof. intros H. eapply only_mono; [exact H|]. intros c [Hc|Hc]; by destruct c. Qed.

Lemma ospec_retry_open e path flags mode :
  ospec e (temp_failure_retry (Open path flags mode))
    (fun a new e' => only opens new /\ opened new = open_result a /\ closed new = [] /\
       match a with Ok fd => 0 <= fd /\ ev (Open path flags mode) (Ok fd) ∈ new | Err err => e' = err end)
    (blocked (fun new => only opens new /\ opened new = [])).
Proof.
  assert (Hr : forall n, opened (replicate n (eintr (Open path flags mode))) = [] /\
                         closed (replicate n (eintr (Open path flags mode))) = []).
  { intros n. induction n as [|n [IH1 IH2]]; [done|]. simpl. by rewrite opened_cons, closed_cons, IH1, IH2. }
  apply (ospec_retry e (Open path flags mode)).
  - intros a n Ha Hne. destruct (Hr n) as [E1 E2]. rewrite opened_app, closed_app, E1, E2.
    split_and!; [apply only_retry; by right|by destruct a|done|]. destruct a; [|done]. split; [done|]. set_solver.
  - intros n. split; [done|]. split; [apply only_eintrs; by right|apply Hr].
Qed.

Lemma ospec_adb_open e path flags :
  ospec e (adb_open path flags)
    (fun a new e' => only quiet new /\ opened new = open_result a /\ closed new = [] /\
       match a with Ok fd => 0 <= fd /\ ev (Open path flags None) (Ok fd) ∈ new | Err err => e' = err end)
    (blocked (fun new => only quiet new)).
Proof.
  unfold adb_open. os_call ospec_retry_open; [intros x n (-> & ? & _); split; [done|by apply opens_quiet]|].
  intros a n1 e1 (Hq%opens_quiet & Ho & Hc & Ha). destruct a as [fd|err].
  - destruct Ha as [Hfd Hin]. rewrite (proj2 (Z.ltb_ge fd 0)) by done. unfold close_on_exec. os_step. os_call (ospec_one quiet e1 (Setfd fd FD_CLOEXEC)); [done| |].
    { intros x n [-> ->]. split; [done|]. by rewrite app_nil_r. }
    intros r n2 e2 (-> & _ & Hq2 & _). os_step. os_step. rewrite !app_nil_r, only_app, opened_app, closed_app, Ho, Hc.
    split_and!; [done..|]. set_solver.
  - os_step. by rewrite app_nil_r.
Qed.

(** [adb_read] as one successful or failed call. *)
Lemma ospec_adb_read_ev e fd n :
  ospec e (adb_read fd n)
    (fun a new e' => ev (Read fd n) a ∈ new /\ only (reads fd) new /\ new <> [] /\ a <> Err EINTR /\
       match a with
       | Ok bs => read_from fd new = bs /\ Z.of_nat (length bs) <= Z.max 0 n /\ Forall is_byte bs
       | Err err => read_from fd new = [] /\ e' = err
       end)
    (fun x _ => x = Blocked).
Proof.
  eapply ospec_mono; [apply (ospec_conj _ _ _ _ (fun a new _ => ev (Read fd n) a ∈ new) (fun _ _ => True) (ospec_adb_read e fd n))| |].
  - apply (ospec_retry e (Read fd n)); [|done]. intros a k _ _. set_solver.
  - intros a new e' [(Ho & Hne & Hni & Ha) Hin]. destruct a; naive_solver.
  - by intros x new [[-> _] _].
Qed.

Lemma ospec_close_fd e fd h :
  holds (false, fd) h ->
  ospec e (adb_close fd) (fun _ new _ => only quiet new /\ balanced (h ++ new) /\ new <> [])
    (blocked (fun new => new = [])).
Proof.
  intros Hh. eapply ospec_mono; [apply ospec_close| |done].
  intros a new _ ->. split_and!; [by apply only_one|by apply holds_close|done].
Qed.

(** ** RECV *)

Section recv.
Context (strerror : Z -> bytes).

(** What RECV writes after the chunks when it succeeds: DONE when the file has
    been read to its end, or a FAIL message that explains why the rest is
    missing. *)
Definition recv_tail (fd : Z) (h : list event) (tail : bytes) : Prop :=
  (tail = msg_data ID_DONE 0 /\ ev (Read fd SYNC_DATA_MAX) (Ok []) ∈ h) \/ exists err, tail = fail_frame (strerror err).

Definition sent_chunk (c : bytes) : Prop := c <> [] /\ chunk_ok c.

(** What a successful RECV of [path] did: it opened that file and nothing else
    and sent what it read from it; or it could not open it and said why. *)
Definition recv_result (s : Z) (path : bytes) (h : list event) : Prop :=
  (exists fd chunks tail, opened h = [(false, fd)] /\ ev (Open path O_RDONLY None) (Ok fd) ∈ h /\
     recv_tail fd h tail /\ Forall sent_chunk chunks /\
     written_to s h = frames chunks ++ tail /\ read_from fd h = concat chunks) \/
  (opened h = [] /\ exists err, written_to s h = fail_frame (strerror err)).

(** The state of the transfer after the calls [h]. *)
Definition recv_sofar (s fd : Z) (h : list event) (chunks : list bytes) : Prop :=
  opened h = [(false, fd)] /\ written_to s h = frames chunks /\ read_from fd h = concat chunks /\ Forall sent_chunk chunks.

(** Stops: only to wait. *)
Definition waits (x : stop) (_ : list event) : Prop := x = Blocked.

Lemma ospec_fail_errno e s :
  ospec e (fail_errno strerror s)
    (fun r new _ => only (writes s) new /\ (r = 0 \/ r = -1) /\ (r = 0 -> written_to s new = fail_frame (strerror e)))
    (blocked (fun new => only (writes s) new)).
Proof. unfold fail_errno. os_step. apply ospec_fail_message. Qed.

(** A chunk has been passed on. *)
Lemma recv_sofar_chunk s fd h chunks c n1 n2 :
  recv_sofar s fd h chunks -> only (reads fd) n1 -> read_from fd n1 = c -> sent_chunk c ->
  only (writes s) n2 -> written_to s n2 = data_frame c -> recv_sofar s fd (h ++ n1 ++ n2) (chunks ++ [c]).
Proof.
  intros (Ho & Hw & Hr & Hch) Hor Er Hc How Ew. unfold recv_sofar.
  destruct (neutral_opened n1 (only_mono _ _ _ Hor (reads_neutral fd))) as [O1 _].
  destruct (neutral_opened n2 (only_mono _ _ _ How (writes_neutral s))) as [O2 _].
  rewrite !opened_app, !written_to_app, !read_from_app, Ho, O1, O2, (written_to_reads fd s n1 Hor), Ew, Er, (read_from_writes s fd n2 How).
  rewrite Hw, Hr, frames_snoc, concat_app, app_nil_r. cbn [concat]. rewrite app_nil_r.
  split_and!; [done..|]. apply Forall_app. split; [done|]. by constructor.
Qed.

Lemma ospec_recv_step e s fd b h0 chunks :
  buf_ok b -> holds (false, fd) h0 -> recv_sofar s fd h0 chunks ->
  ospec e (recv_step strerror s fd b)
    (fun x new _ => new <> [] /\
       match x with
       | inl b' => buf_ok b' /\ holds (false, fd) (h0 ++ new) /\ exists chunks', recv_sofar s fd (h0 ++ new) chunks'
       | inr (None, b') => buf_ok b' /\ holds (false, fd) (h0 ++ new) /\ recv_sofar s fd (h0 ++ new) chunks /\
           ev (Read fd SYNC_DATA_MAX) (Ok []) ∈ h0 ++ new
       | inr (Some r, b') => buf_ok b' /\ balanced (h0 ++ new) /\ (r = 0 \/ r = -1) /\
           (r = 0 -> opened (h0 ++ new) = [(false, fd)] /\ exists err,
              written_to s (h0 ++ new) = frames chunks ++ fail_frame (strerror err) /\
              read_from fd (h0 ++ new) = concat chunks)
       end)
    waits.
Proof.
  intros Hbuf Hh Hso. pose proof Hso as (Hop & Hw & Hr & Hch). unfold recv_step. rewrite Hbuf, Z.ltb_irrefl.
  os_call ospec_adb_read_ev; [done|]. intros a n1 e1 (Hin & Hor & Hne & Hni & Ha).
  assert (Hnn : only neutral n1) by (eapply only_mono; [exact Hor|apply reads_neutral]).
  pose proof (holds_neutral _ _ _ Hh Hnn) as Hh1. pose proof (written_to_reads fd s n1 Hor) as Ew1.
  destruct (neutral_app h0 n1 Hnn) as [Eo1 _]. destruct a as [[|c bs]|err].
  - destruct Ha as [Er _]. os_step. rewrite app_nil_r. split_and!; [done|done|done| |set_solver].
    unfold recv_sofar. by rewrite Eo1, written_to_app, read_from_app, Ew1, Er, !app_nil_r.
  - destruct Ha as (Er & Hlen & Hb). assert (Hl : Z.of_nat (length (c :: bs)) <= SYNC_DATA_MAX) by (unfold SYNC_DATA_MAX in *; lia).
    os_call ospec_writex2; [by intros x n [-> _]|]. intros y n2 e2 [How Hy].
    assert (Hnn2 : only neutral n2) by (eapply only_mono; [exact How|apply writes_neutral]).
    pose proof (holds_neutral _ _ _ Hh1 Hnn2) as Hh2. rewrite <- app_assoc in Hh2. pose proof (buf_store_ok _ _ Hbuf Hl) as Hb'.
    destruct Hy as [[-> Ey]|[-> _]]; simpl negb; cbv iota.
    + os_step. rewrite app_nil_r. split_and!; [by destruct n1|done|done|]. exists (chunks ++ [c :: bs]).
      by apply recv_sofar_chunk.
    + os_call (ospec_close_fd e2 fd (h0 ++ n1 ++ n2) Hh2); [by intros x n [-> _]|].
      intros r n3 e3 (_ & Hb3 & _). os_step. rewrite app_nil_r. split; [by destruct n1|].
      rewrite <- !app_assoc in Hb3. split_and!; [done|done|by right|done].
  - destruct Ha as [Er ->]. destruct (err =? EINTR) eqn:Ee; [by apply Z.eqb_eq in Ee as ->|].
    os_call ospec_fail_errno; [by intros x n [-> _]|]. intros f n2 e2 (How & Hf & Hf0).
    assert (Hnn2 : only neutral n2) by (eapply only_mono; [exact How|apply writes_neutral]).
    pose proof (holds_neutral _ _ _ Hh1 Hnn2) as Hh2. rewrite <- app_assoc in Hh2. destruct (neutral_opened n2 Hnn2) as [O2 _].
    os_call ospec_close; [by intros x n [-> _]|]. intros r n3 e3 ->. os_step. rewrite app_nil_r.
    pose proof (holds_close fd (h0 ++ n1 ++ n2) r Hh2) as Hb3. rewrite <- !app_assoc in Hb3.
    split_and!; [by destruct n1|done|done|done|]. intros ->.
    rewrite app_assoc, !opened_app, !written_to_app, !read_from_app, Ew1, Er, (Hf0 eq_refl), (read_from_writes s fd n2 How).
    rewrite <- opened_app, Eo1, O2, Hop. split; [done|]. exists err. by rewrite Hw, Hr, !app_nil_r.
Qed.

(** The end of RECV, when the file has been read. *)
Lemma ospec_recv_done e s path fd chunks (b : buf) h :
  buf_ok b -> holds (false, fd) h -> ev (Open path O_RDONLY None) (Ok fd) ∈ h -> recv_sofar s fd h chunks ->
  ev (Read fd SYNC_DATA_MAX) (Ok []) ∈ h ->
  ospec e (adb_close fd;; w ← writex s (msg_data ID_DONE 0); mret (if negb (w =? 0) then -1 else 0, b))
    (fun '(r, b') new _ => buf_ok b' /\ balanced (h ++ new) /\ (r = 0 \/ r = -1) /\ (r = 0 -> recv_result s path (h ++ new))) waits.
Proof.
  intros Hbuf Hh Hin (Ho & Hw & Hr & Hch) Hend. os_call ospec_close; [by intros x n [-> _]|]. intros a n3 e3 ->.
  pose proof (holds_close fd h a Hh) as Hb3.
  os_call ospec_writex; [by intros x n [-> _]|]. intros w n4 e4 [How Hwr]. os_step. rewrite app_nil_r.
  pose proof (only_mono _ _ _ How (writes_neutral s)) as Hn4. destruct (neutral_opened n4 Hn4) as [O4 _].
  split; [done|]. split; [rewrite app_assoc; by apply balanced_neutral|].
  destruct Hwr as [[-> E]|[-> _]]; simpl; [|split; [by right|done]]. split; [by left|]. intros _. left.
  exists fd, chunks, (msg_data ID_DONE 0). rewrite !opened_app, !opened_cons, !written_to_app, !written_to_cons, !read_from_app, !read_from_cons.
  rewrite Ho, Hw, Hr, O4, E, (read_from_writes s fd n4 How). cbn [app ev_opened ev_written ev_read]. rewrite !app_nil_r.
  split_and!; [done|set_solver| |done|done|done]. left. split; [done|set_solver].
Qed.

Lemma ospec_do_recv e s path b :
  buf_ok b ->
  ospec e (do_recv strerror s path b)
    (fun '(r, b') new _ => buf_ok b' /\ balanced new /\ (r = 0 \/ r = -1) /\ (r = 0 -> recv_result s path new)) waits.
Proof.
  intros Hbuf. unfold do_recv. os_call ospec_adb_open; [by intros x n [-> _]|].
  intros a n1 e1 (Hq & Ho & Hc & Ha). cbv zeta. pose proof (quiet_written s n1 Hq) as Ew1.
  destruct a as [fd|err]; simpl rc_int.
  - destruct Ha as [Hfd Hin]. rewrite (proj2 (Z.ltb_ge fd 0)) by done.
    assert (Hh : holds (false, fd) n1) by (unfold holds; by rewrite Ho, Hc).
    eapply (ospec_bind _ _ _ (fun '(x, b') h _ => buf_ok b' /\ match x with
       | None => exists chunks, holds (false, fd) (n1 ++ h) /\ recv_sofar s fd (n1 ++ h) chunks /\
           ev (Read fd SYNC_DATA_MAX) (Ok []) ∈ n1 ++ h
       | Some r => balanced (n1 ++ h) /\ (r = 0 \/ r = -1) /\ (r = 0 -> recv_result s path (n1 ++ h))
       end)).
    { apply (ospec_loop (fun b' h _ => buf_ok b' /\ holds (false, fd) (n1 ++ h) /\ exists chunks, recv_sofar s fd (n1 ++ h) chunks)).
      - rewrite app_nil_r. split_and!; [done|done|]. exists []. unfold recv_sofar. rewrite Ew1, (quiet_read fd n1 Hq).
        split_and!; [done|done|done|constructor].
      - intros b1 h e2 (Hb1 & Hh1 & chunks & Hs). eapply ospec_mono; [by apply (ospec_recv_step e2 s fd b1 (n1 ++ h) chunks)| |done].
        intros [b2|[[r|] b2]] new e3 [Hne Hx]; rewrite <- app_assoc in Hx; [done| |].
        + destruct Hx as (Hb2 & Hb & Hr & Hr0). split_and!; [done|done|done|]. intros ->. left.
          destruct (Hr0 eq_refl) as (O & err & E1 & E2). destruct Hs as (_ & _ & _ & Hch).
          exists fd, chunks, (fail_frame (strerror err)). split_and!; [done|set_solver|right; eauto|done..].
        + destruct Hx as (Hb2 & H1 & H2 & H3). eauto 10. }
    intros [[r|] b'] n2 e2 [Hb2 Hx]; [os_step; by rewrite app_nil_r|]. destruct Hx as (chunks & Hh2 & Hs & Hend).
    eapply ospec_mono; [apply (ospec_recv_done e2 s path fd chunks b' (n1 ++ n2)); [done|done|set_solver|done|done]| |done].
    intros [r b2] new e3. by rewrite <- app_assoc.
  - os_call ospec_fail_errno; [by intros x n [-> _]|]. intros f n2 e2 (How & Hf & Hf0). os_step. rewrite app_nil_r.
    pose proof (only_mono _ _ _ How (writes_neutral s)) as Hn2. destruct (neutral_app n1 n2 Hn2) as [O2 _].
    split; [done|]. split; [apply balanced_neutral; [unfold balanced; by rewrite Ho, Hc|done]|].
    destruct Hf as [-> | ->]; simpl; [|split; [by right|done]]. split; [by left|]. intros _. right.
    split; [by rewrite O2, Ho|]. exists e1. by rewrite written_to_app, Ew1, (Hf0 eq_refl).
Qed.
End recv.

(** ** Checks on concrete bytes and histories *)

Definition all_bytes (bs : bytes) : bool := forallb (fun b => (0 <=? b) && (b <? 256)) bs.

Lemma all_bytes_spec bs : all_bytes bs = true -> Forall is_byte bs.
Proof.
  intros H. apply Forall_forall. intros b Hb. apply forallb_forall with (x := b) in H; [|by apply list_elem_of_In].
  unfold is_byte. apply andb_prop in H as [H1%Z.leb_le H2%Z.ltb_lt]. lia.
Qed.

Definition accepts (e : event) : bool :=
  match e with
  | existT (Write _ _) (Ok r) => 0 <? r
  | existT (Write _ _) (Err _) => false
  | _ => true
  end.

Lemma accepts_spec fd h : forallb accepts h = true -> ~ write_failed fd h.
Proof.
  intros H (bs & a & Hin & Ha). apply list_elem_of_In in Hin.
  pose proof (proj1 (forallb_forall _ _) H _ Hin) as Hx. destruct a as [r|err]; simpl in Hx; [|done].
  apply Z.ltb_lt in Hx. lia.
Qed.
