(* ===== verification/FileSyncSend.v ===== *)
(** * Correctness of the sync service: SEND

    What the service may have done when [handle_send_file] reports success, and
    the descriptors it closes on every path. *)

From S2P Require Import Prelude Effects Os Sysdeps FileSync FileSyncFacts.

(** ** Calls that only answer on the socket *)

(** A call that moves no data, or a write to the socket. *)
Definition answers (s : Z) (c : call) : Prop := inert c \/ writes s c.

Lemma answers_neutral s c : answers s c -> neutral c.
Proof. intros [H|H]; [by destruct c|by eapply writes_neutral]. Qed.

Lemma answers_read s fd h : only (answers s) h -> read_from fd h = [].
Proof.
  induction 1 as [|[c a] h Hc _ IH]; [done|]. rewrite read_from_cons, IH, app_nil_r.
  destruct Hc; by destruct c.
Qed.

Lemma answers_written s fd h : only (answers s) h -> fd <> s -> written_to fd h = [].
Proof.
  intros Ho Hne. induction Ho as [|[c a] h Hc _ IH]; [done|]. rewrite written_to_cons, IH, app_nil_r.
  destruct Hc as [Hc|Hc]; destruct c; simpl in *; try done. subst. destruct a; [|done].
  by rewrite (proj2 (Z.eqb_neq s fd)).
Qed.

Lemma writes_answers s h : only (writes s) h -> only (answers s) h.
Proof. intros H. eapply only_mono; [exact H|]. by right. Qed.

Lemma inert_answers s h : only inert h -> only (answers s) h.
Proof. intros H. eapply only_mono; [exact H|]. by left. Qed.

(** Calls a failed open makes, too. *)
Definition opening (s : Z) (c : call) : Prop :=
  answers s c \/ match c with Open _ _ _ => True | _ => False end.

Lemma opening_read s fd h : only (opening s) h -> read_from fd h = [].
Proof.
  induction 1 as [|[c a] h Hc _ IH]; [done|]. rewrite read_from_cons, IH, app_nil_r.
  destruct Hc as [[]|]; by destruct c.
Qed.

Lemma opening_written s fd h : only (opening s) h -> fd <> s -> written_to fd h = [].
Proof.
  intros Ho Hne. induction Ho as [|[c a] h Hc _ IH]; [done|]. rewrite written_to_cons, IH, app_nil_r.
  destruct Hc as [[Hc|Hc]|Hc]; destruct c; simpl in *; try done. subst. destruct a; [|done].
  by rewrite (proj2 (Z.eqb_neq s fd)).
Qed.

Lemma answers_opening s h : only (answers s) h -> only (opening s) h.
Proof. intros H. eapply only_mono; [exact H|]. by left. Qed.

Lemma opens_opening s h : only opens h -> only (opening s) h.
Proof. intros H. eapply only_mono; [exact H|]. intros c [Hc|Hc]; [left; by left|by right]. Qed.

Lemma inert_neutral c : inert c -> neutral c.
Proof. by destruct c. Qed.

(** The calls that close a transfer. *)
Lemma answer_read s fd h : only (fun c => quiet c \/ writes s c) h -> read_from fd h = [].
Proof.
  induction 1 as [|[c a] h Hc _ IH]; [done|]. rewrite read_from_cons, IH, app_nil_r.
  destruct Hc; by destruct c.
Qed.

Lemma answer_written s fd h : only (fun c => quiet c \/ writes s c) h -> fd <> s -> written_to fd h = [].
Proof.
  intros Ho Hne. induction Ho as [|[c a] h Hc _ IH]; [done|]. rewrite written_to_cons, IH, app_nil_r.
  destruct Hc as [Hc|Hc]; destruct c; simpl in *; try done. subst. destruct a; [|done].
  by rewrite (proj2 (Z.eqb_neq s fd)).
Qed.

(** The file [path] was opened as [fd] with the mode [mode]: made by this call,
    or, where it existed, opened as it was (O_TRUNC is not asked for). *)
Definition opened_as (path : bytes) (mode fd : Z) (h : list event) : Prop :=
  exists flags, ev (Open path flags (Some mode)) (Ok fd) ∈ h /\
    (flags = Z.lor (Z.lor O_WRONLY O_CREAT) O_EXCL \/ flags = O_WRONLY).

Lemma opened_as_app path mode fd h1 h2 : opened_as path mode fd h1 -> opened_as path mode fd (h1 ++ h2).
Proof. intros (flags & Hin & Hf). exists flags. split; [set_solver|done]. Qed.

(** The descriptors after an attempt to open: nothing, or exactly [fd]. *)
Definition open_outcome (path : bytes) (mode fd : Z) (new : list event) : Prop :=
  closed new = [] /\
  ((fd = -1 /\ opened new = []) \/ (0 <= fd /\ opened new = [(false, fd)] /\ opened_as path mode fd new)).

Lemma ospec_open_mode s e path flags mode h :
  flags = Z.lor (Z.lor O_WRONLY O_CREAT) O_EXCL \/ flags = O_WRONLY ->
  only (opening s) h -> opened h = [] -> closed h = [] ->
  ospec e (adb_open_mode path flags mode)
    (fun a new _ => only (opening s) (h ++ new) /\ open_outcome path mode (rc_int a) (h ++ new)) waits.
Proof.
  intros Hfl Ho Eo Ec. eapply ospec_mono; [apply ospec_retry_open| |by intros x n [-> _]].
  intros a new e' (Hq & O & C & Ha). rewrite only_app. split.
  - split; [done|]. by apply opens_opening.
  - unfold open_outcome. rewrite opened_app, closed_app, Eo, Ec, O, C. split; [done|].
    destruct a; simpl; [right|by left]. destruct Ha as [Hfd Hin]. split_and!; [done|done|]. exists flags. split; [set_solver|done].
Qed.

Section send.
Context (strerror : Z -> bytes) (fs_config : bytes -> Z -> Z -> Z * Z * Z).

Lemma ospec_send_open e s path mode :
  ospec e (send_open strerror fs_config s path mode)
    (fun x new _ => only (opening s) new /\ match x with None => balanced new | Some fd => open_outcome path mode fd new end)
    waits.
Proof.
  unfold send_open. eapply ospec_bind; [apply (ospec_open_mode s e _ _ _ []); [by left|apply only_nil|done|done]|].
  intros a n1 e1 [Ho1 Hout1]. simpl in Ho1, Hout1. os_step. eapply ospec_bind.
  - instantiate (1 := fun x new _ => only (opening s) (n1 ++ new) /\
      match x with None => balanced (n1 ++ new) | Some fd => open_outcome path mode fd (n1 ++ new) end).
    destruct ((rc_int a <? 0) && (e1 =? ENOENT)) eqn:Eb.
    2:{ os_step. by rewrite app_nil_r. }
    apply andb_true_iff in Eb as [Ea _]. apply Z.ltb_lt in Ea.
    destruct Hout1 as [Ec1 [[_ Eo1]|[? _]]]; [|lia].
    os_call ospec_mkdirs; [by intros x n [-> _]|]. intros m n2 e2 [Hi2 _].
    pose proof (only_mono _ _ _ Hi2 inert_neutral) as Hn2. destruct (neutral_app n1 n2 Hn2) as [Eo2 Ec2].
    assert (Ho2 : only (opening s) (n1 ++ n2)).
    { apply only_app. split; [done|]. by apply answers_opening, inert_answers. }
    destruct (negb (m =? 0)).
    + os_call ospec_fail_errno; [by intros x n [-> _]|]. intros f n3 e3 (Hw3 & _ & _).
      pose proof (only_mono _ _ _ Hw3 (writes_neutral s)) as Hn3. destruct (neutral_app (n1 ++ n2) n3 Hn3) as [Eo3 Ec3].
      os_step. rewrite app_nil_r, app_assoc, only_app. split.
      { split; [done|]. by apply answers_opening, writes_answers. }
      destruct (negb (f =? 0)); unfold balanced, open_outcome; rewrite Eo3, Ec3, Eo2, Ec2, Eo1, Ec1; [done|].
      split; [done|]. by left.
    + eapply ospec_bind; [apply (ospec_open_mode s e2 _ _ _ (n1 ++ n2)); [by left|done|congruence|congruence]|].
      intros a' n3 e3 [Ho3 Hout3]. os_step. rewrite app_nil_r, app_assoc. done.
  - intros [fd|] n2 e2 [Ho2 Hx]; [|os_step; by rewrite app_nil_r]. os_step.
    destruct ((fd <? 0) && (e2 =? EEXIST)) eqn:Eb; [|os_step; by rewrite app_nil_r].
    apply andb_true_iff in Eb as [Ea _]. apply Z.ltb_lt in Ea. destruct Hx as [Ec [[_ Eo]|[? _]]]; [|lia].
    eapply ospec_bind; [apply (ospec_open_mode s e2 _ _ _ (n1 ++ n2)); [by right|done..]|].
    intros a' n3 e3 [Ho3 Hout3]. os_step. by rewrite app_nil_r, app_assoc.
Qed.

(** The owner and the mode of the file were asked for; what the system answers
    is not looked at, but a refused owner is reported. *)
Definition prepared (fd uid gid mode : Z) (h : list event) : Prop :=
  (exists a, ev (Fchown fd uid gid) a ∈ h) /\ (exists a, ev (Fchmod fd mode) a ∈ h).

Lemma prepared_app fd uid gid mode h1 h2 h3 : prepared fd uid gid mode h2 -> prepared fd uid gid mode (h1 ++ h2 ++ h3).
Proof. intros [[a Ha] [b Hb]]. split; [exists a|exists b]; set_solver. Qed.

(** After [send_prepare]: the same descriptor, or the peer was told why there
    is none. *)
Lemma ospec_send_prepare e s fd uid gid mode :
  fd = -1 \/ 0 <= fd ->
  ospec e (send_prepare strerror s fd uid gid mode)
    (fun x new _ => only (answers s) new /\
       match x with
       | None => fd = -1
       | Some fd' => fd' = fd /\ (fd = -1 -> exists r, written_to s new = fail_frame r) /\
           (0 <= fd -> prepared fd uid gid mode new)
       end) waits.
Proof.
  intros Hfd. unfold send_prepare. destruct (Z.ltb_spec fd 0) as [Hneg|Hpos].
  - assert (fd = -1) as -> by lia. os_call ospec_fail_errno; [by intros x n [-> _]|].
    intros f n1 e1 (Hw & Hf & Hf0). os_step. rewrite app_nil_r. split; [by apply writes_answers|].
    destruct Hf as [-> | ->]; simpl; [|done]. split_and!; [done|eauto|lia].
  - os_call (ospec_one (answers s) e (Fchown fd uid gid)); [by left|by intros x n [-> _]|].
    intros o n1 e1 (-> & _ & Hq1 & _). eapply ospec_bind.
    + instantiate (1 := fun _ new _ => only (answers s) new). destruct o as [[]|err].
      * os_step. apply only_nil.
      * os_call ospec_fail_errno; [by intros x n [-> _]|]. intros f n2 e2 (Hw & _).
        apply ospec_set_errno. rewrite app_nil_r. by apply writes_answers.
    + intros [] n2 e2 Hq2. os_call (ospec_one (answers s) e2 (Fchmod fd mode)); [by left|by intros x n [-> _]|].
      intros r n3 e3 (-> & _ & Hq3 & _). os_step. rewrite app_nil_r, !only_app. split; [done|].
      split_and!; [done|lia|]. intros _. split; [exists o|exists r]; set_solver.
Qed.

(** *** The transfer loop

    [fd0] is the descriptor it starts with, [fd] its current value, [h] the
    calls the loop has made. *)

Definition fd_now (fd0 fd : Z) (h : list event) : Prop :=
  opened h = [] /\ ((fd = fd0 /\ closed h = []) \/ (fd = -1 /\ 0 <= fd0 /\ closed h = [(false, fd0)])).

(** The descriptor the loop started with is closed, once. *)
Definition settled (fd0 : Z) (h : list event) : Prop :=
  opened h = [] /\ closed h = if fd0 <? 0 then [] else [(false, fd0)].

(** The file holds the chunks received, or the peer knows that it does not. *)
Definition file_now (s fd0 fd : Z) (h : list event) (chunks : list bytes) : Prop :=
  (fd = fd0 /\ closed h = [] /\
   (fd0 <> s -> written_to s h = [] /\ (0 <= fd0 -> written_to fd0 h = concat chunks))) \/
  (fd = -1 /\ 0 <= fd0 /\ closed h = [(false, fd0)] /\ (fd0 <> s -> exists r, written_to s h = fail_frame r)).

Definition send_sofar (s fd0 fd : Z) (h : list event) : Prop :=
  opened h = [] /\ exists chunks, read_from s h = frames chunks /\ Forall chunk_ok chunks /\ file_now s fd0 fd h chunks.

Definition send_done (s fd0 fd ts : Z) (h : list event) : Prop :=
  opened h = [] /\ 0 <= ts < 2 ^ 32 /\ exists chunks, read_from s h = frames chunks ++ msg_data ID_DONE ts /\ Forall chunk_ok chunks /\
    file_now s fd0 fd h chunks.

Lemma file_fd_now s fd0 fd h chunks : opened h = [] -> file_now s fd0 fd h chunks -> fd_now fd0 fd h.
Proof. intros Ho [(-> & Hc & _)|(-> & Hp & Hc & _)]; (split; [done|]); [by left|by right]. Qed.

(** Reading more from the socket changes only what was received. *)
Lemma file_now_reads s fd0 fd h chunks new :
  only (reads s) new -> file_now s fd0 fd h chunks ->
  opened (h ++ new) = opened h /\
  file_now s fd0 fd (h ++ new) chunks.
Proof.
  intros Hr Hf. destruct (neutral_app h new (only_mono _ _ _ Hr (reads_neutral s))) as [Eo Ec].
  split; [done|]. unfold file_now.
  by rewrite Ec, !written_to_app, !(written_to_reads s _ new Hr), !app_nil_r.
Qed.

Lemma fd_now_neutral fd0 fd h new : only neutral new -> fd_now fd0 fd h -> fd_now fd0 fd (h ++ new).
Proof. intros Hn Hf. destruct (neutral_app h new Hn) as [Eo Ec]. unfold fd_now. by rewrite Eo, Ec. Qed.

(** A message that ends the transfer by an error. *)
Lemma ospec_send_abort e s fd0 fd b h reason :
  fd_now fd0 fd h ->
  ospec e (fail_message s reason;; mret (inr (Exit_fail fd, b) : Z * buf + send_exit * buf))
    (fun x new _ => x = inr (Exit_fail fd, b) /\ fd_now fd0 fd (h ++ new)) waits.
Proof.
  intros Hf. os_call ospec_fail_message; [by intros x n [-> _]|]. intros r n1 e1 (Hw & _).
  os_step. rewrite app_nil_r. split; [done|]. eapply fd_now_neutral; [|done].
  exact (only_mono _ _ _ Hw (writes_neutral s)).
Qed.

(** The end of a failed write: the file is given up. *)
Lemma ospec_send_giveup e s path (do_unlink : bool) fd0 (b : buf) h :
  0 <= fd0 -> closed h = [] -> opened h = [] -> (fd0 <> s -> written_to s h = []) ->
  ospec e (saved_errno ← get_errno;
           adb_close fd0;;
           (if do_unlink then adb_unlink path;; skip else skip);;
           set_errno saved_errno;;
           f ← fail_errno strerror s;
           mret ((if negb (f =? 0) then inr (Exit_return, b) else inl (-1, b)) : Z * buf + send_exit * buf))
    (fun x new _ => (forall fd, read_from fd new = []) /\ opened (h ++ new) = [] /\ closed (h ++ new) = [(false, fd0)] /\
       (x = inr (Exit_return, b) \/ (x = inl (-1, b) /\ (fd0 <> s -> exists r, written_to s (h ++ new) = fail_frame r)))) waits.
Proof.
  intros Hp Hc Ho Hw. os_step. os_call ospec_close; [by intros x n [-> _]|]. intros a n1 e1 ->.
  eapply (ospec_bind _ _ _ (fun _ new _ => only inert new)).
  { destruct do_unlink; [|os_step; apply only_nil].
    os_call (ospec_one inert e1 (Unlink path)); [done|by intros x n [-> _]|]. intros r n2 e2 (-> & _ & Hi & _).
    os_step. by rewrite app_nil_r. }
  intros [] n2 e2 Hi. os_step. os_call ospec_fail_errno; [by intros x n [-> _]|].
  intros f n3 e3 (Hw3 & Hf & Hf0). os_step. rewrite app_nil_r.
  destruct (neutral_opened n2 (only_mono _ _ _ Hi inert_neutral)) as [Eo2 Ec2].
  destruct (neutral_opened n3 (only_mono _ _ _ Hw3 (writes_neutral s))) as [Eo3 Ec3].
  rewrite !opened_app, !closed_app, Ho, Hc, Eo2, Ec2, Eo3, Ec3. split_and!; [|done|done|].
  - intros fd. rewrite !read_from_app, (quiet_read fd n2 (inert_only_quiet _ Hi)), (read_from_writes s fd n3 Hw3). done.
  - destruct Hf as [-> | ->]; simpl; [right|by left]. split; [done|]. intros Hne. exists (strerror e).
    rewrite written_to_app, (Hw Hne), written_to_cons, written_to_app.
    rewrite (quiet_written s n2 (inert_only_quiet _ Hi)), (Hf0 eq_refl). done.
Qed.

Lemma ospec_send_step e s path do_unlink fd0 fd b h :
  buf_ok b -> send_sofar s fd0 fd h ->
  ospec e (send_step strerror s path do_unlink fd b)
    (fun x new _ => match x with
       | inl (fd', b') => buf_ok b' /\ new <> [] /\ send_sofar s fd0 fd' (h ++ new)
       | inr (Exit_done fd' ts, b') => buf_ok b' /\ send_done s fd0 fd' ts (h ++ new)
       | inr (Exit_fail fd', b') => buf_ok b' /\ fd_now fd0 fd' (h ++ new)
       | inr (Exit_return, b') => buf_ok b' /\ settled fd0 (h ++ new)
       end) waits.
Proof.
  intros Hbuf (Ho & chunks & Hr & Hch & Hf). pose proof (file_fd_now _ _ _ _ _ Ho Hf) as Hfd.
  unfold send_step. os_call ospec_readx; [lia|by intros x n [-> _]|]. intros m n1 e1 [Hor1 Hm].
  assert (Hn1 : only neutral n1) by exact (only_mono _ _ _ Hor1 (reads_neutral s)).
  destruct m as [msg|]; [|os_step; rewrite app_nil_r; split; [done|by apply fd_now_neutral]].
  destruct Hm as (Er1 & Hl1 & Hb1). pose proof (msg_data_decode msg Hl1 Hb1) as Emsg.
  pose proof (data_size_range msg Hl1 Hb1) as Hsz.
  destruct (file_now_reads s fd0 fd h chunks n1 Hor1 Hf) as [Eo1 Hf1]. rewrite Ho in Eo1.
  destruct (Z.eqb_spec (data_id msg) ID_DATA) as [Eid|_]; simpl negb; cbv iota.
  2:{ destruct (Z.eqb_spec (data_id msg) ID_DONE) as [Ed|_].
      - os_step. rewrite app_nil_r. split; [done|]. split; [done|]. split; [done|]. exists chunks. rewrite read_from_app, Hr, Er1.
        split_and!; [by rewrite Emsg, Ed at 1|done|exact Hf1].
      - eapply ospec_mono; [by apply (ospec_send_abort e1 s fd0 fd b (h ++ n1)), fd_now_neutral| |done].
        intros x new _ [-> Hx]. by rewrite <- app_assoc in Hx. }
  rewrite Z.gtb_ltb. destruct (Z.ltb_spec SYNC_DATA_MAX (data_size msg)) as [_|Hmax].
  { eapply ospec_mono; [by apply (ospec_send_abort e1 s fd0 fd b (h ++ n1)), fd_now_neutral| |done].
    intros x new _ [-> Hx]. by rewrite <- app_assoc in Hx. }
  os_call ospec_readx_into; [unfold buf_ok in Hbuf; lia|by intros x n [-> _]|]. intros d n2 e2 [Hor2 Hd].
  assert (Hn2 : only neutral n2) by exact (only_mono _ _ _ Hor2 (reads_neutral s)).
  destruct d as [data|].
  2:{ os_step. rewrite app_nil_r, app_assoc. split; [done|]. by do 2 (apply fd_now_neutral; [done|]). }
  destruct Hd as (Er2 & Hl2 & Hb2). pose proof (buf_store_ok data b Hbuf ltac:(lia)) as Hbuf'.
  destruct (file_now_reads s fd0 fd (h ++ n1) chunks n2 Hor2 Hf1) as [Eo2 Hf2]. rewrite Eo1 in Eo2.
  assert (Hne1 : n1 <> []) by (intros ->; rewrite <- Er1 in Hl1; done).
  assert (Erd : read_from s ((h ++ n1) ++ n2) = frames (chunks ++ [data])).
  { rewrite !read_from_app, Hr, Er1, Er2, frames_snoc, <- app_assoc. f_equal. unfold data_frame.
    rewrite Hl2, <- Eid, <- Emsg. done. }
  assert (Hch' : Forall chunk_ok (chunks ++ [data])).
  { apply Forall_app. split; [done|]. constructor; [|constructor]. unfold chunk_ok. lia. }
  cbv zeta. destruct (Z.ltb_spec fd 0) as [Hneg|Hpos].
  { os_step. rewrite app_nil_r, app_assoc. split; [done|]. split; [by destruct n1|]. split; [done|].
    exists (chunks ++ [data]). split_and!; [done|done|]. destruct Hf2 as [(-> & ? & Hfile)|Hf2]; [left|by right].
    split_and!; [done|done|]. intros Hne. split; [by apply Hfile|lia]. }
  destruct Hf2 as [(-> & Ec2 & Hfile)|(-> & _)]; [|lia].
  os_call ospec_writex; [by intros x n [-> _]|]. intros w n3 e3 [How3 Hw3].
  destruct (neutral_app ((h ++ n1) ++ n2) n3 (only_mono _ _ _ How3 (writes_neutral fd0))) as [Eo3 Ec3].
  assert (Ews : fd0 <> s -> written_to s (((h ++ n1) ++ n2) ++ n3) = []).
  { intros Hne. by rewrite written_to_app, (proj1 (Hfile Hne)), (written_to_writes_ne fd0 s n3 How3 Hne). }
  assert (Ers : read_from s (((h ++ n1) ++ n2) ++ n3) = frames (chunks ++ [data])).
  { by rewrite read_from_app, Erd, (read_from_writes fd0 s n3 How3), app_nil_r. }
  destruct Hw3 as [[-> Ew3]|[-> _]]; simpl negb; cbv iota.
  - os_step. rewrite app_nil_r, !app_assoc. split; [done|]. split; [by destruct n1|]. split; [by rewrite Eo3|].
    exists (chunks ++ [data]). split_and!; [done|done|]. left. split_and!; [done|by rewrite Ec3|]. intros Hne.
    split; [by apply Ews|]. intros _. rewrite written_to_app, (proj2 (Hfile Hne) Hpos), Ew3, concat_app.
    cbn [concat]. by rewrite app_nil_r.
  - eapply ospec_mono; [apply (ospec_send_giveup e3 s path do_unlink fd0 (buf_store data b) (((h ++ n1) ++ n2) ++ n3)); [done|congruence|congruence|done]| |done].
    intros x new _ (Hrd & Hon & Hcn & [->|[-> Er]]); rewrite <- !app_assoc in *.
    { split; [done|]. split; [done|]. by rewrite (proj2 (Z.ltb_ge _ _)). }
    split; [done|]. split; [by destruct n1|]. split; [done|]. exists (chunks ++ [data]). rewrite !app_assoc in *.
    split_and!; [by rewrite read_from_app, Ers, Hrd, app_nil_r|done|]. by right.
Qed.

(** *** After the loop *)

Lemma settled_neutral fd0 h new : only neutral new -> settled fd0 h -> settled fd0 (h ++ new).
Proof. intros Hn [Ho Hc]. destruct (neutral_app h new Hn) as [Eo Ec]. split; congruence. Qed.

Lemma fd_now_settled fd0 fd h : fd_now fd0 fd h -> fd < 0 -> settled fd0 h.
Proof.
  intros [Ho Hf] Hneg. split; [done|]. destruct Hf as [[-> Hc]|(-> & Hp & Hc)].
  - by rewrite (proj2 (Z.ltb_lt _ _)).
  - by rewrite (proj2 (Z.ltb_ge _ _)).
Qed.

Lemma fd_now_close fd0 fd h a : fd_now fd0 fd h -> 0 <= fd -> settled fd0 (h ++ [ev (Close fd) a]).
Proof.
  intros [Ho Hf] Hpos. destruct Hf as [[-> Hc]|(-> & _)]; [|lia].
  unfold settled. rewrite opened_app, closed_app, Ho, Hc. by rewrite (proj2 (Z.ltb_ge _ _)).
Qed.

Lemma ospec_unlink_if e (do_unlink : bool) path :
  ospec e (if do_unlink then adb_unlink path;; skip else skip) (fun _ new _ => only inert new) waits.
Proof.
  destruct do_unlink; [|os_step; apply only_nil].
  os_call (ospec_one inert e (Unlink path)); [done|by intros x n [-> _]|]. intros r n2 e2 (-> & _ & Hi & _).
  os_step. by rewrite app_nil_r.
Qed.

(** The answer for a finished transfer. *)
Definition okay_sent (path : bytes) (ts : Z) (new : list event) : Prop :=
  exists a, ev (Utime path ts ts) a ∈ new.

Lemma ospec_send_finish_done e s path do_unlink fd0 fd ts h :
  fd_now fd0 fd h ->
  ospec e (send_finish s path do_unlink (Exit_done fd ts))
    (fun r new _ => only (fun c => quiet c \/ writes s c) new /\ settled fd0 (h ++ new) /\ (r = 0 \/ r = -1) /\
       (r = 0 -> if fd <? 0 then new = []
                 else written_to s new = msg_data ID_OKAY 0 /\ okay_sent path ts new)) waits.
Proof.
  intros Hf. unfold send_finish. rewrite Z.geb_leb. destruct (Z.leb_spec 0 fd) as [Hp|Hn].
  - os_call ospec_close; [by intros x n [-> _]|]. intros a n1 e1 ->.
    os_call (ospec_one inert e1 (Restorecon path)); [done|by intros x n [-> _]|]. intros r1 n2 e2 (-> & _ & Hi2 & _).
    os_call (ospec_one inert e2 (Utime path ts ts)); [done|by intros x n [-> _]|]. intros r2 n3 e3 (-> & _ & Hi3 & _).
    os_call ospec_writex; [by intros x n [-> _]|]. intros w n4 e4 [How Hw]. os_step. rewrite app_nil_r.
    assert (Hs : settled fd0 (h ++ [ev (Close fd) a] ++ [ev (Restorecon path) r1] ++ [ev (Utime path ts ts) r2] ++ n4)).
    { rewrite !app_assoc. apply settled_neutral; [exact (only_mono _ _ _ How (writes_neutral s))|].
      do 2 (apply settled_neutral; [by apply only_one|]). by apply fd_now_close. }
    split_and!; [|exact Hs| |].
    + rewrite !only_app. split_and!; [by apply only_one; left..|]. eapply only_mono; [exact How|]. by right.
    + destruct Hw as [[-> _]|[-> _]]; [by left|by right].
    + rewrite (proj2 (Z.ltb_ge _ _)) by done. destruct Hw as [[-> E]|[-> _]]; [|done]. intros _. split.
      * rewrite !written_to_app, E. done.
      * exists r2. set_solver.
  - os_step. rewrite app_nil_r. split_and!; [apply only_nil|by eapply fd_now_settled|by left|].
    by rewrite (proj2 (Z.ltb_lt _ _)).
Qed.

Lemma ospec_send_finish_fail e s path do_unlink fd0 fd h :
  fd_now fd0 fd h ->
  ospec e (send_finish s path do_unlink (Exit_fail fd)) (fun r new _ => r = -1 /\ settled fd0 (h ++ new)) waits.
Proof.
  intros Hf. unfold send_finish. eapply (ospec_bind _ _ _ (fun _ new _ => settled fd0 (h ++ new))).
  - rewrite Z.geb_leb. destruct (Z.leb_spec 0 fd).
    + os_call ospec_close; [by intros x n [-> _]|]. intros a n1 e1 ->. os_step. by apply fd_now_close.
    + os_step. rewrite app_nil_r. by eapply fd_now_settled.
  - intros [] n1 e1 Hs. os_call ospec_unlink_if; [done|]. intros [] n2 e2 Hi. os_step. split; [done|].
    rewrite app_nil_r, app_assoc. apply settled_neutral; [|done]. exact (only_mono _ _ _ Hi inert_neutral).
Qed.

(** ** handle_send_file *)

(** No descriptor of a file is the socket. *)
Definition fresh_from (s : Z) (new : list event) : Prop := (false, s) ∉ opened new.

(** What success means: the socket delivered chunks and the time of the file;
    the last thing written to it is OKAY, and then the only descriptor opened is
    that of the file [path], the bytes written to it are the chunks, and its
    owner, mode and time have been asked for; or it is FAIL. *)
Definition send_success (s : Z) (path : bytes) (owner : Z * Z * Z) (new : list event) : Prop :=
  let '(uid, gid, mode) := owner in
  exists chunks ts pre, read_from s new = frames chunks ++ msg_data ID_DONE ts /\ Forall chunk_ok chunks /\ 0 <= ts < 2 ^ 32 /\
    ((exists fd, opened new = [(false, fd)] /\ opened_as path mode fd new /\ prepared fd uid gid mode new /\
        written_to s new = pre ++ msg_data ID_OKAY 0 /\ written_to fd new = concat chunks /\ okay_sent path ts new) \/
     (exists r, written_to s new = pre ++ fail_frame r)).

Lemma balanced_total path mode fd0 n1 n2 h :
  open_outcome path mode fd0 n1 -> only neutral n2 -> settled fd0 h -> balanced (n1 ++ n2 ++ h).
Proof.
  intros [Hc1 Ho1] Hn [Ho Hc]. destruct (neutral_opened n2 Hn) as [Eo2 Ec2].
  unfold balanced. rewrite !opened_app, !closed_app, Hc1, Eo2, Ec2, Ho, Hc, app_nil_r. simpl.
  destruct Ho1 as [[-> ->]|(Hp & -> & _)]; [done|]. by rewrite (proj2 (Z.ltb_ge _ _)).
Qed.

Lemma send_success_total s path uid gid mode fd0 fd ts chunks n1 n2 h n4 :
  0 <= s -> only (opening s) n1 -> open_outcome path mode fd0 n1 -> only (answers s) n2 ->
  (fd0 = -1 -> exists r, written_to s n2 = fail_frame r) -> (0 <= fd0 -> prepared fd0 uid gid mode n2) ->
  opened h = [] -> read_from s h = frames chunks ++ msg_data ID_DONE ts -> Forall chunk_ok chunks -> 0 <= ts < 2 ^ 32 ->
  file_now s fd0 fd h chunks -> only (fun c => quiet c \/ writes s c) n4 -> opened n4 = [] ->
  (if fd <? 0 then n4 = [] else written_to s n4 = msg_data ID_OKAY 0 /\ okay_sent path ts n4) ->
  fresh_from s (n1 ++ n2 ++ h ++ n4) -> send_success s path (uid, gid, mode) (n1 ++ n2 ++ h ++ n4).
Proof.
  intros Hs Ho1 [Hc1 Hopen] Ha2 Hfail Hprep Oh Hr Hch Hts Hf Ho4 O4 Hfin Hfresh.
  assert (Hne : fd0 <> s).
  { destruct Hopen as [[-> _]|(_ & E & _)]; [lia|]. intros ->. apply Hfresh. rewrite opened_app, E. set_solver. }
  destruct (neutral_opened n2 (only_mono _ _ _ Ha2 (answers_neutral s))) as [O2 _]. unfold send_success.
  rewrite !read_from_app, (opening_read s s n1 Ho1), (answers_read s s n2 Ha2), Hr, (answer_read s s n4 Ho4), app_nil_r.
  rewrite !written_to_app. destruct Hf as [(-> & Hcl & Hfile)|(-> & Hp & Hcl & Hfr)].
  - destruct (Hfile Hne) as [Ews Efd]. rewrite Ews. destruct (Z.ltb_spec fd0 0) as [Hneg|Hpos].
    + subst n4. destruct Hopen as [[E _]|[? _]]; [|lia]. destruct (Hfail E) as [r Er].
      exists chunks, ts, (written_to s n1). split_and!; [done|done|lia|lia|]. right. exists r. by rewrite Er, !app_nil_r.
    + destruct Hopen as [[E _]|(_ & Op & Has)]; [lia|]. destruct Hfin as [E4 Hok4].
      exists chunks, ts, (written_to s n1 ++ written_to s n2).
      split_and!; [done|done|lia|lia|]. left. exists fd0. rewrite E4, <- app_assoc.
      split_and!; [by rewrite !opened_app, Op, O2, Oh, O4|by apply opened_as_app|by apply prepared_app, Hprep|done| |].
      * rewrite !written_to_app, (opening_written s fd0 n1 Ho1 Hne), (answers_written s fd0 n2 Ha2 Hne).
        rewrite (Efd Hpos), (answer_written s fd0 n4 Ho4 Hne), app_nil_r. done.
      * destruct Hok4 as [a Ha]. exists a. set_solver.
  - destruct (Hfr Hne) as [r Er]. exists chunks, ts, (written_to s n1 ++ written_to s n2).
    split_and!; [done|done|lia|lia|]. right. exists r. simpl in Hfin. subst n4. by rewrite Er, app_nil_r, app_assoc.
Qed.

Lemma ospec_handle_send_file e s path uid gid mode b do_unlink :
  0 <= s -> buf_ok b -> ospec e (handle_send_file strerror fs_config s path uid gid mode b do_unlink)
    (fun '(r, b') new _ => buf_ok b' /\ balanced new /\ (r = 0 \/ r = -1) /\
       (r = 0 -> fresh_from s new -> send_success s path (uid, gid, mode) new)) waits.
Proof.
  intros Hs0 Hbuf. unfold handle_send_file. os_call ospec_send_open; [done|]. intros [fd0|] n1 e1 [Ho1 Hx].
  2:{ os_step. rewrite app_nil_r. split_and!; [done|done|by right|done]. }
  pose proof Hx as [Hc1 Hfd0].
  os_call ospec_send_prepare; [destruct Hfd0 as [[-> _]|[? _]]; [by left|by right]|done|].
  intros p n2 e2 [Ha2 Hp]. assert (Hn2 : only neutral n2) by exact (only_mono _ _ _ Ha2 (answers_neutral s)).
  destruct p as [fd|].
  2:{ subst fd0. os_step. rewrite app_nil_r.
      split_and!; [done| |by right|done]. rewrite <- (app_nil_r n2). by apply (balanced_total path mode (-1)). }
  destruct Hp as (-> & Hfail & Hprep).
  eapply (ospec_bind _ _ _ (fun '(x, b') h _ => buf_ok b' /\ match x with
    | Exit_done fd' ts => send_done s fd0 fd' ts h
    | Exit_fail fd' => fd_now fd0 fd' h
    | Exit_return => settled fd0 h
    end)).
  { apply (ospec_loop (fun '(fd, b') h _ => buf_ok b' /\ send_sofar s fd0 fd h)).
    - split; [done|]. split; [done|]. exists []. split_and!; [done|constructor|]. left. split_and!; done.
    - intros [fd b1] h e3 [Hb1 Hs]. eapply ospec_mono; [by apply (ospec_send_step e3 s path do_unlink fd0 fd b1 h)| |done].
      intros [[fd' b2]|[[fd'|fd' ts|] b2]] new e4 Hq; [|done..]. destruct Hq as (? & ? & ?). done. }
  intros [x b'] h e3 [Hb' Hx3]. destruct x as [fd'|fd' ts|].
  - os_call (ospec_send_finish_fail e3 s path do_unlink fd0 fd' h Hx3); [done|]. intros r n4 e4 [-> Hs].
    os_step. rewrite app_nil_r. split_and!; [done| |by right|done]. by apply (balanced_total path mode fd0).
  - destruct Hx3 as (Ho3 & Hts & chunks & Hr3 & Hch & Hf3). pose proof (file_fd_now _ _ _ _ _ Ho3 Hf3) as Hfd3.
    os_call (ospec_send_finish_done e3 s path do_unlink fd0 fd' ts h Hfd3); [done|].
    intros r n4 e4 (Ho4 & Hs & Hr & Hr0). os_step. rewrite app_nil_r.
    split_and!; [done|by apply (balanced_total path mode fd0)|done|]. intros -> Hfresh.
    assert (O4 : opened n4 = []) by (destruct Hs as [Hs _]; rewrite opened_app, Ho3 in Hs; exact Hs).
    apply (send_success_total s path uid gid mode fd0 fd' ts chunks n1 n2 h n4); try done. by apply Hr0.
  - unfold send_finish. os_step. os_step. rewrite app_nil_r.
    split_and!; [done|by apply (balanced_total path mode fd0)|by right|done].
Qed.
End send.
