(* ===== verification/FileSyncSpec.v ===== *)
(** * What the sync service promises

    LIST and STAT, the service loop, and the theorems about
    [file_sync_service.c]. *)

From S2P Require Import Prelude Effects Os Sysdeps FileSync FileSyncFacts FileSyncSend.

(** ** LIST *)

(** The entries a history examined, with the answers. *)
Definition ev_lstat (e : event) : list bytes :=
  match projT1 e with Lstat p => [p] | _ => [] end.

Definition ev_stat (e : event) : list (bytes * stat_t) :=
  match e with existT (Lstat p) (Ok st) => [(p, st)] | _ => [] end.

Definition ev_name (e : event) : list bytes :=
  match e with existT (Readdir _) (Ok (Some name)) => [name] | _ => [] end.

Definition lstats (h : list event) : list bytes := h ≫= ev_lstat.

Definition stats (h : list event) : list (bytes * stat_t) := h ≫= ev_stat.

Definition names (h : list event) : list bytes := h ≫= ev_name.

Arguments lstats : simpl never.
Arguments stats : simpl never.
Arguments names : simpl never.

(** The DENT message of an entry of [path]. *)
Definition dent_of (path : bytes) (x : bytes * stat_t) : bytes :=
  let name := drop (S (length path)) x.1 in
  msg_dent ID_DENT (u32 (st_mode x.2)) (u32 (st_size x.2)) (u32 (st_mtime x.2)) (Z.of_nat (length name)) ++ name.

(** Writes examine nothing. *)
Lemma writes_lists s h : only (writes s) h -> lstats h = [] /\ stats h = [] /\ names h = [].
Proof.
  induction 1 as [|[c a] h Hc _ (IH1 & IH2 & IH3)]; [done|]. unfold lstats, stats, names in *.
  cbn [mbind list_bind]. rewrite IH1, IH2, IH3. by destruct c.
Qed.

Lemma lists_app h1 h2 :
  lstats (h1 ++ h2) = lstats h1 ++ lstats h2 /\ stats (h1 ++ h2) = stats h1 ++ stats h2 /\
  names (h1 ++ h2) = names h1 ++ names h2.
Proof. unfold lstats, stats, names. by rewrite !bind_app. Qed.

(** The answer so far is a function of the entries examined so far, and every
    entry [readdir] returned was examined. *)
Definition list_sofar (s : Z) (path : bytes) (h : list event) : Prop :=
  written_to s h = (stats h ≫= dent_of path) /\ lstats h = (fun n => path ++ 47 :: n) <$> names h.

Lemma dent_of_name path name st :
  dent_of path (path ++ 47 :: name, st) =
  msg_dent ID_DENT (u32 (st_mode st)) (u32 (st_size st)) (u32 (st_mtime st)) (Z.of_nat (length name)) ++ name.
Proof.
  unfold dent_of. cbn [fst snd].
  replace (path ++ 47 :: name) with ((path ++ [47]) ++ name) by (by rewrite <- app_assoc).
  by rewrite drop_app_length' by (rewrite length_app; simpl; lia).
Qed.

Lemma ospec_list_entry e s d path name h :
  Z.of_nat (length path) <= 1024 -> Z.of_nat (length name) <= NAME_MAX ->
  holds (true, d) h -> written_to s h = (stats h ≫= dent_of path) ->
  lstats h ++ [path ++ 47 :: name] = ((fun n => path ++ 47 :: n) <$> names h) ->
  ospec e (list_entry s d path name)
    (fun x new _ => match x with
       | None => holds (true, d) (h ++ new) /\ list_sofar s path (h ++ new)
       | Some r => r = -1 /\ balanced (h ++ new)
       end) waits.
Proof.
  unfold NAME_MAX. intros Hp Hn Hh Hw Hl. unfold list_entry, TMP_SIZE. cbv zeta.
  destruct (Z.gtb_spec (Z.of_nat (length name)) 256); [lia|].
  destruct (Z.gtb_spec (Z.of_nat (length path) + 1 + Z.of_nat (length name) + 1) (1024 + 256 + 1)); [lia|].
  os_call (ospec_one inert e (Lstat (path ++ 47 :: name))); [done|by intros x n [-> _]|].
  intros r n1 e1 (-> & _ & Hi & _). set (lst := ev (Lstat (path ++ 47 :: name)) r).
  assert (Hh1 : holds (true, d) (h ++ [lst])) by (apply holds_neutral; [done|by apply only_one]).
  destruct (lists_app h [lst]) as (E1 & E2 & E3).
  assert (Hl1 : lstats (h ++ [lst]) = (fun n => path ++ 47 :: n) <$> names (h ++ [lst])).
  { rewrite E1, E3. replace (names [lst]) with (@nil bytes) by done. by rewrite app_nil_r, <- Hl. }
  assert (Hw1 : written_to s (h ++ [lst]) = written_to s h) by (by rewrite written_to_app, app_nil_r).
  destruct r as [st|err].
  - os_call ospec_writex2; [by intros x n [-> _]|]. intros b n2 e2 [How Hb].
    assert (Hn2 : only neutral n2) by exact (only_mono _ _ _ How (writes_neutral s)).
    pose proof (holds_neutral _ _ _ Hh1 Hn2) as Hh2. rewrite <- app_assoc in Hh2.
    destruct Hb as [[-> Eb]|[-> _]]; simpl negb; cbv iota.
    + os_step. rewrite app_nil_r. split; [done|]. rewrite app_assoc.
      destruct (lists_app (h ++ [lst]) n2) as (F1 & F2 & F3). destruct (writes_lists s n2 How) as (G1 & G2 & G3).
      unfold list_sofar. rewrite F1, F2, F3, G1, G2, G3, !app_nil_r. split; [|done].
      rewrite written_to_app, Hw1, Hw, Eb, E2, bind_app. f_equal.
      change (stats [lst]) with [(path ++ 47 :: name, st)]. cbn [mbind list_bind]. by rewrite app_nil_r, dent_of_name.
    + os_call (ospec_one (fun _ => True) e2 (Closedir d)); [done|by intros x n [-> _]|]. intros c n3 e3 (-> & _).
      os_step. rewrite app_nil_r. split; [done|]. rewrite app_assoc, app_assoc, <- (app_assoc h).
      unfold balanced. rewrite opened_app, closed_app, Hh2. by rewrite app_nil_r.
  - os_step. rewrite app_nil_r. split; [done|]. split; [|done]. rewrite Hw1, E2, Hw.
    by rewrite (app_nil_r (stats h) : stats h ++ stats [lst] = stats h).
Qed.

Lemma ospec_do_list e s path :
  Z.of_nat (length path) <= 1024 ->
  ospec e (do_list s path)
    (fun r new _ => balanced new /\ (r = 0 \/ r = -1) /\
       (r = 0 -> exists sofar, prefix sofar new /\ list_sofar s path sofar /\ stats new = stats sofar /\
          names new = names sofar /\ written_to s new = (stats new ≫= dent_of path) ++ msg_dent ID_DONE 0 0 0 0)) waits.
Proof.
  intros Hp. unfold do_list, TMP_SIZE. destruct (Z.gtb_spec (Z.of_nat (length path) + 1) (1024 + 256 + 1)); [lia|].
  assert (Hdone : forall e1 h, balanced h -> list_sofar s path h ->
    ospec e1 (writex s (msg_dent ID_DONE 0 0 0 0))
      (fun r new _ => balanced (h ++ new) /\ (r = 0 \/ r = -1) /\
         (r = 0 -> exists sofar, prefix sofar (h ++ new) /\ list_sofar s path sofar /\ stats (h ++ new) = stats sofar /\
            names (h ++ new) = names sofar /\
            written_to s (h ++ new) = (stats (h ++ new) ≫= dent_of path) ++ msg_dent ID_DONE 0 0 0 0)) waits).
  { intros e1 h Hb Hs. eapply ospec_mono; [apply ospec_writex| |by intros x n [-> _]].
    intros r n2 e2 [How Hr]. split; [eapply balanced_neutral; [done|exact (only_mono _ _ _ How (writes_neutral s))]|].
    destruct Hr as [[-> E]|[-> _]]; [split; [by left|]|split; [by right|done]]. intros _. exists h.
    destruct (lists_app h n2) as (F1 & F2 & F3). destruct (writes_lists s n2 How) as (G1 & G2 & G3).
    rewrite F2, F3, G2, G3, !app_nil_r, written_to_app, E.
    split_and!; [by apply prefix_app_r|done|done|done|]. f_equal. apply Hs. }
  os_call (ospec_one (fun _ => True) e (Opendir path)); [done|by intros x n [-> _]|]. intros o n1 e1 (-> & _).
  destruct o as [d|err].
  2:{ by apply (Hdone e1 [ev (Opendir path) (Err err)]). }
  set (op := ev (Opendir path) (Ok d)).
  eapply (ospec_bind _ _ _ (fun x h _ => match x with
    | Some r => r = -1 /\ balanced ([op] ++ h)
    | None => holds (true, d) ([op] ++ h) /\ list_sofar s path ([op] ++ h)
    end)).
  - apply (ospec_loop (fun _ h _ => holds (true, d) ([op] ++ h) /\ list_sofar s path ([op] ++ h))); [done|].
    intros [] h e2 [Hh [Hs1 Hs2]].
    os_call (ospec_one inert e2 (Readdir d)); [done|by intros x n [-> _]|]. intros de n2 e3 (-> & Hans & _ & _).
    set (rd := ev (Readdir d) de). destruct (lists_app ([op] ++ h) [rd]) as (F1 & F2 & F3).
    assert (Hh1 : holds (true, d) (([op] ++ h) ++ [rd])) by (apply holds_neutral; [done|by apply only_one]).
    assert (Hw1 : written_to s (([op] ++ h) ++ [rd]) = written_to s ([op] ++ h)) by (by rewrite written_to_app, app_nil_r).
    destruct de as [[name|]|err].
    + os_call (ospec_list_entry e3 s d path name (([op] ++ h) ++ [rd])); [done| |done| | |done|].
      * exact Hans.
      * rewrite Hw1, F2, Hs1. by rewrite (app_nil_r _ : stats ([op] ++ h) ++ stats [rd] = stats ([op] ++ h)).
      * rewrite F1, F3, fmap_app, <- Hs2. change (lstats [rd]) with (@nil bytes). by rewrite app_nil_r.
      * intros x n3 e4 Hx. os_step. rewrite app_nil_r. rewrite <- !app_assoc in Hx.
        destruct x as [r|]; [done|]. done.
    + os_step. rewrite app_nil_r, app_assoc. split; [done|]. unfold list_sofar. rewrite Hw1, F1, F2, F3.
      change (lstats [rd]) with (@nil bytes). change (stats [rd]) with (@nil (bytes * stat_t)).
      change (names [rd]) with (@nil bytes). by rewrite !app_nil_r.
    + os_step. rewrite app_nil_r, app_assoc. split; [done|]. unfold list_sofar. rewrite Hw1, F1, F2, F3.
      change (lstats [rd]) with (@nil bytes). change (stats [rd]) with (@nil (bytes * stat_t)).
      change (names [rd]) with (@nil bytes). by rewrite !app_nil_r.
  - intros [r|] h e2 Hx.
    + destruct Hx as [-> Hb]. os_step. rewrite app_nil_r. split_and!; [done|by right|done].
    + destruct Hx as [Hh Hs].
      os_call (ospec_one (fun _ => True) e2 (Closedir d)); [done|by intros x n [-> _]|]. intros c n3 e3 (-> & _).
      set (cl := ev (Closedir d) c). destruct (lists_app ([op] ++ h) [cl]) as (F1 & F2 & F3).
      eapply ospec_mono; [apply (Hdone e3 (([op] ++ h) ++ [cl]))| |done].
      * unfold balanced. rewrite opened_app, closed_app, Hh. by rewrite app_nil_r.
      * destruct Hs as [Hs1 Hs2]. unfold list_sofar. rewrite written_to_app, F1, F2, F3, Hs1.
        change (lstats [cl]) with (@nil bytes). change (stats [cl]) with (@nil (bytes * stat_t)).
        change (names [cl]) with (@nil bytes). by rewrite !app_nil_r.
      * intros r new e4. by rewrite <- !app_assoc.
Qed.

(** ** SEND of a link, and SEND *)

(** Where the service can stop: waiting, or at a link target without a NUL. *)
Definition sync_stops (x : stop) (_ : list event) : Prop :=
  x = Blocked \/ x = Undef "link target not terminated".

Lemma ospec_waits {A} e (m : M world A) Q : ospec e m Q waits -> ospec e m Q sync_stops.
Proof. intros H. eapply ospec_mono; [exact H|done|]. intros x n ->. by left. Qed.

Lemma blocked_stops B x n : blocked B x n -> sync_stops x n.
Proof. intros [-> _]. by left. Qed.

#[local] Hint Resolve blocked_stops : core.

Section service.
Context (ulong_bits : Z) (strerror : Z -> bytes) (fs_config : bytes -> Z -> Z -> Z * Z * Z).

Lemma ospec_symlink e b path :
  ospec e (symlink b path)
    (fun r new _ => only inert new /\ exists target, buf_cstr b = Some target /\ new = [ev (Symlink target path) r])
    sync_stops.
Proof.
  unfold symlink. destruct (buf_cstr b) as [target|].
  - eapply ospec_mono; [by apply (ospec_one inert e (Symlink target path))| |eauto].
    intros r new _ (-> & _ & Hi & _). eauto.
  - apply ospec_stop. by right.
Qed.

(** The link that was made. *)
Definition link_success (s : Z) (path : bytes) (b : buf) (new : list event) : Prop :=
  exists data ts target, read_from s new = data_frame data ++ msg_data ID_DONE ts /\
    buf_cstr (buf_store data b) = Some target /\ ev (Symlink target path) (Ok tt) ∈ new /\
    written_to s new = msg_data ID_OKAY 0.

(** [symlink], with the directories it needs; [None] if those could not be made. *)
Lemma ospec_link_create e s path b :
  ospec e (link_create strerror fs_config s path b)
    (fun x new _ => only (answers s) new /\
       match x with
       | Some 0 => written_to s new = [] /\ exists target, buf_cstr b = Some target /\ ev (Symlink target path) (Ok tt) ∈ new
       | _ => True
       end) sync_stops.
Proof.
  unfold link_create. os_call ospec_symlink; [done|]. intros r n1 e1 (Hi1 & target & Et & ->). os_step.
  destruct (negb (rc r =? 0) && (e1 =? ENOENT)).
  - os_call ospec_mkdirs; [apply blocked_stops|]. intros m n2 e2 [Hi2 _]. destruct (negb (m =? 0)).
    + os_call ospec_fail_errno; [apply blocked_stops|]. intros f n3 e3 (Hw & _). os_step. rewrite app_nil_r, !only_app.
      split; [|done]. split_and!; [by apply inert_answers|by apply inert_answers|by apply writes_answers].
    + os_call ospec_symlink; [done|]. intros r' n3 e3 (Hi3 & target' & Et' & ->). os_step. rewrite app_nil_r, !only_app.
      split; [split_and!; by apply inert_answers|]. destruct r' as [[]|]; simpl; [|done].
      split; [by rewrite written_to_cons, written_to_app, (quiet_written s n2 (inert_only_quiet _ Hi2))|].
      exists target'. split; [done|]. set_solver.
  - os_step. rewrite app_nil_r. split; [by apply inert_answers|]. destruct r as [[]|]; simpl; [|done].
    split; [done|]. exists target. split; [done|]. set_solver.
Qed.

Lemma ospec_handle_send_link e s path b :
  buf_ok b ->
  ospec e (handle_send_link strerror fs_config s path b)
    (fun '(r, b') new _ => buf_ok b' /\ balanced new /\ (r = 0 \/ r = -1) /\ (r = 0 -> link_success s path b new)) sync_stops.
Proof.
  intros Hbuf.
  assert (Hfail : forall e1 reason (b1 : buf) h, buf_ok b1 -> balanced h ->
    ospec e1 (fail_message s reason;; mret (-1, b1))
      (fun '(r, b') new _ => buf_ok b' /\ balanced (h ++ new) /\ (r = 0 \/ r = -1) /\ (r = 0 -> link_success s path b (h ++ new))) sync_stops).
  { intros e1 reason b1 h Hb1 Hb. os_call ospec_fail_message; [apply blocked_stops|]. intros r n1 e2 (Hw & _). os_step. rewrite app_nil_r.
    split_and!; [done| |by right|done]. eapply balanced_neutral; [done|exact (only_mono _ _ _ Hw (writes_neutral s))]. }
  unfold handle_send_link. os_call ospec_readx; [lia|apply blocked_stops|]. intros m n1 e1 [Hr1 Hm].
  assert (Hb1 : balanced n1) by exact (balanced_only _ _ (reads_neutral s) Hr1).
  destruct m as [msg|]; [|os_step; rewrite app_nil_r; split_and!; [done|done|by right|done]].
  destruct Hm as (Er1 & Hl1 & Hby1). pose proof (msg_data_decode msg Hl1 Hby1) as Emsg.
  pose proof (data_size_range msg Hl1 Hby1) as Hsz.
  destruct (Z.eqb_spec (data_id msg) ID_DATA) as [Eid|_]; simpl negb; cbv iota.
  2:{ eapply ospec_mono; [by apply (Hfail e1 _ b n1)|by intros [r b2]|done]. }
  cbv zeta.
  rewrite Z.gtb_ltb. destruct (Z.ltb_spec SYNC_DATA_MAX (data_size msg)) as [_|Hmax].
  { eapply ospec_mono; [by apply (Hfail e1 _ b n1)|by intros [r b2]|done]. }
  os_call ospec_readx_into; [unfold buf_ok in Hbuf; lia|apply blocked_stops|]. intros d n2 e2 [Hr2 Hd].
  assert (Hb2 : balanced (n1 ++ n2)) by exact (balanced_app _ _ Hb1 (balanced_only _ _ (reads_neutral s) Hr2)).
  destruct d as [data|]; [|os_step; rewrite app_nil_r; split_and!; [done|done|by right|done]].
  destruct Hd as (Er2 & Hl2 & _). pose proof (buf_store_ok data b Hbuf ltac:(lia)) as Hbuf'.
  os_call ospec_link_create; [done|]. intros x n3 e3 [Ha3 Hx].
  assert (Hb3 : balanced (n1 ++ n2 ++ n3)).
  { rewrite app_assoc. eapply balanced_neutral; [done|exact (only_mono _ _ _ Ha3 (answers_neutral s))]. }
  destruct x as [ret|]; [|os_step; rewrite app_nil_r; split_and!; [done|done|by right|done]].
  destruct (Z.eqb_spec ret 0) as [->|_]; simpl negb; cbv iota.
  2:{ os_call ospec_fail_errno; [apply blocked_stops|]. intros f n4 e4 (Hw & _). os_step. rewrite app_nil_r.
      split_and!; [done| |by right|done]. rewrite !app_assoc. rewrite !app_assoc in Hb3.
      eapply balanced_neutral; [done|exact (only_mono _ _ _ Hw (writes_neutral s))]. }
  destruct Hx as (Ew3 & target & Et & Hin).
  os_call ospec_readx; [lia|apply blocked_stops|]. intros m2 n4 e4 [Hr4 Hm2].
  assert (Hb4 : balanced (n1 ++ n2 ++ n3 ++ n4)).
  { rewrite !app_assoc in *. eapply balanced_neutral; [done|exact (only_mono _ _ _ Hr4 (reads_neutral s))]. }
  destruct m2 as [msg2|]; [|os_step; rewrite app_nil_r; split_and!; [done|done|by right|done]].
  destruct Hm2 as (Er4 & Hl4 & Hby4). pose proof (msg_data_decode msg2 Hl4 Hby4) as Emsg2.
  destruct (Z.eqb_spec (data_id msg2) ID_DONE) as [Ed|_].
  - os_call ospec_writex; [apply blocked_stops|]. intros w n5 e5 [How Hw]. os_step. rewrite app_nil_r.
    split; [done|]. split; [|split; [destruct Hw as [[-> _]|[-> _]]; [by left|by right]|]].
    { rewrite !app_assoc in *. eapply balanced_neutral; [done|exact (only_mono _ _ _ How (writes_neutral s))]. }
    destruct Hw as [[-> E]|[-> _]]; [|done]. intros _. exists data, (data_size msg2), target.
    rewrite !read_from_app, !written_to_app, Er1, Er2, Er4, (answers_read s s n3 Ha3), (read_from_writes s s n5 How).
    rewrite (written_to_reads s s n1 Hr1), (written_to_reads s s n2 Hr2), (written_to_reads s s n4 Hr4).
    rewrite Ew3, E, !app_nil_r. split_and!; [|done|set_solver|done].
    unfold data_frame. rewrite Hl2, <- Eid, <- Emsg, <- Ed, <- Emsg2. simpl. by rewrite app_assoc.
  - eapply ospec_mono; [apply (Hfail e4 _ _ (n1 ++ n2 ++ n3 ++ n4) Hbuf' Hb4)| |done].
    intros [r b2] new e5. by rewrite <- !app_assoc.
Qed.

(** The permission bits SEND's number asks for, 0644 without a number. *)
Definition send_bits (number : option (Z * bool)) : Z :=
  match number with Some (m, false) => Z.land m 511 | _ => 420 end.

(** The owner and the mode a file gets: the rules of the system partition, or
    the bits asked for, copied from the user to the group and the others. *)
Definition send_owner (path : bytes) (bits : Z) : Z * Z * Z :=
  if is_on_system path
  then fs_config (match path with c :: p => if c =? 47 then p else path | [] => path end) 0 (spread_mode bits)
  else (-1, -1, spread_mode bits).

Definition asks_link (number : option (Z * bool)) : bool :=
  match number with Some (m, false) => S_ISLNK m | _ => false end.

(** What SEND achieved, for a file or a link. *)
Definition send_result (s : Z) (path : bytes) (b : buf) (new : list event) : Prop :=
  let '(p, number) := parse_send ulong_bits path in
  exists pre rest, new = pre ++ rest /\ only inert pre /\
    if asks_link number then link_success s p b rest
    else send_success s p (send_owner p (send_bits number)) rest.

Lemma ospec_do_send e s path b :
  0 <= s -> buf_ok b ->
  ospec e (do_send ulong_bits strerror fs_config s path b)
    (fun '(r, b') new _ => buf_ok b' /\ balanced new /\ (r = 0 \/ r = -1) /\
       (r = 0 -> fresh_from s new -> send_result s path b new)) sync_stops.
Proof.
  intros Hs Hbuf. unfold do_send, send_result. destruct (parse_send ulong_bits path) as [p number] eqn:Ep.
  eapply (ospec_bind _ _ _ (fun '(mode, is_link, _) new _ => only inert new /\ mode = send_bits number /\ is_link = asks_link number)).
  - destruct number as [[m [|]]|].
    + os_step. os_step. split; [apply only_nil|done].
    + os_step. os_call (ospec_one inert 0 (Lstat p)); [done|apply blocked_stops|]. intros r n1 e1 (-> & _ & Hi & _).
      cbv zeta. eapply ospec_bind; [apply ospec_waits, ospec_unlink_if|]. intros [] n2 e2 Hi2. os_step.
      rewrite app_nil_r. split; [by apply only_app|done].
    + os_step. split; [apply only_nil|done].
  - intros [[mode is_link] do_unlink] n1 e1 (Hi & -> & ->). cbv zeta.
    assert (Hb1 : balanced n1) by exact (balanced_only _ _ inert_neutral Hi).
    destruct (neutral_opened n1 (only_mono _ _ _ Hi inert_neutral)) as [Eo _].
    destruct (asks_link number).
    + eapply ospec_mono; [by apply ospec_handle_send_link| |done]. intros [r b'] new e2 (Hb' & Hb & Hr & Hsuc).
      split_and!; [done|by apply balanced_app|done|]. intros -> _. exists n1, new. auto.
    + fold (send_owner p (send_bits number)). destruct (send_owner p (send_bits number)) as [[uid gid] mode'].
      eapply ospec_mono; [by apply ospec_waits, ospec_handle_send_file| |done]. intros [r b'] new e2 (Hb' & Hb & Hr & Hsuc).
      split_and!; [done|by apply balanced_app|done|]. intros -> Hf. exists n1, new.
      split_and!; [done|done|]. apply Hsuc; [done|]. unfold fresh_from in *. by rewrite opened_app, Eo in Hf.
Qed.

(** ** STAT and the service loop *)

Lemma ospec_do_stat e s path :
  ospec e (do_stat s path)
    (fun r new _ => balanced new /\ (r = 0 \/ r = -1) /\
       (r = 0 -> exists a, ev (Lstat path) a ∈ new /\
          written_to s new =
            match a with
            | Err _ => msg_stat ID_STAT 0 0 0
            | Ok st => msg_stat ID_STAT (u32 (st_mode st)) (u32 (st_size st)) (u32 (st_mtime st))
            end)) waits.
Proof.
  unfold do_stat. os_call (ospec_one inert e (Lstat path)); [done|by intros x n [-> _]|].
  intros a n1 e1 (-> & _ & Hi & _). eapply ospec_mono; [apply ospec_writex| |by intros x n [-> _]].
  intros r n2 e2 [How Hr]. split; [|split; [destruct Hr as [[-> _]|[-> _]]; [by left|by right]|]].
  - eapply balanced_neutral; [exact (balanced_only _ _ inert_neutral Hi)|].
    exact (only_mono _ _ _ How (writes_neutral s)).
  - destruct Hr as [[-> E]|[-> _]]; [|done]. intros _. exists a. split; [set_solver|].
    rewrite written_to_app, E. by destruct a.
Qed.

(** What a command that succeeded did. *)
Definition command_done (s id : Z) (name : bytes) (b : buf) (new : list event) : Prop :=
  (id = ID_SEND -> fresh_from s new -> send_result s name b new) /\
  (id = ID_RECV -> recv_result strerror s name new).

Lemma ospec_sync_command e s id name b :
  0 <= s -> buf_ok b -> Z.of_nat (length name) <= 1024 ->
  ospec e (sync_command ulong_bits strerror fs_config s id name b)
    (fun x new _ => balanced new /\ match x with Some b' => buf_ok b' /\ command_done s id name b new | None => True end) sync_stops.
Proof.
  intros Hs Hbuf Hn. unfold sync_command.
  assert (Hother : forall m : M world Z, id <> ID_SEND -> id <> ID_RECV ->
    ospec e m (fun _ new _ => balanced new) sync_stops ->
    ospec e (r ← m; mret (if negb (r =? 0) then None else Some b))
      (fun x new _ => balanced new /\ match x with Some b' => buf_ok b' /\ command_done s id name b new | None => True end) sync_stops).
  { intros m H1 H2 Hm. eapply ospec_bind; [exact Hm|]. intros r n1 e1 Hb. os_step. rewrite app_nil_r. split; [done|].
    destruct (negb (r =? 0)); [done|]. by split_and!. }
  destruct (Z.eqb_spec id ID_STAT) as [->|_].
  { apply Hother; [done|done|]. eapply ospec_mono; [apply ospec_waits, ospec_do_stat| |done]. by intros r new e1 []. }
  destruct (Z.eqb_spec id ID_LIST) as [->|_].
  { apply Hother; [done|done|]. eapply ospec_mono; [by apply ospec_waits, ospec_do_list| |done]. by intros r new e1 []. }
  destruct (Z.eqb_spec id ID_SEND) as [->|Hns].
  { eapply ospec_bind; [by apply ospec_do_send|]. intros [r b'] n1 e1 (Hb' & Hb & Hr & Hok). os_step. rewrite app_nil_r.
    split; [done|]. destruct Hr as [-> | ->]; simpl; [|done]. split; [done|]. split; [auto|done]. }
  destruct (Z.eqb_spec id ID_RECV) as [->|Hnr].
  { eapply ospec_bind; [by apply ospec_waits, ospec_do_recv|]. intros [r b'] n1 e1 (Hb' & Hb & Hr & Hok). os_step. rewrite app_nil_r.
    split; [done|]. destruct Hr as [-> | ->]; simpl; [|done]. split; [done|]. split; [done|auto]. }
  destruct (id =? ID_QUIT); [by os_step|].
  os_call ospec_fail_message; [apply blocked_stops|]. intros r n1 e1 [Hw _]. os_step. rewrite app_nil_r.
  split; [|done]. exact (balanced_only _ _ (writes_neutral s) Hw).
Qed.

(** One round of the service that goes on to the next command: the request and
    the name it read, and what the command then did. *)
Definition round_done (s : Z) (b : buf) (new : list event) : Prop :=
  exists id name pre rest, new = pre ++ rest /\ only (reads s) pre /\ 0 <= id < 2 ^ 32 /\
    Z.of_nat (length name) <= 1024 /\ read_from s pre = msg_data id (Z.of_nat (length name)) ++ name /\
    command_done s id (cstr name) b rest.

Lemma data_id_range bs : Z.of_nat (length bs) = 8 -> Forall is_byte bs -> 0 <= data_id bs < 2 ^ 32.
Proof.
  intros Hl Hb. unfold data_id. pose proof (le_val_range (take 4 bs) (Forall_take _ _ _ Hb)) as H.
  rewrite length_take in H. replace (4 `min` length bs)%nat with 4%nat in H by lia. exact H.
Qed.

Lemma ospec_sync_step e s b :
  0 <= s -> buf_ok b ->
  ospec e (sync_step ulong_bits strerror fs_config s b)
    (fun x new _ => balanced new /\ match x with inl b' => buf_ok b' /\ new <> [] /\ round_done s b new | inr _ => True end) sync_stops.
Proof.
  intros Hs Hbuf. assert (Hfail : forall e1 reason h (P : buf -> list event -> Prop), balanced h ->
    ospec e1 (fail_message s reason;; mret (inr tt : buf + unit))
      (fun x new _ => balanced (h ++ new) /\ match x with inl b' => P b' (h ++ new) | inr _ => True end) sync_stops).
  { intros e1 reason h P Hb. os_call ospec_fail_message; [apply blocked_stops|]. intros r n1 e2 [Hw _].
    os_step. rewrite app_nil_r. split; [|done].
    eapply balanced_neutral; [done|exact (only_mono _ _ _ Hw (writes_neutral s))]. }
  set (P b' new := buf_ok b' /\ new <> [] /\ round_done s b new).
  unfold sync_step. os_call ospec_readx; [lia|apply blocked_stops|]. intros q n1 e1 [Hr1 Hq].
  assert (Hb1 : balanced n1) by exact (balanced_only _ _ (reads_neutral s) Hr1).
  destruct q as [req|]; [|by apply (Hfail e1 _ n1 P)]. destruct Hq as (Er1 & Hl1 & Hby1).
  pose proof (data_size_range req Hl1 Hby1) as Hsz. cbv zeta.
  rewrite Z.gtb_ltb. destruct (Z.ltb_spec 1024 (data_size req)) as [_|Hmax]; [by apply (Hfail e1 _ n1 P)|].
  os_call ospec_readx_into; [unfold NAME_SIZE; lia|apply blocked_stops|]. intros nm n2 e2 [Hr2 Hn].
  assert (Hb2 : balanced (n1 ++ n2)) by exact (balanced_app _ _ Hb1 (balanced_only _ _ (reads_neutral s) Hr2)).
  destruct nm as [name|].
  2:{ eapply ospec_mono; [by apply (Hfail e2 _ (n1 ++ n2) P)| |done]. intros x new e3 Hx. cbv beta in *. by rewrite <- app_assoc in Hx. }
  destruct Hn as (Er2 & Hl2 & _). pose proof (length_cstr name).
  destruct (Z.leb_spec NAME_SIZE (data_size req)) as [Hbad|_]; [unfold NAME_SIZE in Hbad; lia|].
  eapply ospec_bind; [apply (ospec_sync_command e2 s _ _ b); [done|done|lia]|]. intros x n3 e3 [Hb3 Hx]. os_step. rewrite app_nil_r, app_assoc.
  split; [by apply balanced_app|]. destruct x as [b'|]; [|done]. destruct Hx as [Hb' Hd]. split_and!; [done| |].
  { destruct n1; [|done]. rewrite <- Er1 in Hl1. done. }
  exists (data_id req), name, (n1 ++ n2), n3.
  split_and!; [done|by apply only_app|by apply data_id_range..|lia| |done].
  by rewrite read_from_app, Er1, Er2, Hl2, <- msg_data_decode.
Qed.

Lemma ospec_file_sync_service e fd :
  0 <= fd ->
  ospec e (file_sync_service ulong_bits strerror fs_config fd)
    (fun _ new _ => closed new = opened new ++ [(false, fd)]) sync_stops.
Proof.
  intros Hfd. unfold file_sync_service.
  os_call (ospec_one inert e (Malloc SYNC_DATA_MAX)); [done|apply blocked_stops|]. intros r n1 e1 (-> & _).
  eapply (ospec_bind _ _ _ (fun _ new _ => balanced new)).
  - destruct r; [|by os_step].
    apply (ospec_loop (fun b h _ => buf_ok b /\ balanced h)).
    { split; [|done]. unfold buf_ok. rewrite length_replicate. by rewrite Z2Nat.id by (unfold SYNC_DATA_MAX; lia). }
    intros b h e2 [Hbuf Hb].
    eapply ospec_mono; [by apply ospec_sync_step| |done]. intros [b'|[]] new e3 [Hb2 Hne].
    + destruct Hne as (? & ? & _). split; [done|]. split; [done|]. by apply balanced_app.
    + by apply balanced_app.
  - intros [] n2 e2 Hb. os_call ospec_close; [apply blocked_stops|]. intros c n3 e3 ->. os_step.
    unfold balanced in Hb. rewrite app_nil_r, !opened_app, !closed_app, Hb. by rewrite app_nil_r.
Qed.
End service.

(** ** The number SEND carries after its path *)

Lemma digit_val_digit d : 0 <= d < 10 -> digit_val (digit d) = Some d.
Proof.
  intros H. unfold digit, digit_val. rewrite (proj2 (Z.ltb_lt d 10)) by lia.
  rewrite (proj2 (Z.leb_le 48 (48 + d))), (proj2 (Z.leb_le (48 + d) 57)) by lia. simpl. f_equal. lia.
Qed.

Lemma scan_digits_fmt fuel n acc :
  0 <= n < 2 ^ Z.of_nat fuel -> scan_digits 10 (digits 10 fuel n acc) 0 = scan_digits 10 acc n.
Proof.
  revert n acc. induction fuel as [|fuel IH]; intros n acc Hn.
  { simpl in Hn. assert (n = 0) as -> by lia. done. }
  rewrite Nat2Z.inj_succ, Z.pow_succ_r in Hn by lia. cbn [digits].
  pose proof (Z.mod_pos_bound n 10 ltac:(lia)) as Hm. pose proof (Z.div_mod n 10 ltac:(lia)) as Hdm.
  destruct (Z.eqb_spec (n / 10) 0) as [E|E].
  - cbn [scan_digits]. rewrite digit_val_digit, (proj2 (Z.ltb_lt _ 10)) by lia. f_equal. lia.
  - rewrite IH by (split; [apply Z.div_pos; lia|apply Z.div_lt_upper_bound; lia]).
    cbn [scan_digits]. rewrite digit_val_digit, (proj2 (Z.ltb_lt _ 10)) by lia. f_equal. lia.
Qed.

(** The first digit; it is not zero unless the number is. *)
Lemma digits_head fuel n acc :
  0 <= n < 2 ^ Z.of_nat fuel -> (0 < fuel)%nat ->
  exists d rest, digits 10 fuel n acc = digit d :: rest /\ 0 <= d < 10 /\ (0 < n -> 0 < d).
Proof.
  revert n acc. induction fuel as [|fuel IH]; intros n acc Hn Hf; [lia|].
  rewrite Nat2Z.inj_succ, Z.pow_succ_r in Hn by lia. cbn [digits].
  pose proof (Z.mod_pos_bound n 10 ltac:(lia)) as Hm. pose proof (Z.div_mod n 10 ltac:(lia)) as Hdm.
  destruct (Z.eqb_spec (n / 10) 0) as [E|E].
  - exists (n mod 10), acc. split_and!; [done|lia|lia|lia].
  - assert (Hq : 0 <= n / 10 < 2 ^ Z.of_nat fuel) by (split; [apply Z.div_pos; lia|apply Z.div_lt_upper_bound; lia]).
    destruct fuel as [|fuel]; [simpl in Hq; lia|].
    destruct (IH (n / 10) (digit (n mod 10) :: acc) Hq ltac:(lia)) as (d & rest & -> & Hd & Hpos).
    exists d, rest. split_and!; [done|lia|lia|]. intros _. apply Hpos. pose proof (Z.div_pos n 10). lia.
Qed.

Lemma fmt_fuel n : 0 <= n -> 0 <= n < 2 ^ Z.of_nat (S (Z.to_nat (Z.log2 n))).
Proof.
  intros Hn. rewrite Nat2Z.inj_succ, Z2Nat.id by apply Z.log2_nonneg. split; [done|].
  destruct (Z.eq_dec n 0) as [->|]; [simpl; lia|]. by apply Z.log2_spec; lia.
Qed.

Lemma strtoul_fmt_d bits n : 0 <= n < 2 ^ bits -> strtoul bits (fmt_d n) = (n, false).
Proof.
  intros Hn. unfold fmt_d. rewrite (proj2 (Z.ltb_ge n 0)) by lia.
  pose proof (fmt_fuel n ltac:(lia)) as Hf. unfold fmt_base.
  destruct (digits_head _ n [] Hf ltac:(lia)) as (d & rest & E & Hd & Hpos).
  pose proof (scan_digits_fmt _ n [] Hf) as Hs. rewrite E in Hs |- *. simpl in Hs.
  assert (Hdig : digit d = 48 + d) by (unfold digit; by rewrite (proj2 (Z.ltb_lt d 10)) by lia).
  unfold strtoul. cbn [skip_spaces].
  assert (isspace (digit d) = false) as ->.
  { rewrite Hdig. unfold isspace. rewrite (proj2 (Z.eqb_neq _ _)), (proj2 (Z.leb_gt (48 + d) 13)) by lia. by rewrite andb_false_r. }
  rewrite (proj2 (Z.eqb_neq (digit d) 45)), (proj2 (Z.eqb_neq (digit d) 43)) by lia.
  unfold detect_base. destruct (Z.eqb_spec (digit d) 48) as [E0|E0]; simpl negb; cbv iota.
  - assert (d = 0) as -> by lia. assert (n = 0) as -> by lia. vm_compute in E. injection E as <-. simpl.
    by rewrite (proj2 (Z.ltb_lt 0 (2 ^ bits))) by lia.
  - change (match digit_val (digit d) with Some d0 => if d0 <? 10 then scan_digits 10 rest (0 * 10 + d0) else 0 | None => 0 end = n) in Hs.
    cbn [scan_digits]. rewrite Hs. by rewrite (proj2 (Z.ltb_lt n (2 ^ bits))) by lia.
Qed.

Lemma strrchr_app c s t : c ∉ t -> strrchr c (s ++ c :: t) = Some (length s).
Proof.
  intros Ht. assert (Hn : strrchr c t = None).
  { clear s. induction t as [|x t IH]; [done|]. simpl. rewrite IH by set_solver.
    rewrite (proj2 (Z.eqb_neq x c)) by set_solver. done. }
  induction s as [|x s IH]; simpl; [by rewrite Hn, Z.eqb_refl|]. by rewrite IH.
Qed.

Lemma digits_avoid c fuel n acc : c < 48 -> 0 <= n -> c ∉ acc -> c ∉ digits 10 fuel n acc.
Proof.
  intros Hc. revert n acc. induction fuel as [|fuel IH]; intros n acc Hn Hacc; [done|]. cbn [digits].
  pose proof (Z.mod_pos_bound n 10 ltac:(lia)) as Hm.
  assert (c ∉ digit (n mod 10) :: acc).
  { rewrite not_elem_of_cons. split; [|done]. unfold digit. rewrite (proj2 (Z.ltb_lt _ 10)) by lia. lia. }
  destruct (n / 10 =? 0); [done|]. apply IH; [apply Z.div_pos; lia|done].
Qed.

Lemma fmt_d_avoid c n : c < 48 -> 0 <= n -> c ∉ fmt_d n.
Proof. intros Hc Hn. unfold fmt_d. rewrite (proj2 (Z.ltb_ge n 0)) by lia. apply digits_avoid; [done|lia|set_solver]. Qed.

(** ** Framing is unambiguous *)

Lemma msg_header_inj id size rest id' size' rest' :
  0 <= id < 2 ^ 32 -> 0 <= id' < 2 ^ 32 ->
  msg_data id size ++ rest = msg_data id' size' ++ rest' -> id = id' /\ msg_data id size = msg_data id' size' /\ rest = rest'.
Proof.
  intros Hi Hi' E. assert (E0 : data_id (msg_data id size ++ rest) = data_id (msg_data id' size' ++ rest')) by (by rewrite E).
  rewrite !data_id_msg in E0 by done. subst id'. apply app_inj_1 in E as [-> ->]; [done|by rewrite !length_msg_data].
Qed.

(** What follows the chunks can be told from a chunk by its id. *)
Lemma frames_inj chunks chunks' id size rest id' size' rest' :
  Forall chunk_ok chunks -> Forall chunk_ok chunks' ->
  0 <= id < 2 ^ 32 -> 0 <= id' < 2 ^ 32 -> id <> ID_DATA -> id' <> ID_DATA ->
  frames chunks ++ msg_data id size ++ rest = frames chunks' ++ msg_data id' size' ++ rest' ->
  chunks = chunks' /\ id = id' /\ rest = rest'.
Proof.
  intros Hc Hc' Hi Hi' Hne Hne'. revert chunks' Hc'.
  induction Hc as [|c chunks Hck _ IH]; intros [|c' chunks'] Hc' E.
  - apply msg_header_inj in E as (-> & _ & ->); [done|done|done].
  - simpl in E. unfold data_frame in E. rewrite <- !app_assoc in E.
    apply msg_header_inj in E as (E & _ & _); [done|done|done].
  - simpl in E. unfold data_frame in E. rewrite <- !app_assoc in E.
    apply msg_header_inj in E as (E & _ & _); [done|done|done].
  - apply Forall_cons in Hc' as [Hck' Hc']. simpl in E. rewrite <- !app_assoc in E.
    apply data_frame_inj in E as [-> E]; [|done|done]. by apply IH in E as (-> & -> & ->).
Qed.

(** ** Properties *)

Section properties.
Context (ulong_bits : Z) (strerror : Z -> bytes) (fs_config : bytes -> Z -> Z -> Z * Z * Z).

(** C12: Whatever the peer sends and the file system answers, the sync service
    overruns none of its buffers: it never asks for more bytes than the 64 KiB
    transfer buffer or the buffer of the name holds, and it stops only to wait for
    the operating system or where a peer sends a link target without its NUL.
    When it ends, it has closed every file and directory it opened, in order, and
    its own socket last, each exactly once. *)
Theorem file_sync_service_balanced (fd : Z) (w : world) :
  posix (w_env w) -> 0 <= fd ->
  match file_sync_service ulong_bits strerror fs_config fd w with
  | (Done _, w') => closed (calls_since w w') = opened (calls_since w w') ++ [(false, fd)]
  | (Stop x, w') => x = Blocked \/ x = Undef "link target not terminated"
  end.
Proof.
  intros Hp Hfd.
  pose proof (ospec_total _ _ _ w (ospec_file_sync_service ulong_bits strerror fs_config _ fd Hfd) Hp) as H.
  by destruct (file_sync_service ulong_bits strerror fs_config fd w) as [[[]|x] w'].
Qed.

(** RECV sends exactly the file: when it returns 0, either it opened [path], and
    nothing else, and the socket has received the bytes read from it, cut into
    DATA messages of at most 64 KiB, followed by DONE if the file was read to its
    end, or else by a FAIL message; or it could not open [path] and sent FAIL.
    The file is closed on every path. *)
Theorem do_recv_sends_file (s : Z) (path : bytes) (b : buf) (w : world) :
  posix (w_env w) -> buf_ok b ->
  match do_recv strerror s path b w with
  | (Done (r, b'), w') =>
      buf_ok b' /\ balanced (calls_since w w') /\ (r = 0 \/ r = -1) /\ (r = 0 -> recv_result strerror s path (calls_since w w'))
  | (Stop x, _) => x = Blocked
  end.
Proof.
  intros Hp Hb. pose proof (ospec_total _ _ _ w (ospec_do_recv strerror _ s path b Hb) Hp) as H.
  by destruct (do_recv strerror s path b w) as [[[r b']|x] w'].
Qed.

(** C11: SEND passes on exactly what was sent.  When [handle_send_file] returns 0,
    it has consumed DATA messages of at most 64 KiB and a final DONE with the
    time of the file.  If the last message it wrote is OKAY, the only descriptor
    it opened is that of the file at the given path, which it made or, if it
    existed and could not be made, opened as it was; the bytes it wrote to that
    descriptor are the chunks in order, and it asked for the owner, the mode and
    the time of the file that were given.  Otherwise the last message is FAIL.
    The file is closed on every path, and the handler stops only to wait. *)
Theorem handle_send_file_stores (s : Z) (path : bytes) (uid gid mode : Z) (b : buf) (do_unlink : bool) (w : world) :
  posix (w_env w) -> 0 <= s -> buf_ok b ->
  match handle_send_file strerror fs_config s path uid gid mode b do_unlink w with
  | (Done (r, b'), w') =>
      buf_ok b' /\ balanced (calls_since w w') /\ (r = 0 \/ r = -1) /\
      (r = 0 -> fresh_from s (calls_since w w') -> send_success s path (uid, gid, mode) (calls_since w w'))
  | (Stop x, _) => x = Blocked
  end.
Proof.
  intros Hp Hs Hb.
  pose proof (ospec_total _ _ _ w (ospec_handle_send_file strerror fs_config _ s path uid gid mode b do_unlink Hs Hb) Hp) as H.
  by destruct (handle_send_file strerror fs_config s path uid gid mode b do_unlink w) as [[[r b']|x] w'].
Qed.

(** LIST answers with one DENT message per directory entry that [lstat]
    could examine, in the order [readdir] returned them and with the mode, size
    and time [lstat] gave, and then DONE; every entry is examined; the directory
    is closed on every path, and the name buffer is never overrun. *)
Theorem do_list_complete (s : Z) (path : bytes) (w : world) :
  posix (w_env w) -> Z.of_nat (length path) <= 1024 ->
  match do_list s path w with
  | (Done r, w') =>
      let new := calls_since w w' in
      balanced new /\ (r = 0 \/ r = -1) /\
      (r = 0 -> exists sofar, prefix sofar new /\ list_sofar s path sofar /\ stats new = stats sofar /\
         names new = names sofar /\ written_to s new = (stats new ≫= dent_of path) ++ msg_dent ID_DONE 0 0 0 0)
  | (Stop x, _) => x = Blocked
  end.
Proof.
  intros Hp Hl. pose proof (ospec_total _ _ _ w (ospec_do_list _ s path Hl) Hp) as H.
  by destruct (do_list s path w) as [[r|x] w'].
Qed.

(** [mkdirs] makes the directories on the way to a file and nothing else:
    on success it tried exactly the proper prefixes of the (absolute) path that
    end before a separator, outermost first; on failure, an initial part of
    them. *)
Theorem mkdirs_makes_ancestors (name : bytes) (w : world) :
  posix (w_env w) ->
  match mkdirs fs_config name w with
  | (Done r, w') =>
      only inert (calls_since w w') /\
      ((r = 0 /\ made (calls_since w w') = ancestors name /\ List.hd 0 name = 47) \/
       (r = -1 /\ made (calls_since w w') `prefix_of` ancestors name))
  | (Stop x, _) => x = Blocked
  end.
Proof.
  intros Hp. pose proof (ospec_total _ _ _ w (ospec_mkdirs fs_config _ name) Hp) as H.
  destruct (mkdirs fs_config name w) as [[r|x] w']; [done|]. by destruct H.
Qed.

(** SEND's argument round trips: the path and the mode a client writes as
    "%s,%d" are the ones the service reads back, whatever commas the path
    itself contains. *)
Theorem parse_send_roundtrip (path : bytes) (mode : Z) :
  32 <= ulong_bits -> 0 <= mode < 2 ^ 32 ->
  parse_send ulong_bits (path ++ 44 :: fmt_d mode) = (path, Some (mode, false)).
Proof.
  intros Hb Hm. assert (Hpow : 2 ^ 32 <= 2 ^ ulong_bits) by (apply Z.pow_le_mono_r; lia).
  unfold parse_send. rewrite strrchr_app.
  - rewrite (cons_middle 44 path), app_assoc.
    rewrite (drop_app_length' (path ++ [44])) by (rewrite length_app; simpl; lia).
    rewrite strtoul_fmt_d by lia. rewrite u32_small by done.
    by rewrite <- app_assoc, take_app_length.
  - apply fmt_d_avoid; lia.
Qed.
End properties.

(** ** Concrete runs *)

(** The file is descriptor 3 (what [Open] returns), the socket descriptor 7. *)
Definition copy_env (file socket : bytes) : env :=
  stream_env (fun fd => if fd =? 3 then file else if fd =? 7 then socket else []).

Lemma copy_env_posix file socket :
  Forall is_byte file -> Forall is_byte socket -> posix (copy_env file socket).
Proof.
  intros Hf Hs. apply stream_env_posix. intros fd. destruct (fd =? 3); [done|]. destruct (fd =? 7); [done|].
  by apply Forall_nil.
Qed.

Definition no_error (e : Z) : bytes := [].

Definition root_owned (path : bytes) (dir mode : Z) : Z * Z * Z := (0, 0, mode).

Definition pull_env : env := copy_env [1; 2; 3] [].

Definition push_env : env := copy_env [] (frames [[1; 2; 3]] ++ msg_data ID_DONE 99).

Lemma pull_env_posix : posix pull_env.
Proof. apply copy_env_posix; repeat constructor; done. Qed.

Lemma msg_data_bytes id size : Forall is_byte (msg_data id size).
Proof. apply Forall_app. split; apply le_bytes_bytes. Qed.

Lemma frames_bytes chunks : Forall (Forall is_byte) chunks -> Forall is_byte (frames chunks).
Proof.
  induction 1 as [|c chunks Hc _ IH]; [by apply Forall_nil|].
  apply Forall_app. split; [|done]. apply Forall_app. split; [apply msg_data_bytes|done].
Qed.

Lemma push_env_posix : posix push_env.
Proof.
  apply copy_env_posix; [by apply Forall_nil|]. apply Forall_app. split; [|apply msg_data_bytes].
  apply frames_bytes. by repeat constructor.
Qed.

(** The buffer as [malloc] leaves it. *)
Definition new_buf : buf := replicate (Z.to_nat SYNC_DATA_MAX) None.

Lemma new_buf_ok : buf_ok new_buf.
Proof. unfold buf_ok, new_buf. rewrite length_replicate. by rewrite Z2Nat.id by (unfold SYNC_DATA_MAX; lia). Qed.

Definition pull_run := do_recv no_error 7 (str "/data/a") new_buf (boot pull_env 20).

Definition push_run := handle_send_file no_error root_owned 7 (str "/data/a") (-1) (-1) 420 new_buf true (boot push_env 40).

Definition quit_env : env := copy_env [] (msg_data ID_STAT 2 ++ str "/a" ++ msg_data ID_QUIT 0).

Lemma quit_env_posix : posix quit_env.
Proof.
  apply copy_env_posix; [by apply Forall_nil|]. repeat (apply Forall_app; split); try apply le_bytes_bytes.
  by repeat constructor.
Qed.

Lemma file_sync_service_balanced_witness :
  (file_sync_service 32 no_error root_owned 7 (boot quit_env 40)).1 = Done tt /\
  match file_sync_service 32 no_error root_owned 7 (boot quit_env 40) with
  | (Done _, w') =>
      closed (calls_since (boot quit_env 40) w') = opened (calls_since (boot quit_env 40) w') ++ [(false, 7)]
  | (Stop x, w') => x = Blocked \/ x = Undef "link target not terminated"
  end.
Proof.
  split; [vm_compute; reflexivity|].
  apply (file_sync_service_balanced 32 no_error root_owned 7 (boot quit_env 40)); [exact quit_env_posix|lia].
Defined.

Lemma do_recv_sends_file_witness :
  written_to 7 (calls_since (boot pull_env 20) pull_run.2) = frames [[1; 2; 3]] ++ msg_data ID_DONE 0 /\
  match do_recv no_error 7 (str "/data/a") new_buf (boot pull_env 20) with
  | (Done (r, b'), w') =>
      buf_ok b' /\ balanced (calls_since (boot pull_env 20) w') /\ (r = 0 \/ r = -1) /\
      (r = 0 -> recv_result no_error 7 (str "/data/a") (calls_since (boot pull_env 20) w'))
  | (Stop x, _) => x = Blocked
  end.
Proof.
  split; [vm_compute; reflexivity|].
  apply (do_recv_sends_file no_error 7 (str "/data/a") new_buf (boot pull_env 20)); [exact pull_env_posix|exact new_buf_ok].
Defined.

Lemma handle_send_file_stores_witness :
  written_to 3 (calls_since (boot push_env 40) push_run.2) = [1; 2; 3] /\
  match handle_send_file no_error root_owned 7 (str "/data/a") (-1) (-1) 420 new_buf true (boot push_env 40) with
  | (Done (r, b'), w') =>
      buf_ok b' /\ balanced (calls_since (boot push_env 40) w') /\ (r = 0 \/ r = -1) /\
      (r = 0 -> fresh_from 7 (calls_since (boot push_env 40) w') ->
         send_success 7 (str "/data/a") (-1, -1, 420) (calls_since (boot push_env 40) w'))
  | (Stop x, _) => x = Blocked
  end.
Proof.
  split; [vm_compute; reflexivity|].
  apply (handle_send_file_stores no_error root_owned 7 (str "/data/a") (-1) (-1) 420 new_buf true (boot push_env 40));
    [exact push_env_posix|lia|exact new_buf_ok].
Defined.

Definition buf_of (x : outcome (Z * buf) * world) : buf :=
  match x.1 with Done (_, b) => b | _ => [] end.

(** A directory with one entry. *)
Definition dir_env : env := fun h c =>
  match c return ans c with
  | Readdir _ => Ok (if bool_decide (names h = []) then Some (str "x") else None)
  | Lstat _ => Ok {| st_mode := 33188; st_size := 5; st_mtime := 77 |}
  | c => ok_default c
  end.

Lemma dir_env_posix : posix dir_env.
Proof. intros h c. destruct c; try apply ok_default_answer; simpl; [done|]. by case_bool_decide. Qed.

Lemma do_list_complete_witness :
  written_to 7 (calls_since (boot dir_env 40) (do_list 7 (str "/d") (boot dir_env 40)).2) =
    msg_dent ID_DENT 33188 5 77 1 ++ str "x" ++ msg_dent ID_DONE 0 0 0 0 /\
  match do_list 7 (str "/d") (boot dir_env 40) with
  | (Done r, w') =>
      let new := calls_since (boot dir_env 40) w' in
      balanced new /\ (r = 0 \/ r = -1) /\
      (r = 0 -> exists sofar, prefix sofar new /\ list_sofar 7 (str "/d") sofar /\ stats new = stats sofar /\
         names new = names sofar /\ written_to 7 new = (stats new ≫= dent_of (str "/d")) ++ msg_dent ID_DONE 0 0 0 0)
  | (Stop x, _) => x = Blocked
  end.
Proof.
  split; [vm_compute; reflexivity|].
  apply (do_list_complete 7 (str "/d") (boot dir_env 40)); [exact dir_env_posix|simpl; lia].
Defined.

Lemma mkdirs_makes_ancestors_witness :
  made (calls_since (boot pull_env 40) (mkdirs root_owned (str "/a/b/c") (boot pull_env 40)).2) = [str "/a"; str "/a/b"] /\
  match mkdirs root_owned (str "/a/b/c") (boot pull_env 40) with
  | (Done r, w') =>
      only inert (calls_since (boot pull_env 40) w') /\
      ((r = 0 /\ made (calls_since (boot pull_env 40) w') = ancestors (str "/a/b/c") /\ List.hd 0 (str "/a/b/c") = 47) \/
       (r = -1 /\ made (calls_since (boot pull_env 40) w') `prefix_of` ancestors (str "/a/b/c")))
  | (Stop x, _) => x = Blocked
  end.
Proof.
  split; [vm_compute; reflexivity|].
  apply (mkdirs_makes_ancestors root_owned (str "/a/b/c") (boot pull_env 40)). exact pull_env_posix.
Defined.

Lemma parse_send_roundtrip_witness :
  str "/a,b,33188" = str "/a,b" ++ 44 :: fmt_d 33188 /\
  parse_send 32 (str "/a,b" ++ 44 :: fmt_d 33188) = (str "/a,b", Some (33188, false)).
Proof. split; [vm_compute; reflexivity|]. apply (parse_send_roundtrip 32 (str "/a,b") 33188); lia. Defined.

(** ** Where the code does not do what it means to *)

(** [do_list]'s guard against a long entry name is off by one: a name of
    256 bytes passes it, but with a path of 1024 bytes the string and its NUL
    need 1282 bytes of the 1281-byte buffer. *)
Theorem do_list_guard_off_by_one (s d : Z) (path name : bytes) (w : world) :
  Z.of_nat (length path) = 1024 -> Z.of_nat (length name) = 256 ->
  list_entry s d path name w = (Stop (Undef "strcpy beyond tmp"), w).
Proof. intros Hp Hn. unfold list_entry. by rewrite Hp, Hn. Qed.

Lemma do_list_guard_off_by_one_witness :
  list_entry 7 3 (replicate 1024 97) (replicate 256 98) (boot dir_env 9) = (Stop (Undef "strcpy beyond tmp"), boot dir_env 9).
Proof.
  apply (do_list_guard_off_by_one 7 3 (replicate 1024 97) (replicate 256 98) (boot dir_env 9));
    rewrite length_replicate; lia.
Defined.

(** A file system on which every path is missing and nothing can be made. *)
Definition missing_env : env := fun h c =>
  match c return ans c with
  | Open _ _ _ => Err ENOENT
  | Mkdir _ _ => Err 13
  | Read fd n => Ok (take (Z.to_nat n) (drop (length (read_from fd h)) (msg_data ID_DONE 0)))
  | c => ok_default c
  end.

(** When the directories of the destination cannot be made,
    [handle_send_file] sends FAIL twice for the one failed SEND: the second
    message is left in the stream for the client's next command. *)
Theorem handle_send_file_fails_twice :
  let run := handle_send_file no_error root_owned 7 (str "/x/y") (-1) (-1) 420 [] true (boot missing_env 40) in
  run.1 = Done (0, []) /\
  written_to 7 (calls_since (boot missing_env 40) run.2) = fail_frame (no_error 13) ++ fail_frame (no_error 13).
Proof. vm_compute. split; reflexivity. Qed.

Definition link_env : env :=
  copy_env [] (msg_data ID_DATA 1 ++ [97] ++ msg_data ID_DONE 0).

(** [handle_send_link] passes the transfer buffer to [symlink] as a C
    string without terminating it: a peer that does not send the NUL itself
    makes the service read what [malloc] left in the buffer. *)
Theorem handle_send_link_unterminated :
  (handle_send_link no_error root_owned 7 (str "/x") (replicate 8 None) (boot link_env 20)).1 =
  Stop (Undef "link target not terminated").
Proof. vm_compute. reflexivity. Qed.

(** A file that exists and cannot be removed. *)
Definition existing_env : env := fun h c =>
  match c return ans c with
  | Open _ flags _ => if Z.land flags O_EXCL =? 0 then Ok 3 else Err EEXIST
  | Unlink _ => Err 13
  | c => push_env h c
  end.

(** The calls that opened a file, with their flags. *)
Definition ev_opens (e : event) : list (bytes * Z * Z) :=
  match e with existT (Open path flags _) (Ok fd) => [(path, flags, fd)] | _ => [] end.

(** [handle_send_file] over such a file opens it without O_TRUNC and reports
    OKAY: the bytes of the old file after the new ones stay. *)
Theorem handle_send_file_keeps_tail :
  let run := handle_send_file no_error root_owned 7 (str "/x") (-1) (-1) 420 new_buf true (boot existing_env 40) in
  let calls := calls_since (boot existing_env 40) run.2 in
  (calls ≫= ev_opens) = [(str "/x", O_WRONLY, 3)] /\ written_to 3 calls = [1; 2; 3] /\
  written_to 7 calls = msg_data ID_OKAY 0.
Proof. vm_compute. split; [|split]; reflexivity. Qed.
