(* ===== verification/Sockets.v ===== *)
(** * sockets.cpp: local and remote sockets

    A local [asocket] is bound to a descriptor of the event loop, a remote one
    to the other end of a transport; each is the other's [peer].  Calls through
    the method pointers of a socket go through [methods], which [Protocol]
    closes over all kinds of sockets.  The model is the daemon's build
    (ADB_HOST = 0). *)

From S2P Require Import Prelude Effects DList Os Sysdeps Wire Globals Fdevent Transport.

(** ** Text helpers *)

(** [sendfailmsg(fd, reason)] *)
Definition sendfailmsg (fd : Z) (reason : bytes) : M world Z :=
  let len := Z.min (Z.of_nat (length reason)) 0xffff in
  r ← writex fd (str "FAIL" ++ fmt_04x len);
  if negb (r =? 0) then mret (-1) else writex fd (take (Z.to_nat len) reason).

(** A hexadecimal digit of either case, as [unhex] decodes it. *)
Definition hex_digit (c : Z) : option Z :=
  if (48 <=? c) && (c <=? 57) then Some (c - 48) else
  if (97 <=? c) && (c <=? 102) then Some (c - 97 + 10) else
  if (65 <=? c) && (c <=? 70) then Some (c - 65 + 10) else None.

(** [while(len-- > 0)] over the [len] bytes of [s], from the accumulator [n]. *)
Fixpoint unhex_from (n : Z) (s : bytes) : Z :=
  match s with
  | [] => n
  | c :: s' =>
      match hex_digit c with
      | None => 0xffffffff
      | Some d => unhex_from (Z.lor (u32 (Z.shiftl n 4)) d) s'
      end
  end.

Definition unhex (s : bytes) (len : nat) : Z := unhex_from 0 (take len s).

Definition is_digit (c : Z) : bool := (48 <=? c) && (c <=? 57).

Fixpoint span_digits (s : bytes) : nat :=
  match s with
  | c :: s' => if is_digit c then S (span_digits s') else 0%nat
  | [] => 0%nat
  end.

Definition prefixes : list bytes := [str "usb:"; str "product:"; str "model:"; str "device:"].

(** [skip_host_serial(service)]: the offset of the colon after the serial, or
    [None] for NULL; [service] has no NUL. *)
Fixpoint skip_prefixed (ps : list bytes) (service : bytes) : option (option nat) :=
  match ps with
  | [] => None
  | p :: ps' =>
      if has_prefix p service
      then Some ((fun i => (length p + i)%nat) <$> strchr 58 (drop (length p) service))
      else skip_prefixed ps' service
  end.

Definition skip_host_serial (service : bytes) : option nat :=
  match skip_prefixed prefixes service with
  | Some r => r
  | None =>
      match strchr 58 service with
      | None => None
      | Some first_colon =>
          let n := span_digits (drop (S first_colon) service) in
          if bool_decide (n = 0%nat) then Some first_colon else
          let serial_end := (S first_colon + n)%nat in
          if bool_decide (service !! serial_end = Some 58) then Some serial_end else Some first_colon
      end
  end.

(** ** Method calls *)

Record methods := {
  call_enqueue : ptr -> pkt -> F Z;
  call_ready : ptr -> F unit;
  call_shutdown : ptr -> F unit;
  call_close : ptr -> F unit;
  call_disconnect : disconnect_fn -> ptr -> ptr -> F unit;
}.

(** The function an event object of these files calls, as registered with
    fdevent.c. *)
Definition local_socket_event_id : N := 1%N.
Definition jdwp_process_event_id : N := 2%N.
Definition jdwp_control_event_id : N := 3%N.
Definition adb_auth_event_id : N := 4%N.
Definition adb_auth_listener_id : N := 5%N.
Definition transport_socket_events_id : N := 6%N.

(** ** The lists *)

Definition lock_sockets : F unit :=
  b ← global socket_list_lock;
  if (b : bool) then undef "socket_list_lock locked twice" else update (set_socket_list_lock true).

Definition unlock_sockets : F unit := update (set_socket_list_lock false).

Abbreviation sock := (get (T := asocket)).

Abbreviation set_sock := (set (T := asocket)).

Definition find_local_socket (local_id peer_id : Z) : F ptr :=
  lock_sockets;;
  r ← list_scan (T := asocket) local_socket_list (fun s =>
    k ← sock s;
    if negb (sk_id k =? local_id) then mret None else
    if peer_id =? 0 then mret (Some s) else
    if bool_decide (sk_peer k = NULL) then mret (Some NULL) else
    k' ← sock (sk_peer k);
    mret (Some (if sk_id k' =? peer_id then s else NULL)));
  unlock_sockets;;
  mret (default NULL r).

Definition insert_local_socket (s list : ptr) : F unit := zoom (link_before (T := asocket) s list).

Definition install_local_socket (s : ptr) : F unit :=
  lock_sockets;;
  id ← global local_socket_next_id;
  set_sock s (set_id id);;
  update (set_local_socket_next_id (if u32 (id + 1) =? 0 then 1 else u32 (id + 1)));;
  insert_local_socket s local_socket_list;;
  unlock_sockets.

Definition remove_socket (s : ptr) : F unit :=
  k ← sock s;
  if bool_decide (sk_prev k <> NULL) && bool_decide (sk_next k <> NULL) then
    zoom (unlink (T := asocket) s);;
    zoom (store_next (T := asocket) s NULL);;
    zoom (store_prev (T := asocket) s NULL);;
    set_sock s (set_id 0)
  else skip.

(** ** Memory of sockets *)

(** [calloc] of a structure that begins with an [asocket]. *)
Definition new_asocket (size : Z) : F ptr :=
  s ← calloc size;
  if bool_decide (s = NULL) then mret NULL else
  fde ← embed_fde;
  alloc s {| sk_next := NULL; sk_prev := NULL; sk_id := 0; sk_closing := 0; sk_exit_on_close := 0;
             sk_peer := NULL; sk_fde := fde; sk_fd := 0; sk_pkts := [];
             sk_enqueue := local_socket_enqueue_fn; sk_ready := local_socket_ready_fn;
             sk_shutdown := None; sk_close := local_socket_close_fn; sk_transport := NULL |};;
  mret s.

Definition init_socket (fd id : Z) (e : enqueue_fn) (r : ready_fn) (sh : option shutdown_fn)
    (c : close_fn) (t : ptr) (k : asocket) : asocket :=
  {| sk_next := sk_next k; sk_prev := sk_prev k; sk_id := id; sk_closing := sk_closing k;
     sk_exit_on_close := sk_exit_on_close k; sk_peer := sk_peer k; sk_fde := sk_fde k; sk_fd := fd;
     sk_pkts := sk_pkts k; sk_enqueue := e; sk_ready := r; sk_shutdown := sh; sk_close := c;
     sk_transport := t |}.

(** [free(s)]: the socket and whatever structure it is the start of. *)
Definition free_asocket (s : ptr) : F unit :=
  k ← sock s;
  dealloc (T := asocket) s;;
  update (fun g => set_trackers (base.delete s (trackers g))
                   (set_jdwp_passes (base.delete s (jdwp_passes g))
                   (set_disconnects (base.delete s (disconnects g))
                   (set_hosts (set_device_trackers (base.delete s (device_trackers (hosts g)))
                                 (device_tracker_list (hosts g)) (hosts g)) g))));;
  free_fde (sk_fde k).

(** The unsent bytes of a packet: [len] bytes from [ptr]. *)
Definition packet_bytes (p : pkt) : F bytes :=
  match p_ptr p with
  | None => undef "null pointer"
  | Some o =>
      let bs := take (Z.to_nat (p_len p)) (drop (Z.to_nat o) (data (p_body p))) in
      if Z.of_nat (length bs) =? p_len p then mret bs else undef "indeterminate packet data"
  end.

(** [p->ptr += r; p->len -= r;] *)
Definition advance (r : Z) (p : pkt) : pkt :=
  {| p_addr := p_addr p; p_len := p_len p - r; p_ptr := (fun o => o + r) <$> p_ptr p; p_body := p_body p |}.

Section sockets.
Context (sizeof_ptr : Z) (call : methods).

(** ** Local sockets *)

(** The write loop of [local_socket_enqueue]: the packet that is left, or
    [None] after an error. *)
Definition enqueue_write (fd : Z) (p : pkt) : F (option pkt) :=
  loop (fun p =>
    if p_len p <=? 0 then mret (inr (Some p)) else
    bs ← packet_bytes p;
    r ← os (adb_write fd bs);
    match r with
    | Ok n => if n >? 0 then mret (inl (advance n p)) else mret (inr None)
    | Err e => if negb (e =? EAGAIN) then mret (inr None) else mret (inr (Some p))
    end) p.

(** The label [enqueue]. *)
Definition enqueue_tail (s : ptr) (p : pkt) : F Z :=
  set_sock s (fun k => set_pkts (sk_pkts k ++ [p]) k);;
  k ← sock s;
  fdevent_add (sk_fde k) FDE_WRITE;;
  mret 1.

Definition local_socket_enqueue (s : ptr) (p : pkt) : F Z :=
  let p := set_pptr 0 p in
  k ← sock s;
  if negb (bool_decide (sk_pkts k = [])) then enqueue_tail s p else
  r ← enqueue_write (sk_fd k) p;
  match r with
  | None => call_close call s;; mret 1
  | Some p' => if p_len p' =? 0 then put_apacket p';; mret 0 else enqueue_tail s p'
  end.

Definition local_socket_ready (s : ptr) : F unit :=
  k ← sock s;
  fdevent_add (sk_fde k) FDE_READ.

Definition local_socket_destroy (s : ptr) : F unit :=
  k ← sock s;
  fdevent_remove (sk_fde k);;
  for_each (sk_pkts k) put_apacket;;
  remove_socket s;;
  free_asocket s;;
  if negb (sk_exit_on_close k =? 0) then abort "local_socket_destroy: exiting" else skip.

(** [local_socket_close_locked]: the recursive call is for a peer whose own
    [peer] has just been cleared, so two levels are enough. *)
Fixpoint close_locked (depth : nat) (s : ptr) : F unit :=
  match depth with
  | O => stop_with Diverge
  | S depth' =>
      k ← sock s;
      (if bool_decide (sk_peer k = NULL) then skip else
        kp ← sock (sk_peer k);
        (match sk_shutdown kp with Some _ => call_shutdown call (sk_peer k) | None => skip end);;
        set_sock (sk_peer k) (set_peer NULL);;
        kp' ← sock (sk_peer k);
        (if bool_decide (sk_close kp' = local_socket_close_fn)
         then close_locked depth' (sk_peer k)
         else call_close call (sk_peer k));;
        set_sock s (set_peer NULL));;
      k' ← sock s;
      if negb (sk_closing k' =? 0) || bool_decide (sk_pkts k' = []) then local_socket_destroy s else
      set_sock s (set_closing 1);;
      fdevent_del (sk_fde k') FDE_READ;;
      remove_socket s;;
      insert_local_socket s local_socket_closing_list
  end.

Definition local_socket_close_locked (s : ptr) : F unit := close_locked 2 s.

Definition local_socket_close (s : ptr) : F unit :=
  lock_sockets;;
  local_socket_close_locked s;;
  unlock_sockets.

(** [close_all_sockets(t)]: after every close the walk restarts; each close
    takes a socket off the list, so the heap's size bounds the restarts. *)
Fixpoint close_all_fuel (n : nat) (t : ptr) : F unit :=
  match n with
  | O => stop_with Diverge
  | S n' =>
      r ← list_scan (T := asocket) local_socket_list (fun s =>
        k ← sock s;
        if bool_decide (sk_transport k = t) then mret (Some s) else
        if bool_decide (sk_peer k = NULL) then mret None else
        kp ← sock (sk_peer k);
        if bool_decide (sk_transport kp = t) then mret (Some s) else mret None);
      match r with
      | None => skip
      | Some s => local_socket_close_locked s;; close_all_fuel n' t
      end
  end.

Definition close_all_sockets (t : ptr) : F unit :=
  lock_sockets;;
  n ← global (fun g => size (sockets g));
  close_all_fuel n t;;
  unlock_sockets.

(** *** Events of the descriptor *)

(** Why the write half of the event function stops. *)
Inductive flushed := Drained | Would_block | Failed.

(** [while(p->len > 0)] on the first packet, which is updated in place. *)
Definition flush_packet (s : ptr) (fd : Z) : F flushed :=
  loop (fun _ : unit =>
    k ← sock s;
    match sk_pkts k with
    | [] => undef "pkt_first is NULL"
    | p :: ps =>
        if p_len p <=? 0 then mret (inr Drained) else
        bs ← packet_bytes p;
        r ← os (adb_write fd bs);
        match r with
        | Ok n =>
            if n >? 0 then set_sock s (set_pkts (advance n p :: ps));; mret (inl tt)
            else mret (inr Failed)
        | Err e =>
            if e =? EAGAIN then mret (inr Would_block) else
            if e =? EINTR then mret (inl tt) else mret (inr Failed)
        end
    end) tt.

(** [while((p = s->pkt_first) != 0)] *)
Fixpoint flush_queue (n : nat) (s : ptr) (fd : Z) : F flushed :=
  k ← sock s;
  match sk_pkts k with
  | [] => mret Drained
  | _ :: _ =>
      match n with
      | O => stop_with Diverge
      | S n' =>
          r ← flush_packet s fd;
          match r with
          | Drained =>
              k' ← sock s;
              match sk_pkts k' with
              | [] => undef "pkt_first is NULL"
              | p :: ps => set_sock s (set_pkts ps);; put_apacket p;; flush_queue n' s fd
              end
          | _ => mret r
          end
      end
  end.

(** The write half; [true] when the function goes on to the read half. *)
Definition event_write (s : ptr) (fd : Z) : F bool :=
  k ← sock s;
  r ← flush_queue (length (sk_pkts k)) s fd;
  match r with
  | Would_block => mret false
  | Failed => call_close call s;; mret false
  | Drained =>
      k' ← sock s;
      if negb (sk_closing k' =? 0) then call_close call s;; mret false else
      fdevent_del (sk_fde k') FDE_WRITE;;
      call_ready call (sk_peer k');;
      mret true
  end.

(** [while(avail > 0)]: what was read, the last [r] and [is_eof]. *)
Definition read_avail (fd : Z) : M world (bytes * Z * bool) :=
  loop (fun '(acc, r) =>
    let avail := MAX_PAYLOAD - Z.of_nat (length acc) in
    if avail <=? 0 then mret (inr (acc, r, false)) else
    a ← adb_read fd avail;
    match a with
    | Ok [] => mret (inr (acc, 0, true))
    | Ok bs => mret (inl (acc ++ bs, Z.of_nat (length bs)))
    | Err e =>
        if e =? EAGAIN then mret (inr (acc, -1, false)) else
        if e =? EINTR then mret (inl (acc, -1)) else mret (inr (acc, -1, true))
    end) ([], 0).

Definition event_read (s : ptr) (fd : Z) : F unit :=
  p ← get_apacket;
  '(bs, r, is_eof) ← os (read_avail fd);
  k ← sock s;
  r' ← (if bool_decide (bs = []) || bool_decide (sk_peer k = NULL) then put_apacket p;; mret (Some r) else
        r ← call_enqueue call (sk_peer k) (set_len (Z.of_nat (length bs)) (set_data bs p));
        if r <? 0 then mret None else
        (if r >? 0 then k' ← sock s; fdevent_del (sk_fde k') FDE_READ else skip);;
        mret (Some r));
  match r' with
  | None => skip
  | Some r =>
      k' ← sock s;
      f ← deref (sk_fde k');
      if (negb (fde_force_eof f =? 0) && (r =? 0)) || is_eof then call_close call s else skip
  end.

Definition local_socket_event_func (fd ev : Z) (s : ptr) : F unit :=
  go ← (if has ev FDE_WRITE then event_write s fd else mret true);
  if negb go then skip else
  if has ev FDE_READ then event_read s fd else skip.

Definition create_local_socket (fd : Z) : F ptr :=
  s ← new_asocket 128;
  if bool_decide (s = NULL) then abort "cannot allocate socket" else
  set_sock s (init_socket fd 0 local_socket_enqueue_fn local_socket_ready_fn None local_socket_close_fn NULL);;
  install_local_socket s;;
  k ← sock s;
  fdevent_install sizeof_ptr (sk_fde k) fd (client_func local_socket_event_id) s;;
  mret s.

(** ** Remote sockets *)

Definition remote_socket_enqueue (s : ptr) (p : pkt) : F Z :=
  k ← sock s;
  kp ← sock (sk_peer k);
  send_packet sizeof_ptr (set_msg A_WRTE (sk_id kp) (sk_id k) (p_len p) p) (sk_transport k);;
  mret 1.

Definition remote_socket_ready (s : ptr) : F unit :=
  k ← sock s;
  p ← get_apacket;
  kp ← sock (sk_peer k);
  send_packet sizeof_ptr (set_msg A_OKAY (sk_id kp) (sk_id k) 0 p) (sk_transport k).

Definition remote_socket_shutdown (s : ptr) : F unit :=
  k ← sock s;
  p ← get_apacket;
  local ← (if bool_decide (sk_peer k = NULL) then mret 0 else kp ← sock (sk_peer k); mret (sk_id kp));
  send_packet sizeof_ptr (set_msg A_CLSE local (sk_id k) 0 p) (sk_transport k).

Definition remote_socket_close (s : ptr) : F unit :=
  k ← sock s;
  (if bool_decide (sk_peer k = NULL) then skip else
    set_sock (sk_peer k) (set_peer NULL);;
    call_close call (sk_peer k));;
  k' ← sock s;
  remove_transport_disconnect (sk_transport k') s;;
  free_asocket s.

Definition remote_socket_disconnect (s t : ptr) : F unit :=
  k ← sock s;
  (if bool_decide (sk_peer k = NULL) then skip else
    set_sock (sk_peer k) (set_peer NULL);;
    call_close call (sk_peer k));;
  k' ← sock s;
  remove_transport_disconnect (sk_transport k') s;;
  free_asocket s.

Definition create_remote_socket (id : Z) (t : ptr) : F ptr :=
  if id =? 0 then abort "invalid remote socket id (0)" else
  s ← new_asocket 144;
  if bool_decide (s = NULL) then abort "cannot allocate socket" else
  set_sock s (init_socket 0 id remote_socket_enqueue_fn remote_socket_ready_fn
                (Some remote_socket_shutdown_fn) remote_socket_close_fn t);;
  alloc s {| ad_func := remote_socket_disconnect_fn; ad_opaque := s; ad_next := NULL; ad_prev := NULL |};;
  add_transport_disconnect t s;;
  mret s.

Definition connect_to_remote (s : ptr) (destination : bytes) : F unit :=
  p ← get_apacket;
  let len := Z.of_nat (length destination) + 1 in
  if len >? MAX_PAYLOAD - 1 then abort "destination oversized" else
  k ← sock s;
  send_packet sizeof_ptr (set_msg A_OPEN (sk_id k) 0 len (set_data (destination ++ [0]) p)) (sk_transport k).

(** ** Go-ahead and failure messages of a socket that is being connected *)

Definition local_socket_ready_notify (s : ptr) : F unit :=
  set_sock s (set_methods local_socket_ready_fn None local_socket_close_fn);;
  k ← sock s;
  os (adb_write (sk_fd k) (str "OKAY"));;
  call_ready call s.

Definition local_socket_close_notify (s : ptr) : F unit :=
  set_sock s (set_methods local_socket_ready_fn None local_socket_close_fn);;
  k ← sock s;
  os (sendfailmsg (sk_fd k) (str "closed"));;
  call_close call s.
End sockets.
