(* ===== verification/Registry.v ===== *)
(** * The registry of transports (transport.cpp, transport_usb.cpp,
    transport_local.cpp)

    Transports are allocated by the threads that accept connections, wait on
    [pending_list], and are moved to [transport_list] by the event loop, which
    starts their two threads; the last thread to end has the event loop free
    the transport.  The messages to the event loop go through a socket pair.
    This file also has the queries of the host: which transport a request
    means, and the list of devices as text.  The bodies of the threads are
    functions of the shared state like the rest. *)

From S2P Require Import Prelude Effects DList Os Sysdeps Wire Globals Fdevent Transport Sockets.

(** ** Which device is meant *)

Definition qual_char_is_invalid (ch : Z) : bool :=
  if (65 <=? ch) && (ch <=? 90) then false else
  if (97 <=? ch) && (ch <=? 122) then false else
  if (48 <=? ch) && (ch <=? 57) then false else true.

(** [while ( *prefix) if ( *prefix++ != *to_test++) return 0;]: the rest of
    [to_test]; at its end [*to_test] is the NUL, which no character equals. *)
Fixpoint match_prefix (prefix to_test : bytes) : option bytes :=
  match prefix, to_test with
  | [], _ => Some to_test
  | c :: prefix', d :: to_test' => if c =? d then match_prefix prefix' to_test' else None
  | _ :: _, [] => None
  end.

(** [while ( *qual) ...] and the final test that [to_test] has ended. *)
Fixpoint match_qual (sanitize_qual : bool) (qual to_test : bytes) : bool :=
  match qual, to_test with
  | [], [] => true
  | [], _ :: _ => false
  | ch :: qual', d :: to_test' =>
      let ch := if sanitize_qual && qual_char_is_invalid ch then 95 else ch in
      if ch =? d then match_qual sanitize_qual qual' to_test' else false
  | _ :: _, [] => false
  end.

Definition qual_match (to_test : bytes) (prefix : bytes) (qual : option bytes) (sanitize_qual : bool) : bool :=
  match to_test with
  | [] => match qual with None | Some [] => true | Some _ => false end
  | _ =>
      match qual with
      | None => false
      | Some qual =>
          match match_prefix prefix to_test with
          | None => false
          | Some rest => match_qual sanitize_qual qual rest
          end
      end
  end.

(** [!strcmp(serial, name)] for a name that may be NULL. *)
Definition same_name (serial : bytes) (name : option bytes) : bool :=
  match name with Some n => bool_decide (serial = n) | None => false end.

Definition serial_matches (serial : bytes) (t : atransport) : bool :=
  same_name serial (at_serial t) || same_name serial (at_devpath t) ||
  qual_match serial (str "product:") (at_product t) false ||
  qual_match serial (str "model:") (at_model t) true ||
  qual_match serial (str "device:") (at_device t) false.

(** The variables of the search: [result], [ambiguous] and [*error_out]. *)
Record search := {
  result : ptr;
  ambiguous : bool;
  error_out : bytes;
}.

(** A transport that matches: the first is kept, a second ends the search. *)
Definition found (t : ptr) (more : bytes) (a : search) : search * bool :=
  if bool_decide (result a = NULL)
  then ({| result := t; ambiguous := ambiguous a; error_out := error_out a |}, false)
  else ({| result := NULL; ambiguous := true; error_out := more |}, true).

(** One iteration for the transport [k] at [t]: the variables, and whether the
    loop is left. *)
Definition consider (ttype : transport_type) (serial : option bytes) (t : ptr) (k : atransport)
    (a : search) : search * bool :=
  if at_connection_state k =? CS_NOPERM then
    ({| result := result a; ambiguous := ambiguous a;
        error_out := str "insufficient permissions for device" |}, false)
  else
  match serial with
  | Some serial => if serial_matches serial k then found t (str "more than one device") a else (a, false)
  | None =>
      if bool_decide (ttype = kTransportUsb) && bool_decide (at_type k = kTransportUsb)
      then found t (str "more than one device") a
      else if bool_decide (ttype = kTransportLocal) && bool_decide (at_type k = kTransportLocal)
      then found t (str "more than one emulator") a
      else if bool_decide (ttype = kTransportAny)
      then found t (str "more than one device and emulator") a
      else (a, false)
  end.

Fixpoint search_list (n : nat) (ttype : transport_type) (serial : option bytes) (t : ptr) (a : search) : F search :=
  if bool_decide (t = transport_list) then mret a else
  match n with
  | O => stop_with Diverge
  | S n' =>
      k ← get (T := atransport) t;
      let '(a', break) := consider ttype serial t k a in
      if (break : bool) then mret a' else search_list n' ttype serial (at_next k) a'
  end.

(** The tests on the one that was found. *)
Definition usable (state connection_state : Z) : option bytes :=
  if connection_state =? CS_UNAUTHORIZED
  then Some (str "device unauthorized. Please check the confirmation dialog on your device.") else
  if connection_state =? CS_OFFLINE then Some (str "device offline") else
  if negb (state =? CS_ANY) && negb (connection_state =? state) then Some (str "invalid device state") else None.

(** From the label [retry] to the decision to return: the transport with NULL
    for the error, or NULL and the error; [inl] to try again a second later.
    [ambiguous] keeps its value. *)
Definition acquire_round (state : Z) (ttype : transport_type) (serial : option bytes) (ambig : bool) :
    F (bool + ptr * option bytes) :=
  lock_transports;;
  first ← zoom (load_next (T := atransport) transport_list);
  n ← global (fun g => size (transports g));
  a ← search_list n ttype serial first
        {| result := NULL; ambiguous := ambig; error_out := str "device not found" |};
  unlock_transports;;
  r ← (if bool_decide (result a = NULL) then mret (NULL, Some (error_out a)) else
       k ← get (T := atransport) (result a);
       mret (match usable state (at_connection_state k) with
             | Some e => (NULL, Some e)
             | None => (result a, None)
             end));
  if bool_decide (r.1 = NULL) && negb (state =? CS_ANY) && (bool_decide (is_Some serial) || negb (ambiguous a))
  then os (adb_sleep_ms 1000);; mret (inl (ambiguous a))
  else mret (inr r).

Definition acquire_one_transport (state : Z) (ttype : transport_type) (serial : option bytes) :
    F (ptr * option bytes) :=
  loop (acquire_round state ttype serial) false.

(** ** The list of devices as text *)

Definition statename (t : atransport) : bytes :=
  let s := at_connection_state t in
  if s =? CS_OFFLINE then str "offline" else
  if s =? CS_BOOTLOADER then str "bootloader" else
  if s =? CS_DEVICE then str "device" else
  if s =? CS_HOST then str "host" else
  if s =? CS_RECOVERY then str "recovery" else
  if s =? CS_SIDELOAD then str "sideload" else
  if s =? CS_NOPERM then str "no permissions" else
  if s =? CS_UNAUTHORIZED then str "unauthorized" else str "unknown".

(** Text in a buffer: what has been stored, and the bytes that are left. *)
Definition cursor : Type := bytes * Z.

(** [len = snprintf(buf, remaining, ...); remaining -= len; buf += len;] for a
    text [s] that is stored as far as it fits.  When [len] is more than
    [remaining], [buf] points after the buffer and [remaining] wraps round;
    everything that follows would be stored there. *)
Definition print (s : bytes) (c : cursor) : F cursor :=
  let '(text, remaining) := c in
  if remaining <? Z.of_nat (length s) then undef "snprintf after the buffer"
  else mret (text ++ s, remaining - Z.of_nat (length s)).

Definition sanitize (ch : Z) : Z := if qual_char_is_invalid ch then 95 else ch.

(** The loop that replaces characters runs over the [len] bytes [snprintf]
    reports, also when they were not stored; with [len = remaining] the last
    of them is the NUL. *)
Definition add_qual (prefix : bytes) (qual : option bytes) (sanitize_qual : bool) (c : cursor) : F cursor :=
  match qual with
  | None | Some [] => mret c
  | Some qual =>
      if snd c =? 0 then mret c else
      print (prefix ++ (if sanitize_qual then sanitize <$> qual else qual)) c
  end.

(** [%-22s] *)
Definition pad22 (s : bytes) : bytes := s ++ replicate (22 - length s) 32.

Definition serial_or_unknown (t : atransport) : bytes :=
  match at_serial t with Some (c :: s) => c :: s | _ => str "????????????" end.

(** [format_transport(t, buf, bufsize, long_listing)]: the result, and the text
    of the line when it was stored whole. *)
Definition format_transport (t : atransport) (bufsize : Z) (long_listing : bool) : F (Z * bytes) :=
  if negb long_listing then
    let line := serial_or_unknown t ++ [9] ++ statename t ++ [10] in
    mret (Z.of_nat (length line), line)
  else
    c1 ← print (pad22 (serial_or_unknown t) ++ [32] ++ statename t) ([], bufsize);
    c2 ← add_qual (str " ") (at_devpath t) false c1;
    c3 ← add_qual (str " product:") (at_product t) false c2;
    c4 ← add_qual (str " model:") (at_model t) true c3;
    c5 ← add_qual (str " device:") (at_device t) false c4;
    let line := fst c5 ++ [10] in
    mret (Z.of_nat (length line), line).

Fixpoint list_lines (n : nat) (bufsize : Z) (long_listing : bool) (t : ptr) (acc : bytes) : F bytes :=
  if bool_decide (t = transport_list) then mret acc else
  match n with
  | O => stop_with Diverge
  | S n' =>
      k ← get (T := atransport) t;
      '(len, line) ← format_transport k (bufsize - Z.of_nat (length acc)) long_listing;
      if Z.of_nat (length acc) + len >=? bufsize then mret acc
      else list_lines n' bufsize long_listing (at_next k) (acc ++ line)
  end.

(** [list_transports(buf, bufsize, long_listing)]: the text before the NUL. *)
Definition list_transports (bufsize : Z) (long_listing : bool) : F bytes :=
  lock_transports;;
  first ← zoom (load_next (T := atransport) transport_list);
  n ← global (fun g => size (transports g));
  acc ← list_lines n bufsize long_listing first [];
  (if Z.of_nat (length acc) <? bufsize then skip else undef "write after the buffer");;
  unlock_transports;;
  mret acc.

Definition list_transports_msg (bufferlen : Z) : F bytes :=
  l ← list_transports (bufferlen - 4) false;
  mret (take 4 (fmt_04x (Z.of_nat (length l))) ++ l).

(** ** The remote side *)

Section registry.
Context (sizeof_ptr : Z) (big_endian : bool).

(** The USB driver (usb_read, usb_write, usb_close and usb_kick). *)
Context (usb_read : ptr -> Z -> F (option bytes)) (usb_write : ptr -> bytes -> F Z)
        (usb_close usb_kick : ptr -> F unit).

(** Calls on sockets and disconnect callbacks, and [update_transports]: nothing
    on the device, the trackers on the host. *)
Context (call : methods) (update_transports : F unit).

(** [%p] *)
Context (fmt_p : ptr -> bytes).

(** [ADB_HOST && HOST] *)
Context (HOST : bool).

Abbreviation trans := (get (T := atransport)).

Abbreviation set_trans := (set (T := atransport)).

(** *** transport_usb.cpp *)

Definition usb_remote_read (usb : ptr) (buf : bytes) : F (option apacket) :=
  h ← usb_read usb 24;
  match h with
  | None => mret None
  | Some hb =>
      let m := fix_endians big_endian (message_of_bytes big_endian hb) in
      if negb (check_header {| msg := m; data := buf |} =? 0) then mret None else
      d ← (if negb (data_length m =? 0)
           then (if MAX_PAYLOAD <? data_length m then undef "read past the end of a buffer"
                 else usb_read usb (data_length m))
           else mret (Some []));
      match d with
      | None => mret None
      | Some db =>
          let p' := {| msg := m; data := fill db buf |} in
          if negb (check_data p' =? 0) then mret None else mret (Some p')
      end
  end.

(** The header's own [data_length] is tested after the bytes were swapped. *)
Definition usb_remote_write (usb : ptr) (p : apacket) : F Z :=
  let size := data_length (msg p) in
  let m := fix_endians big_endian (msg p) in
  r ← usb_write usb (message_bytes big_endian m);
  if negb (r =? 0) then mret (-1) else
  if data_length m =? 0 then mret 0 else
  r' ← usb_write usb (take (Z.to_nat size) (data p));
  if negb (r' =? 0) then mret (-1) else mret 0.

Definition usb_remote_close (t : ptr) : F unit :=
  k ← trans t;
  usb_close (at_usb k);;
  set_trans t (set_usb NULL).

Definition usb_remote_kick (t : ptr) : F unit :=
  k ← trans t;
  usb_kick (at_usb k).

Definition init_usb_transport (t h : ptr) (state : Z) : F unit :=
  set_trans t (fun k => set_remote usb_remote (at_sfd k) h state kTransportUsb k).

(** *** transport_local.cpp *)

Definition lock_local_transports : F unit :=
  h ← global hosts;
  if local_transports_lock h then undef "local_transports_lock locked twice" else
  update (fun g => set_hosts (set_local_transports_lock true (hosts g)) g).

Definition unlock_local_transports : F unit :=
  update (fun g => set_hosts (set_local_transports_lock false (hosts g)) g).

(** The index of the first entry of [l] that is [t]. *)
Fixpoint slot_of (t : ptr) (l : list ptr) : option nat :=
  match l with
  | [] => None
  | x :: l' => if bool_decide (x = t) then Some 0%nat else S <$> slot_of t l'
  end.

Definition set_slot (i : nat) (t : ptr) : F unit :=
  update (fun g => set_hosts (set_local_transports (<[i := t]> (local_transports (hosts g))) (hosts g)) g).

Definition local_remote_kick (t : ptr) : F unit :=
  k ← trans t;
  set_trans t (set_sfd (-1));;
  os (adb_shutdown (at_sfd k));;
  os (adb_close (at_sfd k));;
  if negb HOST then skip else
  lock_local_transports;;
  h ← global hosts;
  (match slot_of t (local_transports h) with Some i => set_slot i NULL | None => skip end);;
  unlock_local_transports.

Definition local_remote_close (t : ptr) : F unit :=
  k ← trans t;
  os (adb_close (at_fd k));;
  skip.

Fixpoint emulator_on (l : list ptr) (adb_port : Z) : F ptr :=
  match l with
  | [] => mret NULL
  | t :: l' =>
      if bool_decide (t = NULL) then emulator_on l' adb_port else
      k ← trans t;
      if at_adb_port k =? adb_port then mret t else emulator_on l' adb_port
  end.

Definition find_emulator_transport_by_adb_port_locked (adb_port : Z) : F ptr :=
  h ← global hosts;
  emulator_on (local_transports h) adb_port.

Definition find_emulator_transport_by_adb_port (adb_port : Z) : F ptr :=
  lock_local_transports;;
  t ← find_emulator_transport_by_adb_port_locked adb_port;
  unlock_local_transports;;
  mret t.

Definition get_available_local_transport_index_locked : F Z :=
  h ← global hosts;
  mret (match slot_of NULL (local_transports h) with Some i => Z.of_nat i | None => -1 end).

Definition get_available_local_transport_index : F Z :=
  lock_local_transports;;
  i ← get_available_local_transport_index_locked;
  unlock_local_transports;;
  mret i.

Definition init_socket_transport (t : ptr) (s adb_port : Z) (local : bool) : F Z :=
  set_trans t (fun k => set_adb_port 0 (set_remote local_remote s (at_usb k) CS_OFFLINE kTransportLocal k));;
  if negb (HOST && local) then mret 0 else
  lock_local_transports;;
  set_trans t (set_adb_port adb_port);;
  existing_transport ← find_emulator_transport_by_adb_port_locked adb_port;
  index ← get_available_local_transport_index_locked;
  fail ← (if bool_decide (existing_transport <> NULL) then mret (-1) else
          if index <? 0 then mret (-1) else set_slot (Z.to_nat index) t;; mret 0);
  unlock_local_transports;;
  mret fail.

(** [t->kick(t)], [t->close(t)], [t->read_from_remote(p, t)] and
    [t->write_to_remote(p, t)]. *)
Definition kick (t : ptr) : F unit :=
  k ← trans t;
  match at_remote k with
  | Some local_remote => local_remote_kick t
  | Some usb_remote => usb_remote_kick t
  | None => undef "call through a NULL pointer"
  end.

Definition close (t : ptr) : F unit :=
  k ← trans t;
  match at_remote k with
  | Some local_remote => local_remote_close t
  | Some usb_remote => usb_remote_close t
  | None => undef "call through a NULL pointer"
  end.

Definition read_from_remote (t : ptr) (buf : bytes) : F (option apacket) :=
  k ← trans t;
  match at_remote k with
  | Some local_remote => os (remote_read big_endian (at_sfd k) buf)
  | Some usb_remote => usb_remote_read (at_usb k) buf
  | None => undef "call through a NULL pointer"
  end.

Definition write_to_remote (t : ptr) (p : apacket) : F Z :=
  k ← trans t;
  match at_remote k with
  | Some local_remote => os (remote_write big_endian (at_sfd k) p)
  | Some usb_remote => usb_remote_write (at_usb k) p
  | None => undef "call through a NULL pointer"
  end.

(** ** Messages to the event loop *)

Record tmsg := { tm_transport : ptr; tm_action : Z }.

(** The memory of a [tmsg]; the bytes after [action] are padding. *)
Definition sizeof_tmsg : Z := 2 * sizeof_ptr.

Definition tmsg_bytes (m : tmsg) : bytes :=
  le_bytes (Z.to_nat sizeof_ptr) (Z.of_N (tm_transport m)) ++ le32 (tm_action m) ++
  replicate (Z.to_nat (sizeof_ptr - 4)) 0.

Definition tmsg_of_bytes (bs : bytes) : tmsg :=
  {| tm_transport := Z.to_N (le_val (take (Z.to_nat sizeof_ptr) bs));
     tm_action := s32 (le_val (take 4 (drop (Z.to_nat sizeof_ptr) bs))) |}.

Definition transport_read_action (fd : Z) : M world (option tmsg) :=
  r ← read_all fd sizeof_tmsg;
  mret (tmsg_of_bytes <$> r).

Definition transport_write_action (fd : Z) (m : tmsg) : M world Z := write_packet fd (tmsg_bytes m).

Definition register_transport (t : ptr) : F unit :=
  fd ← global transport_registration_send;
  r ← os (transport_write_action fd {| tm_transport := t; tm_action := 1 |});
  if negb (r =? 0) then abort "cannot write transport registration socket" else skip.

Definition remove_transport (t : ptr) : F unit :=
  fd ← global transport_registration_send;
  r ← os (transport_write_action fd {| tm_transport := t; tm_action := 0 |});
  if negb (r =? 0) then abort "cannot write transport registration socket" else skip.

(** ** Kicking and releasing *)

Definition kick_transport (t : ptr) : F unit :=
  if bool_decide (t = NULL) then skip else
  k ← trans t;
  if negb (at_kicked k =? 0) then skip else
  lock_transports;;
  k' ← trans t;
  (if at_kicked k' =? 0 then set_trans t (set_kicked 1) else skip);;
  unlock_transports;;
  if at_kicked k' =? 0 then kick t else skip.

Definition transport_unref_locked (t : ptr) : F unit :=
  set_trans t (fun k => set_ref_count (at_ref_count k - 1) k);;
  k ← trans t;
  if at_ref_count k =? 0 then
    (if at_kicked k =? 0 then set_trans t (set_kicked 1);; kick t else skip);;
    close t;;
    remove_transport t
  else skip.

Definition transport_unref (t : ptr) : F unit :=
  if bool_decide (t = NULL) then skip else
  lock_transports;;
  transport_unref_locked t;;
  unlock_transports.

(** ** Registration *)

(** [calloc(1, sizeof(atransport))] with its embedded structures. *)
Definition new_atransport : F ptr :=
  t ← calloc 512;
  if bool_decide (t = NULL) then mret NULL else
  fde ← embed_fde;
  auth_fde ← embed_fde;
  alloc t {| ad_func := usb_disconnected_fn; ad_opaque := NULL; ad_next := NULL; ad_prev := NULL |};;
  alloc t (set_embedded fde auth_fde t no_atransport);;
  mret t.

Definition free_atransport (t : ptr) : F unit :=
  k ← trans t;
  dealloc (T := atransport) t;;
  dealloc (T := adisconnect) (at_disconnects k);;
  free_fde (at_transport_fde k);;
  free_fde (at_auth_fde k).

(** Whether a transport of the list has the serial number. *)
Definition has_serial (list : ptr) (serial : bytes) : F (option unit) :=
  list_scan (T := atransport) list (fun n =>
    k ← trans n;
    mret (if same_name serial (at_serial k) then Some tt else None)).

Definition register_socket_transport (s : Z) (serial : option bytes) (port : Z) (local : bool) : F Z :=
  t ← new_atransport;
  let serial := match serial with Some n => n | None => take 31 (str "T-" ++ fmt_p t) end in
  r ← init_socket_transport t s port local;
  if r <? 0 then free_atransport t;; mret (-1) else
  lock_transports;;
  pending ← has_serial pending_list serial;
  match pending with
  | Some _ => unlock_transports;; free_atransport t;; mret (-1)
  | None =>
      known ← has_serial transport_list serial;
      match known with
      | Some _ => unlock_transports;; free_atransport t;; mret (-1)
      | None =>
          zoom (link_before' (T := atransport) t pending_list);;
          set_trans t (fun k => set_names (Some serial) (at_devpath k) k);;
          unlock_transports;;
          register_transport t;;
          mret 0
      end
  end.

Definition register_usb_transport (usb : ptr) (serial devpath : option bytes) (writeable : bool) : F unit :=
  t ← new_atransport;
  init_usb_transport t usb (if writeable then CS_OFFLINE else CS_NOPERM);;
  set_trans t (set_names serial devpath);;
  lock_transports;;
  zoom (link_before' (T := atransport) t pending_list);;
  unlock_transports;;
  register_transport t.

(** [m.action == 0]: the threads have ended. *)
Definition registration_remove (t : ptr) : F unit :=
  k ← trans t;
  fdevent_remove (at_transport_fde k);;
  os (adb_close (at_fd k));;
  lock_transports;;
  zoom (list_remove (T := atransport) t);;
  unlock_transports;;
  run_transport_disconnects (call_disconnect call) t;;
  free_atransport t;;
  update_transports.

(** The threads of a transport that may be used. *)
Definition start_threads (t : ptr) : F unit :=
  set_trans t (set_ref_count 2);;
  s ← os adb_socketpair;
  match s with
  | Err _ => abort "cannot open transport socketpair"
  | Ok (s0, s1) =>
      set_trans t (set_ends s0 s1);;
      k ← trans t;
      fdevent_install sizeof_ptr (at_transport_fde k) s0 (client_func transport_socket_events_id) t;;
      fdevent_set (at_transport_fde k) FDE_READ;;
      i ← os (syscall (Thread_create "input_thread"));
      match i with
      | Err _ => abort "cannot create input thread"
      | Ok _ =>
          o ← os (syscall (Thread_create "output_thread"));
          match o with
          | Err _ => abort "cannot create output thread"
          | Ok _ => skip
          end
      end
  end.

Definition registration_add (t : ptr) : F unit :=
  k ← trans t;
  (if negb (at_connection_state k =? CS_NOPERM) then start_threads t else skip);;
  lock_transports;;
  zoom (list_remove (T := atransport) t);;
  zoom (link_before' (T := atransport) t transport_list);;
  unlock_transports;;
  k' ← trans t;
  zoom (list_init (T := adisconnect) (at_disconnects k'));;
  update_transports.

Definition transport_registration_func (fd ev : Z) : F unit :=
  if negb (has ev FDE_READ) then skip else
  m ← os (transport_read_action fd);
  match m with
  | None => abort "cannot read transport registration socket"
  | Some m => if tm_action m =? 0 then registration_remove (tm_transport m) else registration_add (tm_transport m)
  end.

Definition transport_registration_func_id : N := 7%N.

Definition init_transport_registration : F unit :=
  s ← os adb_socketpair;
  match s with
  | Err _ => abort "cannot open transport registration socketpair"
  | Ok (s0, s1) =>
      update (fun g => set_transport_registration_send s0 (set_transport_registration_recv s1 g));;
      fde ← global transport_registration_fde;
      fdevent_install sizeof_ptr fde s1 (client_func transport_registration_func_id) NULL;;
      fdevent_set fde FDE_READ
  end.

(** ** Removal on request (host) *)

Definition find_transport (serial : bytes) : F ptr :=
  lock_transports;;
  r ← list_scan (T := atransport) transport_list (fun t =>
        k ← trans t;
        mret (if same_name serial (at_serial k) then Some t else None));
  unlock_transports;;
  mret (default NULL r).

Definition unregister_transport (t : ptr) : F unit :=
  lock_transports;;
  zoom (list_remove (T := atransport) t);;
  unlock_transports;;
  kick_transport t;;
  transport_unref t.

(** [for (t = transport_list.next; t != &transport_list; t = next)] *)
Fixpoint unregister_tcp (n : nat) (t : ptr) : F unit :=
  if bool_decide (t = transport_list) then skip else
  match n with
  | O => stop_with Diverge
  | S n' =>
      k ← trans t;
      let next := at_next k in
      (if bool_decide (at_type k = kTransportLocal) && (at_adb_port k =? 0) then
         zoom (store_prev (T := atransport) next (at_prev k));;
         k' ← trans t;
         zoom (store_next (T := atransport) (at_prev k') next);;
         k'' ← trans t;
         (if at_kicked k'' =? 0 then set_trans t (set_kicked 1);; kick t else skip);;
         transport_unref_locked t
       else skip);;
      unregister_tcp n' next
  end.

Definition unregister_all_tcp_transports : F unit :=
  lock_transports;;
  first ← zoom (load_next (T := atransport) transport_list);
  n ← global (fun g => size (transports g));
  unregister_tcp n first;;
  unlock_transports.

Definition close_usb_devices : F unit :=
  lock_transports;;
  list_scan (R := unit) (T := atransport) transport_list (fun t =>
    k ← trans t;
    (if at_kicked k =? 0 then set_trans t (set_kicked 1);; kick t else skip);;
    mret None);;
  unlock_transports.

Definition unregister_usb_transport (usb : ptr) : F unit :=
  lock_transports;;
  list_scan (T := atransport) transport_list (fun t =>
    k ← trans t;
    if bool_decide (at_usb k = usb) && (at_connection_state k =? CS_NOPERM)
    then zoom (list_remove (T := atransport) t);; mret (Some tt)
    else mret None);;
  unlock_transports.

(** ** The threads of a transport *)

(** [p->msg] of a SYNC packet. *)
Definition sync_packet (online token : Z) (p : pkt) : pkt :=
  set_body {| msg := {| command := A_SYNC; arg0 := online; arg1 := token; data_length := 0;
                        data_check := 0; magic := Z.lxor A_SYNC 0xffffffff |}; data := data (p_body p) |} p.

(** [for(;;)] of the output thread; [true] when it ended because the remote
    side did, [false] at [goto oops]. *)
Definition pump (t : ptr) : F bool :=
  loop (fun _ : unit =>
    p ← get_apacket;
    r ← read_from_remote t (data (p_body p));
    match r with
    | Some b =>
        k ← trans t;
        w ← pass_packet sizeof_ptr (at_fd k) (set_body b p);
        if negb (w =? 0) then put_apacket p;; mret (inr false) else mret (inl tt)
    | None => put_apacket p;; mret (inr true)
    end) tt.

Definition output_thread (t : ptr) : F unit :=
  p ← get_apacket;
  set_trans t (fun k => set_sync_token (u32 (at_sync_token k + 1)) k);;
  k ← trans t;
  w ← pass_packet sizeof_ptr (at_fd k) (sync_packet 1 (at_sync_token k) p);
  (if negb (w =? 0) then put_apacket p else
   go ← pump t;
   if negb go then skip else
   p' ← get_apacket;
   k' ← trans t;
   w' ← pass_packet sizeof_ptr (at_fd k') (sync_packet 0 0 p');
   if negb (w' =? 0) then put_apacket p' else skip);;
  kick_transport t;;
  transport_unref t.

(** [for(;;)] of the input thread, with its variable [active]. *)
Definition drain_packets (t : ptr) : F unit :=
  loop (fun active : bool =>
    k ← trans t;
    r ← read_packet sizeof_ptr (at_fd k);
    match r with
    | None => mret (inr tt)
    | Some p =>
        let m := msg (p_body p) in
        if command m =? A_SYNC then
          if arg0 m =? 0 then put_apacket p;; mret (inr tt) else
          k' ← trans t;
          put_apacket p;;
          mret (inl (if arg1 m =? at_sync_token k' then true else active))
        else
          (if (active : bool) then _ ← write_to_remote t (p_body p); skip else skip);;
          put_apacket p;;
          mret (inl active)
    end) false.

Definition input_thread (t : ptr) : F unit :=
  drain_packets t;;
  close_all_sockets call t;;
  kick_transport t;;
  transport_unref t.

(** ** Making and accepting connections (transport_local.cpp) *)

(** [getenv("ADBHOST")] and [socket_network_client] on the host. *)
Definition adbhost_client (adb_port : Z) : M world Z :=
  if negb HOST then mret (-1) else
  h ← syscall (Getenv (str "ADBHOST"));
  match h with
  | Ok (Some host) => r ← syscall (Network_client host adb_port); mret (rc_int r)
  | _ => mret (-1)
  end.

Definition local_connect_arbitrary_ports (console_port adb_port : Z) : F Z :=
  fd ← os (adbhost_client adb_port);
  fd ← (if fd <? 0 then r ← os (syscall (Loopback_client adb_port)); mret (rc_int r) else mret fd);
  if fd >=? 0 then
    os (close_on_exec fd);;
    os (disable_tcp_nagle fd);;
    register_socket_transport fd (Some (take 63 (str "emulator-" ++ fmt_d console_port))) adb_port true;;
    mret 0
  else mret (-1).

Definition local_connect (port : Z) : F Z := local_connect_arbitrary_ports (port - 1) port.

Definition DEFAULT_ADB_LOCAL_TRANSPORT_PORT : Z := 5555.

(** [for ( ; count > 0; count--, port += 2 )] *)
Fixpoint connect_emulators (count : nat) (port : Z) : F unit :=
  match count with
  | O => skip
  | S count' => local_connect port;; connect_emulators count' (port + 2)
  end.

Definition client_socket_thread : F unit :=
  if negb HOST then skip else connect_emulators ADB_LOCAL_TRANSPORT_MAX DEFAULT_ADB_LOCAL_TRANSPORT_PORT.

(** The body of [for(;;)], with its variable [serverfd]. *)
Definition serve (port serverfd : Z) : F (Z + unit) :=
  s ← (if serverfd =? -1 then
         r ← os (syscall (Inaddr_any_server port));
         if rc_int r <? 0 then os (adb_sleep_ms 1000);; mret (inl (rc_int r)) else
         os (close_on_exec (rc_int r));; mret (inr (rc_int r))
       else mret (inr serverfd));
  match s with
  | inl fd => mret (inl fd)
  | inr serverfd =>
      r ← os (adb_socket_accept serverfd);
      (if rc_int r >=? 0 then
         os (close_on_exec (rc_int r));;
         os (disable_tcp_nagle (rc_int r));;
         register_socket_transport (rc_int r) (Some (str "host")) port true;; skip
       else skip);;
      mret (inl serverfd)
  end.

Definition server_socket_thread (port : Z) : F unit := loop (serve port) (-1).

(** Which thread is started: the one that connects to emulators on the host;
    on the device the one that accepts, or in an emulator the one that talks to
    its adb service. *)
Definition local_init (port : Z) : F unit :=
  func ← (if HOST then mret "client_socket_thread"%string else
          q ← os (syscall (Property_get (str "ro.kernel.qemu")));
          mret (match q with
                | Ok v => if bool_decide (v = str "1") then "qemu_socket_thread" else "server_socket_thread"
                | Err _ => "server_socket_thread"
                end)%string);
  r ← os (syscall (Thread_create func));
  match r with
  | Err _ => abort "cannot create local socket thread"
  | Ok _ => skip
  end.
End registry.
