(* ===== verification/Smart.v ===== *)
(** * The smart socket (sockets.cpp)

    A client of the adb server talks to a smart socket first: it sends four
    hexadecimal digits and a request of that length.  The bytes may arrive in
    any number of packets; the smart socket gathers them in one packet until
    the request is complete.  The server's own requests ("host:...") are
    answered at once or connected to a service of the server; any other request
    is passed on to the device, and the smart socket hands its peer over to the
    new connection. *)

From S2P Require Import Prelude Effects DList Os Sysdeps Wire Globals Fdevent Transport Sockets Registry.

(** ** Requests *)

(** A request of the server: what follows the prefix, the kind of transport and
    the serial number it is meant for. *)
Definition host_service (service : bytes) : option (bytes * transport_type * option bytes) :=
  if has_prefix (str "host-serial:") service then
    let service := drop 12 service in
    match skip_host_serial service with
    | Some serial_end => Some (drop (S serial_end) service, kTransportAny, Some (take serial_end service))
    | None => Some (service, kTransportAny, None)
    end
  else if has_prefix (str "host-usb:") service then Some (drop 9 service, kTransportUsb, None)
  else if has_prefix (str "host-local:") service then Some (drop 11 service, kTransportLocal, None)
  else if has_prefix (str "host:") service then Some (drop 5 service, kTransportAny, None)
  else None.

(** [p->data], [p->len] bytes of it. *)
Definition packet_data (p : pkt) : F bytes := packet_bytes (set_pptr 0 p).

(** What the gathered packet amounts to. *)
Inductive request :=
| Incomplete
| Bad_size
| Request (len : nat).

(** From "don't bother if we can't decode the length" to the full header. *)
Definition decode (len : Z) (data : bytes) : request :=
  if len <? 4 then Incomplete else
  let n := unhex data 4 in
  if (n <? 1) || (n >? 1024) then Bad_size else
  if n + 4 >? len then Incomplete else Request (Z.to_nat n).

(** [p->data[len + 4] = 0] *)
Definition terminate (len : nat) (d : bytes) : bytes := take (len + 4) d ++ 0 :: drop (len + 5) d.

(** The functions of the server the smart socket calls (ADB_HOST = 1). *)
Record host_functions := {
  handle_host_request_fn : bytes -> transport_type -> option bytes -> Z -> ptr -> F Z;
  create_host_service_socket_fn : bytes -> option bytes -> F ptr;
}.

Section smart.
Context (sizeof_ptr : Z) (call : methods).

(** [None] in the daemon's build. *)
Context (adb_host : option host_functions).

(** The packet the socket holds after [p] was added to it; [None] when it does
    not fit, and [p] has been freed. *)
Definition gather (s : ptr) (p : pkt) : F (option pkt) :=
  k ← sock s;
  match sk_pkts k with
  | [] => set_sock s (set_pkts [p]);; mret (Some p)
  | q :: _ =>
      if u32 (p_len q + p_len p) >? MAX_PAYLOAD then put_apacket p;; mret None else
      old ← packet_data q;
      new ← packet_data p;
      let q' := set_len (u32 (p_len q + p_len p)) (set_data (old ++ new) q) in
      set_sock s (set_pkts [q']);;
      put_apacket p;;
      mret (Some q')
  end.

(** The label [fail]. *)
Definition fail_request (s : ptr) : F Z := call_close call s;; mret (-1).

(** The peer of the smart socket is handed over to [s2]. *)
Definition bind_service (s s2 : ptr) : F Z :=
  k ← sock s;
  kp ← sock (sk_peer k);
  os (adb_write (sk_fd kp) (str "OKAY"));;
  set_sock (sk_peer k) (fun x => set_peer s2 (set_methods local_socket_ready_fn None local_socket_close_fn x));;
  set_sock s2 (set_peer (sk_peer k));;
  set_sock s (set_peer NULL);;
  call_close call s;;
  call_ready call s2;;
  mret 0.

(** From "if there's no remote we fail the connection" to the end. *)
Definition connect_request (s : ptr) (service : bytes) : F Z :=
  k ← sock s;
  offline ← (if bool_decide (sk_transport k = NULL) then mret true else
             t ← get (T := atransport) (sk_transport k);
             mret (at_connection_state t =? CS_OFFLINE));
  kp ← sock (sk_peer k);
  if (offline : bool) then os (sendfailmsg (sk_fd kp) (str "device offline (x)"));; fail_request s else
  set_sock (sk_peer k) (fun x => set_sk_transport (sk_transport k)
    (set_peer NULL (set_methods local_socket_ready_notify_fn None local_socket_close_notify_fn x)));;
  connect_to_remote sizeof_ptr (sk_peer k) service;;
  set_sock s (set_peer NULL);;
  call_close call s;;
  mret 1.

(** A complete request [service] in the packet [p]. *)
Definition serve_request (s : ptr) (p : pkt) (service : bytes) : F Z :=
  match adb_host with
  | Some host =>
      match host_service service with
      | Some (service', ttype, serial) =>
          k ← sock s;
          kp ← sock (sk_peer k);
          r ← handle_host_request_fn host service' ttype serial (sk_fd kp) s;
          if r =? 0 then fail_request s else
          if has_prefix (str "transport") service' then
            set_sock s (set_pkts [set_len 0 p]);; mret 0
          else
          s2 ← create_host_service_socket_fn host service' serial;
          if bool_decide (s2 = NULL) then
            k' ← sock s;
            kp' ← sock (sk_peer k');
            os (sendfailmsg (sk_fd kp') (str "unknown host service"));;
            fail_request s
          else bind_service s s2
      | None => connect_request s service
      end
  | None =>
      k ← sock s;
      if bool_decide (sk_transport k = NULL) then
        '(t, error) ← acquire_one_transport CS_ANY kTransportAny None;
        set_sock s (set_sk_transport t);;
        if bool_decide (t = NULL) then
          kp ← sock (sk_peer k);
          os (sendfailmsg (sk_fd kp) (default (str "unknown failure") error));;
          fail_request s
        else connect_request s service
      else connect_request s service
  end.

Definition smart_socket_enqueue (s : ptr) (p : pkt) : F Z :=
  r ← gather s p;
  match r with
  | None => fail_request s
  | Some p =>
      d ← packet_data p;
      match decode (p_len p) d with
      | Incomplete => mret 0
      | Bad_size => fail_request s
      | Request len =>
          let p := set_data (terminate len (data (p_body p))) p in
          set_sock s (set_pkts [p]);;
          serve_request s p (cstr (drop 4 (data (p_body p))))
      end
  end.

Definition smart_socket_ready (s : ptr) : F unit := skip.

Definition smart_socket_close (s : ptr) : F unit :=
  k ← sock s;
  (match sk_pkts k with p :: _ => put_apacket p | [] => skip end);;
  (if bool_decide (sk_peer k = NULL) then skip else
   set_sock (sk_peer k) (set_peer NULL);;
   call_close call (sk_peer k);;
   set_sock s (set_peer NULL));;
  free_asocket s.

Definition create_smart_socket : F ptr :=
  s ← new_asocket 128;
  if bool_decide (s = NULL) then abort "cannot allocate socket" else
  set_sock s (fun k => init_socket (sk_fd k) (sk_id k) smart_socket_enqueue_fn smart_socket_ready_fn None
                         smart_socket_close_fn (sk_transport k) k);;
  mret s.

Definition connect_to_smartsocket (s : ptr) : F unit :=
  ss ← create_smart_socket;
  set_sock s (set_peer ss);;
  set_sock ss (set_peer s);;
  call_ready call s.
End smart.
