(* ===== verification/Host.v ===== *)
(** * The server's own requests (adb.cpp, services.cpp, transport.cpp)

    What the host's adb server does for its clients besides carrying streams:
    it tracks and lists devices, forwards local ports to devices (listeners),
    connects to devices over the network and waits for them.  The model is the
    host's build (ADB_HOST = 1, HOST = 1). *)

From S2P Require Import Prelude Effects DList Os Sysdeps Wire Globals Fdevent Transport FileSync Sockets Registry Smart.

(** ** Numbers (stdlib.h, stdio.h) *)

(** An optional sign. *)
Definition sign (s : bytes) : bool * bytes :=
  match s with
  | c :: s' => if c =? 45 then (true, s') else if c =? 43 then (false, s') else (false, s)
  | [] => (false, [])
  end.

Definition with_sign (neg : bool) (v : Z) : Z := if neg then - v else v.

Definition INT_MAX : Z := 2147483647.

(** [atoi(s)]; undefined when the value is not an [int]. *)
Definition atoi (s : bytes) : F Z :=
  let '(neg, ds) := sign (skip_spaces s) in
  let v := with_sign neg (scan_digits 10 ds 0) in
  if (- INT_MAX - 1 <=? v) && (v <=? INT_MAX) then mret v else undef "atoi of a number that is not an int".

(** The result of [sscanf(s, "%d", &n)] and what it stored in [n]. *)
Inductive scanned := Scanned (n : Z) | No_match | End_of_input.

Definition sscanf_d (s : bytes) : scanned :=
  match skip_spaces s with
  | [] => End_of_input
  | s1 =>
      let '(neg, ds) := sign s1 in
      if is_digit_of 10 ds then Scanned (s32 (with_sign neg (scan_digits 10 ds 0))) else No_match
  end.

(** [(int) strtol(s, NULL, 0)] with a [long] of [bits] bits. *)
Definition strtol_int (bits : Z) (s : bytes) : Z :=
  let '(neg, s2) := sign (skip_spaces s) in
  let '(base, ds) := detect_base s2 in
  let v := with_sign neg (scan_digits base ds 0) in
  s32 (Z.max (- 2 ^ (bits - 1)) (Z.min (2 ^ (bits - 1) - 1) v)).

(** [snprintf(buffer, size, "%s", text)]: the string that is stored. *)
Definition snprintf (size : nat) (text : bytes) : bytes := take (size - 1) text.

(** ** Messages to a client (adb.cpp) *)

Definition send_msg_with_okay (fd : Z) (msg : bytes) : M world unit :=
  let msglen := Z.min (Z.of_nat (length msg)) 0xffff in
  writex fd (take 8 (str "OKAY" ++ fmt_04x msglen));;
  writex fd (take (Z.to_nat msglen) msg);;
  skip.

Definition connection_state_name (t : option atransport) : bytes :=
  match t with
  | None => str "unknown"
  | Some t =>
      let s := at_connection_state t in
      if s =? CS_BOOTLOADER then str "bootloader" else
      if s =? CS_DEVICE then str "device" else
      if s =? CS_RECOVERY then str "recovery" else
      if s =? CS_SIDELOAD then str "sideload" else
      if s =? CS_OFFLINE then str "offline" else
      if s =? CS_UNAUTHORIZED then str "unauthorized" else str "unknown"
  end.

Section host.
Context (sizeof_ptr : Z) (call : methods) (usb_close usb_kick : ptr -> F unit) (fmt_p : ptr -> bytes).

(** [gListenAll > 0]; the width of [long]. *)
Context (listen_all : bool) (long_bits : Z).

(** [usb_cleanup()] of the USB driver. *)
Context (usb_cleanup : F unit).

(** ** Device trackers (transport.cpp) *)

Abbreviation tracker := (get (T := device_tracker)).

(** [*pnode = x], where [pnode] is [&device_tracker_list] or the [next] of a
    tracker. *)
Definition set_tracker_link (pnode : option ptr) (x : ptr) : F unit :=
  match pnode with
  | None => update (fun g => set_hosts (set_device_trackers (device_trackers (hosts g)) x (hosts g)) g)
  | Some q => set (T := device_tracker) q (fun d => {| dt_update_needed := dt_update_needed d; dt_next := x |})
  end.

(** [while (node)] *)
Fixpoint remove_tracker (n : nat) (pnode : option ptr) (node tr : ptr) : F unit :=
  if bool_decide (node = NULL) then skip else
  match n with
  | O => stop_with Diverge
  | S n' =>
      d ← tracker node;
      if bool_decide (node = tr) then set_tracker_link pnode (dt_next d)
      else remove_tracker n' (Some node) (dt_next d) tr
  end.

Definition device_tracker_remove (tr : ptr) : F unit :=
  node ← global (fun g => device_tracker_list (hosts g));
  n ← global (fun g => size (device_trackers (hosts g)));
  lock_transports;;
  remove_tracker n None node tr;;
  unlock_transports.

Definition device_tracker_close (s : ptr) : F unit :=
  k ← sock s;
  (if bool_decide (sk_peer k = NULL) then skip else
   set_sock (sk_peer k) (set_peer NULL);;
   call_close call (sk_peer k));;
  device_tracker_remove s;;
  free_asocket s.

Definition device_tracker_enqueue (s : ptr) (p : pkt) : F Z :=
  put_apacket p;;
  device_tracker_close s;;
  mret (-1).

Definition device_tracker_send (tr : ptr) (buffer : bytes) : F Z :=
  p ← get_apacket;
  k ← sock tr;
  call_enqueue call (sk_peer k) (set_len (Z.of_nat (length buffer)) (set_data buffer p)).

Definition device_tracker_ready (s : ptr) : F unit :=
  d ← tracker s;
  if dt_update_needed d >? 0 then
    set (T := device_tracker) s (fun d => {| dt_update_needed := 0; dt_next := dt_next d |});;
    buffer ← list_transports_msg 1024;
    device_tracker_send s buffer;;
    skip
  else skip.

Definition create_device_tracker : F ptr :=
  s ← new_asocket 144;
  if bool_decide (s = NULL) then abort "cannot allocate device tracker" else
  set_sock s (fun k => init_socket (sk_fd k) (sk_id k) device_tracker_enqueue_fn device_tracker_ready_fn
                         (sk_shutdown k) device_tracker_close_fn (sk_transport k) k);;
  first ← global (fun g => device_tracker_list (hosts g));
  alloc s {| dt_update_needed := 1; dt_next := first |};;
  set_tracker_link None s;;
  mret s.

(** [while (tracker != NULL)] *)
Fixpoint send_trackers (n : nat) (tr : ptr) (buffer : bytes) : F unit :=
  if bool_decide (tr = NULL) then skip else
  match n with
  | O => stop_with Diverge
  | S n' =>
      d ← tracker tr;
      device_tracker_send tr buffer;;
      send_trackers n' (dt_next d) buffer
  end.

Definition update_transports : F unit :=
  buffer ← list_transports_msg 1024;
  first ← global (fun g => device_tracker_list (hosts g));
  n ← global (fun g => size (device_trackers (hosts g)));
  send_trackers n first buffer.

(** ** Listeners (adb.cpp) *)

Abbreviation listener := (get (T := alistener)).

Definition CHUNK_SIZE : Z := 64 * 1024.

Definition ss_listener_event_func (fd ev : Z) (l : ptr) : F unit :=
  if negb (has ev FDE_READ) then skip else
  r ← os (adb_socket_accept fd);
  if rc_int r <? 0 then skip else
  os (adb_socket_setbufsize (rc_int r) CHUNK_SIZE);;
  s ← create_local_socket sizeof_ptr (rc_int r);
  if bool_decide (s <> NULL) then connect_to_smartsocket call s else
  os (adb_close (rc_int r));; skip.

Definition listener_event_func (fd ev : Z) (l : ptr) : F unit :=
  if negb (has ev FDE_READ) then skip else
  r ← os (adb_socket_accept fd);
  if rc_int r <? 0 then skip else
  s ← create_local_socket sizeof_ptr (rc_int r);
  if bool_decide (s <> NULL) then
    k ← listener l;
    set_sock s (set_sk_transport (al_transport k));;
    connect_to_remote sizeof_ptr s (al_connect_to k)
  else os (adb_close (rc_int r));; skip.

Definition free_listener (l : ptr) : F unit :=
  k ← listener l;
  (if bool_decide (al_next k = NULL) then skip else
   zoom (list_remove (T := alistener) l);;
   zoom (store_prev (T := alistener) l l);;
   zoom (store_next (T := alistener) l l));;
  fdevent_remove (al_fde k);;
  (if bool_decide (al_transport k = NULL) then skip else remove_transport_disconnect (al_transport k) l);;
  dealloc (T := alistener) l;;
  dealloc (T := adisconnect) l;;
  free_fde (al_fde k).

Definition listener_disconnect (l t : ptr) : F unit := free_listener l.

(** ANDROID_SOCKET_NAMESPACE_ABSTRACT and ANDROID_SOCKET_NAMESPACE_FILESYSTEM *)
Definition NAMESPACE_ABSTRACT : Z := 0.
Definition NAMESPACE_FILESYSTEM : Z := 2.

Definition local_name_to_fd (name : bytes) : F Z :=
  if has_prefix (str "tcp:") name then
    port ← atoi (drop 4 name);
    r ← os (if listen_all then syscall (Inaddr_any_server port) else syscall (Loopback_server port));
    mret (rc_int r)
  else if has_prefix (str "local:") name then
    r ← os (syscall (Local_server (drop 6 name) NAMESPACE_ABSTRACT)); mret (rc_int r)
  else if has_prefix (str "localabstract:") name then
    r ← os (syscall (Local_server (drop 14 name) NAMESPACE_ABSTRACT)); mret (rc_int r)
  else if has_prefix (str "localfilesystem:") name then
    r ← os (syscall (Local_server (drop 16 name) NAMESPACE_FILESYSTEM)); mret (rc_int r)
  else mret (-1).

(** The special listeners like those for *smartsocket*. *)
Definition is_special (k : alistener) : bool :=
  match al_connect_to k with c :: _ => c =? 42 | [] => false end.

(** The line of a listener; its transport has to have a serial number. *)
Definition format_listener (k : alistener) : F bytes :=
  t ← get (T := atransport) (al_transport k);
  match at_serial t with
  | None => undef "strlen of NULL"
  | Some serial => mret (serial ++ [32] ++ al_local_name k ++ [32] ++ al_connect_to k ++ [10])
  end.

(** [format_listeners(buf, buflen)]: with no buffer, the size of the text; with
    one, also the text stored in it. *)
Fixpoint format_lines (n : nat) (l : ptr) (buflen : option Z) (result : Z) (text : bytes) : F (Z * bytes) :=
  if bool_decide (l = listener_list) then mret (result, text) else
  match n with
  | O => stop_with Diverge
  | S n' =>
      k ← listener l;
      if is_special k then format_lines n' (al_next k) buflen result text else
      line ← format_listener k;
      let len := Z.of_nat (length line) in
      match buflen with
      | None => format_lines n' (al_next k) None (result + len) text
      | Some b =>
          if b <? len then undef "snprintf after the buffer" else
          let text' := text ++ take (Z.to_nat (b - 1)) line in
          if b - len <=? 0 then mret (result + len, text')
          else format_lines n' (al_next k) (Some (b - len)) (result + len) text'
      end
  end.

Definition format_listeners (buflen : option Z) : F (Z * bytes) :=
  first ← zoom (load_next (T := alistener) listener_list);
  n ← global (fun g => size (listeners (hosts g)));
  format_lines n first buflen 0 [].

Definition remove_listener (local_name : bytes) (transport : ptr) : F Z :=
  r ← list_scan (T := alistener) listener_list (fun l =>
        k ← listener l;
        if bool_decide (local_name = al_local_name k)
        then listener_disconnect l (al_transport k);; mret (Some tt) else mret None);
  mret (match r with Some _ => 0 | None => -1 end).

(** [for (l = listener_list.next; l != &listener_list; l = l_next)] *)
Fixpoint remove_listeners (n : nat) (l : ptr) : F unit :=
  if bool_decide (l = listener_list) then skip else
  match n with
  | O => stop_with Diverge
  | S n' =>
      k ← listener l;
      let l_next := al_next k in
      (if is_special k then skip else listener_disconnect l (al_transport k));;
      remove_listeners n' l_next
  end.

Definition remove_all_listeners : F unit :=
  first ← zoom (load_next (T := alistener) listener_list);
  n ← global (fun g => size (listeners (hosts g)));
  remove_listeners n first.

Definition INSTALL_STATUS_OK : Z := 0.
Definition INSTALL_STATUS_INTERNAL_ERROR : Z := -1.
Definition INSTALL_STATUS_CANNOT_BIND : Z := -2.
Definition INSTALL_STATUS_CANNOT_REBIND : Z := -3.

(** [strdup(s)]: whether there was memory for it. *)
Definition strdup (s : bytes) : F bool :=
  r ← os (syscall (Malloc (Z.of_nat (length s) + 1)));
  mret (match r with Ok _ => true | Err _ => false end).

(** A listener of the name exists: it is given a new target. *)
Definition rebind (l : ptr) (connect_to : bytes) (transport : ptr) (no_rebind : bool) : F Z :=
  k ← listener l;
  if is_special k then mret INSTALL_STATUS_INTERNAL_ERROR else
  if no_rebind then mret INSTALL_STATUS_CANNOT_REBIND else
  cto ← strdup connect_to;
  if negb cto then mret INSTALL_STATUS_INTERNAL_ERROR else
  set (T := alistener) l (set_connect_to connect_to);;
  (if bool_decide (al_transport k = transport) then skip else
   remove_transport_disconnect (al_transport k) l;;
   set (T := alistener) l (set_al_transport transport);;
   add_transport_disconnect transport l);;
  mret INSTALL_STATUS_OK.

(** [calloc] of the listener and the copies of its names; NULL at [nomem]. *)
Definition new_alistener (local_name connect_to : bytes) : F ptr :=
  l ← calloc 96;
  if bool_decide (l = NULL) then abort "cannot allocate listener" else
  a ← strdup local_name;
  if negb a then abort "cannot allocate listener" else
  b ← strdup connect_to;
  if negb b then abort "cannot allocate listener" else
  fde ← embed_fde;
  alloc l {| ad_func := listener_disconnect_fn; ad_opaque := NULL; ad_next := NULL; ad_prev := NULL |};;
  alloc l {| al_next := NULL; al_prev := NULL; al_fde := fde; al_fd := 0; al_local_name := local_name;
             al_connect_to := connect_to; al_transport := NULL |};;
  mret l.

Definition ss_listener_event_id : N := 8%N.
Definition listener_event_id : N := 9%N.

Definition add_listener (local_name connect_to : bytes) (transport : ptr) : F Z :=
  l ← new_alistener local_name connect_to;
  fd ← local_name_to_fd local_name;
  k ← listener l;
  if fd <? 0 then
    dealloc (T := alistener) l;; dealloc (T := adisconnect) l;; free_fde (al_fde k);;
    mret INSTALL_STATUS_CANNOT_BIND
  else
  set (T := alistener) l (fun k =>
    {| al_next := al_next k; al_prev := al_prev k; al_fde := al_fde k; al_fd := fd;
       al_local_name := al_local_name k; al_connect_to := al_connect_to k; al_transport := al_transport k |});;
  os (close_on_exec fd);;
  fdevent_install sizeof_ptr (al_fde k) fd
    (client_func (if bool_decide (connect_to = str "*smartsocket*") then ss_listener_event_id
                  else listener_event_id)) l;;
  fdevent_set (al_fde k) FDE_READ;;
  zoom (link_before' (T := alistener) l listener_list);;
  set (T := alistener) l (set_al_transport transport);;
  (if bool_decide (transport = NULL) then skip else
   set (T := adisconnect) l (fun d => {| ad_func := listener_disconnect_fn; ad_opaque := l;
                                         ad_next := ad_next d; ad_prev := ad_prev d |});;
   add_transport_disconnect transport l);;
  mret INSTALL_STATUS_OK.

Definition install_listener (local_name connect_to : bytes) (transport : ptr) (no_rebind : bool) : F Z :=
  r ← list_scan (T := alistener) listener_list (fun l =>
        k ← listener l;
        if bool_decide (local_name = al_local_name k)
        then r ← rebind l connect_to transport no_rebind; mret (Some r) else mret None);
  match r with
  | Some r => mret r
  | None => add_listener local_name connect_to transport
  end.

(** ** Requests (adb.cpp) *)

(** What is left after the prefix, if the request has it. *)
Definition strip (prefix service : bytes) : option bytes :=
  if has_prefix prefix service then Some (drop (length prefix) service) else None.

Definition ADB_SERVER_VERSION : Z := 31.

(** "transport:<serial>", "transport-usb", "transport-local", "transport-any" *)
Definition request_transport (service : bytes) (serial : option bytes) (reply_fd : Z) (s : ptr) : F Z :=
  let '(type, serial) :=
    if has_prefix (str "transport-usb") service then (kTransportUsb, serial) else
    if has_prefix (str "transport-local") service then (kTransportLocal, serial) else
    if has_prefix (str "transport-any") service then (kTransportAny, serial) else
    match strip (str "transport:") service with
    | Some name => (kTransportAny, Some name)
    | None => (kTransportAny, serial)
    end in
  '(t, error) ← acquire_one_transport CS_ANY type serial;
  (if bool_decide (t <> NULL) then
     set_sock s (set_sk_transport t);;
     os (adb_write reply_fd (str "OKAY"));; skip
   else os (sendfailmsg reply_fd (default (str "unknown failure") error));; skip);;
  mret 1.

Definition request_devices (use_long : bool) (reply_fd : Z) : F Z :=
  text ← list_transports 4096 use_long;
  os (send_msg_with_okay reply_fd (cstr text));;
  mret 0.

Definition request_disconnect (serial : bytes) (reply_fd : Z) : F Z :=
  buffer ← (match serial with
            | [] => unregister_all_tcp_transports sizeof_ptr usb_close usb_kick true;; mret []
            | _ =>
                let serial := if bool_decide (58 ∈ serial) then serial
                              else snprintf 99 (serial ++ str ":5555") in
                t ← find_transport serial;
                if bool_decide (t <> NULL) then
                  unregister_transport sizeof_ptr usb_close usb_kick true t;; mret []
                else mret (snprintf 4096 (str "No such device " ++ serial))
            end);
  os (send_msg_with_okay reply_fd buffer);;
  mret 0.

(** A name of the transport the request is for: "unknown" without one. *)
Definition request_name (name : atransport -> option bytes) (ttype : transport_type) (serial : option bytes)
    (reply_fd : Z) : F Z :=
  '(t, _) ← acquire_one_transport CS_ANY ttype serial;
  out ← (if bool_decide (t = NULL) then mret None else k ← get (T := atransport) t; mret (name k));
  os (send_msg_with_okay reply_fd (default (str "unknown") out));;
  mret 0.

Definition request_list_forward (reply_fd : Z) : F Z :=
  '(buffer_size, _) ← format_listeners None;
  '(_, buffer) ← format_listeners (Some (buffer_size + 1));
  os (send_msg_with_okay reply_fd buffer);;
  mret 0.

(** The arguments of "forward:" and "killforward:": where the listener is, what
    it is connected to, and [no_rebind]; [None] for a malformed one. *)
Definition forward_spec (createForward : bool) (local : bytes) : option (bytes * bytes * bool) :=
  let '(local, no_rebind) :=
    match strip (str "norebind:") local with
    | Some local' => if createForward then (local', true) else (local, false)
    | None => (local, false)
    end in
  if createForward then
    match strchr 59 local with
    | None => None
    | Some i =>
        let remote := drop (S i) local in
        let local := take i local in
        match local, remote with
        | [], _ | _, [] => None
        | _, c :: _ => if c =? 42 then None else Some (local, remote, no_rebind)
        end
    end
  else match local with [] => None | _ => Some (local, [], no_rebind) end.

Definition forward_message (createForward : bool) (r : Z) : bytes :=
  if negb createForward then str "cannot remove listener" else
  if r =? INSTALL_STATUS_CANNOT_BIND then str "cannot bind to socket" else
  if r =? INSTALL_STATUS_CANNOT_REBIND then str "cannot rebind existing socket" else str "internal error".

Definition request_forward (createForward : bool) (local : bytes) (ttype : transport_type)
    (serial : option bytes) (reply_fd : Z) : F Z :=
  match forward_spec createForward local with
  | None => os (sendfailmsg reply_fd (str "malformed forward spec"));; mret 0
  | Some (local, remote, no_rebind) =>
      '(t, err) ← acquire_one_transport CS_ANY ttype serial;
      if bool_decide (t = NULL) then os (sendfailmsg reply_fd (default [] err));; mret 0 else
      r ← (if createForward then install_listener local remote t no_rebind else remove_listener local t);
      if r =? 0 then os (writex reply_fd (str "OKAYOKAY"));; mret 0 else
      os (sendfailmsg reply_fd (forward_message createForward r));; mret 0
  end.

(** The requests of the form [devices] and [devices-l]. *)
Definition devices_request (service : bytes) : option bool :=
  match strip (str "devices") service with
  | Some [] => Some false
  | Some rest => if bool_decide (rest = str "-l") then Some true else None
  | None => None
  end.

Definition handle_host_request (service : bytes) (ttype : transport_type) (serial : option bytes)
    (reply_fd : Z) (s : ptr) : F Z :=
  if bool_decide (service = str "kill") then
    os (adb_write reply_fd (str "OKAY"));; usb_cleanup;; abort "exit(0)"
  else if has_prefix (str "transport") service then request_transport service serial reply_fd s else
  match devices_request service with
  | Some use_long => request_devices use_long reply_fd
  | None =>
  match strip (str "disconnect:") service with
  | Some serial => request_disconnect serial reply_fd
  | None =>
  if bool_decide (service = str "version") then
    os (send_msg_with_okay reply_fd (snprintf 12 (fmt_04x ADB_SERVER_VERSION)));; mret 0 else
  if has_prefix (str "get-serialno") service then request_name at_serial ttype serial reply_fd else
  if has_prefix (str "get-devpath") service then request_name at_devpath ttype serial reply_fd else
  match strip (str "emulator:") service with
  | Some port => n ← atoi port; local_connect sizeof_ptr fmt_p true n;; mret 0
  | None =>
  if bool_decide (service = str "list-forward") then request_list_forward reply_fd else
  if bool_decide (service = str "killforward-all") then
    remove_all_listeners;; os (adb_write reply_fd (str "OKAYOKAY"));; mret 0 else
  match strip (str "forward:") service with
  | Some local => request_forward true local ttype serial reply_fd
  | None =>
  match strip (str "killforward:") service with
  | Some local => request_forward false local ttype serial reply_fd
  | None =>
  if has_prefix (str "get-state") service then
    '(t, _) ← acquire_one_transport CS_ANY ttype serial;
    k ← (if bool_decide (t = NULL) then mret None else k ← get (T := atransport) t; mret (Some k));
    os (send_msg_with_okay reply_fd (connection_state_name k));; mret 0
  else mret (-1)
  end end end end end.

(** ** Services of the server (services.cpp) *)

Definition wait_for_state (state : Z) (transport : transport_type) (serial : option bytes) (fd : Z) : F unit :=
  '(t, err) ← acquire_one_transport state transport serial;
  os (if bool_decide (t <> NULL) then writex fd (str "OKAY")
      else sendfailmsg fd (default (str "unknown error") err));;
  os (adb_close fd);;
  skip.

(** [connect_device(host, buffer, buffer_size)]: the text in the buffer. *)
Definition connect_device (host : bytes) : F bytes :=
  target ← (match strchr 58 host with
            | Some i =>
                if Z.of_nat i >=? 100 then mret (inl (snprintf 4096 (str "bad host name " ++ host))) else
                match sscanf_d (drop (S i) host) with
                | Scanned port => mret (inr (take i host, port))
                | No_match => mret (inl (snprintf 4096 (str "bad port number " ++ drop i host)))
                | End_of_input => undef "indeterminate port"
                end
            | None =>
                if Z.of_nat (length host) >=? 99 then undef "hostbuf is not terminated"
                else mret (inr (host, DEFAULT_ADB_LOCAL_TRANSPORT_PORT))
            end);
  match target with
  | inl text => mret text
  | inr (hostbuf, port) =>
      let serial := snprintf 100 (hostbuf ++ [58] ++ fmt_d port) in
      r ← os (syscall (Network_client_timeout hostbuf port 10));
      let fd := rc_int r in
      if fd <? 0 then mret (snprintf 4096 (str "unable to connect to " ++ host ++ [58] ++ fmt_d port)) else
      os (close_on_exec fd);;
      os (disable_tcp_nagle fd);;
      ret ← register_socket_transport sizeof_ptr fmt_p true fd (Some serial) port false;
      if ret <? 0 then os (adb_close fd);; mret (snprintf 4096 (str "already connected to " ++ serial))
      else mret (snprintf 4096 (str "connected to " ++ serial))
  end.

Definition connect_emulator (port_spec : bytes) : F bytes :=
  match strchr 44 port_spec with
  | None => mret (snprintf 4096 (str "unable to parse '" ++ port_spec ++ str "' as <console port>,<adb port>"))
  | Some i =>
      let console_port := strtol_int long_bits (take i port_spec) in
      let adb_port := strtol_int long_bits (drop (S i) port_spec) in
      if negb ((console_port >? 0) && (adb_port >? 0)) then
        mret (snprintf 4096 (str "Invalid port numbers: Expected positive numbers, got '" ++ port_spec ++ str "'"))
      else
      known_emulator ← find_emulator_transport_by_adb_port adb_port;
      if bool_decide (known_emulator <> NULL) then
        mret (snprintf 4096 (str "Emulator on port " ++ fmt_d adb_port ++ str " already registered.")) else
      candidate_slot ← get_available_local_transport_index;
      if candidate_slot <? 0 then mret (str "Cannot accept more emulators.") else
      r ← local_connect_arbitrary_ports sizeof_ptr fmt_p true console_port adb_port;
      mret (snprintf 4096 ((if r =? 0 then str "Connected to emulator on ports "
                            else str "Could not connect to emulator on ports ")
                           ++ fmt_d console_port ++ [44] ++ fmt_d adb_port))
  end.

Definition connect_service (host : bytes) (fd : Z) : F unit :=
  buf ← (match strip (str "emu:") host with
         | Some spec => connect_emulator spec
         | None => connect_device host
         end);
  os (writex fd (snprintf 4096 (fmt_04x (Z.of_nat (length buf)) ++ buf)));;
  os (adb_close fd);;
  skip.

(** [create_service_thread(func, cookie)]: the thread is the call; what it does
    is one of the functions above, run on the other end of the pair. *)
Definition create_service_thread (func : string) : M world Z :=
  s ← adb_socketpair;
  match s with
  | Err _ => mret (-1)
  | Ok (s0, s1) =>
      m ← syscall (Malloc 24);
      match m with
      | Err _ => abort "cannot allocate stinfo"
      | Ok _ =>
          t ← syscall (Thread_create func);
          match t with
          | Err _ => adb_close s0;; adb_close s1;; mret (-1)
          | Ok _ => mret s0
          end
      end
  end.

(** The state and the kind of transport a client waits for. *)
Definition wait_for (name : bytes) : option (Z * transport_type) :=
  if has_prefix (str "local") name then Some (CS_DEVICE, kTransportLocal) else
  if has_prefix (str "usb") name then Some (CS_DEVICE, kTransportUsb) else
  if has_prefix (str "any") name then Some (CS_DEVICE, kTransportAny) else None.

Definition host_service_to_socket (name : bytes) (serial : option bytes) : F ptr :=
  if bool_decide (name = str "track-devices") then create_device_tracker else
  match strip (str "wait-for-") name with
  | Some what =>
      match wait_for what with
      | None => mret NULL
      | Some _ =>
          fd ← os (create_service_thread "wait_for_state");
          create_local_socket sizeof_ptr fd
      end
  | None =>
      if has_prefix (str "connect:") name then
        fd ← os (create_service_thread "connect_service");
        create_local_socket sizeof_ptr fd
      else mret NULL
  end.

Definition create_host_service_socket (name : bytes) (serial : option bytes) : F ptr :=
  host_service_to_socket name serial.

Definition host_build : host_functions := {|
  handle_host_request_fn := handle_host_request;
  create_host_service_socket_fn := create_host_service_socket;
|}.
End host.

(** ** The sockets of the host *)

Section host_calls.
Context (sizeof_ptr : Z) (usb_close usb_kick : ptr -> F unit) (fmt_p : ptr -> bytes) (listen_all : bool)
        (usb_cleanup : F unit).

(** The JDWP sockets and the authentication callback are the device's. *)
Definition not_on_host {A} : F A := undef "function of the device's build".

Fixpoint host_dispatch (depth : nat) : methods :=
  match depth with
  | O => {| call_enqueue _ _ := stop_with Diverge;
            call_ready _ := stop_with Diverge;
            call_shutdown _ := stop_with Diverge;
            call_close _ := stop_with Diverge;
            call_disconnect _ _ _ := stop_with Diverge |}
  | S depth' =>
      let call := host_dispatch depth' in
      let host := host_build sizeof_ptr usb_close usb_kick fmt_p listen_all usb_cleanup in
      {| call_enqueue s p :=
           k ← sock s;
           match sk_enqueue k with
           | local_socket_enqueue_fn => local_socket_enqueue call s p
           | remote_socket_enqueue_fn => remote_socket_enqueue sizeof_ptr s p
           | smart_socket_enqueue_fn => smart_socket_enqueue sizeof_ptr call (Some host) s p
           | device_tracker_enqueue_fn => device_tracker_enqueue call s p
           | _ => not_on_host
           end;
         call_ready s :=
           k ← sock s;
           match sk_ready k with
           | local_socket_ready_fn => local_socket_ready s
           | remote_socket_ready_fn => remote_socket_ready sizeof_ptr s
           | local_socket_ready_notify_fn => local_socket_ready_notify call s
           | smart_socket_ready_fn => smart_socket_ready s
           | device_tracker_ready_fn => device_tracker_ready call s
           | _ => not_on_host
           end;
         call_shutdown s :=
           k ← sock s;
           match sk_shutdown k with
           | Some remote_socket_shutdown_fn => remote_socket_shutdown sizeof_ptr s
           | None => undef "call through a NULL pointer"
           end;
         call_close s :=
           k ← sock s;
           match sk_close k with
           | local_socket_close_fn => local_socket_close call s
           | remote_socket_close_fn => remote_socket_close call s
           | local_socket_close_notify_fn => local_socket_close_notify call s
           | smart_socket_close_fn => smart_socket_close call s
           | device_tracker_close_fn => device_tracker_close call s
           | _ => not_on_host
           end;
         call_disconnect f opaque t :=
           match f with
           | remote_socket_disconnect_fn => remote_socket_disconnect call opaque t
           | listener_disconnect_fn => listener_disconnect opaque t
           | usb_disconnected_fn => not_on_host
           end |}
  end.
End host_calls.
