(* ===== verification/Jdwp.v ===== *)
(** * jdwp_service.c: debuggable processes and their trackers

    Every VM process announces its pid on a Unix socket and keeps the
    connection open; adbd keeps the list of announced pids, reports it to the
    "jdwp" and "track-jdwp" services, and passes one end of a socket pair to a
    process a debugger wants to reach.  The functions are those of the source,
    with the same lists, buffers and early returns. *)

From S2P Require Import Prelude Effects DList Os Sysdeps Wire Globals Fdevent Transport Sockets.

Abbreviation proc := (get (T := JdwpProcess)).

Abbreviation set_proc := (set (T := JdwpProcess)).

(** ** The list of pids as text *)

(** One step of the loop of [jdwp_process_list]: [room] bytes are left from [p]
    to [end]; [Some] of the text of the entry when it fits with its NUL. *)
Definition list_entry (pid room : Z) : option bytes :=
  let line := fmt_d pid ++ [10] in
  if Z.of_nat (length line) >=? room then None else Some line.

(** [jdwp_process_list(buffer, bufferlen)]: the bytes from [buffer] to [p]. *)
Definition jdwp_process_list (bufferlen : Z) : F bytes :=
  let fix walk (n : nat) (cur : ptr) (acc : bytes) : F bytes :=
    if bool_decide (cur = _jdwp_list) then mret acc else
    match n with
    | O => stop_with Diverge
    | S n' =>
        k ← proc cur;
        if jp_pid k <? 0 then walk n' (jp_next k) acc else
        match list_entry (jp_pid k) (bufferlen - Z.of_nat (length acc)) with
        | None => mret acc
        | Some line => walk n' (jp_next k) (acc ++ line)
        end
    end in
  h ← proc _jdwp_list;
  n ← global (fun g => size (procs g));
  acc ← walk n (jp_next h) [];
  (* [p[0] = 0] *)
  if Z.of_nat (length acc) <? bufferlen then mret acc else undef "write after the buffer".

(** The length in four hexadecimal digits, then the list. *)
Definition jdwp_process_list_msg (bufferlen : Z) : F bytes :=
  l ← jdwp_process_list (bufferlen - 4);
  mret (take 4 (fmt_04x (Z.of_nat (length l))) ++ l).

(** [sscanf(temp, "%04x", &pid)] on a string of four characters: white space,
    an optional sign and [0x], then hexadecimal digits; [Some] of the value
    stored for a result of 1. *)
Definition is_space (c : Z) : bool := (c =? 32) || ((9 <=? c) && (c <=? 13)).

Fixpoint skip_spaces (s : bytes) : bytes :=
  match s with
  | c :: s' => if is_space c then skip_spaces s' else s
  | [] => []
  end.

Fixpoint scan_hex (n : Z) (s : bytes) : Z :=
  match s with
  | c :: s' => match hex_digit c with Some d => scan_hex (16 * n + d) s' | None => n end
  | [] => n
  end.

Definition starts_hex (s : bytes) : bool :=
  match s with c :: _ => bool_decide (is_Some (hex_digit c)) | [] => false end.

Definition drop_0x (s : bytes) : bytes :=
  match s with
  | z :: x :: s' => if (z =? 48) && ((x =? 120) || (x =? 88)) then s' else s
  | _ => s
  end.

Definition sscanf_x (s : bytes) : option Z :=
  let item := take 4 (skip_spaces (cstr s)) in
  let '(neg, digits) :=
    match item with
    | c :: d => if c =? 45 then (true, d) else if c =? 43 then (false, d) else (false, item)
    | [] => (false, [])
    end in
  let digits := drop_0x digits in
  if starts_hex digits then
    let n := scan_hex 0 digits in Some (s32 (if (neg : bool) then - n else n))
  else None.

Section jdwp.
Context (sizeof_ptr : Z) (call : methods).

(** ** Trackers and the pid service *)

(** [jdwp_process_list_updated]: the new list goes to every tracker's peer. *)
Definition jdwp_process_list_updated : F unit :=
  buffer ← jdwp_process_list_msg 1024;
  list_scan (R := unit) (T := JdwpTracker) _jdwp_trackers_list (fun t =>
    p ← get_apacket;
    k ← sock t;
    call_enqueue call (sk_peer k) (set_len (Z.of_nat (length buffer)) (set_data buffer p));;
    mret None);;
  skip.

Definition jdwp_socket_close (s : ptr) : F unit :=
  k ← sock s;
  remove_socket s;;
  (if bool_decide (sk_peer k = NULL) then skip else
    set_sock (sk_peer k) (set_peer NULL);;
    call_close call (sk_peer k));;
  free_asocket s.

Definition jdwp_socket_enqueue (s : ptr) (p : pkt) : F Z :=
  put_apacket p;;
  k ← sock s;
  call_close call (sk_peer k);;
  mret (-1).

Definition get_pass (s : ptr) : F Z := must "dangling pointer" (fun st => jdwp_passes (rest st) !! s).

Definition jdwp_socket_ready (s : ptr) : F unit :=
  pass ← get_pass s;
  k ← sock s;
  if pass =? 0 then
    p ← get_apacket;
    l ← jdwp_process_list MAX_PAYLOAD;
    call_enqueue call (sk_peer k) (set_len (Z.of_nat (length l)) (set_data l p));;
    _ ← get_pass s;
    update (fun g => set_jdwp_passes (<[s := 1]> (jdwp_passes g)) g)
  else call_close call (sk_peer k).

Definition create_jdwp_service_socket : F ptr :=
  s ← new_asocket 136;
  if bool_decide (s = NULL) then mret NULL else
  update (fun g => set_jdwp_passes (<[s := 0]> (jdwp_passes g)) g);;
  install_local_socket s;;
  set_sock s (fun k => init_socket (sk_fd k) (sk_id k) jdwp_socket_enqueue_fn jdwp_socket_ready_fn
                         (sk_shutdown k) jdwp_socket_close_fn (sk_transport k) k);;
  mret s.

Definition jdwp_tracker_close (s : ptr) : F unit :=
  k ← sock s;
  (if bool_decide (sk_peer k = NULL) then skip else
    set_sock (sk_peer k) (set_peer NULL);;
    call_close call (sk_peer k));;
  remove_socket s;;
  zoom (unlink (T := JdwpTracker) s);;
  free_asocket s.

Definition jdwp_tracker_ready (s : ptr) : F unit :=
  t ← get (T := JdwpTracker) s;
  if tk_need_update t =? 0 then skip else
  p ← get_apacket;
  set (T := JdwpTracker) s (set_need_update 0);;
  l ← jdwp_process_list_msg MAX_PAYLOAD;
  k ← sock s;
  call_enqueue call (sk_peer k) (set_len (Z.of_nat (length l)) (set_data l p));;
  skip.

Definition jdwp_tracker_enqueue (s : ptr) (p : pkt) : F Z :=
  put_apacket p;;
  k ← sock s;
  call_close call (sk_peer k);;
  mret (-1).

Definition create_jdwp_tracker_service_socket : F ptr :=
  s ← new_asocket 160;
  if bool_decide (s = NULL) then mret NULL else
  alloc s {| tk_next := NULL; tk_prev := NULL; tk_need_update := 0 |};;
  zoom (link_before' (T := JdwpTracker) s _jdwp_trackers_list);;
  install_local_socket s;;
  set_sock s (fun k => init_socket (sk_fd k) (sk_id k) jdwp_tracker_enqueue_fn jdwp_tracker_ready_fn
                         (sk_shutdown k) jdwp_tracker_close_fn (sk_transport k) k);;
  set (T := JdwpTracker) s (set_need_update 1);;
  mret s.

(** ** Processes *)

Definition jdwp_process_free (p : ptr) : F unit :=
  if bool_decide (p = NULL) then skip else
  zoom (unlink (T := JdwpProcess) p);;
  k ← proc p;
  (if jp_socket k >=? 0 then
     os (adb_shutdown (jp_socket k));;
     os (adb_close (jp_socket k));;
     set_proc p (set_socket (-1))
   else skip);;
  (if bool_decide (jp_fde k = NULL) then skip else
     fdevent_destroy (jp_fde k);;
     set_proc p (set_fde NULL));;
  set_proc p (set_pid (-1));;
  for_each (take (Z.to_nat (jp_out_count k)) (jp_out_fds k)) (fun fd => os (adb_close fd);; skip);;
  set_proc p (fun k => set_out (jp_out_fds k) 0 k);;
  dealloc (T := JdwpProcess) p;;
  jdwp_process_list_updated.

Definition jdwp_process_alloc (socket : Z) : F ptr :=
  p ← calloc 72;
  if bool_decide (p = NULL) then mret NULL else
  alloc p {| jp_next := p; jp_prev := p; jp_pid := -1; jp_socket := socket; jp_fde := NULL;
             jp_in_buff := []; jp_in_len := 0; jp_out_fds := []; jp_out_count := 0 |};;
  fde ← fdevent_create sizeof_ptr socket (client_func jdwp_process_event_id) p;
  set_proc p (set_fde fde);;
  if bool_decide (fde = NULL) then dealloc (T := JdwpProcess) p;; mret NULL else
  assign fde (fun f => set_state (Z.lor (fde_state f) FDE_DONT_CLOSE) f);;
  set_proc p (fun k => set_out [] 0 (set_in (jp_in_buff k) 0 k));;
  zoom (link_before (T := JdwpProcess) p _jdwp_list);;
  fdevent_add fde FDE_READ;;
  mret p.

(** How a half of [jdwp_process_event] ends: it returns, falls through to the
    next half, or goes to [CloseProcess]. *)
Inductive after := Return | Next | CloseProcess.

(** [while (size > 0)]: the pid arrives in as many pieces as [recv] delivers;
    [in_buff] and [in_len] are updated after each. *)
Definition read_pid (p : ptr) (socket : Z) : F after :=
  loop (fun _ : unit =>
    k ← proc p;
    let size := 4 - jp_in_len k in
    if size <=? 0 then mret (inr Next) else
    a ← os (syscall (Recv socket size));
    match a with
    | Err e =>
        if e =? EINTR then mret (inl tt) else
        if e =? EAGAIN then mret (inr Return) else mret (inr CloseProcess)
    | Ok [] => mret (inr CloseProcess)
    | Ok bs =>
        set_proc p (fun k => set_in (take (Z.to_nat (jp_in_len k)) (jp_in_buff k) ++ bs)
                               (jp_in_len k + Z.of_nat (length bs)) k);;
        mret (inl tt)
    end) tt.

Definition announce (p : ptr) (socket : Z) : F after :=
  r ← read_pid p socket;
  match r with
  | Next =>
      k ← proc p;
      match sscanf_x (take 4 (jp_in_buff k)) with
      | None => mret CloseProcess
      | Some pid =>
          set_proc p (set_pid pid);;
          jdwp_process_list_updated;;
          mret Next
      end
  | _ => mret r
  end.

(** [for (;;)] on a connection whose pid is known: anything it sends is
    ignored, its end closes it. *)
Definition ignore_input (socket : Z) : M world after :=
  loop (fun _ : unit =>
    a ← syscall (Recv socket 32);
    match a with
    | Err e =>
        if e =? EINTR then mret (inl tt) else
        if e =? EAGAIN then mret (inr Return) else mret (inr CloseProcess)
    | Ok [] => mret (inr CloseProcess)
    | Ok _ => mret (inl tt)
    end) tt.

(** [for (;;) ret = sendmsg(...)]: [true] when the descriptor was sent. *)
Definition send_fd (socket fd : Z) : M world bool :=
  loop (fun _ : unit =>
    a ← syscall (Sendmsg socket fd);
    match a with
    | Ok _ => adb_close fd;; mret (inr true)
    | Err e => if e =? EINTR then mret (inl tt) else mret (inr false)
    end) tt.

(** [for (n = 1; n < out_count; n++) out_fds[n-1] = out_fds[n];] *)
Definition shift_out (count : Z) (l : list Z) : list Z :=
  take (Z.to_nat (count - 1)) (drop 1 l) ++ drop (Z.to_nat (Z.max 0 (count - 1))) l.

(** The [FDE_WRITE] half. *)
Definition pass_fd (p : ptr) : F after :=
  k ← proc p;
  if jp_out_count k <=? 0 then mret Return else
  fd ← must "out_fds" (fun _ => jp_out_fds k !! 0%nat);
  flags ← os (syscall (Getfl (jp_socket k)));
  match flags with
  | Err _ => mret CloseProcess
  | Ok flags =>
      r ← os (syscall (Setfl (jp_socket k) (clear flags O_NONBLOCK)));
      match r with
      | Err _ => mret CloseProcess
      | Ok _ =>
          sent ← os (send_fd (jp_socket k) fd);
          if negb sent then mret CloseProcess else
          set_proc p (fun k => set_out (shift_out (jp_out_count k) (jp_out_fds k)) (jp_out_count k) k);;
          r' ← os (syscall (Setfl (jp_socket k) flags));
          match r' with
          | Err _ => mret CloseProcess
          | Ok _ =>
              set_proc p (fun k => set_out (jp_out_fds k) (jp_out_count k - 1) k);;
              k' ← proc p;
              when (jp_out_count k' =? 0) (fdevent_del (jp_fde k') FDE_WRITE);;
              mret Return
          end
      end
  end.

Definition jdwp_process_event (socket events : Z) (p : ptr) : F unit :=
  a ← (if has events FDE_READ then
         k ← proc p;
         if jp_pid k <? 0 then announce p socket else os (ignore_input socket)
       else mret Next);
  b ← (match a with
       | Next => if has events FDE_WRITE then pass_fd p else mret Return
       | _ => mret a
       end);
  match b with
  | CloseProcess => jdwp_process_free p
  | _ => skip
  end.

(** [create_jdwp_connection_fd(pid)]: the debugger's end of a new socket pair,
    or -1. *)
Definition create_jdwp_connection_fd (pid : Z) : F Z :=
  r ← list_scan (T := JdwpProcess) _jdwp_list (fun p =>
    k ← proc p; mret (if jp_pid k =? pid then Some p else None));
  match r with
  | None => mret (-1)
  | Some p =>
      k ← proc p;
      if jp_out_count k >=? MAX_OUT_FDS then mret (-1) else
      fds ← os adb_socketpair;
      match fds with
      | Err _ => mret (-1)
      | Ok (fd0, fd1) =>
          set_proc p (fun k => set_out (take (Z.to_nat (jp_out_count k)) (jp_out_fds k) ++ [fd1])
                                 (jp_out_count k + 1) k);;
          k' ← proc p;
          when (jp_out_count k' =? 1) (fdevent_add (jp_fde k') FDE_WRITE);;
          mret fd0
      end
  end.

(** ** The control socket *)

Definition JDWP_CONTROL_NAME : bytes := 0 :: str "jdwp-control".

(** [sizeof(addr.sun_path)] *)
Definition maxpath : Z := 108.

Definition jdwp_control_init (sockname : bytes) : F Z :=
  if Z.of_nat (length sockname) >=? maxpath then mret (-1) else
  a ← os (syscall Socket);
  match a with
  | Err _ => mret (-1)
  | Ok s =>
      if s <? 0 then mret (-1) else
      b ← os (syscall (Bind s sockname));
      match b with
      | Err _ => os (adb_close s);; mret (-1)
      | Ok _ =>
          l ← os (syscall (Listen s 4));
          match l with
          | Err _ => os (adb_close s);; mret (-1)
          | Ok _ =>
              update (fun g => set_jdwp_control {| jc_listen_socket := s; jc_fde := jc_fde (jdwp_control g) |} g);;
              fde ← fdevent_create sizeof_ptr s (client_func jdwp_control_event_id) NULL;
              update (set_jdwp_control {| jc_listen_socket := s; jc_fde := fde |});;
              if bool_decide (fde = NULL) then os (adb_close s);; mret (-1) else
              fdevent_add fde FDE_READ;;
              os (close_on_exec s);;
              mret 0
          end
      end
  end.

(** [do ... while (s < 0)]: [continue] goes to the test, which is true then. *)
Definition jdwp_accept (listen_socket : Z) : M world (option Z) :=
  loop (fun _ : unit =>
    a ← adb_socket_accept listen_socket;
    match a with
    | Ok s => mret (if s <? 0 then inr None else inr (Some s))
    | Err e => if e =? EINTR then mret (inl tt) else mret (inr None)
    end) tt.

Definition jdwp_control_event (events : Z) : F unit :=
  if has events FDE_READ then
    c ← global jdwp_control;
    r ← os (jdwp_accept (jc_listen_socket c));
    match r with
    | None => skip
    | Some s => jdwp_process_alloc s;; skip
    end
  else skip.

Definition init_jdwp : F Z :=
  zoom (list_init (T := JdwpProcess) _jdwp_list);;
  zoom (list_init (T := JdwpTracker) _jdwp_trackers_list);;
  jdwp_control_init JDWP_CONTROL_NAME.
End jdwp.
