(* ===== verification/Auth.v ===== *)
(** * Authentication of the host (adb_auth_client.c, and the AUTH and CNXN
    senders of adb.cpp)

    The device sends a random token; the host signs it with its private keys,
    and when none of them is known to the device it sends its public key, which
    the framework asks the user to confirm.  [RSA_verify] and [__b64_pton] are
    outside the repository and are parameters. *)

From S2P Require Import Prelude Effects DList Os Sysdeps Wire Globals Fdevent Transport Sockets.

Definition ADB_AUTH_TOKEN : Z := 1.
Definition ADB_AUTH_SIGNATURE : Z := 2.
Definition ADB_AUTH_RSAPUBLICKEY : Z := 3.

(** mincrypt/rsa.h *)
Definition RSANUMBYTES : Z := 256.
Definition RSANUMWORDS : Z := 64.
Definition sizeof_RSAPublicKey : Z := 4 + 4 + 4 * RSANUMWORDS + 4 * RSANUMWORDS + 4.

Definition key_paths : list bytes := [str "/adb_keys"; str "/data/misc/adb/adb_keys"].

(** [strpbrk(buf, " \t")] and the [*sep = '\0'] after it. *)
Fixpoint cut_blank (s : bytes) : bytes :=
  match s with
  | c :: s' => if (c =? 32) || (c =? 9) then [] else c :: cut_blank s'
  | [] => []
  end.

Section auth.
Context (sizeof_ptr : Z).

(** [__b64_pton(src, target, targsize)]: the bytes stored, [None] for -1. *)
Context (b64_pton : bytes -> Z -> option bytes).

(** [RSA_verify(key, sig, siglen, token, SHA_DIGEST_SIZE)]: the memory of the
    key, the signature and the token; the result is non-zero on success. *)
Context (RSA_verify : bytes -> bytes -> bytes -> Z).

(** ** Keys *)

(** A line of a key file that holds a key. *)
Definition parse_key (line : bytes) : option bytes :=
  match b64_pton (cut_blank (cstr line)) (sizeof_RSAPublicKey + 4) with
  | None => None
  | Some k =>
      if negb (Z.of_nat (length k) =? sizeof_RSAPublicKey) then None else
      if negb (s32 (le_val (take 4 k)) =? RSANUMWORDS) then None else Some k
  end.

(** [while (fgets(buf, sizeof(buf), f))] *)
Definition read_lines (f : Z) (list : ptr) : F unit :=
  loop (fun _ : unit =>
    l ← os (syscall (Fgets f MAX_PAYLOAD));
    match l with
    | Ok (Some line) =>
        key ← calloc (24 + sizeof_RSAPublicKey + 4);
        if bool_decide (key = NULL) then mret (inr tt) else
        alloc key {| pk_next := NULL; pk_prev := NULL; pk_key := [] |};;
        match parse_key line with
        | None => dealloc (T := adb_public_key) key;; mret (inl tt)
        | Some k =>
            set key (fun n => {| pk_next := pk_next n; pk_prev := pk_prev n; pk_key := k |});;
            zoom (list_add_tail (T := adb_public_key) list key);;
            mret (inl tt)
        end
    | _ => mret (inr tt)
    end) tt.

Definition read_keys (file : bytes) (list : ptr) : F unit :=
  f ← os (syscall (Fopen file));
  match f with
  | Err _ => skip
  | Ok f => read_lines f list;; os (syscall (Fclose f));; skip
  end.

Fixpoint free_keys_fuel (n : nat) (list : ptr) : F unit :=
  e ← zoom (list_empty (T := adb_public_key) list);
  if (e : bool) then skip else
  match n with
  | O => stop_with Diverge
  | S n' =>
      item ← zoom (list_head (T := adb_public_key) list);
      zoom (list_remove (T := adb_public_key) item);;
      dealloc (T := adb_public_key) item;;
      free_keys_fuel n' list
  end.

Definition free_keys (list : ptr) : F unit :=
  n ← global (fun g => size (pubkeys g));
  free_keys_fuel n list.

Definition load_keys (list : ptr) : F unit :=
  zoom (list_init (T := adb_public_key) list);;
  for_each key_paths (fun path =>
    st ← os (syscall (Stat path));
    match st with
    | Ok _ => read_keys path list
    | Err _ => skip
    end).

(** The result, and the new contents of the token when it was written to; a
    [fread] that falls short leaves them indeterminate. *)
Definition adb_auth_generate_token (token_size : Z) : F (Z * option bytes) :=
  f ← os (syscall (Fopen (str "/dev/urandom")));
  match f with
  | Err _ => mret (0, None)
  | Ok f =>
      r ← os (syscall (Fread f token_size));
      os (syscall (Fclose f));;
      mret (match r with
            | Ok (Some bs) => (1 * token_size, Some bs)
            | _ => (0 * token_size, Some [])
            end)
  end.

(** [list_for_each(item, &key_list)] until a key verifies. *)
Definition verify_with (list : ptr) (token sig : bytes) : F Z :=
  r ← list_scan (T := adb_public_key) list (fun item =>
    k ← get (T := adb_public_key) item;
    let ret := RSA_verify (pk_key k) sig token in
    mret (if ret =? 0 then None else Some ret));
  mret (default 0 r).

(** [key_list] is a variable of the function: an address not in use. *)
Definition adb_auth_verify (token sig : bytes) (siglen : Z) : F Z :=
  if negb (siglen =? RSANUMBYTES) then mret 0 else
  key_list ← global (fun g => fresh (used g));
  alloc key_list {| pk_next := NULL; pk_prev := NULL; pk_key := [] |};;
  load_keys key_list;;
  ret ← verify_with key_list token sig;
  free_keys key_list;;
  dealloc (T := adb_public_key) key_list;;
  mret ret.

(** ** Going online, and the messages of the handshake (adb.cpp) *)

Abbreviation transport := (get (T := atransport)).

Abbreviation set_transport := (set (T := atransport)).

Definition handle_online (t : ptr) : F unit := set_transport t (set_online 1).

(** [adb_device_banner]. *)
Context (banner : bytes).

Definition cnxn_props : list bytes :=
  [str "ro.product.name"; str "ro.product.model"; str "ro.product.device"].

(** [property_get(key, value, "")] *)
Definition property_get (key : bytes) : M world bytes :=
  r ← syscall (Property_get key);
  mret (match r with Ok v => cstr v | Err _ => [] end).

Fixpoint connect_props (keys : list bytes) (acc : bytes) : M world bytes :=
  match keys with
  | [] => mret acc
  | key :: keys' =>
      value ← property_get key;
      connect_props keys' (acc ++ key ++ str "=" ++ value ++ str ";")
  end.

(** [fill_connect_data(buf, bufsize)]: the bytes stored with the final NUL.  A
    text that does not fit makes [remaining] wrap round. *)
Definition fill_connect_data (bufsize : Z) : F bytes :=
  text ← os (connect_props cnxn_props (banner ++ str "::"));
  if Z.of_nat (length text) <? bufsize then mret (text ++ [0]) else undef "snprintf after the buffer".

Definition send_connect (t : ptr) : F unit :=
  cp ← get_apacket;
  d ← fill_connect_data MAX_PAYLOAD;
  send_packet sizeof_ptr (set_msg A_CNXN A_VERSION MAX_PAYLOAD (Z.of_nat (length d)) (set_data d cp)) t.

Definition send_auth_request (t : ptr) : F unit :=
  '(ret, tok) ← adb_auth_generate_token TOKEN_SIZE;
  (match tok with Some tok => set_transport t (set_token tok) | None => skip end);;
  if negb (ret =? TOKEN_SIZE) then skip else
  p ← get_apacket;
  tr ← transport t;
  send_packet sizeof_ptr (set_msg A_AUTH ADB_AUTH_TOKEN 0 ret
                            (set_data (take (Z.to_nat ret) (at_token tr)) p)) t.

Definition adb_auth_verified (t : ptr) : F unit :=
  handle_online t;;
  send_connect t.

(** ** Confirmation by the framework *)

Definition usb_disconnected : F unit :=
  t ← global usb_transport;
  remove_transport_disconnect t usb_disconnect;;
  update (fun g => set_needs_retry false (set_usb_transport NULL g)).

Definition adb_auth_event (fd events : Z) : F unit :=
  if has events FDE_READ then
    r ← os (adb_read fd 2);
    t ← global usb_transport;
    match r with
    | Err _ =>
        (if bool_decide (t = NULL) then skip else tr ← transport t; fdevent_remove (at_auth_fde tr));;
        update (set_framework_fd (-1))
    | Ok response =>
        if bool_decide (response = str "OK") then
          if bool_decide (t = NULL) then skip else adb_auth_verified t
        else skip
    end
  else skip.

(** [key] is [p->data] of the packet, [len] its [data_length]. *)
Definition adb_auth_confirm_key (key : bytes) (len : Z) (t : ptr) : F unit :=
  u ← global usb_transport;
  (if bool_decide (u = NULL) then
     update (set_usb_transport t);;
     add_transport_disconnect t usb_disconnect
   else skip);;
  fd ← global framework_fd;
  if fd <? 0 then update (set_needs_retry true) else
  last ← (if len <=? 0 then undef "key[-1]" else must "key[len - 1]" (fun _ => key !! Z.to_nat (len - 1)));
  if negb (last =? 0) then skip else
  let msg := str "PK" ++ cstr key in
  if Z.of_nat (length msg) >=? MAX_PAYLOAD then skip else
  r ← os (adb_write fd msg);
  match r with
  | Err _ => skip
  | Ok _ =>
      tr ← transport t;
      fdevent_install sizeof_ptr (at_auth_fde tr) fd (client_func adb_auth_event_id) t;;
      fdevent_add (at_auth_fde tr) FDE_READ
  end.

Definition adb_auth_listener (fd : Z) : F unit :=
  r ← os (adb_socket_accept fd);
  match r with
  | Err _ => skip
  | Ok s =>
      if s <? 0 then skip else
      update (set_framework_fd s);;
      retry ← global needs_retry;
      if (retry : bool) then
        update (set_needs_retry false);;
        t ← global usb_transport;
        send_auth_request t
      else skip
  end.

Definition adb_auth_init : F unit :=
  a ← os (syscall (Control_socket (str "adbd")));
  match a with
  | Err _ => skip
  | Ok fd =>
      if fd <? 0 then skip else
      l ← os (syscall (Listen fd 4));
      match l with
      | Err _ => skip
      | Ok _ =>
          fde ← global listener_fde;
          fdevent_install sizeof_ptr fde fd (client_func adb_auth_listener_id) NULL;;
          fdevent_add fde FDE_READ
      end
  end.
End auth.
