(* ===== verification/Protocol.v ===== *)
(** * The packet handler of adbd (adb.cpp)

    [handle_packet] interprets the packets of a transport: it brings the
    transport online or offline, runs the authentication, and opens, feeds,
    resumes and closes sockets.  This file also closes the method calls of the
    sockets over all their kinds ([dispatch]).  The model is the daemon's build
    (ADB_HOST = 0, HOST = 0). *)

From S2P Require Import Prelude Effects DList Os Sysdeps Wire Globals Fdevent Transport Sockets Registry Smart Host Jdwp Auth.

(** ** The banner of a CNXN packet *)

(** The tokens [adb_strtok_r] finds with a one-character delimiter. *)
Fixpoint strtok (sep : Z) (cur : bytes) (s : bytes) : list bytes :=
  let flush := if bool_decide (cur = []) then [] else [cur] in
  match s with
  | [] => flush
  | c :: s' => if c =? sep then flush ++ strtok sep [] s' else strtok sep (cur ++ [c]) s'
  end.

(** The text before and after the first [c]. *)
Definition split_at_char (c : Z) (s : bytes) : option (bytes * bytes) :=
  match strchr c s with
  | Some i => Some (take i s, drop (S i) s)
  | None => None
  end.

(** [qual_overwrite(dst, src)]: the new value of [*dst]. *)
Definition qual_overwrite (src : bytes) : option bytes :=
  if bool_decide (src = []) then None else Some src.

Definition set_qual (t : atransport) (key : bytes) : atransport :=
  match split_at_char 61 key with
  | None => t
  | Some (k, v) =>
      if bool_decide (k = str "ro.product.name")
      then set_quals (qual_overwrite v) (at_model t) (at_device t) t
      else if bool_decide (k = str "ro.product.model")
      then set_quals (at_product t) (qual_overwrite v) (at_device t) t
      else if bool_decide (k = str "ro.product.device")
      then set_quals (at_product t) (at_model t) (qual_overwrite v) t
      else t
  end.

Definition state_of_type (type : bytes) : Z :=
  if bool_decide (type = str "bootloader") then CS_BOOTLOADER else
  if bool_decide (type = str "device") then CS_DEVICE else
  if bool_decide (type = str "recovery") then CS_RECOVERY else
  if bool_decide (type = str "sideload") then CS_SIDELOAD else CS_HOST.

(** [parse_banner] on the text of the banner. *)
Definition banner_transport (text : bytes) (t : atransport) : atransport :=
  let '(type, props) :=
    match split_at_char 58 text with
    | None => (text, [])
    | Some (type, rest) =>
        match split_at_char 58 rest with
        | None => (type, [])
        | Some (_, props) => (type, strtok 59 [] props)
        end
    end in
  set_connection_state (state_of_type type) (foldl set_qual t props).

(** The banner is read as a C string: it has to end inside the packet. *)
Definition parse_banner (d : bytes) (t : ptr) : F unit :=
  if bool_decide (0 ∈ d) then set (T := atransport) t (banner_transport (cstr d))
  else undef "banner without a NUL".

(** ** Service sockets and dispatch *)

Section protocol.
Context (sizeof_ptr : Z) (b64_pton : bytes -> Z -> option bytes)
        (RSA_verify : bytes -> bytes -> bytes -> Z) (banner : bytes).

(** [service_to_fd(name)] of services.cpp. *)
Context (service_to_fd : bytes -> F Z).

(** [static int auth_enabled]. *)
Context (auth_enabled : bool).

Definition create_local_service_socket (name : bytes) : F ptr :=
  if bool_decide (name = str "jdwp") then create_jdwp_service_socket else
  if bool_decide (name = str "track-jdwp") then create_jdwp_tracker_service_socket else
  fd ← service_to_fd name;
  if fd <? 0 then mret NULL else
  s ← create_local_socket sizeof_ptr fd;
  not_root ← (if has_prefix (str "root:") name then
                u ← os (syscall Getuid); mret (match u with Ok 0 => false | _ => true end)
              else mret false);
  (if (not_root : bool) || has_prefix (str "usb:") name || has_prefix (str "tcpip:") name
   then set_sock s (set_exit_on_close 1) else skip);;
  mret s.

Definition stuck : methods := {|
  call_enqueue _ _ := stop_with Diverge;
  call_ready _ := stop_with Diverge;
  call_shutdown _ := stop_with Diverge;
  call_close _ := stop_with Diverge;
  call_disconnect _ _ _ := stop_with Diverge;
|}.

(** Device trackers are sockets of the host's build only. *)
Definition not_on_device {A} : F A := undef "function of the host's build".

(** [s->enqueue(s, p)] and so on: the function the pointer holds, with the
    calls it makes one level deeper. *)
Fixpoint dispatch (depth : nat) : methods :=
  match depth with
  | O => stuck
  | S depth' =>
      let call := dispatch depth' in
      {| call_enqueue s p :=
           k ← sock s;
           match sk_enqueue k with
           | local_socket_enqueue_fn => local_socket_enqueue call s p
           | remote_socket_enqueue_fn => remote_socket_enqueue sizeof_ptr s p
           | jdwp_socket_enqueue_fn => jdwp_socket_enqueue call s p
           | jdwp_tracker_enqueue_fn => jdwp_tracker_enqueue call s p
           | smart_socket_enqueue_fn => smart_socket_enqueue sizeof_ptr call None s p
           | device_tracker_enqueue_fn => not_on_device
           end;
         call_ready s :=
           k ← sock s;
           match sk_ready k with
           | local_socket_ready_fn => local_socket_ready s
           | remote_socket_ready_fn => remote_socket_ready sizeof_ptr s
           | local_socket_ready_notify_fn => local_socket_ready_notify call s
           | jdwp_socket_ready_fn => jdwp_socket_ready call s
           | jdwp_tracker_ready_fn => jdwp_tracker_ready call s
           | smart_socket_ready_fn => smart_socket_ready s
           | device_tracker_ready_fn => not_on_device
           end;
         call_shutdown s :=
           k ← sock s;
           match sk_shutdown k with
           | Some remote_socket_shutdown_fn => remote_socket_shutdown sizeof_ptr s
           | None => undef "call through a NULL pointer"
           end;
         call_close s :=
           k ← sock s;
           match sk_close k with
           | local_socket_close_fn => local_socket_close call s
           | remote_socket_close_fn => remote_socket_close call s
           | local_socket_close_notify_fn => local_socket_close_notify call s
           | jdwp_socket_close_fn => jdwp_socket_close call s
           | jdwp_tracker_close_fn => jdwp_tracker_close call s
           | smart_socket_close_fn => smart_socket_close call s
           | device_tracker_close_fn => not_on_device
           end;
         call_disconnect f opaque t :=
           match f with
           | remote_socket_disconnect_fn => remote_socket_disconnect call opaque t
           | usb_disconnected_fn => usb_disconnected
           | listener_disconnect_fn => listener_disconnect opaque t
           end |}
  end.

(** A close reaches the peer and the peer's packets go no further: four levels
    are enough for every chain of calls. *)
Definition calls : methods := dispatch 4.

(** ** Packets *)

Definition handle_offline (t : ptr) : F unit :=
  set (T := atransport) t (set_online 0);;
  run_transport_disconnects (call_disconnect calls) t.

Definition send_ready (local remote : Z) (t : ptr) : F unit :=
  p ← get_apacket;
  send_packet sizeof_ptr (set_msg A_OKAY local remote 0 p) t.

Definition send_close (local remote : Z) (t : ptr) : F unit :=
  p ← get_apacket;
  send_packet sizeof_ptr (set_msg A_CLSE local remote 0 p) t.

(** [send_auth_publickey]: on the device [adb_auth_get_userkey] returns 0. *)
Definition send_auth_publickey (t : ptr) : F unit :=
  p ← get_apacket;
  put_apacket p.

Definition handle_sync (p : pkt) (t : ptr) : F unit :=
  if negb (arg0 (msg (p_body p)) =? 0) then send_packet sizeof_ptr p t else
  set (T := atransport) t (set_connection_state CS_OFFLINE);;
  handle_offline t;;
  send_packet sizeof_ptr p t.

Definition handle_cnxn (p : pkt) (t : ptr) : F unit :=
  tr ← get (T := atransport) t;
  (if negb (at_connection_state tr =? CS_OFFLINE) then
     set (T := atransport) t (set_connection_state CS_OFFLINE);;
     handle_offline t
   else skip);;
  parse_banner (data (p_body p)) t;;
  if negb auth_enabled then handle_online t;; send_connect sizeof_ptr banner t
  else send_auth_request sizeof_ptr t.

Definition handle_auth (p : pkt) (t : ptr) : F unit :=
  let m := msg (p_body p) in
  let d := data (p_body p) in
  if arg0 m =? ADB_AUTH_TOKEN then
    set (T := atransport) t (set_connection_state CS_UNAUTHORIZED);;
    send_auth_publickey t
  else if arg0 m =? ADB_AUTH_SIGNATURE then
    tr ← get (T := atransport) t;
    ok ← adb_auth_verify b64_pton RSA_verify (at_token tr) d (data_length m);
    if negb (ok =? 0) then
      adb_auth_verified sizeof_ptr banner t;;
      set (T := atransport) t (set_failed_auth_attempts 0)
    else
      tr' ← get (T := atransport) t;
      set (T := atransport) t (set_failed_auth_attempts (u32 (at_failed_auth_attempts tr' + 1)));;
      (if at_failed_auth_attempts tr' >? 10 then os (adb_sleep_ms 1000) else skip);;
      send_auth_request sizeof_ptr t
  else if arg0 m =? ADB_AUTH_RSAPUBLICKEY then adb_auth_confirm_key sizeof_ptr d (data_length m) t
  else skip.

(** [name[data_length > 0 ? data_length - 1 : 0] = 0] and the string there. *)
Definition open_name (p : pkt) : F bytes :=
  let n := if data_length (msg (p_body p)) >? 0 then data_length (msg (p_body p)) - 1 else 0 in
  if Z.of_nat (length (data (p_body p))) <? n then undef "indeterminate packet data"
  else mret (cstr (take (Z.to_nat n) (data (p_body p)))).

Definition handle_open (p : pkt) (t : ptr) : F unit :=
  let m := msg (p_body p) in
  tr ← get (T := atransport) t;
  if negb (at_online tr =? 0) && negb (arg0 m =? 0) && (arg1 m =? 0) then
    name ← open_name p;
    s ← create_local_service_socket name;
    if bool_decide (s = NULL) then send_close 0 (arg0 m) t else
    r ← create_remote_socket (arg0 m) t;
    set_sock s (set_peer r);;
    set_sock r (set_peer s);;
    k ← sock s;
    kr ← sock r;
    send_ready (sk_id k) (sk_id kr) t;;
    call_ready calls s
  else skip.

Definition handle_okay (p : pkt) (t : ptr) : F unit :=
  let m := msg (p_body p) in
  tr ← get (T := atransport) t;
  if negb (at_online tr =? 0) && negb (arg0 m =? 0) && negb (arg1 m =? 0) then
    s ← find_local_socket (arg1 m) 0;
    if bool_decide (s = NULL) then skip else
    k ← sock s;
    if bool_decide (sk_peer k = NULL) then
      r ← create_remote_socket (arg0 m) t;
      set_sock s (set_peer r);;
      set_sock r (set_peer s);;
      call_ready calls s
    else
      kp ← sock (sk_peer k);
      if sk_id kp =? arg0 m then call_ready calls s else skip
  else skip.

Definition handle_clse (p : pkt) (t : ptr) : F unit :=
  let m := msg (p_body p) in
  tr ← get (T := atransport) t;
  if negb (at_online tr =? 0) && negb (arg1 m =? 0) then
    s ← find_local_socket (arg1 m) (arg0 m);
    if bool_decide (s = NULL) then skip else
    k ← sock s;
    foreign ← (if (arg0 m =? 0) && bool_decide (sk_peer k <> NULL) then
                 kp ← sock (sk_peer k); mret (bool_decide (sk_transport kp <> t))
               else mret false);
    if (foreign : bool) then skip else call_close calls s
  else skip.

(** [true] when the packet was passed on and is not freed by the caller. *)
Definition handle_wrte (p : pkt) (t : ptr) : F bool :=
  let m := msg (p_body p) in
  tr ← get (T := atransport) t;
  if negb (at_online tr =? 0) && negb (arg0 m =? 0) && negb (arg1 m =? 0) then
    s ← find_local_socket (arg1 m) (arg0 m);
    if bool_decide (s = NULL) then mret false else
    r ← call_enqueue calls s (set_len (data_length m) p);
    (if r =? 0 then k ← sock s; send_ready (sk_id k) (arg0 m) t else skip);;
    mret true
  else mret false.

Definition handle_packet (p : pkt) (t : ptr) : F unit :=
  let c := command (msg (p_body p)) in
  if c =? A_SYNC then handle_sync p t else
  if c =? A_WRTE then (passed ← handle_wrte p t; if (passed : bool) then skip else put_apacket p) else
  (if c =? A_CNXN then handle_cnxn p t else
   if c =? A_AUTH then handle_auth p t else
   if c =? A_OPEN then handle_open p t else
   if c =? A_OKAY then handle_okay p t else
   if c =? A_CLSE then handle_clse p t else skip);;
  put_apacket p.

(** [transport_socket_events] of transport.cpp: a packet the transport's thread
    received. *)
Definition transport_socket_events (fd events : Z) (t : ptr) : F unit :=
  if has events FDE_READ then
    p ← read_packet sizeof_ptr fd;
    match p with
    | None => skip
    | Some p => handle_packet p t
    end
  else skip.

(** The functions these files register with the event loop. *)
Definition adbd_client (id : N) (fd ev : Z) (arg : ptr) : F unit :=
  if bool_decide (id = local_socket_event_id) then local_socket_event_func calls fd ev arg else
  if bool_decide (id = jdwp_process_event_id) then jdwp_process_event calls fd ev arg else
  if bool_decide (id = jdwp_control_event_id) then jdwp_control_event sizeof_ptr ev else
  if bool_decide (id = adb_auth_event_id) then adb_auth_event sizeof_ptr banner fd ev else
  if bool_decide (id = adb_auth_listener_id) then adb_auth_listener sizeof_ptr fd else
  if bool_decide (id = transport_socket_events_id) then transport_socket_events fd ev arg else
  if bool_decide (id = ss_listener_event_id) then ss_listener_event_func sizeof_ptr calls fd ev arg else
  if bool_decide (id = listener_event_id) then listener_event_func sizeof_ptr fd ev arg else
  skip.
End protocol.
