(* ===== verification/Frame.v ===== *)
(** * What a function leaves alone

    Most functions of the daemon change one part of the shared data.  [keeps f
    m] says that [f] of the shared data is the same after [m], however [m]
    ends; the rules follow the structure of a program, so the facts about
    whole components are found by [keep]. *)

From S2P Require Import Prelude Effects DList Os Sysdeps Wire Globals Fdevent Transport Sockets Registry Smart Host Jdwp Auth Protocol.

Definition keeps {B A} (f : globals -> B) (m : F A) : Prop :=
  forall s, f (rest (m s).2) = f (rest s).

Section rules.
Context {B : Type} (f : globals -> B).

Lemma keeps_pure {A} (m : F A) : (forall s, rest (m s).2 = rest s) -> keeps f m.
Proof. intros H s. by rewrite H. Qed.

Lemma keeps_bind {A C} (m : F A) (k : A -> F C) : keeps f m -> (forall a, keeps f (k a)) -> keeps f (m ≫= k).
Proof.
  intros Hm Hk s. specialize (Hm s). unfold mbind, M_bind. destruct (m s) as [[a|e] s']; [|done].
  rewrite Hk. exact Hm.
Qed.

Lemma keeps_ret {A} (a : A) : keeps f (mret a).
Proof. done. Qed.

Lemma keeps_skip : keeps f skip.
Proof. done. Qed.

Lemma keeps_stop {A} e : keeps f (stop_with e : F A).
Proof. done. Qed.

Lemma keeps_undef {A} why : keeps f (undef why : F A).
Proof. done. Qed.

Lemma keeps_abort {A} why : keeps f (abort why : F A).
Proof. done. Qed.

Lemma keeps_gets {A} (g : fdstate -> A) : keeps f (gets g).
Proof. done. Qed.

Lemma keeps_global {A} (g : globals -> A) : keeps f (global g).
Proof. done. Qed.

Lemma keeps_must {A} why (g : fdstate -> option A) : keeps f (must why g).
Proof. intros s. unfold must. by destruct (g s). Qed.

Lemma keeps_get {T} `{Lens globals (gmap N T)} p : keeps f (get p).
Proof. apply keeps_must. Qed.

Lemma keeps_when b m : keeps f m -> keeps f (when b m).
Proof. by destruct b. Qed.

Lemma keeps_if {A} (b : bool) (m m' : F A) : keeps f m -> keeps f m' -> keeps f (if b then m else m').
Proof. by destruct b. Qed.

Lemma keeps_update (g : globals -> globals) : (forall x, f (g x) = f x) -> keeps f (update g).
Proof. intros H s. apply H. Qed.

Lemma keeps_modify (g : fdstate -> fdstate) : (forall s, rest (g s) = rest s) -> keeps f (modify g).
Proof. intros H. by apply keeps_pure. Qed.

Lemma keeps_os {A} (m : M world A) : keeps f (os m).
Proof. intros s. unfold os, zoom. by destruct (m (view s)). Qed.

Lemma keeps_fde {A} (m : M (gmap N fdevent) A) : keeps f (zoom m).
Proof. intros s. unfold zoom. by destruct (m (view s)). Qed.

Lemma keeps_zoom {T A} `{Lens globals (gmap N T)} (m : M (gmap N T) A) :
  (forall h x, f (put h x) = f x) -> keeps f (zoom m).
Proof. intros E s. unfold zoom. destruct (m (view s)). simpl. apply E. Qed.

Lemma keeps_set {T} `{Lens globals (gmap N T)} p (g : T -> T) :
  (forall h x, f (put h x) = f x) -> keeps f (set p g).
Proof. intros E. apply keeps_bind; [apply keeps_get|]. intros t. apply keeps_update. intros x. apply E. Qed.

Lemma keeps_alloc {T} `{Lens globals (gmap N T)} p (t : T) :
  (forall h x, f (put h x) = f x) -> keeps f (alloc p t).
Proof. intros E. apply keeps_update. intros x. apply E. Qed.

Lemma keeps_dealloc {T} `{Lens globals (gmap N T)} p :
  (forall h x, f (put h x) = f x) -> keeps f (dealloc p).
Proof. intros E. apply keeps_bind; [apply keeps_get|]. intros t. apply keeps_update. intros x. apply E. Qed.

Lemma keeps_deref p : keeps f (deref p).
Proof. apply keeps_fde. Qed.

Lemma keeps_assign p g : keeps f (assign p g).
Proof. apply keeps_fde. Qed.

Lemma keeps_loop_fuel {L R} n (body : L -> F (L + R)) l :
  (forall l, keeps f (body l)) -> keeps f (loop_fuel n body l).
Proof.
  intros Hb. revert l. induction n as [|n IH]; intros l; simpl; [apply keeps_stop|].
  apply keeps_bind; [apply Hb|]. intros [l'|r]; [apply IH|apply keeps_ret].
Qed.

Lemma keeps_loop {L R} (body : L -> F (L + R)) l :
  (forall l, keeps f (body l)) -> keeps f (loop body l).
Proof. intros Hb s. unfold loop. by apply keeps_loop_fuel. Qed.

Lemma keeps_for_each {A} (xs : list A) (g : A -> F unit) :
  (forall x, keeps f (g x)) -> keeps f (for_each xs g).
Proof.
  intros Hg. induction xs as [|x xs IH]; simpl; [apply keeps_skip|].
  apply keeps_bind; [apply Hg|done].
Qed.

Lemma keeps_scan {T R} `{Linked T} `{Lens globals (gmap N T)} head (body : ptr -> F (option R)) :
  (forall p, keeps f (body p)) -> keeps f (list_scan head body).
Proof.
  intros Hb. assert (Hn : forall p, keeps f (zoom (load_next (T := T) p))).
  { intros p s. unfold zoom, load_next, load, must, mbind, M_bind. simpl.
    destruct (view (rest s) !! p); simpl; by rewrite put_view. }
  unfold list_scan. apply keeps_bind; [apply Hn|]. intros first.
  apply keeps_bind; [apply keeps_gets|]. intros n. revert first.
  induction n as [|n IH]; intros cur; simpl; destruct (bool_decide _); try apply keeps_ret;
    try apply keeps_stop.
  apply keeps_bind; [apply Hb|]. intros [v|]; [apply keeps_ret|].
  apply keeps_bind; [apply Hn|]. intros nx. apply IH.
Qed.
End rules.

Create HintDb keep.
#[export] Hint Resolve keeps_ret keeps_skip keeps_stop keeps_undef keeps_abort keeps_gets keeps_global
  keeps_must keeps_get keeps_os keeps_deref keeps_assign : keep.

(** Follow the program. *)
Ltac keep_step :=
  lazymatch goal with
  | |- keeps _ (_ ≫= _) => apply keeps_bind; [|intros ?]
  | |- keeps _ (when _ _) => apply keeps_when
  | |- keeps _ (loop _ _) => apply keeps_loop; intros ?
  | |- keeps _ (for_each _ _) => apply keeps_for_each; intros ?
  | |- keeps _ (list_scan _ _) => apply keeps_scan; intros ?
  | |- keeps _ (modify _) => apply keeps_modify; intros ?; reflexivity
  | |- keeps _ (update _) => apply keeps_update; intros ?; reflexivity
  | |- keeps _ (set _ _) => apply keeps_set; intros ??; reflexivity
  | |- keeps _ (alloc _ _) => apply keeps_alloc; intros ??; reflexivity
  | |- keeps _ (dealloc _) => apply keeps_dealloc; intros ??; reflexivity
  | |- keeps _ (zoom _) => first [apply keeps_fde | apply keeps_zoom; intros ??; reflexivity]
  | |- keeps _ (match ?x with _ => _ end) => destruct x
  | |- keeps _ (let '(_, _) := ?x in _) => destruct x
  end.

Ltac keep := repeat first [solve [eauto with keep] | keep_step].

(** ** fdevent.c touches none of the shared data *)

Section fdevent.
Context {B : Type} (f : globals -> B).

Lemma keeps_last_used idx n : keeps f (last_used idx n).
Proof. revert n. induction idx; intros n; simpl; unfold table_get; keep. Qed.

Lemma keeps_fd_bit b fd fds : keeps f ((if (b : bool) then FD_SET else FD_CLR) fd fds).
Proof. destruct b; unfold FD_SET, FD_CLR; keep. Qed.
Hint Resolve keeps_last_used keeps_fd_bit : keep.

Lemma keeps_fdevent_update p ev : keeps f (fdevent_update p ev).
Proof. unfold fdevent_update, FD_SET, FD_CLR. keep. Qed.
Hint Resolve keeps_fdevent_update : keep.

Lemma keeps_fdevent_set p ev : keeps f (fdevent_set p ev).
Proof. unfold fdevent_set, fdevent_plist_remove. keep. Qed.
Hint Resolve keeps_fdevent_set : keep.

Lemma keeps_fdevent_add p ev : keeps f (fdevent_add p ev).
Proof. unfold fdevent_add. keep. Qed.

Lemma keeps_fdevent_del p ev : keeps f (fdevent_del p ev).
Proof. unfold fdevent_del. keep. Qed.

Lemma keeps_fdevent_remove p : keeps f (fdevent_remove p).
Proof.
  unfold fdevent_remove, fdevent_plist_remove, fdevent_disconnect, fdevent_unregister, table_get, table_set,
    FD_CLR. keep.
Qed.
Hint Resolve keeps_fdevent_remove : keep.

Lemma keeps_fdevent_install sz p fd fn a : keeps f (fdevent_install sz p fd fn a).
Proof.
  unfold fdevent_install, fdevent_register, fdevent_connect, fdevent_init, table_set. keep.
Qed.
Hint Resolve keeps_fdevent_install : keep.

Lemma keeps_fdevent_create sz fd fn a : keeps f (fdevent_create sz fd fn a).
Proof. unfold fdevent_create. keep. Qed.

Lemma keeps_fdevent_destroy p : keeps f (fdevent_destroy p).
Proof. unfold fdevent_destroy. keep. Qed.
End fdevent.

#[export] Hint Resolve keeps_fdevent_add keeps_fdevent_del keeps_fdevent_remove keeps_fdevent_install
  keeps_fdevent_create keeps_fdevent_destroy : keep.

(** ** Sockets, trackers and processes never change a transport *)

Abbreviation keeps_transports := (keeps transports).

Record calls_keep (c : methods) : Prop := {
  ck_enqueue : forall s p, keeps_transports (call_enqueue c s p);
  ck_ready : forall s, keeps_transports (call_ready c s);
  ck_shutdown : forall s, keeps_transports (call_shutdown c s);
  ck_close : forall s, keeps_transports (call_close c s);
  ck_disconnect : forall f o t, keeps_transports (call_disconnect c f o t);
}.

Lemma kt_get_apacket : keeps_transports get_apacket.
Proof. unfold get_apacket. keep. Qed.

Lemma kt_put_apacket p : keeps_transports (put_apacket p).
Proof. unfold put_apacket, release. keep. Qed.

Lemma kt_send_packet sz p t : keeps_transports (send_packet sz p t).
Proof. unfold send_packet, release. keep. Qed.

Lemma kt_remove_disconnect t d : keeps_transports (remove_transport_disconnect t d).
Proof. unfold remove_transport_disconnect. keep. Qed.

Lemma kt_add_disconnect t d : keeps_transports (add_transport_disconnect t d).
Proof. unfold add_transport_disconnect, lock_transports, unlock_transports. keep. Qed.

Lemma kt_remove_socket s : keeps_transports (remove_socket s).
Proof. unfold remove_socket. keep. Qed.

Lemma kt_free_asocket s : keeps_transports (free_asocket s).
Proof. unfold free_asocket, free_fde. keep. Qed.

Lemma kt_install_local_socket s : keeps_transports (install_local_socket s).
Proof. unfold install_local_socket, lock_sockets, unlock_sockets, insert_local_socket. keep. Qed.

Lemma kt_new_asocket n : keeps_transports (new_asocket n).
Proof. unfold new_asocket, calloc, embed_fde. keep. Qed.

Lemma kt_find_local_socket a b : keeps_transports (find_local_socket a b).
Proof. unfold find_local_socket, lock_sockets, unlock_sockets. keep. Qed.

Lemma kt_packet_bytes p : keeps_transports (packet_bytes p).
Proof. unfold packet_bytes. keep. Qed.

#[export] Hint Resolve kt_get_apacket kt_put_apacket kt_send_packet kt_remove_disconnect kt_add_disconnect
  kt_remove_socket kt_free_asocket kt_install_local_socket kt_new_asocket kt_find_local_socket
  kt_packet_bytes : keep.

Lemma kt_list m : keeps_transports (jdwp_process_list m).
Proof.
  unfold jdwp_process_list. keep. generalize (@nil Z). generalize (jp_next a).
  induction a0; intros q acc; simpl; keep.
Qed.
#[export] Hint Resolve kt_list : keep.

Lemma kt_list_msg n : keeps_transports (jdwp_process_list_msg n).
Proof. unfold jdwp_process_list_msg. keep. Qed.
#[export] Hint Resolve kt_list_msg : keep.

Section calls.
Context (c : methods) (Hc : calls_keep c).

Lemma kt_call_enqueue s p : keeps_transports (call_enqueue c s p).
Proof. apply Hc. Qed.

Lemma kt_call_ready s : keeps_transports (call_ready c s).
Proof. apply Hc. Qed.

Lemma kt_call_shutdown s : keeps_transports (call_shutdown c s).
Proof. apply Hc. Qed.

Lemma kt_call_close s : keeps_transports (call_close c s).
Proof. apply Hc. Qed.
Hint Resolve kt_call_enqueue kt_call_ready kt_call_shutdown kt_call_close : keep.

Lemma kt_destroy s : keeps_transports (local_socket_destroy s).
Proof. unfold local_socket_destroy. keep. Qed.
Hint Resolve kt_destroy : keep.

Lemma kt_close_locked n s : keeps_transports (close_locked c n s).
Proof. revert s. induction n; intros s; simpl; unfold insert_local_socket; keep. Qed.
Hint Resolve kt_close_locked : keep.

Lemma kt_local_enqueue s p : keeps_transports (local_socket_enqueue c s p).
Proof. unfold local_socket_enqueue, enqueue_tail, enqueue_write. keep. Qed.

Lemma kt_local_close s : keeps_transports (local_socket_close c s).
Proof. unfold local_socket_close, local_socket_close_locked, lock_sockets, unlock_sockets. keep. Qed.

Lemma kt_close_notify s : keeps_transports (local_socket_close_notify c s).
Proof. unfold local_socket_close_notify. keep. Qed.

Lemma kt_ready_notify s : keeps_transports (local_socket_ready_notify c s).
Proof. unfold local_socket_ready_notify. keep. Qed.

Lemma kt_remote_close s : keeps_transports (remote_socket_close c s).
Proof. unfold remote_socket_close. keep. Qed.

Lemma kt_jdwp_close s : keeps_transports (jdwp_socket_close c s).
Proof. unfold jdwp_socket_close. keep. Qed.

Lemma kt_jdwp_ready s : keeps_transports (jdwp_socket_ready c s).
Proof. unfold jdwp_socket_ready, get_pass. keep. Qed.

Lemma kt_tracker_close s : keeps_transports (jdwp_tracker_close c s).
Proof. unfold jdwp_tracker_close. keep. Qed.

Lemma kt_tracker_ready s : keeps_transports (jdwp_tracker_ready c s).
Proof. unfold jdwp_tracker_ready. keep. Qed.
End calls.

(** Reading a link changes nothing. *)
Lemma keeps_load_next p : keeps_transports (zoom (load_next (T := atransport) p)).
Proof.
  intros s. unfold zoom, load_next, load, must, mbind, M_bind. simpl.
  by destruct (transports (rest s) !! p).
Qed.

Lemma kt_search_list n ttype serial t a : keeps_transports (search_list n ttype serial t a).
Proof.
  revert t a. induction n as [|n IH]; intros t a; simpl; keep.
Qed.

Lemma kt_acquire state ttype serial : keeps_transports (acquire_one_transport state ttype serial).
Proof.
  unfold acquire_one_transport, acquire_round, lock_transports, unlock_transports. keep.
  - apply keeps_load_next.
  - apply kt_search_list.
Qed.
#[export] Hint Resolve kt_acquire : keep.

Lemma kt_connect_to_remote sz s d : keeps_transports (connect_to_remote sz s d).
Proof. unfold connect_to_remote. keep. Qed.
#[export] Hint Resolve kt_connect_to_remote : keep.

Lemma kt_smart_enqueue c sz s p : calls_keep c -> keeps_transports (smart_socket_enqueue sz c None s p).
Proof.
  intros []. unfold smart_socket_enqueue, gather, serve_request, connect_request, packet_data.
  assert (H : forall s, keeps_transports (fail_request c s)) by (intros ?; unfold fail_request; keep). keep.
Qed.

Lemma kt_smart_close c s : calls_keep c -> keeps_transports (smart_socket_close c s).
Proof. intros []. unfold smart_socket_close. keep. Qed.

Lemma kt_listener_disconnect l t : keeps_transports (listener_disconnect l t).
Proof. unfold listener_disconnect, free_listener, free_fde. keep. Qed.
#[export] Hint Resolve kt_smart_enqueue kt_smart_close kt_listener_disconnect : keep.

#[export] Hint Resolve kt_local_enqueue kt_local_close kt_close_notify kt_ready_notify kt_remote_close
  kt_jdwp_close kt_jdwp_ready kt_tracker_close kt_tracker_ready : keep.

Lemma calls_keep_dispatch sz n : calls_keep (dispatch sz n).
Proof.
  induction n as [|n IH]; [split; intros; simpl; keep|]. destruct IH as [IHe IHr IHs IHc IHd].
  assert (Hc : calls_keep (dispatch sz n)) by done.
  split; intros; simpl.
  - unfold remote_socket_enqueue, jdwp_socket_enqueue, jdwp_tracker_enqueue. keep.
  - unfold local_socket_ready, remote_socket_ready. keep.
  - unfold remote_socket_shutdown. keep.
  - keep.
  - unfold remote_socket_disconnect, usb_disconnected. keep.
Qed.
