(* ===== verification/AuthSpec.v ===== *)
(** * Correctness of the authentication

    What a successful verification means, and that with authentication on a
    transport comes online in no other way. *)

From S2P Require Import Prelude Effects DList Os Sysdeps Wire Globals Fdevent Transport Sockets Jdwp Auth Protocol Frame.

(** ** Verification *)

Section verify.
Context (b64_pton : bytes -> Z -> option bytes) (RSA_verify : bytes -> bytes -> bytes -> Z).

(** *** The calls that read the key files

    The size of an [adb_public_key], which a line is allotted. *)
Definition key_size : Z := 24 + sizeof_RSAPublicKey + 4.

(** A line of the open file [f], for which memory was found. *)
Definition line_calls (f : Z) (line : bytes) : list event :=
  [ev (Fgets f MAX_PAYLOAD) (Ok (Some line)); ev (Malloc key_size) (Ok tt)].

(** [f] was read to its end (or to an error of [fgets]), or up to a line for
    which there was no memory. *)
Definition lines_end (f : Z) (h : list event) : Prop :=
  h = [ev (Fgets f MAX_PAYLOAD) (Ok None)] \/ (exists e, h = [ev (Fgets f MAX_PAYLOAD) (Err e)]) \/
  exists line e, h = [ev (Fgets f MAX_PAYLOAD) (Ok (Some line)); ev (Malloc key_size) (Err e)].

(** The calls [h] made for the key file [path], and the lines read from it: it
    does not exist, it cannot be opened, or it is read and closed. *)
Definition file_calls (path : bytes) (lines : list bytes) (h : list event) : Prop :=
  (lines = [] /\ exists e, h = [ev (Stat path) (Err e)]) \/
  (lines = [] /\ exists st e, h = [ev (Stat path) (Ok st); ev (Fopen path) (Err e)]) \/
  exists st f tail c, lines_end f tail /\
    h = [ev (Stat path) (Ok st); ev (Fopen path) (Ok f)] ++ ((lines ≫= line_calls f) ++ tail) ++ [ev (Fclose f) c].

(** The files of [paths], one after the other, and nothing else. *)
Fixpoint files_calls (paths : list bytes) (lines : list bytes) (h : list event) : Prop :=
  match paths with
  | [] => lines = [] /\ h = []
  | path :: paths' => exists l1 h1 l2 h2, lines = l1 ++ l2 /\ h = h1 ++ h2 /\
      file_calls path l1 h1 /\ files_calls paths' l2 h2
  end.

Lemma files_calls_snoc paths path l1 h1 l2 h2 :
  files_calls paths l1 h1 -> file_calls path l2 h2 -> files_calls (paths ++ [path]) (l1 ++ l2) (h1 ++ h2).
Proof.
  revert l1 h1. induction paths as [|q paths IH]; intros l1 h1 H1 H2; simpl in *.
  - destruct H1 as [-> ->]. exists l2, h2, [], []. by rewrite !app_nil_r.
  - destruct H1 as (la & ha & lb & hb & -> & -> & Hq & Hb). exists la, ha, (lb ++ l2), (hb ++ h2).
    rewrite !app_assoc. split_and!; [done|done|done|by apply IH].
Qed.

(** The keys on lines. *)
Definition keys_of (lines : list bytes) : list bytes := omap (parse_key b64_pton) lines.

Lemma keys_of_app l1 l2 : keys_of (l1 ++ l2) = keys_of l1 ++ keys_of l2.
Proof. apply omap_app. Qed.

(** The state while keys are handled: only the world and the keys change. *)
Definition key_state (s : fdstate) (w : world) (h : gmap N adb_public_key) : fdstate :=
  put w (put (set_pubkeys h (rest s)) s).

(** The list at [l] holds the keys [ks] in nodes that [h0] did not have. *)
Definition key_list (h0 h : gmap N adb_public_key) (l : ptr) (ks : list bytes) : Prop :=
  exists xs, dll h l xs /\ Forall2 (fun x k => pk_key <$> h !! x = Some k) xs ks /\
    (forall q, q ∉ l :: xs -> h !! q = h0 !! q) /\ (forall x, x ∈ l :: xs -> h0 !! x = None).

Lemma key_list_ext h0 h h' l ks xs :
  dll h' l xs -> Forall2 (fun x k => pk_key <$> h !! x = Some k) xs ks -> same_payload h h' ->
  (forall q, q ∉ l :: xs -> h' !! q = h0 !! q) -> (forall x, x ∈ l :: xs -> h0 !! x = None) ->
  key_list h0 h' l ks.
Proof.
  intros Hl Hk Hs H1 H2. exists xs. split_and!; [done| |done|done].
  eapply Forall2_impl; [done|]. intros x k (t & Ht & ->)%fmap_Some.
  destruct (same_payload_lookup _ _ _ _ Hs Ht) as (t' & -> & E). simpl.
  f_equal. exact (f_equal pk_key E).
Qed.

(** A new key at the end of the list. *)
Lemma wp_add_key h0 h l ks x k Q X :
  key_list h0 h l ks -> h !! x = None ->
  (forall h', key_list h0 h' l (ks ++ [k]) -> Q tt h') ->
  wp (list_add_tail l x) Q X (<[x := {| pk_next := NULL; pk_prev := NULL; pk_key := k |}]> h).
Proof.
  intros (xs & Hl & Hk & Ho & Hn) Hx HQ.
  assert (Hxl : x ∉ l :: xs).
  { intros Hin. destruct (dll_is_Some _ _ _ _ Hl Hin) as [t Ht]. by rewrite Hx in Ht. }
  assert (Hx0 : h0 !! x = None) by (rewrite <- Ho by done; done).
  eapply wp_list_add_tail.
  - eapply dll_frame; [done|]. intros p Hp. rewrite lookup_insert_ne; [done|]. by intros ->.
  - done.
  - by rewrite lookup_insert_eq.
  - intros h' Hl' Hs Hf. apply HQ.
    eapply (key_list_ext _ (<[x := {| pk_next := NULL; pk_prev := NULL; pk_key := k |}]> h)); [done| |done| |].
    + apply Forall2_app; [|constructor; [by rewrite lookup_insert_eq|constructor]].
      eapply Forall2_impl; [done|]. intros y k' Hyk. rewrite lookup_insert_ne; [done|].
      intros E. subst y. simpl in Hyk. by rewrite Hx in Hyk.
    + intros q Hq. rewrite Hf by set_solver. rewrite lookup_insert_ne by set_solver. apply Ho. set_solver.
    + intros y Hy. destruct (decide (y = x)) as [->|]; [done|]. apply Hn. set_solver.
Qed.

(** What handling keys has done: the calls [new], and the keys of [lines] added. *)
Definition grown (s : fdstate) (h0 : gmap N adb_public_key) (l : ptr) (ks : list bytes) (w : world)
    (lines : list bytes) (new : list event) (s' : fdstate) : Prop :=
  exists w' h', s' = key_state s w' h' /\ steps w new w' /\ key_list h0 h' l (ks ++ keys_of lines).

Definition only_blocked (e : stop) (_ : fdstate) : Prop := e = Blocked.

Lemma grown_refl s h0 l ks w h : key_list h0 h l ks -> grown s h0 l ks w [] [] (key_state s w h).
Proof. intros K. exists w, h. rewrite app_nil_r. split_and!; [done|apply steps_refl|done]. Qed.

(** One key file, from the first line to its end. *)
Lemma wp_read_lines s h0 l f ks w h :
  key_list h0 h l ks ->
  wp (read_lines b64_pton f l)
    (fun _ s' => exists lines tail, lines_end f tail /\ grown s h0 l ks w lines ((lines ≫= line_calls f) ++ tail) s')
    only_blocked (key_state s w h).
Proof.
  intros Hk. unfold read_lines.
  apply (wp_loop (fun _ s' => exists lines, grown s h0 l ks w lines (lines ≫= line_calls f) s')).
  { exists []. by apply grown_refl. }
  intros _ _ (lines & w1 & h1 & -> & S1 & K1). wp_step. sys; [|done].
  intros a w2 S2. simpl in S2. change (put w2 (key_state s w1 h1)) with (key_state s w2 h1).
  assert (Hend : forall tail w3, lines_end f tail -> steps w1 tail w3 -> exists lines tail, lines_end f tail /\
    grown s h0 l ks w lines ((lines ≫= line_calls f) ++ tail) (key_state s w3 h1)).
  { intros tail w3 Ht S3. exists lines, tail. split; [done|]. exists w3, h1. split_and!; [done|by eapply steps_trans|done]. }
  destruct a as [[line|]|e].
  2:{ apply wp_ret. eapply Hend; [by left|done]. }
  2:{ apply wp_ret. eapply Hend; [right; left; by eexists|done]. }
  wp_step. apply wp_calloc; [| |done].
  - intros w3 e S3. rewrite bool_decide_true by done. apply wp_ret.
    apply (Hend [ev (Fgets f MAX_PAYLOAD) (Ok (Some line)); ev (Malloc key_size) (Err e)] w3); [right; right; by exists line, e|].
    by eapply (steps_trans _ [_] _ [_]).
  - intros w3 p S3 Hp Hu. rewrite bool_decide_false by done. wp_step.
    change (put w3 (key_state s w2 h1)) with (key_state s w3 h1).
    assert (Hh : h1 !! p = None) by (apply not_elem_of_dom; unfold used in Hu; simpl in Hu; set_solver).
    pose proof (steps_trans _ _ _ _ _ S2 S3) as S23. pose proof (steps_trans _ _ _ _ _ S1 S23) as S13.
    pose proof (steps_budget_lt _ _ _ S23 ltac:(done)) as Hb.
    assert (Hgo : forall h2, key_list h0 h2 l (ks ++ keys_of (lines ++ [line])) ->
      exists lines, grown s h0 l ks w lines (lines ≫= line_calls f) (key_state s w3 h2)).
    { intros h2 K2. exists (lines ++ [line]), w3, h2. split_and!; [done| |done]. by rewrite bind_app. }
    rewrite keys_of_app in Hgo. unfold keys_of in Hgo at 2. simpl in Hgo.
    apply wp_alloc. destruct (parse_key b64_pton line) as [k|] eqn:Ek; simpl.
    + wp_step. eapply wp_set; [apply lookup_insert_eq|]. simpl. rewrite insert_insert_eq.
      wp_step. wp_step. eapply wp_add_key; [exact K1|done|]. intros h2 K2. apply wp_ret. split; [|exact Hb].
      apply Hgo. by rewrite app_assoc.
    + wp_step. eapply wp_dealloc; [apply lookup_insert_eq|]. simpl. rewrite delete_insert_id by done.
      apply wp_ret. split; [|exact Hb]. apply Hgo. by rewrite app_nil_r.
Qed.

(** A key file that exists. *)
Lemma wp_read_keys s h0 l path st ks w h :
  key_list h0 h l ks ->
  wp (read_keys b64_pton path l)
    (fun _ s' => exists lines new, file_calls path lines (ev (Stat path) (Ok st) :: new) /\ grown s h0 l ks w lines new s')
    only_blocked (key_state s w h).
Proof.
  intros Hk. unfold read_keys. wp_step. sys; [|done]. intros a w1 S1. simpl in S1.
  change (put w1 (key_state s w h)) with (key_state s w1 h). destruct a as [f|e].
  - wp_step. eapply wp_mono; [by apply (wp_read_lines s h0)| |done].
    intros _ _ (lines & tail & Ht & w2 & h2 & -> & S2 & K2). wp_step. sys; [|done].
    intros c w3 S3. simpl in S3. apply wp_ret. eexists lines, _. split.
    { right. right. by exists st, f, tail, c. }
    exists w3, h2. split_and!; [done| |done]. eapply (steps_trans _ [_]); [done|]. by eapply steps_trans.
  - apply wp_ret. exists [], [ev (Fopen path) (Err e)]. split; [right; left; eauto|].
    exists w1, h. split_and!; [done|done|by rewrite app_nil_r].
Qed.

Lemma wp_load_keys s h0 l w k0 :
  h0 !! l = None ->
  wp (load_keys b64_pton l)
    (fun _ s' => exists lines new, files_calls key_paths lines new /\ grown s h0 l [] w lines new s')
    only_blocked (key_state s w (<[l := k0]> h0)).
Proof.
  intros Hl. unfold load_keys. wp_step. wp_step. apply wp_list_init.
  { exists k0. apply lookup_insert_eq. }
  intros h1 D1 F1. apply (wp_for_each _ _ (fun todo s' => exists seen lines new, key_paths = seen ++ todo /\
    files_calls seen lines new /\ grown s h0 l [] w lines new s')).
  - exists [], [], []. split_and!; [done|done|]. apply (grown_refl s h0 l [] w h1).
    exists []. split_and!; [done|constructor| |].
    + intros q Hq. simpl in F1. rewrite F1 by set_solver. rewrite lookup_insert_ne by set_solver. done.
    + intros x Hx. by assert (x = l) as -> by set_solver.
  - intros path xs s1 (seen & lines & new & Ep & Hf & w1 & h1' & -> & S1 & K1). wp_step. sys; [|done].
    intros a w2 S2. simpl in S2. change (put w2 (key_state s w1 h1')) with (key_state s w2 h1').
    assert (Hnext : forall lines2 new2 s2, file_calls path lines2 (ev (Stat path) a :: new2) ->
      grown s h0 l (keys_of lines) w2 lines2 new2 s2 ->
      exists seen lines new, key_paths = seen ++ xs /\ files_calls seen lines new /\ grown s h0 l [] w lines new s2).
    { intros lines2 new2 s2 F2 (w3 & h3 & -> & S3 & K3). exists (seen ++ [path]), (lines ++ lines2), (new ++ ev (Stat path) a :: new2).
      split_and!; [by rewrite Ep, <- app_assoc|by apply files_calls_snoc|]. exists w3, h3. split_and!; [done| |by rewrite keys_of_app].
      eapply steps_trans; [done|]. by eapply (steps_trans _ [_]). }
    destruct a as [st|e].
    + eapply wp_mono; [by apply (wp_read_keys s h0 l path st)| |done]. intros [] s2 (lines2 & new2 & F2 & G2). by eapply Hnext.
    + apply wp_ret. apply (Hnext [] []); [left; eauto|by apply grown_refl].
  - intros s1 (seen & lines & new & Ep & Hf & G). rewrite app_nil_r in Ep. subst seen. eauto.
Qed.

(** The keys are tried in order; the first that verifies decides. *)
Fixpoint verify_keys (token sig : bytes) (ks : list bytes) : Z :=
  match ks with
  | [] => 0
  | k :: ks' => let r := RSA_verify k sig token in if r =? 0 then verify_keys token sig ks' else r
  end.

Lemma wp_verify_with s h0 h l ks w token sig Q X :
  key_list h0 h l ks -> Q (verify_keys token sig ks) (key_state s w h) ->
  wp (verify_with RSA_verify l token sig) Q X (key_state s w h).
Proof.
  intros (xs & Hl & Hk & _) HQ. unfold verify_with. wp_step.
  apply (wp_list_scan (fun _ todo s' => s' = key_state s w h /\
    exists kt, Forall2 (fun x k => pk_key <$> h !! x = Some k) todo kt /\
      verify_keys token sig kt = verify_keys token sig ks) _ _ xs); [done|by eauto| |].
  - intros seen x todo s' Hd [-> (kt & HF & E)]. inversion HF as [|x' k todo' kt' Hx HF']; subst.
    apply fmap_Some in Hx as (t & Ht & ->). wp_step. eapply wp_get; [exact Ht|]. apply wp_ret.
    simpl in E. destruct (Z.eqb_spec (RSA_verify (pk_key t) sig token) 0) as [E0|Hne].
    + split; [done|]. split; [done|]. by exists kt'.
    + apply wp_ret. simpl. by rewrite E.
  - intros s' _ [-> (kt & HF & E)]. inversion HF; subst. apply wp_ret. simpl in *. by rewrite E.
Qed.

Lemma wp_free_keys s h0 h l ks w n Q X :
  key_list h0 h l ks -> (length ks <= n)%nat ->
  (forall h', is_Some (h' !! l) -> (forall q, q <> l -> h' !! q = h0 !! q) -> Q tt (key_state s w h')) ->
  wp (free_keys_fuel n l) Q X (key_state s w h).
Proof.
  revert h ks. induction n as [|n IH]; intros h ks (xs & Hl & Hk & Ho & Hn) Hlen HQ;
    pose proof (Forall2_length _ _ _ Hk) as El.
  - destruct ks, xs; simpl in *; try lia. unfold list_empty. wp_step. wp_step. wp_step.
    apply wp_load_next with (q := l); [by apply (dll_next _ _ _ Hl)|]. apply wp_ret.
    rewrite bool_decide_true by done. apply wp_ret. apply (HQ h).
    + eapply dll_is_Some; [done|set_solver].
    + intros q Hq. apply Ho. set_solver.
  - simpl. unfold list_empty. wp_step. wp_step. wp_step.
    apply wp_load_next with (q := List.hd l xs); [by apply (dll_next _ _ _ Hl)|]. apply wp_ret.
    destruct xs as [|x xs].
    { simpl. rewrite bool_decide_true by done. apply wp_ret. apply (HQ h).
      + eapply dll_is_Some; [done|set_solver].
      + intros q Hq. apply Ho. set_solver. }
    destruct (dll_links _ _ [] _ _ Hl) as (_ & _ & _ & _ & Hxl & Hx). simpl in Hx |- *.
    rewrite bool_decide_false by done. wp_step. wp_step.
    apply wp_load_next with (q := x); [by apply (dll_next _ _ _ Hl)|]. wp_step. wp_step.
    apply (wp_list_remove l x [] xs); [exact Hl|]. intros h1 D1 S1 E1 F1.
    inversion Hk as [|? k ? ks' Hxk Hk']; subst.
    assert (Hx1 : is_Some (h1 !! x)) by (rewrite E1; eapply dll_is_Some; [exact Hl|set_solver]).
    destruct Hx1 as [t1 Ht1]. wp_step. eapply wp_dealloc; [exact Ht1|].
    apply (IH (base.delete x h1) ks'); [|simpl in Hlen; lia|done].
    assert (Hd1 : dll (base.delete x h1) l xs).
    { eapply dll_frame; [exact D1|]. intros p Hp. apply lookup_delete_ne.
      intros ->. apply Hxl. simpl in Hx. set_solver. }
    exists xs. split_and!; [done| | |].
    + eapply Forall2_impl_elem; [exact Hk'|]. intros y k' Hy (t & Ht & ->)%fmap_Some.
      rewrite lookup_delete_ne by (intros ->; set_solver).
      destruct (same_payload_lookup _ _ _ _ S1 Ht) as (t' & -> & E). simpl. f_equal.
      exact (f_equal pk_key E).
    + intros q Hq. destruct (decide (q = x)) as [->|Hne].
      * rewrite lookup_delete_eq. symmetry. apply Hn. set_solver.
      * rewrite lookup_delete_ne by done. rewrite F1 by set_solver. apply Ho. set_solver.
    + intros y Hy. apply Hn. set_solver.
Qed.

(** [adb_auth_verify] as a whole: only the world moves on, every key is freed
    again, and the result is that of the keys the files held. *)
Lemma wp_adb_auth_verify token sig siglen s :
  wp (adb_auth_verify b64_pton RSA_verify token sig siglen)
    (fun ret s' => exists w' new, s' = put w' s /\ steps (fd_world s) new w' /\
       if siglen =? RSANUMBYTES
       then exists lines, files_calls key_paths lines new /\ ret = verify_keys token sig (keys_of lines)
       else new = [] /\ ret = 0)
    only_blocked s.
Proof.
  unfold adb_auth_verify. destruct (siglen =? RSANUMBYTES).
  2:{ apply wp_ret. exists (fd_world s), []. split_and!; [by destruct s|apply steps_refl|done..]. }
  simpl. wp_step. apply wp_global. set (l := fresh (used (rest s))).
  assert (Hl : pubkeys (rest s) !! l = None).
  { apply not_elem_of_dom. intros H. apply (is_fresh (used (rest s))). unfold used. set_solver. }
  wp_step. apply wp_alloc.
  match goal with |- wp _ _ _ ?st =>
    change st with (key_state s (fd_world s) (<[l := {| pk_next := NULL; pk_prev := NULL; pk_key := [] |}]>
      (pubkeys (rest s)))) end.
  wp_step. eapply wp_mono; [by apply (wp_load_keys s (pubkeys (rest s)))| |done].
  intros [] _ (lines & n1 & L1 & w1 & h1 & -> & S1 & K1). simpl in K1.
  wp_step. eapply wp_verify_with; [exact K1|]. wp_step. unfold free_keys. wp_step. apply wp_global.
  eapply wp_free_keys; [exact K1| |].
  { destruct K1 as (xs & D & F & _). rewrite <- (Forall2_length _ _ _ F).
    pose proof (dll_length _ _ _ D). simpl. lia. }
  intros h2 [t Ht] H2. wp_step. eapply wp_dealloc; [exact Ht|]. apply wp_ret.
  exists w1, n1. split_and!; [|done|by exists lines].
  assert (E : base.delete l h2 = pubkeys (rest s)).
  { apply map_eq. intros q. destruct (decide (q = l)) as [->|Hne].
    - by rewrite lookup_delete_eq.
    - rewrite lookup_delete_ne by done. by apply H2. }
  simpl. unfold key_state. simpl. rewrite E. by destruct s as [? ? ? ? ? ? ? ? ? []].
Qed.
End verify.

(** ** Coming online *)

Definition online (g : globals) (t : ptr) : bool :=
  match transports g !! t with Some tr => negb (at_online tr =? 0) | None => false end.

(** A function that does not bring the transport [u] online. *)
Definition no_rise {A} (u : ptr) (m : F A) : Prop :=
  forall s, online (rest (m s).2) u = true -> online (rest s) u = true.

Lemma no_rise_keeps {A} u (m : F A) : keeps_transports m -> no_rise u m.
Proof. intros H s. unfold online. by rewrite H. Qed.

Lemma no_rise_bind {A C} u (m : F A) (k : A -> F C) :
  no_rise u m -> (forall a, no_rise u (k a)) -> no_rise u (m ≫= k).
Proof.
  intros Hm Hk s. specialize (Hm s). unfold mbind, M_bind. destruct (m s) as [[a|e] s']; [|done].
  intros H. by apply Hm, (Hk a).
Qed.

Lemma no_rise_set u t f :
  u <> t \/ (forall tr, at_online (f tr) = at_online tr \/ at_online (f tr) = 0) ->
  no_rise u (set (T := atransport) t f).
Proof.
  intros Hf s. unfold set, get, must, mbind, M_bind, update, modify. simpl.
  destruct (transports (rest s) !! t) as [tr|] eqn:E; [|done]. unfold online. simpl.
  destruct (decide (u = t)) as [->|Hne]; [|by rewrite lookup_insert_ne].
  destruct Hf as [|Hf]; [done|]. rewrite lookup_insert_eq, E. by destruct (Hf tr) as [-> | ->].
Qed.

Lemma no_rise_ret {A} u (a : A) : no_rise u (mret a).
Proof. by intros s H. Qed.

Create HintDb rise.

Section gate.
Context (sizeof_ptr : Z) (b64_pton : bytes -> Z -> option bytes)
        (RSA_verify : bytes -> bytes -> bytes -> Z) (banner : bytes) (service_to_fd : bytes -> F Z).

(** Opening a service does not touch the transports. *)
Hypothesis service_keeps : forall name, keeps_transports (service_to_fd name).

Lemma kt_verify token sig n : keeps_transports (adb_auth_verify b64_pton RSA_verify token sig n).
Proof.
  assert (Hf : forall n l, keeps_transports (free_keys_fuel n l)).
  { intros m. induction m; intros l; simpl; keep. }
  unfold adb_auth_verify, load_keys, read_keys, read_lines, calloc, verify_with, free_keys. keep.
Qed.
Hint Resolve kt_verify service_keeps : keep.

Lemma kt_create_service name :
  keeps_transports (create_local_service_socket sizeof_ptr service_to_fd name).
Proof.
  unfold create_local_service_socket, create_jdwp_service_socket, create_jdwp_tracker_service_socket,
    create_local_socket. keep.
Qed.

Lemma kt_create_remote id t : keeps_transports (create_remote_socket id t).
Proof. unfold create_remote_socket. keep. Qed.

Lemma kt_send_connect t : keeps_transports (send_connect sizeof_ptr banner t).
Proof. unfold send_connect, fill_connect_data. keep. Qed.

Lemma kt_confirm_key key n t : keeps_transports (adb_auth_confirm_key sizeof_ptr key n t).
Proof. unfold adb_auth_confirm_key. keep. Qed.

Lemma kt_run_disconnects call t :
  (forall f o u, keeps_transports (call f o u)) -> keeps_transports (run_transport_disconnects call t).
Proof.
  intros Hc. unfold run_transport_disconnects. keep. generalize a0. revert a1.
  induction a1; intros d; simpl; keep.
Qed.

Lemma calls_keep_calls : calls_keep (calls sizeof_ptr).
Proof. apply calls_keep_dispatch. Qed.
Hint Resolve kt_create_service kt_create_remote kt_send_connect kt_confirm_key calls_keep_calls : keep.
Hint Resolve kt_call_enqueue kt_call_ready kt_call_shutdown kt_call_close : keep.
Hint Extern 1 (keeps_transports (run_transport_disconnects _ _)) =>
  apply kt_run_disconnects; apply calls_keep_calls : keep.

Lemma set_quals_online l tr : at_online (foldl set_qual tr l) = at_online tr.
Proof.
  revert tr. induction l as [|x l IH]; intros tr; [done|]. simpl. rewrite IH. unfold set_qual.
  destruct (split_at_char _ _) as [[k v]|]; [|done]. by repeat destruct (bool_decide _).
Qed.

(** Follow the program down to the writes to a transport. *)
Ltac rise_step :=
  first
  [ solve [eauto with rise]
  | solve [apply no_rise_keeps; keep]
  | lazymatch goal with
    | |- no_rise _ (_ ≫= _) => apply no_rise_bind; [|intros ?]
    | |- no_rise _ (set _ _) => apply no_rise_set;
        first [by left | right; intros ?; first [left; reflexivity | right; reflexivity]]
    | |- no_rise _ (match ?x with _ => _ end) => destruct x
    end ].

Lemma no_rise_request u t : no_rise u (send_auth_request sizeof_ptr t).
Proof. unfold send_auth_request, adb_auth_generate_token. repeat rise_step. Qed.

Lemma no_rise_offline u t : no_rise u (handle_offline sizeof_ptr t).
Proof. unfold handle_offline. repeat rise_step. Qed.

Lemma no_rise_banner u d t : no_rise u (parse_banner d t).
Proof.
  unfold parse_banner. destruct (bool_decide _); [|by apply no_rise_keeps; keep].
  apply no_rise_set. right. intros tr. left. unfold banner_transport.
  destruct (split_at_char _ _) as [[ty rst]|]; [destruct (split_at_char _ rst) as [[? pr]|]|]; simpl; try done.
  apply set_quals_online.
Qed.
Hint Resolve no_rise_request no_rise_offline no_rise_banner : rise.

(** The signature branch: what brings a transport online there. *)
Lemma signature_rise p t s u :
  arg0 (msg (p_body p)) = ADB_AUTH_SIGNATURE ->
  online (rest (handle_auth sizeof_ptr b64_pton RSA_verify banner p t s).2) u = true ->
  online (rest s) u = false ->
  exists tr (ret : Z) (s1 : fdstate), transports (rest s) !! t = Some tr /\ u = t /\ ret <> 0 /\
    (adb_auth_verify b64_pton RSA_verify (at_token tr) (data (p_body p)) (data_length (msg (p_body p))) s =
     (Done ret, s1)) /\
    handle_auth sizeof_ptr b64_pton RSA_verify banner p t s =
      (adb_auth_verified sizeof_ptr banner t;; set (T := atransport) t (set_failed_auth_attempts 0)) s1.
Proof.
  intros E. unfold handle_auth. rewrite E. simpl.
  unfold mbind at 1, M_bind at 1, get at 1, must at 1. simpl.
  destruct (transports (rest s) !! t) as [tr|] eqn:Et; [|simpl; congruence].
  pose proof (kt_verify (at_token tr) (data (p_body p)) (data_length (msg (p_body p))) s) as Hk.
  unfold mbind at 1, M_bind at 1.
  destruct (adb_auth_verify _ _ _ _ _ s) as [[ret|e] s1] eqn:Ev; simpl in Hk;
    [|unfold online; simpl; rewrite Hk; congruence].
  assert (Ho : forall v, online (rest s1) v = online (rest s) v) by (intros v; unfold online; by rewrite Hk).
  destruct (Z.eqb_spec ret 0) as [->|Hne]; simpl.
  - intros H Hs. exfalso. rewrite <- (Ho u) in Hs. revert H.
    match goal with |- online (rest (?m s1).2) u = true -> _ => assert (Hr : no_rise u m) end.
    { repeat rise_step. }
    intros H. specialize (Hr s1 H). congruence.
  - intros H Hs. exists tr, ret, s1. split_and!; [done| |done|done|].
    2:{ rewrite (bind_done _ _ s tr s) by (unfold get, must; simpl; by rewrite Et). rewrite (bind_done _ _ _ _ _ Ev).
        by rewrite (proj2 (Z.eqb_neq ret 0)) by done. }
    destruct (decide (u = t)) as [->|Hut]; [done|exfalso]. rewrite <- (Ho u) in Hs. revert H.
    match goal with |- online (rest (?m s1).2) u = true -> _ => assert (Hr : no_rise u m) end.
    { unfold adb_auth_verified, handle_online. repeat rise_step. }
    intros H. specialize (Hr s1 H). congruence.
Qed.

(** With authentication on, every other packet leaves the transports offline. *)
Lemma no_rise_packet p t u :
  ~ (command (msg (p_body p)) = A_AUTH /\ arg0 (msg (p_body p)) = ADB_AUTH_SIGNATURE) ->
  no_rise u (handle_packet sizeof_ptr b64_pton RSA_verify banner service_to_fd true p t).
Proof.
  intros Hn. unfold handle_packet, handle_sync, handle_wrte, handle_cnxn, handle_open, handle_okay,
    handle_clse, send_ready, send_close, open_name. cbn [negb].
  assert (Ha : command (msg (p_body p)) =? A_AUTH = true ->
    no_rise u (handle_auth sizeof_ptr b64_pton RSA_verify banner p t)).
  { intros Hc%Z.eqb_eq. unfold handle_auth, send_auth_publickey.
    destruct (Z.eqb_spec (arg0 (msg (p_body p))) ADB_AUTH_SIGNATURE); [tauto|]. repeat rise_step. }
  destruct (command (msg (p_body p)) =? A_AUTH) eqn:E; repeat rise_step.
  all: by apply Ha.
Qed.
End gate.

(** The keys that let a signature through. *)
Lemma verify_keys_nonzero RSA_verify token sig ks :
  verify_keys RSA_verify token sig ks <> 0 <-> exists k, k ∈ ks /\ RSA_verify k sig token <> 0.
Proof.
  induction ks as [|k ks IH]; simpl; [split; [done|by intros (k & ?%elem_of_nil & _)]|].
  destruct (Z.eqb_spec (RSA_verify k sig token) 0) as [E|Hne].
  - rewrite IH. split; intros (k' & Hk & ?); exists k'.
    + split; [by right|done].
    + apply elem_of_cons in Hk as [->|]; done.
  - split; [|done]. intros _. exists k. split; [left|done].
Qed.

(** Only a signature under a key of the key files brings a transport online,
    whatever the services are, as long as opening one leaves the transports
    alone. *)
Lemma online_rise_signed sizeof_ptr b64_pton RSA_verify banner service_to_fd p t s u :
  (forall name, keeps_transports (service_to_fd name)) ->
  let s' := (handle_packet sizeof_ptr b64_pton RSA_verify banner service_to_fd true p t s).2 in
  online (rest s) u = false -> online (rest s') u = true ->
  u = t /\ command (msg (p_body p)) = A_AUTH /\ arg0 (msg (p_body p)) = ADB_AUTH_SIGNATURE /\
  data_length (msg (p_body p)) = RSANUMBYTES /\
  exists tr w1 new lines k, transports (rest s) !! t = Some tr /\
    steps (fd_world s) new w1 /\ files_calls key_paths lines new /\
    handle_packet sizeof_ptr b64_pton RSA_verify banner service_to_fd true p t s =
      ((adb_auth_verified sizeof_ptr banner t;; set (T := atransport) t (set_failed_auth_attempts 0));;
       put_apacket p) (put w1 s) /\
    k ∈ keys_of b64_pton lines /\ RSA_verify k (data (p_body p)) (at_token tr) <> 0.
Proof.
  intros Hs s' Ho Ho'. unfold s' in Ho'.
  destruct (decide (command (msg (p_body p)) = A_AUTH /\ arg0 (msg (p_body p)) = ADB_AUTH_SIGNATURE))
    as [[Hc Ha]|Hn]; [|pose proof (no_rise_packet sizeof_ptr b64_pton RSA_verify banner _ Hs p t u Hn s Ho');
      congruence].
  assert (Hrun : handle_packet sizeof_ptr b64_pton RSA_verify banner service_to_fd true p t s =
    (handle_auth sizeof_ptr b64_pton RSA_verify banner p t;; put_apacket p) s).
  { unfold handle_packet. by rewrite Hc. }
  assert (Hh : online (rest (handle_auth sizeof_ptr b64_pton RSA_verify banner p t s).2) u = true).
  { rewrite Hrun in Ho'. revert Ho'.
    unfold mbind, M_bind. destruct (handle_auth _ _ _ _ _ _ s) as [[[]|e] s1]; [|done]. simpl.
    unfold online. by rewrite (kt_put_apacket p s1). }
  destruct (signature_rise _ _ _ _ _ _ _ _ Ha Hh Ho) as (tr & ret & s1 & Ht & -> & Hr & Hv & Hauth).
  pose proof (wp_adb_auth_verify b64_pton RSA_verify (at_token tr) (data (p_body p))
    (data_length (msg (p_body p))) s) as W. unfold wp in W. rewrite Hv in W.
  destruct W as (w1 & new & -> & S & W). destruct (Z.eqb_spec (data_length (msg (p_body p))) RSANUMBYTES);
    [|by destruct W]. destruct W as (lines & Hf & ->).
  apply verify_keys_nonzero in Hr as (k & Hk & Hv'). split_and!; [done..|].
  exists tr, w1, new, lines, k. split_and!; [done|done|done| |done|done].
  rewrite Hrun. unfold mbind at 1 3, M_bind at 1 3. by rewrite Hauth.
Qed.

(** C14: [adb_auth_verify] stops only to wait for the operating system and leaves
    the whole memory as it was (every key of its list is freed).  A signature of
    another length than 256 bytes it refuses without a call.  Otherwise the calls
    it makes are those that read the two key files, in order, each looked up by its
    path and, if it can be opened, read line by line to its end and closed (or up
    to a line for which there was no memory), and it accepts exactly when one of
    the keys on the lines that were read verifies the signature. *)
Theorem auth_verify_complete b64_pton RSA_verify token sig siglen s :
  match adb_auth_verify b64_pton RSA_verify token sig siglen s with
  | (Done ret, s') =>
      s' = put (fd_world s') s /\
      if siglen =? RSANUMBYTES then exists lines,
        files_calls [str "/adb_keys"; str "/data/misc/adb/adb_keys"] lines (calls_since (fd_world s) (fd_world s')) /\
        (ret <> 0 <-> exists line k, line ∈ lines /\ parse_key b64_pton line = Some k /\ RSA_verify k sig token <> 0)
      else ret = 0 /\ calls_since (fd_world s) (fd_world s') = []
  | (Stop e, _) => e = Blocked
  end.
Proof.
  pose proof (wp_adb_auth_verify b64_pton RSA_verify token sig siglen s) as W. unfold wp in W.
  destruct (adb_auth_verify _ _ _ _ _ s) as [[ret|e] s']; [|done].
  destruct W as (w1 & new & -> & S & W). simpl. rewrite (steps_calls_since _ _ _ S). split; [done|].
  destruct (siglen =? RSANUMBYTES); [|by destruct W]. destruct W as (lines & Hf & ->). exists lines. split; [done|].
  rewrite verify_keys_nonzero. unfold keys_of. split.
  - intros (k & (line & Hl & Hk)%list_elem_of_omap & Hv). eauto.
  - intros (line & k & Hl & Hk & Hv). exists k. split; [|done]. apply list_elem_of_omap. eauto.
Qed.

(** A transport that is not online cannot reach a socket: OPEN, OKAY, CLSE
    and WRTE packets are freed and change nothing else, whatever their
    arguments. *)
Theorem offline_ignores sizeof_ptr b64_pton RSA_verify banner service_to_fd auth p t s tr :
  transports (rest s) !! t = Some tr -> at_online tr = 0 ->
  command (msg (p_body p)) ∈ [A_OPEN; A_OKAY; A_CLSE; A_WRTE] ->
  handle_packet sizeof_ptr b64_pton RSA_verify banner service_to_fd auth p t s = put_apacket p s.
Proof.
  intros Ht Ho Hc. unfold handle_packet. rewrite !elem_of_cons in Hc.
  destruct Hc as [-> |[-> |[-> |[-> |[]%elem_of_nil]]]]; simpl;
    unfold handle_open, handle_okay, handle_clse, handle_wrte, get, must, mbind, M_bind; simpl;
    rewrite Ht; simpl; by rewrite Ho.
Qed.

Lemma confirm_key_keeps_first sizeof_ptr key len t1 t2 s s1 :
  usb_transport (rest s) = t1 -> t1 <> NULL ->
  adb_auth_confirm_key sizeof_ptr key len t2 s = (Done tt, s1) ->
  usb_transport (rest s1) = t1.
Proof.
  intros <- Hn. unfold adb_auth_confirm_key.
  unfold mbind at 1, M_bind at 1, global at 1, gets at 1. rewrite bool_decide_false by done. intros E.
  match type of E with ?m s = _ => assert (K : keeps usb_transport m) by keep end.
  specialize (K s). by rewrite E in K.
Qed.

(** The framework's answer concerns the transport that asked first: while
    one transport waits for a confirmation, a second one's request does not
    replace it, so an "OK" that follows the second request brings the first
    online, whichever key it was given for, and the second stays as it was. *)
Theorem confirmation_hits_first_transport sizeof_ptr banner key len fd t1 t2 s s1 w1 :
  usb_transport (rest s) = t1 -> t1 <> NULL -> t2 <> t1 -> is_Some (transports (rest s1) !! t1) ->
  adb_auth_confirm_key sizeof_ptr key len t2 s = (Done tt, s1) ->
  adb_read fd 2 (fd_world s1) = (Done (Ok (str "OK")), w1) ->
  let s2 := (adb_auth_event sizeof_ptr banner fd FDE_READ s1).2 in
  online (rest s2) t1 = true /\ online (rest s2) t2 = online (rest s1) t2.
Proof.
  intros Hu Hn Hne [tr Ht] Hk Hr. pose proof (confirm_key_keeps_first _ _ _ _ _ _ _ Hu Hn Hk) as Hu1.
  assert (E : adb_auth_event sizeof_ptr banner fd FDE_READ s1 = send_connect sizeof_ptr banner t1
                (put (set_transports (<[t1 := set_online 1 tr]> (transports (rest s1))) (rest s1)) (put w1 s1))).
  { unfold adb_auth_event, mbind, M_bind, os, zoom. simpl. rewrite Hr. simpl. rewrite Hu1.
    rewrite bool_decide_false by done. unfold adb_auth_verified, handle_online, set, get, must, mbind, M_bind.
    simpl. by rewrite Ht. }
  simpl. rewrite E. unfold online. rewrite !(kt_send_connect sizeof_ptr banner t1 _). simpl.
  rewrite lookup_insert_eq, lookup_insert_ne by done. done.
Qed.

(** ** Witnesses *)

Definition auth_transport (head : ptr) (on : Z) : atransport :=
  set_embedded 17%N 7%N head (set_ends 9 10 (set_token (replicate 20 5)
    (set_online on (set_remote local_remote 11 NULL CS_HOST kTransportLocal no_atransport)))).

Definition auth_head (head : ptr) : adisconnect :=
  {| ad_func := remote_socket_disconnect_fn; ad_opaque := NULL; ad_next := head; ad_prev := head |}.

(** Two transports, at 5 and 15, with their list heads at 6 and 16; packets
    with the addresses 1 to 4 are in use. *)
Definition auth_globals (on : Z) : globals :=
  set_live {[1; 2; 3; 4]}
    (set_transports {[5%N := auth_transport 6 on; 15%N := auth_transport 16 on]}
      (set_disconnects (<[6%N := auth_head 6]> (<[16%N := auth_head 16]> (disconnects globals_boot)))
        globals_boot)).

Definition auth_fdevents : gmap N fdevent :=
  {[list_pending := {| fde_next := list_pending; fde_prev := list_pending; fde_fd := 0;
      fde_force_eof := 0; fde_state := 0; fde_events := 0; fde_func := client_func 0; fde_arg := NULL |};
    7%N := blank]}.

Definition auth_state (e : env) (g : globals) : fdstate :=
  {| fde_heap := auth_fdevents; fd_table := []; fd_table_max := 0; read_fds := ∅; write_fds := ∅;
     error_fds := ∅; select_n := 0; SHELL_EXIT_NOTIFY_FD := -1; fd_world := boot e 200; rest := g |}.

Definition auth_pkt (a c a0 a1 : Z) (d : bytes) : pkt :=
  {| p_addr := a; p_len := 0; p_ptr := None;
     p_body := {| msg := {| command := c; arg0 := a0; arg1 := a1;
                            data_length := Z.of_nat (length d); data_check := 0; magic := 0 |};
                  data := d |} |}.

(** Every key file holds one line. *)
Definition key_file_env : env := fun h c =>
  match c return ans c with
  | Fgets _ _ =>
      Ok (match last h with
          | Some (existT (Fgets _ _) _) => None
          | Some (existT (Malloc _) _) => None
          | _ => Some (str "QAAAA host" ++ [10])
          end)
  | c => ok_default c
  end.

Definition demo_b64 (_ : bytes) (_ : Z) : option bytes := Some (le32 64 ++ replicate 520 1).

Definition demo_sig : bytes := replicate 256 3.

Definition demo_rsa (key sig token : bytes) : Z :=
  if bool_decide (sig = demo_sig) && bool_decide (token = replicate 20 5) then 1 else 0.

Lemma auth_verify_complete_witness :
  let s := auth_state key_file_env (auth_globals 0) in
  let run := adb_auth_verify demo_b64 demo_rsa (replicate 20 5) demo_sig 256 s in
  run.1 = Done 1 /\
  exists lines, files_calls [str "/adb_keys"; str "/data/misc/adb/adb_keys"] lines (calls_since (fd_world s) (fd_world run.2)) /\
    (1 <> 0 <-> exists line k, line ∈ lines /\ parse_key demo_b64 line = Some k /\ demo_rsa k demo_sig (replicate 20 5) <> 0).
Proof.
  cbv zeta. pose proof (auth_verify_complete demo_b64 demo_rsa (replicate 20 5) demo_sig 256
    (auth_state key_file_env (auth_globals 0))) as H.
  assert (E : (adb_auth_verify demo_b64 demo_rsa (replicate 20 5) demo_sig 256 (auth_state key_file_env (auth_globals 0))).1 = Done 1)
    by (vm_compute; reflexivity).
  destruct (adb_auth_verify _ _ _ _ _ _) as [[ret|e] s']; [|discriminate E]. injection E as ->. exact (conj eq_refl (proj2 H)).
Defined.

Lemma offline_ignores_witness :
  let s := auth_state (stream_env (fun _ => [])) (auth_globals 0) in
  let p := auth_pkt 1 A_OPEN 77 0 (str "shell:" ++ [0]) in
  handle_packet 4 demo_b64 demo_rsa (str "device") (fun _ => mret 7) false p 5%N s = put_apacket p s.
Proof.
  apply (offline_ignores 4 demo_b64 demo_rsa (str "device") (fun _ => mret 7) false _ 5%N _
           (auth_transport 6 0)).
  - vm_compute. reflexivity.
  - reflexivity.
  - vm_compute. left.
Defined.

(** The framework, on descriptor 20, answers "OK"; transport 5 has asked. *)
Definition confirm_state : fdstate :=
  auth_state (stream_env (fun _ => str "OK"))
    (set_framework_fd 20 (set_usb_transport 5%N (auth_globals 0))).

Lemma confirmation_hits_first_transport_witness :
  let s1 := (adb_auth_confirm_key 4 (str "key2" ++ [0]) 5 15%N confirm_state).2 in
  let s2 := (adb_auth_event 4 (str "device") 20 FDE_READ s1).2 in
  online (rest s2) 5%N = true /\ online (rest s2) 15%N = online (rest s1) 15%N.
Proof.
  eapply (confirmation_hits_first_transport 4 (str "device") (str "key2" ++ [0]) 5 20 5%N 15%N confirm_state
            (adb_auth_confirm_key 4 (str "key2" ++ [0]) 5 15%N confirm_state).2).
  - reflexivity.
  - done.
  - done.
  - vm_compute. by eexists.
  - vm_compute. reflexivity.
  - vm_compute. reflexivity.
Defined.
