(* ===== verification/SocketsSpec.v ===== *)
(** * Correctness of the local sockets

    No byte is lost, duplicated or reordered between a packet and its
    descriptor, and none between the descriptor and the packet; a backlog is
    always being waited for. *)

From S2P Require Import Prelude Effects DList Os Sysdeps Wire Globals Fdevent Transport FdeventFacts FdeventLoop FdeventReg FdeventSpec Sockets Jdwp Auth Protocol Frame.

(** ** Packets and queues as bytes *)

Definition p_off (p : pkt) : Z := default 0 (p_ptr p).

Definition pkt_bytes (p : pkt) : bytes :=
  take (Z.to_nat (p_len p)) (drop (Z.to_nat (p_off p)) (data (p_body p))).

Definition queue_bytes (ps : list pkt) : bytes := ps ≫= pkt_bytes.

(** The bytes from [ptr] to [ptr + len] have been written to [data]. *)
Record wf_pkt (p : pkt) : Prop := {
  wf_len : 0 <= p_len p;
  wf_set : is_Some (p_ptr p);
  wf_ptr : 0 <= p_off p;
  wf_data : p_off p + p_len p <= Z.of_nat (length (data (p_body p)));
}.

Lemma length_pkt_bytes p : wf_pkt p -> Z.of_nat (length (pkt_bytes p)) = p_len p.
Proof. intros [H1 _ H2 H3]. unfold pkt_bytes. rewrite length_take, length_drop. lia. Qed.

Lemma packet_bytes_ok p s : wf_pkt p -> packet_bytes p s = (Done (pkt_bytes p), s).
Proof.
  intros H. pose proof (length_pkt_bytes p H) as E. destruct (wf_set p H) as [o Ho]. unfold packet_bytes.
  unfold pkt_bytes, p_off in *. rewrite Ho in *. simpl in E |- *. by rewrite E, Z.eqb_refl.
Qed.

Lemma wp_packet_bytes p Q X s : wf_pkt p -> Q (pkt_bytes p) s -> wp (packet_bytes p) Q X s.
Proof. intros H HQ. unfold wp. by rewrite packet_bytes_ok. Qed.

Lemma advance_bytes n p : wf_pkt p -> 0 <= n <= p_len p -> pkt_bytes (advance n p) = drop (Z.to_nat n) (pkt_bytes p).
Proof.
  intros [H1 [o Ho] H2 H3] Hn. unfold pkt_bytes, advance, p_off in *. rewrite Ho in *. simpl in *.
  rewrite skipn_firstn_comm, drop_drop, Z2Nat.inj_add, Z2Nat.inj_sub by lia. done.
Qed.

Lemma advance_wf n p : wf_pkt p -> 0 <= n <= p_len p -> wf_pkt (advance n p).
Proof. intros [H1 [o Ho] H2 H3] Hn. unfold p_off in *. rewrite Ho in *. split; unfold p_off; simpl; rewrite ?Ho; simpl in *; [lia|by eexists|lia|lia]. Qed.

Lemma pkt_bytes_nil p : wf_pkt p -> p_len p <= 0 -> pkt_bytes p = [].
Proof. intros H Hl. apply length_zero_iff_nil. pose proof (length_pkt_bytes p H). lia. Qed.

(** ** Facts that concern the shared data only *)

Lemma wp_frame {A B} (f : globals -> B) (m : F A) Q X s :
  keeps f m -> wp m (fun a s' => f (rest s') = f (rest s) -> Q a s') X s -> wp m Q X s.
Proof.
  intros K W. specialize (K s). unfold wp in *. destruct (m s) as [[a|e] s']; [|done]. by apply W.
Qed.

Lemma fd_inv_rest (g : globals) s pend : fd_inv s pend -> fd_inv (put g s) pend.
Proof. intros [H1 H2 H3]. split; [by eapply (fd_ok_ext s)|done|done]. Qed.

(** ** Writing a packet *)

(** A state that differs from [s] only in the world, reached by writing [bs]
    to [fd] and nothing else. *)
Definition wrote (s : fdstate) (fd : Z) (bs : bytes) (s' : fdstate) : Prop :=
  exists w' new, s' = put w' s /\ steps (fd_world s) new w' /\ only (writes fd) new /\ written_to fd new = bs.

Lemma wrote_refl s fd : wrote s fd [] s.
Proof. exists (fd_world s), []. split_and!; [by destruct s|apply steps_refl|apply only_nil|done]. Qed.

Lemma wrote_trans s fd b1 s1 b2 s2 : wrote s fd b1 s1 -> wrote s1 fd b2 s2 -> wrote s fd (b1 ++ b2) s2.
Proof.
  intros (w1 & n1 & -> & S1 & O1 & <-) (w2 & n2 & -> & S2 & O2 & <-).
  exists w2, (n1 ++ n2). split_and!; [done|by eapply steps_trans| |by rewrite written_to_app].
  by apply only_app.
Qed.

Lemma wrote_posix s fd bs s' : wrote s fd bs s' -> posix_state s -> posix_state s'.
Proof. intros (w & n & -> & S & _) H. simpl. by rewrite (steps_env _ _ _ S). Qed.

(** A write to [fd] was refused for good on the way. *)
Definition refused (s : fdstate) (fd : Z) (s' : fdstate) : Prop :=
  exists new, steps (fd_world s) new (fd_world s') /\ write_failed fd new.

Lemma refused_after s fd bs s1 s2 : wrote s fd bs s1 -> refused s1 fd s2 -> refused s fd s2.
Proof.
  intros (w1 & n1 & -> & S1 & _) (n2 & S2 & F). exists (n1 ++ n2). split; [by eapply steps_trans|].
  apply write_failed_app. by right.
Qed.

Lemma ospec_write_traced e fd bs :
  ospec e (adb_write fd bs) (fun a new _ => ev (Write fd bs) a ∈ new) (fun _ _ => True).
Proof. apply (ospec_retry _ (Write fd bs)); [|done]. intros a k _ _. set_solver. Qed.

(** One [adb_write] of the loop. *)
Lemma wp_write_step fd bs Q (X : stop -> fdstate -> Prop) s :
  posix_state s ->
  (forall n s', 0 <= n <= Z.of_nat (length bs) -> wrote s fd (take (Z.to_nat n) bs) s' ->
     (budget s' < budget s)%nat -> (n = 0 -> refused s fd s') -> Q (Ok n) s') ->
  (forall e s', e <> EINTR -> wrote s fd [] s' -> (budget s' < budget s)%nat -> (e <> EAGAIN -> refused s fd s') -> Q (Err e) s') ->
  (forall s', wrote s fd [] s' -> X Blocked s') ->
  wp (os (adb_write fd bs)) Q X s.
Proof.
  intros Hp Hok Herr HX. apply wp_zoom.
  eapply wp_mono; [apply (ospec_conj _ _ _ _ _ _ (ospec_adb_write (w_errno (fd_world s)) fd bs) (ospec_write_traced _ fd bs) (fd_world s)); done| |].
  - intros a w' (new & S & (Ho & Hne & Ha & Hr) & Hin). pose proof (steps_budget_lt _ _ _ S Hne) as Hb.
    destruct a as [n|e]; destruct Hr as [Hw Hn].
    + apply Hok; [done| |done|]; [exists w', new; done|]. intros ->. exists new. split; [done|]. by exists bs, (Ok 0).
    + assert (e <> EINTR) by (by intros ->). apply Herr; [done| |done|]; [exists w', new; done|]. intros He. exists new.
      split; [done|]. by exists bs, (Err e).
  - intros x w' (new & S & (-> & Ho & Hw) & _). apply HX. exists w', new. done.
Qed.

Definition stops_having_written (s : fdstate) (fd : Z) (bs : bytes) (e : stop) (s' : fdstate) : Prop :=
  e = Blocked /\ exists pre post, bs = pre ++ post /\ wrote s fd pre s'.

Lemma wp_enqueue_write fd p s :
  wf_pkt p -> posix_state s ->
  wp (enqueue_write fd p)
    (fun r s' => match r with
       | Some p' => exists pre, pkt_bytes p = pre ++ pkt_bytes p' /\ wrote s fd pre s' /\ wf_pkt p' /\
           p_addr p' = p_addr p
       | None => exists pre post, pkt_bytes p = pre ++ post /\ post <> [] /\ wrote s fd pre s' /\ refused s fd s'
       end)
    (stops_having_written s fd (pkt_bytes p)) s.
Proof.
  intros Hwf Hp. unfold enqueue_write.
  apply (wp_loop (fun p' s' => exists pre, pkt_bytes p = pre ++ pkt_bytes p' /\ wrote s fd pre s' /\ wf_pkt p' /\
           p_addr p' = p_addr p)).
  { exists []. split_and!; [done|apply wrote_refl|done|done]. }
  intros p1 s1 (pre & E & W & Hwf1 & Ea). destruct (Z.leb_spec (p_len p1) 0).
  { apply wp_ret. by exists pre. }
  assert (Hpos : pkt_bytes p1 <> []) by (intros E0; pose proof (length_pkt_bytes p1 Hwf1) as L; rewrite E0 in L; simpl in L; lia).
  wp_step. apply wp_packet_bytes; [done|]. wp_step. apply wp_write_step; [by eapply wrote_posix|..].
  - intros n s2 Hn W2 Hb Hf. rewrite (length_pkt_bytes p1 Hwf1) in Hn.
    pose proof (wrote_trans _ _ _ _ _ _ W W2) as W12.
    destruct (Z.gtb_spec n 0); apply wp_ret.
    + split; [|done]. eexists. split_and!; [|done|by apply advance_wf|done].
      rewrite advance_bytes by done. rewrite E, <- app_assoc. f_equal. by rewrite take_drop.
    + replace n with 0 in * by lia. rewrite app_nil_r in W12. exists pre, (pkt_bytes p1). split_and!; [done..|].
      eapply refused_after; [exact W|by apply Hf].
  - intros e s2 He W2 Hb Hf. pose proof (wrote_trans _ _ _ _ _ _ W W2) as W12. rewrite app_nil_r in W12.
    destruct (Z.eqb_spec e EAGAIN); apply wp_ret; [by exists pre|]. exists pre, (pkt_bytes p1). split_and!; [done..|].
    eapply refused_after; [exact W|by apply Hf].
  - intros s2 W2. split; [done|]. pose proof (wrote_trans _ _ _ _ _ _ W W2) as W12. rewrite app_nil_r in W12.
    by exists pre, (pkt_bytes p1).
Qed.

(** ** Waiting for the rest *)

Lemma wp_watch q f k pend Q X s :
  fd_inv s pend -> fde_heap s !! q = Some f -> 0 <= k < 8 ->
  (forall s' pend', fd_inv s' pend' -> fd_world s' = fd_world s -> rest s' = rest s ->
     (exists f', obj s' q = Some f' /\ has (fde_state f') (2 ^ k) = true) -> Q tt s') ->
  wp (fdevent_add q (2 ^ k)) Q X s.
Proof.
  intros Hi Hq Hk HQ. apply (wp_frame id); [apply keeps_fdevent_add|]. unfold fdevent_add. wp_step.
  eapply wp_deref; [exact Hq|]. pose proof (ok_state s q f (inv_ok _ _ Hi) Hq) as Hst.
  eapply wp_fdevent_set; [exact Hi|exact Hq|]. intros s' Hi' Hf Ho Hr.
  eapply HQ; [exact Hi'|apply Hf|exact Hr|]. specialize (Ho q). rewrite decide_True in Ho by done.
  eexists. split; [exact Ho|]. rewrite <- has_eventmask by done.
  match goal with |- context [set_outcome f ?ev] => destruct (set_outcome_mask f ev Hst) as [E _] end.
  simpl. rewrite E. rewrite has_eventmask, has_lor by done. apply orb_true_iff. right.
  rewrite has_eventmask by done. rewrite has_pow2 by lia. apply Z.pow2_bits_true. lia.
Qed.

(** The method table of an observer: a call ends the run and says so. *)
Definition observe : methods := {|
  call_enqueue _ _ := abort "enqueue";
  call_ready _ := abort "ready";
  call_shutdown _ := abort "shutdown";
  call_close _ := abort "close";
  call_disconnect _ _ _ := abort "disconnect";
|}.

(** The bytes a packet that is handed over holds: [len] bytes from the start of
    [data], wherever [ptr] points. *)
Definition contents (p : pkt) : bytes := take (Z.to_nat (p_len p)) (data (p_body p)).

(** What [local_socket_enqueue] returns with when it has not closed the socket:
    nothing is left, or the rest is queued and waited for. *)
Definition enqueued (k : asocket) (p : pkt) (s : ptr) (st : fdstate) (r : Z) (st' : fdstate) : Prop :=
  exists k', sockets (rest st') !! s = Some k' /\
    queue_bytes (sk_pkts k) ++ contents p =
      written_to (sk_fd k) (calls_since (fd_world st) (fd_world st')) ++ queue_bytes (sk_pkts k') /\
    if r =? 0 then sk_pkts k' = [] /\ live (rest st') = live (rest st) ∖ {[p_addr p]}
    else r = 1 /\ sk_pkts k' <> [] /\ live (rest st') = live (rest st) /\
      exists f', obj st' (sk_fde k) = Some f' /\ has (fde_state f') FDE_WRITE = true.

Lemma wrote_state s fd bs s' :
  wrote s fd bs s' -> exists w', s' = put w' s /\ written_to fd (calls_since (fd_world s) w') = bs.
Proof. intros (w' & new & -> & S & _ & <-). exists w'. by rewrite (steps_calls_since _ _ _ S). Qed.

Lemma wp_enqueue_tail s p k w' pend st Q X :
  fd_inv st pend -> sockets (rest st) !! s = Some k -> is_Some (fde_heap st !! sk_fde k) ->
  (forall st' pend', fd_inv st' pend' -> fd_world st' = w' ->
     rest st' = set_sockets (<[s := set_pkts (sk_pkts k ++ [p]) k]> (sockets (rest st))) (rest st) ->
     (exists f', obj st' (sk_fde k) = Some f' /\ has (fde_state f') FDE_WRITE = true) -> Q 1 st') ->
  wp (enqueue_tail s p) Q X (put w' st).
Proof.
  intros Hi Hk [f Hf] HQ. unfold enqueue_tail. wp_step. eapply wp_set; [exact Hk|].
  set (st1 := put _ (put w' st)).
  assert (Hi1 : fd_inv st1 pend) by (by apply fd_inv_rest, fd_inv_world).
  wp_step. eapply wp_get; [apply lookup_insert_eq|]. simpl. wp_step.
  apply (wp_watch (sk_fde k) f 1 pend); [exact Hi1|exact Hf|lia|].
  intros st' pend' Hi' Hw Hr Hf'. apply wp_ret. by eapply HQ.
Qed.

Lemma enqueue_tail_ok s p k w' pend st :
  fd_inv st pend -> sockets (rest st) !! s = Some k -> is_Some (fde_heap st !! sk_fde k) ->
  exists st', enqueue_tail s p (put w' st) = (Done 1, st') /\ fd_world st' = w' /\
    rest st' = set_sockets (<[s := set_pkts (sk_pkts k ++ [p]) k]> (sockets (rest st))) (rest st) /\
    exists f', obj st' (sk_fde k) = Some f' /\ has (fde_state f') FDE_WRITE = true.
Proof.
  intros Hi Hk Hf.
  assert (W : wp (enqueue_tail s p) (fun r st' => r = 1 /\ fd_world st' = w' /\
      rest st' = set_sockets (<[s := set_pkts (sk_pkts k ++ [p]) k]> (sockets (rest st))) (rest st) /\
      exists f', obj st' (sk_fde k) = Some f' /\ has (fde_state f') FDE_WRITE = true) (fun _ _ => False) (put w' st)).
  { eapply (wp_enqueue_tail s p k w' pend); [done..|]. auto. }
  unfold wp in W. destruct (enqueue_tail s p (put w' st)) as [[r|e] st']; [|done]. destruct W as (-> & H). by exists st'.
Qed.

(** How [local_socket_enqueue] can go, whatever the method [close] of the socket
    does: it returns; or a write was refused for good, and the run is that of
    [close] and then returning 1; or it waits. *)
Definition enqueue_outcome (call : methods) (k : asocket) (p : pkt) (s : ptr) (st : fdstate) : Prop :=
  (exists r st', local_socket_enqueue call s p st = (Done r, st') /\ enqueued k p s st r st') \/
  (exists st1 pre post, local_socket_enqueue call s p st = (call_close call s;; mret 1) st1 /\ sk_pkts k = [] /\
     contents p = pre ++ post /\ post <> [] /\ wrote st (sk_fd k) pre st1 /\ refused st (sk_fd k) st1) \/
  (exists st' pre post, local_socket_enqueue call s p st = (Stop Blocked, st') /\ sk_pkts k = [] /\
     contents p = pre ++ post /\ wrote st (sk_fd k) pre st').

(** The packet with [ptr] at the start of [data]. *)
Lemma wf_reset p : 0 <= p_len p <= Z.of_nat (length (data (p_body p))) ->
  wf_pkt (set_pptr 0 p) /\ pkt_bytes (set_pptr 0 p) = contents p.
Proof. intros H. split; [split; simpl; unfold p_off; simpl; [lia|by eexists|lia|lia]|done]. Qed.

Lemma wp_outcome {A} (m : F A) Q X st : wp m Q X st ->
  (exists a st', m st = (Done a, st') /\ Q a st') \/ (exists e st', m st = (Stop e, st') /\ X e st').
Proof. unfold wp. destruct (m st) as [[a|e] st']; eauto. Qed.

Lemma put_apacket_ok p st : p_addr p ∈ live (rest st) ->
  put_apacket p st = (Done tt, put (set_live (live (rest st) ∖ {[p_addr p]}) (rest st)) st).
Proof.
  intros H. unfold put_apacket, release. rewrite (bind_done _ _ st (live (rest st)) st) by done. by rewrite bool_decide_true by done.
Qed.

(** C3: Writing a packet to a local socket loses, repeats or reorders no byte.
    Wherever [ptr] of the packet points, what was queued followed by the first
    [len] bytes of the packet is what the descriptor accepted followed by what
    is queued now; the result is 0 when nothing is queued and the packet has
    been freed, and 1 when the queue is not empty and the socket's event object
    waits for FDE_WRITE.  Only when the queue was empty and the descriptor
    refused a write for good, having accepted a proper beginning of the packet,
    does the function close the socket through its method, once, and return 1;
    otherwise it stops only to wait for the operating system. *)
Theorem local_socket_enqueue_conserves call s p st k pend :
  fd_inv st pend -> posix_state st -> sockets (rest st) !! s = Some k ->
  is_Some (fde_heap st !! sk_fde k) -> 0 <= p_len p <= Z.of_nat (length (data (p_body p))) ->
  p_addr p ∈ live (rest st) -> enqueue_outcome call k p s st.
Proof.
  intros Hi Hp Hk Hf Hlen Hl. destruct (wf_reset p Hlen) as [Hwf Ec]. unfold enqueue_outcome, enqueued.
  assert (Eg : sock s st = (Done k, st)) by (unfold get, must; simpl; by rewrite Hk).
  assert (Hw0 : put (fd_world st) st = st) by (by destruct st).
  unfold local_socket_enqueue. rewrite (bind_done _ _ _ _ _ Eg). case_bool_decide as Hq; cbn [negb].
  - destruct (wp_outcome _ _ _ _ (wp_enqueue_write (sk_fd k) _ st Hwf Hp)) as [(r & st1 & E & H)|(e & st1 & E & -> & pre & post & E1 & W)].
    2:{ right. right. exists st1, pre, post. rewrite (bind_stop _ _ _ _ _ E). by rewrite <- Ec. }
    rewrite (bind_done _ _ _ _ _ E). destruct r as [p'|].
    2:{ destruct H as (pre & post & E1 & Hne & W & R). right. left. exists st1, pre, post. by rewrite <- Ec. }
    left. destruct H as (pre & E1 & (w1 & -> & Ew)%wrote_state & Hwf' & Ea). destruct (Z.eqb_spec (p_len p') 0).
    + exists 0. eexists. split.
      * rewrite (bind_done _ _ _ _ _ (put_apacket_ok p' (put w1 st) ltac:(by rewrite Ea))). done.
      * rewrite Ea. exists k. simpl. split_and!; [done| |done|done]. rewrite <- Ec, Hq, Ew, E1, (pkt_bytes_nil p') by (done || lia). simpl. by rewrite !app_nil_r.
    + destruct (enqueue_tail_ok s p' k w1 pend st Hi Hk Hf) as (st' & E2 & Hw & Hr & Hf').
      exists 1, st'. split; [done|]. exists (set_pkts (sk_pkts k ++ [p']) k).
      rewrite Hr, Hw. simpl. rewrite lookup_insert_eq, <- Ec, Hq, Ew, E1. split_and!; [done| |done|done|done|done]. simpl. by rewrite app_nil_r.
  - left. destruct (enqueue_tail_ok s (set_pptr 0 p) k (fd_world st) pend st Hi Hk Hf) as (st' & E2 & Hw & Hr & Hf').
    rewrite Hw0 in E2. exists 1, st'. split; [done|]. exists (set_pkts (sk_pkts k ++ [set_pptr 0 p]) k).
    rewrite Hr, Hw. simpl. rewrite lookup_insert_eq. unfold calls_since. rewrite drop_all. simpl. unfold queue_bytes.
    rewrite bind_app. simpl. rewrite app_nil_r, Ec. split_and!; [done..| |done|done]. by destruct (sk_pkts k).
Qed.

(** ** Draining the queue *)

(** From [st], the socket [s] (then [k]) has the queue [ps], the packets in
    memory are [L], and [fd] has accepted [pre]. *)
Definition flushing (st : fdstate) (s : ptr) (k : asocket) (fd : Z) (pre : bytes) (ps : list pkt)
    (L : gset Z) (st' : fdstate) : Prop :=
  exists w' new,
    st' = put w' (put (set_live L (set_sockets (<[s := set_pkts ps k]> (sockets (rest st))) (rest st))) st) /\
    steps (fd_world st) new w' /\ only (writes fd) new /\ written_to fd new = pre.

(** A queue whose packets are distinct allocated objects with their bytes. *)
Record wf_queue (ps : list pkt) (L : gset Z) : Prop := {
  q_wf : Forall wf_pkt ps;
  q_nodup : NoDup (p_addr <$> ps);
  q_live : forall p, p ∈ ps -> p_addr p ∈ L;
}.

Lemma flushing_lookup st s k fd pre ps L st' :
  flushing st s k fd pre ps L st' -> sockets (rest st') !! s = Some (set_pkts ps k).
Proof. intros (w & n & -> & _). simpl. apply lookup_insert_eq. Qed.

Lemma flushing_posix st s k fd pre ps L st' :
  flushing st s k fd pre ps L st' -> posix_state st -> posix_state st'.
Proof. intros (w & n & -> & S & _) H. simpl. by rewrite (steps_env _ _ _ S). Qed.

Lemma flushing_wrote st s k fd pre ps L st1 bs st2 :
  flushing st s k fd pre ps L st1 -> wrote st1 fd bs st2 -> flushing st s k fd (pre ++ bs) ps L st2.
Proof.
  intros (w1 & n1 & -> & S1 & O1 & <-) (w2 & n2 & -> & S2 & O2 & <-).
  exists w2, (n1 ++ n2). split_and!; [done|by eapply steps_trans|by apply only_app|by rewrite written_to_app].
Qed.

Lemma flushing_set st s k fd pre ps L st1 ps' Q X :
  flushing st s k fd pre ps L st1 ->
  (forall st2, flushing st s k fd pre ps' L st2 -> fd_world st2 = fd_world st1 -> Q tt st2) ->
  wp (set_sock s (set_pkts ps')) Q X st1.
Proof.
  intros (w1 & n1 & -> & S1 & O1 & E1) HQ. eapply wp_set; [apply lookup_insert_eq|]. apply HQ; [|done].
  exists w1, n1. split_and!; [|done..]. simpl. by rewrite insert_insert_eq.
Qed.

Lemma flushing_put st s k fd pre ps L st1 p Q X :
  flushing st s k fd pre ps L st1 -> p_addr p ∈ L ->
  (forall st2, flushing st s k fd pre ps (L ∖ {[p_addr p]}) st2 -> Q tt st2) ->
  wp (put_apacket p) Q X st1.
Proof.
  intros (w1 & n1 & -> & S1 & O1 & E1) Hp HQ. unfold put_apacket, release. wp_step. apply wp_global.
  rewrite bool_decide_true by done. apply wp_update. apply HQ. exists w1, n1. done.
Qed.

(** Everything queued is either with the descriptor or still queued. *)
Definition conserves (st : fdstate) (s : ptr) (k : asocket) (fd : Z) (ps : list pkt) (st' : fdstate) : Prop :=
  exists pre L, queue_bytes (sk_pkts k) = pre ++ queue_bytes ps /\ flushing st s k fd pre ps L st' /\ wf_queue ps L.

Lemma wp_flush_packet st s k fd p ps st1 :
  posix_state st -> conserves st s k fd (p :: ps) st1 ->
  wp (flush_packet s fd)
    (fun r st' => exists p', conserves st s k fd (p' :: ps) st' /\ (r = Drained -> p_len p' <= 0))
    (fun e st' => e = Blocked /\ exists p', conserves st s k fd (p' :: ps) st') st1.
Proof.
  intros Hp H0. unfold flush_packet.
  apply (wp_loop (fun _ st' => exists p', conserves st s k fd (p' :: ps) st')); [by exists p|].
  clear p st1 H0. intros _ st1 (p & pre & L & E & Hf & [Hwf Hnd Hl]).
  pose proof (Forall_inv Hwf) as Hwf1. wp_step. eapply wp_get; [by eapply flushing_lookup|]. simpl.
  destruct (Z.leb_spec (p_len p) 0).
  { apply wp_ret. exists p. split; [by exists pre, L|done]. }
  wp_step. apply wp_packet_bytes; [done|]. wp_step. apply wp_write_step; [by eapply flushing_posix|..].
  - intros n st2 Hn W Hb _. rewrite (length_pkt_bytes p Hwf1) in Hn. pose proof (flushing_wrote _ _ _ _ _ _ _ _ _ _ Hf W) as Hf2.
    destruct (Z.gtb_spec n 0).
    + wp_step. eapply flushing_set; [exact Hf2|]. intros st3 Hf3 Ew. apply wp_ret. split.
      * exists (advance n p). eexists _, L. split_and!; [|exact Hf3|].
        -- rewrite E, <- app_assoc. f_equal. simpl. rewrite advance_bytes by done. rewrite app_assoc.
           by rewrite take_drop.
        -- split; [|done|].
           ++ inversion Hwf; subst. constructor; [by apply advance_wf|done].
           ++ intros q [->|Hq]%elem_of_cons; [apply (Hl p); left|apply Hl; by right].
      * unfold budget, Budget_fdstate in *. by rewrite Ew.
    + apply wp_ret. exists p. split; [|done]. assert (n = 0) by lia. subst n. simpl in Hf2.
      rewrite app_nil_r in Hf2. by exists pre, L.
  - intros e st2 He W Hb _. pose proof (flushing_wrote _ _ _ _ _ _ _ _ _ _ Hf W) as Hf2. rewrite app_nil_r in Hf2.
    assert (C : conserves st s k fd (p :: ps) st2) by (by exists pre, L).
    destruct (e =? EAGAIN); [apply wp_ret; by exists p|].
    destruct (e =? EINTR); apply wp_ret; [split; [by exists p|done]|by exists p].
  - intros st2 W. pose proof (flushing_wrote _ _ _ _ _ _ _ _ _ _ Hf W) as Hf2. rewrite app_nil_r in Hf2.
    split; [done|]. exists p. by exists pre, L.
Qed.

Lemma wp_flush_queue st s k fd n ps st1 :
  posix_state st -> (length ps <= n)%nat -> conserves st s k fd ps st1 ->
  wp (flush_queue n s fd)
    (fun r st' => exists ps', conserves st s k fd ps' st' /\ (r = Drained <-> ps' = []))
    (fun e st' => e = Blocked /\ exists ps', conserves st s k fd ps' st') st1.
Proof.
  intros Hp. revert ps st1. induction n as [|n IH]; intros ps st1 Hn C;
    destruct C as (pre & L & E & Hf & Hq) eqn:EC; clear EC;
    simpl; wp_step; (eapply wp_get; [by eapply flushing_lookup|]); simpl; destruct ps as [|p ps].
  1,3: apply wp_ret; exists []; split; [by exists pre, L|done].
  { simpl in Hn. lia. }
  wp_step. eapply wp_mono; [apply (wp_flush_packet st s k fd p ps); [done|by exists pre, L]| |].
  - intros r st2 (p' & C2 & Hr). destruct r; [|apply wp_ret; by exists (p' :: ps)..].
    specialize (Hr eq_refl). destruct C2 as (pre2 & L2 & E2 & Hf2 & [Hwf Hnd Hl]).
    pose proof (Forall_inv Hwf) as Hwf1. wp_step. eapply wp_get; [by eapply flushing_lookup|]. simpl.
    wp_step. eapply flushing_set; [exact Hf2|]. intros st3 Hf3 _. wp_step.
    eapply flushing_put; [exact Hf3|apply Hl; left|]. intros st4 Hf4.
    apply (IH ps); [simpl in Hn; lia|]. eexists _, _. split_and!; [|exact Hf4|].
    + rewrite E2. f_equal. simpl. by rewrite pkt_bytes_nil.
    + apply NoDup_cons in Hnd as [Hp' Hnd]. split; [by apply Forall_inv_tail in Hwf|done|].
      intros q Hq'. apply elem_of_difference. split; [apply Hl; by right|].
      intros Ea%elem_of_singleton. apply Hp'. apply list_elem_of_fmap. by exists q.
  - intros e st2 (-> & p' & C2). split; [done|]. by exists (p' :: ps).
Qed.

Lemma wp_unwatch q f k pend Q X s :
  fd_inv s pend -> fde_heap s !! q = Some f -> 0 <= k < 8 ->
  (forall s' pend', fd_inv s' pend' -> fd_world s' = fd_world s -> rest s' = rest s ->
     (exists f', obj s' q = Some f' /\ has (fde_state f') (2 ^ k) = false) -> Q tt s') ->
  wp (fdevent_del q (2 ^ k)) Q X s.
Proof.
  intros Hi Hq Hk HQ. apply (wp_frame id); [apply keeps_fdevent_del|]. unfold fdevent_del. wp_step.
  eapply wp_deref; [exact Hq|]. pose proof (ok_state s q f (inv_ok _ _ Hi) Hq) as Hst.
  eapply wp_fdevent_set; [exact Hi|exact Hq|]. intros s' Hi' Hf Ho Hr.
  eapply HQ; [exact Hi'|apply Hf|exact Hr|]. specialize (Ho q). rewrite decide_True in Ho by done.
  eexists. split; [exact Ho|]. rewrite <- has_eventmask by done.
  match goal with |- context [set_outcome f ?ev] => destruct (set_outcome_mask f ev Hst) as [E _] end.
  simpl. rewrite E. rewrite has_eventmask by done. rewrite has_pow2 by lia. bits_norm.
  change FDE_EVENTMASK with (Z.ones 8). rewrite !Z.ones_spec_low, Z.pow2_bits_true by lia.
  apply andb_false_r.
Qed.

Definition flush_result (s : ptr) (fd : Z) (k : asocket) (st st' : fdstate) (ps : list pkt) : Prop :=
  queue_bytes (sk_pkts k) = written_to fd (calls_since (fd_world st) (fd_world st')) ++ queue_bytes ps /\
  sockets (rest st') !! s = Some (set_pkts ps k).

Lemma conserves_result st s k fd ps st' : conserves st s k fd ps st' -> flush_result s fd k st st' ps.
Proof.
  intros (pre & L & E & Hf & _). split; [|by eapply flushing_lookup].
  destruct Hf as (w & n & -> & S & _ & <-). simpl. by rewrite (steps_calls_since _ _ _ S).
Qed.

(** C13: A writable event passes queued bytes on in order and without loss: what
    was queued is what the descriptor accepted followed by what is still
    queued.  The handler returns early only with a backlog; it closes the
    socket only after a failed write or when the drained socket was already
    closing; and it tells the peer to go on only when the queue is empty and
    the event object no longer waits for FDE_WRITE. *)
Theorem local_socket_flush_conserves s fd st k pend :
  fd_inv st pend -> posix_state st -> sockets (rest st) !! s = Some k ->
  is_Some (fde_heap st !! sk_fde k) -> wf_queue (sk_pkts k) (live (rest st)) ->
  let '(o, st') := event_write observe s fd st in
  exists ps, flush_result s fd k st st' ps /\
  match o with
  | Done go_on => go_on = false /\ ps <> []
  | Stop e =>
      e = Blocked \/
      (e = Abort "close" /\ (ps <> [] \/ sk_closing k <> 0)) \/
      (e = Abort "ready" /\ ps = [] /\ sk_closing k = 0 /\
       exists f', obj st' (sk_fde k) = Some f' /\ has (fde_state f') FDE_WRITE = false)
  end.
Proof.
  intros Hi Hp Hk [f Hf] Hq.
  assert (W : wp (event_write observe s fd)
    (fun r st' => exists ps, flush_result s fd k st st' ps /\ r = false /\ ps <> [])
    (fun e st' => exists ps, flush_result s fd k st st' ps /\ (e = Blocked \/
      (e = Abort "close" /\ (ps <> [] \/ sk_closing k <> 0)) \/
      (e = Abort "ready" /\ ps = [] /\ sk_closing k = 0 /\
       exists f', obj st' (sk_fde k) = Some f' /\ has (fde_state f') FDE_WRITE = false))) st).
  2:{ unfold wp in W. by destruct (event_write observe s fd st) as [[]]. }
  unfold event_write. wp_step. eapply wp_get; [exact Hk|]. wp_step.
  assert (Ek : set_pkts (sk_pkts k) k = k) by (by destruct k).
  eapply wp_mono; [apply (wp_flush_queue st s k fd _ (sk_pkts k)); [done|done|]| |].
  - exists [], (live (rest st)). split_and!; [done| |done]. exists (fd_world st), [].
    split_and!; [|apply steps_refl|apply only_nil|done]. rewrite Ek, insert_id by done.
    by destruct st as [? ? ? ? ? ? ? ? ? []].
  - intros r st1 (ps & C & Hr). pose proof (conserves_result _ _ _ _ _ _ C) as HR.
    destruct r; [|apply wp_ret; exists ps; split_and!; [done|done|by intros ->; destruct Hr as [_ Hr]; discriminate Hr]|].
    + assert (ps = []) as -> by (by apply Hr). wp_step. eapply wp_get; [apply HR|]. simpl.
      destruct (Z.eqb_spec (sk_closing k) 0) as [E0|Hne]; cbn [negb].
      * destruct C as (pre & L & E & (w1 & n1 & -> & S1 & O1 & W1) & _). wp_step.
        apply (wp_unwatch (sk_fde k) f 1 pend); [by apply fd_inv_world, fd_inv_rest|done|lia|].
        intros st' pend' Hi' Hw' Hr' Hf'. wp_step. exists []. split.
        { destruct HR as [HR1 HR2]. split; [rewrite Hw'; exact HR1|rewrite Hr'; exact HR2]. }
        right. right. done.
      * wp_step. exists []. split; [done|]. right. left. split; [done|]. by right.
    + wp_step. exists ps. split; [done|]. right. left. split; [done|]. left. intros ->.
      by destruct Hr as [_ Hr]; discriminate Hr.
  - intros e st1 (-> & ps & C). exists ps. split; [by eapply conserves_result|by left].
Qed.

(** ** Reading from the descriptor *)

Definition observed_packet (bs : bytes) (p : pkt) : pkt := set_len (Z.of_nat (length bs)) (set_data bs p).

(** What [read_avail] delivers is what the descriptor delivered, and fits into
    a packet. *)
Lemma ospec_read_avail e fd :
  ospec e (read_avail fd)
    (fun '(bs, r, is_eof) new _ => only (reads fd) new /\ read_from fd new = bs /\
       Z.of_nat (length bs) <= MAX_PAYLOAD)
    (blocked (fun new => only (reads fd) new)).
Proof.
  unfold read_avail.
  apply (ospec_loop (fun '(acc, _) h _ => only (reads fd) h /\ read_from fd h = acc /\
    Z.of_nat (length acc) <= MAX_PAYLOAD)).
  - split_and!; [apply only_nil|done|simpl; unfold MAX_PAYLOAD; lia].
  - intros [acc r] h e1 (Ho & Hr & Hl). cbv zeta.
    destruct (Z.leb_spec (MAX_PAYLOAD - Z.of_nat (length acc)) 0).
    { os_step. by rewrite app_nil_r. }
    os_call ospec_adb_read.
    + intros x new (-> & Ho' & Hr'). split; [done|]. rewrite only_app. by split.
    + intros a n1 e2 (Ho' & Hne & _ & Ha).
      assert (Hn : forall bs', read_from fd n1 = bs' -> only (reads fd) (h ++ n1) /\
        read_from fd (h ++ n1) = acc ++ bs').
      { intros bs' <-. rewrite only_app, read_from_app, Hr. by split. }
      destruct a as [[|b bs]|err].
      * destruct Ha as (Hr' & _). os_step. rewrite app_nil_r. destruct (Hn _ Hr') as [? E].
        rewrite app_nil_r in E. by split_and!.
      * destruct Ha as (Hr' & Hb & _). os_step. rewrite app_nil_r. destruct (Hn _ Hr') as [? E].
        split; [done|]. split_and!; [done..|]. rewrite length_app. simpl in *. lia.
      * destruct Ha as (Hr' & _). destruct (Hn _ Hr') as [? E]. rewrite app_nil_r in E.
        destruct (err =? EAGAIN); [os_step; rewrite app_nil_r; by split_and!|].
        destruct (err =? EINTR); os_step; rewrite app_nil_r; split_and!; done.
Qed.

(** ** Packets on their way to a transport *)

Lemma ospec_write_packet e fd bs :
  ospec e (write_packet fd bs) (fun r new _ => only (writes fd) new /\ (r = 0 -> written_to fd new = bs))
    (blocked (fun new => only (writes fd) new)).
Proof.
  unfold write_packet.
  apply (ospec_loop (fun rest h _ => only (writes fd) h /\ bs = written_to fd h ++ rest)).
  - split; [constructor|done].
  - intros rest h e1 [Ho Hw]. destruct rest as [|c rest].
    { os_step. rewrite !app_nil_r in *. done. }
    os_call ospec_adb_write.
    + intros x new (-> & Ho' & Hw'). split; [done|]. apply only_app. by split.
    + intros a n1 e2 (Ho' & Hne & _ & Ha). destruct a as [r|err].
      * destruct Ha as (Hw' & Hr). destruct (Z.gtb_spec r 0); os_step;
          rewrite app_nil_r, only_app, written_to_app, Hw'; [|done].
        split; [done|]. split; [by split|]. rewrite Hw, <- !app_assoc. f_equal. by rewrite take_drop.
      * destruct Ha as (Hw' & ->). destruct (err =? EINTR); os_step; rewrite app_nil_r, only_app.
        -- split; [done|]. rewrite written_to_app, Hw', app_nil_r. by split.
        -- done.
Qed.

(** The stops every sender may end in. *)
Definition send_stop (e : stop) : Prop :=
  e ∈ [Blocked; Abort "failed to allocate an apacket"; Abort "cannot enqueue packet on transport socket"].

Lemma send_stop_blocked : send_stop Blocked.
Proof. left. Qed.

Lemma send_stop_alloc : send_stop (Abort "failed to allocate an apacket").
Proof. right. left. Qed.

Lemma send_stop_pipe : send_stop (Abort "cannot enqueue packet on transport socket").
Proof. right. right. left. Qed.
#[export] Hint Resolve send_stop_blocked send_stop_alloc send_stop_pipe : adb.

Lemma wp_get_apacket Q (X : stop -> fdstate -> Prop) s :
  (forall p w' new, p_len p = 0 -> p_ptr p = None -> data (p_body p) = [] ->
     steps (fd_world s) new w' -> (forall fd, read_from fd new = []) ->
     Q p (put w' (put (set_brk (brk (rest s) + sizeof_apacket)
                    (set_live ({[p_addr p]} ∪ live (rest s)) (rest s))) s))) ->
  (forall e s', send_stop e -> X e s') ->
  wp get_apacket Q X s.
Proof.
  intros HQ HX. unfold get_apacket. wp_step. sys; [|auto with adb]. intros [[]|e] w' S.
  - wp_step. apply wp_global. wp_step. apply wp_update. apply wp_ret. simpl.
    apply (HQ {| p_addr := brk (rest s); p_len := 0; p_ptr := None;
                 p_body := {| msg := zero_message; data := [] |} |} w' [ev (Malloc sizeof_apacket) (Ok tt)]); done.
  - apply HX. auto with adb.
Qed.

(** The packet [b] at [a] goes to the thread of the transport [t]. *)
Definition hand_over (t : ptr) (a : Z) (b : apacket) (g : globals) : globals :=
  let g' := set_live (live g ∖ {[a]}) g in
  set_inflight (<[a := b]> (inflight g')) (set_sent (sent g' ++ [(t, b)]) g').

Lemma wp_send_packet sz p t tr Q (X : stop -> fdstate -> Prop) s :
  posix_state s -> t <> NULL -> transports (rest s) !! t = Some tr -> p_addr p ∈ live (rest s) ->
  (forall w' new, steps (fd_world s) new w' -> (forall fd, read_from fd new = []) ->
     Q tt (put w' (put (hand_over t (p_addr p) (seal (p_body p)) (rest s)) s))) ->
  (forall e s', send_stop e -> X e s') ->
  wp (send_packet sz p t) Q X s.
Proof.
  intros Hp Ht Htr Hl HQ HX. unfold send_packet. rewrite bool_decide_false by done. wp_step.
  eapply wp_get; [exact Htr|]. wp_step. eapply ospec_os; [apply ospec_write_packet|done| |].
  - intros r new w' S [Ho _]. destruct (r =? 0); cbn [negb]; [|apply HX; auto with adb].
    wp_step. unfold release. wp_step. apply wp_global. rewrite bool_decide_true by done.
    apply wp_update. apply wp_update. apply (HQ w' new S). intros fd. by eapply read_from_writes.
  - intros x new w' [-> _]. auto with adb.
Qed.

(** A socket and the remote socket it is connected to. *)
Record connected (st : fdstate) (s r : ptr) (k kr : asocket) (t : ptr) (tr : atransport) : Prop := {
  cn_local : sockets (rest st) !! s = Some k;
  cn_remote : sockets (rest st) !! r = Some kr;
  cn_peer : sk_peer k = r;
  cn_back : sk_peer kr = s;
  cn_enqueue : sk_enqueue kr = remote_socket_enqueue_fn;
  cn_transport : sk_transport kr = t;
  cn_t : transports (rest st) !! t = Some tr;
  cn_r : r <> NULL;
  cn_tn : t <> NULL;
}.

Definition wrte_packet (local remote : Z) (bs : bytes) : apacket :=
  seal {| msg := {| command := A_WRTE; arg0 := local; arg1 := remote;
                    data_length := Z.of_nat (length bs); data_check := 0; magic := 0 |}; data := bs |}.

Lemma wp_remote_enqueue sz s r k kr t tr bs p Q (X : stop -> fdstate -> Prop) st :
  connected st s r k kr t tr -> posix_state st -> p_addr p ∈ live (rest st) ->
  (forall w' new, steps (fd_world st) new w' -> (forall fd, read_from fd new = []) ->
     Q 1 (put w' (put (hand_over t (p_addr p) (wrte_packet (sk_id k) (sk_id kr) bs) (rest st)) st))) ->
  (forall e s', send_stop e -> X e s') ->
  wp (call_enqueue (calls sz) r (observed_packet bs p)) Q X st.
Proof.
  intros [Hs Hr Hp Hb He Ht Htr Hn Htn] Hx Hl HQ HX. simpl. wp_step. eapply wp_get; [exact Hr|].
  rewrite He. unfold remote_socket_enqueue. wp_step. eapply wp_get; [exact Hr|]. rewrite Hb, Ht.
  wp_step. eapply wp_get; [exact Hs|]. wp_step. eapply wp_send_packet; [done..| |done].
  intros w' new S R. apply wp_ret. by apply (HQ w' new).
Qed.

(** The packets go to the remote sockets; a close ends the run. *)
Definition observe_close (sz : Z) : methods := {|
  call_enqueue := call_enqueue (calls sz);
  call_ready _ := abort "ready";
  call_shutdown _ := abort "shutdown";
  call_close _ := abort "close";
  call_disconnect _ _ _ := abort "disconnect";
|}.

(** What was read from [fd] has gone out as one WRTE packet, and with that the
    socket has stopped reading. *)
Definition read_sent (fd : Z) (k kr : asocket) (t : ptr) (st st' : fdstate) : Prop :=
  let bs := read_from fd (calls_since (fd_world st) (fd_world st')) in
  Z.of_nat (length bs) <= MAX_PAYLOAD /\
  if bool_decide (bs = []) then sent (rest st') = sent (rest st) else
  sent (rest st') = sent (rest st) ++ [(t, wrte_packet (sk_id k) (sk_id kr) bs)] /\
  exists f', obj st' (sk_fde k) = Some f' /\ has (fde_state f') FDE_READ = false.

(** A readable event on a socket connected through a transport sends what
    the descriptor delivered, at most MAX_PAYLOAD bytes, as the payload of one
    WRTE packet with the ids of the two sockets, and stops reading until the
    other side is ready again; when nothing could be read, nothing is sent.
    The handler stops only to close the socket, on the errors adbd dies of, or
    to wait for the operating system. *)
Theorem local_socket_read_sends sz s r k kr t tr fd st pend :
  fd_inv st pend -> posix_state st -> is_Some (fde_heap st !! sk_fde k) ->
  connected st s r k kr t tr ->
  match event_read (observe_close sz) s fd st with
  | (Done _, st') => read_sent fd k kr t st st'
  | (Stop e, st') => (e = Abort "close" /\ read_sent fd k kr t st st') \/ send_stop e
  end.
Proof.
  intros Hi Hp [f Hf] Hc.
  change (wp (event_read (observe_close sz) s fd) (fun _ => read_sent fd k kr t st)
    (fun e st' => (e = Abort "close" /\ read_sent fd k kr t st st') \/ send_stop e) st).
  unfold event_read. wp_step. apply wp_get_apacket; [|intros; by right].
  intros p w1 n1 _ _ _ S1 R1. wp_step.
  eapply ospec_os; [apply ospec_read_avail|simpl; by rewrite (steps_env _ _ _ S1)| |].
  2:{ intros x new w' [-> _]. right. auto with adb. }
  intros [[bs r0] is_eof] n2 w2 S2 (O2 & R2 & L2). simpl in S2. destruct Hc as [Hs Hr Hpe Hb He Ht Htr Hn Htn] eqn:E.
  clear E. pose proof (steps_trans _ _ _ _ _ S1 S2) as S12. wp_step. eapply wp_get; [exact Hs|].
  rewrite Hpe, (bool_decide_false (r = NULL)), orb_false_r by done.
  (* the last part: a close, or nothing *)
  assert (Hend : forall st' r', sockets (rest st') !! s = Some k -> is_Some (fde_heap st' !! sk_fde k) ->
    read_sent fd k kr t st st' ->
    wp (k' ← sock s; f ← deref (sk_fde k');
        if (negb (fde_force_eof f =? 0) && (r' =? 0)) || is_eof then call_close (observe_close sz) s else skip)
      (fun _ => read_sent fd k kr t st)
      (fun e st' => (e = Abort "close" /\ read_sent fd k kr t st st') \/ send_stop e) st').
  { intros st' r' H1 [g Hg] H2. wp_step. eapply wp_get; [exact H1|]. wp_step. eapply wp_deref; [exact Hg|].
    destruct (_ || _); [left; done|by apply wp_ret]. }
  case_bool_decide as Eb; wp_step.
  - wp_step. unfold put_apacket, release. wp_step. apply wp_global. rewrite bool_decide_true by set_solver.
    apply wp_update. apply wp_ret. apply Hend; [done|by exists f|]. unfold read_sent. simpl.
    rewrite (steps_calls_since _ _ _ S12), read_from_app, R1, R2, Eb. done.
  - wp_step. eapply (wp_remote_enqueue sz s r k kr t tr bs p); [done|simpl; by rewrite (steps_env _ _ _ S12)|set_solver| |].
    2:{ intros; by right. }
    intros w3 n3 S3 R3. simpl in S3. change (1 <? 0) with false. change (1 >? 0) with true. cbv iota. wp_step. wp_step. eapply wp_get; [exact Hs|].
    apply (wp_unwatch (sk_fde k) f 0 pend); [by repeat first [apply fd_inv_world | apply fd_inv_rest]|done|lia|].
    intros st' pend' Hi' Hw Hr' Hf'. wp_step. apply Hend.
    + rewrite Hr'. exact Hs.
    + destruct Hf' as (f' & Hf' & _). unfold obj in Hf'. by destruct (fde_heap st' !! sk_fde k).
    + unfold read_sent. rewrite Hw, Hr'. simpl.
      rewrite (steps_calls_since _ _ _ (steps_trans _ _ _ _ _ S12 S3)), !read_from_app, R1, R2, R3, app_nil_r.
      simpl. rewrite bool_decide_false by done. done.
Qed.

(** ** Witnesses *)

(** A local socket at 7 on descriptor 5 with a queue, its remote peer at 8, on
    the transport at 5. *)
Definition pair_local (ps : list pkt) : asocket :=
  {| sk_next := local_socket_list; sk_prev := local_socket_list; sk_id := 1; sk_closing := 0;
     sk_exit_on_close := 0; sk_peer := 8%N; sk_fde := demo_ptr; sk_fd := 5; sk_pkts := ps;
     sk_enqueue := local_socket_enqueue_fn; sk_ready := local_socket_ready_fn; sk_shutdown := None;
     sk_close := local_socket_close_fn; sk_transport := NULL |}.

Definition pair_remote : asocket :=
  {| sk_next := NULL; sk_prev := NULL; sk_id := 77; sk_closing := 0; sk_exit_on_close := 0;
     sk_peer := 7%N; sk_fde := NULL; sk_fd := 0; sk_pkts := []; sk_enqueue := remote_socket_enqueue_fn;
     sk_ready := remote_socket_ready_fn; sk_shutdown := Some remote_socket_shutdown_fn;
     sk_close := remote_socket_close_fn; sk_transport := 5%N |}.

Definition pair_transport : atransport :=
  set_embedded NULL NULL 6%N (set_ends 9 10
    (set_online 1 (set_remote local_remote 11 NULL CS_HOST kTransportLocal no_atransport))).

Definition pair_packet (a : Z) (bs : bytes) : pkt :=
  {| p_addr := a; p_len := Z.of_nat (length bs); p_ptr := Some 0;
     p_body := {| msg := zero_message; data := bs |} |}.

Lemma pair_packet_wf a bs : wf_pkt (pair_packet a bs).
Proof. split; unfold p_off; simpl; [lia|by eexists|lia|lia]. Qed.

Definition pair_globals (ps : list pkt) : globals :=
  set_live {[1; 2; 3; 4]}
    (set_transports {[5%N := pair_transport]}
      (set_sockets (<[7%N := pair_local ps]> (<[8%N := pair_remote]> (sockets globals_boot))) globals_boot)).

Definition pair_state (e : env) (ps : list pkt) : fdstate := put (boot e 100) (put (pair_globals ps) demo_state).

(** The descriptor takes three bytes at a time. *)
Definition slow_env : env := fun h c =>
  match c return ans c with
  | Write fd bs => if fd =? 5 then (if bool_decide (length h = 0%nat) then Ok (Z.min 3 (Z.of_nat (length bs)))
                                    else Err EAGAIN)
                   else Ok (Z.of_nat (length bs))
  | c => ok_default c
  end.

Lemma slow_env_posix : posix slow_env.
Proof.
  intros h c. destruct c; try apply ok_default_answer. simpl.
  destruct (_ =? 5); [case_bool_decide; [simpl; lia|done]|simpl; lia].
Qed.

Lemma pair_inv e ps : fd_inv (pair_state e ps) [].
Proof. apply fd_inv_world, fd_inv_rest, demo_inv. Qed.

Lemma pair_fde e ps : is_Some (fde_heap (pair_state e ps) !! demo_ptr).
Proof. vm_compute. by eexists. Qed.

Lemma local_socket_enqueue_conserves_witness :
  enqueue_outcome observe (pair_local []) (pair_packet 1 (str "hello")) 7%N (pair_state slow_env []).
Proof.
  apply (local_socket_enqueue_conserves observe 7%N (pair_packet 1 (str "hello")) (pair_state slow_env [])
           (pair_local []) []).
  - apply pair_inv.
  - exact slow_env_posix.
  - reflexivity.
  - apply pair_fde.
  - vm_compute. split; discriminate.
  - vm_compute. reflexivity.
Defined.

Definition pair_queue : list pkt := [pair_packet 1 (str "hel"); pair_packet 2 (str "lo")].

Lemma local_socket_flush_conserves_witness :
  let st := pair_state slow_env pair_queue in
  let '(o, st') := event_write observe 7%N 5 st in
  exists ps, flush_result 7%N 5 (pair_local pair_queue) st st' ps /\
  match o with
  | Done go_on => go_on = false /\ ps <> []
  | Stop e =>
      e = Blocked \/
      (e = Abort "close" /\ (ps <> [] \/ sk_closing (pair_local pair_queue) <> 0)) \/
      (e = Abort "ready" /\ ps = [] /\ sk_closing (pair_local pair_queue) = 0 /\
       exists f', obj st' demo_ptr = Some f' /\ has (fde_state f') FDE_WRITE = false)
  end.
Proof.
  apply (local_socket_flush_conserves 7%N 5 (pair_state slow_env pair_queue) (pair_local pair_queue) []).
  - apply pair_inv.
  - exact slow_env_posix.
  - reflexivity.
  - apply pair_fde.
  - split.
    + repeat constructor; apply pair_packet_wf.
    + vm_compute. repeat constructor; set_solver.
    + intros p Hp. repeat (apply elem_of_cons in Hp as [->|Hp]); [set_solver..|by apply elem_of_nil in Hp].
Defined.

Lemma local_socket_read_sends_witness :
  let st := pair_state (stream_env (fun _ => str "data")) [] in
  match event_read (observe_close 4) 7%N 5 st with
  | (Done _, st') => read_sent 5 (pair_local []) pair_remote 5%N st st'
  | (Stop e, st') => (e = Abort "close" /\ read_sent 5 (pair_local []) pair_remote 5%N st st') \/ send_stop e
  end.
Proof.
  apply (local_socket_read_sends 4 7%N 8%N (pair_local []) pair_remote 5%N pair_transport 5
           (pair_state (stream_env (fun _ => str "data")) []) []).
  - apply pair_inv.
  - apply stream_env_posix. intros fd. repeat constructor; vm_compute; intuition discriminate.
  - apply pair_fde.
  - by split.
Defined.
