(* ===== verification/JdwpSpec.v ===== *)
(** * Correctness of the JDWP service

    The text of the pid list, the assembly of a pid from the pieces a process
    sends, and the queue of descriptors waiting to be passed to a process. *)

From S2P Require Import Prelude Effects DList Os Sysdeps Wire Globals Fdevent Transport FdeventFacts FdeventLoop FdeventReg FdeventSpec Sockets Jdwp Auth Protocol Frame SocketsSpec.

(** ** The list of pids *)

Definition pid_line (pid : Z) : bytes := fmt_d pid ++ [10].

(** The processes of the list with their pids, in order. *)
Definition process_list (st : fdstate) (pids : list Z) : Prop :=
  exists xs, dll (procs (rest st)) _jdwp_list xs /\
    Forall2 (fun x pid => jp_pid <$> procs (rest st) !! x = Some pid) xs pids.

Abbreviation announced := (filter (fun pid => 0 <= pid)).

Lemma list_entry_line pid room :
  list_entry pid room = if Z.of_nat (length (pid_line pid)) >=? room then None else Some (pid_line pid).
Proof. done. Qed.

(** [jdwp_process_list] writes the announced pids one per line, in the
    order the processes connected and without those that have no pid yet, stops
    before the first line that would not fit, never writes past the end of the
    buffer, and changes nothing. *)
Theorem jdwp_process_list_text st pids n :
  process_list st pids -> 0 < n ->
  exists shown hidden, announced pids = shown ++ hidden /\
    jdwp_process_list n st = (Done (shown ≫= pid_line), st) /\
    Z.of_nat (length (shown ≫= pid_line)) < n /\
    match hidden with
    | [] => True
    | pid :: _ => n <= Z.of_nat (length ((shown ++ [pid]) ≫= pid_line))
    end.
Proof.
  intros (xs & Hl & Hf) Hn. set (room := fits pid_line n (announced pids)).
  exists (room.1), (room.2). split_and!; [apply fits_app| |by apply fits_length|].
  2:{ destruct (room.2) eqn:E; [done|]. by eapply fits_maximal. }
  unfold jdwp_process_list. pose proof (dll_length _ _ _ Hl) as Hsz.
  destruct (dll_is_Some _ _ _ _jdwp_list Hl) as [h Hh]; [left|].
  rewrite (bind_done _ _ _ h st) by (unfold get, must; simpl; by rewrite Hh).
  rewrite (bind_done _ _ _ (size (procs (rest st))) st) by done.
  match goal with |- (?walk _ _ _ ≫= _) _ = _ =>
    assert (W : forall ys qs seen m acc, dll (procs (rest st)) _jdwp_list (seen ++ ys) ->
      Forall2 (fun x pid => jp_pid <$> procs (rest st) !! x = Some pid) ys qs -> (length ys <= m)%nat ->
      walk m (List.hd _jdwp_list ys) acc st =
        (Done (acc ++ (fits pid_line (n - Z.of_nat (length acc)) (announced qs)).1 ≫= pid_line), st)) end.
  { induction ys as [|y ys IH]; intros qs seen m acc Hd HF Hm; inversion HF as [|? q ? qs' Hy HF']; subst.
    { simpl. destruct m; simpl; by rewrite app_nil_r. }
    destruct m as [|m]; [simpl in Hm; lia|]. destruct (dll_links _ _ _ _ _ Hd) as (Hnx & _ & _ & _ & Hne & _).
    apply fmap_Some in Hy as (ky & Hky & ->). simpl. rewrite bool_decide_false by done.
    rewrite (bind_done _ _ _ ky st) by (unfold get, must; simpl; by rewrite Hky).
    assert (En : jp_next ky = List.hd _jdwp_list ys).
    { unfold next_is in Hnx. rewrite Hky in Hnx. by injection Hnx. }
    rewrite En, filter_cons.
    destruct (Z.ltb_spec (jp_pid ky) 0) as [Hlt|Hge].
    - rewrite decide_False by lia. apply (IH qs' (seen ++ [y])); [by rewrite <- app_assoc|done|simpl in Hm; lia].
    - rewrite decide_True by lia. cbn [fits]. rewrite list_entry_line. destruct (_ >=? _).
      + cbn [fst]. by rewrite app_nil_r.
      + rewrite (IH qs' (seen ++ [y]) m (acc ++ pid_line (jp_pid ky))); [|by rewrite <- app_assoc|done|simpl in Hm; lia].
        rewrite length_app. replace (n - Z.of_nat (length acc + length (pid_line (jp_pid ky)))) with
          (n - Z.of_nat (length acc) - Z.of_nat (length (pid_line (jp_pid ky)))) by lia.
        destruct (fits _ _ (announced qs')) as [a' b']. cbn [fst]. by rewrite bind_cons, <- app_assoc. }
  assert (Eh : jp_next h = List.hd _jdwp_list xs).
  { pose proof (dll_next _ _ _ Hl) as Hnx. unfold next_is in Hnx. rewrite Hh in Hnx. by injection Hnx. }
  rewrite Eh. rewrite (bind_done _ _ _ _ _ (W xs pids [] (size (procs (rest st))) [] Hl Hf (Nat.lt_le_incl _ _ Hsz))).
  cbn [length]. rewrite Z.sub_0_r, app_nil_l. pose proof (fits_length pid_line n (announced pids) Hn) as Hlen.
  destruct (Z.ltb_spec (Z.of_nat (length ((fits pid_line n (announced pids)).1 ≫= pid_line))) n); [done|lia].
Qed.

(** ** Announcing a pid *)

Definition ev_recv (fd : Z) (e : event) : bytes :=
  match e with
  | existT (Recv fd' _) (Ok bs) => if fd' =? fd then bs else []
  | _ => []
  end.

(** What [recv] delivered on a descriptor. *)
Definition received (fd : Z) (h : list event) : bytes := h ≫= ev_recv fd.

Lemma received_app fd h1 h2 : received fd (h1 ++ h2) = received fd h1 ++ received fd h2.
Proof. apply bind_app. Qed.

(** A digit as the decoder sees it. *)
Lemma digit_facts d : 0 <= d < 16 ->
  digit d =? 0 = false /\ is_space (digit d) = false /\ digit d =? 45 = false /\ digit d =? 43 = false /\
  (digit d =? 120) || (digit d =? 88) = false /\ hex_digit (digit d) = Some d.
Proof.
  intros H. assert (Hd : d ∈ seqZ 0 16) by (apply elem_of_seqZ; lia). cbv in Hd.
  repeat (apply elem_of_cons in Hd as [->|Hd]; [by vm_compute|]). by apply elem_of_nil in Hd.
Qed.

Definition hex4 (n : Z) : bytes :=
  [digit (n / 16 / 16 / 16); digit (n / 16 / 16 mod 16); digit (n / 16 mod 16); digit (n mod 16)].

Lemma digits_enough n : 16 <= n -> (4 <= Z.to_nat (Z.log2 n))%nat.
Proof. intros H. pose proof (Z.log2_le_mono 16 n H). change (Z.log2 16) with 4 in *. lia. Qed.

(** [%04x] of a number of at most sixteen bits is its four digits. *)
Lemma fmt_04x_hex4 n : 0 <= n < 65536 -> fmt_04x n = hex4 n.
Proof.
  intros H. unfold fmt_04x, fmt_x, fmt_base, hex4.
  assert (Hs : forall f m acc, digits 16 (S f) m acc =
    if m / 16 =? 0 then digit (m mod 16) :: acc else digits 16 f (m / 16) (digit (m mod 16) :: acc)) by done.
  destruct (Z.ltb_spec n 16).
  { rewrite Hs, (Z.div_small n 16) by lia. reflexivity. }
  pose proof (digits_enough n ltac:(lia)) as Hf. destruct (Z.to_nat (Z.log2 n)) as [|[|[|[|f]]]]; try lia.
  assert (0 < n / 16 < 4096) by (split; [apply Z.div_str_pos|apply Z.div_lt_upper_bound]; lia).
  rewrite Hs. revert H1. generalize (n / 16). intros m Hm.
  rewrite (proj2 (Z.eqb_neq m 0)), Hs by lia. destruct (Z.ltb_spec m 16).
  { rewrite (Z.div_small m 16) by lia. reflexivity. }
  assert (0 < m / 16 < 256) by (split; [apply Z.div_str_pos|apply Z.div_lt_upper_bound]; lia).
  revert H2. generalize (m / 16). intros l Hl. rewrite (proj2 (Z.eqb_neq l 0)), Hs by lia.
  destruct (Z.ltb_spec l 16).
  { rewrite (Z.div_small l 16) by lia. reflexivity. }
  assert (0 < l / 16 < 16) by (split; [apply Z.div_str_pos|apply Z.div_lt_upper_bound]; lia).
  rewrite (proj2 (Z.eqb_neq (l / 16) 0)), Hs by lia.
  rewrite (Z.div_small (l / 16) 16) by lia. rewrite (Z.mod_small (l / 16) 16) by lia. reflexivity.
Qed.

Lemma sscanf_fmt_04x pid : 0 <= pid < 65536 -> sscanf_x (fmt_04x pid) = Some pid.
Proof.
  intros H. rewrite fmt_04x_hex4 by done. unfold hex4.
  assert (H3 : 0 <= pid / 16 / 16 / 16 < 16).
  { rewrite !Z.div_div by lia. split; [apply Z.div_pos|apply Z.div_lt_upper_bound]; lia. }
  pose proof (Z.mod_pos_bound (pid / 16 / 16) 16 ltac:(lia)) as H2.
  pose proof (Z.mod_pos_bound (pid / 16) 16 ltac:(lia)) as H1.
  pose proof (Z.mod_pos_bound pid 16 ltac:(lia)) as H0.
  destruct (digit_facts _ H3) as (A1 & A2 & A3 & A4 & _ & A6).
  destruct (digit_facts _ H2) as (B1 & _ & _ & _ & B5 & B6).
  destruct (digit_facts _ H1) as (C1 & _ & _ & _ & _ & C6).
  destruct (digit_facts _ H0) as (D1 & _ & _ & _ & _ & D6).
  unfold sscanf_x. cbn [cstr]. rewrite A1, B1, C1, D1. cbn [skip_spaces]. rewrite A2. cbn [take].
  rewrite A3, A4. cbn [drop_0x]. rewrite B5, andb_false_r. cbn [starts_hex]. rewrite A6.
  rewrite bool_decide_true by done. cbn [scan_hex]. rewrite A6, B6, C6, D6.
  rewrite Z.mul_0_r, Z.add_0_l, <- (Z.div_mod (pid / 16 / 16) 16), <- (Z.div_mod (pid / 16) 16), <- Z.div_mod by lia.
  unfold s32. rewrite u32_small by lia. destruct (Z.ltb_spec pid (2 ^ 31)); [done|lia].
Qed.

Definition got_pid (p : ptr) (fd : Z) (k : JdwpProcess) (st st' : fdstate) (k' : JdwpProcess) : Prop :=
  let new := calls_since (fd_world st) (fd_world st') in
  rest st' = set_procs (<[p := k']> (procs (rest st))) (rest st) /\
  jp_in_buff k' = jp_in_buff k ++ received fd new /\
  jp_in_len k' = Z.of_nat (length (jp_in_buff k')) /\ jp_in_len k' <= 4.

Lemma wp_read_pid p fd st k :
  posix_state st -> procs (rest st) !! p = Some k ->
  jp_in_len k = Z.of_nat (length (jp_in_buff k)) -> jp_in_len k <= 4 ->
  wp (read_pid p fd)
    (fun r st' => exists k', got_pid p fd k st st' k' /\ (r = Next -> length (jp_in_buff k') = 4%nat))
    (fun e st' => e = Blocked /\ exists k', got_pid p fd k st st' k') st.
Proof.
  intros Hp Hk Hn H4.
  set (I := fun st' => exists k' w' new, st' = put w' (put (set_procs (<[p := k']> (procs (rest st))) (rest st)) st) /\
    steps (fd_world st) new w' /\ jp_in_buff k' = jp_in_buff k ++ received fd new /\
    jp_in_len k' = Z.of_nat (length (jp_in_buff k')) /\ jp_in_len k' <= 4).
  assert (HI : forall st', I st' -> exists k', got_pid p fd k st st' k').
  { intros st' (k' & w' & new & -> & S & H). exists k'. unfold got_pid. simpl.
    rewrite (steps_calls_since _ _ _ S). done. }
  unfold read_pid. apply (wp_loop (fun _ => I)).
  { exists k, (fd_world st), []. split_and!; [|apply steps_refl|by rewrite app_nil_r|done|done].
    rewrite insert_id by done. by destruct st as [? ? ? ? ? ? ? ? ? []]. }
  intros _ _ (k1 & w1 & n1 & -> & S1 & E1 & L1 & B1). wp_step. eapply wp_get; [apply lookup_insert_eq|].
  set (st1 := put w1 _).
  assert (I1 : forall w2 n2, steps w1 n2 w2 -> received fd n2 = [] -> I (put w2 st1)).
  { intros w2 n2 S2 R2. exists k1, w2, (n1 ++ n2). split_and!; [done|by eapply steps_trans| |done|done].
    by rewrite received_app, R2, app_nil_r. }
  destruct (Z.leb_spec (4 - jp_in_len k1) 0).
  { apply wp_ret. exists k1. split; [|intros _; lia]. unfold got_pid. simpl.
    rewrite (steps_calls_since _ _ _ S1). done. }
  wp_step. apply (wp_os_syscall (Recv fd (4 - jp_in_len k1))).
  { simpl. by rewrite (steps_env _ _ _ S1). }
  2:{ split; [done|]. apply HI. exists k1, w1, n1. done. }
  cbv zeta. simpl (fd_world st1). intros w2. generalize (w_env w1 (w_hist w1) (Recv fd (4 - jp_in_len k1))).
  intros a S2 Ha. pose proof (steps_budget_lt _ _ _ S2 ltac:(done)) as Hb. destruct a as [[|b bs]|e].
  - apply wp_ret. destruct (HI (put w2 st1)) as (k' & HG); [|by exists k'].
    apply (I1 w2 _ S2). simpl. by destruct (fd =? fd).
  - wp_step. eapply wp_set; [apply lookup_insert_eq|]. apply wp_ret. split; [|exact Hb].
    simpl in Ha. destruct Ha as [Ha _].
    eexists _, w2, (n1 ++ _). split_and!; [|by eapply steps_trans| | |].
    + simpl. rewrite insert_insert_eq. done.
    + simpl. rewrite received_app. simpl. rewrite Z.eqb_refl, !app_nil_r.
      rewrite take_ge by lia. by rewrite E1, app_assoc.
    + simpl. rewrite length_app, length_take. simpl in *. lia.
    + simpl. simpl in Ha. lia.
  - pose proof (I1 w2 _ S2 eq_refl) as I2. destruct (e =? EINTR).
    + apply wp_ret. by split.
    + destruct (HI _ I2) as (k' & HG). destruct (e =? EAGAIN); apply wp_ret; by exists k'.
Qed.

(** A pid is assembled from whatever pieces [recv] delivers, over as many
    events as it takes: after every call the buffer holds the bytes received so
    far, in order, and never more than four.  When the function goes on to
    decode them it has all four, and they decode to the pid they spell. *)
Theorem jdwp_pid_reassembled p fd st k :
  posix_state st -> procs (rest st) !! p = Some k ->
  jp_in_len k = Z.of_nat (length (jp_in_buff k)) -> jp_in_len k <= 4 ->
  let '(o, st') := read_pid p fd st in
  exists k', got_pid p fd k st st' k' /\
  match o with
  | Done Next => length (jp_in_buff k') = 4%nat /\
      forall pid, 0 <= pid < 65536 -> jp_in_buff k' = fmt_04x pid -> sscanf_x (take 4 (jp_in_buff k')) = Some pid
  | Done _ => True
  | Stop e => e = Blocked
  end.
Proof.
  intros Hp Hk Hn H4. pose proof (wp_read_pid p fd st k Hp Hk Hn H4) as W. unfold wp in W.
  destruct (read_pid p fd st) as [[r|e] st'].
  - destruct W as (k' & HG & Hr). exists k'. split; [done|]. destruct r; try done.
    specialize (Hr eq_refl). split; [done|]. intros pid Hpid E. rewrite take_ge by lia.
    rewrite E. by apply sscanf_fmt_04x.
  - destruct W as (-> & k' & HG). by exists k'.
Qed.

(** ** Descriptors on their way to a process *)

(** The descriptors waiting in [out_fds]. *)
Definition out_queue (k : JdwpProcess) : list Z := take (Z.to_nat (jp_out_count k)) (jp_out_fds k).

Definition valid_out (k : JdwpProcess) : Prop :=
  0 <= jp_out_count k <= MAX_OUT_FDS /\ jp_out_count k <= Z.of_nat (length (jp_out_fds k)).

Definition ev_passed (sock : Z) (e : event) : list Z :=
  match e with
  | existT (Sendmsg sock' fd) (Ok _) => if sock' =? sock then [fd] else []
  | _ => []
  end.

Definition ev_closed (e : event) : list Z := match e with existT (Close fd) _ => [fd] | _ => [] end.

(** The descriptors a run passed over a socket, and those it closed. *)
Definition passed (sock : Z) (h : list event) : list Z := h ≫= ev_passed sock.

Definition fds_closed (h : list event) : list Z := h ≫= ev_closed.

Definition moved (sock : Z) (h : list event) : list Z * list Z := (passed sock h, fds_closed h).

Lemma moved_app sock h1 h2 p1 c1 p2 c2 :
  moved sock h1 = (p1, c1) -> moved sock h2 = (p2, c2) -> moved sock (h1 ++ h2) = (p1 ++ p2, c1 ++ c2).
Proof. unfold moved, passed, fds_closed. rewrite !bind_app. by intros [= <- <-] [= <- <-]. Qed.

Lemma moved_nil_r sock h1 h2 r : moved sock h1 = r -> moved sock h2 = ([], []) -> moved sock (h1 ++ h2) = r.
Proof. destruct r as [p c]. intros H1 H2. rewrite (moved_app _ _ _ _ _ _ _ H1 H2). by rewrite !app_nil_r. Qed.

Lemma ospec_send_fd e sock fd :
  ospec e (send_fd sock fd)
    (fun b new _ => moved sock new = if (b : bool) then ([fd], [fd]) else ([], []))
    (blocked (fun _ => True)).
Proof.
  unfold send_fd. apply (ospec_loop (fun _ h _ => moved sock h = ([], []))); [done|].
  intros _ h e1 H. os_step.
  { apply (ospec_syscall _ _ (fun a new _ => new = [ev (Sendmsg sock fd) a])); [done|by split]. }
  intros a n1 e2 ->. destruct a as [n|err].
  - os_call ospec_close; [by intros x new [-> _]|]. intros a n2 e3 ->. os_step. rewrite app_nil_r.
    apply (moved_app _ _ _ [] [] [fd] [fd]); [done|]. unfold moved, passed, fds_closed. simpl.
    by rewrite Z.eqb_refl.
  - destruct (err =? EINTR); os_step; rewrite app_nil_r; [split; [done|]|]; by apply moved_nil_r.
Qed.

Lemma shift_out_queue fd q l count :
  take (Z.to_nat count) l = fd :: q -> 0 <= count <= Z.of_nat (length l) ->
  take (Z.to_nat (count - 1)) (shift_out count l) = q /\
  take (Z.to_nat count) (shift_out count l) = q ++ [default fd (last q)] /\
  length (shift_out count l) = length l.
Proof.
  intros E Hc. destruct l as [|x l]; [by rewrite take_nil in E|].
  destruct (Z.to_nat count) as [|c] eqn:Ec; [done|]. simpl in E. injection E as -> Eq.
  unfold shift_out. rewrite Z.max_r by lia. replace (Z.to_nat (count - 1)) with c by lia.
  change (drop 1 (fd :: l)) with l. rewrite Eq. simpl in Hc.
  assert (Hq : length q = c) by (rewrite <- Eq, length_take; lia).
  assert (Hd : drop c (fd :: l) = default fd (last q) :: drop (S c) (fd :: l)).
  { apply drop_S. rewrite <- Eq. destruct c as [|c].
    - by rewrite take_0.
    - simpl. destruct (lookup_lt_is_Some_2 l c ltac:(lia)) as [y Hy]. rewrite Hy. f_equal.
      rewrite (take_S_r _ _ _ Hy), last_snoc. done. }
  rewrite Hd. split_and!.
  - rewrite <- Hq. apply take_app_length.
  - rewrite <- Hq at 1. rewrite cons_middle, app_assoc.
    replace (S (length q)) with (length (q ++ [default fd (last q)])) by (rewrite length_app; simpl; lia).
    apply take_app_length.
  - rewrite length_app. simpl. rewrite length_drop. lia.
Qed.

(** How [pass_fd] leaves the process at [p]. *)
Definition out_state (p : ptr) (st st' : fdstate) (k' : JdwpProcess) : Prop :=
  procs (rest st') !! p = Some k' /\ valid_out k'.

(** How an event that may pass on the descriptor [fd], with [q] queued behind
    it, ends. *)
Definition passed_on (p : ptr) (k : JdwpProcess) (fd : Z) (q : list Z) (st : fdstate) (a : after) (st' : fdstate) : Prop :=
  exists k', out_state p st st' k' /\
  let m := moved (jp_socket k) (calls_since (fd_world st) (fd_world st')) in
  (a = Return /\ m = ([fd], [fd]) /\ out_queue k' = q /\
   (q = [] -> exists f', obj st' (jp_fde k) = Some f' /\ has (fde_state f') FDE_WRITE = false)) \/
  (a = CloseProcess /\ m = ([], []) /\ out_queue k' = fd :: q) \/
  (a = CloseProcess /\ m = ([fd], [fd]) /\ out_queue k' = q ++ [default fd (last q)]).

(** A writable event passes the descriptor that has waited longest to the
    process, closes it in adbd, takes it off the queue, and stops waiting for
    FDE_WRITE when the queue is empty.  When the event ends in closing the
    connection, either the descriptor was not sent and is still queued, or the
    flags of the socket could not be restored after it was sent; then the
    queue still has its old length, with its last descriptor in it twice (or,
    when it was the only one, the descriptor that has just been closed). *)
Theorem jdwp_pass_fd p st k fd q pend :
  fd_inv st pend -> posix_state st -> procs (rest st) !! p = Some k -> valid_out k ->
  is_Some (fde_heap st !! jp_fde k) -> out_queue k = fd :: q ->
  match pass_fd p st with
  | (Done a, st') => passed_on p k fd q st a st'
  | (Stop e, _) => e = Blocked
  end.
Proof.
  intros Hi Hp Hk [Hv1 Hv2] [f Hf] Hq. set (sk := jp_socket k).
  set (R := passed_on p k fd q st).
  change (wp (pass_fd p) R (fun e _ => e = Blocked) st).
  unfold out_queue in Hq. destruct (shift_out_queue _ _ _ _ Hq ltac:(lia)) as (Q1 & Q2 & Q3).
  assert (Hpos : 0 < jp_out_count k) by (destruct (Z.to_nat (jp_out_count k)) eqn:E; [done|lia]).
  assert (Hk0 : forall w new, steps (fd_world st) new w -> moved sk new = ([], []) -> R CloseProcess (put w st)).
  { intros w new S M. exists k. split; [done|]. simpl. rewrite (steps_calls_since _ _ _ S). by right; left. }
  unfold pass_fd. wp_step. eapply wp_get; [exact Hk|]. rewrite (proj2 (Z.leb_gt _ _) Hpos).
  wp_step. apply wp_must with (a := fd).
  { destruct (jp_out_fds k); [by rewrite take_nil in Hq|]. destruct (Z.to_nat (jp_out_count k)); [done|].
    by injection Hq as ->. }
  wp_step. sys; [|done]. intros [flags|e] w1 S1; [|apply wp_ret; by apply (Hk0 w1 _ S1)].
  wp_step. sys; [|done]. intros [[]|e] w2 S2; pose proof (steps_trans _ _ _ _ _ S1 S2) as S12;
    [|apply wp_ret; by apply (Hk0 w2 _ S12)].
  wp_step. eapply ospec_os; [apply ospec_send_fd|simpl; by rewrite (steps_env _ _ _ S12)| |by intros x new w [-> _]].
  intros b n3 w3 S3 M3. pose proof (steps_trans _ _ _ _ _ S12 S3) as S13.
  destruct b; cbn [negb]; [|apply wp_ret; by apply (Hk0 w3 _ S13)].
  wp_step. eapply wp_set; [exact Hk|]. set (k1 := set_out _ _ k).
  set (st1 := put (put (<[p := k1]> _) _) _).
  assert (L1 : procs (rest st1) !! p = Some k1) by apply lookup_insert_eq.
  wp_step. sys; [|done]. intros [[]|e] w4 S4; pose proof (steps_trans _ _ _ _ _ S13 S4) as S14;
    assert (M14 : moved sk (((([ev (Getfl sk) (Ok flags)] ++ [ev (Setfl sk (clear flags O_NONBLOCK)) (Ok tt)]) ++ n3))) = ([fd], [fd])) by exact M3.
  - wp_step. eapply wp_set; [exact L1|]. set (k2 := set_out _ _ k1). set (st2 := put (put (<[p := k2]> _) _) _).
    assert (L2 : procs (rest st2) !! p = Some k2) by apply lookup_insert_eq.
    wp_step. eapply wp_get; [exact L2|].
    assert (V2 : valid_out k2) by (unfold valid_out; simpl; rewrite Q3; lia).
    assert (O2 : out_queue k2 = q) by exact Q1.
    assert (Hlen : (jp_out_count k2 =? 0) = false -> q <> []).
    { intros E%Z.eqb_neq Eq. rewrite Eq in O2. apply (f_equal length) in O2. unfold out_queue in O2.
      rewrite length_take in O2. simpl in *. rewrite Q3 in O2. lia. }
    wp_step. wp_step.
    + apply (wp_unwatch (jp_fde k) f 1 pend); [by repeat first [apply fd_inv_world | apply fd_inv_rest]|done|lia|].
      intros st' pend' Hi' Hw Hr Hf'. apply wp_ret. exists k2. split; [split; [by rewrite Hr|done]|].
      left. rewrite Hw. simpl. rewrite (steps_calls_since _ _ _ S14). split_and!; [done| |done|done].
      by apply moved_nil_r.
    + apply wp_ret. exists k2. split; [done|]. left. simpl. rewrite (steps_calls_since _ _ _ S14).
      split_and!; [done|by apply moved_nil_r|done|]. intros E. by destruct (Hlen H).
  - apply wp_ret. exists k1. split; [split; [done|unfold valid_out; simpl; rewrite Q3; lia]|]. right. right.
    simpl. rewrite (steps_calls_since _ _ _ S14). split_and!; [done|by apply moved_nil_r|exact Q2].
Qed.

(** ** Connecting a debugger *)

Definition ev_pair (e : event) : list (Z * Z) :=
  match e with existT Socketpair (Ok fds) => [fds] | _ => [] end.

(** The socket pairs a run created. *)
Definition pairs (h : list event) : list (Z * Z) := h ≫= ev_pair.

Lemma ospec_socketpair e :
  ospec e adb_socketpair
    (fun r new _ => match r with Ok fds => pairs new = [fds] | Err _ => pairs new = [] end)
    (blocked (fun _ => True)).
Proof.
  assert (Hc : forall e fd, ospec e (close_on_exec fd) (fun _ new _ => pairs new = []) (blocked (fun _ => True))).
  { intros e0 fd. unfold close_on_exec. os_step.
    - apply (ospec_syscall _ _ (fun a new _ => pairs new = [])); [done|by split].
    - intros a n1 e1 H. os_step. by rewrite app_nil_r. }
  unfold adb_socketpair. os_step.
  { apply (ospec_syscall _ _ (fun a new _ => new = [ev Socketpair a])); [done|by split]. }
  intros a n1 e1 ->. destruct a as [[s0 s1]|err]; [|by os_step].
  os_call Hc; [by intros x new [-> _]|]. intros [] n2 e2 H2.
  os_call Hc; [by intros x new [-> _]|]. intros [] n3 e3 H3. os_step.
  unfold pairs in *. rewrite !bind_app, H2, H3. done.
Qed.

Lemma wp_find_process pid xs p ys k Q X st :
  dll (procs (rest st)) _jdwp_list (xs ++ p :: ys) ->
  (forall x kx, x ∈ xs -> procs (rest st) !! x = Some kx -> jp_pid kx <> pid) ->
  procs (rest st) !! p = Some k -> jp_pid k = pid -> Q (Some p) st ->
  wp (list_scan (T := JdwpProcess) _jdwp_list (fun p =>
        k ← proc p; mret (if jp_pid k =? pid then Some p else None))) Q X st.
Proof.
  intros Hl Hx Hk Hpid HQ.
  apply (wp_list_scan (fun _ todo st' => st' = st /\ exists xs', todo = xs' ++ p :: ys /\ xs' ⊆ xs) _ _ (xs ++ p :: ys));
    [done|by eauto| |].
  - intros seen x todo st' Hd [-> (xs' & E & Hsub)].
    destruct (dll_is_Some _ _ _ x Hd) as [kx Hkx]; [set_solver|]. simpl in Hkx. wp_step.
    eapply wp_get; [exact Hkx|]. apply wp_ret. destruct xs' as [|x' xs']; simplify_eq/=.
    + by rewrite Z.eqb_refl.
    + rewrite (proj2 (Z.eqb_neq _ _)) by (apply (Hx x'); [set_solver|done]).
      split; [done|]. split; [done|]. exists xs'. split; [done|set_solver].
  - intros st' _ [-> (xs' & E & _)]. by destruct xs'.
Qed.

(** A debugger asking for a pid is given one end of a new socket pair; the
    other end goes to the back of that process's queue, and the process's
    event object waits for FDE_WRITE when the queue was empty.  With
    MAX_OUT_FDS descriptors already waiting the request is refused before
    anything is created, so the array never overflows. *)
Theorem jdwp_connection_queued pid xs p ys k st pend :
  fd_inv st pend -> posix_state st -> dll (procs (rest st)) _jdwp_list (xs ++ p :: ys) ->
  (forall x kx, x ∈ xs -> procs (rest st) !! x = Some kx -> jp_pid kx <> pid) ->
  procs (rest st) !! p = Some k -> jp_pid k = pid -> valid_out k -> is_Some (fde_heap st !! jp_fde k) ->
  match create_jdwp_connection_fd pid st with
  | (Done r, st') =>
      let new := calls_since (fd_world st) (fd_world st') in
      if jp_out_count k =? MAX_OUT_FDS then r = -1 /\ st' = st else
      exists k', procs (rest st') !! p = Some k' /\ valid_out k' /\
        ((pairs new = [] /\ r = -1 /\ k' = k) \/
         (exists fd1, pairs new = [(r, fd1)] /\ out_queue k' = out_queue k ++ [fd1] /\
            (out_queue k = [] ->
               exists f', obj st' (jp_fde k) = Some f' /\ has (fde_state f') FDE_WRITE = true)))
  | (Stop e, _) => e = Blocked
  end.
Proof.
  intros Hi Hp Hl Hx Hk Hpid [Hv1 Hv2] [f Hf]. unfold MAX_OUT_FDS in *.
  assert (W : wp (create_jdwp_connection_fd pid)
    (fun r st' => let new := calls_since (fd_world st) (fd_world st') in
      if jp_out_count k =? 4 then r = -1 /\ st' = st else
      exists k', procs (rest st') !! p = Some k' /\ valid_out k' /\
        ((pairs new = [] /\ r = -1 /\ k' = k) \/
         (exists fd1, pairs new = [(r, fd1)] /\ out_queue k' = out_queue k ++ [fd1] /\
            (out_queue k = [] ->
               exists f', obj st' (jp_fde k) = Some f' /\ has (fde_state f') FDE_WRITE = true))))
    (fun e _ => e = Blocked) st); [|exact W].
  unfold create_jdwp_connection_fd. wp_step. eapply wp_find_process; [done..|].
  wp_step. eapply wp_get; [exact Hk|]. unfold MAX_OUT_FDS.
  destruct (Z.eqb_spec (jp_out_count k) 4) as [E|Hne].
  { rewrite E. by apply wp_ret. }
  rewrite (Z.geb_leb _ 4), (proj2 (Z.leb_gt _ _)) by lia. wp_step.
  eapply ospec_os; [apply ospec_socketpair|done| |by intros x new w [-> _]].
  intros [[fd0 fd1]|e] new w1 S1 Hpr.
  2:{ apply wp_ret. exists k. simpl. rewrite (steps_calls_since _ _ _ S1). split_and!; [done|done|by left]. }
  wp_step. eapply wp_set; [exact Hk|]. set (k1 := set_out _ _ k). wp_step.
  eapply wp_get; [apply lookup_insert_eq|]. set (st1 := put (put _ _) _).
  assert (Eq : out_queue k1 = out_queue k ++ [fd1]).
  { unfold out_queue. simpl. rewrite Z2Nat.inj_add by lia. apply take_ge.
    rewrite length_app, length_take. simpl. lia. }
  assert (V1 : valid_out k1).
  { unfold valid_out, MAX_OUT_FDS. simpl. rewrite length_app, length_take. simpl. lia. }
  wp_step. wp_step.
  - apply (wp_watch (jp_fde k) f 1 pend); [by repeat first [apply fd_inv_world | apply fd_inv_rest]|done|lia|].
    intros st' pend' Hi' Hw Hr Hf'. apply wp_ret. exists k1. rewrite Hr, Hw. simpl.
    rewrite (steps_calls_since _ _ _ S1). split_and!; [apply lookup_insert_eq|done|]. right. by exists fd1.
  - apply wp_ret. exists k1. simpl. rewrite (steps_calls_since _ _ _ S1).
    split_and!; [apply lookup_insert_eq|done|]. right. exists fd1. split_and!; [done|done|].
    intros E0. apply (f_equal length) in E0. unfold out_queue in E0. rewrite length_take in E0.
    apply Z.eqb_neq in H. simpl in *. lia.
Qed.

(** ** Witnesses *)

(** One process at 7, with descriptors waiting. *)
Definition vm (pid : Z) (buff : bytes) (fds : list Z) : JdwpProcess :=
  {| jp_next := _jdwp_list; jp_prev := _jdwp_list; jp_pid := pid; jp_socket := 5; jp_fde := demo_ptr;
     jp_in_buff := buff; jp_in_len := Z.of_nat (length buff); jp_out_fds := fds;
     jp_out_count := Z.of_nat (length fds) |}.

Definition vm_procs (k : JdwpProcess) : gmap N JdwpProcess :=
  <[7%N := k]> {[_jdwp_list := set_next 7%N (set_prev 7%N no_process)]}.

Definition vm_state (e : env) (k : JdwpProcess) : fdstate :=
  put (boot e 100) (put (set_procs (vm_procs k) globals_boot) demo_state).

Lemma vm_inv e k : fd_inv (vm_state e k) [].
Proof. apply fd_inv_world, fd_inv_rest, demo_inv. Qed.

Lemma vm_fde e k : jp_fde k = demo_ptr -> is_Some (fde_heap (vm_state e k) !! jp_fde k).
Proof. intros ->. vm_compute. by eexists. Qed.

Lemma vm_list e k : jp_next k = _jdwp_list -> jp_prev k = _jdwp_list ->
  dll (procs (rest (vm_state e k))) _jdwp_list [7%N].
Proof.
  intros H1 H2. split; [apply NoDup_cons; split; [set_solver|apply NoDup_singleton]|].
  simpl. unfold vm_procs, next_is, prev_is.
  rewrite lookup_insert_eq, lookup_insert_ne, lookup_singleton_eq by done. simpl. rewrite H1, H2. done.
Qed.

(** The process sends its pid in two pieces. *)
Definition pid_env : env := fun h c =>
  match c return ans c with
  | Recv _ n => Ok (take (Z.to_nat (Z.min n 3)) (drop (length (received 5 h)) (str "4d")))
  | c => ok_default c
  end.

Lemma pid_env_posix : posix pid_env.
Proof.
  intros h c. destruct c; try apply ok_default_answer. simpl. split; [rewrite length_take; lia|].
  apply Forall_take, Forall_drop. repeat constructor; vm_compute; intuition discriminate.
Qed.

Lemma quiet_posix : posix (fun _ => ok_default).
Proof. intros h c. apply ok_default_answer. Qed.

Lemma jdwp_process_list_text_witness :
  exists shown hidden, announced [77] = shown ++ hidden /\
    jdwp_process_list 16 (vm_state (fun _ => ok_default) (vm 77 [] [])) =
      (Done (shown ≫= pid_line), vm_state (fun _ => ok_default) (vm 77 [] [])) /\
    Z.of_nat (length (shown ≫= pid_line)) < 16 /\
    match hidden with
    | [] => True
    | pid :: _ => 16 <= Z.of_nat (length ((shown ++ [pid]) ≫= pid_line))
    end.
Proof.
  apply (jdwp_process_list_text (vm_state (fun _ => ok_default) (vm 77 [] [])) [77] 16).
  - exists [7%N]. split; [by apply vm_list|]. by repeat constructor.
  - lia.
Defined.

Lemma jdwp_pid_reassembled_witness :
  let k := vm (-1) (str "00") [] in
  let '(o, st') := read_pid 7%N 5 (vm_state pid_env k) in
  exists k', got_pid 7%N 5 k (vm_state pid_env k) st' k' /\
  match o with
  | Done Next => length (jp_in_buff k') = 4%nat /\
      forall pid, 0 <= pid < 65536 -> jp_in_buff k' = fmt_04x pid -> sscanf_x (take 4 (jp_in_buff k')) = Some pid
  | Done _ => True
  | Stop e => e = Blocked
  end.
Proof.
  apply (jdwp_pid_reassembled 7%N 5 (vm_state pid_env (vm (-1) (str "00") [])) (vm (-1) (str "00") [])).
  - exact pid_env_posix.
  - reflexivity.
  - reflexivity.
  - vm_compute. discriminate.
Defined.

Lemma jdwp_pass_fd_witness :
  let k := vm 77 [] [30; 31] in
  let st := vm_state (fun _ => ok_default) k in
  match pass_fd 7%N st with
  | (Done a, st') =>
      exists k', out_state 7%N st st' k' /\
      let m := moved (jp_socket k) (calls_since (fd_world st) (fd_world st')) in
      (a = Return /\ m = ([30], [30]) /\ out_queue k' = [31] /\
       ([31] = [] -> exists f', obj st' (jp_fde k) = Some f' /\ has (fde_state f') FDE_WRITE = false)) \/
      (a = CloseProcess /\ m = ([], []) /\ out_queue k' = [30; 31]) \/
      (a = CloseProcess /\ m = ([30], [30]) /\ out_queue k' = [31] ++ [default 30 (last [31])])
  | (Stop e, _) => e = Blocked
  end.
Proof.
  apply (jdwp_pass_fd 7%N (vm_state (fun _ => ok_default) (vm 77 [] [30; 31])) (vm 77 [] [30; 31]) 30 [31] []).
  - apply vm_inv.
  - exact quiet_posix.
  - reflexivity.
  - split; vm_compute; [split; discriminate|discriminate].
  - by apply vm_fde.
  - reflexivity.
Defined.

Lemma jdwp_connection_queued_witness :
  let k := vm 77 [] [] in
  let st := vm_state (fun _ => ok_default) k in
  match create_jdwp_connection_fd 77 st with
  | (Done r, st') =>
      let new := calls_since (fd_world st) (fd_world st') in
      if jp_out_count k =? MAX_OUT_FDS then r = -1 /\ st' = st else
      exists k', procs (rest st') !! 7%N = Some k' /\ valid_out k' /\
        ((pairs new = [] /\ r = -1 /\ k' = k) \/
         (exists fd1, pairs new = [(r, fd1)] /\ out_queue k' = out_queue k ++ [fd1] /\
            (out_queue k = [] ->
               exists f', obj st' (jp_fde k) = Some f' /\ has (fde_state f') FDE_WRITE = true)))
  | (Stop e, _) => e = Blocked
  end.
Proof.
  apply (jdwp_connection_queued 77 [] 7%N [] (vm 77 [] []) (vm_state (fun _ => ok_default) (vm 77 [] [])) []).
  - apply vm_inv.
  - exact quiet_posix.
  - by apply vm_list.
  - intros x kx Hx. by apply elem_of_nil in Hx.
  - reflexivity.
  - reflexivity.
  - split; vm_compute; [split; discriminate|discriminate].
  - by apply vm_fde.
Defined.
