(* ===== verification/ProtocolSpec.v ===== *)
(** * Runs of the packet handler

    Whole conversations, evaluated: how a service is opened, fed and closed,
    and the places where the daemon does something else than its comments
    say. *)

From S2P Require Import Prelude Effects DList Os Sysdeps Wire Globals Fdevent Transport FdeventFacts FdeventLoop FdeventReg Sockets Jdwp Auth Protocol Frame AuthSpec.

(** ** A daemon with two transports *)

(** Transports at 5 and 15, both online, before the first packet. *)
Definition adbd (e : env) : fdstate := put (auth_globals 1) (fd_boot e 400).

Definition on (t : ptr) (p : pkt) : F unit :=
  handle_packet 4 demo_b64 demo_rsa (str "device") (fun _ => mret 7) false p t.

(** What went out, as (transport, command, arg0, arg1, payload). *)
Definition outbox (st : fdstate) : list (ptr * Z * Z * Z * bytes) :=
  (fun '(t, p) => (t, command (msg p), arg0 (msg p), arg1 (msg p), data p)) <$> sent (rest st).

Definition open_sockets (st : fdstate) : gset N :=
  dom (sockets (rest st)) ∖ {[local_socket_list; local_socket_closing_list]}.

Definition quiet_env : env := stream_env (fun _ => []).

(** A shell session from OPEN to CLSE: the OPEN is acknowledged with the
    id of the new socket, the WRTE is written to the service's descriptor and
    acknowledged, the CLSE is answered with a CLSE that names both sockets, and
    afterwards no socket is left and every packet has been freed or sent. *)
Theorem shell_session :
  let '(o, st) :=
    (on 5 (auth_pkt 1 A_OPEN 77 0 (str "shell:" ++ [0]));;
     on 5 (auth_pkt 2 A_WRTE 77 1 (str "ls"));;
     on 5 (auth_pkt 3 A_CLSE 77 1 [])) (adbd quiet_env) in
  o = Done tt /\
  outbox st = [(5%N, A_OKAY, 1, 77, []); (5%N, A_OKAY, 1, 77, []); (5%N, A_CLSE, 1, 77, [])] /\
  written_to 7 (w_hist (fd_world st)) = str "ls" /\
  open_sockets st = ∅ /\ live (rest st) = {[4]}.
Proof. vm_compute. split_and!; reflexivity. Qed.

(** The "jdwp" service closes its connection on the second OKAY, as its
    comment says, but the other side is not told: both sockets are gone and no
    CLSE has been sent. *)
Theorem jdwp_service_closes_silently :
  let '(o, st) :=
    (init_jdwp 4;;
     on 5 (auth_pkt 1 A_OPEN 77 0 (str "jdwp" ++ [0]));;
     on 5 (auth_pkt 2 A_OKAY 77 1 [])) (adbd quiet_env) in
  o = Done tt /\
  outbox st = [(5%N, A_OKAY, 1, 77, []); (5%N, A_WRTE, 1, 77, [])] /\ open_sockets st = ∅.
Proof. vm_compute. split_and!; reflexivity. Qed.

(** [close_all_sockets], which runs when a transport's thread ends, frees a
    tracker as if it were a local socket and leaves it on the list of
    trackers; the next change of the process list reads freed memory. *)
Theorem tracker_dangles_after_close_all :
  let '(o, st) :=
    (init_jdwp 4;;
     on 5 (auth_pkt 1 A_OPEN 77 0 (str "track-jdwp" ++ [0]));;
     close_all_sockets (calls 4) 5%N;;
     jdwp_process_list_updated (calls 4)) (adbd quiet_env) in
  o = Stop (Undef "dangling pointer") /\ open_sockets st = ∅.
Proof. vm_compute. split_and!; reflexivity. Qed.

(** A CLSE with a non-zero local-id is matched by the two ids alone: a
    transport that names the ids of another transport's connection closes it,
    although the same packet with a zero local-id is refused. *)
Theorem close_from_another_transport :
  let run m := (on 5 (auth_pkt 1 A_OPEN 77 0 (str "shell:" ++ [0]));; m) (adbd quiet_env) in
  open_sockets (run (on 15 (auth_pkt 2 A_CLSE 0 1 []))).2 <> ∅ /\
  open_sockets (run (on 15 (auth_pkt 2 A_CLSE 77 1 []))).2 = ∅.
Proof. vm_compute. split; [discriminate|reflexivity]. Qed.

(** Descriptor 11 delivers data, descriptor 12 is broken. *)
Definition broken_peer_env : env := fun h c =>
  match c return ans c with
  | Read fd n => if fd =? 11 then Ok (take (Z.to_nat n) (drop (length (read_from 11 h)) (str "data"))) else Ok []
  | Write fd bs => if fd =? 12 then Err 32 else Ok (Z.of_nat (length bs))
  | c => ok_default c
  end.

(** When two local sockets are connected (as the services of the host are)
    and the write to the second fails, [local_socket_enqueue] closes both and
    returns 1, "not ready"; the reader, which expects a negative result when it
    was closed, goes on to use its freed socket. *)
Theorem local_pair_use_after_free :
  let '(o, st) :=
    (a ← create_local_socket 4 11;
     b ← create_local_socket 4 12;
     set_sock a (set_peer b);; set_sock b (set_peer a);;
     local_socket_event_func (calls 4) 11 FDE_READ a) (adbd broken_peer_env) in
  o = Stop (Undef "dangling pointer") /\ open_sockets st = ∅.
Proof. vm_compute. split; reflexivity. Qed.

(** Restoring the flags of the process's socket fails. *)
Definition setfl_fails_env : env := fun h c =>
  match c return ans c with
  | Setfl _ _ => match last h with Some (existT (Close _) _) => Err EBADF | _ => Ok tt end
  | c => ok_default c
  end.

(** When the flags of the socket cannot be restored after a descriptor has
    been passed, the connection is closed with the descriptor still counted:
    descriptor 4, closed once after it was sent, is closed again. *)
Theorem jdwp_descriptor_closed_twice :
  let '(o, st) :=
    (init_jdwp 4;;
     p ← jdwp_process_alloc 4 12;
     set (T := JdwpProcess) p (set_pid 100);;
     create_jdwp_connection_fd 100;;
     jdwp_process_event (calls 4) 12 FDE_WRITE p) (adbd setfl_fails_env) in
  o = Done tt /\
  closed_fds (w_hist (fd_world st)) = [4; 12; 4].
Proof. vm_compute. split; reflexivity. Qed.
