(* ===== verification/Services.v ===== *)
(** * The small services: log, framebuffer, backup and remount

    log_service.c, framebuffer_service.c, backup_service.c and
    remount_service.c.  Each is a function of the calls it makes; a [fork] is
    followed in the process the environment's answer puts it in (0 is the
    child), and [execvp] or [exit] end the run of a child. *)

From S2P Require Import Prelude Effects Os Sysdeps.

(** ** log_service.c *)

Definition LOGGER_ENTRY_MAX_LEN : Z := 5 * 1024.

(** [sizeof(struct logger_entry)] *)
Definition sizeof_logger_entry : Z := 20.

(** [entry->len], the first two bytes. *)
Definition entry_len (buf : bytes) : Z := le_val (take 2 buf).

(** [write_log_entry(fd, buf)]: the header and [len] bytes of payload. *)
Definition write_log_entry (fd : Z) (buf : bytes) : M world unit :=
  writex fd (take (Z.to_nat (sizeof_logger_entry + entry_len buf)) buf);; skip.

(** [get_log_file_path(log_name)] *)
Definition get_log_file_path (log_name : bytes) : bytes := str "/dev/log/" ++ log_name.

(** One turn of [while (1)]; [buf] is the part of the array of
    LOGGER_ENTRY_MAX_LEN + 1 bytes that has been written, of which [msg[len]]
    is set to NUL. *)
Definition log_step (fd logfd : Z) (buf : bytes) : M world (bytes + unit) :=
  ret ← adb_read logfd LOGGER_ENTRY_MAX_LEN;
  match ret with
  | Err e => if (e =? EINTR) || (e =? EAGAIN) then mret (inl buf) else mret (inr tt)
  | Ok [] => mret (inr tt)
  | Ok bs =>
      let buf := bs ++ drop (length bs) buf in
      let i := sizeof_logger_entry + entry_len buf in
      if LOGGER_ENTRY_MAX_LEN <? i then undef "msg[len] after the buffer" else
      if Z.of_nat (length buf) <? i then undef "indeterminate bytes of the entry" else
      let buf := take (Z.to_nat i) buf ++ 0 :: drop (S (Z.to_nat i)) buf in
      write_log_entry fd buf;;
      mret (inl buf)
  end.

Definition log_service (fd : Z) (log_filepath : bytes) : M world unit :=
  a ← unix_open log_filepath O_RDONLY 0;
  (match a with
   | Ok logfd =>
       if logfd <? 0 then skip
       else loop (log_step fd logfd) []
   | Err _ => skip
   end);;
  syscall (Close fd);;
  skip.

(** ** framebuffer_service.c *)

Definition DDMS_RAWIMAGE_VERSION : Z := 1.

(** The members of [struct fbinfo] in the order they are stored. *)
Record fbinfo := {
  fb_bpp : Z;
  fb_size : Z;
  fb_width : Z;
  fb_height : Z;
  fb_red : Z * Z;
  fb_blue : Z * Z;
  fb_green : Z * Z;
  fb_alpha : Z * Z;
}.

Definition fbinfo_words (i : fbinfo) : list Z :=
  [DDMS_RAWIMAGE_VERSION; fb_bpp i; fb_size i; fb_width i; fb_height i; (fb_red i).1; (fb_red i).2;
   (fb_blue i).1; (fb_blue i).2; (fb_green i).1; (fb_green i).2; (fb_alpha i).1; (fb_alpha i).2].

Definition fbinfo_bytes (i : fbinfo) : bytes := fbinfo_words i ≫= le32.

(** [switch (f)]: bits per pixel, bytes per pixel, and offset and length of
    red, green, blue and alpha. *)
Definition fb_format (f : Z) : option (Z * Z * (Z * Z) * (Z * Z) * (Z * Z) * (Z * Z)) :=
  match f with
  | 1 => Some (32, 4, (0, 8), (8, 8), (16, 8), (24, 8))
  | 2 => Some (32, 4, (0, 8), (8, 8), (16, 8), (24, 0))
  | 3 => Some (24, 3, (0, 8), (8, 8), (16, 8), (24, 0))
  | 4 => Some (16, 2, (11, 5), (5, 6), (0, 5), (0, 0))
  | 5 => Some (32, 4, (16, 8), (8, 8), (0, 8), (24, 8))
  | _ => None
  end.

Definition int_range (x : Z) : bool := (- 2 ^ 31 <=? x) && (x <? 2 ^ 31).

(** [fbinfo] for a screen of [w] by [h] in format [f]; [w * h * 4] is computed
    in [int]. *)
Definition make_fbinfo (w h f : Z) : M world (option fbinfo) :=
  match fb_format f with
  | None => mret None
  | Some (bpp, pixel, red, green, blue, alpha) =>
      if int_range (w * h) && int_range (w * h * pixel) then
        mret (Some {| fb_bpp := bpp; fb_size := u32 (w * h * pixel); fb_width := u32 w; fb_height := u32 h;
                      fb_red := red; fb_blue := blue; fb_green := green; fb_alpha := alpha |})
      else undef "signed overflow in the size of the screen"
  end.

(** [for(i = 0; i < fbinfo.size; i += bsize)] with a buffer of 640 bytes;
    [true] when the whole image was copied. *)
Definition copy_pixels (fd fd_screencap size : Z) : M world bool :=
  loop (fun i =>
    if size <=? i then mret (inr true) else
    let bsize := if u32 (i + 640) >? size then u32 (size - i) else 640 in
    b ← readx fd_screencap bsize;
    match b with
    | None => mret (inr false)
    | Some bs =>
        r ← writex fd bs;
        if negb (r =? 0) then mret (inr false) else mret (inl (u32 (i + bsize)))
    end) 0.

Definition read_int (fd : Z) : M world (option Z) :=
  b ← readx fd 4;
  mret ((fun bs => s32 (le_val bs)) <$> b).

(** From reading the size of the screen to the label [done]. *)
Definition framebuffer_copy (fd fd_screencap : Z) : M world unit :=
  w ← read_int fd_screencap;
  match w with None => skip | Some w =>
  h ← read_int fd_screencap;
  match h with None => skip | Some h =>
  f ← read_int fd_screencap;
  match f with None => skip | Some f =>
  i ← make_fbinfo w h f;
  match i with None => skip | Some i =>
  r ← writex fd (fbinfo_bytes i);
  if negb (r =? 0) then skip else
  copy_pixels fd fd_screencap (fb_size i);; skip
  end end end end.

Definition framebuffer_service (fd : Z) : M world unit :=
  p ← syscall Pipe;
  (match p with
   | Err _ => skip
   | Ok (fds0, fds1) =>
       pid ← syscall Fork;
       let pid := rc_int pid in
       (if pid <? 0 then skip else
        if pid =? 0 then
          syscall (Dup2 fds1 1);;
          syscall (Close fds0);;
          syscall (Close fds1);;
          syscall (Execvp (str "screencap") [str "screencap"]);;
          abort "exit"
        else framebuffer_copy fd fds0);;
       temp_failure_retry (Waitpid pid);;
       syscall (Close fds0);;
       syscall (Close fds1);;
       skip
   end);;
  syscall (Close fd);;
  skip.

(** ** backup_service.c *)

Inductive BackupOperation := BACKUP | RESTORE.

(** The first loop of the child: how many arguments [args] holds. *)
Fixpoint count_args (in_arg : bool) (args : bytes) : Z :=
  match args with
  | [] => 0
  | c :: args' =>
      (if in_arg then 0 else 1) + count_args (negb (c =? 58)) args'
  end.

(** The second loop: the arguments themselves, cut at the colons. *)
Fixpoint split_args (cur : option bytes) (args : bytes) : list bytes :=
  match args with
  | [] => match cur with Some a => [a] | None => [] end
  | c :: args' =>
      let a := default [] cur in
      if c =? 58 then a :: split_args None args' else split_args (Some (a ++ [c])) args'
  end.

Definition bu_args (op : BackupOperation) (args : bytes) (s1 : Z) : list bytes :=
  [str "bu"; fmt_d s1; match op with BACKUP => str "backup" | RESTORE => str "restore" end]
  ++ split_args None args.

(** The bytes [alloca] reserves for [bu_args], and those the array of pointers
    with its final NULL takes. *)
Definition bu_args_reserved (sizeof_ptr : Z) (args : bytes) : Z := (3 + count_args false args) * sizeof_ptr + 1.

Definition bu_args_needed (sizeof_ptr : Z) (op : BackupOperation) (args : bytes) (s1 : Z) : Z :=
  (Z.of_nat (length (bu_args op args s1)) + 1) * sizeof_ptr.

(** [backup_child_waiter], the thread that waits for the child. *)
Definition backup_child_waiter (pid fd : Z) : M world unit :=
  syscall (Waitpid pid);;
  adb_close fd;;
  skip.

Definition backup_service (op : BackupOperation) (args : bytes) : M world Z :=
  s ← syscall Socketpair;
  match s with
  | Err _ => mret (-1)
  | Ok (s0, s1) =>
      close_on_exec s0;;
      pid ← syscall Fork;
      let pid := rc_int pid in
      if pid <? 0 then adb_close s0;; adb_close s1;; mret (-1) else
      if pid =? 0 then
        adb_close s0;;
        syscall (Execvp (str "/system/bin/bu") (bu_args op args s1));;
        abort "exit"
      else
        adb_close s1;;
        t ← syscall (Thread_create "backup_child_waiter");
        match t with
        | Err _ => adb_close s0;; mret (-1)
        | Ok _ => mret s0
        end
  end.

(** ** remount_service.c *)

Definition blank_char (c : Z) : bool := (c =? 32) || ((9 <=? c) && (c <=? 13)).

Fixpoint skip_blanks (s : bytes) : bytes :=
  match s with c :: s' => if blank_char c then skip_blanks s' else s | [] => [] end.

(** [%255s] and [%*s]: up to [width] characters that are not white space. *)
Fixpoint take_word (width : nat) (s : bytes) : bytes * bytes :=
  match width, s with
  | S w, c :: s' => if blank_char c then ([], s) else let '(a, b) := take_word w s' in (c :: a, b)
  | _, _ => ([], s)
  end.

Definition scan_word (width : nat) (s : bytes) : option (bytes * bytes) :=
  let '(a, b) := take_word width (skip_blanks s) in
  if bool_decide (a = []) then None else Some (a, b).

(** [%d]: whether an integer follows, and the rest. *)
Definition ascii_digit (c : Z) : bool := (48 <=? c) && (c <=? 57).

Fixpoint skip_digits (s : bytes) : bytes :=
  match s with c :: s' => if ascii_digit c then skip_digits s' else s | [] => [] end.

Definition scan_int (s : bytes) : option bytes :=
  let s := skip_blanks s in
  let s := match s with c :: s' => if (c =? 45) || (c =? 43) then s' else s | [] => [] end in
  match s with
  | c :: s' => if ascii_digit c then Some (skip_digits s') else None
  | [] => None
  end.

(** [sscanf(token, "%255s %255s %*s %*s %d %d\n", ...) == 4] with the device
    and the directory. *)
Definition scan_mount (token : bytes) : option (bytes * bytes) :=
  '(dev, s1) ← scan_word 255 token;
  '(dir, s2) ← scan_word 255 s1;
  '(_, s3) ← scan_word (length s2) s2;
  '(_, s4) ← scan_word (length s3) s3;
  s5 ← scan_int s4;
  _ ← scan_int s5;
  mret (dev, dir).

(** The lines [strtok(buf, "\n")] finds. *)
Fixpoint lines_of (cur : bytes) (s : bytes) : list bytes :=
  let flush := if bool_decide (cur = []) then [] else [cur] in
  match s with
  | [] => flush
  | c :: s' => if c =? 10 then flush ++ lines_of [] s' else lines_of (cur ++ [c]) s'
  end.

Fixpoint mount_of (dir : bytes) (tokens : list bytes) : option bytes :=
  match tokens with
  | [] => None
  | t :: ts =>
      match scan_mount t with
      | Some (dev, d) => if bool_decide (d = dir) then Some dev else mount_of dir ts
      | None => mount_of dir ts
      end
  end.

(** [buf] is an automatic array whose last byte alone is set: when [read]
    fills less of it without a NUL, the text ends in indeterminate bytes. *)
Definition find_mount (dir : bytes) : M world (option bytes) :=
  a ← unix_open (str "/proc/mounts") O_RDONLY 0;
  match a with
  | Err _ => mret None
  | Ok fd =>
      if fd <? 0 then mret None else
      r ← adb_read fd 4095;
      adb_close fd;;
      let bs := match r with Ok bs => bs | Err _ => [] end in
      if bool_decide (0 ∈ bs) || (Z.of_nat (length bs) =? 4095)
      then mret (mount_of dir (lines_of [] (cstr bs)))
      else undef "indeterminate bytes after the text of /proc/mounts"
  end.

(** [remount_system()] with the static [system_ro]: the result and the new
    value of the variable. *)
Definition remount_system (system_ro : Z) : M world (Z * Z) :=
  if system_ro =? 0 then mret (0, system_ro) else
  dev ← find_mount (str "/system");
  match dev with
  | None => mret (-1, system_ro)
  | Some dev =>
      a ← unix_open dev O_RDONLY 0;
      match a with
      | Err _ => mret (-1, system_ro)
      | Ok fd =>
          if fd <? 0 then mret (-1, system_ro) else
          syscall (Blkroset fd);;
          adb_close fd;;
          m ← syscall (Mount dev (str "/system"));
          mret (rc m, rc m)
      end
  end.

(** [strerror] is libc's. *)
Section remount.
Context (strerror : Z -> bytes).

Definition write_string (fd : Z) (s : bytes) : M world unit := writex fd s;; skip.

(** [snprintf(buffer, 200, "remount failed: %s\n", strerror(errno))] *)
Definition remount_failed (errno : Z) : bytes := take 199 (str "remount failed: " ++ strerror errno ++ [10]).

Definition remount_service (fd system_ro : Z) : M world Z :=
  '(ret, ro) ← remount_system system_ro;
  (if ret =? 0 then write_string fd (str "remount succeeded" ++ [10])
   else e ← get_errno; write_string fd (remount_failed e));;
  adb_close fd;;
  mret ro.
End remount.
