(* ===== verification/ServicesSpec.v ===== *)
(** * Correctness of the small services

    What the framebuffer, log, backup and remount services forward, and what
    they close. *)

From S2P Require Import Prelude Effects Os Sysdeps Services.

(** ** Pipes a run made *)

Definition piped (h : list event) : list Z :=
  h ≫= (fun e : event => match e with existT Pipe (Ok (a, b)) => [a; b] | _ => [] end).

(** Neither closes nor makes anything. *)
Definition transfers (c : call) : Prop :=
  match c with Read _ _ | Write _ _ | Usleep _ | Waitpid _ => True | _ => False end.

Lemma piped_app h1 h2 : piped (h1 ++ h2) = piped h1 ++ piped h2.
Proof. apply bind_app. Qed.

#[export] Hint Rewrite piped_app : adb_simpl.

Lemma transfers_quiet h : only transfers h -> closed_fds h = [] /\ piped h = [].
Proof.
  induction 1 as [|[c a] h Hc _ [IH1 IH2]]; [done|]. unfold closed_fds, piped in *. simpl.
  destruct c; try done; by rewrite ?IH1, ?IH2.
Qed.

Lemma reads_transfers fd h : only (reads fd) h -> only transfers h.
Proof. intros H. eapply only_mono; [done|]. by intros []. Qed.

Lemma writes_transfers fd h : only (writes fd) h -> only transfers h.
Proof. intros H. eapply only_mono; [done|]. by intros []. Qed.

#[export] Hint Resolve reads_transfers writes_transfers : adb.

(** ** The framebuffer service *)

(** The header for a screen of [w] by [h] in format [f], when its size fits. *)
Definition screen (w h f : Z) : option fbinfo :=
  match fb_format f with
  | Some (bpp, pixel, red, green, blue, alpha) =>
      if int_range (w * h) && int_range (w * h * pixel) then
        Some {| fb_bpp := bpp; fb_size := u32 (w * h * pixel); fb_width := u32 w; fb_height := u32 h;
                fb_red := red; fb_blue := blue; fb_green := green; fb_alpha := alpha |}
      else None
  | None => None
  end.

(** The header announced by the first twelve bytes of a screen capture. *)
Definition announces (r : bytes) (i : fbinfo) : Prop :=
  exists w h f pixels, r = w ++ h ++ f ++ pixels /\
    length w = 4%nat /\ length h = 4%nat /\ length f = 4%nat /\
    screen (s32 (le_val w)) (s32 (le_val h)) (s32 (le_val f)) = Some i.

(** What was written of the capture [r] that was read: nothing before the
    header is complete, then the header and the pixels as far as they were
    passed on; no pixel beyond the announced size is read. *)
Definition forwards (r out : bytes) : Prop :=
  (out = [] /\ Z.of_nat (length r) <= 12) \/
  exists i, announces r i /\ Z.of_nat (length r) <= 12 + fb_size i /\
    out `prefix_of` fbinfo_bytes i ++ drop 12 r.

(** The whole picture was passed on. *)
Definition complete (r out : bytes) : Prop :=
  exists i, announces r i /\ Z.of_nat (length r) = 12 + fb_size i /\ out = fbinfo_bytes i ++ drop 12 r.

(** The size of the image does not come within 640 of the range of an
    [unsigned]: a negative product of width and height does. *)
Definition sane (r : bytes) : Prop := forall i, announces r i -> fb_size i <= 2 ^ 32 - 640.

Lemma ospec_make_fbinfo e w h f :
  ospec e (make_fbinfo w h f) (fun i new _ => new = [] /\ i = screen w h f)
    (fun x new => new = [] /\ x = Undef "signed overflow in the size of the screen" /\ screen w h f = None).
Proof.
  unfold make_fbinfo, screen. destruct (fb_format f) as [[[[[[bpp pixel] red] green] blue] alpha]|].
  - destruct (_ && _); [by os_step|by apply ospec_stop].
  - by os_step.
Qed.

Lemma fb_size_range w h f i : screen w h f = Some i -> 0 <= fb_size i < 2 ^ 32.
Proof.
  unfold screen. destruct (fb_format f) as [[[[[[bpp pixel] red] green] blue] alpha]|]; [|done].
  destruct (_ && _); [|done]. intros [= <-]. apply u32_range.
Qed.

(** Bytes on their way: [out] has been written of the [r] that was read. *)
Record passing (fd fdc size : Z) (h : list event) : Prop := {
  passing_only : only transfers h;
  passing_out : written_to fd h `prefix_of` read_from fdc h;
  passing_len : Z.of_nat (length (read_from fdc h)) <= size;
}.

Lemma ospec_copy_pixels e fd fdc size : fd <> fdc -> 0 <= size <= 2 ^ 32 - 640 ->
  ospec e (copy_pixels fd fdc size)
    (fun done new _ => passing fd fdc size new /\
       if (done : bool) then Z.of_nat (length (read_from fdc new)) = size /\ written_to fd new = read_from fdc new
       else read_failed fdc new \/ write_failed fd new)
    (blocked (passing fd fdc size)).
Proof.
  intros Hne Hs. unfold copy_pixels.
  apply (ospec_loop (fun i h _ => only transfers h /\ written_to fd h = read_from fdc h /\
    Z.of_nat (length (read_from fdc h)) = i /\ i <= size)).
  { split_and!; [apply only_nil|done|done|lia]. }
  intros i h e1 (Ho & Hw & Hl & Hi). destruct (Z.leb_spec size i).
  { os_step. rewrite app_nil_r. split; [by split; [| rewrite Hw | lia]|]. split; [lia|done]. }
  set (bsize := if _ >? size then _ else _).
  assert (Hb : 0 < bsize <= size - i).
  { unfold bsize. rewrite !u32_small by lia. destruct (Z.gtb_spec (i + 640) size); lia. }
  assert (Hread : forall new, only (reads fdc) new -> Z.of_nat (length (read_from fdc new)) < bsize ->
    passing fd fdc size (h ++ new)).
  { intros new Ho' Hr. assert (Hw' := written_to_reads fdc fd _ Ho').
    split; autorewrite with adb_simpl; [eauto with adb| |lia].
    rewrite Hw', Hw, app_nil_r. by exists (read_from fdc new). }
  eapply ospec_seq; [apply ospec_readx_why; lia| |].
  { intros x new (-> & Ho' & Hr). split; [done|]. by apply Hread. }
  intros b n1 e2 [Ho' Hr]. destruct b as [bs|].
  2: { destruct Hr as [Hr Hf]. os_step. rewrite app_nil_r. split; [by apply Hread|].
       left. by apply read_failed_app; right. }
  destruct Hr as (Hr & Hlen & _). assert (Hw' := written_to_reads fdc fd _ Ho').
  assert (Hwrite : forall n2 rest, only (writes fd) n2 -> bs = written_to fd n2 ++ rest ->
    passing fd fdc size (h ++ n1 ++ n2) /\
    read_from fdc (h ++ n1 ++ n2) = read_from fdc h ++ bs /\
    written_to fd (h ++ n1 ++ n2) = read_from fdc h ++ written_to fd n2).
  { intros n2 rest Ho'' E. assert (Hr' := read_from_writes fd fdc _ Ho'').
    autorewrite with adb_simpl. rewrite Hr', Hr, Hw', Hw, app_nil_r. split; [|done].
    split; autorewrite with adb_simpl; [eauto with adb| |rewrite Hr', Hr; simpl; lia].
    rewrite Hw', Hw, Hr', Hr, E, app_nil_r. exists rest. by rewrite <- app_assoc. }
  os_call ospec_writex_why.
  - intros x new (-> & Ho'' & rest & _ & E). split; [done|]. by eapply Hwrite.
  - intros r n2 e3 (Ho'' & [[-> E]|(-> & Hf & rest & Hrest & E)]); simpl; os_step; rewrite app_nil_r.
    + destruct (Hwrite n2 [] Ho'') as (HP & Hrd & Hwr); [by rewrite app_nil_r|].
      split. { intros [-> ->]%app_eq_nil. rewrite <- Hr in Hlen. simpl in Hlen. lia. }
      rewrite Hrd, Hwr, length_app, E, u32_small by lia. split_and!; [apply HP|done|lia|lia].
    + split; [by eapply Hwrite|]. right. apply write_failed_app. right. by apply write_failed_app; right.
Qed.

(** Whatever the size, only transfers are made. *)
Lemma ospec_copy_any e fd fdc size : 0 <= size < 2 ^ 32 ->
  ospec e (copy_pixels fd fdc size) (fun _ new _ => only transfers new) (blocked (only transfers)).
Proof.
  intros Hs. unfold copy_pixels.
  apply (ospec_loop (fun i h _ => 0 <= i < 2 ^ 32 /\ only transfers h)); [split; [lia|apply only_nil]|].
  intros i h e1 [Hi Ho]. destruct (Z.leb_spec size i); [os_step; by rewrite app_nil_r|].
  set (bsize := if _ >? size then _ else _).
  assert (Hb : 0 < bsize).
  { unfold bsize. destruct (_ >? _); [|lia]. rewrite u32_small; lia. }
  eapply ospec_seq; [apply ospec_readx_why; lia| |].
  { intros x new (-> & Ho' & _). split; [done|]. apply only_app. eauto with adb. }
  intros [bs|] n1 e2 [Ho' Hr]; [|os_step; rewrite app_nil_r; apply only_app; eauto with adb].
  os_call ospec_writex_why.
  - intros x new (-> & Ho'' & _). split; [done|]. rewrite !only_app. eauto with adb.
  - intros r n2 e3 (Ho'' & Hres). assert (only transfers (h ++ n1 ++ n2)) by (rewrite !only_app; eauto with adb).
    destruct Hres as [[-> E]|(-> & _)]; simpl; os_step; rewrite app_nil_r; [|done].
    split_and!; [|apply u32_range..|done].
    intros [-> ->]%app_eq_nil. destruct Hr as (<- & Hlen & _). simpl in Hlen. lia.
Qed.

(** Reading one number of the header, and giving up without it. *)
Lemma ospec_read_int e fdc (k : Z -> M world unit) Q X :
  (forall new, only (reads fdc) new -> Z.of_nat (length (read_from fdc new)) < 4 ->
     X Blocked new /\ (read_failed fdc new -> forall e', Q tt new e')) ->
  (forall bs n1 e1, only (reads fdc) n1 -> read_from fdc n1 = bs -> length bs = 4%nat ->
     ospec e1 (k (s32 (le_val bs))) (fun a n2 e2 => Q a (n1 ++ n2) e2) (fun x n2 => X x (n1 ++ n2))) ->
  ospec e (v ← read_int fdc; match v with None => skip | Some v => k v end) Q X.
Proof.
  intros Hshort Hk. unfold read_int. apply ospec_assoc. eapply ospec_seq; [apply ospec_readx_why; lia| |].
  - intros x new (-> & Ho & Hl). by apply Hshort.
  - intros [bs|] n1 e1 [Ho Hr]; os_step; simpl.
    + destruct Hr as (Hr & Hl & _). apply Hk; [done|done|lia].
    + destruct Hr as [Hl Hf]. os_step. rewrite app_nil_r. destruct (Hshort n1 Ho Hl) as [_ HQ]. by apply HQ.
Qed.

(** The state of a copy whose capture is [r]: [fd] has received [out]. *)
Definition unusable (r : bytes) : Prop :=
  exists w h f, r = w ++ h ++ f /\ length w = 4%nat /\ length h = 4%nat /\ length f = 4%nat /\
    screen (s32 (le_val w)) (s32 (le_val h)) (s32 (le_val f)) = None.

Record fb_ends (fd fdc : Z) (new : list event) : Prop := {
  fb_only : only transfers new;
  fb_forwards : sane (read_from fdc new) -> forwards (read_from fdc new) (written_to fd new);
  fb_why : sane (read_from fdc new) ->
    complete (read_from fdc new) (written_to fd new) \/ read_failed fdc new \/ write_failed fd new \/
    unusable (read_from fdc new);
}.

Record fb_waits (fd fdc : Z) (new : list event) : Prop := {
  fb_only' : only transfers new;
  fb_forwards' : sane (read_from fdc new) -> forwards (read_from fdc new) (written_to fd new);
}.

(** Nothing was written while the header was read. *)
Lemma header_forwards fd fdc h : only (reads fdc) h -> Z.of_nat (length (read_from fdc h)) <= 12 ->
  fb_waits fd fdc h.
Proof.
  intros Ho Hl. split; [eauto with adb|]. intros _. left. split; [by eapply written_to_reads|done].
Qed.

Lemma header_failed fd fdc h : only (reads fdc) h -> Z.of_nat (length (read_from fdc h)) <= 12 ->
  read_failed fdc h -> fb_ends fd fdc h.
Proof.
  intros Ho Hl Hf. destruct (header_forwards fd fdc h Ho Hl) as [H1 H2]. split; auto.
Qed.

(** After the header: [h] read it, [n] writes the reply. *)
Lemma body_forwards fd fdc h n i w0 h0 f0 :
  only (reads fdc) h -> read_from fdc h = w0 ++ h0 ++ f0 ->
  length w0 = 4%nat -> length h0 = 4%nat -> length f0 = 4%nat ->
  screen (s32 (le_val w0)) (s32 (le_val h0)) (s32 (le_val f0)) = Some i ->
  only transfers n -> Z.of_nat (length (read_from fdc n)) <= fb_size i ->
  written_to fd n `prefix_of` fbinfo_bytes i ++ read_from fdc n ->
  announces (read_from fdc (h ++ n)) i /\ drop 12 (read_from fdc (h ++ n)) = read_from fdc n /\
  length (read_from fdc (h ++ n)) = (12 + length (read_from fdc n))%nat /\
  written_to fd (h ++ n) = written_to fd n /\ fb_waits fd fdc (h ++ n).
Proof.
  intros Ho Hr L1 L2 L3 Hs Hn Hl Hp. assert (Hw := written_to_reads fdc fd _ Ho).
  assert (Hann : announces (read_from fdc (h ++ n)) i).
  { exists w0, h0, f0, (read_from fdc n). rewrite read_from_app, Hr, <- !app_assoc. done. }
  assert (Hd : drop 12 (read_from fdc (h ++ n)) = read_from fdc n).
  { rewrite read_from_app, (drop_app_length' _ _ 12%nat); [done|]. rewrite Hr, !length_app. lia. }
  assert (Hlen : length (read_from fdc (h ++ n)) = (12 + length (read_from fdc n))%nat).
  { rewrite read_from_app, Hr, !length_app. lia. }
  assert (Hw' : written_to fd (h ++ n) = written_to fd n) by (by rewrite written_to_app, Hw).
  split_and!; [done..|]. split; [apply only_app; eauto with adb|]. intros _. right. exists i.
  rewrite Hd, Hw'. split_and!; [done|lia|done].
Qed.

Definition fb_stops (fd fdc : Z) (x : stop) (new : list event) : Prop :=
  (x = Blocked /\ fb_waits fd fdc new) \/
  (x = Undef "signed overflow in the size of the screen" /\ unusable (read_from fdc new)).

(** One number of the header after the calls [h]. *)
Lemma ospec_header_int e fd fdc h (k : Z -> M world unit) :
  only (reads fdc) h -> Z.of_nat (length (read_from fdc h)) <= 8 ->
  (forall bs n1 e1, only (reads fdc) (h ++ n1) -> read_from fdc (h ++ n1) = read_from fdc h ++ bs ->
     length bs = 4%nat ->
     ospec e1 (k (s32 (le_val bs))) (fun _ n2 _ => fb_ends fd fdc ((h ++ n1) ++ n2))
       (fun x n2 => fb_stops fd fdc x ((h ++ n1) ++ n2))) ->
  ospec e (v ← read_int fdc; match v with None => skip | Some v => k v end)
    (fun _ new _ => fb_ends fd fdc (h ++ new)) (fun x new => fb_stops fd fdc x (h ++ new)).
Proof.
  intros Ho Hl Hk. apply ospec_read_int.
  - intros n On Ln. assert (only (reads fdc) (h ++ n)) by (by apply only_app).
    assert (Z.of_nat (length (read_from fdc (h ++ n))) <= 12) by (rewrite read_from_app, length_app; lia).
    split; [left; auto using header_forwards|]. intros Hf e'. apply header_failed; [done..|].
    by apply read_failed_app; right.
  - intros bs n1 e1 On Rn Ln. eapply ospec_mono; [apply (Hk bs n1 e1)| |].
    + by apply only_app.
    + by rewrite read_from_app, Rn.
    + done.
    + intros a n2 e2. cbv beta. by rewrite <- app_assoc.
    + intros x n2. cbv beta. by rewrite <- app_assoc.
Qed.

(** The reply after the header [i]. *)
Lemma ospec_fb_reply e fd fdc i : fd <> fdc -> 0 <= fb_size i < 2 ^ 32 ->
  ospec e (r ← writex fd (fbinfo_bytes i);
           if negb (r =? 0) then skip else copy_pixels fd fdc (fb_size i);; skip)
    (fun _ n _ => only transfers n /\ (fb_size i <= 2 ^ 32 - 640 ->
       Z.of_nat (length (read_from fdc n)) <= fb_size i /\
       written_to fd n `prefix_of` fbinfo_bytes i ++ read_from fdc n /\
       ((Z.of_nat (length (read_from fdc n)) = fb_size i /\
         written_to fd n = fbinfo_bytes i ++ read_from fdc n) \/
        read_failed fdc n \/ write_failed fd n)))
    (blocked (fun n => only transfers n /\ (fb_size i <= 2 ^ 32 - 640 ->
       Z.of_nat (length (read_from fdc n)) <= fb_size i /\
       written_to fd n `prefix_of` fbinfo_bytes i ++ read_from fdc n))).
Proof.
  intros Hne Hs. os_call ospec_writex_why.
  - intros x n (-> & Ho & rest & _ & E). split; [done|]. split; [eauto with adb|]. intros _.
    rewrite (read_from_writes fd fdc _ Ho), app_nil_r. split; [simpl; lia|]. by exists rest.
  - intros r n1 e1 (Ho & Hres). assert (Hr := read_from_writes fd fdc _ Ho).
    destruct Hres as [[-> Hw]|(-> & Hf & rest & _ & E)]; cbn [negb Z.eqb].
    2: { os_step. rewrite app_nil_r. split; [eauto with adb|]. intros _. rewrite Hr, app_nil_r.
         split_and!; [simpl; lia|by exists rest|by right; right]. }
    destruct (Z.le_gt_cases (fb_size i) (2 ^ 32 - 640)) as [Hle|Hgt].
    + eapply ospec_seq; [apply ospec_copy_pixels; [done|lia]| |].
      * intros x n2 (-> & [H1 H2 H3]). split; [done|]. autorewrite with adb_simpl.
        rewrite Hr, Hw. split; [eauto with adb|]. intros _. split; [done|]. by apply prefix_app.
      * intros b n2 e2 ([H1 H2 H3] & Hb). os_step. rewrite app_nil_r. autorewrite with adb_simpl.
        rewrite Hr, Hw. split; [eauto with adb|]. intros _. split_and!; [done|by apply prefix_app|].
        destruct b; [destruct Hb as [? ->]; by left|]. right.
        destruct Hb; [left; apply read_failed_app|right; apply write_failed_app]; auto.
    + eapply ospec_seq; [apply ospec_copy_any; lia| |].
      * intros x n2 (-> & H1). split; [done|]. rewrite only_app. split; [eauto with adb|lia].
      * intros b n2 e2 H1. os_step. rewrite app_nil_r, only_app. split; [eauto with adb|lia].
Qed.

Lemma ospec_framebuffer_copy e fd fdc : fd <> fdc ->
  ospec e (framebuffer_copy fd fdc) (fun _ new _ => fb_ends fd fdc new) (fb_stops fd fdc).
Proof.
  intros Hne. unfold framebuffer_copy.
  eapply (ospec_header_int e fd fdc []); [apply only_nil|simpl; lia|]. intros w0 n1 e1 O1 R1 L1.
  apply ospec_header_int; [done|rewrite R1, length_app; simpl; lia|]. intros h0 n2 e2 O2 R2 L2.
  apply ospec_header_int; [done|rewrite R2, R1, !length_app; simpl; lia|]. intros f0 n3 e3 O3 R3 L3.
  set (hd := ((([] ++ n1) ++ n2) ++ n3)) in *.
  assert (Hhd : read_from fdc hd = w0 ++ h0 ++ f0) by (by rewrite R3, R2, R1, <- !app_assoc).
  assert (Hbad : screen (s32 (le_val w0)) (s32 (le_val h0)) (s32 (le_val f0)) = None -> unusable (read_from fdc hd)).
  { intros E. rewrite Hhd. by exists w0, h0, f0. }
  os_call ospec_make_fbinfo.
  { intros x n (-> & -> & E). rewrite app_nil_r. right. split; [done|]. by apply Hbad. }
  intros i n4 e4 (-> & Ei). destruct i as [i|].
  2: { os_step. rewrite !app_nil_r. destruct (header_forwards fd fdc hd O3) as [H1 H2].
       { rewrite Hhd, !length_app. lia. } split; auto. }
  assert (Hsz := fb_size_range _ _ _ _ (eq_sym Ei)).
  assert (Hsane : forall n, sane (read_from fdc (hd ++ n)) -> fb_size i <= 2 ^ 32 - 640).
  { intros n H. apply H. exists w0, h0, f0, (read_from fdc n). rewrite read_from_app, Hhd, <- !app_assoc. done. }
  eapply ospec_mono; [by apply ospec_fb_reply| |].
  - intros [] n e5 (On & Hn). rewrite app_nil_l. split.
    + apply only_app; eauto with adb.
    + intros Hs. destruct (Hn (Hsane _ Hs)) as (H1 & H2 & _). by eapply body_forwards.
    + intros Hs. destruct (Hn (Hsane _ Hs)) as (H1 & H2 & H3).
      destruct (body_forwards fd fdc hd n i w0 h0 f0) as (Ha & Hd & Hl & Hw & _); [done..|].
      destruct H3 as [[H3 H4]|[H3|H3]].
      * left. exists i. rewrite Hd, Hw. split_and!; [done|lia|done].
      * right; left. by apply read_failed_app; right.
      * right; right; left. by apply write_failed_app; right.
  - intros x n (-> & On & Hn). rewrite app_nil_l. left. split; [done|]. split.
    + apply only_app; eauto with adb.
    + intros Hs. destruct (Hn (Hsane _ Hs)) as (H1 & H2). by eapply body_forwards.
Qed.

Definition fork_failed (h : list event) : Prop := exists a : ans Fork, ev Fork a ∈ h /\ rc_int a < 0.

(** How the service ends after the pipe [fdc], [fdw] was made. *)
Definition fb_served (fd fdc fdw : Z) (new : list event) : Prop :=
  closed_fds new = [fdc; fdw; fd] /\ piped new = [] /\
  (sane (read_from fdc new) ->
     forwards (read_from fdc new) (written_to fd new) /\
     (fork_failed new \/ complete (read_from fdc new) (written_to fd new) \/ read_failed fdc new \/
      write_failed fd new \/ unusable (read_from fdc new))).

Definition fb_aborts (x : stop) : Prop :=
  x = Blocked \/ x = Abort "exit" \/ x = Undef "signed overflow in the size of the screen".

(** The calls around the copy neither read nor write. *)
Definition silent (h : list event) : Prop := forall fd, read_from fd h = [] /\ written_to fd h = [].

Lemma silent_app h1 h2 : silent h1 -> silent h2 -> silent (h1 ++ h2).
Proof.
  intros H1 H2 fd. rewrite read_from_app, written_to_app.
  destruct (H1 fd) as [-> ->], (H2 fd) as [-> ->]. done.
Qed.

Lemma silent_eintrs c n : silent (replicate n (eintr c)).
Proof. intros fd. by autorewrite with adb_simpl. Qed.

(** Waiting for the child and closing the pipe and the socket. *)
Lemma ospec_fb_done e pid fdc fdw fd :
  ospec e ((temp_failure_retry (Waitpid pid);; syscall (Close fdc);; syscall (Close fdw);; skip);;
           syscall (Close fd);; skip)
    (fun _ new _ => closed_fds new = [fdc; fdw; fd] /\ piped new = [] /\ silent new)
    (fun x _ => x = Blocked).
Proof.
  apply ospec_assoc. eapply ospec_seq; [apply (ospec_retry _ _ (fun a new _ => closed_fds new = [] /\ piped new = [] /\ silent new)
    (fun x _ => x = Blocked))|done|].
  - intros a n _ _. autorewrite with adb_simpl.
    destruct (transfers_quiet (replicate n (eintr (Waitpid pid)))) as [-> ->]; [by apply only_eintrs|].
    split_and!; [done..|]. apply silent_app; [apply silent_eintrs|done].
  - done.
  - intros a n1 e1 (H1 & H2 & H3).
    do 2 (apply ospec_assoc; eapply ospec_seq; [apply ospec_close|by intros x n [-> _]|]; intros ? ? ? ->).
    apply ospec_bind_ret. eapply ospec_seq; [apply ospec_close|by intros x n [-> _]|]. intros ? ? ? ->.
    os_step. rewrite app_nil_r. autorewrite with adb_simpl. rewrite H1, H2.
    split_and!; [done..|]. by repeat (apply silent_app; [done|]).
Qed.

Lemma ospec_fb_after_pipe e fd fdc fdw : fdc <> fd ->
  ospec e (pid ← syscall Fork;
           let pid := rc_int pid in
           ((if pid <? 0 then skip else
             if pid =? 0 then
               syscall (Dup2 fdw 1);; syscall (Close fdc);; syscall (Close fdw);;
               syscall (Execvp (str "screencap") [str "screencap"]);; abort "exit"
             else framebuffer_copy fd fdc);;
            temp_failure_retry (Waitpid pid);; syscall (Close fdc);; syscall (Close fdw);; skip);;
           syscall (Close fd);; skip)
    (fun _ new _ => fb_served fd fdc fdw new) (fun x _ => fb_aborts x).
Proof.
  intros Hne. eapply ospec_seq; [apply (ospec_syscall _ Fork (fun a n _ => n = [ev Fork a]) (fun x _ => x = Blocked)); done| |].
  { intros x n ->. by left. }
  intros a n1 e1 ->. cbn zeta. apply ospec_assoc.
  (* the part between the fork and the wait *)
  eapply (ospec_seq _ _ _ (fun _ n _ => closed_fds n = [] /\ piped n = [] /\
    ((rc_int a < 0 /\ silent n) \/ fb_ends fd fdc n)) (fun x _ => fb_aborts x)); [|done|].
  - destruct (Z.ltb_spec (rc_int a) 0) as [Hp|Hp]; [os_step; split_and!; [done..|by left]|].
    destruct (rc_int a =? 0).
    + do 4 (eapply ospec_seq; [apply (ospec_syscall _ _ (fun _ _ _ => True) (fun x _ => x = Blocked)); done
        |intros x n ->; by left|]; intros ? ? ? _).
      apply ospec_stop. by right; left.
    + eapply ospec_mono; [by apply ospec_framebuffer_copy| |].
      * intros [] n e2 H. destruct (transfers_quiet n) as [? ?]; [apply H|]. by eauto.
      * intros x n [[-> _]|[-> _]]; [by left|by right; right].
  - intros [] n2 e2 (H1 & H2 & H3). eapply ospec_mono; [apply ospec_fb_done| |].
    + intros [] n3 e3 (C3 & P3 & S3). unfold fb_served. autorewrite with adb_simpl.
      destruct (S3 fdc) as [-> _], (S3 fd) as [_ ->]. rewrite H1, H2, C3, P3, !app_nil_r.
      split_and!; [done..|]. intros Hs.
      change (read_from fdc [ev Fork a]) with (@nil Z) in *. change (written_to fd [ev Fork a]) with (@nil Z).
      rewrite app_nil_l in *. destruct H3 as [[Hf Hq]|[E1 E2 E3]].
      * destruct (Hq fdc) as [-> _], (Hq fd) as [_ ->]. split; [left; split; [done|simpl; lia]|].
        left. exists a. split; [set_solver|done].
      * split; [by apply E2|]. right. destruct (E3 Hs) as [?|[?|[?|?]]]; [by left| | |by auto].
        -- right; left. apply read_failed_app; right. by apply read_failed_app; left.
        -- right; right; left. apply write_failed_app; right. by apply write_failed_app; left.
    + intros x n ->. by left.
Qed.

(** The calls of a run, with the pipe first. *)
Definition fb_run (fd : Z) (p : ans Pipe) (n : list event) : Prop :=
  match p with
  | Ok (fdc, fdw) => fb_served fd fdc fdw n
  | Err _ => closed_fds n = [fd] /\ piped n = [] /\ written_to fd n = []
  end.

Lemma wp_framebuffer_service fd w :
  posix (w_env w) -> (forall h a b, w_env w h Pipe = Ok (a, b) -> a <> fd) ->
  wp (framebuffer_service fd) (fun _ w' => exists p n, steps w (ev Pipe p :: n) w' /\ fb_run fd p n)
    (fun x _ => fb_aborts x) w.
Proof.
  intros Hp Hpipe. unfold framebuffer_service. apply wp_bind. apply (wp_syscall Pipe); [|by left].
  cbn zeta. intros w1 S1 _.
  assert (Hrun : forall m : M world unit,
    ospec (w_errno w1) m (fun _ n _ => fb_run fd (w_env w (w_hist w) Pipe) n) (fun x _ => fb_aborts x) ->
    wp m (fun _ w' => exists p n, steps w (ev Pipe p :: n) w' /\ fb_run fd p n) (fun x _ => fb_aborts x) w1).
  { intros m H. eapply wp_mono; [apply (H w1); [by rewrite (steps_env _ _ _ S1)|done]| |].
    - intros [] w2 (n & S2 & HQ). exists (w_env w (w_hist w) Pipe), n. split; [|done].
      exact (steps_trans _ _ _ _ _ S1 S2).
    - intros x w2 (n & _ & Hx). done. }
  apply Hrun. specialize (Hpipe (w_hist w)). destruct (w_env w (w_hist w) Pipe) as [[fdc fdw]|err].
  - apply ospec_assoc, ospec_fb_after_pipe. by eapply Hpipe.
  - apply ospec_bind_ret. eapply ospec_seq; [apply ospec_close| |].
    + intros x n [-> _]. by left.
    + intros ? ? ? ->. by os_step.
Qed.

(** The framebuffer service sends the header that describes the capture and
    then its pixels, in order and without loss: what the socket received is
    always a prefix of that, no pixel beyond the announced size is read, and
    the service ends before the picture is complete only when the fork, a read
    from the capture or a write to the socket failed or the capture announced
    an unusable screen.  Both ends of the pipe and the socket are closed once
    on every path.  A capture whose width or height is negative can make the
    size wrap round, and is excepted; an overflow of the size in [int] is
    undefined. *)
Theorem framebuffer_service_forwards (fd : Z) (w : world) :
  posix (w_env w) -> (forall h a b, w_env w h Pipe = Ok (a, b) -> a <> fd) ->
  match framebuffer_service fd w with
  | (Done _, w') =>
      let new := calls_since w w' in
      closed_fds new = piped new ++ [fd] /\
      match piped new with
      | [] => written_to fd new = []
      | fdc :: _ =>
          sane (read_from fdc new) ->
          forwards (read_from fdc new) (written_to fd new) /\
          (fork_failed new \/ complete (read_from fdc new) (written_to fd new) \/ read_failed fdc new \/
           write_failed fd new \/ unusable (read_from fdc new))
      end
  | (Stop x, _) => fb_aborts x
  end.
Proof.
  intros Hp Hpipe.
  pose proof (wp_framebuffer_service fd w Hp Hpipe) as H. unfold wp in H.
  destruct (framebuffer_service fd w) as [[[]|x] w']; [|done].
  destruct H as (p & n & S & H). cbn zeta. rewrite (steps_calls_since _ _ _ S).
  destruct p as [[fdc fdw]|err]; unfold fb_run in H.
  - destruct H as (H1 & H2 & H3).
    change (closed_fds (ev Pipe (Ok (fdc, fdw)) :: n)) with (closed_fds n).
    change (piped (ev Pipe (Ok (fdc, fdw)) :: n)) with (fdc :: fdw :: piped n).
    rewrite H1, H2. split; [done|]. intros Hs.
    assert (Hs' : sane (read_from fdc n)) by exact Hs.
    destruct (H3 Hs') as [Hf Hw]. split; [exact Hf|]. destruct Hw as [(a & Ha & Hn)|[?|[Hr|[Hr|?]]]].
    + left. exists a. split; [set_solver|done].
    + by right; left.
    + right; right; left. by apply (read_failed_app _ [_]); right.
    + right; right; right; left. by apply (write_failed_app _ [_]); right.
    + by right; right; right; right.
  - destruct H as (H1 & H2 & H3).
    change (piped (ev Pipe (Err err) :: n)) with (piped n). rewrite H2. done.
Qed.

(** ** The log service *)

(** The entries the reads of a run returned. *)
Definition ev_entry (e : event) : list bytes :=
  match e with
  | existT (Read _ _) (Ok (b :: bs)) => [b :: bs]
  | _ => []
  end.

Definition entries (h : list event) : list bytes := h ≫= ev_entry.

Arguments entries : simpl never.

Lemma entries_app h1 h2 : entries (h1 ++ h2) = entries h1 ++ entries h2.
Proof. apply bind_app. Qed.

Lemma entries_cons e h : entries (e :: h) = ev_entry e ++ entries h.
Proof. done. Qed.

Lemma entries_writes fd h : only (writes fd) h -> entries h = [].
Proof.
  induction 1 as [|[c a] h Hc _ IH]; [done|]. rewrite entries_cons, IH, app_nil_r.
  destruct c; simpl in *; done.
Qed.

Lemma entries_eintrs c n : entries (replicate n (eintr c)) = [].
Proof. induction n as [|n IH]; [done|]. simpl. rewrite entries_cons, IH, app_nil_r. by destruct c. Qed.

#[export] Hint Rewrite entries_app entries_eintrs : adb_simpl.

(** What the log driver guarantees: a read returns one whole entry. *)
Definition full_entry (bs : bytes) : Prop := Z.of_nat (length bs) = sizeof_logger_entry + entry_len bs.

#[global] Instance full_entry_dec bs : Decision (full_entry bs) := _.

(** [out] is the entries, each cut off at most where a write failed. *)
Definition logged (fd : Z) (h : list event) : Prop :=
  Forall full_entry (entries h) ->
  exists pieces, Forall2 prefix pieces (entries h) /\ written_to fd h = concat pieces /\
    (pieces = entries h \/ write_failed fd h).

Lemma logged_snoc fd h n piece bs :
  logged fd h -> entries n = [bs] -> written_to fd n = piece -> piece `prefix_of` bs ->
  (piece = bs \/ write_failed fd n) -> logged fd (h ++ n).
Proof.
  intros H He Hw Hp Hf Hall. rewrite entries_app, He in *. apply Forall_app in Hall as [Hall _].
  destruct (H Hall) as (ps & H1 & H2 & H3). exists (ps ++ [piece]).
  rewrite written_to_app, concat_app, H2, Hw. simpl. rewrite app_nil_r. split_and!; [|done|].
  - by apply Forall2_app; [|constructor].
  - destruct H3 as [->|H3]; [|right; apply write_failed_app; auto].
    destruct Hf as [->|Hf]; [by left|right; apply write_failed_app; auto].
Qed.

Lemma logged_same fd h n : logged fd h -> entries n = [] -> written_to fd n = [] -> logged fd (h ++ n).
Proof.
  intros H He Hw. unfold logged in *. rewrite entries_app, written_to_app, He, Hw, !app_nil_r.
  intros Hall. destruct (H Hall) as (ps & ? & ? & H3). exists ps. split_and!; [done..|].
  destruct H3; [by left|right]. apply write_failed_app; auto.
Qed.

Lemma entry_len_app bs rest : (2 <= length bs)%nat -> entry_len (bs ++ rest) = entry_len bs.
Proof. intros H. unfold entry_len. by rewrite take_app_le. Qed.

Lemma full_entry_len bs : Forall is_byte bs -> full_entry bs -> 0 <= entry_len bs.
Proof.
  intros Hb Hf. unfold entry_len. pose proof (le_val_range (take 2 bs)) as H.
  assert (Forall is_byte (take 2 bs)) by (by apply Forall_take). specialize (H ltac:(done)). lia.
Qed.

(** A full entry [bs] read into the buffer, and what is written of it. *)
Lemma full_entry_buffer bs rest : Forall is_byte bs -> full_entry bs ->
  let i := sizeof_logger_entry + entry_len (bs ++ rest) in
  let buf := take (Z.to_nat i) (bs ++ rest) ++ 0 :: drop (S (Z.to_nat i)) (bs ++ rest) in
  i = Z.of_nat (length bs) /\ take (Z.to_nat (sizeof_logger_entry + entry_len buf)) buf = bs.
Proof.
  intros Hb Hf. pose proof (full_entry_len bs Hb Hf). unfold full_entry, sizeof_logger_entry in *.
  cbv zeta. rewrite (entry_len_app bs rest), <- Hf, Nat2Z.id, take_app_length by lia. split; [done|].
  by rewrite entry_len_app, <- Hf, Nat2Z.id, take_app_length by lia.
Qed.

Lemma not_logged_full fd h bs n : ~ full_entry bs -> bs ∈ entries n -> logged fd (h ++ n).
Proof.
  intros Hf Hin Hall. rewrite entries_app in Hall. apply Forall_app in Hall as [_ Hall].
  rewrite Forall_forall in Hall. by destruct Hf; apply Hall.
Qed.

Definition log_stops (x : stop) (h : list event) : Prop :=
  x = Blocked \/ (exists why, x = Undef why) /\ ~ Forall full_entry (entries h).

(** One read: the calls, and the entry they delivered. *)
Lemma ospec_read_entry e logfd :
  ospec e (adb_read logfd LOGGER_ENTRY_MAX_LEN)
    (fun a n _ => only transfers n /\ n <> [] /\ (forall fd, written_to fd n = []) /\
       match a with
       | Ok bs => Z.of_nat (length bs) <= LOGGER_ENTRY_MAX_LEN /\ Forall is_byte bs /\
           entries n = match bs with [] => [] | _ => [bs] end
       | Err _ => entries n = []
       end) (fun x _ => x = Blocked).
Proof.
  apply (ospec_retry e (Read logfd LOGGER_ENTRY_MAX_LEN)); [|done]. intros a k Ha _. autorewrite with adb_simpl. split_and!.
  - by apply only_eintrs.
  - by apply only_one.
  - by destruct k.
  - intros fd. by autorewrite with adb_simpl.
  - rewrite entries_cons. destruct a as [[|b bs]|err]; simpl in *; [|split_and!; [lia|apply Ha|done]|done].
    split_and!; [unfold LOGGER_ENTRY_MAX_LEN; lia|done|done].
Qed.

(** An entry has been read after [h] by [n1] and is in [buf]. *)
Lemma ospec_log_entry e fd h n1 bs old (Q : bytes + unit -> list event -> Z -> Prop) :
  logged fd h -> only transfers h -> only transfers n1 -> entries n1 = [bs] -> (forall fd', written_to fd' n1 = []) ->
  Z.of_nat (length bs) <= LOGGER_ENTRY_MAX_LEN -> Forall is_byte bs ->
  (forall buf n2 e', logged fd (h ++ n1 ++ n2) -> only transfers (h ++ n1 ++ n2) -> Q (inl buf) (n1 ++ n2) e') ->
  let buf := bs ++ drop (length bs) old in
  let i := sizeof_logger_entry + entry_len buf in
  ospec e
    (if LOGGER_ENTRY_MAX_LEN <? i then undef "msg[len] after the buffer" else
     if Z.of_nat (length buf) <? i then undef "indeterminate bytes of the entry" else
     let buf := take (Z.to_nat i) buf ++ 0 :: drop (S (Z.to_nat i)) buf in
     write_log_entry fd buf;; mret (inl buf))
    (fun x n e' => Q x (n1 ++ n) e') (fun x n => log_stops x (h ++ n1 ++ n)).
Proof.
  intros Hlog Oh On He Hw Hl Hb HQ buf i.
  assert (Hnot : ~ full_entry bs -> ~ Forall full_entry (entries (h ++ n1))).
  { intros Hf. rewrite entries_app, He, Forall_app, Forall_singleton. tauto. }
  assert (Hundef : forall why, ~ full_entry bs -> ospec e (undef why) (fun x n e' => Q x (n1 ++ n) e')
    (fun x n => log_stops x (h ++ n1 ++ n))).
  { intros why Hf. apply ospec_stop. right. rewrite app_nil_r. eauto. }
  pose proof (full_entry_buffer bs (drop (length bs) old) Hb) as Hfull. cbv zeta in Hfull. fold buf i in Hfull.
  destruct (Z.ltb_spec LOGGER_ENTRY_MAX_LEN i) as [H1|H1]; [apply Hundef; intros Hf; destruct (Hfull Hf); lia|].
  destruct (Z.ltb_spec (Z.of_nat (length buf)) i) as [H2|H2].
  { apply Hundef. intros Hf. destruct (Hfull Hf) as [E _]. unfold buf in H2. rewrite length_app in H2. lia. }
  cbv zeta. unfold write_log_entry. apply ospec_assoc. eapply ospec_seq; [apply ospec_writex_why| |].
  - intros x n [-> _]. by left.
  - intros r n2 e2 (Ho & Hres). do 2 os_step. rewrite app_nil_r. apply HQ; [|rewrite !only_app; eauto with adb].
    assert (En : entries (n1 ++ n2) = [bs]).
    { by rewrite entries_app, He, (entries_writes fd n2 Ho). }
    destruct (decide (full_entry bs)) as [Hf|Hf]; [|eapply not_logged_full; [done|rewrite En; set_solver]].
    destruct (Hfull Hf) as [_ Et]. rewrite Et in Hres.
    eapply (logged_snoc fd h (n1 ++ n2) (written_to fd n2)); [done|done|by rewrite written_to_app, Hw| |].
    + destruct Hres as [[_ ->]|(_ & _ & rest & _ & ->)]; [done|]. by exists rest.
    + destruct Hres as [[_ ->]|(_ & Hfail & _)]; [by left|]. right. apply write_failed_app; auto.
Qed.

Lemma ospec_log_loop e fd logfd buf :
  ospec e (loop (log_step fd logfd) buf) (fun _ n _ => only transfers n /\ logged fd n) log_stops.
Proof.
  apply (ospec_loop (fun _ h _ => only transfers h /\ logged fd h)).
  { split; [apply only_nil|]. intros _. exists []. by split_and!; [constructor|..|left]. }
  intros old h e1 [Oh Hlog]. unfold log_step. eapply ospec_seq; [apply ospec_read_entry|intros x n ->; by left|].
  intros a n1 e2 (On & Hne & Hw & Ha).
  assert (Hsame : entries n1 = [] -> only transfers (h ++ n1) /\ logged fd (h ++ n1)).
  { intros He. rewrite only_app. split; [done|]. by apply logged_same. }
  destruct a as [[|b bs]|err].
  - os_step. rewrite app_nil_r. by apply Hsame, Ha.
  - destruct Ha as (Hl & Hb & He).
    eapply (ospec_log_entry e2 fd h n1 (b :: bs) old (fun x n _ => match x with
      | inl _ => n <> [] /\ only transfers (h ++ n) /\ logged fd (h ++ n)
      | inr _ => only transfers (h ++ n) /\ logged fd (h ++ n) end)); [done..|].
    intros buf' n2 e' H1 H2. split; [|done]. by destruct n1.
  - os_step; os_step; rewrite app_nil_r; [split; [done|]|]; by apply Hsame.
Qed.

(** Opening a file only for reading: nothing is closed, read or written. *)
Definition inert (h : list event) : Prop :=
  closed_fds h = [] /\ entries h = [] /\ forall fd, written_to fd h = [].

Lemma ospec_open_inert e path :
  ospec e (unix_open path O_RDONLY 0) (fun _ n _ => inert n) (fun x n => x = Blocked /\ inert n).
Proof.
  apply (ospec_retry e (Open path O_RDONLY None)).
  - intros a k _ _. unfold inert. autorewrite with adb_simpl.
    assert (E : closed_fds (replicate k (eintr (Open path O_RDONLY None))) = []) by (induction k; done).
    rewrite E. split_and!; [done..|]. intros fd. by autorewrite with adb_simpl.
  - intros k. split; [done|]. unfold inert. autorewrite with adb_simpl. split_and!; [|done|].
    + by induction k.
    + intros fd. by autorewrite with adb_simpl.
Qed.

Lemma inert_logged fd h n : inert h -> logged fd n -> logged fd (h ++ n).
Proof.
  intros (_ & He & Hw) H. unfold logged. rewrite entries_app, written_to_app, He, Hw, !app_nil_l. intros Hall.
  destruct (H Hall) as (ps & ? & ? & H3). exists ps. split_and!; [done..|]. destruct H3; [by left|right].
  apply write_failed_app; auto.
Qed.

Lemma ospec_log_service e fd path :
  ospec e (log_service fd path) (fun _ n _ => closed_fds n = [fd] /\ logged fd n) log_stops.
Proof.
  unfold log_service. eapply ospec_seq; [apply ospec_open_inert|intros x n [-> _]; by left|].
  intros a n1 e1 Hin.
  eapply (ospec_seq _ _ _ (fun _ n _ => closed_fds n = [] /\ logged fd n) log_stops).
  - assert (Hskip : ospec e1 skip (fun _ n _ => closed_fds n = [] /\ logged fd n) log_stops).
    { os_step. split; [done|]. intros _. exists []. by split_and!; [constructor|..|left]. }
    destruct a as [logfd|err]; [|done]. destruct (logfd <? 0); [done|].
    eapply ospec_mono; [apply ospec_log_loop| |done].
    intros [] n e2 [Ho Hl]. split; [by apply transfers_quiet|done].
  - intros x n [->|[? Hn]]; [by left|right]. split; [done|]. rewrite entries_app.
    destruct Hin as (_ & -> & _). done.
  - intros [] n2 e2 [Hc Hl]. eapply ospec_seq; [apply ospec_close|intros x n [-> _]; by left|].
    intros r n3 e3 ->. os_step. rewrite app_nil_r. autorewrite with adb_simpl.
    destruct (id Hin) as (-> & _). rewrite Hc. split; [done|].
    apply inert_logged; [done|]. by apply logged_same.
Qed.

(** The log service passes the entries of the log on in order, each whole
    unless a write to the socket failed, provided the driver returns one whole
    entry per read, as the code relies on; with that guarantee it stops only to
    wait, and writes within its buffer.  When it ends it has closed the socket
    and nothing else: the log file stays open. *)
Theorem log_service_forwards (fd : Z) (path : bytes) (w : world) :
  posix (w_env w) ->
  match log_service fd path w with
  | (Done _, w') => closed_fds (calls_since w w') = [fd] /\ logged fd (calls_since w w')
  | (Stop x, w') => log_stops x (calls_since w w')
  end.
Proof.
  intros Hp. pose proof (ospec_total _ _ _ w (ospec_log_service _ fd path) Hp) as H.
  by destruct (log_service fd path w) as [[[]|x] w'].
Qed.

(** ** The backup service *)

(** The arguments joined with colons, as the client sends them. *)
Fixpoint join (l : list bytes) : bytes :=
  match l with
  | [] => []
  | [a] => a
  | a :: l' => a ++ 58 :: join l'
  end.

Lemma split_args_word cur a rest : 58 ∉ a ->
  split_args cur (a ++ rest) =
  match a with [] => split_args cur rest | _ => split_args (Some (default [] cur ++ a)) rest end.
Proof.
  revert cur. induction a as [|c a IH]; intros cur Ha; [done|]. apply not_elem_of_cons in Ha as [Hc Ha].
  simpl. destruct (Z.eqb_spec c 58); [congruence|]. rewrite IH by done.
  destruct a; [done|]. simpl. by rewrite <- app_assoc.
Qed.

Lemma split_args_field a rest : 58 ∉ a -> split_args None (a ++ 58 :: rest) = a :: split_args None rest.
Proof. intros Ha. rewrite split_args_word by done. by destruct a. Qed.

Lemma length_split_args cur args :
  Z.of_nat (length (split_args cur args)) =
  count_args (bool_decide (is_Some cur)) args + (if bool_decide (is_Some cur) then 1 else 0).
Proof.
  revert cur. induction args as [|c args IH]; intros cur; [by destruct cur|]. simpl.
  destruct (c =? 58); [rewrite length_cons, Nat2Z.inj_succ|]; rewrite IH; destruct cur; simpl; lia.
Qed.

(** The two loops over the arguments of a backup agree: the first counts
    exactly the arguments the second stores, so the array that is reserved
    falls short by one pointer less one byte of the one that is filled in,
    whatever the arguments: its last entry, the NULL, is written after the
    end of the array. *)
Theorem backup_args_overflow (sizeof_ptr : Z) (op : BackupOperation) (args : bytes) (s1 : Z) :
  count_args false args = Z.of_nat (length (split_args None args)) /\
  bu_args_needed sizeof_ptr op args s1 = bu_args_reserved sizeof_ptr args + (sizeof_ptr - 1).
Proof.
  assert (E : count_args false args = Z.of_nat (length (split_args None args))).
  { rewrite length_split_args. simpl. lia. }
  split; [done|]. unfold bu_args_needed, bu_args_reserved, bu_args. rewrite length_app, E. simpl. lia.
Qed.

(** The arguments the client joins with colons reach the backup program one
    by one and unchanged, empty ones in the middle included; only an empty
    last one would be lost. *)
Theorem backup_args_roundtrip (op : BackupOperation) (l : list bytes) (s1 : Z) :
  Forall (fun a => 58 ∉ a) l -> last l <> Some [] ->
  drop 3 (bu_args op (join l) s1) = l.
Proof.
  intros Hl Hlast. unfold bu_args. simpl. rewrite drop_0. induction Hl as [|a l Ha Hl IH]; [done|].
  destruct l as [|b l].
  - simpl. rewrite <- (app_nil_r a) at 1. rewrite split_args_word by done. by destruct a.
  - change (join (a :: b :: l)) with (a ++ 58 :: join (b :: l)).
    rewrite split_args_field by done. by rewrite IH.
Qed.

(** ** The remount service *)

(** A word of /proc/mounts. *)
Definition word (s : bytes) : Prop :=
  s <> [] /\ (length s <= 255)%nat /\ Forall (fun c => blank_char c = false) s.

(** One line: device, directory, type and options, and two numbers. *)
Definition mount_line (dev dir type opts : bytes) (freq passno : nat) : bytes :=
  dev ++ 32 :: dir ++ 32 :: type ++ 32 :: opts ++ 32 :: fmt_d (Z.of_nat freq) ++ 32 :: fmt_d (Z.of_nat passno).

Lemma take_word_app n a rest : (length a <= n)%nat -> Forall (fun c => blank_char c = false) a ->
  match rest with c :: _ => blank_char c = true | [] => True end ->
  take_word n (a ++ rest) = (a, rest).
Proof.
  intros Hn Ha Hr. revert n Hn. induction Ha as [|c a Hc Ha IH]; intros n Hn; cbn [app].
  - destruct n, rest as [|d rest]; try done. cbn [take_word]. by rewrite Hr.
  - destruct n as [|n]; [simpl in Hn; lia|]. cbn [take_word]. rewrite Hc, IH by (simpl in Hn; lia). done.
Qed.

Lemma scan_word_app n a rest : (length a <= n)%nat -> a <> [] -> Forall (fun c => blank_char c = false) a ->
  match rest with c :: _ => blank_char c = true | [] => True end ->
  scan_word n (a ++ rest) = Some (a, rest).
Proof.
  intros Hn Hne Ha Hr. unfold scan_word.
  assert (E : skip_blanks (a ++ rest) = a ++ rest).
  { destruct Ha as [|c a Hc]; [done|]. cbn [app skip_blanks]. by rewrite Hc. }
  rewrite E, take_word_app by done. by rewrite bool_decide_eq_false_2.
Qed.

Lemma scan_word_blank n a rest : scan_word n (32 :: a ++ rest) = scan_word n (a ++ rest).
Proof. done. Qed.

Lemma digits_ascii fuel n acc : 0 <= n -> Forall (fun c => ascii_digit c = true) acc ->
  Forall (fun c => ascii_digit c = true) (digits 10 fuel n acc).
Proof.
  revert n acc. induction fuel as [|fuel IH]; intros n acc Hn Hacc; [done|]. simpl.
  assert (Hd : Forall (fun c => ascii_digit c = true) (digit (n mod 10) :: acc)).
  { constructor; [|done]. pose proof (Z.mod_pos_bound n 10). unfold digit, ascii_digit.
    destruct (Z.ltb_spec (n mod 10) 10); lia. }
  destruct (_ =? 0); [done|]. apply IH; [apply Z.div_pos; lia|done].
Qed.

Lemma digits_nonempty fuel n acc : acc <> [] -> digits 10 fuel n acc <> [].
Proof.
  revert n acc. induction fuel as [|fuel IH]; intros n acc H; [done|]. simpl. destruct (_ =? 0); [done|]. by apply IH.
Qed.

Lemma fmt_d_ascii n : exists c s, fmt_d (Z.of_nat n) = c :: s /\ Forall (fun c => ascii_digit c = true) (c :: s).
Proof.
  unfold fmt_d, fmt_base. destruct (Z.ltb_spec (Z.of_nat n) 0); [lia|].
  pose proof (digits_ascii (S (Z.to_nat (Z.log2 (Z.of_nat n)))) (Z.of_nat n) [] ltac:(lia) ltac:(constructor)) as Ha.
  assert (Hne : digits 10 (S (Z.to_nat (Z.log2 (Z.of_nat n)))) (Z.of_nat n) [] <> []).
  { cbn [digits]. destruct (_ =? 0); [done|]. by apply digits_nonempty. }
  destruct (digits _ _ _ _) as [|c s]; [done|]. eauto.
Qed.

Lemma skip_digits_app s rest : Forall (fun c => ascii_digit c = true) s ->
  match rest with c :: _ => ascii_digit c = false | [] => True end -> skip_digits (s ++ rest) = rest.
Proof.
  intros Hs Hr. induction Hs as [|c s Hc Hs IH]; cbn [app skip_digits].
  - destruct rest as [|c rest]; [done|]. cbn [skip_digits]. by rewrite Hr.
  - by rewrite Hc.
Qed.

Lemma scan_int_fmt n rest : match rest with c :: _ => ascii_digit c = false | [] => True end ->
  scan_int (32 :: fmt_d (Z.of_nat n) ++ rest) = Some rest.
Proof.
  intros Hr. destruct (fmt_d_ascii n) as (c & s & -> & Hd). apply Forall_cons in Hd as [Hc Hs].
  unfold scan_int. change (skip_blanks (32 :: (c :: s) ++ rest)) with (skip_blanks (c :: s ++ rest)).
  assert (E : skip_blanks (c :: s ++ rest) = c :: s ++ rest).
  { unfold ascii_digit in Hc. cbn [skip_blanks]. unfold blank_char.
    replace ((c =? 32) || ((9 <=? c) && (c <=? 13))) with false by lia. done. }
  rewrite E. replace ((c =? 45) || (c =? 43)) with false by (unfold ascii_digit in Hc; lia).
  rewrite Hc. by rewrite skip_digits_app.
Qed.

Lemma scan_mount_line dev dir type opts freq passno :
  word dev -> word dir -> word type -> word opts ->
  scan_mount (mount_line dev dir type opts freq passno) = Some (dev, dir).
Proof.
  intros (D1 & D2 & D3) (E1 & E2 & E3) (T1 & T2 & T3) (O1 & O2 & O3). unfold scan_mount, mount_line.
  rewrite scan_word_app by done. simpl.
  rewrite scan_word_blank, scan_word_app by done. simpl.
  rewrite scan_word_blank, scan_word_app by (done || rewrite length_app; simpl; lia). simpl.
  rewrite scan_word_blank, scan_word_app by (done || rewrite length_app; simpl; lia). simpl.
  rewrite scan_int_fmt by done. simpl.
  by rewrite <- (app_nil_r (fmt_d (Z.of_nat passno))), scan_int_fmt.
Qed.

(** The table of mounts, and its text. *)
Record mount := {
  m_dev : bytes;
  m_dir : bytes;
  m_type : bytes;
  m_opts : bytes;
  m_freq : nat;
  m_passno : nat;
}.

Definition wf_mount (m : mount) : Prop := word (m_dev m) /\ word (m_dir m) /\ word (m_type m) /\ word (m_opts m).

Definition mount_text (m : mount) : bytes :=
  mount_line (m_dev m) (m_dir m) (m_type m) (m_opts m) (m_freq m) (m_passno m).

Lemma lines_of_line cur l rest : 10 ∉ l -> cur ++ l <> [] ->
  lines_of cur (l ++ 10 :: rest) = (cur ++ l) :: lines_of [] rest.
Proof.
  revert cur. induction l as [|c l IH]; intros cur Hl Hne; simpl.
  - rewrite app_nil_r in *. by rewrite bool_decide_eq_false_2.
  - apply not_elem_of_cons in Hl as [Hc Hl]. destruct (Z.eqb_spec c 10); [congruence|].
    rewrite IH by (done || by destruct cur). by rewrite <- app_assoc.
Qed.

Lemma word_no_newline s : word s -> 10 ∉ s.
Proof. intros (_ & _ & H) Hin. rewrite Forall_forall in H. by specialize (H _ Hin). Qed.

Lemma fmt_d_no_newline n : 10 ∉ fmt_d (Z.of_nat n).
Proof.
  destruct (fmt_d_ascii n) as (c & s & -> & H). intros Hin. rewrite Forall_forall in H. by specialize (H _ Hin).
Qed.

Lemma mount_text_no_newline m : wf_mount m -> 10 ∉ mount_text m.
Proof.
  intros (W1 & W2 & W3 & W4). unfold mount_text, mount_line.
  pose proof (fmt_d_no_newline (m_freq m)). pose proof (fmt_d_no_newline (m_passno m)).
  apply word_no_newline in W1, W2, W3, W4.
  rewrite !elem_of_app, !elem_of_cons, !elem_of_app, !elem_of_cons, !elem_of_app, !elem_of_cons, !elem_of_app,
    !elem_of_cons, !elem_of_app, !elem_of_cons. naive_solver lia.
Qed.

(** In the text of /proc/mounts the remount service finds the device of the
    first mount on the directory, whatever the other lines are, and nothing
    when no line is for the directory. *)
Theorem mount_device_found (ms : list mount) (dir : bytes) :
  Forall wf_mount ms ->
  mount_of dir (lines_of [] (ms ≫= fun m => mount_text m ++ [10])) =
  m_dev <$> (snd <$> list_find (fun m => m_dir m = dir) ms).
Proof.
  intros Hms. induction Hms as [|m ms Hm Hms IH]; [done|]. rewrite bind_cons, <- app_assoc. cbn [app].
  rewrite lines_of_line; [|by apply mount_text_no_newline|].
  2: { destruct Hm as ([Hne _] & _). unfold mount_text, mount_line. by destruct (m_dev m). }
  rewrite app_nil_l. cbn [mount_of list_find]. unfold mount_text at 1. destruct Hm as (W1 & W2 & W3 & W4).
  rewrite scan_mount_line by done.
  destruct (decide (m_dir m = dir)); [by rewrite bool_decide_eq_true_2|].
  rewrite bool_decide_eq_false_2, IH by done. by destruct (list_find _ ms) as [[]|].
Qed.

(** ** Witnesses *)

(** A capture of one RGBA pixel. *)
Definition capture : bytes := le32 1 ++ le32 1 ++ le32 1 ++ [10; 20; 30; 40].

Definition capture_env : env := stream_env (fun fd => if fd =? 3 then capture else []).

Lemma capture_env_posix : posix capture_env.
Proof. apply stream_env_posix. intros fd. destruct (fd =? 3); [|constructor]. by repeat constructor. Qed.

Lemma framebuffer_service_forwards_witness :
  let w := boot capture_env 60 in
  (framebuffer_service 7 w).1 = Done tt /\
  length (written_to 7 (calls_since w (framebuffer_service 7 w).2)) = 56%nat /\
  match framebuffer_service 7 w with
  | (Done _, w') =>
      let new := calls_since w w' in
      closed_fds new = piped new ++ [7] /\
      match piped new with
      | [] => written_to 7 new = []
      | fdc :: _ =>
          sane (read_from fdc new) ->
          forwards (read_from fdc new) (written_to 7 new) /\
          (fork_failed new \/ complete (read_from fdc new) (written_to 7 new) \/ read_failed fdc new \/
           write_failed 7 new \/ unusable (read_from fdc new))
      end
  | (Stop x, _) => fb_aborts x
  end.
Proof.
  split; [vm_compute; reflexivity|]. split; [vm_compute; reflexivity|].
  apply (framebuffer_service_forwards 7 (boot capture_env 60)); [exact capture_env_posix|].
  intros h a b E. simpl in E. injection E as <- <-. lia.
Defined.

(** A log of two entries, read one at a time. *)
Definition log_entry (b : Z) : bytes := [1; 0] ++ replicate 18 0 ++ [b].

Definition log_env : env := fun h c =>
  match c return ans c with
  | Read _ n =>
      match length (entries h) with
      | 0%nat => Ok (take (Z.to_nat n) (log_entry 65))
      | 1%nat => Ok (take (Z.to_nat n) (log_entry 66))
      | _ => Ok []
      end
  | c => ok_default c
  end.

Lemma log_env_posix : posix log_env.
Proof.
  intros h c. destruct c; try apply ok_default_answer. cbn [answer_ok log_env].
  assert (H : forall b, is_byte b -> Forall is_byte (log_entry b)).
  { intros b Hb. simpl. repeat (apply Forall_cons; split; [done || (unfold is_byte; lia)|]). by apply Forall_nil. }
  destruct (length (entries h)) as [|[|k]]; (split; [rewrite ?length_take; simpl; lia|]);
    try apply Forall_take, H; done.
Qed.

Lemma log_service_forwards_witness :
  let w := boot log_env 20 in
  (log_service 7 (str "/dev/log/main") w).1 = Done tt /\
  written_to 7 (calls_since w (log_service 7 (str "/dev/log/main") w).2) = log_entry 65 ++ log_entry 66 /\
  match log_service 7 (str "/dev/log/main") w with
  | (Done _, w') => closed_fds (calls_since w w') = [7] /\ logged 7 (calls_since w w')
  | (Stop x, w') => log_stops x (calls_since w w')
  end.
Proof.
  split; [vm_compute; reflexivity|]. split; [vm_compute; reflexivity|].
  apply (log_service_forwards 7 (str "/dev/log/main") (boot log_env 20)). exact log_env_posix.
Defined.

Lemma backup_args_roundtrip_witness :
  bu_args BACKUP (join [str "-apk"; []; str "com.example"]) 5 =
    [str "bu"; str "5"; str "backup"; str "-apk"; []; str "com.example"] /\
  drop 3 (bu_args BACKUP (join [str "-apk"; []; str "com.example"]) 5) = [str "-apk"; []; str "com.example"].
Proof.
  split; [vm_compute; reflexivity|]. apply (backup_args_roundtrip BACKUP [str "-apk"; []; str "com.example"] 5).
  - repeat constructor; apply (bool_decide_unpack _); vm_compute; exact I.
  - done.
Defined.

Definition sample_mounts : list mount :=
  [{| m_dev := str "rootfs"; m_dir := str "/"; m_type := str "rootfs"; m_opts := str "ro"; m_freq := 0; m_passno := 0 |};
   {| m_dev := str "/dev/mtd3"; m_dir := str "/system"; m_type := str "yaffs2"; m_opts := str "ro"; m_freq := 0; m_passno := 0 |}].

Lemma mount_device_found_witness :
  mount_of (str "/system") (lines_of [] (sample_mounts ≫= fun m => mount_text m ++ [10])) = Some (str "/dev/mtd3").
Proof.
  rewrite (mount_device_found sample_mounts (str "/system")); [vm_compute; reflexivity|].
  repeat constructor; (vm_compute; (discriminate || lia || reflexivity)).
Defined.
