(* ===== verification/RegistrySpec.v ===== *)
(** * Correctness of the registry of transports

    Device selection and the list of devices against reference definitions,
    the messages between the threads and the event loop, and what happens to a
    transport that is released. *)

From S2P Require Import Prelude Effects DList Os Sysdeps Wire Globals Fdevent Transport FdeventFacts FdeventLoop FdeventReg FdeventSpec Sockets Jdwp Auth Protocol Frame SocketsSpec Registry.

(** ** Qualifiers *)

Lemma match_prefix_spec prefix to_test rest :
  match_prefix prefix to_test = Some rest <-> to_test = prefix ++ rest.
Proof.
  revert to_test. induction prefix as [|c prefix IH]; intros to_test; simpl.
  - split; [by intros [= ->]|by intros ->].
  - destruct to_test as [|d to_test]; [done|]. destruct (Z.eqb_spec c d) as [->|Hne].
    + rewrite IH. split; [by intros ->|by intros [= ->]].
    + split; [done|]. by intros [= -> _].
Qed.

Lemma match_qual_spec san qual to_test :
  match_qual san qual to_test = true <-> to_test = (if san then sanitize <$> qual else qual).
Proof.
  revert to_test. induction qual as [|c qual IH]; intros to_test.
  - by destruct san, to_test.
  - destruct to_test as [|d to_test]; [by destruct san|]. cbn [match_qual].
    assert (E : (if san && qual_char_is_invalid c then 95 else c) = if san then sanitize c else c).
    { destruct san; [|done]. unfold sanitize. by destruct (qual_char_is_invalid c). }
    rewrite E. destruct (Z.eqb_spec (if san then sanitize c else c) d) as [<-|Hne].
    + rewrite IH. destruct san; simpl; (split; [by intros ->|by intros [= ->]]).
    + split; [done|]. intros H. destruct san; simpl in *; congruence.
Qed.

(** A request names a device by a qualifier exactly when it is the prefix
    followed by the qualifier, with every character of a model name that is
    not a letter or a digit replaced by an underscore; a device without the
    qualifier is named only by the empty request. *)
Theorem qual_match_iff (to_test prefix : bytes) (qual : option bytes) (sanitize_qual : bool) :
  qual_match to_test prefix qual sanitize_qual = true <->
  (to_test = [] /\ default [] qual = []) \/
  (to_test <> [] /\ exists q, qual = Some q /\ to_test = prefix ++ (if sanitize_qual then sanitize <$> q else q)).
Proof.
  destruct to_test as [|c to_test].
  - destruct qual as [[|q qual]|]; simpl; naive_solver.
  - unfold qual_match. destruct qual as [q|]; [|naive_solver].
    destruct (match_prefix prefix (c :: to_test)) as [rest|] eqn:E.
    + apply match_prefix_spec in E. rewrite match_qual_spec, E. split.
      * intros ->. right. split; [by rewrite <- E|by exists q].
      * intros [[H _]|(_ & q' & [= <-] & H%app_inv_head)]; [congruence|done].
    + split; [done|]. intros [[? _]|(_ & q' & [= <-] & E')]; [done|].
      apply match_prefix_spec in E'. congruence.
Qed.

(** ** Device selection *)

(** The transports of the list at [head], in order. *)
Definition listed (st : fdstate) (head : ptr) (ts : list (ptr * atransport)) : Prop :=
  dll (transports (rest st)) head ts.*1 /\
  Forall (fun '(t, k) => transports (rest st) !! t = Some k) ts /\ NULL ∉ ts.*1.

(** What a request asks for: a name, or a kind of transport. *)
Definition wanted (ttype : transport_type) (serial : option bytes) (k : atransport) : bool :=
  match serial with
  | Some serial => serial_matches serial k
  | None =>
      match ttype with
      | kTransportUsb => bool_decide (at_type k = kTransportUsb)
      | kTransportLocal => bool_decide (at_type k = kTransportLocal)
      | kTransportAny => true
      | kTransportHost => false
      end
  end.

Definition too_many (ttype : transport_type) (serial : option bytes) : bytes :=
  match serial, ttype with
  | None, kTransportLocal => str "more than one emulator"
  | None, kTransportAny => str "more than one device and emulator"
  | _, _ => str "more than one device"
  end.

Definition accessible (k : atransport) : bool := negb (at_connection_state k =? CS_NOPERM).

(** The devices a request matches. *)
Definition candidates (ttype : transport_type) (serial : option bytes) (ts : list (ptr * atransport)) :
    list (ptr * atransport) :=
  filter (fun tk => accessible (tk.2) && wanted ttype serial (tk.2)) ts.

Definition selection (state : Z) (ttype : transport_type) (serial : option bytes)
    (ts : list (ptr * atransport)) : ptr * option bytes :=
  match candidates ttype serial ts with
  | [] => (NULL, Some (if forallb (fun tk => accessible (tk.2)) ts then str "device not found"
                       else str "insufficient permissions for device"))
  | [(t, k)] => match usable state (at_connection_state k) with
                | Some e => (NULL, Some e)
                | None => (t, None)
                end
  | _ => (NULL, Some (too_many ttype serial))
  end.

(** The selection is a transport, or the reason there is none. *)
Lemma selection_result state ttype serial ts :
  NULL ∉ ts.*1 ->
  match (selection state ttype serial ts).2 with
  | None => (selection state ttype serial ts).1 <> NULL
  | Some _ => (selection state ttype serial ts).1 = NULL
  end.
Proof.
  intros Hn. unfold selection. destruct (candidates ttype serial ts) as [|[t k] [|]] eqn:Ec; [done| |done].
  destruct (usable state (at_connection_state k)); [done|]. simpl. intros ->. apply Hn.
  assert (H : (NULL, k) ∈ candidates ttype serial ts) by (rewrite Ec; left).
  apply list_elem_of_filter in H as [_ H]. by apply (list_elem_of_fmap_2 fst) in H.
Qed.

(** A walk along the list at [head] under the lock, by a computation [m] that
    leaves the state alone. *)
Lemma locked_walk {A B} st head ts (m : ptr -> nat -> F A) (k : A -> F B) a :
  transport_lock (rest st) = false -> listed st head ts ->
  (forall st' first n, transports (rest st') = transports (rest st) ->
     chain (transports (rest st)) head first ts -> (length ts <= n)%nat -> m first n st' = (Done a, st')) ->
  (lock_transports;;
   first ← zoom (load_next (T := atransport) head);
   n ← global (fun g => size (transports g));
   a ← m first n;
   unlock_transports;;
   k a) st = k a st.
Proof.
  intros Hk (Hd & Hf & Hn) Hm. pose proof (dll_length _ _ _ Hd) as Hl. rewrite length_fmap in Hl.
  set (st' := put (set_transport_lock true (rest st)) st).
  rewrite (bind_done _ _ _ tt st') by (unfold lock_transports, mbind, M_bind, global, gets; simpl; by rewrite Hk).
  destruct (dll_is_Some _ _ _ head Hd) as [kh Hh]; [left|].
  pose proof (dll_next _ _ _ Hd) as Hnx. unfold next_is in Hnx. rewrite Hh in Hnx. injection Hnx as Hnx.
  rewrite (bind_done _ _ _ (List.hd head (ts.*1)) st').
  2: { unfold zoom, load_next, load, must, mbind, M_bind. simpl. rewrite Hh. simpl. by rewrite Hnx. }
  rewrite (bind_done _ _ _ (size (transports (rest st))) st') by done.
  rewrite (bind_done _ _ _ a st') by (apply Hm; [done|by eapply (dll_chain _ _ [])|lia]).
  rewrite (bind_done _ _ _ tt (put (set_transport_lock false (rest st')) st')) by done.
  f_equal. subst st'. destruct st as [? ? ? ? ? ? ? ? ? g], g. simpl in *. by subst.
Qed.

(** *** The search *)

Fixpoint pure_search (ttype : transport_type) (serial : option bytes) (ts : list (ptr * atransport))
    (a : search) : search :=
  match ts with
  | [] => a
  | (t, k) :: ts' =>
      let '(a', break) := consider ttype serial t k a in
      if (break : bool) then a' else pure_search ttype serial ts' a'
  end.

Lemma search_list_pure n ttype serial t ts a st :
  chain (transports (rest st)) transport_list t ts -> (length ts <= n)%nat ->
  search_list n ttype serial t a st = (Done (pure_search ttype serial ts a), st).
Proof.
  revert n t a. induction ts as [|[x k] ts IH]; intros n t a Hc Hn; simpl in Hc.
  - subst t. destruct n; done.
  - destruct Hc as (-> & Hne & _ & Hx & Hc). destruct n as [|n]; [simpl in Hn; lia|]. cbn [search_list].
    rewrite bool_decide_false by done.
    rewrite (bind_done _ _ _ k st) by (unfold get, must; simpl; by rewrite Hx). cbn [pure_search].
    destruct (consider ttype serial x k a) as [a' [|]]; [done|]. apply IH; [done|simpl in Hn; lia].
Qed.

Lemma consider_spec ttype serial t k a :
  consider ttype serial t k a =
  if negb (accessible k) then ({| result := result a; ambiguous := ambiguous a;
                                  error_out := str "insufficient permissions for device" |}, false)
  else if wanted ttype serial k then found t (too_many ttype serial) a else (a, false).
Proof.
  unfold consider, accessible, wanted. rewrite negb_involutive.
  destruct (_ =? CS_NOPERM); [done|]. destruct serial; [done|].
  destruct ttype; simpl; rewrite ?andb_false_r; repeat case_bool_decide; done.
Qed.

Lemma candidates_cons ttype serial t k ts :
  candidates ttype serial ((t, k) :: ts) =
  if accessible k && wanted ttype serial k then (t, k) :: candidates ttype serial ts
  else candidates ttype serial ts.
Proof.
  unfold candidates. rewrite filter_cons. simpl.
  destruct (accessible k && wanted ttype serial k) eqn:E;
    [rewrite decide_True|rewrite decide_False]; rewrite ?E; by auto using Is_true_true_2.
Qed.

(** After a match: another one makes the request ambiguous. *)
Lemma pure_search_second ttype serial ts a :
  result a <> NULL ->
  match candidates ttype serial ts with
  | [] => result (pure_search ttype serial ts a) = result a /\
      ambiguous (pure_search ttype serial ts a) = ambiguous a
  | _ => pure_search ttype serial ts a = {| result := NULL; ambiguous := true; error_out := too_many ttype serial |}
  end.
Proof.
  revert a. induction ts as [|[t k] ts IH]; intros a Ha; [done|]. rewrite candidates_cons. cbn [pure_search].
  rewrite consider_spec. destruct (accessible k); cbn [negb andb].
  - destruct (wanted ttype serial k); [|by apply IH]. unfold found. by rewrite bool_decide_false.
  - specialize (IH {| result := result a; ambiguous := ambiguous a;
      error_out := str "insufficient permissions for device" |} Ha). done.
Qed.

(** Before a match. *)
Lemma pure_search_first ttype serial ts b e :
  Forall (fun tk => tk.1 <> NULL) ts ->
  let r := pure_search ttype serial ts {| result := NULL; ambiguous := b; error_out := e |} in
  match candidates ttype serial ts with
  | [] => r = {| result := NULL; ambiguous := b; error_out :=
           if forallb (fun tk => accessible (tk.2)) ts then e else str "insufficient permissions for device" |}
  | [(t, k)] => result r = t /\ ambiguous r = b
  | _ => r = {| result := NULL; ambiguous := true; error_out := too_many ttype serial |}
  end.
Proof.
  intros Hts. revert e. induction Hts as [|[t k] ts Ht Hts IH]; intros e; [done|].
  rewrite candidates_cons. cbn [pure_search forallb snd]. rewrite consider_spec. simpl in Ht.
  destruct (accessible k); cbn [negb andb].
  - destruct (wanted ttype serial k); [|apply IH]. unfold found. rewrite bool_decide_true by done.
    pose proof (pure_search_second ttype serial ts {| result := t; ambiguous := b; error_out := e |} Ht) as H.
    by destruct (candidates ttype serial ts).
  - specialize (IH (str "insufficient permissions for device")). cbv zeta in IH.
    destruct (candidates ttype serial ts) as [|[t' k'] [|]]; [|done..].
    cbn [result ambiguous]. rewrite IH. by destruct (forallb _ ts).
Qed.

(** Whether a request that cannot be met is tried again. *)
Definition retries (state : Z) (ttype : transport_type) (serial : option bytes) (ts : list (ptr * atransport)) : bool :=
  negb (state =? CS_ANY) &&
  (bool_decide (is_Some serial) || bool_decide (length (candidates ttype serial ts) <= 1)%nat).

Lemma acquire_round_spec state ttype serial ts b st :
  listed st transport_list ts -> transport_lock (rest st) = false -> (serial = None -> b = false) ->
  exists b', (serial = None -> b' = false \/ retries state ttype serial ts = false) /\
  acquire_round state ttype serial b st =
  if bool_decide ((selection state ttype serial ts).1 = NULL) && retries state ttype serial ts
  then (os (adb_sleep_ms 1000);; mret (inl b')) st else (Done (inr (selection state ttype serial ts)), st).
Proof.
  intros Hl Hk Hb. set (a := pure_search ttype serial ts {| result := NULL; ambiguous := b; error_out := str "device not found" |}).
  assert (Hn : Forall (fun tk => tk.1 <> NULL) ts).
  { destruct Hl as (_ & _ & Hl). apply Forall_forall. intros tk Hin E. apply Hl. rewrite <- E. by apply list_elem_of_fmap_2. }
  pose proof (pure_search_first ttype serial ts b (str "device not found") Hn) as Hs. fold a in Hs. cbv zeta in Hs.
  exists (ambiguous a). split.
  { intros E. specialize (Hb E). unfold retries. destruct (candidates ttype serial ts) as [|[t k] [|c2 cs]].
    - rewrite Hs. by left.
    - left. by destruct Hs as [_ ->].
    - right. rewrite E, (bool_decide_false (length _ <= 1)%nat) by (simpl; lia). by rewrite andb_false_r. }
  unfold acquire_round.
  rewrite (locked_walk st transport_list ts _ _ a Hk Hl).
  2: { intros st' first n E Hc Hlen. apply search_list_pure; [by rewrite E|done]. }
  assert (Hr : (if bool_decide (result a = NULL) then mret (NULL, Some (error_out a)) else
     k ← get (T := atransport) (result a);
     mret (match usable state (at_connection_state k) with
           | Some e => (NULL, Some e) | None => (result a, None) end)) st = (Done (selection state ttype serial ts), st)).
  { unfold selection. destruct (candidates ttype serial ts) as [|[t k] [|c2 cs]] eqn:Ec; [by rewrite Hs| |by rewrite Hs].
    destruct Hs as [-> _]. assert (Hin : (t, k) ∈ ts).
    { assert (H : (t, k) ∈ candidates ttype serial ts) by (rewrite Ec; left). by apply list_elem_of_filter in H as [_ H]. }
    rewrite Forall_forall in Hn. rewrite bool_decide_false by (by apply (Hn (t, k))).
    destruct Hl as (_ & Hf & _). rewrite Forall_forall in Hf. specialize (Hf _ Hin). simpl in Hf.
    rewrite (bind_done _ _ _ k st) by (unfold get, must; simpl; by rewrite Hf).
    by destruct (usable state (at_connection_state k)). }
  rewrite (bind_done _ _ _ _ _ Hr).
  assert (Ea : (bool_decide (is_Some serial) || negb (ambiguous a)) =
    (bool_decide (is_Some serial) || bool_decide (length (candidates ttype serial ts) <= 1)%nat)).
  { destruct serial; [done|]. cbn [bool_decide]. rewrite !(bool_decide_false (is_Some None)) by (by intros []).
    rewrite (Hb eq_refl) in Hs. destruct (candidates _ _ ts) as [|[t k] [|c2 cs]].
    - by rewrite Hs.
    - by destruct Hs as [_ ->].
    - by rewrite Hs. }
  rewrite <- andb_assoc, Ea. unfold retries. by destruct (_ && _).
Qed.

Lemma acquire_first_round state ttype serial ts st :
  listed st transport_list ts -> transport_lock (rest st) = false ->
  bool_decide ((selection state ttype serial ts).1 = NULL) && retries state ttype serial ts = false ->
  acquire_one_transport state ttype serial st = (Done (selection state ttype serial ts), st).
Proof.
  intros Hl Hk E. destruct (acquire_round_spec state ttype serial ts false st Hl Hk) as (b' & _ & Eq); [done|].
  rewrite E in Eq. unfold acquire_one_transport, loop. cbn [loop_fuel]. by rewrite (bind_done _ _ _ _ _ Eq).
Qed.

(** A request for any state does not wait. *)
Lemma acquire_any ttype serial ts st :
  listed st transport_list ts -> transport_lock (rest st) = false ->
  acquire_one_transport CS_ANY ttype serial st = (Done (selection CS_ANY ttype serial ts), st).
Proof. intros Hl Hk. apply acquire_first_round; [done|done|]. by rewrite andb_false_r. Qed.

(** C6: Device selection is exactly this choice: among the transports that may
    be used and match the request (by name, or by kind), a single one is
    returned if its state allows, and otherwise the request fails with the
    reason: nothing matches, permissions are missing, several match, or the
    state of the one that matches.  A request for a particular state waits
    instead of failing, except when it names no device and several match.  The
    search changes nothing, and releases its lock. *)
Theorem acquire_selects (state : Z) (ttype : transport_type) (serial : option bytes)
    (ts : list (ptr * atransport)) (st : fdstate) :
  listed st transport_list ts -> transport_lock (rest st) = false ->
  if bool_decide ((selection state ttype serial ts).1 = NULL) && retries state ttype serial ts
  then (acquire_one_transport state ttype serial st).1 = Stop Blocked
  else acquire_one_transport state ttype serial st = (Done (selection state ttype serial ts), st).
Proof.
  intros Hl Hk. destruct (_ && _) eqn:E.
  - cut (wp (acquire_one_transport state ttype serial) (fun _ _ => False) (fun e _ => e = Blocked) st).
    { unfold wp. by destruct (acquire_one_transport state ttype serial st) as [[]] eqn:?; intros; subst. }
    unfold acquire_one_transport.
    apply (wp_loop (fun b s => (serial = None -> b = false) /\ listed s transport_list ts /\
                               transport_lock (rest s) = false)); [done|].
    intros b s (Hb & Hls & Hks).
    destruct (acquire_round_spec state ttype serial ts b s Hls Hks Hb) as (b' & Hb' & Eq).
    rewrite E in Eq. eapply wp_eq; [exact Eq|]. unfold adb_sleep_ms. wp_step. apply wp_zoom. wp_step.
    apply (wp_syscall (Usleep (1000 * 1000))); [|done]. intros w' a S _. wp_step. wp_step.
    split.
    + split_and!; [|done|done]. intros Es. destruct (Hb' Es) as [?|Hr]; [done|]. rewrite Hr in E.
      by rewrite andb_false_r in E.
    + by apply (steps_budget_lt _ _ _ S).
  - by apply acquire_first_round.
Qed.

(** ** The list of devices *)

Definition device_line (tk : ptr * atransport) : bytes :=
  serial_or_unknown (tk.2) ++ [9] ++ statename (tk.2) ++ [10].

Lemma list_lines_short n bufsize t ts acc st :
  chain (transports (rest st)) transport_list t ts -> (length ts <= n)%nat ->
  list_lines n bufsize false t acc st =
  (Done (acc ++ (fits device_line (bufsize - Z.of_nat (length acc)) ts).1 ≫= device_line), st).
Proof.
  revert n t acc. induction ts as [|[x k] ts IH]; intros n t acc Hc Hn; cbn [chain] in Hc.
  - subst t. change ((fits device_line (bufsize - Z.of_nat (length acc)) []).1 ≫= device_line) with (@nil Z).
    rewrite app_nil_r. destruct n; cbn [list_lines]; by rewrite bool_decide_true.
  - destruct Hc as (-> & Hne & _ & Hx & Hc). destruct n as [|n]; [simpl in Hn; lia|]. cbn [list_lines].
    rewrite bool_decide_false by done.
    rewrite (bind_done _ _ _ k st) by (unfold get, must; simpl; by rewrite Hx).
    assert (Ef : format_transport k (bufsize - Z.of_nat (length acc)) false st =
      (Done (Z.of_nat (length (device_line (x, k))), device_line (x, k)), st)) by done.
    rewrite (bind_done _ _ _ _ _ Ef). clear Ef. cbn [fits].
    destruct (Z.geb_spec (Z.of_nat (length acc) + Z.of_nat (length (device_line (x, k)))) bufsize) as [Hge|Hlt].
    + rewrite (proj2 (Z.geb_le _ _)) by lia. cbn [fst]. change ([] ≫= device_line) with (@nil Z). by rewrite app_nil_r.
    + destruct (Z.geb_spec (Z.of_nat (length (device_line (x, k)))) (bufsize - Z.of_nat (length acc))); [lia|].
      rewrite IH by (done || simpl in Hn; lia). rewrite length_app.
      replace (bufsize - Z.of_nat (length acc + length (device_line (x, k)))) with
        (bufsize - Z.of_nat (length acc) - Z.of_nat (length (device_line (x, k)))) by lia.
      destruct (fits _ _ ts) as [a b]. cbn [fst]. by rewrite bind_cons, <- app_assoc.
Qed.

(** The list of devices for a client has one line per transport, in the
    order they were registered, with its serial number and its state; it stops
    before the first line that does not fit and stays within the buffer, and
    making it changes nothing. *)
Theorem list_transports_text (bufsize : Z) (ts : list (ptr * atransport)) (st : fdstate) :
  listed st transport_list ts -> transport_lock (rest st) = false -> 0 < bufsize ->
  exists shown hidden, ts = shown ++ hidden /\
    list_transports bufsize false st = (Done (shown ≫= device_line), st) /\
    Z.of_nat (length (shown ≫= device_line)) < bufsize /\
    match hidden with
    | [] => True
    | tk :: _ => bufsize <= Z.of_nat (length ((shown ++ [tk]) ≫= device_line))
    end.
Proof.
  intros Hl Hk Hb. set (r := fits device_line bufsize ts). exists (r.1), (r.2).
  split_and!; [apply fits_app| |by apply fits_length|].
  2: { destruct (r.2) eqn:E; [done|]. by eapply fits_maximal. }
  unfold list_transports.
  pose proof (fits_length device_line bufsize ts Hb) as Hlen. fold r in Hlen.
  set (check := fun acc : bytes => (if Z.of_nat (length acc) <? bufsize then skip else undef "write after the buffer") : F unit).
  assert (E : forall st' first n, transports (rest st') = transports (rest st) ->
    chain (transports (rest st)) transport_list first ts -> (length ts <= n)%nat ->
    (acc ← list_lines n bufsize false first []; check acc;; mret acc) st' = (Done (r.1 ≫= device_line), st')).
  { intros st' first n Et Hc Hn.
    rewrite (bind_done _ _ _ (r.1 ≫= device_line) st').
    - unfold check. rewrite (proj2 (Z.ltb_lt _ _)) by done. done.
    - rewrite (list_lines_short n bufsize first ts []); [|by rewrite Et|done]. by rewrite Z.sub_0_r. }
  etransitivity; [|exact (locked_walk st transport_list ts _ mret _ Hk Hl E)].
  unfold mbind, M_bind. destruct (lock_transports st) as [[[]|] s1]; [|done].
  destruct (zoom _ s1) as [[first|] s2]; [|done]. destruct (global _ s2) as [[n|] s3]; [|done].
  destruct (list_lines _ _ _ _ _ s3) as [[acc|] s4]; [|done]. fold (check acc). by destruct (check acc s4) as [[[]|] s5].
Qed.

(** ** Messages between the threads and the event loop *)

Lemma le_split n x rest : 0 <= x < 256 ^ Z.of_nat n ->
  le_val (take n (le_bytes n x ++ rest)) = x /\ drop n (le_bytes n x ++ rest) = rest.
Proof.
  intros Hx. pose proof (length_le_bytes n x) as Hl. split.
  - rewrite <- Hl at 1. by rewrite take_app_length, le_val_le_bytes, Z.mod_small.
  - rewrite <- Hl at 1. apply drop_app_length.
Qed.

(** A message of a machine with [8 * s]-bit pointers. *)
Definition valid_tmsg (s : Z) (m : tmsg) : Prop :=
  Z.of_N (tm_transport m) < 256 ^ s /\ 0 <= tm_action m < 2 ^ 31.

Lemma tmsg_bytes_inv s m : 4 <= s -> valid_tmsg s m -> tmsg_of_bytes s (tmsg_bytes s m) = m.
Proof.
  intros Hs [Ht Ha]. destruct m as [t a]. cbn [tm_transport tm_action] in *. unfold tmsg_of_bytes, tmsg_bytes.
  cbn [tm_transport tm_action].
  destruct (le_split (Z.to_nat s) (Z.of_N t) (le32 a ++ replicate (Z.to_nat (s - 4)) 0)) as [-> ->].
  { rewrite Z2Nat.id by lia. lia. }
  destruct (le_split 4 a (replicate (Z.to_nat (s - 4)) 0)) as [-> _]; [cbn; lia|].
  rewrite N2Z.id. f_equal. unfold s32. change (u32 a) with (a mod 2 ^ 32). rewrite Z.mod_small by lia.
  by rewrite (proj2 (Z.ltb_lt a (2 ^ 31))) by lia.
Qed.

Lemma ospec_read_action e s fd : 4 <= s ->
  ospec e (transport_read_action s fd)
    (fun r new _ => only (reads fd) new /\
       match r with
       | Some m => Z.of_nat (length (read_from fd new)) = 2 * s /\ m = tmsg_of_bytes s (read_from fd new)
       | None => Z.of_nat (length (read_from fd new)) < 2 * s
       end)
    (blocked (fun new => only (reads fd) new)).
Proof.
  intros Hs. unfold transport_read_action. change (read_all fd) with (readx fd). os_call ospec_readx.
  - unfold sizeof_tmsg. lia.
  - intros x new (-> & Ho & _). by split.
  - intros r new e' [Ho Hr]. os_step. rewrite app_nil_r. split; [done|]. destruct r as [bs|]; [|done].
    by destruct Hr as (-> & Hl & _).
Qed.

(** The event loop reads the request a thread wrote: when the writer
    reports success, on a machine with pointers of at least four bytes, a
    reader that consumed exactly the bytes written returns the same transport
    and the same action, and does not fail. *)
Theorem transport_action_roundtrip (s fd1 fd2 : Z) (m : tmsg) (w1 w1' w2 w2' : world) (r : option tmsg) :
  posix (w_env w1) -> posix (w_env w2) -> 4 <= s -> valid_tmsg s m ->
  transport_write_action s fd1 m w1 = (Done 0, w1') ->
  transport_read_action s fd2 w2 = (Done r, w2') ->
  read_from fd2 (calls_since w2 w2') = written_to fd1 (calls_since w1 w1') ->
  r = Some m.
Proof.
  intros Hp1 Hp2 Hs Hm Hw Hr Hsame.
  destruct (ospec_run _ _ _ _ _ _ (ospec_write_packet _ fd1 (tmsg_bytes s m)) Hp1 Hw) as [_ E].
  destruct (ospec_run _ _ _ _ _ _ (ospec_read_action _ s fd2 Hs) Hp2 Hr) as [_ Hres].
  rewrite Hsame, E in Hres by done. destruct r as [m'|].
  - destruct Hres as [_ ->]. by rewrite tmsg_bytes_inv.
  - unfold tmsg_bytes in Hres. autorewrite with adb_simpl in Hres. lia.
Qed.

(** ** Registration *)

(** The socket pair the system would make next is new and fits an [fd_set]. *)
Definition pair_new (s : fdstate) : Prop :=
  match w_env (fd_world s) (w_hist (fd_world s)) Socketpair with
  | Ok (s0, _) => 0 <= s0 < FD_SETSIZE /\ ~ registered s s0
  | Err _ => True
  end.

Lemma wp_socketpair_any Q (X : stop -> world -> Prop) w :
  posix (w_env w) ->
  (forall s0 s1 w', w_env w (w_hist w) Socketpair = Ok (s0, s1) -> later w w' -> Q (Ok (s0, s1)) w') ->
  (forall e w', later w w' -> Q (Err e) w') -> (forall w', X Blocked w') ->
  wp adb_socketpair Q X w.
Proof.
  intros Hp HQ HE HX. unfold adb_socketpair. wp_step. apply (wp_syscall Socketpair); [|done].
  cbv zeta. intros w1 S1 _. apply steps_later in S1. pose proof (later_posix _ _ S1 Hp) as Hp1.
  destruct (w_env w (w_hist w) Socketpair) as [[s0 s1]|e]; [|wp_step; by apply HE].
  wp_step. apply wp_close_on_exec; [done| |done]. intros w2 S2. pose proof (later_posix _ _ S2 Hp1) as Hp2.
  wp_step. apply wp_close_on_exec; [done| |done]. intros w3 S3. wp_step.
  apply HQ; [done|]. etrans; [exact S1|]. by etrans.
Qed.

(** An event object that waits for input on [fd]. *)
Definition reads_on (s : fdstate) (p : ptr) (fd : Z) : Prop :=
  exists f, obj s p = Some f /\ fde_fd f = fd /\ has (fde_state f) FDE_READ = true.

Definition started (s0 s1 : Z) (k : atransport) : atransport := set_ends s0 s1 (set_ref_count 2 k).

(** The two threads of a transport were started last. *)
Definition threads_started (w : world) : Prop :=
  exists pre, w_hist w = pre ++ [ev (Thread_create "input_thread") (Ok tt); ev (Thread_create "output_thread") (Ok tt)].

Lemma wp_start_threads t k f0 pend Q X s :
  fd_inv s pend -> posix_state s -> pair_new s -> transports (rest s) !! t = Some k ->
  fde_heap s !! at_transport_fde k = Some f0 -> active f0 = false ->
  at_transport_fde k <> NULL -> at_transport_fde k <> list_pending ->
  (forall s' pend' s0 s1, fd_inv s' pend' -> w_env (fd_world s) (w_hist (fd_world s)) Socketpair = Ok (s0, s1) ->
     threads_started (fd_world s') ->
     rest s' = set_transports (<[t := started s0 s1 k]> (transports (rest s))) (rest s) ->
     reads_on s' (at_transport_fde k) s0 -> Q tt s') ->
  (forall x s', safe_stop x -> X x s') ->
  wp (start_threads 4 t) Q X s.
Proof.
  intros Hi Hp Hfresh Ht Hf0 Hina Hn Hnl HQ HX. unfold start_threads. wp_step.
  eapply wp_set; [exact Ht|]. set (s1' := put _ s). wp_step. apply wp_zoom.
  apply wp_socketpair_any; [exact Hp| |intros; by apply HX|intros; by apply HX].
  intros a0 a1 w1 Hpair Hw1. unfold pair_new in Hfresh.
  rewrite (Hpair : w_env (fd_world s) (w_hist (fd_world s)) Socketpair = _) in Hfresh. destruct Hfresh as [Ha0 Hreg].
  cbn [view Lens_fd_world fd_world].
  set (s2 := put w1 s1'). wp_step. eapply wp_set; [apply lookup_insert_eq|]. set (s3 := put _ s2).
  assert (R3 : rest s3 = set_transports (<[t := started a0 a1 k]> (transports (rest s))) (rest s)).
  { unfold s3, s2, s1'. simpl. by rewrite insert_insert_eq. }
  assert (Hi3 : fd_inv s3 pend).
  { unfold s3, s2, s1'. apply fd_inv_rest. by apply (fd_inv_world), fd_inv_rest. }
  wp_step. eapply wp_get; [rewrite R3; apply lookup_insert_eq|]. cbn [started set_ends set_ref_count at_transport_fde].
  wp_step. apply (wp_frame id); [apply keeps_fdevent_install|].
  eapply (wp_fdevent_install _ f0); [exact Hi3|by eapply later_posix|exact Hf0|done|done|done|done|exact Hreg| |done].
  intros s4 Hi4 Eh4 Hw4 _ R4. wp_step. apply (wp_frame id); [apply keeps_fdevent_set|].
  eapply wp_fdevent_set; [exact Hi4|rewrite Eh4; apply lookup_insert_eq|]. intros s5 Hi5 Hfr Ho5 R5.
  assert (Hread : reads_on s5 (at_transport_fde k) a0).
  { eexists. rewrite Ho5, decide_True by done. split; [done|]. by split. }
  assert (Hend : forall w, threads_started w -> Q tt (put w s5)).
  { intros w Hw. eapply (HQ _ _ a0 a1); [by apply fd_inv_world|exact Hpair|exact Hw| |done].
    change (rest (put w s5)) with (rest s5). unfold id in *. by rewrite R5, R4. }
  wp_step. sys; [|by apply HX]. intros [[]|e] w6 S6; [|by apply HX].
  wp_step. sys; [|by apply HX]. intros [[]|e] w7 S7; [|by apply HX]. apply wp_ret.
  apply (Hend w7). eexists. rewrite (steps_hist _ _ _ S7). simpl. rewrite (steps_hist _ _ _ S6). by rewrite <- app_assoc.
Qed.

(** The two lists of transports: [pend] waiting, [ts] in use. *)
Record lists (h : gmap N atransport) (pend ts : list ptr) : Prop := {
  ls_pending : dll h pending_list pend;
  ls_list : dll h transport_list ts;
  ls_disjoint : (pending_list :: pend) ## (transport_list :: ts);
}.

Lemma lists_ext h h' pend ts :
  lists h pend ts ->
  (forall r, next <$> h' !! r = next <$> h !! r) -> (forall r, prev <$> h' !! r = prev <$> h !! r) ->
  lists h' pend ts.
Proof. intros [H1 H2 H3] Hn Hp. split; [by eapply dll_ext|by eapply dll_ext|done]. Qed.

(** Moving a transport from one list to the other. *)
Lemma wp_move {A} t xs ys zs (k : F A) Q X s :
  lists (transports (rest s)) (xs ++ t :: ys) zs ->
  (forall h', lists h' (xs ++ ys) (zs ++ [t]) -> same_payload (transports (rest s)) h' ->
     wp k Q X (put (set_transports h' (rest s)) s)) ->
  wp (zoom (list_remove (T := atransport) t);; zoom (link_before' (T := atransport) t transport_list);; k) Q X s.
Proof.
  intros [Hp Hl Hd] HQ. wp_step. apply wp_zoom. eapply wp_list_remove; [exact Hp|]. intros h1 Hp1 S1 Ht1 F1.
  assert (Hst : is_Some (transports (rest s) !! t)) by (eapply dll_is_Some; [exact Hp|set_solver]).
  destruct (dll_links _ _ _ _ _ Hp) as (_ & _ & _ & _ & Htp & Hnin).
  assert (Hl1 : dll h1 transport_list zs).
  { eapply dll_frame; [exact Hl|]. intros r Hr. apply F1. set_solver. }
  wp_step. apply wp_zoom.
  eapply wp_link_before'; [exact Hl1|set_solver|by eapply same_payload_is_Some|]. intros h2 Hl2 S2 F2.
  apply HQ; [|by etrans]. split; [|exact Hl2|].
  - eapply dll_frame; [exact Hp1|]. intros r Hr. apply F2. set_solver.
  - set_solver.
Qed.

(** How a registered transport is left: [ends] are the two ends of its socket
    pair, if it has one. *)
Record registered_as (t : ptr) (k : atransport) (xs ys zs : list ptr) (st st' : fdstate) (ends : option (Z * Z)) : Prop := {
  ra_lists : lists (transports (rest st')) (xs ++ ys) (zs ++ [t]);
  ra_payload : same_payload
    (<[t := match ends with Some (s0, s1) => started s0 s1 k | None => k end]> (transports (rest st))) (transports (rest st'));
  ra_callbacks : dll (disconnects (rest st')) (at_disconnects k) [];
  ra_rest : rest st' = set_transport_lock false (set_disconnects (disconnects (rest st')) (set_transports (transports (rest st')) (rest st)));
  ra_threads : match ends with
    | Some (s0, s1) => w_env (fd_world st) (w_hist (fd_world st)) Socketpair = Ok (s0, s1) /\
        threads_started (fd_world st') /\ reads_on st' (at_transport_fde k) s0
    | None => fd_world st' = fd_world st /\ fde_heap st' = fde_heap st
    end;
}.

(** The part of [registration_add] after the threads. *)
Lemma wp_registration_tail t k0 k xs ys zs ends pend (st s1 : fdstate) (X : stop -> fdstate -> Prop) :
  fd_inv s1 pend -> at_disconnects k = at_disconnects k0 -> lists (transports (rest st)) (xs ++ t :: ys) zs ->
  transports (rest st) !! t = Some k0 -> next k = next k0 -> prev k = prev k0 ->
  rest s1 = set_transports (<[t := k]> (transports (rest st))) (rest st) ->
  transport_lock (rest st) = false -> is_Some (disconnects (rest st) !! at_disconnects k0) ->
  k = match ends with Some (s0, s1) => started s0 s1 k0 | None => k0 end ->
  match ends with
  | Some (e0, e1) => w_env (fd_world st) (w_hist (fd_world st)) Socketpair = Ok (e0, e1) /\
      threads_started (fd_world s1) /\ reads_on s1 (at_transport_fde k0) e0
  | None => fd_world s1 = fd_world st /\ fde_heap s1 = fde_heap st
  end ->
  wp (lock_transports;;
      zoom (list_remove (T := atransport) t);;
      zoom (link_before' (T := atransport) t transport_list);;
      unlock_transports;;
      k' ← get (T := atransport) t;
      zoom (list_init (T := adisconnect) (at_disconnects k'));;
      mret tt)
    (fun _ st' => registered_as t k0 xs ys zs st st' ends /\ fd_inv st' pend) X s1.
Proof.
  intros Hi Ed Hls Ht En Ep R1 Hlk Hdc Ek Hends. unfold lock_transports. wp_step. wp_step. apply wp_global.
  rewrite R1. cbn [set_transports transport_lock]. rewrite Hlk. apply wp_update. set (s2 := put _ s1).
  assert (T2 : transports (rest s2) = <[t := k]> (transports (rest st))) by (by unfold s2; simpl; rewrite R1).
  assert (Hls2 : lists (transports (rest s2)) (xs ++ t :: ys) zs).
  { rewrite T2. eapply lists_ext; [exact Hls|..]; intros r; (destruct (decide (r = t)) as [->|];
      [rewrite lookup_insert_eq, Ht; first [exact (f_equal Some En)|exact (f_equal Some Ep)]|by rewrite lookup_insert_ne]). }
  eapply wp_move; [exact Hls2|]. intros h3 Hls3 S3. rewrite T2 in S3. set (s3 := put _ s2).
  unfold unlock_transports. wp_step. apply wp_update. set (s4 := put _ s3). wp_step.
  destruct (same_payload_lookup _ _ t _ S3 (lookup_insert_eq _ _ _)) as (k4 & Hk4 & Ek4).
  eapply wp_get; [exact Hk4|]. assert (Ed4 : at_disconnects k4 = at_disconnects k0).
  { rewrite <- Ed. by apply (f_equal at_disconnects) in Ek4. }
  rewrite Ed4. wp_step. apply wp_zoom. apply wp_list_init.
  { change (is_Some (disconnects (rest s1) !! at_disconnects k0)). by rewrite R1. }
  intros d5 Hd5 _. apply wp_ret. split.
  - split; [exact Hls3|rewrite <- Ek; exact S3|exact Hd5| |].
    + unfold s4, s3, s2. simpl. rewrite R1. by destruct (rest st).
    + exact Hends.
  - apply fd_inv_rest. unfold s4, s3, s2. by repeat apply fd_inv_rest.
Qed.

(** [update_transports] is what [registration_add] does last. *)
Lemma registration_add_update update_transports t st :
  registration_add 4 update_transports t st = (registration_add 4 (mret tt) t;; update_transports) st.
Proof.
  unfold registration_add, mbind, M_bind.
  repeat match goal with |- match ?x with _ => _ end = _ => destruct x as [[?|?] ?]; [|done] end. done.
Qed.

(** C15: Registering a transport takes it off the list of those that wait, puts it
    at the end of the list of those in use, empties its list of callbacks and then
    tells the trackers ([update_transports], any function).  A transport that may
    be used also gets a new socket pair, a reference for each of its two threads,
    its event object waiting for packets of the thread on one end, and the two
    threads, started last; one without permission (CS_NOPERM) gets none of these
    and no call is made.  No other transport and nothing else in the shared data
    changes.  Before [update_transports] it stops only by an abort of the code or
    to wait for the operating system.  The platform has 4-byte pointers and the
    pair the system makes is new and fits an [fd_set]. *)
Theorem registration_add_starts (update_transports : F unit) (t : ptr) (k : atransport) (f0 : fdevent)
    (xs ys zs pend : list ptr) (st : fdstate) :
  fd_inv st pend -> posix_state st -> pair_new st ->
  transports (rest st) !! t = Some k -> lists (transports (rest st)) (xs ++ t :: ys) zs ->
  transport_lock (rest st) = false -> is_Some (disconnects (rest st) !! at_disconnects k) ->
  fde_heap st !! at_transport_fde k = Some f0 -> active f0 = false ->
  at_transport_fde k <> NULL -> at_transport_fde k <> list_pending ->
  (exists st' ends pend', registration_add 4 update_transports t st = update_transports st' /\
     registered_as t k xs ys zs st st' ends /\ fd_inv st' pend' /\ (ends = None <-> at_connection_state k = CS_NOPERM)) \/
  (exists e st', registration_add 4 update_transports t st = (Stop e, st') /\ safe_stop e).
Proof.
  intros Hi Hp Hfr Ht Hls Hlk Hdc Hf Hina Hn Hnl.
  assert (W : wp (registration_add 4 (mret tt) t)
    (fun _ st' => exists ends pend', registered_as t k xs ys zs st st' ends /\ fd_inv st' pend' /\
       (ends = None <-> at_connection_state k = CS_NOPERM)) (fun e _ => safe_stop e) st).
  { unfold registration_add. wp_step. eapply wp_get; [exact Ht|].
    destruct (Z.eqb_spec (at_connection_state k) CS_NOPERM) as [Est|Est]; cbn [negb]; wp_step.
    - wp_step. eapply wp_mono; [apply (wp_registration_tail t k k xs ys zs None pend st st (fun _ _ => False)); try done| |done].
      + rewrite insert_id by done. by destruct (rest st).
      + intros _ st' [Hra Hi']. by exists None, pend.
    - eapply wp_start_threads; [exact Hi|done|done|exact Ht|exact Hf|done..| |done].
      intros s1 pend1 a0 a1 Hi1 Hpair Hth R1 Hrd.
      eapply wp_mono; [apply (wp_registration_tail t k (started a0 a1 k) xs ys zs (Some (a0, a1)) pend1 st s1 (fun _ _ => False)); done| |done].
      intros _ st' [Hra Hi']. by exists (Some (a0, a1)), pend1. }
  rewrite registration_add_update. destruct (wp_outcome _ _ _ _ W) as [(a & st' & E & ends & pend' & H1 & H2 & H3)|(e & st' & E & H)].
  - left. exists st', ends, pend'. by rewrite (bind_done _ _ _ _ _ E).
  - right. exists e, st'. by rewrite (bind_stop _ _ _ _ _ E).
Qed.

(** ** Release *)

Section release.
Context (usb_close usb_kick : ptr -> F unit) (HOST : bool).

Abbreviation unref := (transport_unref 4 usb_close usb_kick HOST).

(** The message that asks the event loop to remove [t]. *)
Definition removal (t : ptr) : bytes := tmsg_bytes 4 {| tm_transport := t; tm_action := 0 |}.

(** A kicked transport is no longer in the host's table of local transports. *)
Definition forgotten (t : ptr) (h : hostside) : hostside :=
  if HOST then
    match slot_of t (local_transports h) with
    | Some i => set_local_transports (<[i := NULL]> (local_transports h)) h
    | None => h
    end
  else h.

(** What giving up the last reference does to a transport over a socket: the
    state, and the calls it made. *)
Definition released (t : ptr) (k : atransport) (st st' : fdstate) : Prop :=
  let kick := at_kicked k =? 0 in
  let k0 := set_ref_count 0 k in
  let k' := if kick then set_sfd (-1) (set_kicked 1 k0) else k0 in
  let h' := if kick then forgotten t (hosts (rest st)) else hosts (rest st) in
  exists w' before c message,
    st' = put w' (put (set_hosts h' (set_transports (<[t := k']> (transports (rest st))) (rest st))) st) /\
    steps (fd_world st) (before ++ [ev (Close (at_fd k)) c] ++ message) w' /\
    (if kick then exists a b, before = [ev (Shutdown (at_sfd k)) a; ev (Close (at_sfd k)) b] else before = []) /\
    only (writes (transport_registration_send (rest st))) message /\
    written_to (transport_registration_send (rest st)) message = removal t.

Lemma wp_kick_local t k Q (X : stop -> fdstate -> Prop) s :
  transports (rest s) !! t = Some k -> at_remote k = Some local_remote ->
  local_transports_lock (hosts (rest s)) = false ->
  (forall w' a b, steps (fd_world s) [ev (Shutdown (at_sfd k)) a; ev (Close (at_sfd k)) b] w' ->
     Q tt (put w' (put (set_hosts (forgotten t (hosts (rest s)))
                          (set_transports (<[t := set_sfd (-1) k]> (transports (rest s))) (rest s))) s))) ->
  (forall s', X Blocked s') -> wp (kick usb_kick HOST t) Q X s.
Proof.
  intros Ht Hr Hlt HQ HX. unfold kick. wp_step. eapply wp_get; [exact Ht|]. rewrite Hr. unfold local_remote_kick.
  wp_step. eapply wp_get; [exact Ht|]. wp_step. eapply wp_set; [exact Ht|]. wp_step.
  unfold adb_shutdown. sys; [|done]. intros a w1 S1. wp_step. unfold adb_close. sys; [|done]. intros b w2 S2.
  assert (HQ' : forall h', h' = forgotten t (hosts (rest s)) ->
    Q tt (put w2 (put (set_hosts h' (set_transports (<[t := set_sfd (-1) k]> (transports (rest s))) (rest s))) s))).
  { intros h' ->. exact (HQ w2 a b (steps_trans _ _ _ _ _ S1 S2)). }
  unfold forgotten in HQ'. destruct HOST; cbn [negb].
  - unfold lock_local_transports, set_slot, unlock_local_transports. wp_step. wp_step. apply wp_global.
    cbn. rewrite Hlt. apply wp_update. wp_step. apply wp_global. wp_step. cbn.
    destruct (slot_of t (local_transports (hosts (rest s)))); [apply wp_update|apply wp_ret]; apply wp_update; apply HQ';
      destruct (hosts (rest s)); simpl in *; by subst.
  - apply wp_ret. specialize (HQ' (hosts (rest s)) eq_refl). destruct s as [? ? ? ? ? ? ? ? ? []]. exact HQ'.
Qed.

Lemma wp_close_local t k Q (X : stop -> fdstate -> Prop) s :
  transports (rest s) !! t = Some k -> at_remote k = Some local_remote ->
  (forall w' c, steps (fd_world s) [ev (Close (at_fd k)) c] w' -> Q tt (put w' s)) ->
  (forall s', X Blocked s') -> wp (close usb_close t) Q X s.
Proof.
  intros Ht Hr HQ HX. unfold close. wp_step. eapply wp_get; [exact Ht|]. rewrite Hr. unfold local_remote_close.
  wp_step. eapply wp_get; [exact Ht|]. wp_step. unfold adb_close. sys; [|done]. intros b w2 S2. apply wp_ret.
  by apply (HQ w2 _ S2).
Qed.

Lemma wp_remove_message t Q (X : stop -> fdstate -> Prop) s :
  posix_state s ->
  (forall w' new, steps (fd_world s) new w' -> only (writes (transport_registration_send (rest s))) new ->
     written_to (transport_registration_send (rest s)) new = removal t -> Q tt (put w' s)) ->
  (forall e s', safe_stop e -> X e s') -> wp (remove_transport 4 t) Q X s.
Proof.
  intros Hp HQ HX. unfold remove_transport. wp_step. apply wp_global. wp_step.
  eapply ospec_os; [apply ospec_write_packet|done| |].
  - intros r new w' S [Ho Hw]. destruct (Z.eqb_spec r 0) as [->|Hr]; cbn [negb]; [|by apply HX]. apply wp_ret.
    apply (HQ w' new S); [done|by apply Hw].
  - intros x new w' [-> _]. by apply HX.
Qed.

(** The end of the release: the transport is closed, the event loop told, the
    lock given back. *)
Lemma wp_release_end t k k' h' w before st :
  posix_state st -> transport_lock (rest st) = false -> at_remote k' = Some local_remote -> at_fd k' = at_fd k ->
  k' = (if at_kicked k =? 0 then set_sfd (-1) (set_kicked 1 (set_ref_count 0 k)) else set_ref_count 0 k) ->
  h' = (if at_kicked k =? 0 then forgotten t (hosts (rest st)) else hosts (rest st)) ->
  steps (fd_world st) before w ->
  (if at_kicked k =? 0 then exists a b, before = [ev (Shutdown (at_sfd k)) a; ev (Close (at_sfd k)) b] else before = []) ->
  wp (close usb_close t;; remove_transport 4 t)
    (fun _ s => wp unlock_transports (fun _ => released t k st) (fun e _ => safe_stop e) s) (fun e _ => safe_stop e)
    (put w (put (set_transport_lock true (set_hosts h' (set_transports (<[t := k']> (transports (rest st))) (rest st)))) st)).
Proof.
  intros Hp Hlk Hr Hfd Ek Eh S Hb. wp_step. eapply wp_close_local; [apply lookup_insert_eq|exact Hr| |done].
  intros w4 c S4. rewrite Hfd in S4. eapply wp_remove_message; [|intros w5 new5 S5 O5 W5|done].
  { change (posix (w_env w4)). rewrite (steps_env _ _ _ S4). change (posix (w_env w)). by rewrite (steps_env _ _ _ S). }
  unfold unlock_transports. apply wp_update. exists w5, before, c, new5. cbv zeta. rewrite <- Ek, <- Eh.
  split_and!; [|exact (steps_trans _ _ _ _ _ S (steps_trans _ _ _ _ _ S4 S5))|done|exact O5|exact W5].
  destruct st as [? ? ? ? ? ? ? ? ? g]. destruct g. simpl in Hlk. by subst.
Qed.

(** C16: Giving up a reference to a transport.  While others are left the count
    goes down by one and nothing else happens, whatever the transport runs over:
    no call, and no other field, transport or global changes.  The last reference
    to a transport over a socket kicks it if that has not been done (it marks it,
    shuts the connection down, closes it, and on the host takes the transport out of the table of local
    ones), then closes the thread's end of the socket pair and asks the event loop,
    once, to remove the transport; these are all its calls and changes.  It stops
    only by the abort of the code for a message that cannot be written or to wait
    for the operating system. *)
Theorem transport_unref_last (t : ptr) (k : atransport) (st : fdstate) :
  posix_state st -> t <> NULL -> transports (rest st) !! t = Some k -> transport_lock (rest st) = false ->
  (at_ref_count k <> 1 ->
     unref t st = (Done tt, put (set_transports (<[t := set_ref_count (at_ref_count k - 1) k]> (transports (rest st))) (rest st)) st)) /\
  (at_ref_count k = 1 -> at_remote k = Some local_remote -> local_transports_lock (hosts (rest st)) = false ->
     match unref t st with
     | (Done _, st') => released t k st st'
     | (Stop e, _) => safe_stop e
     end).
Proof.
  intros Hp Hn Ht Hlk. split.
  { intros Hc. unfold transport_unref. rewrite bool_decide_false by done.
    unfold lock_transports, transport_unref_locked, unlock_transports, set, get, must, mbind, M_bind. simpl.
    rewrite Hlk. simpl. rewrite Ht. simpl. rewrite lookup_insert_eq. simpl. rewrite (proj2 (Z.eqb_neq _ 0)) by lia.
    destruct st as [? ? ? ? ? ? ? ? ? g]. destruct g. simpl in *. by subst. }
  intros Hc Hr Hlt. change (wp (unref t) (fun _ => released t k st) (fun e _ => safe_stop e) st).
  unfold transport_unref. rewrite bool_decide_false by done. unfold lock_transports. wp_step. wp_step. apply wp_global.
  rewrite Hlk. apply wp_update. set (s1 := put _ st). wp_step. unfold transport_unref_locked. wp_step.
  eapply (wp_set t _ k); [exact Ht|]. rewrite Hc. change (1 - 1) with 0. set (k1 := set_ref_count 0 k). set (s2 := put _ s1).
  wp_step. eapply (wp_get t k1); [apply lookup_insert_eq|].
  change (at_ref_count k1) with 0. change (0 =? 0) with true. cbv iota.
  wp_step. change (at_kicked k1) with (at_kicked k). destruct (Z.eqb_spec (at_kicked k) 0) as [Ek|Ek].
  - wp_step. eapply (wp_set t _ k1); [apply lookup_insert_eq|]. eapply wp_kick_local; [apply lookup_insert_eq|exact Hr|exact Hlt| |done].
    intros w3 a b S3. pose proof (wp_release_end t k (set_sfd (-1) (set_kicked 1 k1)) (forgotten t (hosts (rest st))) w3
      [ev (Shutdown (at_sfd k)) a; ev (Close (at_sfd k)) b] st Hp Hlk Hr eq_refl) as W.
    rewrite (proj2 (Z.eqb_eq _ _) Ek) in W. specialize (W eq_refl eq_refl S3 ltac:(eauto)).
    unfold s2, s1 in *. simpl in *. rewrite !insert_insert_eq. destruct st as [? ? ? ? ? ? ? ? ? g]. destruct g. exact W.
  - apply wp_ret. pose proof (wp_release_end t k k1 (hosts (rest st)) (fd_world st) [] st Hp Hlk Hr eq_refl) as W.
    rewrite (proj2 (Z.eqb_neq _ _) Ek) in W. specialize (W eq_refl eq_refl (steps_refl _) eq_refl).
    unfold s2, s1 in *. destruct st as [? ? ? ? ? ? ? ? ? g]. destruct g. exact W.
Qed.
End release.

(** ** Witnesses *)

(** A phone in use and a tablet that waits to be registered. *)
Definition phone : atransport :=
  set_next transport_list (set_prev transport_list (set_names (Some (str "PHONE")) None
    (set_embedded 7%N 8%N 6%N (set_ends 9 10 (set_ref_count 1
      (set_remote local_remote 11 NULL CS_DEVICE kTransportLocal no_atransport)))))).

Definition tablet : atransport :=
  set_next pending_list (set_prev pending_list (set_names (Some (str "TABLET")) None
    (set_embedded 17%N 18%N 16%N (set_remote local_remote 12 NULL CS_OFFLINE kTransportLocal no_atransport)))).

Definition desk_head (t : ptr) : atransport := set_next t (set_prev t no_atransport).

Definition desk_callbacks (p : ptr) : adisconnect :=
  {| ad_func := usb_disconnected_fn; ad_opaque := NULL; ad_next := p; ad_prev := p |}.

Definition desk_globals : globals :=
  set_transport_registration_send 20
    (set_transports {[transport_list := desk_head 5%N; pending_list := desk_head 15%N;
                      5%N := phone; 15%N := tablet]}
      (set_disconnects {[6%N := desk_callbacks 6%N; 16%N := desk_callbacks 16%N]} globals_boot)).

(** Socket pairs are 30 and 31, everything else succeeds. *)
Definition desk_env : env := fun h c =>
  match c return ans c with
  | Socketpair => Ok (30, 31)
  | c => ok_default c
  end.

Lemma desk_env_posix : posix desk_env.
Proof. intros h c. destruct c; try apply ok_default_answer. simpl. lia. Qed.

Definition desk_boot : fdstate := fd_boot desk_env 100.

Definition with_fde (p : ptr) (s : fdstate) : fdstate := put (<[p := blank]> (fde_heap s)) s.

Definition desk : fdstate := put desk_globals (foldr with_fde desk_boot [7; 8; 17; 18]%N).

Lemma desk_inv : fd_inv desk [].
Proof. apply fd_inv_rest. repeat (apply fd_inv_alloc; [|reflexivity]). apply fd_boot_inv. Qed.

Lemma desk_listed : listed desk transport_list [(5%N, phone)].
Proof.
  split_and!; [|by repeat constructor|by apply not_elem_of_cons; split; [|apply not_elem_of_nil]].
  split; [|vm_compute; tauto]. by apply (bool_decide_unpack (NoDup [transport_list; 5%N])).
Qed.

Lemma acquire_selects_witness :
  acquire_one_transport CS_ANY kTransportAny (Some (str "PHONE")) desk =
  (Done (selection CS_ANY kTransportAny (Some (str "PHONE")) [(5%N, phone)]), desk).
Proof.
  exact (acquire_selects CS_ANY kTransportAny (Some (str "PHONE")) [(5%N, phone)] desk desk_listed eq_refl).
Defined.

Lemma list_transports_text_witness :
  exists shown hidden, [(5%N, phone)] = shown ++ hidden /\
    list_transports 4096 false desk = (Done (shown ≫= device_line), desk) /\
    Z.of_nat (length (shown ≫= device_line)) < 4096 /\
    match hidden with
    | [] => True
    | tk :: _ => 4096 <= Z.of_nat (length ((shown ++ [tk]) ≫= device_line))
    end.
Proof. exact (list_transports_text 4096 [(5%N, phone)] desk desk_listed eq_refl eq_refl). Defined.

Lemma desk_pair : pair_new desk.
Proof.
  unfold pair_new. simpl. split; [by vm_compute|]. intros (p & f & (f0 & H & <-)%obj_inv & Ha & _).
  simpl in H. repeat (apply lookup_insert_Some in H as [[_ <-]|[_ H]]; [done|]).
  apply lookup_singleton_Some in H as [_ <-]. done.
Qed.

Lemma desk_lists : lists (transports (rest desk)) [15%N] [5%N].
Proof.
  split; [split; [by apply (bool_decide_unpack (NoDup [pending_list; 15%N]))|vm_compute; tauto]|apply desk_listed|].
  intros x. rewrite !elem_of_cons, !elem_of_nil. intros [->|[->|[]]] [H|[H|[]]]; discriminate H.
Qed.

Lemma registration_add_starts_witness :
  (exists st' ends pend', registration_add 4 skip 15%N desk = skip st' /\
     registered_as 15%N tablet [] [] [5%N] desk st' ends /\ fd_inv st' pend' /\
     (ends = None <-> at_connection_state tablet = CS_NOPERM)) \/
  (exists e st', registration_add 4 skip 15%N desk = (Stop e, st') /\ safe_stop e).
Proof.
  apply (registration_add_starts skip 15%N tablet blank [] [] [5%N] [] desk desk_inv desk_env_posix desk_pair);
    try reflexivity; try discriminate.
  - exact desk_lists.
  - eexists. reflexivity.
Defined.

Lemma transport_unref_last_witness :
  match transport_unref 4 (fun _ => mret tt) (fun _ => mret tt) true 5%N desk with
  | (Done _, st') => released true 5%N phone desk st'
  | (Stop e, _) => safe_stop e
  end.
Proof.
  apply (transport_unref_last (fun _ => mret tt) (fun _ => mret tt) true 5%N phone desk desk_env_posix);
    try reflexivity; discriminate.
Defined.

Definition tablet_added : bytes := tmsg_bytes 4 {| tm_transport := 15%N; tm_action := 1 |}.

Lemma transport_action_roundtrip_witness :
  (transport_read_action 4 21 (boot (stream_env (fun _ => tablet_added)) 5)).1 =
  Done (Some {| tm_transport := 15%N; tm_action := 1 |}).
Proof.
  destruct (transport_read_action 4 21 (boot (stream_env (fun _ => tablet_added)) 5)) as [[r|e] w2'] eqn:E;
    [|vm_compute in E; discriminate E].
  cbn [fst]. f_equal. eapply (transport_action_roundtrip 4 20 21 {| tm_transport := 15%N; tm_action := 1 |}
    (boot desk_env 5) _ (boot (stream_env (fun _ => tablet_added)) 5) w2' r).
  - exact desk_env_posix.
  - apply stream_env_posix. intros _. apply (bool_decide_unpack (Forall is_byte tablet_added)). vm_compute. reflexivity.
  - lia.
  - split; vm_compute; [reflexivity|]. by split.
  - vm_compute. reflexivity.
  - exact E.
  - vm_compute in E. injection E as <- <-. vm_compute. reflexivity.
Defined.

(** ** Concrete runs *)

Definition quietly (_ : ptr) : F unit := mret tt.

Definition removed (t : ptr) : F unit := registration_remove (calls 4) (mret tt) t.

(** A transport over a socket is released and removed: descriptor 10, its end
    of the socket pair, is closed by [remote_close] and again by the event
    loop. *)
Theorem transport_fd_closed_twice :
  let '(o, st) := (transport_unref 4 quietly quietly true 5%N;; removed 5%N) desk in
  o = Done tt /\ closed_fds (w_hist (fd_world st)) = [11; 10; 10].
Proof. vm_compute. split; reflexivity. Qed.

(** [unregister_transport] takes a transport out of the list at once, and the
    event loop takes it out again when its threads have ended, through the
    neighbours it had then: if the next transport has been freed in between,
    this writes to freed memory. *)
Theorem unregister_unlinks_twice :
  let '(o, st) :=
    (registration_add 4 (mret tt) 15%N;;
     unregister_transport 4 quietly quietly true 5%N;;
     removed 15%N;;
     removed 5%N) desk in
  o = Stop (Undef "dangling pointer") /\ base.dom (transports (rest st)) = {[transport_list; pending_list; 5%N]}.
Proof. vm_compute. split; reflexivity. Qed.

(** A second connection with the serial number of the phone is refused, and
    the descriptor it came on is not closed. *)
Theorem duplicate_serial_leaks :
  let '(o, st) := register_socket_transport 4 (fun _ => []) false 33 (Some (str "PHONE")) 5555 true desk in
  o = Done (-1) /\ closed_fds (w_hist (fd_world st)) = [].
Proof. vm_compute. split; reflexivity. Qed.

(** The long list of devices writes after its buffer when the names of a
    device are longer than what is left of it. *)
Theorem long_listing_overruns :
  (list_transports 24 true desk).1 = Stop (Undef "snprintf after the buffer").
Proof. vm_compute. reflexivity. Qed.
