(* ===== verification/HostSpec.v ===== *)
(** * Correctness of the server's side: requests, forwarding, trackers

    The framing of requests on a smart socket, their parsing, the list of
    forwarded ports, and the choice of a device by a client. *)

From S2P Require Import Prelude Effects DList Os Sysdeps Wire Globals Fdevent Transport FdeventFacts FdeventLoop FdeventReg FdeventSpec Sockets Registry Smart Host Jdwp Auth Protocol Frame SocketsSpec RegistrySpec.

(** ** Framing *)

(** A packet whose payload is [bs]. *)
Definition whole (p : pkt) (bs : bytes) : Prop :=
  p_len p = Z.of_nat (length bs) /\ data (p_body p) = bs.

(** The state in which the smart socket holds the packet [q], and the packets
    [L] are allocated. *)
Definition holding (s : ptr) (k : asocket) (q : pkt) (L : gset Z) (st : fdstate) : fdstate :=
  put (set_live L (set_sockets (<[s := set_pkts [q] k]> (sockets (rest st))) (rest st))) st.

Lemma packet_data_whole p bs st : whole p bs -> packet_data p st = (Done bs, st).
Proof.
  intros [Hl Hd]. unfold packet_data, packet_bytes. cbn. rewrite Hl, Hd, Nat2Z.id, firstn_all.
  by rewrite Z.eqb_refl.
Qed.

Lemma gather_first s k p st :
  sockets (rest st) !! s = Some k -> sk_pkts k = [] ->
  gather s p st = (Done (Some p), holding s k p (live (rest st)) st).
Proof.
  intros Hs Hk. unfold gather. rewrite (bind_done _ _ _ k st) by (unfold get, must; simpl; by rewrite Hs).
  rewrite Hk. unfold holding. destruct st as [? ? ? ? ? ? ? ? ? []]; simpl in *.
  unfold set, get, must, mbind, M_bind. simpl. by rewrite Hs.
Qed.

(** The packet [q] with the bytes of another one added. *)
Definition extended (q : pkt) (bs : bytes) : pkt := set_len (Z.of_nat (length bs)) (set_data bs q).

Lemma extended_whole q bs : whole (extended q bs) bs.
Proof. by split. Qed.

Lemma gather_next s k q p acc bs L st :
  whole q acc -> whole p bs -> p_addr p ∈ L -> Z.of_nat (length (acc ++ bs)) <= MAX_PAYLOAD ->
  gather s p (holding s k q L st) =
  (Done (Some (extended q (acc ++ bs))), holding s k (extended q (acc ++ bs)) (L ∖ {[p_addr p]}) st).
Proof.
  intros Hq Hp Hin Hlen. pose proof (proj1 Hq) as Lq. pose proof (proj1 Hp) as Lp.
  assert (E : u32 (p_len q + p_len p) = Z.of_nat (length (acc ++ bs))).
  { rewrite Lq, Lp, <- Nat2Z.inj_add, <- length_app. apply u32_small. unfold MAX_PAYLOAD in Hlen. lia. }
  assert (Hs : sockets (rest (holding s k q L st)) !! s = Some (set_pkts [q] k)) by apply lookup_insert_eq.
  unfold gather. rewrite (bind_done _ _ _ (set_pkts [q] k) (holding s k q L st)).
  2: { unfold get, must. simpl. by rewrite lookup_insert_eq. }
  cbn [sk_pkts set_pkts]. rewrite E. destruct (Z.gtb_spec (Z.of_nat (length (acc ++ bs))) MAX_PAYLOAD); [lia|].
  rewrite (bind_done _ _ _ acc _ (packet_data_whole q acc _ Hq)).
  rewrite (bind_done _ _ _ bs _ (packet_data_whole p bs _ Hp)).
  rewrite (bind_done _ _ _ tt (holding s k (extended q (acc ++ bs)) L st)).
  2: { unfold set, get, must, mbind, M_bind, holding. simpl. rewrite lookup_insert_eq. simpl.
       unfold update, modify. simpl. by rewrite insert_insert_eq. }
  rewrite (bind_done _ _ _ tt (holding s k (extended q (acc ++ bs)) (L ∖ {[p_addr p]}) st)); [done|].
  unfold put_apacket, release, mbind, M_bind, global, gets. simpl. by rewrite bool_decide_true.
Qed.

(** *** Requests *)

(** A request as a client sends it. *)
Definition framed (service : bytes) : bytes := fmt_04x (Z.of_nat (length service)) ++ service.

Definition sendable (service : bytes) : Prop := (1 <= length service <= 1024)%nat.

Lemma unhex_sizes : forallb (fun n => let h := fmt_04x (Z.of_nat n) in
  bool_decide (length h = 4%nat) && (unhex h 4 =? Z.of_nat n)) (seq 0 1025) = true.
Proof. vm_compute. reflexivity. Qed.

Lemma unhex_fmt n : (n <= 1024)%nat -> length (fmt_04x (Z.of_nat n)) = 4%nat /\ unhex (fmt_04x (Z.of_nat n)) 4 = Z.of_nat n.
Proof.
  intros Hn. assert (Hin : In n (seq 0 1025)) by (apply in_seq; lia).
  pose proof (proj1 (forallb_forall _ _) unhex_sizes n Hin) as H. cbv beta zeta in H.
  by apply andb_prop in H as [H1%bool_decide_eq_true H2%Z.eqb_eq].
Qed.

(** A part of a request is incomplete, the whole of it is not. *)
Lemma decode_prefix service a b :
  sendable service -> framed service = a ++ b -> b <> [] -> decode (Z.of_nat (length a)) a = Incomplete.
Proof.
  intros [H1 H2] E Hb. destruct (unhex_fmt (length service) H2) as [Hl Hu]. unfold decode.
  destruct (Z.ltb_spec (Z.of_nat (length a)) 4) as [|Ha]; [done|].
  assert (Eu : unhex a 4 = Z.of_nat (length service)).
  { rewrite <- Hu. unfold unhex. f_equal. unfold framed in E.
    rewrite <- (take_app_le a b 4), <- E, take_app_le by lia. done. }
  rewrite Eu. destruct (Z.ltb_spec (Z.of_nat (length service)) 1); [lia|].
  destruct (Z.gtb_spec (Z.of_nat (length service)) 1024); [lia|]. cbn [orb].
  apply (f_equal length) in E. unfold framed in E. rewrite !length_app, Hl in E.
  assert (length b <> 0)%nat by (destruct b; [done|simpl; lia]).
  destruct (Z.gtb_spec (Z.of_nat (length service) + 4) (Z.of_nat (length a))); [done|lia].
Qed.

Lemma decode_framed service : sendable service ->
  decode (Z.of_nat (length (framed service))) (framed service) = Request (length service).
Proof.
  intros [H1 H2]. destruct (unhex_fmt (length service) H2) as [Hl Hu]. unfold decode, framed.
  rewrite length_app, Hl. destruct (Z.ltb_spec (Z.of_nat (4 + length service)) 4); [lia|].
  assert (E : unhex (fmt_04x (Z.of_nat (length service)) ++ service) 4 = Z.of_nat (length service)).
  { etransitivity; [|exact Hu]. unfold unhex. f_equal. by rewrite take_app_le by lia. }
  rewrite E. destruct (Z.ltb_spec (Z.of_nat (length service)) 1); [lia|].
  destruct (Z.gtb_spec (Z.of_nat (length service)) 1024); [lia|]. cbn [orb].
  destruct (Z.gtb_spec (Z.of_nat (length service) + 4) (Z.of_nat (4 + length service))); [lia|]. by rewrite Nat2Z.id.
Qed.

Lemma cstr_terminated bs : cstr (bs ++ [0]) = cstr bs.
Proof. induction bs as [|b bs IH]; [done|]. cbn [app cstr]. by rewrite IH. Qed.

Section framing.
Context (sizeof_ptr : Z) (call : methods) (adb_host : option host_functions).

Abbreviation enqueue := (smart_socket_enqueue sizeof_ptr call adb_host).

Abbreviation serve := (serve_request sizeof_ptr call adb_host).

Lemma enqueue_incomplete s k p q d L st st0 :
  gather s p st0 = (Done (Some q), holding s k q L st) -> whole q d ->
  decode (Z.of_nat (length d)) d = Incomplete -> enqueue s p st0 = (Done 0, holding s k q L st).
Proof.
  intros Hg Hq Hd. unfold smart_socket_enqueue. rewrite (bind_done _ _ _ _ _ Hg).
  rewrite (bind_done _ _ _ _ _ (packet_data_whole q d _ Hq)). by rewrite (proj1 Hq), Hd.
Qed.

(** The packet that holds a complete request, terminated. *)
Definition complete (q : pkt) (service : bytes) : pkt := set_data (framed service ++ [0]) q.

Lemma enqueue_complete s k p q service L st st0 :
  sendable service -> gather s p st0 = (Done (Some q), holding s k q L st) -> whole q (framed service) ->
  enqueue s p st0 = serve s (complete q service) (cstr service) (holding s k (complete q service) L st).
Proof.
  intros Hs Hg Hq. unfold smart_socket_enqueue. rewrite (bind_done _ _ _ _ _ Hg).
  rewrite (bind_done _ _ _ _ _ (packet_data_whole q _ _ Hq)). rewrite (proj1 Hq), (decode_framed _ Hs).
  destruct (unhex_fmt (length service)) as [Hl _]; [apply Hs|].
  assert (Et : terminate (length service) (framed service) = framed service ++ [0]).
  { unfold terminate. assert (E : length (framed service) = (length service + 4)%nat).
    { unfold framed. rewrite length_app, Hl. lia. }
    rewrite <- E, firstn_all, drop_ge by lia. done. }
  rewrite (proj2 Hq), Et. fold (complete q service).
  rewrite (bind_done _ _ _ tt (holding s k (complete q service) L st)).
  2: { unfold set, get, must, mbind, M_bind, holding. simpl. rewrite lookup_insert_eq.
       unfold update, modify. simpl. by rewrite insert_insert_eq. }
  f_equal. unfold complete. cbn [set_data set_body p_body data]. unfold framed.
  rewrite <- app_assoc, drop_app_length' by done. apply cstr_terminated.
Qed.

(** The packets of a request one after the other; each has to be taken. *)
Fixpoint feed (s : ptr) (ps : list pkt) : F unit :=
  match ps with
  | [] => skip
  | p :: ps' => r ← enqueue s p; if r =? 0 then feed s ps' else abort "closed"
  end.

Definition addresses (ps : list pkt) : gset Z := list_to_set (p_addr <$> ps).

Lemma feed_rest s k q acc ps pieces p piece service L st :
  sendable service -> Forall2 whole ps pieces -> whole p piece -> piece <> [] -> whole q acc ->
  framed service = acc ++ concat pieces ++ piece ->
  NoDup (p_addr <$> ps ++ [p]) -> addresses (ps ++ [p]) ⊆ L ->
  exists q', p_addr q' = p_addr q /\
  (feed s ps;; enqueue s p) (holding s k q L st) =
  serve s q' (cstr service) (holding s k q' (L ∖ addresses (ps ++ [p])) st).
Proof.
  intros Hs Hps. revert q acc L. induction Hps as [|p1 b1 ps pieces Hp1 Hps IH]; intros q acc L Hp Hne Hq E Hnd HL.
  - cbn [concat app fmap list_fmap] in *. exists (complete (extended q (acc ++ piece)) service). split; [done|].
    cbn [feed]. rewrite (bind_done skip _ _ tt _ eq_refl).
    replace (addresses [p]) with ({[p_addr p]} : gset Z) by (unfold addresses; simpl; set_solver).
    apply (enqueue_complete s k p (extended q (acc ++ piece))); [done| |by rewrite E].
    apply gather_next; [done|done|unfold addresses in HL; simpl in HL; set_solver|].
    rewrite <- E. unfold framed. rewrite length_app, (proj1 (unhex_fmt _ (proj2 Hs))).
    unfold MAX_PAYLOAD. destruct Hs. lia.
  - cbn [concat app] in *. rewrite fmap_cons in Hnd. apply NoDup_cons in Hnd as [Hnin Hnd].
    assert (Ea : addresses (p1 :: ps ++ [p]) = {[p_addr p1]} ∪ addresses (ps ++ [p])) by done.
    rewrite Ea in *. rewrite <- app_assoc in E.
    assert (E' : framed service = (acc ++ b1) ++ concat pieces ++ piece) by (by rewrite <- app_assoc).
    destruct (IH (extended q (acc ++ b1)) (acc ++ b1) (L ∖ {[p_addr p1]})) as (q' & Eq & Hrun);
      [done|done|apply extended_whole|done|done| |].
    { intros x Hx. apply elem_of_difference. split; [set_solver|]. intros ->%elem_of_singleton. apply Hnin.
      unfold addresses in Hx. by rewrite elem_of_list_to_set in Hx. }
    exists q'. split; [done|]. cbn [feed].
    assert (Hle : Z.of_nat (length (acc ++ b1)) <= MAX_PAYLOAD).
    { apply (f_equal length) in E'. rewrite length_app in E'. unfold framed in E'.
      rewrite length_app, (proj1 (unhex_fmt _ (proj2 Hs))) in E'. unfold MAX_PAYLOAD. destruct Hs. lia. }
    assert (Hin : p_addr p1 ∈ L) by set_solver.
    pose proof (enqueue_incomplete s k p1 _ _ _ st _ (gather_next s k q p1 acc b1 L st Hq Hp1 Hin Hle)
      (extended_whole _ _)) as H1.
    assert (Hd : decode (Z.of_nat (length (acc ++ b1))) (acc ++ b1) = Incomplete).
    { eapply (decode_prefix service); [done|exact E'|]. intros [_ ?]%app_eq_nil. done. }
    specialize (H1 Hd). rewrite <- difference_difference_l_L.
    etransitivity; [|exact Hrun]. unfold mbind, M_bind. rewrite H1. done.
Qed.

Lemma addresses_tail a ps : p_addr a ∉ (p_addr <$> ps) -> addresses (a :: ps) ∖ {[p_addr a]} = addresses ps.
Proof.
  intros Hn. assert (p_addr a ∉ addresses ps) by (unfold addresses; by rewrite elem_of_list_to_set).
  change (addresses (a :: ps)) with ({[p_addr a]} ∪ addresses ps). set_solver.
Qed.

(** C7: However a client's request is cut into packets, the smart socket takes
    every packet but the last without an effect besides storing its bytes and
    freeing it, and at the last one serves exactly the request that was sent,
    once: the whole run equals serving that request in the state where the
    bytes are gathered in the first packet. *)
Theorem smart_request_reassembled (s : ptr) (k : asocket) (ps : list pkt) (pieces : list bytes) (p : pkt)
    (piece service : bytes) (st : fdstate) :
  sendable service -> Forall2 whole ps pieces -> whole p piece -> piece <> [] ->
  framed service = concat pieces ++ piece ->
  NoDup (p_addr <$> ps ++ [p]) -> addresses (ps ++ [p]) ⊆ live (rest st) ->
  sockets (rest st) !! s = Some k -> sk_pkts k = [] ->
  exists q, Some (p_addr q) = head (p_addr <$> ps ++ [p]) /\
    (feed s ps;; enqueue s p) st =
    serve s q (cstr service)
      (holding s k q (live (rest st) ∖ (addresses (ps ++ [p]) ∖ {[p_addr q]})) st).
Proof.
  intros Hs Hps Hp Hne E Hnd HL Hsk Hk. destruct Hps as [|p1 b1 ps pieces Hp1 Hps].
  - cbn [concat app] in *. exists (complete p service). split; [done|]. cbn [feed].
    rewrite (bind_done skip _ _ tt _ eq_refl). change (p_addr (complete p service)) with (p_addr p).
    rewrite addresses_tail by (simpl; set_solver). unfold addresses. simpl. rewrite difference_empty_L.
    apply enqueue_complete; [done|by apply gather_first|by rewrite E].
  - cbn [concat app] in *. rewrite fmap_cons in Hnd |- *. apply NoDup_cons in Hnd as [Hnin Hnd].
    rewrite <- app_assoc in E.
    destruct (feed_rest s k p1 b1 ps pieces p piece service (live (rest st)) st) as (q & Eq & Hrun);
      [done..|etrans; [|exact HL]; change (addresses (p1 :: ps ++ [p])) with ({[p_addr p1]} ∪ addresses (ps ++ [p])); set_solver|].
    exists q. split; [by rewrite Eq|]. rewrite Eq, addresses_tail by done. etransitivity; [|exact Hrun].
    assert (Hd : decode (Z.of_nat (length b1)) b1 = Incomplete).
    { eapply (decode_prefix service); [done|exact E|]. intros [_ ?]%app_eq_nil. done. }
    pose proof (enqueue_incomplete s k p1 p1 b1 _ st st (gather_first s k p1 st Hsk Hk) Hp1 Hd) as H1.
    cbn [feed]. unfold mbind, M_bind. rewrite H1. done.
Qed.
End framing.

(** ** Parsing requests *)

Lemma strchr_first c (a b : bytes) : c ∉ a -> strchr c (a ++ c :: b) = Some (length a).
Proof.
  induction a as [|x a IH]; intros Hn; cbn.
  - by rewrite Z.eqb_refl.
  - apply not_elem_of_cons in Hn as [Hx Hn]. destruct (Z.eqb_spec x c); [congruence|]. by rewrite IH.
Qed.

Lemma split_unique c (a b a' b' : bytes) : c ∉ a -> c ∉ a' -> a ++ c :: b = a' ++ c :: b' -> a = a' /\ b = b'.
Proof.
  intros Ha Ha' E. pose proof (strchr_first c a b Ha) as H. rewrite E, (strchr_first c a' b' Ha') in H.
  injection H as H. apply app_inj_1 in E as [-> E]; [|done]. by injection E as ->.
Qed.

(** The words that are not the name of a device: a colon after one of them
    starts a qualifier. *)
Definition qualifiers : list bytes := [str "usb"; str "product"; str "model"; str "device"].

Lemma skip_prefixed_none (h r : bytes) : 58 ∉ h -> h ∉ qualifiers -> skip_prefixed prefixes (h ++ 58 :: r) = None.
Proof.
  intros Hh Hq. assert (Hp : forall w : bytes, 58 ∉ w -> w ∈ qualifiers -> has_prefix (w ++ [58]) (h ++ 58 :: r) = false).
  { intros w Hw Hin. destruct (has_prefix (w ++ [58]) (h ++ 58 :: r)) eqn:E; [|done].
    apply has_prefix_spec in E as [t E]. rewrite <- app_assoc in E. cbn [app] in E.
    apply split_unique in E as [-> _]; [|done|done]. done. }
  unfold prefixes. cbn [skip_prefixed].
  assert (H58 : forall w, w ∈ qualifiers -> 58 ∉ w).
  { intros w Hin. repeat (apply elem_of_cons in Hin as [->|Hin]; [apply (bool_decide_unpack _); vm_compute; reflexivity|]).
    by apply elem_of_nil in Hin. }
  change (str "usb:") with (str "usb" ++ [58]). change (str "product:") with (str "product" ++ [58]).
  change (str "model:") with (str "model" ++ [58]). change (str "device:") with (str "device" ++ [58]).
  rewrite !Hp; [done|..]; try apply H58; unfold qualifiers; set_solver.
Qed.

Lemma span_digits_app ds r : Forall (fun c => is_digit c = true) ds -> span_digits (ds ++ r) = (length ds + span_digits r)%nat.
Proof. induction 1 as [|c ds Hc Hds IH]; [done|]. cbn. by rewrite Hc, IH. Qed.

(** The serial numbers a client may name, and where they end: a plain name, a
    network address, or a qualified name. *)
Inductive names_device : bytes -> bytes -> Prop :=
| plain_name (serial request : bytes) :
    58 ∉ serial -> serial ∉ qualifiers -> (request !! span_digits request <> Some 58 \/ span_digits request = 0%nat) ->
    names_device serial request
| network_name (h port request : bytes) :
    58 ∉ h -> h ∉ qualifiers -> port <> [] -> Forall (fun c => is_digit c = true) port ->
    names_device (h ++ 58 :: port) request
| qualified_name (prefix value request : bytes) :
    prefix ∈ prefixes -> 58 ∉ value -> names_device (prefix ++ value) request.

Lemma skip_host_serial_end serial request :
  names_device serial request -> skip_host_serial (serial ++ 58 :: request) = Some (length serial).
Proof.
  intros H. unfold skip_host_serial. destruct H as [serial request Hs Hq Hr|h port request Hh Hq Hp Hd|prefix value request Hp Hv].
  - rewrite skip_prefixed_none, strchr_first by done.
    assert (Ed : drop (S (length serial)) (serial ++ 58 :: request) = request).
    { change (58 :: request) with ([58] ++ request). rewrite app_assoc. apply drop_app_length'. rewrite length_app. simpl. lia. }
    rewrite Ed. case_bool_decide as E0; [done|]. destruct Hr as [Hr|Hr]; [|done]. rewrite bool_decide_false; [done|].
    rewrite lookup_app_r by lia. replace (S (length serial) + span_digits request - length serial)%nat
      with (S (span_digits request)) by lia. done.
  - rewrite <- app_assoc. cbn [app]. rewrite skip_prefixed_none, strchr_first by done.
    assert (Ed : drop (S (length h)) (h ++ 58 :: port ++ 58 :: request) = port ++ 58 :: request).
    { change (58 :: port ++ 58 :: request) with ([58] ++ port ++ 58 :: request). rewrite app_assoc. apply drop_app_length'. rewrite length_app. simpl. lia. }
    rewrite Ed, (span_digits_app port) by done. change (span_digits (58 :: request)) with 0%nat. rewrite Nat.add_0_r.
    rewrite bool_decide_false by (destruct port; [done|simpl; lia]). rewrite bool_decide_true; [|].
    + f_equal. rewrite length_app. simpl. lia.
    + rewrite lookup_app_r by lia. replace (S (length h) + length port - length h)%nat with (S (length port)) by lia.
      cbn. by apply list_lookup_middle.
  - rewrite <- app_assoc. assert (E : skip_prefixed prefixes (prefix ++ value ++ 58 :: request) =
      Some ((fun i => (length prefix + i)%nat) <$> strchr 58 (drop (length prefix) (prefix ++ value ++ 58 :: request)))).
    { repeat (apply elem_of_cons in Hp as [->|Hp]; [reflexivity|]). by apply elem_of_nil in Hp. }
    rewrite E, drop_app_length, strchr_first by done. cbn. by rewrite length_app.
Qed.

(** A request for a device by its serial number is read back as it was
    written: for a plain name, a network address with its port, or a qualified
    name, the server finds the end of the serial number although it may contain
    the colon that separates it from the request. *)
Theorem host_serial_roundtrip (serial request : bytes) :
  names_device serial request ->
  host_service (str "host-serial:" ++ serial ++ 58 :: request) = Some (request, kTransportAny, Some serial).
Proof.
  intros H. unfold host_service. rewrite has_prefix_app.
  change (drop 12 (str "host-serial:" ++ serial ++ 58 :: request)) with (serial ++ 58 :: request).
  rewrite (skip_host_serial_end _ _ H). rewrite take_app_length.
  change (58 :: request) with ([58] ++ request). rewrite app_assoc, drop_app_length'; [done|].
  rewrite length_app. simpl. lia.
Qed.

Lemma host_serial_roundtrip_witness :
  host_service (str "host-serial:10.0.0.2:5555:get-state") =
  Some (str "get-state", kTransportAny, Some (str "10.0.0.2:5555")).
Proof.
  apply (host_serial_roundtrip (str "10.0.0.2:5555") (str "get-state")).
  apply (network_name (str "10.0.0.2") (str "5555")).
  - apply (bool_decide_unpack _). vm_compute. reflexivity.
  - apply (bool_decide_unpack _). vm_compute. reflexivity.
  - discriminate.
  - repeat constructor.
Defined.

(** ** Forwarded ports *)

(** A request to forward a port is read back as it was written: the local end
    up to the semicolon, the remote end after it, and whether a forwarding that
    exists may be changed. *)
Lemma forward_spec_roundtrip (local remote : bytes) :
  59 ∉ local -> local <> [] -> has_prefix (str "norebind:") local = false ->
  remote <> [] -> head remote <> Some 42 ->
  forward_spec true (local ++ 59 :: remote) = Some (local, remote, false) /\
  forward_spec true (str "norebind:" ++ local ++ 59 :: remote) = Some (local, remote, true).
Proof.
  intros Hl Hne Hp Hr H42.
  assert (Hs : strchr 59 (local ++ 59 :: remote) = Some (length local)) by by apply strchr_first.
  assert (Hd : drop (S (length local)) (local ++ 59 :: remote) = remote).
  { change (59 :: remote) with ([59] ++ remote). rewrite app_assoc. apply drop_app_length'. rewrite length_app. simpl. lia. }
  assert (Hfin : forall b : bool, match take (length local) (local ++ 59 :: remote), remote with
    | [], _ | _, [] => None
    | _, c :: _ => if c =? 42 then None else Some (take (length local) (local ++ 59 :: remote), remote, b)
    end = Some (local, remote, b)).
  { intros b. rewrite take_app_length. destruct local; [done|]. destruct remote as [|c remote]; [done|].
    destruct (Z.eqb_spec c 42) as [->|]; done. }
  split.
  - unfold forward_spec, strip. destruct (has_prefix (str "norebind:") (local ++ 59 :: remote)) eqn:E.
    + exfalso. apply has_prefix_spec in E as [t E].
      assert (H59 : 59 ∉ str "norebind:") by (apply (bool_decide_unpack _); vm_compute; reflexivity).
      apply app_eq_inv in E as [(k & E1 & E2)|(k & E1 & E2)].
      * rewrite E1 in Hp. by rewrite has_prefix_app in Hp.
      * destruct k as [|c k]; [rewrite app_nil_r in E1; subst; rewrite <- (app_nil_r (str _)) in Hp at 2; by rewrite has_prefix_app in Hp|].
        injection E2 as <- _. apply H59. rewrite E1. set_solver.
    + rewrite Hs, Hd. apply Hfin.
  - unfold forward_spec, strip. rewrite has_prefix_app, drop_app_length, Hs, Hd. apply Hfin.
Qed.

(** The listeners in order. *)
Definition listening (st : fdstate) (ls : list (ptr * alistener)) : Prop :=
  dll (listeners (hosts (rest st))) listener_list ls.*1 /\
  Forall (fun '(l, k) => listeners (hosts (rest st)) !! l = Some k) ls /\ NULL ∉ ls.*1.

(** The line of a listener: its device, where it listens and what it reaches. *)
Definition forward_line (st : fdstate) (lk : ptr * alistener) : bytes :=
  if is_special (lk.2) then [] else
  match transports (rest st) !! al_transport (lk.2) with
  | Some t => default [] (at_serial t) ++ [32] ++ al_local_name (lk.2) ++ [32] ++ al_connect_to (lk.2) ++ [10]
  | None => []
  end.

(** Every forwarded port belongs to a device with a serial number. *)
Definition named (st : fdstate) (lk : ptr * alistener) : Prop :=
  is_special (lk.2) = false -> exists t, transports (rest st) !! al_transport (lk.2) = Some t /\ is_Some (at_serial t).

Lemma format_listener_line st l k :
  is_special k = false -> named st (l, k) -> format_listener k st = (Done (forward_line st (l, k)), st).
Proof.
  intros Hs Hn. destruct (Hn Hs) as (t & Ht & sr & Hsr). cbn [snd] in Ht. unfold format_listener, forward_line. cbn [snd].
  rewrite Hs, Ht. rewrite (bind_done _ _ _ t st) by (unfold get, must; simpl; by rewrite Ht). by rewrite Hsr.
Qed.

Lemma format_lines_spec n l ls st (buflen : option Z) r text :
  chain (listeners (hosts (rest st))) listener_list l ls -> Forall (named st) ls -> (length ls <= n)%nat ->
  (buflen = None \/ buflen = Some (Z.of_nat (length (ls ≫= forward_line st)) + 1)) ->
  format_lines n l buflen r text st =
  (Done (r + Z.of_nat (length (ls ≫= forward_line st)),
         match buflen with None => text | Some _ => text ++ (ls ≫= forward_line st) end), st).
Proof.
  revert n l buflen r text. induction ls as [|[x k] ls IH]; intros n l buflen r text Hc Hn Hlen Hb; cbn [chain] in Hc.
  - subst l. change ([] ≫= forward_line st) with (@nil Z). cbn [length]. rewrite Z.add_0_r.
    destruct n; cbn [format_lines]; (rewrite bool_decide_true by done; destruct buflen; rewrite ?app_nil_r; done).
  - destruct Hc as (-> & Hne & _ & Hx & Hc). destruct n as [|n]; [simpl in Hlen; lia|]. cbn [format_lines].
    apply Forall_cons in Hn as [Hk Hn]. rewrite bool_decide_false by done.
    rewrite (bind_done _ _ _ k st) by (unfold get, must; simpl; by rewrite Hx).
    rewrite bind_cons in Hb |- *. destruct (is_special k) eqn:Es.
    + assert (El : forward_line st (x, k) = []) by (unfold forward_line; cbn [snd]; by rewrite Es).
      rewrite El in Hb |- *. cbn [app] in Hb |- *. apply IH; [done|done|simpl in Hlen; lia|done].
    + rewrite (bind_done _ _ _ _ _ (format_listener_line st x k Es Hk)).
      set (line := forward_line st (x, k)) in *. rewrite length_app in Hb |- *.
      destruct Hb as [-> | ->].
      * rewrite IH by (done || auto || simpl in Hlen; lia). do 2 f_equal. f_equal. lia.
      * set (m := length (ls ≫= forward_line st)) in *.
        destruct (Z.ltb_spec (Z.of_nat (length line + m) + 1) (Z.of_nat (length line))); [lia|].
        rewrite take_ge by lia.
        destruct (Z.leb_spec (Z.of_nat (length line + m) + 1 - Z.of_nat (length line)) 0); [lia|].
        rewrite IH; [|done|done|simpl in Hlen; lia|right; f_equal; unfold m; lia].
        rewrite <- app_assoc. do 2 f_equal. f_equal. unfold m. lia.
Qed.

Lemma format_listeners_spec ls st buflen :
  listening st ls -> Forall (named st) ls ->
  (buflen = None \/ buflen = Some (Z.of_nat (length (ls ≫= forward_line st)) + 1)) ->
  format_listeners buflen st =
  (Done (Z.of_nat (length (ls ≫= forward_line st)),
         match buflen with None => [] | Some _ => ls ≫= forward_line st end), st).
Proof.
  intros (Hd & Hf & Hn) Hnm Hb. unfold format_listeners.
  pose proof (dll_length _ _ _ Hd) as Hl. rewrite length_fmap in Hl.
  destruct (dll_is_Some _ _ _ listener_list Hd) as [kh Hh]; [left|].
  pose proof (dll_next _ _ _ Hd) as Hnx. unfold next_is in Hnx. rewrite Hh in Hnx. injection Hnx as Hnx.
  rewrite (bind_done _ _ _ (List.hd listener_list (ls.*1)) st).
  2: { unfold zoom, load_next, load, must, mbind, M_bind. simpl. rewrite Hh. simpl. rewrite Hnx. f_equal.
       destruct st as [? ? ? ? ? ? ? ? ? []]; simpl. by destruct hosts. }
  rewrite (bind_done _ _ _ (size (listeners (hosts (rest st)))) st) by done.
  rewrite (format_lines_spec _ _ ls); [|by eapply (dll_chain _ _ [])|done|lia|done]. by destruct buflen.
Qed.

(** A client that asks for the forwarded ports gets one line for each, in
    the order they were made, with the device, the local and the remote end,
    and nothing about the server's own listeners: the buffer that is measured
    first is filled exactly, nothing is cut, and nothing changes. *)
Theorem list_forward_complete (reply_fd : Z) (ls : list (ptr * alistener)) (st : fdstate) :
  listening st ls -> Forall (named st) ls ->
  request_list_forward reply_fd st =
  (os (send_msg_with_okay reply_fd (ls ≫= forward_line st));; mret 0) st.
Proof.
  intros Hl Hn. unfold request_list_forward.
  rewrite (bind_done _ _ _ _ _ (format_listeners_spec ls st None Hl Hn (or_introl eq_refl))).
  by rewrite (bind_done _ _ _ _ _ (format_listeners_spec ls st (Some _) Hl Hn (or_intror eq_refl))).
Qed.

(** ** Choosing a device *)

(** A client that asks for the device with a serial number gets the device
    the selection names: its connection is bound to that transport and told
    OKAY; otherwise it is told the reason, and nothing changes. *)
Theorem transport_request_selects (sizeof_ptr : Z) (usb_close usb_kick : ptr -> F unit) (fmt_p : ptr -> bytes)
    (listen_all : bool) (usb_cleanup : F unit) (name : bytes) (ttype : transport_type) (serial : option bytes)
    (fd : Z) (s : ptr) (ts : list (ptr * atransport)) (st : fdstate) :
  listed st transport_list ts -> transport_lock (rest st) = false ->
  handle_host_request sizeof_ptr usb_close usb_kick fmt_p listen_all usb_cleanup
    (str "transport:" ++ name) ttype serial fd s st =
  (match selection CS_ANY kTransportAny (Some name) ts with
   | (t, None) => set_sock s (set_sk_transport t);; os (adb_write fd (str "OKAY"));; mret 1
   | (_, Some reason) => os (sendfailmsg fd reason);; mret 1
   end) st.
Proof.
  intros Hl Hk. unfold handle_host_request.
  rewrite bool_decide_false by discriminate.
  change (has_prefix (str "transport") (str "transport:" ++ name)) with true. cbv iota. unfold request_transport.
  change (has_prefix (str "transport-usb") (str "transport:" ++ name)) with false.
  change (has_prefix (str "transport-local") (str "transport:" ++ name)) with false.
  change (has_prefix (str "transport-any") (str "transport:" ++ name)) with false. cbv iota.
  assert (E : strip (str "transport:") (str "transport:" ++ name) = Some name).
  { unfold strip. by rewrite has_prefix_app, drop_app_length. }
  rewrite E. cbv iota beta. rewrite (bind_done _ _ _ _ _ (acquire_any kTransportAny (Some name) ts st Hl Hk)).
  pose proof (selection_result CS_ANY kTransportAny (Some name) ts (proj2 (proj2 Hl))) as Hr.
  destruct (selection CS_ANY kTransportAny (Some name) ts) as [t [reason|]]; cbn [fst snd] in Hr; cbv iota beta.
  - rewrite bool_decide_false by (intros H; by apply H). rewrite bind_assoc. unfold mbind, M_bind.
    by destruct (os _ st) as [[]].
  - rewrite bool_decide_true by done. rewrite bind_assoc. unfold mbind, M_bind.
    destruct (set _ _ st) as [[]]; [|done]. by destruct (os _ _) as [[]].
Qed.

(** ** Witnesses *)

(** The server of [desk] with a client: a smart socket at 30 whose peer is the
    local socket at 31 on descriptor 40, and two forwarded ports of the phone
    beside the server's own listener. *)
Definition client_smart : asocket :=
  set_peer 31%N (init_socket 0 0 smart_socket_enqueue_fn smart_socket_ready_fn None smart_socket_close_fn NULL no_asocket).

Definition client_local : asocket :=
  set_peer 30%N (init_socket 40 1 local_socket_enqueue_fn local_socket_ready_fn None local_socket_close_fn NULL no_asocket).

Definition forwarded (n p : ptr) (local remote : bytes) (t : ptr) : alistener :=
  {| al_next := n; al_prev := p; al_fde := 7%N; al_fd := 50; al_local_name := local; al_connect_to := remote;
     al_transport := t |}.

Definition own_listener : alistener := forwarded 52%N listener_list (str "tcp:5037") (str "*smartsocket*") NULL.

Definition port_listener : alistener := forwarded listener_list 51%N (str "tcp:8000") (str "tcp:80") 5%N.

Definition server_globals : globals :=
  set_live {[1; 2; 3]}
    (set_sockets {[30%N := client_smart; 31%N := client_local]}
      (set_hosts (set_listeners
        {[listener_list := set_next 51%N (set_prev 52%N no_alistener); 51%N := own_listener; 52%N := port_listener]}
        hostside_boot) desk_globals)).

Definition server : fdstate := put server_globals desk.

Definition client_packet (a : Z) (bs : bytes) : pkt := extended (pair_packet a bs) bs.

Lemma smart_request_reassembled_witness :
  exists q, Some (p_addr q) = Some 1 /\
    (feed 4 observe None 30%N [client_packet 1 (str "00"); client_packet 2 (str "0cho")];;
     smart_socket_enqueue 4 observe None 30%N (client_packet 3 (str "st:version"))) server =
    serve_request 4 observe None 30%N q (str "host:version")
      (holding 30%N client_smart q ({[1; 2; 3]} ∖ ({[1; 2; 3]} ∖ {[p_addr q]})) server).
Proof.
  destruct (smart_request_reassembled 4 observe None 30%N client_smart
    [client_packet 1 (str "00"); client_packet 2 (str "0cho")] [str "00"; str "0cho"]
    (client_packet 3 (str "st:version")) (str "st:version") (str "host:version") server) as (q & Hq & E).
  - split; vm_compute; lia.
  - by repeat constructor.
  - by split.
  - discriminate.
  - reflexivity.
  - apply (bool_decide_unpack _). vm_compute. reflexivity.
  - apply (bool_decide_unpack _). vm_compute. reflexivity.
  - reflexivity.
  - reflexivity.
  - exists q. split; [exact Hq|]. exact E.
Defined.

Lemma server_listening : listening server [(51%N, own_listener); (52%N, port_listener)].
Proof.
  split_and!; [|by repeat constructor|apply (bool_decide_unpack _); vm_compute; reflexivity].
  split; [|vm_compute; tauto]. apply (bool_decide_unpack _). vm_compute. reflexivity.
Qed.

Lemma list_forward_complete_witness :
  request_list_forward 40 server =
  (os (send_msg_with_okay 40 (str "PHONE tcp:8000 tcp:80" ++ [10]));; mret 0) server.
Proof.
  apply (list_forward_complete 40 [(51%N, own_listener); (52%N, port_listener)] server server_listening).
  repeat constructor.
  - intros H. discriminate H.
  - intros _. exists phone. split; [reflexivity|]. eexists. reflexivity.
Defined.

Lemma server_listed : listed server transport_list [(5%N, phone)].
Proof. exact desk_listed. Qed.

Lemma transport_request_selects_witness :
  handle_host_request 4 quietly quietly (fun _ => []) false (mret tt) (str "transport:PHONE") kTransportAny None 40
    30%N server =
  (set_sock 30%N (set_sk_transport 5%N);; os (adb_write 40 (str "OKAY"));; mret 1) server.
Proof.
  exact (transport_request_selects 4 quietly quietly (fun _ => []) false (mret tt) (str "PHONE") kTransportAny None 40
    30%N [(5%N, phone)] server server_listed eq_refl).
Defined.

(** ** Concrete runs *)

Definition hcalls : methods := host_dispatch 4 quietly quietly (fun _ => []) false (mret tt) 4.

(** Descriptor 40 delivers [bs], then waits; connections get descriptor 60. *)
Definition client_env (bs : bytes) : env := fun h c =>
  match c return ans c with
  | Read fd n =>
      let rest := drop (length (read_from 40 h)) bs in
      if bool_decide (rest = []) then Err EAGAIN else Ok (take (Z.to_nat n) rest)
  | Loopback_client _ | Loopback_server _ => Ok 60
  | c => ok_default c
  end.

Definition desk_with (e : env) : fdstate := put (boot e 300) desk.

(** A client connects and sends [bs]. *)
Definition client_sends (bs : bytes) : outcome unit * fdstate :=
  (s ← create_local_socket 4 40;
   connect_to_smartsocket hcalls s;;
   local_socket_event_func hcalls 40 FDE_READ s) (desk_with (client_env bs)).

(** A client asks for the version: it is answered and its connection closed,
    and no socket or packet is left. *)
Theorem version_session :
  let '(o, st) := client_sends (str "000chost:version") in
  o = Done tt /\ written_to 40 (w_hist (fd_world st)) = str "OKAY0004001f" /\
  closed_fds (w_hist (fd_world st)) = [40] /\
  base.dom (sockets (rest st)) = {[local_socket_list; local_socket_closing_list]} /\ live (rest st) = ∅.
Proof. vm_compute. split_and!; reflexivity. Qed.

Definition host_request (service : bytes) (fd : Z) : F Z :=
  handle_host_request 4 quietly quietly (fun _ => []) false (mret tt) service kTransportAny None fd NULL.

(** A port is forwarded, listed, used and given up: the client's connection to
    the port is opened on the device, and afterwards no listener is left. *)
Theorem forward_session :
  let '(o, st) :=
    (host_request (str "forward:tcp:8000;tcp:80") 40;;
     host_request (str "list-forward") 41;;
     l ← zoom (load_next (T := alistener) listener_list);
     listener_event_func 4 60 FDE_READ l;;
     host_request (str "killforward:tcp:8000") 42) (desk_with (client_env [])) in
  o = Done 0 /\
  written_to 40 (w_hist (fd_world st)) = str "OKAYOKAY" /\
  written_to 41 (w_hist (fd_world st)) = str "OKAY0016PHONE tcp:8000 tcp:80" ++ [10] /\
  ((fun '(t, b) => (t, command (msg b), data b)) <$> sent (rest st)) = [(5%N, A_OPEN, str "tcp:80" ++ [0])] /\
  base.dom (listeners (hosts (rest st))) = {[listener_list]}.
Proof. vm_compute. split_and!; reflexivity. Qed.

(** The server's own listener is kept by "killforward-all", as its comment
    says, but "killforward" with the server's address takes it away: no client
    can connect any more. *)
Theorem killforward_stops_server :
  let run service := (install_listener 4 false (str "tcp:5037") (str "*smartsocket*") NULL false;;
                      host_request service 40) (desk_with (client_env [])) in
  base.dom (listeners (hosts (rest (run (str "killforward-all")).2))) <> {[listener_list]} /\
  base.dom (listeners (hosts (rest (run (str "killforward:tcp:5037")).2))) = {[listener_list]}.
Proof. vm_compute. split; [discriminate|reflexivity]. Qed.

(** Two emulators on one console port: the second is refused because of its
    serial number and freed, but its slot keeps the address; the next search
    of the emulators reads freed memory. *)
Theorem emulator_slot_dangles :
  let '(o, st) :=
    (connect_emulator 4 (fun _ => []) 32 (str "5554,5555");;
     connect_emulator 4 (fun _ => []) 32 (str "5554,5557");;
     connect_emulator 4 (fun _ => []) 32 (str "5556,5559")) (desk_with (client_env [])) in
  o = Stop (Undef "dangling pointer").
Proof. vm_compute. reflexivity. Qed.

(** A device address that ends in its colon leaves the port indeterminate:
    [sscanf] returns EOF, not 0. *)
Theorem connect_empty_port :
  (connect_device 4 (fun _ => []) (str "10.0.0.2:") (desk_with (client_env []))).1 = Stop (Undef "indeterminate port").
Proof. vm_compute. reflexivity. Qed.
