(* ===== verification/Zip.v ===== *)
(** * zipfile.cpp, centraldir.cpp: reading the directory of an archive

    The reader works on a buffer that holds a whole archive: [init_zipfile]
    finds the end-of-central-directory record, reads the directory and keeps a
    list of [Zipentry] structures whose pointers lead back into the buffer.
    [adb install] looks up [AndroidManifest.xml] in a package before it is sent.

    A [const unsigned char*] is an offset into the buffer [mem]; computing an
    offset is free, reading outside the buffer is [Undef].  Structures live in
    one heap per type; a freed structure is gone from its heap.  The platform
    is the one [private.h] is written for: [ssize_t] is [int], [unsigned long]
    has 32 bits.  Messages on standard error are left out. *)

From S2P Require Import Prelude Effects.

Module Zip.

(** ** Structures (private.h) *)

Record Zipentry := {
  fileNameLength : Z;
  fileName : option Z;
  compressionMethod : Z;
  uncompressedSize : Z;
  compressedSize : Z;
  data : option Z;
  next : option positive;
}.

Record Zipfile := {
  buf : Z;
  bufsize : Z;
  disknum : Z;
  diskWithCentralDir : Z;
  entryCount : Z;
  totalEntryCount : Z;
  centralDirSize : Z;
  centralDirOffest : Z;
  commentLen : Z;
  comment : option Z;
  entries : option positive;
}.

(** The caller's buffer, the allocated structures and the next fresh address. *)
Record heap := {
  mem : bytes;
  zfiles : gmap positive Zipfile;
  zentries : gmap positive Zipentry;
  fresh : positive;
}.

Abbreviation Z_ := (M heap).

(** ** Constants (centraldir.cpp) *)

Definition CD_SIGNATURE : Z := 0x06054b50.

Definition EOCD_LEN : Z := 22.

Definition MAX_COMMENT_LEN : Z := 65535.

Definition MAX_EOCD_SEARCH : Z := MAX_COMMENT_LEN + EOCD_LEN.

Definition ENTRY_SIGNATURE : Z := 0x02014b50.

Definition ENTRY_LEN : Z := 46.

Definition LFH_SIZE : Z := 30.

(** ** Memory *)

(** [*p] *)
Definition rd (p : Z) : Z_ Z :=
  must "read outside the buffer" (fun h => if p <? 0 then None else mem h !! Z.to_nat p).

(** The [n] bytes from [p], all of which must be in the buffer. *)
Definition slice (m : bytes) (p n : Z) : option bytes :=
  if (0 <=? p) && (p + n <=? Z.of_nat (length m)) then
    Some (take (Z.to_nat n) (drop (Z.to_nat p) m))
  else None.

Definition get_file (f : positive) : Z_ Zipfile :=
  must "dangling zipfile" (fun h => zfiles h !! f).

Definition get_entry (e : positive) : Z_ Zipentry :=
  must "dangling zipentry" (fun h => zentries h !! e).

Definition put_file (f : positive) (v : Zipfile) : Z_ unit :=
  modify (fun h => {| mem := mem h; zfiles := <[f := v]> (zfiles h); zentries := zentries h;
                      fresh := fresh h |}).

Definition put_entry (e : positive) (v : Zipentry) : Z_ unit :=
  modify (fun h => {| mem := mem h; zfiles := zfiles h; zentries := <[e := v]> (zentries h);
                      fresh := fresh h |}).

(** [malloc]: an address no structure has had. *)
Definition malloc : Z_ positive := fun h =>
  (Done (fresh h), {| mem := mem h; zfiles := zfiles h; zentries := zentries h;
                      fresh := Pos.succ (fresh h) |}).

Definition free_file (f : positive) : Z_ unit :=
  get_file f;;
  modify (fun h => {| mem := mem h; zfiles := delete f (zfiles h); zentries := zentries h;
                      fresh := fresh h |}).

Definition free_entry (e : positive) : Z_ unit :=
  get_entry e;;
  modify (fun h => {| mem := mem h; zfiles := zfiles h; zentries := delete e (zentries h);
                      fresh := fresh h |}).

(** ** Reading the directory *)

Definition read_le_int (p : Z) : Z_ Z :=
  b0 ← rd p;
  b1 ← rd (p + 1);
  b2 ← rd (p + 2);
  b3 ← rd (p + 3);
  mret (u32 (Z.lor (Z.lor (Z.lor b0 (Z.shiftl b1 8)) (Z.shiftl b2 16)) (Z.shiftl b3 24))).

Definition read_le_short (p : Z) : Z_ Z :=
  b0 ← rd p;
  b1 ← rd (p + 1);
  mret (Z.lor b0 (Z.shiftl b1 8)).

(** The end-of-central-directory record at [b]; [file] is updated through the
    pointer, field by field, so the values read before a failure stay. *)
Definition read_central_dir_values (file : positive) (b len : Z) : Z_ Z :=
  if len <? EOCD_LEN then mret (-1) else
  disknum ← read_le_short (b + 0x04);
  diskWithCentralDir ← read_le_short (b + 0x06);
  entryCount ← read_le_short (b + 0x08);
  totalEntryCount ← read_le_short (b + 0x0a);
  centralDirSize ← read_le_int (b + 0x0c);
  centralDirOffest ← read_le_int (b + 0x10);
  commentLen ← read_le_short (b + 0x14);
  z ← get_file file;
  let z' c := {| buf := buf z; bufsize := bufsize z; disknum := disknum;
                 diskWithCentralDir := diskWithCentralDir; entryCount := entryCount;
                 totalEntryCount := totalEntryCount; centralDirSize := centralDirSize;
                 centralDirOffest := centralDirOffest; commentLen := commentLen;
                 comment := c; entries := entries z |} in
  put_file file (z' (comment z));;
  if commentLen >? 0 then
    if EOCD_LEN + commentLen >? len then mret (-1) else
    put_file file (z' (Some (b + EOCD_LEN)));;
    mret 0
  else mret 0.

(** One directory entry at [b], of which [len] bytes are said to be left.  The
    result is the return value and the pointer after the entry ([*buf]); the
    fields the source reads and drops (versions, times, checksum, attributes)
    are inside the bytes that [*len] was compared with. *)
Definition read_central_directory_entry (file entry : positive) (b len : Z) : Z_ (Z * Z) :=
  if len <? ENTRY_LEN then mret (-1, b) else
  sig ← read_le_int (b + 0x00);
  if negb (sig =? ENTRY_SIGNATURE) then mret (-1, b) else
  versionMadeBy ← read_le_short (b + 0x04);
  versionToExtract ← read_le_short (b + 0x06);
  gpBitFlag ← read_le_short (b + 0x08);
  compressionMethod ← read_le_short (b + 0x0a);
  lastModFileTime ← read_le_short (b + 0x0c);
  lastModFileDate ← read_le_short (b + 0x0e);
  crc32 ← read_le_int (b + 0x10);
  compressedSize ← read_le_int (b + 0x14);
  uncompressedSize ← read_le_int (b + 0x18);
  fileNameLength ← read_le_short (b + 0x1c);
  extraFieldLength ← read_le_short (b + 0x1e);
  fileCommentLength ← read_le_short (b + 0x20);
  diskNumberStart ← read_le_short (b + 0x22);
  internalAttrs ← read_le_short (b + 0x24);
  externalAttrs ← read_le_int (b + 0x26);
  localHeaderRelOffset ← read_le_int (b + 0x2a);
  let p := b + ENTRY_LEN in
  let fileName := if negb (fileNameLength =? 0) then Some p else None in
  let p := p + fileNameLength in
  let p := p + extraFieldLength in
  let p := p + fileCommentLength in
  z ← get_file file;
  extraFieldLength ← read_le_short (buf z + localHeaderRelOffset + 0x1c);
  let dataOffset := u32 (localHeaderRelOffset + LFH_SIZE + fileNameLength + extraFieldLength) in
  e ← get_entry entry;
  put_entry entry
    {| fileNameLength := fileNameLength; fileName := fileName;
       compressionMethod := compressionMethod; uncompressedSize := uncompressedSize;
       compressedSize := compressedSize; data := Some (buf z + dataOffset);
       next := next e |};;
  mret (0, p).

(** The [while (p >= start)] loop: the offset at which it stops, which is before
    [start] when there is no signature. *)
Definition find_eocd (start p : Z) : Z_ Z :=
  loop_fuel (S (Z.to_nat (p - start + 1))) (fun p =>
    if p >=? start then
      c ← rd p;
      if c =? 0x50 then
        sig ← read_le_int p;
        if sig =? CD_SIGNATURE then mret (inr p) else mret (inl (p - 1))
      else mret (inl (p - 1))
    else mret (inr p)) p.

(** [memset(entry, 0, sizeof(Zipentry))] *)
Definition zero_entry : Zipentry :=
  {| fileNameLength := 0; fileName := None; compressionMethod := 0; uncompressedSize := 0;
     compressedSize := 0; data := None; next := None |}.

(** The loop over the directory: [n] entries to go.  [len] is not changed by
    [read_central_directory_entry]. *)
Fixpoint read_entries (n : nat) (file : positive) (p len : Z) : Z_ Z :=
  match n with
  | O => mret 0
  | S n' =>
      entry ← malloc;
      put_entry entry zero_entry;;
      r ← read_central_directory_entry file entry p len;
      let '(err, p) := r in
      if negb (err =? 0) then
        free_entry entry;;
        mret (-1)
      else
        z ← get_file file;
        e ← get_entry entry;
        put_entry entry
          {| fileNameLength := fileNameLength e; fileName := fileName e;
             compressionMethod := compressionMethod e; uncompressedSize := uncompressedSize e;
             compressedSize := compressedSize e; data := data e; next := entries z |};;
        put_file file
          {| buf := buf z; bufsize := bufsize z; disknum := disknum z;
             diskWithCentralDir := diskWithCentralDir z; entryCount := entryCount z;
             totalEntryCount := totalEntryCount z; centralDirSize := centralDirSize z;
             centralDirOffest := centralDirOffest z; commentLen := commentLen z;
             comment := comment z; entries := Some entry |};;
        read_entries n' file p len
  end.

Definition read_central_dir (file : positive) : Z_ Z :=
  z ← get_file file;
  let b := buf z in
  let bufsize := bufsize z in
  if bufsize <? EOCD_LEN then mret (-1) else
  let start := if bufsize >? MAX_EOCD_SEARCH then b + bufsize - MAX_EOCD_SEARCH else b in
  p ← find_eocd start (b + bufsize - 4);
  if p <? start then mret (-1) else
  err ← read_central_dir_values file p (b + bufsize - p);
  if negb (err =? 0) then mret (-1) else
  z ← get_file file;
  if negb (disknum z =? 0) || negb (diskWithCentralDir z =? 0)
     || negb (entryCount z =? totalEntryCount z) then mret (-1) else
  let p := b + centralDirOffest z in
  let len := s32 (b + bufsize - p) in
  read_entries (Z.to_nat (totalEntryCount z)) file p len.

(** ** zipfile.cpp *)

(** [malloc]; without memory it is NULL, which [init_zipfile] checks and
    [read_central_dir] does not: there the entries are taken to be granted. *)
Definition init_zipfile (memory : bool) (d size : Z) : Z_ (option positive) :=
  if negb memory then mret None else
  file ← malloc;
  put_file file
    {| buf := d; bufsize := s32 size; disknum := 0; diskWithCentralDir := 0; entryCount := 0;
       totalEntryCount := 0; centralDirSize := 0; centralDirOffest := 0; commentLen := 0;
       comment := None; entries := None |};;
  err ← read_central_dir file;
  if negb (err =? 0) then
    free_file file;;
    mret None
  else mret (Some file).

(** A walk along [next]: the number of allocated entries is enough fuel. *)
Definition walk {R} (body : positive -> Z_ (option positive + R)) (nil : R) (e : option positive) : Z_ R :=
  fun h => loop_fuel (S (size (zentries h))) (fun e =>
    match e with
    | None => mret (inr nil)
    | Some e => body e
    end) e h.

Definition release_zipfile (f : positive) : Z_ unit :=
  file ← get_file f;
  walk (fun entry =>
    e ← get_entry entry;
    free_entry entry;;
    mret (inl (next e))) tt (entries file);;
  free_file f.

(** [0 == memcmp(s, p, n)]: bytes are compared in order up to the first that
    differs; a byte past the end of either object is [Undef].  [s] is the object
    the first argument points to. *)
Fixpoint memcmp_eq (s : bytes) (p : Z) (n : nat) : Z_ bool :=
  match n with
  | O => mret true
  | S n' =>
      c ← must "read after the string" (fun _ => head s);
      d ← rd p;
      if c =? d then memcmp_eq (tail s) (p + 1) n' else mret false
  end.

(** [memcmp(entryName, entry->fileName, entry->fileNameLength)]: an entry without
    a name has a null pointer and a length of 0. *)
Definition lookup_zipentry (f : positive) (entryName : bytes) : Z_ (option positive) :=
  file ← get_file f;
  walk (fun entry =>
    e ← get_entry entry;
    same ← memcmp_eq (entryName ++ [0]) (default 0 (fileName e)) (Z.to_nat (fileNameLength e));
    if (same : bool) then mret (inr (Some entry)) else mret (inl (next e))) None (entries file).

Definition get_zipentry_size (entry : positive) : Z_ Z :=
  e ← get_entry entry;
  mret (uncompressedSize e).

(** The string in the allocated block: [l] bytes, then the NUL. *)
Definition get_zipentry_name (entry : positive) : Z_ bytes :=
  e ← get_entry entry;
  let l := fileNameLength e in
  s ← must "read outside the buffer" (fun h => slice (mem h) (default 0 (fileName e)) l);
  mret (s ++ [0]).

Definition STORED : Z := 0.

Definition DEFLATED : Z := 8.

Definition Z_OK : Z := 0.

Definition Z_STREAM_END : Z := 1.

Section zlib.
(** zlib: the result of [inflateInit2] for a raw stream, and of one call of
    [inflate] with [Z_FINISH] on an input and the room in the output: the code
    it returns and the bytes it has written. *)
Context (inflateInit2 : Z) (inflate : bytes -> Z -> Z * bytes).

(** The return value and the bytes written from [out] on. *)
Definition uninflate (unlen : Z) (input : bytes) : Z * bytes :=
  if negb (inflateInit2 =? Z_OK) then (-1, []) else
  let '(zerr, out) := inflate input (u32 unlen) in
  (if negb (zerr =? Z_STREAM_END) then -1 else 0, out).

(** [decompress_zipentry(e, buf, bufsize)] where [buf] has room for [room] bytes. *)
Definition decompress_zipentry (entry : positive) (room bufsize : Z) : Z_ (Z * bytes) :=
  e ← get_entry entry;
  if compressionMethod e =? STORED then
    s ← must "read outside the buffer" (fun h => slice (mem h) (default 0 (data e)) (uncompressedSize e));
    if room <? uncompressedSize e then undef "write after the buffer" else mret (0, s)
  else if compressionMethod e =? DEFLATED then
    s ← must "read outside the buffer" (fun h => slice (mem h) (default 0 (data e)) (compressedSize e));
    mret (uninflate bufsize s)
  else mret (-1, []).

End zlib.

(** The text written to [to]. *)
Definition dump_zipfile (f : positive) : Z_ bytes :=
  zip ← get_file f;
  (fix go (n : nat) (entry : option positive) (out : bytes) : Z_ bytes :=
    match n with
    | O => mret out
    | S n' =>
        p ← must "null zipentry" (fun _ => entry);
        e ← get_entry p;
        s ← must "read outside the buffer" (fun h =>
              slice (mem h) (default 0 (fileName e)) (fileNameLength e));
        go n' (next e) (out ++ [32; 32] ++ str "file " ++ [34] ++ s ++ [34; 10])
    end) (Z.to_nat (entryCount zip)) (entries zip) (str "entryCount=" ++ fmt_d (entryCount zip) ++ [10]).

(** The entry returned, which is also the new value of [*cookie]. *)
Definition iterate_zipfile (f : positive) (cookie : option positive) : Z_ (option positive) :=
  match cookie with
  | None =>
      zip ← get_file f;
      mret (entries zip)
  | Some entry =>
      e ← get_entry entry;
      mret (next e)
  end.

End Zip.
