(* ===== verification/ZipSpec.v ===== *)
(** * Properties of the zip reader *)

From S2P Require Import Prelude Effects Zip.
Import Zip.

(** ** Reading fields *)

(** [bs] lies at offset [p] of [m]. *)
Definition lies (m : bytes) (p : Z) (bs : bytes) : Prop :=
  exists a c, m = a ++ bs ++ c /\ Z.of_nat (length a) = p.

Lemma lies_app m p x y :
  lies m p (x ++ y) <-> lies m p x /\ lies m (p + Z.of_nat (length x)) y.
Proof.
  split.
  - intros (a & c & -> & <-). split.
    + exists a, (y ++ c). by rewrite <-app_assoc.
    + exists (a ++ x), c. rewrite length_app, <-!app_assoc. split; [done|lia].
  - intros [(a & c & E & L) (a' & c' & E' & L')].
    exists a, c'. split; [|done]. rewrite E in E'.
    rewrite app_assoc in E'. apply app_inj_1 in E' as [_ E']; [|rewrite length_app; lia].
    by rewrite E, E', <-!app_assoc.
Qed.

Lemma lies_nonneg m p bs : lies m p bs -> 0 <= p.
Proof. intros (a & c & _ & <-). lia. Qed.

Lemma lies_end m p bs : lies m p bs -> p + Z.of_nat (length bs) <= Z.of_nat (length m).
Proof. intros (a & c & -> & <-). rewrite !length_app. lia. Qed.

Lemma lies_slice m p bs : lies m p bs -> slice m p (Z.of_nat (length bs)) = Some bs.
Proof.
  intros H. pose proof (lies_nonneg _ _ _ H). pose proof (lies_end _ _ _ H).
  unfold slice. rewrite (proj2 (Z.leb_le _ _)), (proj2 (Z.leb_le _ _)) by lia. simpl.
  destruct H as (a & c & -> & <-). rewrite !Nat2Z.id, drop_app_length, take_app_length. done.
Qed.

Lemma slice_lies m p n bs : 0 <= n -> slice m p n = Some bs -> lies m p bs.
Proof.
  unfold slice. intros Hn H. case_cond_in H; [|done]. bool_norm. simplify_eq.
  exists (take (Z.to_nat p) m), (drop (Z.to_nat p + Z.to_nat n) m). split.
  - rewrite <-drop_drop, !take_drop. done.
  - rewrite length_take. lia.
Qed.

Lemma slice_in m p n :
  0 <= p -> 0 <= n -> p + n <= Z.of_nat (length m) ->
  exists bs, slice m p n = Some bs /\ length bs = Z.to_nat n.
Proof.
  intros Hp Hn H. unfold slice. rewrite !(proj2 (Z.leb_le _ _)) by lia. eexists. split; [done|].
  rewrite length_take, length_drop. lia.
Qed.

Lemma rd_lies p b bs h : lies (mem h) p (b :: bs) -> rd p h = (Done b, h).
Proof.
  intros H. pose proof (lies_nonneg _ _ _ H). destruct H as (a & c & E & L).
  unfold rd, must. rewrite (proj2 (Z.ltb_ge _ _)) by lia.
  rewrite E. cbn [app]. rewrite list_lookup_middle by lia. done.
Qed.

Lemma rd_in p h : 0 <= p < Z.of_nat (length (mem h)) -> exists b, mem h !! Z.to_nat p = Some b /\ rd p h = (Done b, h).
Proof.
  intros Hp. destruct (lookup_lt_is_Some_2 (mem h) (Z.to_nat p)) as [b Hb]; [lia|].
  exists b. split; [done|]. unfold rd, must. rewrite (proj2 (Z.ltb_ge _ _)) by lia. by rewrite Hb.
Qed.

Lemma lor_shiftl a b k : 0 <= k -> 0 <= a < 2 ^ k -> Z.lor a (Z.shiftl b k) = a + b * 2 ^ k.
Proof.
  intros Hk Ha. rewrite <-Z.shiftl_mul_pow2 by done.
  assert (Z.land a (Z.shiftl b k) = 0) as L.
  { apply testbit_ext. intros n Hn. rewrite Z.land_spec, Z.bits_0, Z.shiftl_spec by done.
    destruct (decide (n < k)).
    - rewrite (Z.testbit_neg_r b) by lia. apply andb_false_r.
    - replace a with (a mod 2 ^ k) by (by apply Z.mod_small).
      rewrite Z.mod_pow2_bits_high by lia. done. }
  pose proof (Z.add_lor_land a (Z.shiftl b k)). lia.
Qed.

Lemma read_le_short_bytes p bs h :
  Forall is_byte bs -> length bs = 2%nat -> lies (mem h) p bs ->
  read_le_short p h = (Done (le_val bs), h).
Proof.
  intros HB HL H. destruct bs as [|b0 [|b1 []]]; try done.
  apply Forall_cons in HB as [H0 HB]. apply Forall_cons in HB as [H1 _]. unfold is_byte in *.
  apply (lies_app _ _ [b0] [b1]) in H as [L0 L1].
  unfold read_le_short. erewrite bind_done by (by eapply rd_lies).
  erewrite bind_done by (by eapply rd_lies). unfold mret, M_ret. do 2 f_equal.
  rewrite lor_shiftl by lia. cbn [le_val]. lia.
Qed.

Lemma read_le_int_bytes p bs h :
  Forall is_byte bs -> length bs = 4%nat -> lies (mem h) p bs ->
  read_le_int p h = (Done (le_val bs), h).
Proof.
  intros HB HL H. pose proof (le_val_range _ HB) as HR.
  destruct bs as [|b0 [|b1 [|b2 [|b3 []]]]]; try done.
  apply Forall_cons in HB as [H0 HB]. apply Forall_cons in HB as [H1 HB].
  apply Forall_cons in HB as [H2 HB]. apply Forall_cons in HB as [H3 _]. unfold is_byte in *.
  apply (lies_app _ _ [b0]) in H as [L0 H]. apply (lies_app _ _ [b1]) in H as [L1 H].
  apply (lies_app _ _ [b2]) in H as [L2 L3]. cbn [length] in *.
  change (Z.of_nat 1) with 1 in *.
  replace (p + 1 + 1 + 1) with (p + 3) in L3 by lia.
  replace (p + 1 + 1) with (p + 2) in L2 by lia.
  unfold read_le_int. repeat (erewrite bind_done by (by eapply rd_lies)).
  unfold mret, M_ret. do 2 f_equal.
  rewrite (lor_shiftl b0), (lor_shiftl _ b2), (lor_shiftl _ b3) by lia.
  cbn [le_val] in *. rewrite u32_small; [lia|]. change (256 ^ Z.of_nat 4) with (2 ^ 32) in HR. lia.
Qed.

Lemma read_le_short_lies p x h :
  lies (mem h) p (le_bytes 2 x) -> read_le_short p h = (Done (u16 x), h).
Proof.
  intros H. rewrite (read_le_short_bytes _ (le_bytes 2 x)); auto using le_bytes_bytes, length_le_bytes.
  by rewrite le_val_le_bytes.
Qed.

Lemma read_le_int_lies p x h :
  lies (mem h) p (le32 x) -> read_le_int p h = (Done (u32 x), h).
Proof.
  intros H. rewrite (read_le_int_bytes _ (le32 x)); auto using le_bytes_bytes, length_le_bytes.
  by rewrite le_val_le_bytes.
Qed.

(** ** The search for the end of the central directory *)

(** The signature lies at [p]. *)
Definition sig_at (m : bytes) (p : Z) : Prop := lies m p (le32 CD_SIGNATURE).

Lemma sig_at_slice m p : sig_at m p <-> slice m p 4 = Some (le32 CD_SIGNATURE).
Proof.
  split; [|apply slice_lies; lia]. unfold sig_at. intros H. apply lies_slice in H.
  by rewrite length_le_bytes in H.
Qed.

#[global] Instance sig_at_dec m p : Decision (sig_at m p).
Proof.
  refine (cast_if (decide (slice m p 4 = Some (le32 CD_SIGNATURE)))); by rewrite sig_at_slice.
Defined.

(** One iteration: the body of the loop leaves exactly at a signature. *)
Lemma sig_test p h :
  Forall is_byte (mem h) -> 0 <= p -> p + 4 <= Z.of_nat (length (mem h)) ->
  (c ← rd p;
   if c =? 0x50 then
     sig ← read_le_int p;
     if sig =? CD_SIGNATURE then mret (inr p) else mret (inl (p - 1))
   else mret (inl (p - 1)) : Z_ (Z + Z)) h
  = (Done (if decide (sig_at (mem h) p) then inr p else inl (p - 1)), h).
Proof.
  intros HB H0 H4.
  destruct (slice_in (mem h) p 4) as (bs & E & HL); [lia..|].
  change (Z.to_nat 4) with 4%nat in HL.
  assert (L := E). apply slice_lies in L; [|lia].
  assert (Forall is_byte bs) as HBs.
  { destruct L as (a & c & Em & _). rewrite Em in HB. by apply Forall_app in HB as [_ [? _]%Forall_app]. }
  assert (le_val bs = CD_SIGNATURE <-> sig_at (mem h) p) as HS.
  { split; intros HS.
    - unfold sig_at. rewrite <-HS, <-HL, le_bytes_le_val by done. done.
    - apply sig_at_slice in HS. rewrite E in HS. by simplify_eq. }
  destruct bs as [|b0 bs]; [done|].
  erewrite bind_done by (by eapply rd_lies).
  destruct (Z.eqb_spec b0 0x50) as [->|Hb].
  - erewrite bind_done by (by eapply read_le_int_bytes).
    destruct (Z.eqb_spec (le_val (0x50 :: bs)) CD_SIGNATURE); case_decide; (done || (exfalso; tauto)).
  - case_decide as D; [|done]. apply sig_at_slice in D. rewrite E in D.
    change (le32 CD_SIGNATURE) with [0x50; 0x4b; 0x05; 0x06] in D. congruence.
Qed.


Lemma find_eocd_spec start p h :
  Forall is_byte (mem h) -> 0 <= start <= p + 1 -> p + 4 <= Z.of_nat (length (mem h)) ->
  exists q, find_eocd start p h = (Done q, h) /\ start - 1 <= q <= p /\
            (forall i, q < i <= p -> ~ sig_at (mem h) i) /\ (start <= q -> sig_at (mem h) q).
Proof.
  intros HB. unfold find_eocd. remember (Z.to_nat (p - start + 1)) as n eqn:En. revert p En.
  induction n as [|n IH]; intros p En Hs Hp; cbn [loop_fuel].
  - exists p. rewrite Z.geb_leb, (proj2 (Z.leb_gt _ _)) by lia.
    split_and!; [done|lia..].
  - rewrite Z.geb_leb, (proj2 (Z.leb_le _ _)) by lia.
    erewrite bind_done by (apply sig_test; [done|lia..]). case_decide as D.
    + exists p. split_and!; [done|lia..|done].
    + destruct (IH (p - 1)) as (q & E & Hq & Hno & Hsig); [lia..|].
      exists q. split_and!; [exact E|lia|lia| |done].
      intros i Hi. destruct (decide (i = p)) as [->|]; [done|apply Hno; lia].
Qed.

(** ** Archives

    The layout of an archive as the format prescribes it: per entry a local
    header, its name, an extra field and the data; then the central directory,
    with a name, an extra field and a comment per entry; then the record that
    ends it.  The fields the reader drops are arbitrary. *)
Record item := {
  it_name : bytes;
  it_method : Z;
  it_usize : Z;
  it_body : bytes;
  it_lextra : bytes;
  it_cextra : bytes;
  it_comment : bytes;
  it_version : Z;
  it_flags : Z;
  it_time : Z;
  it_date : Z;
  it_crc : Z;
  it_attrs : Z;
}.

Abbreviation le16 := (le_bytes 2).

Abbreviation len bs := (Z.of_nat (length bs)).

Definition local_part (it : item) : bytes :=
  le32 0x04034b50 ++ le16 (it_version it) ++ le16 (it_flags it) ++ le16 (it_method it) ++
  le16 (it_time it) ++ le16 (it_date it) ++ le32 (it_crc it) ++ le32 (len (it_body it)) ++
  le32 (it_usize it) ++ le16 (len (it_name it)) ++ le16 (len (it_lextra it)) ++
  it_name it ++ it_lextra it ++ it_body it.

(** The directory entry of an item whose local header is at [off]. *)
Definition central_part (it : item) (off : Z) : bytes :=
  le32 ENTRY_SIGNATURE ++ le16 (it_version it) ++ le16 (it_version it) ++ le16 (it_flags it) ++
  le16 (it_method it) ++ le16 (it_time it) ++ le16 (it_date it) ++ le32 (it_crc it) ++
  le32 (len (it_body it)) ++ le32 (it_usize it) ++ le16 (len (it_name it)) ++
  le16 (len (it_cextra it)) ++ le16 (len (it_comment it)) ++ le16 0 ++ le16 0 ++
  le32 (it_attrs it) ++ le32 off ++ it_name it ++ it_cextra it ++ it_comment it.

Definition locals (its : list item) : bytes := its ≫= local_part.

Fixpoint central (its : list item) (off : Z) : bytes :=
  match its with
  | [] => []
  | it :: its' => central_part it off ++ central its' (off + len (local_part it))
  end.

Definition eocd (n size off : Z) (text : bytes) : bytes :=
  le32 CD_SIGNATURE ++ le16 0 ++ le16 0 ++ le16 n ++ le16 n ++ le32 size ++ le32 off ++
  le16 (len text) ++ text.

(** [stub] comes before the first header, as in a self-extracting archive. *)
Definition archive (stub : bytes) (its : list item) (text : bytes) : bytes :=
  let dir := central its (len stub) in
  stub ++ locals its ++ dir ++ eocd (len its) (len dir) (len stub + len (locals its)) text.

Definition item_ok (it : item) : Prop :=
  len (it_name it) < 2 ^ 16 /\ len (it_lextra it) < 2 ^ 16 /\ len (it_cextra it) < 2 ^ 16 /\
  len (it_comment it) < 2 ^ 16 /\ 0 <= it_method it < 2 ^ 16 /\ 0 <= it_usize it < 2 ^ 32.

(** What makes an archive readable: every field fits its width, and no later
    byte of it looks like the signature of the record that ends it. *)
Record archive_ok (stub : bytes) (its : list item) (text : bytes) : Prop := {
  ok_bytes : Forall is_byte (archive stub its text);
  ok_size : len (archive stub its text) < 2 ^ 31;
  ok_items : Forall item_ok its;
  ok_count : len its < 2 ^ 16;
  ok_text : len text <= MAX_COMMENT_LEN;
  ok_last : forall i, len (archive stub its text) - EOCD_LEN - len text < i ->
              ~ sig_at (archive stub its text) i;
}.

(** The entry at [e] describes [it]. *)
Definition describes (m : bytes) (e : Zipentry) (it : item) : Prop :=
  fileNameLength e = len (it_name it) /\
  lies m (default 0 (fileName e)) (it_name it) /\
  compressionMethod e = it_method it /\ uncompressedSize e = it_usize it /\
  compressedSize e = len (it_body it) /\
  lies m (default 0 (data e)) (it_body it).

(** A list of entries: the addresses [ps], the items [its] they describe. *)
Fixpoint entry_list (h : heap) (o : option positive) (ps : list positive) (its : list item) : Prop :=
  match ps, its with
  | [], [] => o = None
  | p :: ps', it :: its' =>
      o = Some p /\ p ∉ ps' /\ exists e, zentries h !! p = Some e /\ describes (mem h) e it /\
                                         entry_list h (next e) ps' its'
  | _, _ => False
  end.

(** *** Symbolic reading

    [split_fields H] cuts a record that lies in the buffer into its fields, at
    offsets from the start of the record; [read_fields] runs the reads. *)
Ltac split_fields H :=
  match type of H with lies ?m ?p ?bs => rewrite <-(Z.add_0_r p) in H end;
  repeat (apply lies_app in H as [?F H]; rewrite length_le_bytes, <-Z.add_assoc in H;
          match type of H with
          | lies _ (_ + ?c) _ => let c' := eval cbv in c in change c with c' in H
          end).

Ltac read_fields :=
  repeat (erewrite bind_done by
    (first [eapply read_le_short_lies; eassumption | eapply read_le_int_lies; eassumption])).

Lemma length_local_part it :
  len (local_part it) = LFH_SIZE + len (it_name it) + len (it_lextra it) + len (it_body it).
Proof. unfold local_part, LFH_SIZE. rewrite !length_app, !length_le_bytes. lia. Qed.

Lemma length_central_part it off :
  len (central_part it off) = ENTRY_LEN + len (it_name it) + len (it_cextra it) + len (it_comment it).
Proof. unfold central_part, ENTRY_LEN. rewrite !length_app, !length_le_bytes. lia. Qed.

Lemma length_eocd n size off text : len (eocd n size off text) = EOCD_LEN + len text.
Proof. unfold eocd, EOCD_LEN. rewrite !length_app, !length_le_bytes. lia. Qed.

(** The heap with entry [e] set to [v]. *)
Definition with_entry (e : positive) (v : Zipentry) (h : heap) : heap :=
  {| mem := mem h; zfiles := zfiles h; zentries := <[e := v]> (zentries h); fresh := fresh h |}.

Lemma read_entry_ok file entry b left it off h z e0 :
  item_ok it -> zfiles h !! file = Some z -> buf z = 0 -> zentries h !! entry = Some e0 ->
  len (mem h) < 2 ^ 31 -> ENTRY_LEN <= left ->
  lies (mem h) b (central_part it off) -> lies (mem h) off (local_part it) ->
  exists v, read_central_directory_entry file entry b left h
            = (Done (0, b + len (central_part it off)), with_entry entry v h) /\
            next v = next e0 /\ describes (mem h) v it.
Proof.
  intros (Hn & Hle & Hce & Hco & Hm & Hu) Hz Hb He Hmem Hleft HC HL.
  pose proof (lies_end _ _ _ HL) as Hend. pose proof (lies_nonneg _ _ _ HL).
  rewrite length_local_part in Hend. unfold LFH_SIZE in Hend. rewrite length_central_part.
  unfold central_part in HC. unfold local_part in HL. split_fields HC. split_fields HL.
  unfold read_central_directory_entry. rewrite (proj2 (Z.ltb_ge _ _)) by done.
  rewrite Z.add_0_r in *.
  erewrite bind_done by (eapply read_le_int_lies; eassumption).
  change (negb (u32 ENTRY_SIGNATURE =? ENTRY_SIGNATURE)) with false. cbv iota.
  read_fields.
  erewrite bind_done by (unfold get_file, must; by rewrite Hz).
  rewrite Hb, Z.add_0_l, (u32_small off) by lia.
  erewrite bind_done by (eapply read_le_short_lies; eassumption).
  erewrite bind_done by (unfold get_entry, must; by rewrite He).
  erewrite bind_done by done. unfold mret, M_ret.
  rewrite !u16_small, !u32_small by (unfold LFH_SIZE; lia).
  eexists. split; [rewrite !Z.add_assoc; reflexivity|]. split; [done|].
  unfold describes. simpl. apply lies_app in HC as [HN _].
  apply lies_app in HL as [_ [_ HL]%lies_app].
  split_and!; try done.
  by destruct (it_name it); [exists [], (mem h)|].
Qed.

(** *** The list of entries *)

(** Every allocated address is below the next fresh one. *)
Definition heap_ok (h : heap) : Prop :=
  (forall q, is_Some (zentries h !! q) -> (q < fresh h)%positive) /\
  (forall q, is_Some (zfiles h !! q) -> (q < fresh h)%positive).

Lemma entry_list_agree h h' o ps its :
  mem h' = mem h -> (forall q, q ∈ ps -> zentries h' !! q = zentries h !! q) ->
  entry_list h o ps its -> entry_list h' o ps its.
Proof.
  intros Hm. revert o its. induction ps as [|p ps IH]; intros o [|it its]; try done.
  intros Hq (-> & Hnin & e & He & Hd & Hl). split; [done|]. split; [done|]. exists e.
  rewrite Hm, Hq by set_solver. split_and!; [done..|].
  apply IH; [|done]. intros q Hin. apply Hq. set_solver.
Qed.

Lemma entry_list_alloc h o ps its : entry_list h o ps its -> forall q, q ∈ ps -> is_Some (zentries h !! q).
Proof.
  revert o its. induction ps as [|p ps IH]; intros o [|it its]; try done; [set_solver|].
  intros (_ & _ & e & He & _ & Hl) q [->|Hq]%elem_of_cons; [eauto|by eapply IH].
Qed.

(** Reading entries prepends them, the last one first, and leaves the rest of
    the heap alone. *)
Definition extended (h h' : heap) (file : positive) (z : Zipfile) (ps ps' : list positive)
    (its0 its : list item) : Prop :=
  mem h' = mem h /\ heap_ok h' /\
  (exists z', zfiles h' = <[file := z']> (zfiles h) /\ buf z' = buf z /\ bufsize z' = bufsize z /\
              entryCount z' = entryCount z /\
              entry_list h' (entries z') (ps' ++ ps) (reverse its ++ its0)) /\
  (forall q, q ∉ ps' -> zentries h' !! q = zentries h !! q) /\
  (forall q, q ∈ ps' -> zentries h !! q = None).

Lemma extended_trans h h1 h2 file z z1 ps ps1 ps2 its0 its1 its2 :
  zfiles h1 !! file = Some z1 ->
  extended h h1 file z ps ps1 its0 its1 ->
  extended h1 h2 file z1 (ps1 ++ ps) ps2 (reverse its1 ++ its0) its2 ->
  extended h h2 file z ps (ps2 ++ ps1) its0 (its1 ++ its2).
Proof.
  intros Hz1 (Hm & Hh & (z' & Hz' & Hb & Hs & Hc & Hl) & Hsame & Hnew)
             (Hm' & Hh' & (z'' & Hz'' & Hb' & Hs' & Hc' & Hl') & Hsame' & Hnew').
  rewrite Hz', lookup_insert_eq in Hz1. simplify_eq.
  split_and!; [congruence|done| | |].
  - exists z''. rewrite Hz'', Hz', insert_insert_eq, reverse_app, <-!app_assoc. split_and!; congruence.
  - intros q Hq. rewrite Hsame', Hsame by set_solver. done.
  - intros q [Hq|Hq]%elem_of_app; [|by apply Hnew].
    destruct (decide (q ∈ ps1)); [by apply Hnew|]. rewrite <-Hsame by done. by apply Hnew'.
Qed.

Lemma heap_ok_insert h n v file z :
  heap_ok h -> n = fresh h -> is_Some (zfiles h !! file) ->
  heap_ok {| mem := mem h; zfiles := <[file := z]> (zfiles h);
             zentries := <[n := v]> (zentries h); fresh := Pos.succ n |}.
Proof.
  intros [He Hf] -> Hs. split; simpl; intros q Hq.
  - destruct (decide (q = fresh h)) as [->|]; [lia|].
    rewrite lookup_insert_ne in Hq by done. apply He in Hq. lia.
  - destruct (decide (q = file)) as [->|]; [apply Hf in Hs; lia|].
    rewrite lookup_insert_ne in Hq by done. apply Hf in Hq. lia.
Qed.

Lemma read_entries_step k it p left off h file z ps its0 :
  item_ok it -> len (mem h) < 2 ^ 31 -> heap_ok h ->
  zfiles h !! file = Some z -> buf z = 0 -> entry_list h (entries z) ps its0 ->
  ENTRY_LEN <= left ->
  lies (mem h) p (central_part it off) -> lies (mem h) off (local_part it) ->
  exists n h', read_entries (S k) file p left h
               = read_entries k file (p + len (central_part it off)) left h' /\
               extended h h' file z ps [n] its0 [it].
Proof.
  intros Hit Hmem Hh Hz Hb Hl Hleft HC HL. set (n := fresh h).
  assert (zentries h !! n = None) as Hn.
  { apply eq_None_not_Some. intros Hs. apply Hh in Hs. subst n. lia. }
  set (h1 := with_entry n zero_entry {| mem := mem h; zfiles := zfiles h; zentries := zentries h;
                                        fresh := Pos.succ n |}).
  destruct (read_entry_ok file n p left it off h1 z zero_entry) as (v & Ev & Hv & Hd);
    [done|done|done|by apply lookup_insert_eq|done..|].
  exists n. eexists. split.
  - cbn [read_entries]. erewrite bind_done by done. fold n.
    erewrite bind_done by done. fold (with_entry n zero_entry).
    erewrite bind_done by exact Ev. cbn [negb Z.eqb].
    erewrite bind_done by (unfold get_file, must; cbn; by rewrite Hz).
    erewrite bind_done by (unfold get_entry, must; cbn; by rewrite lookup_insert_eq).
    erewrite bind_done by done. erewrite bind_done by done. reflexivity.
  - cbn. rewrite !insert_insert_eq.
    split_and!; [done|by apply heap_ok_insert; eauto| | |].
    + eexists. split; [done|]. cbn. assert (n ∉ ps) as Hnps.
      { intros Hq. apply (entry_list_alloc _ _ _ _ Hl) in Hq as [? ?]. congruence. }
      split_and!; [done..|]. eexists. rewrite lookup_insert_eq. split; [done|]. split; [exact Hd|].
      eapply entry_list_agree; [| |exact Hl]; [done|].
      intros q Hq. cbn. rewrite lookup_insert_ne by (intros <-; done). done.
    + intros q Hq. cbn. rewrite lookup_insert_ne by set_solver. done.
    + intros q ->%list_elem_of_singleton. done.
Qed.

Lemma read_entries_ok its : forall p left off h file z ps its0,
  Forall item_ok its -> len (mem h) < 2 ^ 31 -> heap_ok h ->
  zfiles h !! file = Some z -> buf z = 0 -> entry_list h (entries z) ps its0 ->
  (its <> [] -> ENTRY_LEN <= left) ->
  lies (mem h) p (central its off) -> lies (mem h) off (locals its) ->
  exists h' ps', read_entries (length its) file p left h = (Done 0, h') /\
                 extended h h' file z ps ps' its0 its.
Proof.
  induction its as [|it its IH]; intros p left off h file z ps its0 Hok Hmem Hh Hz Hb Hl Hleft HC HL.
  - exists h, []. split; [done|]. split_and!; try done; [|set_solver].
    exists z. rewrite insert_id by done. done.
  - apply Forall_cons in Hok as [Hit Hok].
    cbn [central] in HC. apply lies_app in HC as [HC HC'].
    unfold locals in HL. rewrite bind_cons in HL. apply lies_app in HL as [HL HL'].
    destruct (read_entries_step (length its) it p left off h file z ps its0) as (n & h1 & E & X);
      try done; [by apply Hleft|].
    assert (X' := X). destruct X' as (Hm & Hh1 & (z1 & Hz1 & Hb1 & _ & _ & Hl1) & _).
    assert (zfiles h1 !! file = Some z1) as Hz1' by (rewrite Hz1; apply lookup_insert_eq).
    destruct (IH (p + len (central_part it off)) left (off + len (local_part it)) h1 file z1 ([n] ++ ps) ([it] ++ its0))
      as (h' & ps' & E' & X'); rewrite ?Hm, ?Hb1; try done; [by intros _; apply Hleft|].
    exists h', (ps' ++ [n]). cbn [length]. rewrite E. split; [done|].
    by apply (extended_trans _ h1 _ _ _ z1 _ _ _ _ [it] its).
Qed.

(** ** Opening an archive *)

Definition with_file (f : positive) (z : Zipfile) (h : heap) : heap :=
  {| mem := mem h; zfiles := <[f := z]> (zfiles h); zentries := zentries h; fresh := fresh h |}.

Lemma read_values_ok file b left n size off text h z :
  zfiles h !! file = Some z -> lies (mem h) b (eocd n size off text) ->
  left = EOCD_LEN + len text -> len text <= MAX_COMMENT_LEN ->
  0 <= n < 2 ^ 16 -> 0 <= off < 2 ^ 32 ->
  exists z', read_central_dir_values file b left h = (Done 0, with_file file z' h) /\
             buf z' = buf z /\ bufsize z' = bufsize z /\ entries z' = entries z /\
             disknum z' = 0 /\ diskWithCentralDir z' = 0 /\
             entryCount z' = n /\ totalEntryCount z' = n /\ centralDirOffest z' = off.
Proof.
  intros Hz H -> Ht Hn Ho. unfold MAX_COMMENT_LEN in Ht. unfold eocd in H. split_fields H.
  unfold read_central_dir_values. rewrite (proj2 (Z.ltb_ge _ _)) by lia.
  read_fields. erewrite bind_done by (unfold get_file, must; by rewrite Hz).
  erewrite bind_done by done. rewrite !u16_small, (u32_small off) by lia.
  destruct (Z.gtb_spec (len text) 0).
  - rewrite Z.gtb_ltb, (proj2 (Z.ltb_ge _ _)) by lia.
    erewrite bind_done by done. cbn. rewrite insert_insert_eq.
    eexists. split; [reflexivity|]. done.
  - eexists. split; [reflexivity|]. done.
Qed.

(** The search stops at the record that ends the archive. *)
Lemma find_eocd_archive stub its text h :
  archive_ok stub its text -> mem h = archive stub its text ->
  let size := len (mem h) in
  find_eocd (if size >? MAX_EOCD_SEARCH then 0 + size - MAX_EOCD_SEARCH else 0) (0 + size - 4) h
  = (Done (size - EOCD_LEN - len text), h) /\
  lies (mem h) (size - EOCD_LEN - len text)
    (eocd (len its) (len (central its (len stub))) (len stub + len (locals its)) text).
Proof.
  intros [HB _ _ _ Ht Hlast] Hm size. rewrite <-Hm in *.
  set (e := eocd _ _ _ _).
  assert (lies (mem h) (size - EOCD_LEN - len text) e) as HL.
  { exists (stub ++ locals its ++ central its (len stub)), [].
    subst size. rewrite Hm. unfold archive. fold e. rewrite app_nil_r, <-!app_assoc. split; [done|].
    rewrite !length_app. pose proof (length_eocd (len its) (len (central its (len stub)))
      (len stub + len (locals its)) text). fold e in H. lia. }
  split; [|done]. pose proof (lies_end _ _ _ HL) as Hend.
  pose proof (lies_nonneg _ _ _ HL). fold size in Hend, Hlast.
  assert (sig_at (mem h) (size - EOCD_LEN - len text)) as Hsig
    by (unfold e, eocd in HL; by apply lies_app in HL as [? _]).
  unfold EOCD_LEN, MAX_EOCD_SEARCH, MAX_COMMENT_LEN, EOCD_LEN in *.
  destruct (find_eocd_spec (if size >? 65535 + 22 then 0 + size - (65535 + 22) else 0) (0 + size - 4) h)
    as (q & E & Hq & Hno & Hs); [done| |subst size; lia|].
  { destruct (Z.gtb_spec size (65535 + 22)); lia. }
  rewrite E. do 2 f_equal.
  destruct (Z.lt_trichotomy q (size - 22 - len text)) as [Hlt | [?|Hgt]]; [|done|].
  - exfalso. apply (Hno (size - 22 - len text)); [lia|done].
  - exfalso. apply (Hlast q Hgt). apply Hs. destruct (Z.gtb_spec size (65535 + 22)); lia.
Qed.

Definition empty_file (size : Z) : Zipfile :=
  {| buf := 0; bufsize := size; disknum := 0; diskWithCentralDir := 0; entryCount := 0;
     totalEntryCount := 0; centralDirSize := 0; centralDirOffest := 0; commentLen := 0;
     comment := None; entries := None |}.

(** [f] is a new file of [h'] whose entries, at [ps], describe [its], the last
    entry of the directory first; nothing else has changed since [h]. *)
Definition opened (h h' : heap) (f : positive) (ps : list positive) (its : list item) : Prop :=
  zfiles h !! f = None /\ mem h' = mem h /\ heap_ok h' /\
  (exists z, zfiles h' = <[f := z]> (zfiles h) /\ entryCount z = len its /\
             entry_list h' (entries z) ps (reverse its)) /\
  (forall q, q ∉ ps -> zentries h' !! q = zentries h !! q) /\
  (forall q, q ∈ ps -> zentries h !! q = None).

Lemma read_central_dir_ok stub its text h f :
  archive_ok stub its text -> mem h = archive stub its text -> heap_ok h ->
  zfiles h !! f = Some (empty_file (len (mem h))) ->
  exists h' ps z, read_central_dir f h = (Done 0, h') /\ entryCount z = len its /\
                  extended (with_file f z h) h' f z [] ps [] its.
Proof.
  intros Hok Hm Hh Hf. destruct (find_eocd_archive _ _ _ _ Hok Hm) as [Hfind HE].
  pose proof (lies_end _ _ _ HE) as Hend. pose proof (lies_nonneg _ _ _ HE) as Hpos.
  assert (len (mem h) < 2 ^ 31) as Hsz by (rewrite Hm; apply Hok).
  assert (lies (mem h) (len stub) (locals its) /\
          lies (mem h) (len stub + len (locals its)) (central its (len stub))) as [HL HC].
  { rewrite Hm. unfold archive. assert (lies (archive stub its text) 0 (archive stub its text)) as H0.
    { exists [], []. by rewrite app_nil_r. }
    unfold archive in H0. apply lies_app in H0 as [_ [H1 H2]%lies_app].
    apply lies_app in H2 as [H2 _]. by rewrite Z.add_0_l in *. }
  rewrite length_eocd in Hend. set (size := len (mem h)) in *. unfold EOCD_LEN in *.
  pose proof (lies_end _ _ _ HC) as HCend. fold size in HCend.
  destruct Hok as [_ _ Hits Hn Ht _].
  destruct (read_values_ok f (size - 22 - len text) (0 + size - (size - 22 - len text)) _ _ _ _ h _ Hf HE)
    as (z & Ez & Hb & Hbs & He & Hd & Hd2 & Hc & Htc & Hco); [unfold EOCD_LEN; lia|done|lia|lia|].
  destruct (read_entries_ok its (0 + centralDirOffest z) (s32 (0 + size - (0 + centralDirOffest z)))
              (len stub) (with_file f z h) f z [] []) as (h' & ps & Er & X); try done.
  - destruct Hh as [H1 H2]. split; [done|]. cbn. intros q Hq.
    destruct (decide (q = f)) as [->|]; [by apply H2; rewrite Hf|].
    rewrite lookup_insert_ne in Hq by done. by apply H2.
  - by apply lookup_insert_eq.
  - intros Hne. rewrite Hco, s32_small by lia. destruct its as [|it its]; [done|].
    cbn [central] in HCend. rewrite length_app, Nat2Z.inj_add, length_central_part in HCend. lia.
  - by rewrite Hco.
  - exists h', ps, z. split; [|done]. unfold read_central_dir.
    erewrite bind_done by (unfold get_file, must; by rewrite Hf).
    cbn [buf bufsize empty_file]. rewrite (proj2 (Z.ltb_ge _ _)) by (unfold EOCD_LEN; lia).
    erewrite bind_done by exact Hfind.
    rewrite (proj2 (Z.ltb_ge _ _)) by
      (unfold MAX_EOCD_SEARCH, MAX_COMMENT_LEN, EOCD_LEN in *; case_cond; bool_norm; lia).
    erewrite bind_done by exact Ez. cbn [negb Z.eqb].
    erewrite bind_done by (unfold get_file, must; cbn; by rewrite lookup_insert_eq).
    rewrite Hd, Hd2, Hc, Htc, !Z.eqb_refl, Nat2Z.id. done.
Qed.

Lemma init_zipfile_ok stub its text h :
  archive_ok stub its text -> mem h = archive stub its text -> heap_ok h ->
  exists f h' ps, init_zipfile true 0 (len (mem h)) h = (Done (Some f), h') /\ opened h h' f ps its.
Proof.
  intros Hok Hm Hh. set (f := fresh h).
  assert (zfiles h !! f = None) as Hf.
  { apply eq_None_not_Some. intros Hs. apply Hh in Hs. subst f. lia. }
  set (h0 := {| mem := mem h; zfiles := zfiles h; zentries := zentries h; fresh := Pos.succ f |}).
  set (h1 := with_file f (empty_file (len (mem h))) h0).
  assert (heap_ok h1) as Hh1.
  { destruct Hh as [H1 H2]. split; cbn; intros q Hq; [apply H1 in Hq; lia|].
    destruct (decide (q = f)) as [->|]; [lia|].
    rewrite lookup_insert_ne in Hq by done. apply H2 in Hq. lia. }
  destruct (read_central_dir_ok stub its text h1 f) as (h' & ps & z & E & Hc & X);
    [done|done|done|by apply lookup_insert_eq|].
  exists f, h', ps. split.
  - unfold init_zipfile. cbn [negb]. erewrite bind_done by done. fold f.
    erewrite bind_done by done. rewrite s32_small by (rewrite Hm; destruct Hok; lia).
    erewrite bind_done by exact E. done.
  - destruct X as (Hm' & Hh' & (z' & Hz & _ & _ & Hc' & Hl) & Hs & Hn).
    split_and!; try done. exists z'. rewrite Hz. cbn. rewrite !insert_insert_eq, Hc', Hc.
    by rewrite !app_nil_r in Hl.
Qed.

(** ** Walking the entries *)

Lemma iterate_first h f z ps its :
  zfiles h !! f = Some z -> entry_list h (entries z) ps its ->
  iterate_zipfile f None h = (Done (head ps), h).
Proof.
  intros Hz Hl. unfold iterate_zipfile. erewrite bind_done by (unfold get_file, must; by rewrite Hz).
  destruct ps, its; cbn in *; try done; [by rewrite Hl|by destruct Hl as [-> _]].
Qed.

(** [iteration h f c ps]: from cookie [c], [iterate_zipfile] returns [ps] one by
    one and then NULL. *)
Fixpoint iteration (h : heap) (f : positive) (c : option positive) (ps : list positive) : Prop :=
  iterate_zipfile f c h = (Done (head ps), h) /\
  match ps with
  | [] => True
  | p :: ps' => iteration h f (Some p) ps'
  end.

Lemma iteration_rest h f p e ps its :
  zentries h !! p = Some e -> entry_list h (next e) ps its -> iteration h f (Some p) ps.
Proof.
  revert p e its. induction ps as [|p' ps IH]; intros p e [|it its] He Hl; try done.
  - cbn [iteration]. unfold iterate_zipfile.
    erewrite bind_done by (unfold get_entry, must; by rewrite He). by rewrite Hl.
  - destruct Hl as (Hn & _ & e' & He' & _ & Hl). cbn [iteration]. unfold iterate_zipfile.
    erewrite bind_done by (unfold get_entry, must; by rewrite He). rewrite Hn. split; [done|by eapply IH].
Qed.

Lemma iteration_all h f z ps its :
  zfiles h !! f = Some z -> entry_list h (entries z) ps its -> iteration h f None ps.
Proof.
  intros Hz Hl. pose proof (iterate_first _ _ _ _ _ Hz Hl) as E.
  destruct ps as [|p ps], its as [|it its]; try done. split; [done|].
  destruct Hl as (_ & _ & e & He & _ & Hl). by eapply iteration_rest.
Qed.

Lemma entry_list_Forall2 h o ps its :
  entry_list h o ps its ->
  Forall2 (fun p it => exists e, zentries h !! p = Some e /\ describes (mem h) e it) ps its.
Proof.
  revert o its. induction ps as [|p ps IH]; intros o [|it its]; try done.
  intros (_ & _ & e & ? & ? & Hl). constructor; [eauto|by eapply IH].
Qed.

(** What the accessors say of an entry that describes [it]: its name, its size
    and, whatever zlib does, its contents. *)
Definition shows (h : heap) (p : positive) (it : item) : Prop :=
  get_zipentry_name p h = (Done (it_name it ++ [0]), h) /\
  get_zipentry_size p h = (Done (it_usize it), h) /\
  forall inflateInit2 inflate room bufsize,
    let r := decompress_zipentry inflateInit2 inflate p room bufsize h in
    (it_method it = STORED -> it_usize it = len (it_body it) -> it_usize it <= room ->
       r = (Done (0, it_body it), h)) /\
    (it_method it = DEFLATED -> r = (Done (uninflate inflateInit2 inflate bufsize (it_body it)), h)) /\
    (it_method it <> STORED -> it_method it <> DEFLATED -> r = (Done (-1, []), h)).

Lemma describes_shows h p e it :
  zentries h !! p = Some e -> describes (mem h) e it -> shows h p it.
Proof.
  intros He (Hnl & Hn & Hm & Hu & Hc & Hd).
  assert (get_entry p h = (Done e, h)) as G by (unfold get_entry, must; by rewrite He).
  unfold shows, get_zipentry_name, get_zipentry_size, decompress_zipentry. split_and!.
  - erewrite bind_done by exact G.
    erewrite bind_done by (unfold must; rewrite Hnl, lies_slice by done; reflexivity). done.
  - erewrite bind_done by exact G. by rewrite Hu.
  - intros. rewrite !(bind_done _ _ _ _ _ G), Hm, Hu, Hc. split_and!.
    + intros -> EU Hr. cbn [Z.eqb STORED]. rewrite EU in *.
      erewrite bind_done by (unfold must; rewrite lies_slice by done; reflexivity).
      rewrite (proj2 (Z.ltb_ge _ _)) by done. done.
    + intros ->. change (DEFLATED =? STORED) with false. rewrite Z.eqb_refl.
      erewrite bind_done by (unfold must; rewrite lies_slice by done; reflexivity). done.
    + intros H1 H2. rewrite !(proj2 (Z.eqb_neq _ _)) by done. done.
Qed.

(** C19: reading an archive gives back what was put in.  On every well-formed
    archive (any number of entries, any stub before it and comment after it)
    [init_zipfile] succeeds if it is given memory, and [iterate_zipfile] returns one entry per file,
    the last of the directory first, then NULL; name, size and contents of each
    are those of the file: the stored bytes themselves, or what zlib makes of
    the compressed ones. *)
Theorem archive_roundtrip stub its text h :
  archive_ok stub its text -> mem h = archive stub its text -> heap_ok h ->
  exists f h' ps, init_zipfile true 0 (len (mem h)) h = (Done (Some f), h') /\
                  iteration h' f None ps /\ Forall2 (shows h') ps (reverse its).
Proof.
  intros Hok Hm Hh. destruct (init_zipfile_ok _ _ _ _ Hok Hm Hh) as (f & h' & ps & E & X).
  destruct X as (_ & _ & _ & (z & Hz & _ & Hl) & _).
  exists f, h', ps. split; [done|]. split.
  - eapply iteration_all; [|done]. rewrite Hz. apply lookup_insert_eq.
  - apply entry_list_Forall2 in Hl. eapply Forall2_impl; [done|].
    intros p it (e & He & Hd). by eapply describes_shows.
Qed.

(** ** Lookup *)

(** A comparison over the length of an entry's name is a test for a prefix. *)
Lemma memcmp_eq_prefix s p name h :
  lies (mem h) p name -> Forall (fun c => c <> 0) name ->
  memcmp_eq (s ++ [0]) p (length name) h = (Done (has_prefix name s), h).
Proof.
  revert s p. induction name as [|c name IH]; intros s p HL HN; [done|].
  apply Forall_cons in HN as [Hc HN]. pose proof (rd_lies _ _ _ _ HL) as Hrd.
  apply (lies_app _ _ [c]) in HL as [_ HL]. cbn [length] in HL.
  cbn [length memcmp_eq]. destruct s as [|d s]; cbn [app head tail has_prefix].
  - erewrite bind_done by done. erewrite bind_done by exact Hrd.
    rewrite (proj2 (Z.eqb_neq _ _)) by done. done.
  - erewrite bind_done by done. erewrite bind_done by exact Hrd.
    rewrite (Z.eqb_sym c d). destruct (d =? c); [|done]. by apply IH.
Qed.

Lemma entry_list_size h o ps its :
  entry_list h o ps its -> (length ps <= size (zentries h))%nat.
Proof.
  intros Hl. assert (NoDup ps) as ND.
  { revert o its Hl. induction ps as [|p ps IH]; intros o [|it its]; try done; [constructor|].
    intros (_ & ? & e & _ & _ & Hl). constructor; [done|by eapply IH]. }
  rewrite <-size_dom, <-(size_list_to_set (C := gset positive) ps) by done.
  apply subseteq_size. intros q Hq%elem_of_list_to_set. apply elem_of_dom. by eapply entry_list_alloc.
Qed.

Lemma lookup_walk name h n o ps its :
  entry_list h o ps its -> Forall (fun it => Forall (fun c => c <> 0) (it_name it)) its ->
  (length ps < n)%nat ->
  exists r,
    loop_fuel n (fun e : option positive =>
      match e with
      | None => mret (inr None)
      | Some entry =>
          e ← get_entry entry;
          same ← memcmp_eq (name ++ [0]) (default 0 (fileName e)) (Z.to_nat (fileNameLength e));
          if (same : bool) then mret (inr (Some entry)) else mret (inl (next e))
      end) o h = (Done r, h) /\
    match List.find (fun it => has_prefix (it_name it) name) its with
    | Some it => exists p, r = Some p /\ shows h p it
    | None => r = None
    end.
Proof.
  revert n o its. induction ps as [|p ps IH]; intros [|n] o [|it its] Hl HN Hlen; try (by cbn in *; lia); try done.
  - cbn in Hl. subst o. exists None. done.
  - apply Forall_cons in HN as [Hnul HN]. destruct Hl as (-> & _ & e & He & Hd & Hl).
    assert (get_entry p h = (Done e, h)) as G by (unfold get_entry, must; by rewrite He).
    destruct (IH n (next e) its Hl HN) as (r & E & Hr); [cbn in Hlen; lia|].
    pose proof Hd as (Hnl & Hname & _).
    cbn [loop_fuel List.find]. rewrite bind_assoc, (bind_done _ _ _ _ _ G), bind_assoc.
    rewrite Hnl, Nat2Z.id. erewrite bind_done by (by apply memcmp_eq_prefix).
    destruct (has_prefix (it_name it) name).
    + exists (Some p). split; [done|]. exists p. split; [done|by eapply describes_shows].
    + exists r. split; [|done]. erewrite bind_done by done. exact E.
Qed.

(** looking up a name in an open archive terminates, changes nothing and
    returns the last entry of the directory whose name is a prefix of the name
    asked for, or NULL when there is none.  (The comparison runs over the
    length of the entry's name only, so a match need not be an equality.) *)
Theorem lookup_finds_prefix stub its text h name :
  archive_ok stub its text -> mem h = archive stub its text -> heap_ok h ->
  Forall (fun it => Forall (fun c => c <> 0) (it_name it)) its ->
  exists f h' r, init_zipfile true 0 (len (mem h)) h = (Done (Some f), h') /\
    lookup_zipentry f name h' = (Done r, h') /\
    match List.find (fun it => has_prefix (it_name it) name) (reverse its) with
    | Some it => exists p, r = Some p /\ shows h' p it
    | None => r = None
    end.
Proof.
  intros Hok Hm Hh HN. destruct (init_zipfile_ok _ _ _ _ Hok Hm Hh) as (f & h' & ps & E & X).
  destruct X as (_ & _ & _ & (z & Hz & _ & Hl) & _).
  destruct (lookup_walk name h' (S (size (zentries h'))) _ _ _ Hl) as (r & Er & Hr).
  - apply Forall_reverse in HN. exact HN.
  - apply entry_list_size in Hl. lia.
  - exists f, h', r. split; [done|]. split; [|done]. unfold lookup_zipentry.
    erewrite bind_done by (unfold get_file, must; rewrite Hz, lookup_insert_eq; reflexivity).
    exact Er.
Qed.

(** ** Release *)

Lemma release_walk n h o ps its :
  entry_list h o ps its -> (length ps < n)%nat ->
  exists h', loop_fuel n (fun e : option positive =>
      match e with
      | None => mret (inr tt)
      | Some entry =>
          e ← get_entry entry;
          free_entry entry;;
          mret (inl (next e))
      end) o h = (Done tt, h') /\
    mem h' = mem h /\ zfiles h' = zfiles h /\
    forall q, zentries h' !! q = if decide (q ∈ ps) then None else zentries h !! q.
Proof.
  revert n h o its. induction ps as [|p ps IH]; intros [|n] h o [|it its] Hl Hlen; try (by cbn in *; lia); try done.
  - cbn in Hl. subst o. by exists h.
  - destruct Hl as (-> & Hnin & e & He & _ & Hl).
    assert (get_entry p h = (Done e, h)) as G by (unfold get_entry, must; by rewrite He).
    set (h1 := {| mem := mem h; zfiles := zfiles h; zentries := delete p (zentries h); fresh := fresh h |}).
    destruct (IH n h1 (next e) its) as (h' & E & Hm & Hf & Hq); [|cbn in Hlen; lia|].
    { eapply entry_list_agree; [| |exact Hl]; [done|]. intros q Hq. cbn.
      rewrite lookup_delete_ne by (intros ->; done). done. }
    exists h'. split_and!; [|done|done|].
    + cbn [loop_fuel]. rewrite bind_assoc, (bind_done _ _ _ _ _ G), bind_assoc.
      erewrite bind_done by (unfold free_entry; rewrite (bind_done _ _ _ _ _ G); reflexivity).
      erewrite bind_done by done. exact E.
    + intros q. rewrite Hq. cbn. destruct (decide (q = p)) as [->|].
      * rewrite lookup_delete_eq, (decide_True (P := p ∈ p :: ps)) by set_solver. by case_decide.
      * rewrite lookup_delete_ne by done. repeat case_decide; set_solver.
Qed.

(** an archive that was opened is released completely: [release_zipfile]
    terminates, never touches a freed structure, and the structures that exist
    afterwards are exactly those that existed before [init_zipfile]. *)
Theorem release_frees_all stub its text h :
  archive_ok stub its text -> mem h = archive stub its text -> heap_ok h ->
  exists f h1 h2, init_zipfile true 0 (len (mem h)) h = (Done (Some f), h1) /\
    release_zipfile f h1 = (Done tt, h2) /\
    mem h2 = mem h /\ zfiles h2 = zfiles h /\ zentries h2 = zentries h.
Proof.
  intros Hok Hm Hh. destruct (init_zipfile_ok _ _ _ _ Hok Hm Hh) as (f & h' & ps & E & X).
  destruct X as (Hf & Hm' & _ & (z & Hz & _ & Hl) & Hs & Hn).
  destruct (release_walk (S (size (zentries h'))) h' _ _ _ Hl) as (h2 & E2 & Hm2 & Hf2 & Hq).
  { apply entry_list_size in Hl. lia. }
  assert (zfiles h' !! f = Some z) as Hz' by (rewrite Hz; apply lookup_insert_eq).
  exists f, h'. eexists. split; [done|]. split.
  - unfold release_zipfile. erewrite bind_done by (unfold get_file, must; by rewrite Hz').
    erewrite bind_done by exact E2. unfold free_file.
    erewrite bind_done by (unfold get_file, must; by rewrite Hf2, Hz'). reflexivity.
  - cbn. rewrite Hf2, Hz, delete_insert_eq, delete_id by done. split_and!; [congruence|done|].
    apply map_eq. intros q. rewrite Hq. case_decide; [by rewrite Hn|by rewrite Hs].
Qed.

(** ** A package, and archives the reader does not expect *)

Definition fresh_heap (m : bytes) : heap := {| mem := m; zfiles := ∅; zentries := ∅; fresh := 1 |}.

Lemma fresh_heap_ok m : heap_ok (fresh_heap m).
Proof. split; intros q [v Hv]; cbn in Hv; by rewrite lookup_empty in Hv. Qed.

Definition plain (name : bytes) (method usize : Z) (body : bytes) : item :=
  {| it_name := name; it_method := method; it_usize := usize; it_body := body; it_lextra := [0; 0];
     it_cextra := []; it_comment := []; it_version := 20; it_flags := 0; it_time := 0; it_date := 0;
     it_crc := 0; it_attrs := 0 |}.

Definition package : list item :=
  [plain (str "AndroidManifest.xml") STORED 4 (str "<m/>");
   plain (str "classes.dex") DEFLATED 100 [75; 4; 0]].

(** The end of an archive is checked position by position. *)
Lemma no_later_sig m pos :
  Forall (fun i => ~ sig_at m i) (seqZ (pos + 1) (len m - 4 - pos)) ->
  forall i, pos < i -> ~ sig_at m i.
Proof.
  intros HF i Hi Hs. pose proof (lies_end _ _ _ Hs) as He. rewrite length_le_bytes in He.
  rewrite Forall_forall in HF. apply (HF i); [|done]. apply elem_of_seqZ. lia.
Qed.

Lemma package_ok : archive_ok (str "#!") package (str "signed").
Proof.
  split; [apply (bool_decide_unpack _); vm_compute; reflexivity|vm_compute; reflexivity| |
          vm_compute; reflexivity|vm_compute; discriminate|].
  - unfold package, item_ok. repeat constructor; vm_compute; congruence.
  - apply no_later_sig, (bool_decide_unpack _). vm_compute. reflexivity.
Qed.

Lemma archive_roundtrip_witness :
  exists f h' p1 p2,
    init_zipfile true 0 (len (archive (str "#!") package (str "signed")))
      (fresh_heap (archive (str "#!") package (str "signed"))) = (Done (Some f), h') /\
    iteration h' f None [p2; p1] /\
    get_zipentry_name p1 h' = (Done (str "AndroidManifest.xml" ++ [0]), h').
Proof.
  destruct (archive_roundtrip _ _ _ (fresh_heap (archive (str "#!") package (str "signed")))
              package_ok eq_refl (fresh_heap_ok _)) as (f & h' & ps & E & I & F).
  inversion F as [|p2 i2 ps' ? _ F1]; subst. inversion F1 as [|p1 i1 ps'' ? S1 F2]; subst.
  inversion F2; subst. exists f, h', p1, p2. split; [exact E|]. split; [exact I|]. apply S1.
Defined.

Lemma lookup_finds_prefix_witness :
  exists f h' p,
    init_zipfile true 0 (len (archive (str "#!") package (str "signed")))
      (fresh_heap (archive (str "#!") package (str "signed"))) = (Done (Some f), h') /\
    lookup_zipentry f (str "AndroidManifest.xml") h' = (Done (Some p), h') /\
    get_zipentry_size p h' = (Done 4, h').
Proof.
  destruct (lookup_finds_prefix _ _ _ (fresh_heap (archive (str "#!") package (str "signed")))
              (str "AndroidManifest.xml") package_ok eq_refl (fresh_heap_ok _)) as (f & h' & r & E & L & R).
  - apply (bool_decide_unpack _). vm_compute. reflexivity.
  - change (List.find _ _) with (Some (plain (str "AndroidManifest.xml") STORED 4 (str "<m/>"))) in R.
    destruct R as (p & -> & S). exists f, h', p. split; [exact E|]. split; [exact L|]. apply S.
Defined.

Lemma release_frees_all_witness :
  exists f h1 h2,
    init_zipfile true 0 (len (archive (str "#!") package (str "signed")))
      (fresh_heap (archive (str "#!") package (str "signed"))) = (Done (Some f), h1) /\
    release_zipfile f h1 = (Done tt, h2) /\ zentries h2 = ∅.
Proof.
  destruct (release_frees_all _ _ _ (fresh_heap (archive (str "#!") package (str "signed")))
              package_ok eq_refl (fresh_heap_ok _)) as (f & h1 & h2 & E & R & _ & _ & Z).
  exists f, h1, h2. split; [exact E|]. split; [exact R|exact Z].
Defined.

(** A file of 68 bytes with a valid end record and one directory entry whose
    local header is said to be far outside: the reader follows the offset. *)
Definition far_header : bytes :=
  take 46 (central_part (plain [97] STORED 0 []) 0x0fffffff) ++ eocd 1 47 0 [].

Theorem local_header_unchecked :
  (init_zipfile true 0 68 (fresh_heap far_header)).1 = Stop (Undef "read outside the buffer").
Proof. vm_compute. reflexivity. Qed.

(** The length left is not counted down: when the name of the first entry is
    said to reach past the end, the second is read there. *)
Definition long_name : bytes :=
  local_part (plain [] STORED 0 []) ++
  take 46 (central_part (plain (replicate 1000 97) STORED 0 []) 0) ++ eocd 2 46 32 [].

Theorem directory_read_past_end :
  (init_zipfile true 0 100 (fresh_heap long_name)).1 = Stop (Undef "read outside the buffer").
Proof. vm_compute. reflexivity. Qed.

(** When the second entry is not one, [init_zipfile] returns NULL and the first
    stays allocated without a pointer to it. *)
Definition short_directory : bytes :=
  local_part (plain [97] STORED 0 []) ++ central_part (plain [97] STORED 0 []) 0 ++ eocd 2 47 33 [].

Theorem failed_init_leaks_entries :
  let '(r, h) := init_zipfile true 0 (len short_directory) (fresh_heap short_directory) in
  r = Done None /\ zfiles h = ∅ /\ size (zentries h) = 1%nat.
Proof. vm_compute. done. Qed.

(** A file called [Android] is taken for [AndroidManifest.xml], and so is a file
    without a name. *)
Theorem lookup_accepts_prefix name :
  name ∈ [str "Android"; []] ->
  let m := archive [] [plain name STORED 0 []] [] in
  (f ← init_zipfile true 0 (len m); lookup_zipentry (default 1%positive f) (str "AndroidManifest.xml"))
    (fresh_heap m) = (Done (Some 2%positive), (init_zipfile true 0 (len m) (fresh_heap m)).2).
Proof. intros [-> | [-> | []%elem_of_nil]%elem_of_cons]%elem_of_cons; vm_compute; reflexivity. Qed.

(** The size given for the output does not bound what a stored file writes. *)
Theorem stored_ignores_bufsize :
  let m := archive (str "#!") package (str "signed") in
  (f ← init_zipfile true 0 (len m); e ← lookup_zipentry (default 1%positive f) (str "AndroidManifest.xml");
   decompress_zipentry Z_OK (fun _ _ => (0, [])) (default 1%positive e) 2 2) (fresh_heap m)
  = (Stop (Undef "write after the buffer"), (init_zipfile true 0 (len m) (fresh_heap m)).2).
Proof. vm_compute. reflexivity. Qed.
