(* ===== verification/BipBuffer.v ===== *)
(** * sysdeps_win32.cpp: the buffer of an emulated socket pair

    On Windows a socket pair is two buffers in memory, one per direction.  A
    buffer holds its bytes in two regions of an array, A from [a_start] to
    [a_end] and B from 0 to [b_end].  Readers and writers update it under a lock
    and wait on two events outside it.

    Threads interleave at the points where the lock is not held: before it is
    taken, before a wait and during one.  What the other threads do at these
    points is a list of [turn]s; each operation of another thread runs under
    the lock and is one atomic step [run_op].  A wait returns as soon as its
    event is set, even if the event is reset before the thread runs again, and
    is [Blocked] when no turn is left. *)

From S2P Require Import Prelude Effects.

Module Bip.

Definition BIP_BUFFER_SIZE : Z := 4096.

Record BipBuffer := {
  a_start : Z;
  a_end : Z;
  b_end : Z;
  fdin : Z;
  fdout : Z;
  closed : bool;
  can_write : bool;
  evt_write : bool;
  can_read : bool;
  evt_read : bool;
  buff : bytes;
}.

Abbreviation B := (M BipBuffer).

(** ** Assignments *)

Definition set_regions (s e b : Z) (r : BipBuffer) : BipBuffer :=
  {| a_start := s; a_end := e; b_end := b; fdin := fdin r; fdout := fdout r; closed := closed r;
     can_write := can_write r; evt_write := evt_write r; can_read := can_read r;
     evt_read := evt_read r; buff := buff r |}.

Definition set_buff (l : bytes) (r : BipBuffer) : BipBuffer :=
  {| a_start := a_start r; a_end := a_end r; b_end := b_end r; fdin := fdin r; fdout := fdout r;
     closed := closed r; can_write := can_write r; evt_write := evt_write r;
     can_read := can_read r; evt_read := evt_read r; buff := l |}.

(** [can_write = v] with [SetEvent] or [ResetEvent] of its event. *)
Definition set_write (v : bool) (r : BipBuffer) : BipBuffer :=
  {| a_start := a_start r; a_end := a_end r; b_end := b_end r; fdin := fdin r; fdout := fdout r;
     closed := closed r; can_write := v; evt_write := v; can_read := can_read r;
     evt_read := evt_read r; buff := buff r |}.

Definition set_read (v : bool) (r : BipBuffer) : BipBuffer :=
  {| a_start := a_start r; a_end := a_end r; b_end := b_end r; fdin := fdin r; fdout := fdout r;
     closed := closed r; can_write := can_write r; evt_write := evt_write r; can_read := v;
     evt_read := v; buff := buff r |}.

(** [xs] over the bytes from [off] on. *)
Definition blit (off : nat) (xs l : bytes) : bytes :=
  take off l ++ xs ++ drop (off + length xs) l.

(** [memcpy(buff + off, src, n)] *)
Definition copy_in (off : Z) (src : bytes) (n : Z) : B unit :=
  if (0 <=? off) && (0 <=? n) && (off + n <=? BIP_BUFFER_SIZE) && (n <=? Z.of_nat (length src)) then
    modify (fun r => set_buff (blit (Z.to_nat off) (take (Z.to_nat n) src) (buff r)) r)
  else undef "memcpy outside the buffer".

(** [memcpy(dst, buff + off, n)] *)
Definition copy_out (off n : Z) : B bytes :=
  if (0 <=? off) && (0 <=? n) && (off + n <=? BIP_BUFFER_SIZE) then
    gets (fun r => take (Z.to_nat n) (drop (Z.to_nat off) (buff r)))
  else undef "memcpy outside the buffer".

Definition assert (b : bool) : B unit := if b then skip else abort "assertion failed".

(** ** Operations *)

(** The contents of the array before the first write are arbitrary. *)
Definition bip_buffer_init (garbage : bytes) : BipBuffer :=
  {| a_start := 0; a_end := 0; b_end := 0; fdin := 0; fdout := 0; closed := false;
     can_write := true; evt_write := true; can_read := false; evt_read := false; buff := garbage |}.

Definition bip_buffer_close (r : BipBuffer) : BipBuffer :=
  {| a_start := a_start r; a_end := a_end r; b_end := b_end r; fdin := fdin r; fdout := fdout r;
     closed := true; can_write := can_write r;
     evt_write := if negb (can_write r) then true else evt_write r;
     can_read := can_read r;
     evt_read := if negb (can_read r) then true else evt_read r; buff := buff r |}.

(** [Exit:] of [bip_buffer_write] *)
Definition write_exit (count : Z) : B Z :=
  assert (count >? 0);;
  r ← gets id;
  when (negb (can_read r)) (modify (set_read true));;
  mret count.

(** The second half: what is left goes to region B. *)
Definition write_b (src : bytes) (len count : Z) : B Z :=
  if len =? 0 then write_exit count else
  r ← gets id;
  let avail := a_start r - b_end r in
  assert (avail >? 0);;
  let avail := if avail >? len then len else avail in
  copy_in (b_end r) src avail;;
  modify (set_regions (a_start r) (a_end r) (b_end r + avail));;
  when (b_end r + avail =? a_start r) (modify (set_write false));;
  write_exit (count + avail).

(** [bip_buffer_write] after the wait: the lock is held and [can_write] is set. *)
Definition write_locked (src : bytes) (len : Z) : B Z :=
  r ← gets id;
  let avail := BIP_BUFFER_SIZE - a_end r in
  if avail >? 0 then
    let avail := if avail >? len then len else avail in
    copy_in (a_end r) src avail;;
    modify (set_regions (a_start r) (a_end r + avail) (b_end r));;
    if (a_end r + avail =? BIP_BUFFER_SIZE) && (a_start r =? 0) then
      modify (set_write false);;
      write_exit avail
    else write_b (drop (Z.to_nat avail) src) (len - avail) avail
  else write_b src len 0.

(** [Exit:] of [bip_buffer_read]; the bytes are those at [dst]. *)
Definition read_exit (got : bytes) : B bytes :=
  assert (Z.of_nat (length got) >? 0);;
  r ← gets id;
  when (negb (can_write r)) (modify (set_write true));;
  mret got.

(** [bip_buffer_read] after the wait: the lock is held and [can_read] is set. *)
Definition read_locked (len : Z) : B bytes :=
  r ← gets id;
  let avail := a_end r - a_start r in
  assert (avail >? 0);;
  let avail := if avail >? len then len else avail in
  got ← copy_out (a_start r) avail;
  if a_start r + avail <? a_end r then
    modify (set_regions (a_start r + avail) (a_end r) (b_end r));;
    read_exit got
  else
    modify (set_regions 0 (b_end r) 0);;
    if b_end r >? 0 then
      let avail' := if b_end r >? len - avail then len - avail else b_end r in
      more ← copy_out 0 avail';
      if avail' <? b_end r then
        modify (set_regions avail' (b_end r) 0);;
        read_exit (got ++ more)
      else
        modify (set_regions 0 0 0);;
        modify (set_read false);;
        read_exit (got ++ more)
    else
      modify (set_read false);;
      read_exit got.

(** ** The other threads *)

Inductive bip_op :=
| Write (src : bytes)
| Read (len : Z)
| Close.

(** An operation of a thread that gets the lock and need not wait (one that would
    have to does nothing yet): the count it returns and, for a read, the bytes
    at [dst]. *)
Definition op_code (o : bip_op) : B (Z * bytes) :=
  r ← gets id;
  match o with
  | Write src =>
      if can_write r && (0 <? Z.of_nat (length src)) then
        n ← write_locked src (Z.of_nat (length src));
        mret (n, [])
      else mret (0, [])
  | Read len =>
      if can_read r && (0 <? len) then
        got ← read_locked len;
        mret (Z.of_nat (length got), got)
      else mret (0, [])
  | Close => modify bip_buffer_close;; mret (0, [])
  end.

(** What it leaves of the buffer. *)
Definition run_op (o : bip_op) (r : BipBuffer) : BipBuffer := (op_code o r).2.

(** A sequence of operations, with what each returned. *)
Fixpoint op_codes (l : list bip_op) : B (list (Z * bytes)) :=
  match l with
  | [] => mret []
  | o :: l' => x ← op_code o; xs ← op_codes l'; mret (x :: xs)
  end.

(** What happens while this thread does not run: operations of the others, or
    the failure of the wait it is in. *)
Inductive turn :=
| Ops (l : list bip_op)
| WaitFails.

Record bsys := { bip : BipBuffer; turns : list turn; errno : Z }.

Definition run_ops (l : list bip_op) (r : BipBuffer) : BipBuffer := fold_left (fun r o => run_op o r) l r.

(** Run [l]; was the event [evt] set before, between or after its operations? *)
Fixpoint run_watch (evt : BipBuffer -> bool) (l : list bip_op) (r : BipBuffer) : BipBuffer * bool :=
  match l with
  | [] => (r, evt r)
  | o :: l' => let '(r', seen) := run_watch evt l' (run_op o r) in (r', evt r || seen)
  end.

Definition yield_turn : M bsys unit := modify (fun s =>
  match turns s with
  | Ops l :: ts => {| bip := run_ops l (bip s); turns := ts; errno := errno s |}
  | WaitFails :: ts => {| bip := bip s; turns := ts; errno := errno s |}
  | [] => s
  end).

Definition EnterCriticalSection : M bsys unit := yield_turn.

(** [WaitForSingleObject(evt, INFINITE)]: true for [WAIT_OBJECT_0]. *)
Fixpoint wait_turns (evt : BipBuffer -> bool) (r : BipBuffer) (ts : list turn) (e : Z) : outcome bool * bsys :=
  if evt r then (Done true, {| bip := r; turns := ts; errno := e |}) else
  match ts with
  | [] => (Stop Blocked, {| bip := r; turns := []; errno := e |})
  | WaitFails :: ts' => (Done false, {| bip := r; turns := ts'; errno := e |})
  | Ops l :: ts' =>
      let '(r', seen) := run_watch evt l r in
      if seen then (Done true, {| bip := r'; turns := ts'; errno := e |})
      else wait_turns evt r' ts' e
  end.

Definition WaitForSingleObject (evt : BipBuffer -> bool) : M bsys bool :=
  yield_turn;;
  ((fun s => wait_turns evt (bip s) (turns s) (errno s)) : M bsys bool).

Definition set_errno (e : Z) : M bsys unit :=
  modify (fun s => {| bip := bip s; turns := turns s; errno := e |}).

#[global] Program Instance bsys_bip : Lens bsys BipBuffer := {|
  view := bip;
  put r s := {| bip := r; turns := turns s; errno := errno s |};
|}.
Next Obligation. done. Qed.
Next Obligation. by intros []. Qed.
Next Obligation. done. Qed.

Definition EPIPE : Z := 32.

(** The [while] loop before an operation: [None] when the lock is held and the
    flag [can] is set, [Some] of the value to return otherwise.  A turn is used
    up by every iteration but the last two. *)
Definition wait_for (can evt : BipBuffer -> bool) : M bsys (option Z) := fun s =>
  loop_fuel (S (S (length (turns s)))) (fun _ : unit =>
    r ← gets bip;
    if negb (can r) then
      r ← gets bip;
      if closed r then set_errno EPIPE;; mret (inr (Some (-1))) else
      ok ← WaitForSingleObject evt;
      if negb ok then mret (inr (Some 0)) else
      r ← gets bip;
      if closed r then set_errno EPIPE;; mret (inr (Some (-1))) else
      EnterCriticalSection;;
      mret (inl tt)
    else mret (inr None)) tt s.

Definition bip_buffer_write (src : bytes) (len : Z) : M bsys Z :=
  if len <=? 0 then mret 0 else
  EnterCriticalSection;;
  w ← wait_for can_write evt_write;
  match w with
  | Some ret => mret ret
  | None => zoom (write_locked src len)
  end.

(** The return value and the bytes at [dst]. *)
Definition bip_buffer_read (len : Z) : M bsys (Z * bytes) :=
  if len <=? 0 then mret (0, []) else
  EnterCriticalSection;;
  w ← wait_for can_read evt_read;
  match w with
  | Some ret => mret (ret, [])
  | None =>
      got ← zoom (read_locked len);
      mret (Z.of_nat (length got), got)
  end.

End Bip.
