(* ===== verification/BipSpec.v ===== *)
(** * Properties of the buffer of an emulated socket pair *)

From S2P Require Import Prelude Effects BipBuffer.
Import Bip.

(** ** Segments of an array *)

(** The elements from [i] up to [j]. *)
Definition seg (l : bytes) (i j : Z) : bytes := take (Z.to_nat (j - i)) (drop (Z.to_nat i) l).

Lemma length_seg l i j :
  0 <= i -> j <= Z.of_nat (length l) -> i <= j -> Z.of_nat (length (seg l i j)) = j - i.
Proof. intros. unfold seg. rewrite length_take, length_drop. lia. Qed.

Lemma seg_nil l i j : j <= i -> seg l i j = [].
Proof. intros. unfold seg. by replace (Z.to_nat (j - i)) with 0%nat by lia. Qed.

Lemma seg_app l i j k : 0 <= i -> i <= j <= k -> seg l i j ++ seg l j k = seg l i k.
Proof.
  intros. unfold seg.
  replace (Z.to_nat j) with (Z.to_nat i + Z.to_nat (j - i))%nat by lia.
  rewrite <-drop_drop.
  replace (Z.to_nat (k - i)) with (Z.to_nat (j - i) + Z.to_nat (k - j))%nat by lia.
  by rewrite take_take_drop.
Qed.

Lemma length_blit off xs l :
  (off + length xs <= length l)%nat -> length (blit off xs l) = length l.
Proof. intros. unfold blit. rewrite !length_app, length_take, length_drop. lia. Qed.

Lemma seg_blit_same off xs l n :
  0 <= off -> Z.of_nat (length xs) = n -> off + n <= Z.of_nat (length l) ->
  seg (blit (Z.to_nat off) xs l) off (off + n) = xs.
Proof.
  intros. unfold seg, blit. rewrite drop_app_length' by (rewrite length_take; lia).
  by rewrite take_app_length' by lia.
Qed.

Lemma seg_blit_before off xs l i j :
  0 <= i -> j <= off -> off + Z.of_nat (length xs) <= Z.of_nat (length l) ->
  seg (blit (Z.to_nat off) xs l) i j = seg l i j.
Proof.
  intros. destruct (decide (j <= i)); [by rewrite !seg_nil|].
  unfold seg, blit. rewrite drop_app_le by (rewrite length_take; lia).
  rewrite take_app_le by (rewrite length_drop, length_take; lia).
  rewrite !take_drop_commute, take_take. do 2 f_equal. lia.
Qed.

Lemma seg_blit_after off xs l i j :
  0 <= off -> off + Z.of_nat (length xs) <= i -> i <= Z.of_nat (length l) ->
  seg (blit (Z.to_nat off) xs l) i j = seg l i j.
Proof.
  intros. unfold seg, blit. f_equal.
  rewrite drop_app_ge by (rewrite length_take; lia).
  rewrite drop_app_ge by (rewrite length_take; lia).
  rewrite drop_drop, length_take. f_equal. lia.
Qed.

(** ** The invariant and the bytes a buffer holds *)

Record bip_ok (r : BipBuffer) : Prop := {
  ok_len : Z.of_nat (length (buff r)) = BIP_BUFFER_SIZE;
  ok_b : 0 <= b_end r <= a_start r;
  ok_a : a_start r < a_end r \/ (a_start r = 0 /\ a_end r = 0);
  ok_end : a_end r <= BIP_BUFFER_SIZE;
  ok_wrap : 0 < b_end r -> a_end r = BIP_BUFFER_SIZE;
  ok_read : can_read r = (a_start r <? a_end r);
  ok_write : can_write r = negb ((a_end r =? BIP_BUFFER_SIZE) && (b_end r =? a_start r));
  ok_evt_write : can_write r = true -> evt_write r = true;
  ok_evt_read : can_read r = true -> evt_read r = true;
  ok_evt_write' : evt_write r = true -> can_write r = true \/ closed r = true;
  ok_evt_read' : evt_read r = true -> can_read r = true \/ closed r = true;
}.

(** The bytes not read yet, oldest first. *)
Definition queue (r : BipBuffer) : bytes := seg (buff r) (a_start r) (a_end r) ++ seg (buff r) 0 (b_end r).

Definition room (r : BipBuffer) : Z := BIP_BUFFER_SIZE - Z.of_nat (length (queue r)).

Lemma length_queue r : bip_ok r ->
  Z.of_nat (length (queue r)) = a_end r - a_start r + b_end r.
Proof.
  intros []. unfold queue. rewrite length_app, Nat2Z.inj_add, !length_seg by lia. lia.
Qed.

Lemma room_eq r : bip_ok r ->
  room r = if a_end r =? BIP_BUFFER_SIZE then a_start r - b_end r else BIP_BUFFER_SIZE - a_end r + a_start r.
Proof.
  intros H. unfold room. rewrite length_queue by done. destruct H.
  destruct (Z.eqb_spec (a_end r) BIP_BUFFER_SIZE); [lia|].
  assert (b_end r = 0) by lia. lia.
Qed.

Lemma ok_room r : bip_ok r -> 0 <= room r.
Proof. intros H. rewrite room_eq by done. destruct H. destruct (Z.eqb_spec (a_end r) BIP_BUFFER_SIZE); lia. Qed.

Lemma can_write_room r : bip_ok r -> can_write r = (0 <? room r).
Proof.
  intros H. rewrite room_eq by done. destruct H. rewrite ok_write0.
  destruct (Z.eqb_spec (a_end r) BIP_BUFFER_SIZE), (Z.eqb_spec (b_end r) (a_start r)); cbn;
    symmetry; rewrite ?Z.ltb_lt, ?Z.ltb_ge; lia.
Qed.

Lemma can_read_queue r : bip_ok r -> can_read r = negb (bool_decide (queue r = [])).
Proof.
  intros H. pose proof (length_queue r H) as HL. destruct H. rewrite ok_read0.
  destruct (Z.ltb_spec (a_start r) (a_end r)), (bool_decide_reflect (queue r = [])) as [E|E]; try done.
  - rewrite E in HL. cbn in HL. lia.
  - destruct (queue r); [done|]. cbn in HL. lia.
Qed.

Lemma bip_buffer_init_ok garbage :
  Z.of_nat (length garbage) = BIP_BUFFER_SIZE ->
  bip_ok (bip_buffer_init garbage) /\ queue (bip_buffer_init garbage) = [].
Proof. intros H. split; [|done]. split; cbn; try done; lia || eauto. Qed.

Lemma bip_buffer_close_ok r :
  bip_ok r -> bip_ok (bip_buffer_close r) /\ queue (bip_buffer_close r) = queue r.
Proof.
  intros []. split; [|done].
  split; cbn; try done; [| |by right|by right]; intros E; rewrite E; cbn; auto.
Qed.

(** ** Writing under the lock *)

Lemma copy_in_ok off src n r :
  0 <= off -> 0 <= n <= Z.of_nat (length src) -> off + n <= BIP_BUFFER_SIZE ->
  copy_in off src n r = (Done tt, set_buff (blit (Z.to_nat off) (take (Z.to_nat n) src) (buff r)) r).
Proof. intros. unfold copy_in. rewrite !(proj2 (Z.leb_le _ _)) by lia. done. Qed.

(** [write_exit] marks the buffer as readable. *)
Definition readable (r : BipBuffer) : BipBuffer := if can_read r then r else set_read true r.

Lemma write_exit_ok n r : 0 < n -> write_exit n r = (Done n, readable r).
Proof.
  intros Hn. unfold write_exit, assert, readable. rewrite Z.gtb_ltb, (proj2 (Z.ltb_lt _ _)) by done.
  destruct (can_read r) eqn:E; unfold mbind, M_bind, gets; cbn; by rewrite E.
Qed.

(** The buffer after [n] bytes of [src] have gone to region B. *)
Definition put_b (src : bytes) (n : Z) (r : BipBuffer) : BipBuffer :=
  let r' := set_regions (a_start r) (a_end r) (b_end r + n)
              (set_buff (blit (Z.to_nat (b_end r)) (take (Z.to_nat n) src) (buff r)) r) in
  if b_end r + n =? a_start r then set_write false r' else r'.

Lemma write_b_ok src len count r :
  0 < len <= Z.of_nat (length src) -> 0 <= count ->
  0 <= b_end r < a_start r -> a_start r <= BIP_BUFFER_SIZE ->
  let n := Z.min len (a_start r - b_end r) in
  write_b src len count r = (Done (count + n), readable (put_b src n r)).
Proof.
  intros Hl Hc Hb Ha n. unfold write_b. rewrite (proj2 (Z.eqb_neq _ _)) by lia.
  erewrite bind_done by done. cbn [id]. unfold assert.
  rewrite (Z.gtb_ltb _ 0), (proj2 (Z.ltb_lt 0 _)) by lia. erewrite bind_done by done.
  replace (if a_start r - b_end r >? len then len else a_start r - b_end r) with n
    by (subst n; destruct (Z.gtb_spec (a_start r - b_end r) len); lia).
  erewrite bind_done by (apply copy_in_ok; lia). erewrite bind_done by done.
  unfold put_b. destruct (Z.eqb_spec (b_end r + n) (a_start r)).
  - erewrite bind_done by done. apply write_exit_ok. lia.
  - erewrite bind_done by done. apply write_exit_ok. lia.
Qed.

(** The buffer after [n] bytes of [src] have gone to region A. *)
Definition put_a (src : bytes) (n : Z) (r : BipBuffer) : BipBuffer :=
  set_regions (a_start r) (a_end r + n) (b_end r)
    (set_buff (blit (Z.to_nat (a_end r)) (take (Z.to_nat n) src) (buff r)) r).

Lemma queue_put_a src n r :
  bip_ok r -> 0 <= n <= Z.of_nat (length src) -> a_end r + n <= BIP_BUFFER_SIZE -> b_end r = 0 ->
  queue (put_a src n r) = queue r ++ take (Z.to_nat n) src.
Proof.
  intros [] Hn He Hb. unfold queue, put_a. cbn. rewrite Hb, !(seg_nil _ 0 0), !app_nil_r by lia.
  assert (Z.of_nat (length (take (Z.to_nat n) src)) = n) as HL by (rewrite length_take; lia).
  rewrite <-(seg_app _ _ (a_end r)) by lia. rewrite seg_blit_before by lia.
  rewrite seg_blit_same by lia. done.
Qed.

Lemma queue_put_b src n r :
  Z.of_nat (length (buff r)) = BIP_BUFFER_SIZE -> 0 <= b_end r -> a_start r <= BIP_BUFFER_SIZE ->
  0 <= n <= Z.of_nat (length src) -> b_end r + n <= a_start r ->
  queue (readable (put_b src n r)) = queue r ++ take (Z.to_nat n) src.
Proof.
  intros Hlen Hb Ha Hn He.
  assert (Z.of_nat (length (take (Z.to_nat n) src)) = n) as HL by (rewrite length_take; lia).
  transitivity (seg (blit (Z.to_nat (b_end r)) (take (Z.to_nat n) src) (buff r)) (a_start r) (a_end r) ++
                seg (blit (Z.to_nat (b_end r)) (take (Z.to_nat n) src) (buff r)) 0 (b_end r + n)).
  { unfold queue, readable, put_b. destruct (b_end r + n =? a_start r); cbn; by destruct (can_read r). }
  rewrite seg_blit_after by lia. rewrite <-(seg_app _ 0 (b_end r)) by lia.
  rewrite seg_blit_before by lia. rewrite seg_blit_same by lia.
  unfold queue. by rewrite app_assoc.
Qed.

(** *** The invariant after a write *)

(** What a write may do to the flags, and what keeps the invariant. *)
Record writes_to (r r' : BipBuffer) : Prop := {
  wt_len : length (buff r') = length (buff r);
  wt_closed : closed r' = closed r;
  wt_read : can_read r' = true;
  wt_evt_read : evt_read r' = if can_read r then evt_read r else true;
  wt_evt_write : evt_write r' = if can_write r' then evt_write r else false;
}.

Lemma bip_ok_writes r r' :
  bip_ok r -> can_write r = true -> writes_to r r' ->
  0 <= b_end r' <= a_start r' -> a_start r' < a_end r' <= BIP_BUFFER_SIZE ->
  (0 < b_end r' -> a_end r' = BIP_BUFFER_SIZE) ->
  can_write r' = negb ((a_end r' =? BIP_BUFFER_SIZE) && (b_end r' =? a_start r')) ->
  bip_ok r'.
Proof.
  intros [] Hw [] Hb Ha Hwrap Hcw.
  assert (evt_write r = true) as Ew by auto.
  split; try done; try lia.
  - rewrite wt_read0. symmetry. apply Z.ltb_lt. lia.
  - rewrite wt_evt_write0. by intros ->.
  - intros _. rewrite wt_evt_read0. destruct (can_read r) eqn:E; auto.
  - rewrite wt_evt_write0. destruct (can_write r'); auto.
  - intros _. by left.
Qed.

Lemma writes_to_put_a src n r b :
  bip_ok r -> can_write r = true -> 0 <= n <= Z.of_nat (length src) -> a_end r + n <= BIP_BUFFER_SIZE ->
  writes_to r (readable (if (b : bool) then set_write false (put_a src n r) else put_a src n r)).
Proof.
  intros [] Hw Hn He. assert (evt_write r = true) by auto.
  unfold readable, put_a. destruct b; cbn; destruct (can_read r) eqn:E; split; cbn;
    rewrite ?E, ?Hw; auto; by rewrite length_blit by (rewrite length_take; lia).
Qed.

Lemma writes_to_put_b src n r0 r :
  bip_ok r0 -> can_write r0 = true ->
  length (buff r) = length (buff r0) -> closed r = closed r0 -> can_read r = can_read r0 ->
  evt_read r = evt_read r0 -> can_write r = true -> evt_write r = evt_write r0 ->
  0 <= b_end r -> 0 <= n <= Z.of_nat (length src) -> b_end r + n <= BIP_BUFFER_SIZE ->
  writes_to r0 (readable (put_b src n r)).
Proof.
  intros [] Hw Hl Hc Hr He Hcw Hew Hb Hn Hlt. assert (evt_write r0 = true) by auto.
  unfold readable, put_b. destruct (b_end r + n =? a_start r); cbn; rewrite Hr;
    destruct (can_read r0) eqn:E; split; cbn; rewrite ?Hr, ?E, ?Hcw; auto; try congruence;
    by rewrite length_blit by (rewrite length_take; lia).
Qed.

(** A write takes as many bytes as there is room for, at the end of the queue. *)
Definition write_post (src : bytes) (len : Z) (r r' : BipBuffer) : Prop :=
  let n := Z.min len (room r) in
  write_locked src len r = (Done n, r') /\ 0 < n /\ bip_ok r' /\
  queue r' = queue r ++ take (Z.to_nat n) src /\ closed r' = closed r /\ can_read r' = true.

(** Region A is at the end of the array: the bytes go to region B. *)
Lemma write_full_a src len r :
  bip_ok r -> can_write r = true -> 0 < len <= Z.of_nat (length src) -> a_end r = BIP_BUFFER_SIZE ->
  exists r', write_post src len r r'.
Proof.
  intros Hok Hw Hl Ha. pose proof (room_eq r Hok) as HR. rewrite Ha, Z.eqb_refl in HR.
  pose proof (can_write_room r Hok) as HC. rewrite Hw in HC. symmetry in HC. apply Z.ltb_lt in HC.
  assert (Hok' := Hok). destruct Hok'. set (n := Z.min len (a_start r - b_end r)).
  exists (readable (put_b src n r)).
  assert (writes_to r (readable (put_b src n r))) as W by (apply writes_to_put_b; auto; lia).
  unfold write_post. rewrite HR. fold n. split_and!; [|lia| |apply queue_put_b; lia|apply W..].
  - unfold write_locked. erewrite bind_done by done. cbn [id].
    rewrite (Z.gtb_ltb _ 0), (proj2 (Z.ltb_ge 0 _)) by lia. rewrite write_b_ok by lia. done.
  - eapply bip_ok_writes; [done..| | | |]; unfold readable, put_b;
      destruct (Z.eqb_spec (b_end r + n) (a_start r)); cbn; destruct (can_read r); cbn;
      rewrite ?Ha, ?Hw, ?(proj2 (Z.eqb_eq (b_end r + n) _)), ?(proj2 (Z.eqb_neq (b_end r + n) _)) by done; lia || done.
Qed.

(** The bytes go to region A only: they fit, or nothing can follow it. *)
Lemma write_only_a src len r :
  bip_ok r -> can_write r = true -> 0 < len <= Z.of_nat (length src) ->
  a_end r < BIP_BUFFER_SIZE -> len <= BIP_BUFFER_SIZE - a_end r \/ a_start r = 0 ->
  exists r', write_post src len r r'.
Proof.
  intros Hok Hw Hl Ha Hfit. pose proof (room_eq r Hok) as HR.
  rewrite (proj2 (Z.eqb_neq _ _)) in HR by lia.
  assert (Hok' := Hok). destruct Hok'. assert (b_end r = 0) as Hb by lia.
  set (n := Z.min len (BIP_BUFFER_SIZE - a_end r)).
  set (full := (a_end r + n =? BIP_BUFFER_SIZE) && (a_start r =? 0)).
  set (r' := if full then set_write false (put_a src n r) else put_a src n r).
  assert (writes_to r (readable r')) as W by (subst r'; apply writes_to_put_a; done || lia).
  exists (readable r'). unfold write_post. replace (Z.min len (room r)) with n by lia.
  split_and!; [|lia| | |apply W..].
  - unfold write_locked. erewrite bind_done by done. cbn [id].
    rewrite (Z.gtb_ltb _ 0), (proj2 (Z.ltb_lt 0 _)) by lia.
    replace (if _ >? len then len else _) with n by (destruct (Z.gtb_spec (BIP_BUFFER_SIZE - a_end r) len); lia).
    erewrite bind_done by (apply copy_in_ok; lia). erewrite bind_done by done. subst r'. fold full.
    destruct full eqn:F; [erewrite bind_done by done; apply write_exit_ok; lia|].
    unfold full in F. apply andb_false_iff in F. rewrite !Z.eqb_neq in F.
    unfold write_b. rewrite (proj2 (Z.eqb_eq _ _)) by lia. apply write_exit_ok. lia.
  - eapply bip_ok_writes; [done..| | | |]; unfold r', readable, put_a; destruct full eqn:F; cbn;
      destruct (can_read r); cbn; rewrite ?Hw, ?Hb; try lia; unfold full in F; rewrite ?F, ?(Z.eqb_sym 0); try done; by rewrite F.
  - transitivity (queue (put_a src n r)).
    + unfold r', readable. destruct full; cbn; by destruct (can_read r).
    + apply queue_put_a; done || lia.
Qed.

(** Region A is filled up and the rest goes to region B. *)
Lemma write_wraps src len r :
  bip_ok r -> can_write r = true -> 0 < len <= Z.of_nat (length src) ->
  a_end r < BIP_BUFFER_SIZE -> BIP_BUFFER_SIZE - a_end r < len -> 0 < a_start r ->
  exists r', write_post src len r r'.
Proof.
  intros Hok Hw Hl Ha Hfit Hs. pose proof (room_eq r Hok) as HR.
  rewrite (proj2 (Z.eqb_neq _ _)) in HR by lia.
  assert (Hok' := Hok). destruct Hok'. assert (b_end r = 0) as Hb by lia.
  set (k := BIP_BUFFER_SIZE - a_end r) in *. set (r1 := put_a src k r).
  set (src' := drop (Z.to_nat k) src). set (n := Z.min (len - k) (a_start r)).
  assert (Z.of_nat (length src') = Z.of_nat (length src) - k) as HL by (unfold src'; rewrite length_drop; lia).
  assert (Z.of_nat (length (buff r1)) = BIP_BUFFER_SIZE) as HB1.
  { cbn. rewrite length_blit; [lia|rewrite length_take; lia]. }
  assert (writes_to r (readable (put_b src' n r1))) as W.
  { apply writes_to_put_b; cbn [r1 put_a set_regions set_buff b_end closed can_read evt_read can_write evt_write]; auto; lia. }
  exists (readable (put_b src' n r1)). unfold write_post.
  replace (Z.min len (room r)) with (k + n) by lia.
  split_and!; [|lia| | |apply W..].
  - unfold write_locked. erewrite bind_done by done. cbn [id]. fold k.
    rewrite (Z.gtb_ltb _ 0), (proj2 (Z.ltb_lt 0 _)) by lia.
    replace (if k >? len then len else k) with k by (destruct (Z.gtb_spec k len); lia).
    erewrite bind_done by (apply copy_in_ok; lia). erewrite bind_done by done.
    rewrite (proj2 (Z.eqb_neq (a_start r) 0)), andb_false_r by lia.
    fold src'. fold (put_a src k r). fold r1. rewrite write_b_ok by (cbn; lia). cbn. rewrite Hb.
    by rewrite Z.sub_0_r.
  - eapply bip_ok_writes; [done..| | | |]; unfold readable, put_b, r1, put_a; cbn; rewrite Hb;
      destruct (Z.eqb_spec (0 + n) (a_start r)); cbn; destruct (can_read r); cbn; try lia;
      rewrite ?Hw, (proj2 (Z.eqb_eq (a_end r + k) _)), ?(proj2 (Z.eqb_eq (0 + n) _)), ?(proj2 (Z.eqb_neq (0 + n) _))
        by (done || lia); done.
  - rewrite queue_put_b by (done || cbn; lia). unfold r1. rewrite queue_put_a by (done || lia).
    rewrite <-app_assoc. f_equal. unfold src'. rewrite take_take_drop. f_equal. lia.
Qed.

Lemma write_locked_ok src len r :
  bip_ok r -> can_write r = true -> 0 < len <= Z.of_nat (length src) ->
  exists r', write_post src len r r'.
Proof.
  intros Hok Hw Hl. assert (Hok' := Hok). destruct Hok'.
  destruct (decide (a_end r = BIP_BUFFER_SIZE)); [by apply write_full_a|].
  destruct (decide (len <= BIP_BUFFER_SIZE - a_end r \/ a_start r = 0)); [apply write_only_a; done || lia|].
  apply write_wraps; done || lia.
Qed.

(** ** Reading under the lock *)

Lemma copy_out_ok off n r :
  0 <= off -> 0 <= n -> off + n <= BIP_BUFFER_SIZE -> copy_out off n r = (Done (seg (buff r) off (off + n)), r).
Proof.
  intros. unfold copy_out. rewrite !(proj2 (Z.leb_le _ _)) by lia. cbn. unfold gets, seg.
  by replace (off + n - off) with n by lia.
Qed.

(** [read_exit] marks the buffer as writable. *)
Definition writable (r : BipBuffer) : BipBuffer := if can_write r then r else set_write true r.

Lemma read_exit_ok got r : (0 < length got)%nat -> read_exit got r = (Done got, writable r).
Proof.
  intros Hn. unfold read_exit, assert, writable. rewrite Z.gtb_ltb, (proj2 (Z.ltb_lt _ _)) by lia.
  destruct (can_write r) eqn:E; unfold mbind, M_bind, gets; cbn; by rewrite E.
Qed.

(** A read takes the oldest bytes, as many as are asked for or there are. *)
Definition read_post (len : Z) (r r' : BipBuffer) : Prop :=
  let got := take (Z.to_nat len) (queue r) in
  read_locked len r = (Done got, r') /\ got <> [] /\ bip_ok r' /\
  queue r' = drop (Z.to_nat len) (queue r) /\ closed r' = closed r /\ can_write r' = true.

Lemma bip_ok_reads r r' :
  bip_ok r -> buff r' = buff r -> closed r' = closed r -> can_write r' = true ->
  evt_write r' = (if can_write r then evt_write r else true) ->
  0 <= b_end r' <= a_start r' -> a_start r' < a_end r' \/ (a_start r' = 0 /\ a_end r' = 0) ->
  a_end r' <= BIP_BUFFER_SIZE -> (0 < b_end r' -> a_end r' = BIP_BUFFER_SIZE) ->
  ~ (a_end r' = BIP_BUFFER_SIZE /\ b_end r' = a_start r') ->
  can_read r' = (a_start r' <? a_end r') -> evt_read r' = (if can_read r' then evt_read r else false) ->
  can_read r = true -> bip_ok r'.
Proof.
  intros [] Hb Hc Hw Hew Hbe Ha He Hwrap Hfull Hr Her Hcr.
  assert (evt_read r = true) as Er by auto.
  split; try done; try lia.
  - by rewrite Hb.
  - rewrite Hw. symmetry. apply negb_true_iff, andb_false_iff. rewrite !Z.eqb_neq. lia.
  - intros _. rewrite Hew. destruct (can_write r); auto.
  - rewrite Her. by intros ->.
  - intros _. by left.
  - rewrite Her. destruct (can_read r'); auto.
Qed.

Lemma take_seg l i j n :
  0 <= i -> 0 <= n <= j - i -> j <= Z.of_nat (length l) ->
  take (Z.to_nat n) (seg l i j) = seg l i (i + n) /\ drop (Z.to_nat n) (seg l i j) = seg l (i + n) j.
Proof.
  intros. rewrite <-(seg_app l i (i + n) j) by lia.
  assert (length (seg l i (i + n)) = Z.to_nat n) as HL by (apply Nat2Z.inj; rewrite length_seg; lia).
  by rewrite take_app_length', drop_app_length' by done.
Qed.

(** Only bytes of region A are read. *)
Lemma read_part_a len r :
  bip_ok r -> can_read r = true -> 0 < len < a_end r - a_start r -> exists r', read_post len r r'.
Proof.
  intros Hok Hr Hl. assert (Hok' := Hok). destruct Hok'.
  assert (Z.of_nat (length (seg (buff r) (a_start r) (a_end r))) = a_end r - a_start r) as HA
    by (apply length_seg; lia).
  destruct (take_seg (buff r) (a_start r) (a_end r) len) as [HT HD]; [lia..|].
  set (r1 := set_regions (a_start r + len) (a_end r) (b_end r) r).
  assert (take (Z.to_nat len) (queue r) = seg (buff r) (a_start r) (a_start r + len)) as ET
    by (unfold queue; by rewrite take_app_le by lia).
  assert (0 < length (seg (buff r) (a_start r) (a_start r + len)))%nat as HL
    by (apply Nat2Z.inj_lt; rewrite length_seg; lia).
  exists (writable r1). unfold read_post. rewrite ET. split_and!.
  - unfold read_locked. erewrite bind_done by done. cbn [id]. unfold assert.
    rewrite (Z.gtb_ltb (a_end r - _) 0), (proj2 (Z.ltb_lt 0 (a_end r - _))) by lia. erewrite bind_done by done.
    replace (if _ >? len then len else _) with len by (destruct (Z.gtb_spec (a_end r - a_start r) len); lia).
    erewrite bind_done by (apply copy_out_ok; lia). rewrite (proj2 (Z.ltb_lt _ _)) by lia.
    erewrite bind_done by done. by apply read_exit_ok.
  - intros E. rewrite E in HL. cbn in HL. lia.
  - eapply bip_ok_reads; [done|..]; unfold writable, r1; cbn; destruct (can_write r) eqn:E; cbn; rewrite ?E, ?Hr; try done; try lia;
      symmetry; apply Z.ltb_lt; lia.
  - transitivity (queue r1); [by unfold writable; destruct (can_write r1)|].
    unfold queue. cbn. rewrite drop_app_le by lia. by rewrite HD.
  - unfold writable. cbn. by destruct (can_write r).
  - unfold writable. by destruct (can_write r1) eqn:E.
Qed.

(** Region A is read to its end and region B takes its place; [k] bytes of it
    are read as well. *)
Lemma read_past_a len r :
  bip_ok r -> can_read r = true -> 0 < len -> a_end r - a_start r <= len -> exists r', read_post len r r'.
Proof.
  intros Hok Hr Hpos Hl. assert (Hok' := Hok). destruct Hok'.
  assert (a_start r < a_end r) as Hlt by (rewrite ok_read0 in Hr; by apply Z.ltb_lt).
  assert (Z.of_nat (length (seg (buff r) (a_start r) (a_end r))) = a_end r - a_start r) as HA
    by (apply length_seg; lia).
  set (avail := a_end r - a_start r) in *. set (k := Z.min (len - avail) (b_end r)).
  destruct (take_seg (buff r) 0 (b_end r) k) as [HT HD]; [lia..|].
  set (r1 := if k <? b_end r then set_regions k (b_end r) 0 r else set_read false (set_regions 0 0 0 r)).
  assert (length (seg (buff r) 0 (b_end r)) = Z.to_nat (b_end r)) as HB
    by (apply Nat2Z.inj; rewrite length_seg; lia).
  assert (take (Z.to_nat len) (queue r) = seg (buff r) (a_start r) (a_end r) ++ seg (buff r) 0 (0 + k)) as ET.
  { unfold queue. rewrite take_app_ge by lia. rewrite <-HT. f_equal.
    destruct (decide (len - avail <= b_end r)); [f_equal; lia|]. rewrite !take_ge; [done|lia..]. }
  exists (writable r1). unfold read_post. rewrite ET. split_and!.
  - unfold read_locked. erewrite bind_done by done. cbn [id]. unfold assert. fold avail.
    rewrite (Z.gtb_ltb avail 0), (proj2 (Z.ltb_lt 0 avail)) by lia. erewrite bind_done by done.
    replace (if avail >? len then len else _) with avail by (destruct (Z.gtb_spec avail len); lia).
    erewrite bind_done by (apply copy_out_ok; lia). rewrite (proj2 (Z.ltb_ge _ _)) by lia.
    erewrite bind_done by done. replace (a_start r + avail) with (a_end r) by lia.
    unfold r1. destruct (Z.gtb_spec (b_end r) 0) as [Hb|Hb].
    + replace (if b_end r >? len - avail then _ else _) with k
        by (destruct (Z.gtb_spec (b_end r) (len - avail)); lia).
      erewrite bind_done by (apply copy_out_ok; lia).
      destruct (k <? b_end r); [|erewrite bind_done by done]; (erewrite bind_done by done);
        apply read_exit_ok; rewrite length_app; lia.
    + rewrite (proj2 (Z.ltb_ge k _)) by lia. erewrite bind_done by done.
      replace (b_end r) with 0 by lia. rewrite (seg_nil _ 0), app_nil_r by lia. apply read_exit_ok. lia.
  - intros E. apply (f_equal length) in E. rewrite length_app in E. cbn in E. lia.
  - eapply bip_ok_reads; [done|..]; unfold writable, r1; destruct (Z.ltb_spec k (b_end r)); cbn;
      destruct (can_write r) eqn:E; cbn; rewrite ?E, ?Hr; try done; try lia; symmetry; apply Z.ltb_lt; lia.
  - transitivity (queue r1); [by unfold writable; destruct (can_write r1)|].
    unfold queue, r1. rewrite drop_app_ge by lia.
    destruct (Z.ltb_spec k (b_end r)); cbn; rewrite ?(seg_nil (buff r) 0 0), ?app_nil_r by lia.
    + rewrite Z.add_0_l in HD. rewrite <-HD. f_equal. lia.
    + by rewrite drop_ge by lia.
  - unfold writable, r1. destruct (k <? b_end r); cbn; by destruct (can_write r).
  - unfold writable. by destruct (can_write r1) eqn:E.
Qed.

Lemma read_locked_ok len r :
  bip_ok r -> can_read r = true -> 0 < len -> exists r', read_post len r r'.
Proof.
  intros. destruct (decide (len < a_end r - a_start r)); [apply read_part_a|apply read_past_a]; done || lia.
Qed.

(** ** The abstract queue and the refinement *)

(** A bounded queue of bytes that can be closed; closing stops nothing by itself. *)
Definition spec_op (o : bip_op) (q : bytes * bool) : bytes * bool :=
  match o with
  | Write src => (q.1 ++ take (Z.to_nat (BIP_BUFFER_SIZE - Z.of_nat (length q.1))) src, q.2)
  | Read len => (drop (Z.to_nat len) q.1, q.2)
  | Close => (q.1, true)
  end.

Definition abs (r : BipBuffer) : bytes * bool := (queue r, closed r).

(** What the operation returns: how many bytes it took or gave, and those it
    gave. *)
Definition spec_result (o : bip_op) (q : bytes * bool) : Z * bytes :=
  match o with
  | Write src => (Z.min (Z.of_nat (length src)) (BIP_BUFFER_SIZE - Z.of_nat (length q.1)), [])
  | Read len => let got := take (Z.to_nat len) q.1 in (Z.of_nat (length got), got)
  | Close => (0, [])
  end.

Lemma op_code_write src r : bip_ok r ->
  exists r', op_code (Write src) r = (Done (spec_result (Write src) (abs r)), r') /\ bip_ok r' /\ abs r' = spec_op (Write src) (abs r).
Proof.
  intros Hok. unfold op_code. rewrite (bind_done (gets id) _ r r r) by done. unfold abs. cbn [spec_result spec_op fst snd].
  pose proof (ok_room r Hok) as Hroom. rewrite (can_write_room r Hok). destruct (Z.ltb_spec 0 (room r)) as [Hr|Hr]; cbn [andb].
  - destruct (Z.ltb_spec 0 (Z.of_nat (length src))).
    + destruct (write_locked_ok src (Z.of_nat (length src)) r) as (r' & E & _ & Hok' & Hq & Hc & _);
        [done|rewrite can_write_room by done; by apply Z.ltb_lt|lia|].
      exists r'. rewrite (bind_done _ _ _ _ _ E). split; [done|]. split; [done|]. rewrite Hq, Hc. do 2 f_equal. fold (room r).
      destruct (decide (Z.of_nat (length src) <= room r)); [|f_equal; lia]. rewrite !take_ge; [done|lia..].
    + destruct src; [|done]. exists r. rewrite take_nil, app_nil_r. split; [|done]. unfold room in *. by rewrite Z.min_l by (cbn; lia).
  - exists r. unfold room in *. split; [by rewrite Z.min_r by lia; replace (_ - _) with 0 by lia|]. split; [done|]. replace (Z.to_nat _) with 0%nat by lia. by rewrite app_nil_r.
Qed.

Lemma op_code_read len r : bip_ok r ->
  exists r', op_code (Read len) r = (Done (spec_result (Read len) (abs r)), r') /\ bip_ok r' /\ abs r' = spec_op (Read len) (abs r).
Proof.
  intros Hok. unfold op_code. rewrite (bind_done (gets id) _ r r r) by done. unfold abs. cbn [spec_result spec_op fst snd].
  destruct (can_read r && (0 <? len)) eqn:E.
  - apply andb_true_iff in E as [Hr Hl]. apply Z.ltb_lt in Hl.
    destruct (read_locked_ok len r) as (r' & E & _ & Hok' & Hq & Hc & _); [done..|].
    exists r'. rewrite (bind_done _ _ _ _ _ E). by rewrite Hq, Hc.
  - exists r. assert (H : take (Z.to_nat len) (queue r) = [] /\ drop (Z.to_nat len) (queue r) = queue r).
    { apply andb_false_iff in E as [E|E].
      - rewrite can_read_queue in E by done. apply negb_false_iff, bool_decide_eq_true in E. by rewrite E, take_nil, drop_nil.
      - apply Z.ltb_ge in E. by replace (Z.to_nat len) with 0%nat by lia. }
    destruct H as [-> ->]. done.
Qed.

(** Every operation returns what the queue returns and leaves what it leaves. *)
Lemma op_code_ok o r : bip_ok r ->
  exists r', op_code o r = (Done (spec_result o (abs r)), r') /\ bip_ok r' /\ abs r' = spec_op o (abs r).
Proof.
  destruct o as [src|len|]; [apply op_code_write|apply op_code_read|]. intros Hok. exists (bip_buffer_close r). split; [done|].
  destruct (bip_buffer_close_ok r Hok) as [? Hq]. split; [done|]. unfold abs. by rewrite Hq.
Qed.

Lemma run_op_refines o r : bip_ok r -> bip_ok (run_op o r) /\ abs (run_op o r) = spec_op o (abs r).
Proof. intros Hok. destruct (op_code_ok o r Hok) as (r' & E & H). unfold run_op. by rewrite E. Qed.

(** The state an operation leaves, without what it returns. *)
Lemma run_op_eq o r : run_op o r =
  match o with
  | Write src =>
      if can_write r && (0 <? Z.of_nat (length src)) then (write_locked src (Z.of_nat (length src)) r).2 else r
  | Read len => if can_read r && (0 <? len) then (read_locked len r).2 else r
  | Close => bip_buffer_close r
  end.
Proof.
  unfold run_op, op_code. rewrite (bind_done (gets id) _ r r r) by done. destruct o as [src|len|]; [| |done]; destruct (_ && _); try done;
    unfold mbind, M_bind; [destruct (write_locked _ _ r) as [[]]|destruct (read_locked _ r) as [[]]]; done.
Qed.

Lemma run_ops_app l l' r : run_ops (l ++ l') r = run_ops l' (run_ops l r).
Proof. unfold run_ops. by rewrite fold_left_app. Qed.

Lemma run_ops_refines l r :
  bip_ok r -> bip_ok (run_ops l r) /\ abs (run_ops l r) = fold_left (fun q o => spec_op o q) l (abs r).
Proof.
  revert r. induction l as [|o l IH]; intros r Hok; [done|]. cbn.
  destruct (run_op_refines o r Hok) as [Hok' <-]. by apply IH.
Qed.

(** The abstract queue run on a sequence of operations. *)
Fixpoint spec_codes (l : list bip_op) (q : bytes * bool) : list (Z * bytes) * (bytes * bool) :=
  match l with
  | [] => ([], q)
  | o :: l' => let '(xs, q') := spec_codes l' (spec_op o q) in (spec_result o q :: xs, q')
  end.

(** The bytes the writers got rid of, by the counts they were given, and the
    bytes the readers were given. *)
Definition put_in (o : bip_op) (x : Z * bytes) : bytes :=
  match o with Write src => take (Z.to_nat x.1) src | _ => [] end.

Definition all_put_in (l : list bip_op) (xs : list (Z * bytes)) : bytes := concat (zip_with put_in l xs).

Definition all_got (xs : list (Z * bytes)) : bytes := xs ≫= snd.

Lemma op_codes_ok l r : bip_ok r ->
  exists r', op_codes l r = (Done (spec_codes l (abs r)).1, r') /\ bip_ok r' /\ abs r' = (spec_codes l (abs r)).2.
Proof.
  revert r. induction l as [|o l IH]; intros r Hok; [by exists r|]. cbn [op_codes spec_codes].
  destruct (op_code_ok o r Hok) as (r1 & E & Hok1 & Ha). rewrite (bind_done _ _ _ _ _ E), <- Ha.
  destruct (IH r1 Hok1) as (r2 & E2 & Hok2 & Ha2). exists r2. rewrite (bind_done _ _ _ _ _ E2).
  by destruct (spec_codes l (abs r1)).
Qed.

Lemma spec_conserves l q :
  (length q.1 <= Z.to_nat BIP_BUFFER_SIZE)%nat ->
  all_got (spec_codes l q).1 ++ (spec_codes l q).2.1 = q.1 ++ all_put_in l (spec_codes l q).1.
Proof.
  revert q. induction l as [|o l IH]; intros q Hq; cbn [spec_codes]; [by rewrite app_nil_r|].
  assert (Hq' : (length (spec_op o q).1 <= Z.to_nat BIP_BUFFER_SIZE)%nat).
  { destruct o; cbn [spec_op fst]; rewrite ?length_app, ?length_take, ?length_drop; unfold BIP_BUFFER_SIZE in *; lia. }
  specialize (IH _ Hq'). destruct (spec_codes l (spec_op o q)) as [xs q'] eqn:E. cbn [fst snd] in *.
  unfold all_got, all_put_in in *. cbn [mbind list_bind zip_with concat]. rewrite <- app_assoc, IH, !app_assoc. f_equal.
  destruct o as [src|len|]; cbn [spec_op spec_result put_in fst snd]; rewrite ?app_nil_r; try done; [|by rewrite take_drop].
  cbn [app]. f_equal. destruct (decide (Z.of_nat (length src) <= BIP_BUFFER_SIZE - Z.of_nat (length q.1)));
    [rewrite !take_ge; [done|lia..]|f_equal; lia].
Qed.

(** C18: the two-region buffer of a socket pair implements a bounded FIFO queue
    of 4096 bytes.  Any sequence of reads, writes and closes, by any number of
    threads that take the lock in turn and need not wait, runs without a failed
    assertion or an access outside the array; every write returns the count and
    every read the count and the bytes that the abstract queue gives; the
    buffer keeps its invariant and its contents are those of the queue.  So
    what the readers were given, followed by what is still in the buffer, is
    what the writers were told they had written: no byte is lost, repeated or
    reordered across the wrap of the regions. *)
Theorem bip_refines_queue garbage l :
  Z.of_nat (length garbage) = BIP_BUFFER_SIZE ->
  exists xs r, op_codes l (bip_buffer_init garbage) = (Done xs, r) /\
    bip_ok r /\ (xs, abs r) = spec_codes l ([], false) /\
    all_got xs ++ queue r = all_put_in l xs.
Proof.
  intros Hg. destruct (bip_buffer_init_ok garbage Hg) as [Hok Hq].
  assert (Ha : abs (bip_buffer_init garbage) = ([], false)) by (unfold abs; by rewrite Hq).
  destruct (op_codes_ok l _ Hok) as (r & E & Hok' & Hr). rewrite Ha in *. exists (spec_codes l ([], false)).1, r.
  split; [done|]. split; [done|]. split; [rewrite Hr; by destruct (spec_codes _ _)|].
  pose proof (spec_conserves l ([], false) ltac:(cbn; lia)) as C. by rewrite <- Hr in C.
Qed.

(** 3000 bytes in, 2500 out, and a read across the wrap. *)
Lemma bip_refines_queue_witness :
  let ops := [Write (replicate 3000 1); Read 2500; Write (replicate 2500 2); Read 1000; Close; Read 3000] in
  exists xs r, op_codes ops (bip_buffer_init (replicate 4096 0)) = (Done xs, r) /\
    bip_ok r /\ (xs, abs r) = spec_codes ops ([], false) /\ all_got xs ++ queue r = all_put_in ops xs.
Proof. intros ops. apply (bip_refines_queue (replicate 4096 0) ops). by vm_compute. Defined.

(** ** Waiting *)

Definition turn_ops (ts : list turn) : list bip_op :=
  ts ≫= fun t => match t with Ops l => l | WaitFails => [] end.

(** [s'] follows [s]: the turns in between have run, and nothing else. *)
Definition reached (s s' : bsys) : Prop :=
  exists ts, turns s = ts ++ turns s' /\ bip s' = run_ops (turn_ops ts) (bip s).

Lemma reached_refl s : reached s s.
Proof. by exists []. Qed.

Lemma reached_trans s1 s2 s3 : reached s1 s2 -> reached s2 s3 -> reached s1 s3.
Proof.
  intros (t1 & E1 & B1) (t2 & E2 & B2). exists (t1 ++ t2). split; [by rewrite E1, E2, app_assoc|].
  unfold turn_ops. by rewrite bind_app, run_ops_app, B2, B1.
Qed.

Lemma reached_ok s s' : bip_ok (bip s) -> reached s s' -> bip_ok (bip s').
Proof. intros Hok (ts & _ & ->). by apply run_ops_refines. Qed.

Lemma reached_turns s s' : reached s s' -> (length (turns s') <= length (turns s))%nat.
Proof. intros (ts & -> & _). rewrite length_app. lia. Qed.

Lemma yield_turn_ok s :
  exists s', yield_turn s = (Done tt, s') /\ reached s s' /\ errno s' = errno s /\
             (turns s <> [] -> (length (turns s') < length (turns s))%nat).
Proof.
  unfold yield_turn, modify. eexists. split; [done|].
  destruct s as [r [|[l|] ts] e]; cbn.
  - split_and!; [apply reached_refl|done..].
  - split_and!; [|done|cbn; lia]. exists [Ops l]. cbn. unfold turn_ops. cbn. by rewrite app_nil_r.
  - split_and!; [|done|cbn; lia]. by exists [WaitFails].
Qed.

Section waiting.
(** A flag of the buffer and its event, and the operations of other threads
    that cannot reset the event. *)
Context (can evt : BipBuffer -> bool) (gentle : bip_op -> Prop).
Context (can_evt : forall r, bip_ok r -> can r = true -> evt r = true).
Context (evt_can : forall r, bip_ok r -> evt r = true -> can r = true \/ closed r = true).
Context (gentle_evt : forall r o, bip_ok r -> gentle o -> evt (run_op o r) = false -> run_op o r = r).

Lemma run_watch_ok l r :
  (run_watch evt l r).1 = run_ops l r /\
  ((run_watch evt l r).2 = false -> evt (run_ops l r) = false).
Proof.
  revert r. induction l as [|o l IH]; intros r; cbn; [done|].
  specialize (IH (run_op o r)). destruct (run_watch evt l (run_op o r)) as [r' b]. cbn in *.
  destruct IH as [E H]. split; [done|]. intros [_ Hb]%orb_false_iff. by apply H.
Qed.

Lemma wait_turns_ok ts : forall r e,
  match wait_turns evt r ts e with
  | (Done ok, s') => reached {| bip := r; turns := ts; errno := e |} s' /\ errno s' = e /\
                     (ok = false -> WaitFails ∈ ts) /\ (ts = [] -> evt (bip s') = true)
  | (Stop x, s') => reached {| bip := r; turns := ts; errno := e |} s' /\ x = Blocked /\
                    turns s' = [] /\ evt (bip s') = false
  end.
Proof.
  induction ts as [|[l|] ts IH]; intros r e; cbn; destruct (evt r) eqn:He.
  - split_and!; [apply reached_refl|done..].
  - split_and!; [apply reached_refl|done..].
  - split_and!; [apply reached_refl|done..].
  - destruct (run_watch_ok l r) as [Er Hs]. destruct (run_watch evt l r) as [r' seen]. cbn in Er. subst r'.
    destruct seen.
    + split_and!; try done. exists [Ops l]. split; [done|]. cbn. unfold turn_ops. cbn. by rewrite app_nil_r.
    + specialize (IH (run_ops l r) e).
      assert (reached {| bip := r; turns := Ops l :: ts; errno := e |}
                      {| bip := run_ops l r; turns := ts; errno := e |}) as R.
      { exists [Ops l]. split; [done|]. cbn. unfold turn_ops. cbn. by rewrite app_nil_r. }
      destruct (wait_turns evt (run_ops l r) ts e) as [[ok|x] s'].
      * destruct IH as (R' & Ee & Hf & _). split_and!; [by eapply reached_trans|done|set_solver|done].
      * destruct IH as (R' & Hr). split; [by eapply reached_trans|done].
  - split_and!; [apply reached_refl|done..].
  - split_and!; [by exists [WaitFails]|done|set_solver|done].
Qed.

(** With gentle neighbours an event that is not set in the end was never set, and
    nothing has happened. *)
Lemma gentle_unchanged l r :
  bip_ok r -> Forall gentle l -> evt (run_ops l r) = false -> run_ops l r = r.
Proof.
  revert r. induction l as [|o l IH] using rev_ind; intros r Hok Hg He; [done|].
  apply Forall_app in Hg as [Hg [Ho _]%Forall_cons]. rewrite run_ops_app in *. cbn in *.
  apply gentle_evt in He as E; [|by apply run_ops_refines|done]. rewrite E in *. by apply IH.
Qed.

(** What the loop before an operation guarantees. *)
Definition wait_post (s : bsys) (w : option Z) (s' : bsys) : Prop :=
  reached s s' /\
  match w with
  | None => can (bip s') = true
  | Some v => (v = -1 /\ closed (bip s') = true /\ errno s' = EPIPE) \/ (v = 0 /\ WaitFails ∈ turns s)
  end.

Definition wait_stuck (s : bsys) (x : stop) (s' : bsys) : Prop :=
  x = Blocked /\ reached s s' /\ turns s' = [] /\ can (bip s') = false /\
  (Forall gentle (turn_ops (turns s)) -> closed (bip s') = false).

Lemma WaitForSingleObject_ok s :
  wp (WaitForSingleObject evt)
    (fun ok s' => reached s s' /\ (ok = false -> WaitFails ∈ turns s) /\
                  (turns s <> [] -> (length (turns s') < length (turns s))%nat) /\
                  (turns s = [] -> evt (bip s') = true))
    (fun x s' => x = Blocked /\ reached s s' /\ turns s' = [] /\ evt (bip s') = false) s.
Proof.
  unfold WaitForSingleObject. destruct (yield_turn_ok s) as (s1 & E & R & _ & Hlt).
  unfold wp. rewrite (bind_done _ _ _ _ _ E). pose proof (wait_turns_ok (turns s1) (bip s1) (errno s1)) as W.
  replace {| bip := bip s1; turns := turns s1; errno := errno s1 |} with s1 in W by (by destruct s1).
  destruct (wait_turns evt (bip s1) (turns s1) (errno s1)) as [[ok|x] s'].
  - destruct W as (R' & _ & Hf & He). split_and!.
    + by eapply reached_trans.
    + intros Hok. apply Hf in Hok. destruct R as (ts & -> & _). set_solver.
    + intros Hne. apply Hlt in Hne. apply reached_turns in R'. lia.
    + intros Hn. apply He. destruct R as (ts & Et & _). rewrite Hn in Et. symmetry in Et. by apply app_nil in Et as [_ ?].
  - destruct W as (R' & -> & Ht & He). split_and!; [done|by eapply reached_trans|done..].
Qed.

Definition wait_body (_ : unit) : M bsys (unit + option Z) :=
  r ← gets bip;
  if negb (can r) then
    r ← gets bip;
    if closed r then set_errno EPIPE;; mret (inr (Some (-1))) else
    ok ← WaitForSingleObject evt;
    if negb ok then mret (inr (Some 0)) else
    r ← gets bip;
    if closed r then set_errno EPIPE;; mret (inr (Some (-1))) else
    EnterCriticalSection;;
    mret (inl tt)
  else mret (inr None).

(** One iteration: it leaves the loop, or has used up a turn. *)
Lemma wait_body_ok s : bip_ok (bip s) ->
  wp (wait_body tt)
    (fun x s' => match x with
                 | inl _ => reached s s' /\ (length (turns s') < length (turns s))%nat
                 | inr w => wait_post s w s'
                 end) (wait_stuck s) s.
Proof.
  intros Hok. unfold wait_body, set_errno. wp_step. wp_step. destruct (can (bip s)) eqn:Hc; cbn [negb].
  { wp_step. split; [apply reached_refl|done]. }
  wp_step. wp_step. destruct (closed (bip s)) eqn:Hcl.
  { do 3 wp_step. split; [by exists []|]. left. done. }
  wp_step. eapply wp_mono; [apply WaitForSingleObject_ok| |].
  - intros ok s1 (R & Hf & Hlt & He). destruct ok; cbn [negb].
    + wp_step. wp_step. destruct (closed (bip s1)) eqn:Hcl1.
      * do 3 wp_step. split; [done|]. left. done.
      * wp_step. unfold EnterCriticalSection. destruct (yield_turn_ok s1) as (s2 & E & R2 & _).
        unfold wp at 1. rewrite E. wp_step. split; [by eapply reached_trans|].
        assert (turns s <> []) as Hne.
        { intros Hn. specialize (He Hn). destruct R as (ts & Et & Eb). rewrite Hn in Et.
          symmetry in Et. apply app_nil in Et as [-> _]. cbn in Eb. rewrite Eb in *.
          apply evt_can in He as [?|?]; [congruence..|done]. }
        apply Hlt in Hne. apply reached_turns in R2. lia.
    + wp_step. split; [done|]. right. auto.
  - intros x s' (-> & R & Ht & He). split_and!; try done.
    + destruct (can (bip s')) eqn:Hc'; [|done]. apply can_evt in Hc'; [congruence|by eapply reached_ok].
    + intros Hg. destruct R as (ts & Et & Eb). rewrite Ht, app_nil_r in Et. subst ts.
      rewrite Eb in He. rewrite Eb, gentle_unchanged; done.
Qed.

Lemma wait_for_ok s : bip_ok (bip s) -> wp (wait_for can evt) (wait_post s) (wait_stuck s) s.
Proof.
  unfold wp, wait_for. fold wait_body.
  assert (length (turns s) < S (S (length (turns s))))%nat as Hm by lia. revert Hm.
  generalize (S (S (length (turns s)))). intros m. revert s.
  induction m as [|m IH]; intros s Hm Hok; [lia|].
  cbn [loop_fuel]. pose proof (wait_body_ok s Hok) as W. unfold wp in W. unfold mbind, M_bind.
  destruct (wait_body tt s) as [[[[]|w]|x] s']; [|done|done]. destruct W as [R Hlt].
  assert (length (turns s') < m)%nat as Hm' by lia. specialize (IH s' Hm' (reached_ok _ _ Hok R)).
  destruct (loop_fuel m wait_body () s') as [[w|x] s2].
  - destruct IH as [R2 H2]. split; [exact (reached_trans _ _ _ R R2)|]. destruct w as [v|]; [|done].
    destruct H2 as [?|[? HF]]; [by left|right]. split; [done|]. destruct R as (ts & -> & _). set_solver.
  - destruct IH as (-> & R2 & Ht & Hc & Hg). split_and!; try done; [exact (reached_trans _ _ _ R R2)|].
    intros HG. apply Hg. destruct R as (ts & Et & _). rewrite Et in HG. unfold turn_ops in *.
    rewrite bind_app in HG. apply Forall_app in HG. apply HG.
Qed.

Lemma enter_wait_ok s :
  bip_ok (bip s) -> wp (EnterCriticalSection;; wait_for can evt) (wait_post s) (wait_stuck s) s.
Proof.
  intros Hok. wp_step. unfold EnterCriticalSection. destruct (yield_turn_ok s) as (s0 & E & R0 & _).
  unfold wp at 1. rewrite E. eapply wp_mono; [apply wait_for_ok; by eapply reached_ok| |].
  - intros w s1 [R1 Hw]. split; [exact (reached_trans _ _ _ R0 R1)|]. destruct w as [v|]; [|done].
    destruct Hw as [?|[? HF]]; [by left|right]. split; [done|]. destruct R0 as (ts & -> & _). set_solver.
  - intros x s1 (-> & R1 & Ht & Hc & Hg). split_and!; try done; [exact (reached_trans _ _ _ R0 R1)|].
    intros HG. apply Hg. destruct R0 as (ts & Et & _). rewrite Et in HG. unfold turn_ops in *.
    rewrite bind_app in HG. apply Forall_app in HG. apply HG.
Qed.
End waiting.

Lemma no_write_gentle r o :
  bip_ok r -> (forall src, o <> Write src) -> evt_write (run_op o r) = false -> run_op o r = r.
Proof.
  intros Hok Ho He. rewrite run_op_eq in *. destruct o as [src|len|]; [by destruct (Ho src)| |]; cbn in *.
  - destruct (can_read r && (0 <? len)) eqn:E; [|done]. exfalso.
    apply andb_true_iff in E as [Hr Hl]. apply Z.ltb_lt in Hl.
    destruct (read_locked_ok len r) as (r' & E & _ & Hok' & _ & _ & Hw); [done..|].
    rewrite E in He. cbn in He. destruct Hok'. rewrite ok_evt_write0 in He; done.
  - exfalso. destruct (can_write r) eqn:E; [|done]. cbn in He. destruct Hok. rewrite ok_evt_write0 in He; done.
Qed.

Lemma no_read_gentle r o :
  bip_ok r -> (forall len, o <> Read len) -> evt_read (run_op o r) = false -> run_op o r = r.
Proof.
  intros Hok Ho He. rewrite run_op_eq in *. destruct o as [src|len|]; [|by destruct (Ho len)|]; cbn in *.
  - destruct (can_write r && (0 <? Z.of_nat (length src))) eqn:E; [|done]. exfalso.
    apply andb_true_iff in E as [Hw Hl]. apply Z.ltb_lt in Hl.
    destruct (write_locked_ok src (Z.of_nat (length src)) r) as (r' & E & _ & Hok' & _ & _ & Hr); [done..|lia|].
    rewrite E in He. cbn in He. destruct Hok'. rewrite ok_evt_read0 in He; done.
  - exfalso. destruct (can_read r) eqn:E; [|done]. cbn in He. destruct Hok. rewrite ok_evt_read0 in He; done.
Qed.

(** a write that has to wait.  Whatever the other threads do while it runs,
    [bip_buffer_write] ends in one of four ways: it appends the bytes there is
    room for, at least one, to the contents as they are at that moment; it
    fails with EPIPE on a closed buffer; it returns 0 because the wait failed;
    or it still waits when the others have stopped, and then the buffer is
    full, and open if nobody else writes: no wake-up is lost. *)
Theorem bip_write_progress src len s :
  bip_ok (bip s) -> 0 < len <= Z.of_nat (length src) ->
  wp (bip_buffer_write src len)
    (fun n s' => bip_ok (bip s') /\ exists s1, reached s s1 /\
       ((0 < n /\ n = Z.min len (room (bip s1)) /\
         abs (bip s') = (queue (bip s1) ++ take (Z.to_nat n) src, closed (bip s1))) \/
        (n = -1 /\ s' = s1 /\ closed (bip s') = true /\ errno s' = EPIPE) \/
        (n = 0 /\ s' = s1 /\ WaitFails ∈ turns s)))
    (fun x s' => x = Blocked /\ bip_ok (bip s') /\ reached s s' /\ turns s' = [] /\
       room (bip s') = 0 /\
       (Forall (fun o => forall src, o <> Write src) (turn_ops (turns s)) -> closed (bip s') = false)) s.
Proof.
  intros Hok Hl. unfold bip_buffer_write. rewrite (proj2 (Z.leb_gt _ _)) by lia.
  apply wp_assoc. wp_step. eapply wp_mono;
    [apply (enter_wait_ok can_write evt_write (fun o => forall src, o <> Write src));
     [by intros r []|by intros r []|apply no_write_gentle|done]| |].
  - intros w s1 [R Hw]. pose proof (reached_ok _ _ Hok R) as Hok1. destruct w as [v|].
    + wp_step. split; [done|]. exists s1. split; [done|]. right.
      destruct Hw as [(-> & ? & ?)|[-> HF]]; [by left|by right].
    + destruct (write_locked_ok src len (bip s1)) as (r' & Ew & Hn & Hok' & Hq & Hc & _); [done..|].
      wp_step. unfold wp. cbn [view bsys_bip]. rewrite Ew. split; [done|]. exists s1. split; [done|]. left.
      unfold abs. cbn. by rewrite Hq, Hc.
  - intros x s' (-> & R & Ht & Hc & Hg). pose proof (reached_ok _ _ Hok R) as Hok1.
    split_and!; [done..| |done]. rewrite can_write_room in Hc by done. apply Z.ltb_ge in Hc.
    pose proof (room_eq _ Hok1). destruct Hok1. destruct (a_end (bip s') =? BIP_BUFFER_SIZE); lia.
Qed.

(** a read that has to wait.  [bip_buffer_read] returns the oldest bytes of
    the contents as they are at that moment, at least one and as many as were
    asked for or are there, and takes exactly these out; it fails with EPIPE
    only on a closed buffer, so what was written before the close can still be
    read; or it still waits when the others have stopped, and then the buffer
    is empty, and open if nobody else reads. *)
Theorem bip_read_progress len s :
  bip_ok (bip s) -> 0 < len ->
  wp (bip_buffer_read len)
    (fun res s' => bip_ok (bip s') /\ exists s1, reached s s1 /\
       ((res = (Z.of_nat (length res.2), take (Z.to_nat len) (queue (bip s1))) /\ res.2 <> [] /\
         abs (bip s') = (drop (Z.to_nat len) (queue (bip s1)), closed (bip s1))) \/
        (res = (-1, []) /\ s' = s1 /\ closed (bip s') = true /\ errno s' = EPIPE) \/
        (res = (0, []) /\ s' = s1 /\ WaitFails ∈ turns s)))
    (fun x s' => x = Blocked /\ bip_ok (bip s') /\ reached s s' /\ turns s' = [] /\
       queue (bip s') = [] /\
       (Forall (fun o => forall n, o <> Read n) (turn_ops (turns s)) -> closed (bip s') = false)) s.
Proof.
  intros Hok Hl. unfold bip_buffer_read. rewrite (proj2 (Z.leb_gt _ _)) by lia.
  apply wp_assoc. wp_step. eapply wp_mono;
    [apply (enter_wait_ok can_read evt_read (fun o => forall n, o <> Read n));
     [by intros r []|by intros r []|apply no_read_gentle|done]| |].
  - intros w s1 [R Hw]. pose proof (reached_ok _ _ Hok R) as Hok1. destruct w as [v|].
    + wp_step. split; [done|]. exists s1. split; [done|]. right.
      destruct Hw as [(-> & ? & ?)|[-> HF]]; [by left|by right].
    + destruct (read_locked_ok len (bip s1)) as (r' & Er & Hn & Hok' & Hq & Hc & _); [done..|].
      wp_step. wp_step. unfold wp at 1. cbn [view bsys_bip]. rewrite Er. wp_step.
      split; [done|]. exists s1. split; [done|]. left. unfold abs. cbn. by rewrite Hq, Hc.
  - intros x s' (-> & R & Ht & Hc & Hg). pose proof (reached_ok _ _ Hok R) as Hok1.
    split_and!; [done..| |done]. rewrite can_read_queue in Hc by done.
    by apply negb_false_iff, bool_decide_eq_true in Hc.
Qed.

(** A writer that finds the buffer full waits for the reader. *)
Definition full_buffer : BipBuffer := run_op (Write (replicate 4096 1)) (bip_buffer_init (replicate 4096 0)).

Lemma full_buffer_ok : bip_ok full_buffer.
Proof. apply run_op_refines, bip_buffer_init_ok. by vm_compute. Qed.

Definition full_state (ts : list turn) : bsys := {| bip := full_buffer; turns := ts; errno := 0 |}.

Lemma full_state_ok ts : bip_ok (bip (full_state ts)).
Proof.
  assert (bip (full_state ts) = full_buffer) as -> by (unfold full_state; cbn [bip]; reflexivity).
  apply full_buffer_ok.
Qed.

Lemma wp_Done_eq {S A} (m : M S A) Q X s a :
  wp m Q X s -> (m s).1 = Done a -> exists s', m s = (Done a, s') /\ Q a s'.
Proof. unfold wp. destruct (m s) as [o s']. cbn. intros H ->. eauto. Qed.

Lemma bip_write_progress_witness :
  exists s', bip_buffer_write [7; 8; 9] 3 (full_state [Ops []; Ops []; Ops [Read 10]]) = (Done 3, s') /\
             bip_ok (bip s').
Proof.
  destruct (wp_Done_eq _ _ _ _ 3
    (bip_write_progress [7; 8; 9] 3 (full_state [Ops []; Ops []; Ops [Read 10]]) (full_state_ok _) ltac:(cbn; lia)))
    as (s' & E & H & _); [vm_compute; reflexivity|].
  exists s'. exact (conj E H).
Defined.

Lemma bip_read_progress_witness :
  exists s', bip_buffer_read 100 (full_state [Ops [Close; Read 4090]]) = (Done (6, replicate 6 1), s') /\
             bip_ok (bip s').
Proof.
  destruct (wp_Done_eq _ _ _ _ (6, replicate 6 1)
    (bip_read_progress 100 (full_state [Ops [Close; Read 4090]]) (full_state_ok _) ltac:(lia)))
    as (s' & E & H & _); [vm_compute; reflexivity|].
  exists s'. exact (conj E H).
Defined.

(** A write to a buffer whose other end is closed succeeds while there is room. *)
Theorem write_after_close_succeeds src :
  0 < Z.of_nat (length src) <= BIP_BUFFER_SIZE ->
  let s := {| bip := bip_buffer_close (bip_buffer_init (replicate 4096 0)); turns := []; errno := 0 |} in
  exists s', bip_buffer_write src (Z.of_nat (length src)) s = (Done (Z.of_nat (length src)), s').
Proof.
  intros H s. destruct (write_locked_ok src (Z.of_nat (length src)) (bip s)) as (r' & E & _).
  - apply bip_buffer_close_ok, bip_buffer_init_ok. by vm_compute.
  - done.
  - lia.
  - eexists. unfold bip_buffer_write. rewrite (proj2 (Z.leb_gt _ _)) by lia.
    assert (EnterCriticalSection s = (Done tt, s)) as E1 by reflexivity.
    assert (wait_for can_write evt_write s = (Done None, s)) as E2 by reflexivity.
    rewrite (bind_done _ _ _ _ _ E1), (bind_done _ _ _ _ _ E2).
    unfold zoom. change (view s) with (bip s). rewrite E.
    replace (Z.min _ _) with (Z.of_nat (length src)); [reflexivity|].
    change (room (bip s)) with BIP_BUFFER_SIZE. lia.
Qed.
