(* ===== verification/Win32.v ===== *)
(** * sysdeps_win32.cpp: descriptors of the Windows build

    On Windows a descriptor is the number of an entry in a table of 128 records
    plus 100.  An entry belongs to one of three classes, files, sockets and
    emulated socket pairs, and every operation goes through the methods of the
    class.  The table, the socket pairs and the calls to Win32 and Winsock are
    modelled here; the buffers of a pair are [Bip].

    The union of a record is one word: a handle, a socket or the address of a
    pair.  Win32 and Winsock answer each call as an arbitrary function of the
    calls before it.  The names kept for messages are left out. *)

From S2P Require Import Prelude Effects BipBuffer.

Module Win32.

(** ** Calls *)

(** What a thread can wait for: a handle of the system, or one of the events of
    a buffer of a socket pair. *)
Inductive handle :=
| Handle (h : Z)
| Pair_event (pair : Z) (a2b read : bool).

#[global] Instance handle_eq_dec : EqDecision handle.
Proof. solve_decision. Defined.

Inductive wcall :=
| CreateFileW (path : list Z) (access disposition : Z)
| ReadFile (h n : Z)
| WriteFile (h : Z) (buf : bytes)
| SetFilePointer (h pos method : Z)
| GetFileSize (h : Z)
| CloseHandle (h : Z)
| GetLastError
| WSAStartup
| WSACreateEvent
| WSAGetLastError
| Recv (s n : Z)
| Send (s : Z) (buf : bytes)
| Shutdown (s : Z)
| Closesocket (s : Z)
| Socket (family type : Z)
| Connect (s family : Z) (addr : bytes) (port : Z)
| Bind (s : Z) (addr : bytes) (port : Z)
| Listen (s backlog : Z)
| Accept (s : Z)
| Setsockopt (s level option : Z)
| Gethostbyname (host : bytes)
| Malloc (size : Z)
| WSAEnumNetworkEvents (s : Z) (h : option handle)
| WSAEventSelect (s : Z) (h : handle) (flags : Z)
| ResetEvent (h : handle)
| CreateEventA
| SetEvent (h : Z)
| Beginthreadex (chunk : Z)
| WaitForMultipleObjects (hs : list handle)
| WaitForSingleObject (h : handle)
| Next_to_finish (threads : list Z).

(** What a call returns: [None] is the failure of [ReadFile], [WriteFile], [recv]
    ([SOCKET_ERROR]), [gethostbyname] and [WSAEnumNetworkEvents], whose success
    is [lNetworkEvents] and [iErrorCode].  [Next_to_finish] is not a call: it says
    which of the waiting threads goes on next. *)
Definition wres (c : wcall) : Type :=
  match c with
  | ReadFile _ _ | Recv _ _ => option bytes
  | WriteFile _ _ => option Z
  | Gethostbyname _ => option (Z * bytes)
  | WSAEnumNetworkEvents _ _ => option (Z * list Z)
  | _ => Z
  end.

(** ** State *)

Inductive FHClass := _fh_file_class | _fh_socket_class | _fh_socketpair_class.

#[global] Instance FHClass_eq_dec : EqDecision FHClass.
Proof. solve_decision. Defined.

(** [clazz] is a pointer, [u] the union. *)
Record FHRec := {
  clazz : option FHClass;
  used : bool;
  eof : bool;
  u : Z;
  event : Z;
  mask : Z;
}.

Record SocketPairRec := {
  a2b_bip : Bip.BipBuffer;
  b2a_bip : Bip.BipBuffer;
  a_fd : option nat;
  pair_used : Z;
}.

(** The table is static and starts as zeros. *)
Record win := {
  _win32_fhs : list FHRec;
  _win32_fh_count : Z;
  _winsock_init : bool;
  pairs : gmap Z SocketPairRec;
  next_pair : Z;
  errno : Z;
  trace : list wcall;
  turns : list Bip.turn;
}.

Abbreviation W := (M win).

Definition WIN32_FH_BASE : Z := 100.

Definition WIN32_MAX_FHS : Z := 128.

Definition empty_fh : FHRec :=
  {| clazz := None; used := false; eof := false; u := 0; event := 0; mask := 0 |}.

Definition EBADF : Z := 9.
Definition EIO : Z := 5.
Definition EINVAL : Z := 22.
Definition ENOENT : Z := 2.
Definition ENOTDIR : Z := 20.
Definition ENOMEM : Z := 12.
Definition ESPIPE : Z := 29.
Definition EPIPE : Z := 32.
Definition EAGAIN : Z := 11.
Definition EINTR : Z := 4.

Definition INVALID_HANDLE_VALUE : Z := -1.

Definition INVALID_SOCKET : Z := -1.

Definition set_fhs (l : list FHRec) (s : win) : win :=
  {| _win32_fhs := l; _win32_fh_count := _win32_fh_count s; _winsock_init := _winsock_init s;
     pairs := pairs s; next_pair := next_pair s; errno := errno s; trace := trace s; turns := turns s |}.

Definition set_count (n : Z) (s : win) : win :=
  {| _win32_fhs := _win32_fhs s; _win32_fh_count := n; _winsock_init := _winsock_init s;
     pairs := pairs s; next_pair := next_pair s; errno := errno s; trace := trace s; turns := turns s |}.

Definition set_pairs (p : gmap Z SocketPairRec) (s : win) : win :=
  {| _win32_fhs := _win32_fhs s; _win32_fh_count := _win32_fh_count s; _winsock_init := _winsock_init s;
     pairs := p; next_pair := next_pair s; errno := errno s; trace := trace s; turns := turns s |}.

Definition set_next_pair (n : Z) (s : win) : win :=
  {| _win32_fhs := _win32_fhs s; _win32_fh_count := _win32_fh_count s; _winsock_init := _winsock_init s;
     pairs := pairs s; next_pair := n; errno := errno s; trace := trace s; turns := turns s |}.

Definition set_win_errno (e : Z) (s : win) : win :=
  {| _win32_fhs := _win32_fhs s; _win32_fh_count := _win32_fh_count s; _winsock_init := _winsock_init s;
     pairs := pairs s; next_pair := next_pair s; errno := e; trace := trace s; turns := turns s |}.

Definition set_winsock (b : bool) (s : win) : win :=
  {| _win32_fhs := _win32_fhs s; _win32_fh_count := _win32_fh_count s; _winsock_init := b;
     pairs := pairs s; next_pair := next_pair s; errno := errno s; trace := trace s; turns := turns s |}.

Definition set_trace (t : list wcall) (s : win) : win :=
  {| _win32_fhs := _win32_fhs s; _win32_fh_count := _win32_fh_count s; _winsock_init := _winsock_init s;
     pairs := pairs s; next_pair := next_pair s; errno := errno s; trace := t; turns := turns s |}.

Definition set_turns (t : list Bip.turn) (s : win) : win :=
  {| _win32_fhs := _win32_fhs s; _win32_fh_count := _win32_fh_count s; _winsock_init := _winsock_init s;
     pairs := pairs s; next_pair := next_pair s; errno := errno s; trace := trace s; turns := t |}.

Definition set_errno (e : Z) : W unit := modify (set_win_errno e).

(** ** Records: a [FH] is an index into the table, NULL is [None] *)

Definition get_fh (f : nat) : W FHRec := must "outside the table" (fun s => _win32_fhs s !! f).

Definition put_fh (f : nat) (g : FHRec -> FHRec) : W unit :=
  r ← get_fh f;
  modify (fun s => set_fhs (<[f := g r]> (_win32_fhs s)) s).

Definition set_u (x : Z) (r : FHRec) : FHRec :=
  {| clazz := clazz r; used := used r; eof := eof r; u := x; event := event r; mask := mask r |}.

Definition set_eof (b : bool) (r : FHRec) : FHRec :=
  {| clazz := clazz r; used := used r; eof := b; u := u r; event := event r; mask := mask r |}.

Definition _fh_from_int (fd : Z) : W (option nat) :=
  let fd := fd - WIN32_FH_BASE in
  n ← gets _win32_fh_count;
  if (fd <? 0) || (fd >=? n) then set_errno EBADF;; mret None else
  f ← get_fh (Z.to_nat fd);
  if negb (used f) then set_errno EBADF;; mret None else mret (Some (Z.to_nat fd)).

Definition _fh_to_int (f : option nat) : W Z :=
  match f with
  | None => mret (-1)
  | Some i =>
      r ← get_fh i;
      if used r && (Z.of_nat i <? WIN32_MAX_FHS) then mret (Z.of_nat i + WIN32_FH_BASE) else mret (-1)
  end.

Section api.
Context (oracle : list wcall -> forall c, wres c).
Context (UTF8_to_Unicode : bytes -> list Z).

Definition call (c : wcall) : W (wres c) := fun s =>
  (Done (oracle (trace s) c), set_trace (trace s ++ [c]) s).

(** ** Class methods *)

Definition _fh_file_init (f : nat) : W unit := put_fh f (set_u INVALID_HANDLE_VALUE).

Definition _fh_file_close (f : nat) : W Z :=
  r ← get_fh f;
  call (CloseHandle (u r));;
  put_fh f (set_u INVALID_HANDLE_VALUE);;
  mret 0.

(** The value returned and the bytes at [buf]; [(DWORD)len] is unsigned. *)
Definition _fh_file_read (f : nat) (len : Z) : W (Z * bytes) :=
  r ← get_fh f;
  d ← call (ReadFile (u r) (u32 len));
  match d with
  | None => set_errno EIO;; mret (-1, [])
  | Some got =>
      when (Z.of_nat (length got) <? u32 len) (put_fh f (set_eof true));;
      mret (s32 (Z.of_nat (length got)), got)
  end.

Definition _fh_file_write (f : nat) (buf : bytes) (len : Z) : W Z :=
  r ← get_fh f;
  d ← call (WriteFile (u r) (take (Z.to_nat (u32 len)) buf));
  match d with
  | None => set_errno EIO;; mret (-1)
  | Some n =>
      when (n <? u32 len) (put_fh f (set_eof true));;
      mret (s32 n)
  end.

Definition SEEK_SET : Z := 0.
Definition SEEK_CUR : Z := 1.
Definition SEEK_END : Z := 2.

Definition INVALID_SET_FILE_POINTER : Z := 2 ^ 32 - 1.

(** [FILE_BEGIN], [FILE_CURRENT] and [FILE_END] are 0, 1 and 2. *)
Definition _fh_file_lseek (f : nat) (pos origin : Z) : W Z :=
  if negb ((origin =? SEEK_SET) || (origin =? SEEK_CUR) || (origin =? SEEK_END)) then
    set_errno EINVAL;; mret (-1)
  else
    r ← get_fh f;
    result ← call (SetFilePointer (u r) pos origin);
    if result =? INVALID_SET_FILE_POINTER then set_errno EIO;; mret (-1) else
    put_fh f (set_eof false);;
    mret (s32 result).

Definition WSAEWOULDBLOCK : Z := 10035.
Definition WSAEINTR : Z := 10004.

Definition _socket_set_errno : W unit :=
  e ← call WSAGetLastError;
  if e =? 0 then set_errno 0
  else if e =? WSAEWOULDBLOCK then set_errno EAGAIN
  else if e =? WSAEINTR then set_errno EINTR
  else set_errno EINVAL.

Definition _fh_socket_init (f : nat) : W unit :=
  e ← call WSACreateEvent;
  put_fh f (fun r => {| clazz := clazz r; used := used r; eof := eof r; u := INVALID_SOCKET;
                        event := e; mask := 0 |}).

Definition _fh_socket_close (f : nat) : W Z :=
  r ← get_fh f;
  call (Shutdown (u r));;
  call (Closesocket (u r));;
  put_fh f (set_u INVALID_SOCKET);;
  call (CloseHandle (event r));;
  put_fh f (fun r => {| clazz := clazz r; used := used r; eof := eof r; u := u r; event := event r;
                        mask := 0 |});;
  mret 0.

Definition _fh_socket_lseek (f : nat) (pos origin : Z) : W Z := set_errno EPIPE;; mret (-1).

Definition _fh_socket_read (f : nat) (len : Z) : W (Z * bytes) :=
  r ← get_fh f;
  d ← call (Recv (u r) len);
  match d with
  | None => _socket_set_errno;; mret (-1, [])
  | Some got => mret (Z.of_nat (length got), got)
  end.

Definition SOCKET_ERROR : Z := -1.

Definition _fh_socket_write (f : nat) (buf : bytes) (len : Z) : W Z :=
  r ← get_fh f;
  result ← call (Send (u r) (take (Z.to_nat len) buf));
  if result =? SOCKET_ERROR then _socket_set_errno;; mret (-1) else mret result.

(** *** Socket pairs *)

Definition _fh_socketpair_init (f : nat) : W unit := put_fh f (set_u 0).

Definition get_pair (p : Z) : W SocketPairRec := must "dangling socket pair" (fun s => pairs s !! p).

Definition put_pair (p : Z) (v : SocketPairRec) : W unit :=
  modify (fun s => set_pairs (<[p := v]> (pairs s)) s).

(** [bip_buffer_done] destroys the events and the lock of a buffer that is freed
    next; they are part of the buffer here. *)
Definition _fh_socketpair_close (f : nat) : W Z :=
  r ← get_fh f;
  if u r =? 0 then mret 0 else
  sp ← get_pair (u r);
  let sp' := {| a2b_bip := Bip.bip_buffer_close (a2b_bip sp);
                b2a_bip := Bip.bip_buffer_close (b2a_bip sp);
                a_fd := if bool_decide (a_fd sp = Some f) then None else a_fd sp;
                pair_used := pair_used sp - 1 |} in
  put_pair (u r) sp';;
  when (pair_used sp' =? 0) (modify (fun s => set_pairs (delete (u r) (pairs s)) s));;
  put_fh f (set_u 0);;
  mret 0.

Definition _fh_socketpair_lseek (f : nat) (pos origin : Z) : W Z := set_errno ESPIPE;; mret (-1).

(** Run a buffer operation on one direction of a pair. *)
Definition on_bip {A} (p : Z) (a2b : bool) (m : M Bip.bsys A) : W A := fun s =>
  match pairs s !! p with
  | None => (Stop (Undef "dangling socket pair"), s)
  | Some sp =>
      let b := if a2b then a2b_bip sp else b2a_bip sp in
      let '(o, t) := m {| Bip.bip := b; Bip.turns := turns s; Bip.errno := errno s |} in
      let sp' :=
        if a2b then {| a2b_bip := Bip.bip t; b2a_bip := b2a_bip sp; a_fd := a_fd sp; pair_used := pair_used sp |}
        else {| a2b_bip := a2b_bip sp; b2a_bip := Bip.bip t; a_fd := a_fd sp; pair_used := pair_used sp |} in
      (o, set_pairs (<[p := sp']> (pairs s)) (set_turns (Bip.turns t) (set_win_errno (Bip.errno t) s)))
  end.

Definition _fh_socketpair_read (f : nat) (len : Z) : W (Z * bytes) :=
  r ← get_fh f;
  if u r =? 0 then mret (-1, []) else
  sp ← get_pair (u r);
  on_bip (u r) (negb (bool_decide (a_fd sp = Some f))) (Bip.bip_buffer_read len).

Definition _fh_socketpair_write (f : nat) (buf : bytes) (len : Z) : W Z :=
  r ← get_fh f;
  if u r =? 0 then mret (-1) else
  sp ← get_pair (u r);
  on_bip (u r) (bool_decide (a_fd sp = Some f)) (Bip.bip_buffer_write buf len).

(** ** Dispatch through [f->clazz] *)

Definition class_of (f : nat) : W FHClass :=
  r ← get_fh f;
  must "null class" (fun _ => clazz r).

Definition class_init (c : FHClass) (f : nat) : W unit :=
  match c with
  | _fh_file_class => _fh_file_init f
  | _fh_socket_class => _fh_socket_init f
  | _fh_socketpair_class => _fh_socketpair_init f
  end.

(** The first entry whose class is NULL. *)
Fixpoint free_slot (l : list FHRec) : option nat :=
  match l with
  | [] => None
  | r :: l' => if bool_decide (clazz r = None) then Some 0%nat else S <$> free_slot l'
  end.

Definition _fh_alloc (c : FHClass) : W (option nat) :=
  n ← gets _win32_fh_count;
  f ← (if n <? WIN32_MAX_FHS then
         modify (set_count (n + 1));;
         mret (Some (Z.to_nat n))
       else gets (fun s => free_slot (_win32_fhs s)));
  match f with
  | None => mret None
  | Some i =>
      put_fh i (fun r => {| clazz := Some c; used := true; eof := false; u := u r; event := event r;
                            mask := mask r |});;
      class_init c i;;
      mret (Some i)
  end.

(** [f->used] of a null pointer is undefined. *)
Definition _fh_close (f : option nat) : W Z :=
  i ← must "null descriptor record" (fun _ => f);
  r ← get_fh i;
  if used r then
    c ← class_of i;
    (match c with
     | _fh_file_class => _fh_file_close i
     | _fh_socket_class => _fh_socket_close i
     | _fh_socketpair_class => _fh_socketpair_close i
     end);;
    put_fh i (fun r => {| clazz := None; used := false; eof := false; u := u r; event := event r;
                          mask := mask r |});;
    mret 0
  else mret 0.

(** ** Descriptors *)

Definition O_RDONLY : Z := 0.
Definition O_WRONLY : Z := 1.
Definition O_RDWR : Z := 2.
Definition GENERIC_READ : Z := 0x80000000.
Definition GENERIC_WRITE : Z := 0x40000000.
Definition OPEN_EXISTING : Z := 3.
Definition CREATE_ALWAYS : Z := 2.
Definition ERROR_FILE_NOT_FOUND : Z := 2.
Definition ERROR_PATH_NOT_FOUND : Z := 3.

(** The [switch (GetLastError())] after a failed [CreateFileW]. *)
Definition create_failed (f : nat) : W Z :=
  _fh_close (Some f);;
  e ← call GetLastError;
  if e =? ERROR_FILE_NOT_FOUND then set_errno ENOENT;; mret (-1)
  else if e =? ERROR_PATH_NOT_FOUND then set_errno ENOTDIR;; mret (-1)
  else set_errno ENOENT;; mret (-1).

Definition adb_open (path : bytes) (options : Z) : W Z :=
  let access :=
    if options =? O_RDONLY then Some GENERIC_READ
    else if options =? O_WRONLY then Some GENERIC_WRITE
    else if options =? O_RDWR then Some (Z.lor GENERIC_READ GENERIC_WRITE)
    else None in
  match access with
  | None => set_errno EINVAL;; mret (-1)
  | Some access =>
      f ← _fh_alloc _fh_file_class;
      match f with
      | None => set_errno ENOMEM;; mret (-1)
      | Some i =>
          h ← call (CreateFileW (UTF8_to_Unicode path) access OPEN_EXISTING);
          put_fh i (set_u h);;
          if h =? INVALID_HANDLE_VALUE then create_failed i else _fh_to_int (Some i)
      end
  end.

(** [wstr.replace(2, 1, L"/")]: the third character becomes a slash; a string of
    fewer than two characters throws. *)
Definition adb_creat (path : bytes) (mode : Z) : W Z :=
  f ← _fh_alloc _fh_file_class;
  match f with
  | None => set_errno ENOMEM;; mret (-1)
  | Some i =>
      let wstr := UTF8_to_Unicode path in
      if (length wstr <? 2)%nat then abort "std::out_of_range" else
      h ← call (CreateFileW (take 2 wstr ++ 47 :: drop 3 wstr) GENERIC_WRITE CREATE_ALWAYS);
      put_fh i (set_u h);;
      if h =? INVALID_HANDLE_VALUE then create_failed i else _fh_to_int (Some i)
  end.

Definition adb_read (fd len : Z) : W (Z * bytes) :=
  f ← _fh_from_int fd;
  match f with
  | None => mret (-1, [])
  | Some i =>
      c ← class_of i;
      match c with
      | _fh_file_class => _fh_file_read i len
      | _fh_socket_class => _fh_socket_read i len
      | _fh_socketpair_class => _fh_socketpair_read i len
      end
  end.

Definition adb_write (fd : Z) (buf : bytes) (len : Z) : W Z :=
  f ← _fh_from_int fd;
  match f with
  | None => mret (-1)
  | Some i =>
      c ← class_of i;
      match c with
      | _fh_file_class => _fh_file_write i buf len
      | _fh_socket_class => _fh_socket_write i buf len
      | _fh_socketpair_class => _fh_socketpair_write i buf len
      end
  end.

Definition adb_lseek (fd pos where_ : Z) : W Z :=
  f ← _fh_from_int fd;
  match f with
  | None => mret (-1)
  | Some i =>
      c ← class_of i;
      match c with
      | _fh_file_class => _fh_file_lseek i pos where_
      | _fh_socket_class => _fh_socket_lseek i pos where_
      | _fh_socketpair_class => _fh_socketpair_lseek i pos where_
      end
  end.

(** The class is not looked at: the word of the union is taken for a socket. *)
Definition adb_shutdown (fd : Z) : W Z :=
  f ← _fh_from_int fd;
  match f with
  | None => mret (-1)
  | Some i =>
      r ← get_fh i;
      call (Shutdown (u r));;
      mret 0
  end.

Definition adb_close (fd : Z) : W Z :=
  f ← _fh_from_int fd;
  match f with
  | None => mret (-1)
  | Some i =>
      _fh_close (Some i);;
      mret 0
  end.

(** [load_file(fn, &sz)]: the bytes of the file without the NUL after them, or NULL. *)
Definition load_file (fn : bytes) : W (option bytes * Z) :=
  file ← call (CreateFileW (UTF8_to_Unicode fn) GENERIC_READ OPEN_EXISTING);
  if file =? INVALID_HANDLE_VALUE then mret (None, 0) else
  size ← call (GetFileSize file);
  r ← (if size >? 0 then
         d ← call (ReadFile file size);
         match d with
         | Some got =>
             if Z.of_nat (length got) >? u32 (size + 1) then undef "write after the buffer" else
             if Z.of_nat (length got) =? size then mret (Some got, size) else mret (None, 0)
         | None => mret (None, 0)
         end
       else mret (None, size));
  call (CloseHandle file);;
  mret r.

(** ** Sockets *)

Definition AF_INET : Z := 2.
Definition SOCK_STREAM : Z := 1.
Definition SOL_SOCKET : Z := 0xffff.
Definition SO_EXCLUSIVEADDRUSE : Z := -5.
Definition IPPROTO_TCP : Z := 6.
Definition TCP_NODELAY : Z := 1.
Definition LISTEN_BACKLOG : Z := 4.
Definition LOOPBACK : bytes := [127; 0; 0; 1].
Definition ANY : bytes := [0; 0; 0; 0].

Definition _init_winsock : W unit :=
  b ← gets _winsock_init;
  if (b : bool) then skip else
  rc ← call WSAStartup;
  (if negb (rc =? 0) then abort "adb: could not initialize Winsock" else skip);;
  modify (set_winsock true).

Definition socket_loopback_client (port type : Z) : W Z :=
  f ← _fh_alloc _fh_socket_class;
  match f with
  | None => mret (-1)
  | Some i =>
      _init_winsock;;
      s ← call (Socket AF_INET type);
      if s =? INVALID_SOCKET then _fh_close (Some i);; mret (-1) else
      put_fh i (set_u s);;
      r ← call (Connect s AF_INET LOOPBACK (u16 port));
      if r <? 0 then _fh_close (Some i);; mret (-1) else
      _fh_to_int (Some i)
  end.

(** After [socket] the two servers do the same. *)
Definition serve (i : nat) (s : Z) (addr : bytes) (port type : Z) : W Z :=
  put_fh i (set_u s);;
  call (Setsockopt s SOL_SOCKET SO_EXCLUSIVEADDRUSE);;
  r ← call (Bind s addr (u16 port));
  if r <? 0 then _fh_close (Some i);; mret (-1) else
  ret ← ((if type =? SOCK_STREAM then call (Listen s LISTEN_BACKLOG) else mret 0) : W Z);
  if ret <? 0 then _fh_close (Some i);; mret (-1) else
  _fh_to_int (Some i).

(** A failure of [socket] returns at once: the record stays taken. *)
Definition socket_loopback_server (port type : Z) : W Z :=
  f ← _fh_alloc _fh_socket_class;
  match f with
  | None => mret (-1)
  | Some i =>
      _init_winsock;;
      s ← call (Socket AF_INET type);
      if s =? INVALID_SOCKET then mret (-1) else serve i s LOOPBACK port type
  end.

Definition socket_network_client (host : bytes) (port type : Z) : W Z :=
  f ← _fh_alloc _fh_socket_class;
  match f with
  | None => mret (-1)
  | Some i =>
      _init_winsock;;
      hp ← call (Gethostbyname host);
      match hp with
      | None => _fh_close (Some i);; mret (-1)
      | Some (h_addrtype, h_addr) =>
          if (12 <? length h_addr)%nat then undef "write after the address" else
          s ← call (Socket h_addrtype type);
          if s =? INVALID_SOCKET then _fh_close (Some i);; mret (-1) else
          put_fh i (set_u s);;
          r ← call (Connect s h_addrtype h_addr (u16 port));
          if r <? 0 then _fh_close (Some i);; mret (-1) else
          _fh_to_int (Some i)
      end
  end.

Definition socket_network_client_timeout (host : bytes) (port type timeout : Z) : W Z :=
  socket_network_client host port type.

Definition socket_inaddr_any_server (port type : Z) : W Z :=
  f ← _fh_alloc _fh_socket_class;
  match f with
  | None => mret (-1)
  | Some i =>
      _init_winsock;;
      s ← call (Socket AF_INET type);
      if s =? INVALID_SOCKET then _fh_close (Some i);; mret (-1) else serve i s ANY port type
  end.

Definition adb_socket_accept (serverfd : Z) : W Z :=
  serverfh ← _fh_from_int serverfd;
  match serverfh with
  | None => mret (-1)
  | Some j =>
      r ← get_fh j;
      if negb (bool_decide (clazz r = Some _fh_socket_class)) then mret (-1) else
      f ← _fh_alloc _fh_socket_class;
      match f with
      | None => mret (-1)
      | Some i =>
          s ← call (Accept (u r));
          put_fh i (set_u s);;
          if s =? INVALID_SOCKET then _fh_close (Some i);; mret (-1) else
          _fh_to_int (Some i)
      end
  end.

Definition disable_tcp_nagle (fd : Z) : W unit :=
  f ← _fh_from_int fd;
  match f with
  | None => skip
  | Some i =>
      r ← get_fh i;
      if negb (bool_decide (clazz r = Some _fh_socket_class)) then skip else
      call (Setsockopt (u r) IPPROTO_TCP TCP_NODELAY);;
      skip
  end.

(** ** Socket pairs *)

Definition set_fds (fdin fdout : Z) (b : Bip.BipBuffer) : Bip.BipBuffer :=
  {| Bip.a_start := Bip.a_start b; Bip.a_end := Bip.a_end b; Bip.b_end := Bip.b_end b;
     Bip.fdin := fdin; Bip.fdout := fdout; Bip.closed := Bip.closed b;
     Bip.can_write := Bip.can_write b; Bip.evt_write := Bip.evt_write b;
     Bip.can_read := Bip.can_read b; Bip.evt_read := Bip.evt_read b; Bip.buff := Bip.buff b |}.

(** The label [Fail]. *)
Definition socketpair_fail (fa fb : option nat) : W (Z * (Z * Z)) :=
  _fh_close fb;;
  _fh_close fa;;
  mret (-1, (0, 0)).

(** [sizeof(SocketPairRec)] with 32-bit pointers. *)
Definition sizeof_SocketPairRec : Z := 2 * (10 * 4 + 24 + Bip.BIP_BUFFER_SIZE) + 8.

(** [malloc] gives a new address, or NULL; [garbage] is what the memory of the two
    arrays holds.  The descriptors are stored in [sv] on success. *)
Definition adb_socketpair (garbage : bytes * bytes) : W (Z * (Z * Z)) :=
  fa ← _fh_alloc _fh_socketpair_class;
  fb ← _fh_alloc _fh_socketpair_class;
  match fa, fb with
  | Some a, Some b =>
      m ← call (Malloc sizeof_SocketPairRec);
      if m =? 0 then socketpair_fail fa fb else
      p ← gets next_pair;
      modify (set_next_pair (p + 1));;
      put_fh a (set_u p);;
      put_fh b (set_u p);;
      sv0 ← _fh_to_int fa;
      sv1 ← _fh_to_int fb;
      put_pair p {| a2b_bip := set_fds sv0 sv1 (Bip.bip_buffer_init garbage.1);
                    b2a_bip := set_fds sv1 sv0 (Bip.bip_buffer_init garbage.2);
                    a_fd := fa; pair_used := 2 |};;
      mret (0, (sv0, sv1))
  | _, _ => socketpair_fail fa fb
  end.

End api.

(** ** [adb_strtok_r]

    [s] is the text from the pointer on, up to its NUL.  The result is the token
    and the text after it ([*last]), [None] for NULL. *)
Fixpoint span_delims (delim s : bytes) : bytes :=
  match s with
  | c :: s' => if bool_decide (c ∈ delim) then span_delims delim s' else s
  | [] => []
  end.

Fixpoint scan_token (delim s : bytes) : bytes * option bytes :=
  match s with
  | [] => ([], None)
  | c :: s' =>
      if bool_decide (c ∈ delim) then ([], Some s')
      else let '(t, last) := scan_token delim s' in (c :: t, last)
  end.

Definition adb_strtok_r (s : option bytes) (delim : bytes) (last : option bytes) : option bytes * option bytes :=
  match (match s with Some s => Some s | None => last end) with
  | None => (None, last)
  | Some s =>
      match span_delims delim s with
      | [] => (None, None)
      | s' => let '(tok, last) := scan_token delim s' in (Some tok, last)
      end
  end.

End Win32.
