(* ===== verification/Win32Spec.v ===== *)
(** * Properties of the descriptors of the Windows build *)

From S2P Require Import Prelude Effects BipBuffer BipSpec Win32.
Import Win32.

(** ** The invariant *)

(** The record is one end of the pair at [p]. *)
Definition holds_pair (p : Z) (r : FHRec) : Prop := clazz r = Some _fh_socketpair_class /\ u r = p.

#[global] Instance holds_pair_dec p r : Decision (holds_pair p r).
Proof. unfold holds_pair. apply _. Defined.

Definition holders (p : Z) (l : list FHRec) : Z := Z.of_nat (length (filter (holds_pair p) l)).

Record fh_ok (ps : gmap Z SocketPairRec) (r : FHRec) : Prop := {
  fk_used : used r = bool_decide (clazz r <> None);
  fk_pair : clazz r = Some _fh_socketpair_class -> u r <> 0 -> is_Some (ps !! u r);
}.

Record pair_ok (p : Z) (l : list FHRec) (next : Z) (sp : SocketPairRec) : Prop := {
  pk_addr : 0 < p < next;
  pk_a2b : bip_ok (a2b_bip sp);
  pk_b2a : bip_ok (b2a_bip sp);
  pk_used : pair_used sp = holders p l;
  pk_alive : 0 < pair_used sp;
}.

(** Every entry in use has a class, every end of a pair leads to an allocated
    pair, and every pair counts exactly the entries that lead to it. *)
Record win_ok (s : win) : Prop := {
  wk_len : Z.of_nat (length (_win32_fhs s)) = WIN32_MAX_FHS;
  wk_count : 0 <= _win32_fh_count s <= WIN32_MAX_FHS;
  wk_above : forall i r, _win32_fh_count s <= Z.of_nat i -> _win32_fhs s !! i = Some r -> clazz r = None;
  wk_fhs : Forall (fh_ok (pairs s)) (_win32_fhs s);
  wk_pairs : map_Forall (fun p sp => pair_ok p (_win32_fhs s) (next_pair s) sp) (pairs s);
  wk_next : 0 < next_pair s;
}.

Lemma fh_ok_at s i r : win_ok s -> _win32_fhs s !! i = Some r -> fh_ok (pairs s) r.
Proof. intros Hok Hr. eapply Forall_lookup_1; [apply Hok|done]. Qed.

(** The entries an update adds and takes away. *)
Lemma holders_insert p l i r r' :
  l !! i = Some r ->
  holders p (<[i := r']> l) =
  holders p l - (if decide (holds_pair p r) then 1 else 0) + (if decide (holds_pair p r') then 1 else 0).
Proof.
  intros Hr. unfold holders. apply lookup_lt_Some in Hr as Hlt.
  rewrite <-(take_drop_middle l i r) at 2 by done. rewrite insert_take_drop by done.
  rewrite !filter_app, !length_app, !filter_cons. repeat case_decide; cbn; lia.
Qed.

(** An entry may change as long as the pair it leads to keeps it; an end with a
    null pair counts for none. *)
Lemma win_ok_update s i r r' n :
  win_ok s -> _win32_fhs s !! i = Some r ->
  used r' = bool_decide (clazz r' <> None) ->
  (clazz r' = Some _fh_socketpair_class -> u r' = 0 \/ (clazz r = Some _fh_socketpair_class /\ u r' = u r)) ->
  (clazz r = Some _fh_socketpair_class -> u r <> 0 -> clazz r' = Some _fh_socketpair_class /\ u r' = u r) ->
  _win32_fh_count s <= n <= WIN32_MAX_FHS -> (n <= Z.of_nat i -> clazz r' = None) ->
  win_ok (set_count n (set_fhs (<[i := r']> (_win32_fhs s)) s)).
Proof.
  intros Hok Hr Hu Hnew Hold Hn Habove. pose proof (fh_ok_at _ _ _ Hok Hr) as Hf. destruct Hok.
  assert (fh_ok (pairs s) r') as Hf'.
  { split; [done|]. intros Hc Hn'. destruct (Hnew Hc) as [E|[Hc' E]]; [done|]. rewrite E in *. by apply Hf. }
  split; cbn; try done; try lia.
  - by rewrite length_insert.
  - intros j x Hj Hx. destruct (decide (j = i)) as [->|].
    + rewrite list_lookup_insert_eq in Hx by (by eapply lookup_lt_Some). simplify_eq. auto.
    + rewrite list_lookup_insert_ne in Hx by done. apply (wk_above0 j); [lia|done].
  - by apply Forall_insert.
  - intros p sp Hp. destruct (wk_pairs0 p sp Hp). split; try done.
    rewrite (holders_insert _ _ _ _ _ Hr), pk_used0. unfold holds_pair.
    repeat case_decide; try lia; exfalso; destruct_and?; subst; intuition (lia || congruence).
Qed.

(** The invariant is about the table and the pairs only. *)
Lemma win_ok_same s s' :
  _win32_fhs s' = _win32_fhs s -> _win32_fh_count s' = _win32_fh_count s -> pairs s' = pairs s ->
  next_pair s' = next_pair s -> win_ok s -> win_ok s'.
Proof. intros E1 E2 E3 E4 []. split; rewrite ?E1, ?E2, ?E3, ?E4; done. Qed.

(** The invariant holds and entry [i] is in use by class [c]. *)
Definition live (i : nat) (c : FHClass) (s : win) : Prop :=
  win_ok s /\ exists r, _win32_fhs s !! i = Some r /\ clazz r = Some c.

(** A function may end the program or wait for ever, but does nothing undefined. *)
Definition safe (x : stop) (s : win) : Prop :=
  match x with Undef _ | Diverge => False | _ => True end.

Definition keeps {A} (P : win -> Prop) (m : W A) : Prop := forall s, P s -> wp m (fun _ => P) safe s.

Lemma live_ok i c s : live i c s -> win_ok s.
Proof. by intros [? _]. Qed.

Lemma put_fh_run i g s r :
  _win32_fhs s !! i = Some r -> put_fh i g s = (Done tt, set_fhs (<[i := g r]> (_win32_fhs s)) s).
Proof.
  intros Hr. unfold put_fh. erewrite bind_done by (unfold get_fh, must; by rewrite Hr). done.
Qed.

Lemma put_fh_live i c g :
  (forall r, clazz (g r) = clazz r /\ used (g r) = used r /\ (c <> _fh_socketpair_class \/ u (g r) = u r)) ->
  keeps (live i c) (put_fh i g).
Proof.
  intros Hg s [Hok (r & Hr & Hc)]. destruct (Hg r) as (Ec & Eu & Hp). unfold wp.
  rewrite (put_fh_run _ _ _ _ Hr). pose proof (fh_ok_at _ _ _ Hok Hr) as [Hu _]. split.
  - eapply win_ok_same; [| | | |apply (win_ok_update s i r (g r) (_win32_fh_count s))]; try done.
    + by rewrite Ec, Eu.
    + rewrite Ec. intros E. right. destruct Hp as [Hp|Hp]; [congruence|done].
    + rewrite Ec. intros E. destruct Hp as [Hp|Hp]; [congruence|done].
    + split; [done|apply Hok].
    + rewrite Ec. intros Hi. by eapply wk_above.
  - exists (g r). cbn. rewrite list_lookup_insert_eq by (by eapply lookup_lt_Some). split; congruence.
Qed.

Lemma get_fh_live i c s Q X :
  live i c s -> (forall r, _win32_fhs s !! i = Some r -> clazz r = Some c -> Q r s) -> wp (get_fh i) Q X s.
Proof. intros [_ (r & Hr & Hc)] H. unfold wp, get_fh, must. rewrite Hr. auto. Qed.

(** Changes the invariant does not see. *)
Lemma call_keeps o c P : (forall s t, P s -> P (set_trace t s)) -> keeps P (call o c).
Proof. intros HP s Hs. apply HP, Hs. Qed.

Lemma errno_keeps e P : (forall s x, P s -> P (set_win_errno x s)) -> keeps P (set_errno e).
Proof. intros HP s Hs. apply HP, Hs. Qed.

Lemma live_same i c s s' :
  _win32_fhs s' = _win32_fhs s -> _win32_fh_count s' = _win32_fh_count s -> pairs s' = pairs s ->
  next_pair s' = next_pair s -> live i c s -> live i c s'.
Proof.
  intros E1 E2 E3 E4 [Hok Hr]. split; [by eapply win_ok_same|]. by rewrite E1.
Qed.

Lemma live_trace i c s t : live i c s -> live i c (set_trace t s).
Proof. by apply live_same. Qed.

Lemma live_errno i c s e : live i c s -> live i c (set_win_errno e s).
Proof. by apply live_same. Qed.

Lemma win_ok_trace s t : win_ok s -> win_ok (set_trace t s).
Proof. by apply win_ok_same. Qed.

Lemma win_ok_errno s e : win_ok s -> win_ok (set_win_errno e s).
Proof. by apply win_ok_same. Qed.

#[export] Hint Resolve live_trace live_errno win_ok_trace win_ok_errno call_keeps errno_keeps live_ok : adb.

Lemma win_keeps_bind {A B} P (m : W A) (k : A -> W B) :
  keeps P m -> (forall a, keeps P (k a)) -> keeps P (m ≫= k).
Proof. intros Hm Hk s Hs. wp_step. eapply wp_mono; [by apply Hm| |done]. intros a s' Hs'. by apply Hk. Qed.

Lemma win_keeps_ret {A} P (a : A) : keeps P (mret a : W A).
Proof. by intros s Hs. Qed.

Lemma win_keeps_when P b m : keeps P m -> keeps P (when b m).
Proof. intros Hm s Hs. destruct b; [by apply Hm|done]. Qed.

Lemma win_keeps_get i c : keeps (live i c) (get_fh i).
Proof. intros s Hs. by eapply get_fh_live. Qed.

(** Symbolic execution for [keeps]: one rule per construct. *)
Ltac keep :=
  repeat lazymatch goal with
  | |- keeps _ (mret _) => apply win_keeps_ret
  | |- keeps _ skip => apply win_keeps_ret
  | |- keeps _ (abort _) => by intros ? ?
  | |- keeps _ (_ ≫= _) => apply win_keeps_bind; [|intros ?]
  | |- keeps _ (when _ _) => apply win_keeps_when
  | |- keeps _ (call ?o ?c) => refine (call_keeps o c _ _); auto with adb
  | |- keeps _ (set_errno _) => apply errno_keeps; auto with adb
  | |- keeps _ (get_fh _) => apply win_keeps_get
  | |- keeps _ (put_fh _ _) => apply put_fh_live; intros ?; cbn; (split; [done|split; [done|first [by left|by right]]])
  | |- keeps _ (if ?b then _ else _) => destruct b
  | |- keeps _ (match ?x with Some _ => _ | None => _ end) => destruct x
  end.

(** ** The methods of files and sockets *)

Lemma file_methods_keep o i len buf pos origin :
  keeps (live i _fh_file_class) (_fh_file_close o i) /\
  keeps (live i _fh_file_class) (_fh_file_read o i len) /\
  keeps (live i _fh_file_class) (_fh_file_write o i buf len) /\
  keeps (live i _fh_file_class) (_fh_file_lseek o i pos origin).
Proof.
  unfold _fh_file_close, _fh_file_read, _fh_file_write, _fh_file_lseek. split_and!; keep.
Qed.

Lemma socket_methods_keep o i len buf :
  keeps (live i _fh_socket_class) (_fh_socket_close o i) /\
  keeps (live i _fh_socket_class) (_fh_socket_read o i len) /\
  keeps (live i _fh_socket_class) (_fh_socket_write o i buf len).
Proof.
  unfold _fh_socket_close, _fh_socket_read, _fh_socket_write, _socket_set_errno. split_and!; keep.
Qed.

(** ** The methods of socket pairs *)

(** What the pair relies on: an operation keeps the buffer's invariant and does
    nothing undefined. *)
Definition bip_keeps {A} (m : M Bip.bsys A) : Prop := forall s,
  bip_ok (Bip.bip s) -> wp m (fun _ s' => bip_ok (Bip.bip s')) (fun x _ => x = Blocked) s.

Lemma bip_write_keeps buf len : len <= Z.of_nat (length buf) -> bip_keeps (Bip.bip_buffer_write buf len).
Proof.
  intros Hl s Hok. unfold Bip.bip_buffer_write. destruct (Z.leb_spec len 0); [done|].
  apply wp_assoc. wp_step. eapply wp_mono;
    [apply (enter_wait_ok Bip.can_write Bip.evt_write (fun o => forall src, o <> Bip.Write src));
     [by intros r []|by intros r []|apply no_write_gentle|done]| |by intros x s' [-> _]].
  intros [v|] s1 [R Hw]; pose proof (reached_ok _ _ Hok R) as Hok1; [done|].
  destruct (write_locked_ok buf len (Bip.bip s1)) as (r' & E & _ & Hok' & _); [done..|].
  wp_step. unfold wp. cbn [view Bip.bsys_bip]. by rewrite E.
Qed.

Lemma bip_read_keeps len : bip_keeps (Bip.bip_buffer_read len).
Proof.
  intros s Hok. unfold Bip.bip_buffer_read. destruct (Z.leb_spec len 0); [done|].
  apply wp_assoc. wp_step. eapply wp_mono;
    [apply (enter_wait_ok Bip.can_read Bip.evt_read (fun o => forall n, o <> Bip.Read n));
     [by intros r []|by intros r []|apply no_read_gentle|done]| |by intros x s' [-> _]].
  intros [v|] s1 [R Hw]; pose proof (reached_ok _ _ Hok R) as Hok1; [done|].
  destruct (read_locked_ok len (Bip.bip s1)) as (r' & E & _ & Hok' & _); [done..|].
  wp_step. wp_step. unfold wp at 1. cbn [view Bip.bsys_bip]. by rewrite E.
Qed.

(** Replacing the buffers of a pair. *)
Lemma win_ok_pair s p sp sp' :
  win_ok s -> pairs s !! p = Some sp -> bip_ok (a2b_bip sp') -> bip_ok (b2a_bip sp') ->
  pair_used sp' = pair_used sp -> win_ok (set_pairs (<[p := sp']> (pairs s)) s).
Proof.
  intros [] Hp Ha Hb Hu. split; cbn; try done.
  - eapply Forall_impl; [done|]. intros r [H1 H2]. split; [done|]. intros Hc Hn.
    apply lookup_insert_is_Some'. right. auto.
  - apply map_Forall_insert_2; [|done]. destruct (wk_pairs0 p sp Hp). split; congruence.
Qed.

Lemma on_bip_keeps {A} i c p a2b (m : M Bip.bsys A) :
  bip_keeps m -> keeps (fun s => live i c s /\ is_Some (pairs s !! p)) (on_bip p a2b m).
Proof.
  intros Hm s [[Hok Hr] [sp Hp]]. unfold wp, on_bip. rewrite Hp.
  pose proof (wk_pairs _ Hok p sp Hp) as [].
  specialize (Hm {| Bip.bip := if a2b then a2b_bip sp else b2a_bip sp; Bip.turns := turns s; Bip.errno := errno s |}).
  unfold wp in Hm. destruct (m _) as [[a|x] t]; cbn in Hm.
  - split; [split|].
    + match goal with |- win_ok (set_pairs (<[_ := ?sp']> _) _) =>
        apply (win_ok_same (set_pairs (<[p := sp']> (pairs s)) s)); [done..|] end.
      apply (win_ok_pair s p sp); [done|done| | |]; destruct a2b; cbn; auto.
    + done.
    + cbn. rewrite lookup_insert_eq. eauto.
  - rewrite Hm; [done|]. by destruct a2b.
Qed.

Lemma socketpair_methods_keep i len buf :
  keeps (live i _fh_socketpair_class) (_fh_socketpair_read i len) /\
  (len <= Z.of_nat (length buf) -> keeps (live i _fh_socketpair_class) (_fh_socketpair_write i buf len)).
Proof.
  unfold _fh_socketpair_read, _fh_socketpair_write. split; [|intros Hl]; intros s Hs;
    wp_step; eapply get_fh_live; [done| |done|]; intros r Hr Hc;
    (destruct (Z.eqb_spec (u r) 0); [done|]);
    (destruct (fk_pair _ _ (fh_ok_at _ _ _ (live_ok _ _ _ Hs) Hr)) as [sp Hp]; [done..|]);
    wp_step; unfold wp at 1, get_pair, must; rewrite Hp;
    (eapply wp_mono; [apply on_bip_keeps; [|eauto]| |]); auto using bip_read_keeps, bip_write_keeps;
    by intros a s' [? _].
Qed.

(** ** Taking and giving back entries *)

Lemma free_slot_ok l :
  match free_slot l with
  | Some i => exists r, l !! i = Some r /\ clazz r = None
  | None => Forall (fun r => clazz r <> None) l
  end.
Proof.
  induction l as [|r l IH]; cbn; [done|]. case_bool_decide as E; [by exists r|].
  destruct (free_slot l); cbn; [done|]. by constructor.
Qed.

(** [s'] is [s] with entry [i] taken for class [c]. *)
Definition taken (s s' : win) (i : nat) (c : FHClass) : Prop :=
  exists r r', _win32_fhs s !! i = Some r /\ clazz r = None /\
    _win32_fhs s' = <[i := r']> (_win32_fhs s) /\ clazz r' = Some c /\ used r' = true /\
    (c = _fh_socketpair_class -> u r' = 0) /\
    pairs s' = pairs s /\ next_pair s' = next_pair s /\ turns s' = turns s /\
    Z.of_nat i < _win32_fh_count s' /\ _win32_fh_count s <= _win32_fh_count s'.

Lemma class_init_run o c i s r :
  _win32_fhs s !! i = Some r ->
  exists r' t, class_init o c i s = (Done tt, set_trace t (set_fhs (<[i := r']> (_win32_fhs s)) s)) /\
               clazz r' = clazz r /\ used r' = used r /\ (c = _fh_socketpair_class -> u r' = 0).
Proof.
  intros Hr. destruct c; cbn.
  - exists (set_u INVALID_HANDLE_VALUE r), (trace s).
    split; [|done]. unfold _fh_file_init. by rewrite (put_fh_run _ _ _ _ Hr).
  - exists {| clazz := clazz r; used := used r; eof := eof r; u := INVALID_SOCKET;
              event := o (trace s) WSACreateEvent; mask := 0 |}, (trace s ++ [WSACreateEvent]).
    split; [|done]. unfold _fh_socket_init. erewrite bind_done by reflexivity.
    erewrite put_fh_run by exact Hr. reflexivity.
  - exists (set_u 0 r), (trace s). split; [|done]. unfold _fh_socketpair_init. by rewrite (put_fh_run _ _ _ _ Hr).
Qed.

(** The entry [_fh_alloc] picks, and the count after it. *)
Lemma pick_slot s :
  win_ok s ->
  let n := _win32_fh_count s in
  exists res n', (if n <? WIN32_MAX_FHS then modify (set_count (n + 1));; mret (Some (Z.to_nat n))
                  else gets (fun s => free_slot (_win32_fhs s)) : W (option nat)) s
                 = (Done res, set_count n' s) /\
    n <= n' <= WIN32_MAX_FHS /\
    match res with
    | None => n' = n /\ Forall (fun r => clazz r <> None) (_win32_fhs s)
    | Some i => Z.of_nat i < n' /\ exists r, _win32_fhs s !! i = Some r /\ clazz r = None
    end.
Proof.
  intros Hok n. destruct (wk_count _ Hok) as [H0 H1]. fold n in H0, H1.
  pose proof (wk_len _ Hok) as HL. destruct (Z.ltb_spec n WIN32_MAX_FHS).
  - exists (Some (Z.to_nat n)), (n + 1). split; [done|]. split; [lia|]. split; [lia|].
    destruct (lookup_lt_is_Some_2 (_win32_fhs s) (Z.to_nat n)) as [r Hr]; [lia|].
    exists r. split; [done|]. eapply wk_above; [done| |done]. lia.
  - exists (free_slot (_win32_fhs s)), n. split; [by destruct s|]. split; [lia|].
    pose proof (free_slot_ok (_win32_fhs s)) as HF. destruct (free_slot (_win32_fhs s)) as [i|]; [|done].
    destruct HF as (r & Hr & Hc). apply lookup_lt_Some in Hr as Hlt. split; [lia|eauto].
Qed.

Lemma fh_alloc_ok o c s :
  win_ok s ->
  exists res s', _fh_alloc o c s = (Done res, s') /\ win_ok s' /\
    match res with
    | None => s' = s /\ Forall (fun r => clazz r <> None) (_win32_fhs s)
    | Some i => taken s s' i c
    end.
Proof.
  intros Hok. destruct (pick_slot s Hok) as (res & n' & E & Hn & Hres).
  unfold _fh_alloc. erewrite bind_done by reflexivity. rewrite (bind_done _ _ _ _ _ E).
  destruct res as [i|].
  - destruct Hres as (Hi & r & Hr & Hc). set (r1 := {| clazz := Some c; used := true; eof := false; u := u r;
      event := event r; mask := mask r |}).
    set (s1 := set_fhs (<[i := r1]> (_win32_fhs s)) (set_count n' s)).
    destruct (class_init_run o c i s1 r1) as (r' & t & E' & Ec & Eu & Hp).
    { apply list_lookup_insert_eq. by eapply lookup_lt_Some. }
    eexists. eexists. split; [|split].
    + rewrite (bind_done _ _ _ _ _ (put_fh_run _ _ (set_count n' s) r Hr)). fold r1. fold s1.
      rewrite (bind_done _ _ _ _ _ E'). reflexivity.
    + cbn. rewrite list_insert_insert_eq.
      apply (win_ok_same (set_count n' (set_fhs (<[i := r']> (_win32_fhs s)) s))); [done..|].
      apply (win_ok_update _ _ r); try done; [by rewrite Ec, Eu|..]; rewrite ?Ec, ?Hc; try done; [|lia].
      intros [= ->]. left. auto.
    + exists r, r'. cbn. rewrite list_insert_insert_eq. split_and!; try done; lia.
  - destruct Hres as [-> HF]. exists None, s. split; [|done]. by destruct s.
Qed.

Lemma holders_pos p l r : r ∈ l -> holds_pair p r -> 0 < holders p l.
Proof.
  intros Hr Hp. unfold holders. assert (r ∈ filter (holds_pair p) l) as H by (by apply list_elem_of_filter).
  destruct (filter (holds_pair p) l); [by apply elem_of_nil in H|cbn; lia].
Qed.

(** One end is cut off its pair, which is freed when it was the last. *)
Lemma win_ok_cut s i r sp sp' :
  win_ok s -> _win32_fhs s !! i = Some r -> clazz r = Some _fh_socketpair_class -> u r <> 0 ->
  pairs s !! u r = Some sp -> bip_ok (a2b_bip sp') -> bip_ok (b2a_bip sp') ->
  pair_used sp' = pair_used sp - 1 ->
  win_ok (set_fhs (<[i := set_u 0 r]> (_win32_fhs s))
           (set_pairs (if pair_used sp' =? 0 then delete (u r) (pairs s) else <[u r := sp']> (pairs s)) s)).
Proof.
  intros Hok Hr Hc Hne Hp Ha Hb Hu. pose proof (wk_pairs _ Hok _ _ Hp) as [Hpa _ _ Hpu Hpl].
  set (l := <[i := set_u 0 r]> (_win32_fhs s)).
  assert (forall p, 0 < p -> holders p l = holders p (_win32_fhs s) - (if decide (p = u r) then 1 else 0)) as HH.
  { intros p Hpos. unfold l. rewrite (holders_insert _ _ _ _ _ Hr). unfold holds_pair. cbn.
    repeat case_decide; destruct_and?; subst; try lia; exfalso; intuition congruence. }
  destruct Hok. split; cbn; try done.
  - unfold l. by rewrite length_insert.
  - intros j x Hj Hx. unfold l in Hx. destruct (decide (j = i)) as [->|].
    + rewrite list_lookup_insert_eq in Hx by (by eapply lookup_lt_Some). simplify_eq. cbn. eauto.
    + rewrite list_lookup_insert_ne in Hx by done. eauto.
  - apply Forall_forall. intros x Hx. assert (fh_ok (pairs s) x) as [Hxu Hxp].
    { unfold l in Hx. apply list_elem_of_lookup in Hx as [j Hx]. destruct (decide (j = i)) as [->|].
      - rewrite list_lookup_insert_eq in Hx by (by eapply lookup_lt_Some). simplify_eq.
        rewrite Forall_forall in wk_fhs0. destruct (wk_fhs0 r); [by eapply list_elem_of_lookup_2|]. by split.
      - rewrite list_lookup_insert_ne in Hx by done. by eapply Forall_lookup_1. }
    split; [done|]. intros Hxc Hxn. destruct (Z.eqb_spec (pair_used sp') 0).
    + rewrite lookup_delete_ne; [auto|]. intros E. specialize (HH (u r)). rewrite decide_True in HH by done.
      pose proof (holders_pos (u r) l x Hx). unfold holds_pair in H. rewrite <-E in *. intuition lia.
    + apply lookup_insert_is_Some'. right. auto.
  - intros p x Hx. destruct (decide (p = u r)) as [->|Hpn].
    + destruct (Z.eqb_spec (pair_used sp') 0); [by rewrite lookup_delete_eq in Hx|].
      rewrite lookup_insert_eq in Hx. simplify_eq. split; try done; [|lia].
      rewrite HH, decide_True by (done || lia). lia.
    + assert (pairs s !! p = Some x) as Hx'.
      { destruct (pair_used sp' =? 0); [by rewrite lookup_delete_ne in Hx|by rewrite lookup_insert_ne in Hx]. }
      destruct (wk_pairs0 p x Hx'). split; try done. rewrite HH, decide_False by (done || lia). lia.
Qed.

(** Closing one end: the pair counts one entry less, and goes with the last. *)
Lemma socketpair_close_ok i s :
  live i _fh_socketpair_class s ->
  exists s', _fh_socketpair_close i s = (Done 0, s') /\ live i _fh_socketpair_class s' /\
    (forall r, _win32_fhs s' !! i = Some r -> u r = 0).
Proof.
  intros [Hok (r & Hr & Hc)]. unfold _fh_socketpair_close.
  erewrite bind_done by (unfold get_fh, must; by rewrite Hr).
  destruct (Z.eqb_spec (u r) 0) as [E0|Hne].
  { exists s. split; [done|]. split; [by split; eauto|]. intros x Hx. rewrite Hr in Hx. by simplify_eq. }
  destruct (fk_pair _ _ (fh_ok_at _ _ _ Hok Hr) Hc Hne) as [sp Hp].
  erewrite bind_done by (unfold get_pair, must; by rewrite Hp).
  set (sp' := {| a2b_bip := Bip.bip_buffer_close (a2b_bip sp); b2a_bip := Bip.bip_buffer_close (b2a_bip sp);
                 a_fd := if bool_decide (a_fd sp = Some i) then None else a_fd sp;
                 pair_used := pair_used sp - 1 |}).
  set (ps := if pair_used sp' =? 0 then delete (u r) (pairs s) else <[u r := sp']> (pairs s)).
  set (l := <[i := set_u 0 r]> (_win32_fhs s)).
  assert ((put_pair (u r) sp';; when (pair_used sp' =? 0) (modify (fun s => set_pairs (delete (u r) (pairs s)) s));;
           put_fh i (set_u 0);; mret 0) s = (Done 0, set_fhs l (set_pairs ps s))) as E.
  { subst ps. erewrite bind_done by reflexivity. destruct (pair_used sp' =? 0).
    - erewrite bind_done by reflexivity. cbn. rewrite delete_insert_eq.
      erewrite bind_done by (by apply put_fh_run). reflexivity.
    - erewrite bind_done by reflexivity. erewrite bind_done by (by apply put_fh_run). reflexivity. }
  eexists. split; [exact E|].
  assert (l !! i = Some (set_u 0 r)) as Hl by (apply list_lookup_insert_eq; by eapply lookup_lt_Some).
  split; [split; [|by exists (set_u 0 r)]|intros x Hx; cbn in Hx; by simplify_eq].
  pose proof (wk_pairs _ Hok _ _ Hp) as []. apply (win_ok_cut s i r sp sp'); try done; by apply bip_buffer_close_ok.
Qed.

(** The last step of [_fh_close]: the entry is free again. *)
Lemma put_free_ok i c s :
  live i c s -> (c = _fh_socketpair_class -> forall r, _win32_fhs s !! i = Some r -> u r = 0) ->
  wp (put_fh i (fun r => {| clazz := None; used := false; eof := false; u := u r; event := event r;
                            mask := mask r |})) (fun _ => win_ok) safe s.
Proof.
  intros [Hok (r & Hr & Hc)] H0. unfold wp. rewrite (put_fh_run _ _ _ _ Hr).
  match goal with |- win_ok (set_fhs (<[_ := ?r']> _) _) =>
    eapply win_ok_same; [| | | |apply (win_ok_update s i r r' (_win32_fh_count s))]; try done end.
  - intros Hc' Hn. exfalso. apply Hn, H0; [congruence|done].
  - split; [done|apply Hok].
Qed.

Lemma fh_close_ok o i s :
  win_ok s -> is_Some (_win32_fhs s !! i) -> wp (_fh_close o (Some i)) (fun _ => win_ok) safe s.
Proof.
  intros Hok [r Hr]. unfold _fh_close. wp_step. eapply wp_must; [done|]. wp_step.
  unfold wp at 1, get_fh, must. rewrite Hr. destruct (used r) eqn:Hu; [|done].
  rewrite (fk_used _ _ (fh_ok_at _ _ _ Hok Hr)) in Hu. apply bool_decide_eq_true in Hu.
  destruct (clazz r) as [c|] eqn:Hc; [|done]. assert (live i c s) as HL by (split; eauto).
  wp_step. unfold class_of. wp_step. unfold wp at 1, get_fh, must. rewrite Hr.
  eapply wp_must; [done|]. wp_step. destruct c.
  - eapply wp_mono; [apply (file_methods_keep o i 0 [] 0 0); done| |done].
    intros a s' HL'. wp_step. eapply wp_mono; [apply (put_free_ok _ _ _ HL'); done| |done]. done.
  - eapply wp_mono; [apply (socket_methods_keep o i 0 []); done| |done].
    intros a s' HL'. wp_step. eapply wp_mono; [apply (put_free_ok _ _ _ HL'); done| |done]. done.
  - destruct (socketpair_close_ok i s HL) as (s' & E & HL' & H0). unfold wp at 1. rewrite E.
    wp_step. eapply wp_mono; [apply (put_free_ok _ _ _ HL'); done| |done]. done.
Qed.

(** ** Every operation on descriptors *)

Inductive wop :=
| Open (path : bytes) (options : Z)
| Creat (path : bytes) (mode : Z)
| Read (fd len : Z)
| Write (fd : Z) (buf : bytes)
| Lseek (fd pos origin : Z)
| ShutdownFd (fd : Z)
| CloseFd (fd : Z)
| LoopbackClient (port type : Z)
| LoopbackServer (port type : Z)
| NetworkClient (host : bytes) (port type : Z)
| AnyServer (port type : Z)
| AcceptOn (fd : Z)
| Nagle (fd : Z)
| Pair (garbage : bytes * bytes).

Definition exec (o : list wcall -> forall c, wres c) (to_wide : bytes -> list Z) (op : wop) : W unit :=
  match op with
  | Open path options => adb_open o to_wide path options;; skip
  | Creat path mode => adb_creat o to_wide path mode;; skip
  | Read fd len => adb_read o fd len;; skip
  | Write fd buf => adb_write o fd buf (Z.of_nat (length buf));; skip
  | Lseek fd pos origin => adb_lseek o fd pos origin;; skip
  | ShutdownFd fd => adb_shutdown o fd;; skip
  | CloseFd fd => adb_close o fd;; skip
  | LoopbackClient port type => socket_loopback_client o port type;; skip
  | LoopbackServer port type => socket_loopback_server o port type;; skip
  | NetworkClient host port type => socket_network_client_timeout o host port type 0;; skip
  | AnyServer port type => socket_inaddr_any_server o port type;; skip
  | AcceptOn fd => adb_socket_accept o fd;; skip
  | Nagle fd => disable_tcp_nagle o fd
  | Pair garbage => adb_socketpair o garbage;; skip
  end.

Definition free_entries (s : win) : Z :=
  Z.of_nat (length (filter (fun r => clazz r = None) (_win32_fhs s))).

(** What [malloc] gives a pair has the size of the two arrays. *)
Definition sized (g : bytes * bytes) : Prop :=
  Z.of_nat (length g.1) = Bip.BIP_BUFFER_SIZE /\ Z.of_nat (length g.2) = Bip.BIP_BUFFER_SIZE.

Definition op_sized (op : wop) : Prop := match op with Pair g => sized g | _ => True end.

(** Two free entries, and memory whenever it is asked for. *)
Definition may (o : list wcall -> forall c, wres c) (g : bytes * bytes) (s : win) : Prop :=
  2 <= free_entries s /\ sized g /\ forall t, o t (Malloc sizeof_SocketPairRec) <> 0.

(** Stops that are not undefined behaviour, except that [adb_socketpair] without
    two free entries closes a null pointer. *)
Definition safe_op (op : wop) (s : win) (x : stop) (s' : win) : Prop :=
  safe x s' \/
  x = Undef "null descriptor record" /\ free_entries s < 2 /\ match op with Pair _ => True | _ => False end.

(** [gethostbyname] returns addresses that fit a [sockaddr_in]. *)
Definition polite (o : list wcall -> forall c, wres c) : Prop :=
  forall t host ty a, o t (Gethostbyname host) = Some (ty, a) -> (length a <= 12)%nat.

Lemma from_int_ok fd s :
  win_ok s ->
  wp (_fh_from_int fd) (fun f s' => win_ok s' /\ match f with
     | None => True
     | Some i => s' = s /\ fd = Z.of_nat i + WIN32_FH_BASE /\ exists c, live i c s
     end) safe s.
Proof.
  intros Hok. unfold _fh_from_int, set_errno. wp_step. wp_step.
  pose proof (wk_len _ Hok) as HL. pose proof (wk_count _ Hok) as HC.
  destruct (Z.ltb_spec (fd - WIN32_FH_BASE) 0); cbn [orb].
  { do 3 wp_step. auto with adb. }
  destruct (Z.geb_spec (fd - WIN32_FH_BASE) (_win32_fh_count s)).
  { do 3 wp_step. auto with adb. }
  destruct (lookup_lt_is_Some_2 (_win32_fhs s) (Z.to_nat (fd - WIN32_FH_BASE))) as [r Hr]; [lia|].
  wp_step. unfold wp at 1, get_fh, must. rewrite Hr.
  rewrite (fk_used _ _ (fh_ok_at _ _ _ Hok Hr)). case_bool_decide as Hc; cbn [negb].
  - wp_step. split; [done|]. split; [done|]. split; [lia|].
    destruct (clazz r) as [c|] eqn:E; [|done]. exists c. split; eauto.
  - do 3 wp_step. auto with adb.
Qed.

(** [m] may give entry [i] back. *)
Definition frees {A} (i : nat) (c : FHClass) (m : W A) : Prop :=
  forall s, live i c s -> wp m (fun _ => win_ok) safe s.

Lemma frees_bind {A B} i c (m : W A) (k : A -> W B) :
  keeps (live i c) m -> (forall a, frees i c (k a)) -> frees i c (m ≫= k).
Proof. intros Hm Hk s Hs. wp_step. eapply wp_mono; [by apply Hm| |done]. intros a s' Hs'. by apply Hk. Qed.

Lemma frees_keeps {A} i c (m : W A) : keeps (live i c) m -> frees i c m.
Proof. intros Hm s Hs. eapply wp_mono; [by apply Hm| |done]. intros a s' [? _]. done. Qed.

Lemma frees_close {A} o i c (m : W A) : keeps win_ok m -> frees i c (_fh_close o (Some i);; m).
Proof.
  intros Hm s [Hok (r & Hr & _)]. wp_step. eapply wp_mono; [apply fh_close_ok; eauto| |done].
  intros a s' Hs'. by apply Hm.
Qed.

Lemma frees_to_int i c : frees i c (_fh_to_int (Some i)).
Proof.
  intros s [Hok (r & Hr & _)]. unfold _fh_to_int. wp_step. unfold wp at 1, get_fh, must. rewrite Hr.
  by destruct (used r && _).
Qed.

Lemma frees_init_winsock {A} o i c (m : W A) : frees i c m -> frees i c (_init_winsock o;; m).
Proof.
  intros Hm. apply frees_bind; [|done]. unfold _init_winsock.
  assert (keeps (live i c) (gets _winsock_init)) as Hg by (intros s Hs; done).
  apply win_keeps_bind; [done|]. intros [|]; keep. intros s Hs. by apply (live_same _ _ s).
Qed.

(** Symbolic execution for [frees]. *)
Ltac frees :=
  repeat lazymatch goal with
  | |- frees _ _ (mret _) => apply frees_keeps, win_keeps_ret
  | |- frees _ _ skip => apply frees_keeps, win_keeps_ret
  | |- frees _ _ (abort _) => by intros ? ?
  | |- frees _ _ (_fh_to_int _) => apply frees_to_int
  | |- frees _ _ (_fh_close _ _ ≫= _) => apply frees_close; keep; auto with adb
  | |- frees _ _ (_init_winsock _ ≫= _) => apply frees_init_winsock
  | |- frees _ _ (_ ≫= _) => apply frees_bind; [keep|intros ?]
  | |- frees _ _ (if ?b then _ else _) => destruct b
  end.

Lemma with_fd {A} fd (none : W A) (k : nat -> W A) :
  keeps win_ok none -> (forall i c, frees i c (k i)) ->
  keeps win_ok (f ← _fh_from_int fd; match f with None => none | Some i => k i end).
Proof.
  intros Hn Hk s Hs. wp_step. eapply wp_mono; [by apply from_int_ok| |done].
  intros [i|] s' [Hs' H]; [|by apply Hn]. destruct H as (-> & _ & c & HL). by eapply Hk.
Qed.

Lemma taken_live s s' i c : win_ok s' -> taken s s' i c -> live i c s'.
Proof.
  intros Hok (r & r' & Hr & _ & E & Hc & _). split; [done|]. exists r'. rewrite E.
  rewrite list_lookup_insert_eq by (by eapply lookup_lt_Some). done.
Qed.

Lemma with_alloc {A} o c (none : W A) (k : nat -> W A) :
  keeps win_ok none -> (forall i, frees i c (k i)) ->
  keeps win_ok (f ← _fh_alloc o c; match f with None => none | Some i => k i end).
Proof.
  intros Hn Hk s Hs. wp_step. destruct (fh_alloc_ok o c s Hs) as (res & s' & E & Hs' & H).
  unfold wp at 1. rewrite E. destruct res as [i|]; [|by apply Hn].
  eapply Hk. by eapply taken_live.
Qed.

(** A method chosen by the class of the entry. *)
Lemma dispatch {A} i c (file sock sp : W A) :
  (c = _fh_file_class -> frees i c file) -> (c = _fh_socket_class -> frees i c sock) ->
  (c = _fh_socketpair_class -> frees i c sp) ->
  frees i c (c ← class_of i;
    match c with _fh_file_class => file | _fh_socket_class => sock | _fh_socketpair_class => sp end).
Proof.
  intros H1 H2 H3 s Hs. assert (Hs' := Hs). destruct Hs' as [Hok (r & Hr & Hc)].
  wp_step. unfold class_of. wp_step. unfold wp at 1, get_fh, must. rewrite Hr.
  eapply wp_must; [done|]. destruct c; auto; [by apply H1|by apply H2|by apply H3].
Qed.

Lemma frees_create_failed o i c : frees i c (create_failed o i).
Proof.
  unfold create_failed. apply frees_close. keep.
Qed.

Lemma open_keeps o tw path options mode :
  keeps win_ok (adb_open o tw path options) /\ keeps win_ok (adb_creat o tw path mode).
Proof.
  split.
  - unfold adb_open. destruct (if options =? O_RDONLY then _ else _) as [access|]; [|keep].
    apply with_alloc; [keep|]. intros i. frees. apply frees_create_failed.
  - apply with_alloc; [keep|]. intros i. frees. apply frees_create_failed.
Qed.

Lemma io_keeps o fd len buf pos origin :
  keeps win_ok (adb_read o fd len) /\ keeps win_ok (adb_write o fd buf (Z.of_nat (length buf))) /\
  keeps win_ok (adb_lseek o fd pos origin).
Proof.
  split_and!.
  - apply with_fd; [keep|]. intros i c. apply dispatch; intros ->; apply frees_keeps;
      [apply (file_methods_keep o i len [] 0 0)|apply (socket_methods_keep o i len [])|
       apply (socketpair_methods_keep i len [])].
  - apply with_fd; [keep|]. intros i c. apply dispatch; intros ->; apply frees_keeps;
      [apply (file_methods_keep o i _ buf 0 0)|apply (socket_methods_keep o i _ buf)|
       by apply (socketpair_methods_keep i _ buf)].
  - apply with_fd; [keep|]. intros i c. apply dispatch; intros ->; apply frees_keeps;
      [apply (file_methods_keep o i 0 [] pos origin)|unfold _fh_socket_lseek; keep|
       unfold _fh_socketpair_lseek; keep].
Qed.

Lemma serve_frees o i s addr port type : frees i _fh_socket_class (serve o i s addr port type).
Proof. unfold serve. frees. Qed.

Lemma socket_keeps o port type :
  keeps win_ok (socket_loopback_client o port type) /\ keeps win_ok (socket_loopback_server o port type) /\
  keeps win_ok (socket_inaddr_any_server o port type).
Proof.
  unfold socket_loopback_client, socket_loopback_server, socket_inaddr_any_server.
  split_and!; (apply with_alloc; [keep|]; intros i); frees; auto using serve_frees.
Qed.

Lemma network_client_keeps o port type host :
  polite o -> keeps win_ok (socket_network_client o host port type).
Proof.
  intros Ho. unfold socket_network_client. apply with_alloc; [keep|]. intros i. apply frees_init_winsock.
  intros s Hs. wp_step. unfold wp at 1, call. destruct (o (trace s) (Gethostbyname host)) as [[ty a]|] eqn:E.
  - apply Ho in E. rewrite (proj2 (Nat.ltb_ge _ _)) by done.
    assert (live i _fh_socket_class (set_trace (trace s ++ [Gethostbyname host]) s)) as Hs' by auto with adb.
    revert Hs'. generalize (set_trace (trace s ++ [Gethostbyname host]) s).
    change (frees i _fh_socket_class
      (s0 ← call o (Socket ty type);
       if s0 =? INVALID_SOCKET then _fh_close o (Some i);; mret (-1) else
       put_fh i (set_u s0);;
       r ← call o (Connect s0 ty a (u16 port));
       if r <? 0 then _fh_close o (Some i);; mret (-1) else _fh_to_int (Some i))).
    frees.
  - apply (frees_close o i _fh_socket_class); [keep|]. auto with adb.
Qed.

Lemma accept_keeps o fd : keeps win_ok (adb_socket_accept o fd) /\ keeps win_ok (disable_tcp_nagle o fd).
Proof.
  unfold adb_socket_accept, disable_tcp_nagle.
  split; (apply with_fd; [keep|]; intros j c); intros s Hs; wp_step; (eapply get_fh_live; [done|]); intros r Hr Hc;
    destruct (negb _); try (by eapply live_ok).
  - apply (with_alloc o _fh_socket_class); [keep| |by eapply live_ok]. intros i. frees.
  - apply (frees_bind j c); [keep|intros; frees|done].
Qed.

(** ** Making a pair *)

Definition new_pair (g : bytes * bytes) (a : nat) (x y : Z) : SocketPairRec :=
  {| a2b_bip := set_fds x y (Bip.bip_buffer_init g.1); b2a_bip := set_fds y x (Bip.bip_buffer_init g.2);
     a_fd := Some a; pair_used := 2 |}.

Lemma no_holders s : win_ok s -> holders (next_pair s) (_win32_fhs s) = 0.
Proof.
  intros Hok. unfold holders. destruct (filter (holds_pair (next_pair s)) (_win32_fhs s)) as [|r l] eqn:E; [done|].
  assert (r ∈ filter (holds_pair (next_pair s)) (_win32_fhs s)) as Hr by (rewrite E; left).
  apply list_elem_of_filter in Hr as [[Hc Hu] Hr]. exfalso.
  pose proof (wk_next _ Hok). pose proof (wk_fhs _ Hok) as HF. rewrite Forall_forall in HF.
  destruct (fk_pair _ _ (HF r Hr) Hc) as [sp Hp]; [lia|]. rewrite Hu in Hp.
  apply (wk_pairs _ Hok) in Hp. destruct (pk_addr _ _ _ _ Hp). lia.
Qed.

Lemma bip_ok_fds x y b : bip_ok b -> bip_ok (set_fds x y b).
Proof. intros []. by split. Qed.

(** Two ends without a pair are joined by a new one. *)
Lemma win_ok_join s a b ra rb sp :
  win_ok s -> a <> b -> _win32_fhs s !! a = Some ra -> _win32_fhs s !! b = Some rb ->
  clazz ra = Some _fh_socketpair_class -> clazz rb = Some _fh_socketpair_class -> u ra = 0 -> u rb = 0 ->
  bip_ok (a2b_bip sp) -> bip_ok (b2a_bip sp) -> pair_used sp = 2 ->
  let p := next_pair s in
  win_ok (set_pairs (<[p := sp]> (pairs s))
           (set_fhs (<[b := set_u p rb]> (<[a := set_u p ra]> (_win32_fhs s))) (set_next_pair (p + 1) s))).
Proof.
  intros Hok Hab Ha Hb Hca Hcb Hua Hub Ba Bb Hu p. pose proof (no_holders s Hok) as HN. fold p in HN.
  pose proof (wk_next _ Hok) as Hp0. fold p in Hp0.
  assert (<[a := set_u p ra]> (_win32_fhs s) !! b = Some rb) as Hb' by (by rewrite list_lookup_insert_ne).
  assert (forall q, 0 < q -> holders q (<[b := set_u p rb]> (<[a := set_u p ra]> (_win32_fhs s)))
                    = holders q (_win32_fhs s) + (if decide (q = p) then 2 else 0)) as HH.
  { intros q Hq. rewrite (holders_insert _ _ _ _ _ Hb'), (holders_insert _ _ _ _ _ Ha). unfold holds_pair. cbn.
    repeat case_decide; destruct_and?; subst; try lia; exfalso; intuition (lia || congruence). }
  assert (forall r, fh_ok (pairs s) r -> fh_ok (<[p := sp]> (pairs s)) r) as Hmono.
  { intros r [H1 H2]. split; [done|]. intros Hc Hn. apply lookup_insert_is_Some'. auto. }
  assert (forall r i, _win32_fhs s !! i = Some r -> fh_ok (<[p := sp]> (pairs s)) (set_u p r)) as Hset.
  { intros r i Hr. destruct (fh_ok_at _ _ _ Hok Hr). split; [done|]. intros _ _. cbn. rewrite lookup_insert_eq. eauto. }
  destruct Hok. split; cbn; try done; try lia.
  - by rewrite !length_insert.
  - intros j x Hj Hx. destruct (decide (j = b)) as [->|].
    { rewrite (wk_above0 b rb) in Hcb; done. }
    rewrite list_lookup_insert_ne in Hx by done. destruct (decide (j = a)) as [->|].
    { rewrite (wk_above0 a ra) in Hca; done. }
    rewrite list_lookup_insert_ne in Hx by done. eauto.
  - apply Forall_insert; [apply Forall_insert|]; [|by eapply Hset..]. eapply Forall_impl; [done|]. auto.
  - apply map_Forall_insert_2.
    + split; try done; [lia| |lia]. rewrite HH, decide_True by (done || lia). lia.
    + intros q x Hx. destruct (wk_pairs0 q x Hx). split; try done; [lia|]. rewrite HH by lia.
      case_decide; [lia|]. lia.
Qed.

(** Fewer free entries by one, and only by the one that was taken. *)
Lemma taken_free s s' i c : taken s s' i c -> free_entries s' = free_entries s - 1.
Proof.
  intros (r & r' & Hr & Hc & E & Hc' & _). unfold free_entries. rewrite E.
  apply lookup_lt_Some in Hr as Hlt. rewrite <-(take_drop_middle (_win32_fhs s) i r) at 2 by done.
  rewrite insert_take_drop by done.
  rewrite !filter_app, !length_app, !filter_cons, decide_False, decide_True by congruence. cbn. lia.
Qed.

Lemma alloc_free o c s :
  win_ok s -> 1 <= free_entries s ->
  exists i s', _fh_alloc o c s = (Done (Some i), s') /\ win_ok s' /\ taken s s' i c.
Proof.
  intros Hok Hf. destruct (fh_alloc_ok o c s Hok) as ([i|] & s' & E & Hok' & H); [by eauto 6|].
  destruct H as [_ HF]. exfalso. unfold free_entries in Hf.
  assert (filter (fun r => clazz r = None) (_win32_fhs s) = []) as E0.
  { apply elem_of_nil_inv. intros r [Hr Hin]%list_elem_of_filter. rewrite Forall_forall in HF. by apply (HF r). }
  rewrite E0 in Hf. cbn in Hf. lia.
Qed.

(** Entries [a] and [b] are the two ends of the pair at [p]. *)
Definition ends (s : win) (a b : nat) (p : Z) : Prop :=
  a <> b /\ p <> 0 /\ Z.of_nat a < _win32_fh_count s /\ Z.of_nat b < _win32_fh_count s /\
  (exists r, _win32_fhs s !! a = Some r /\ holds_pair p r /\ used r = true) /\
  (exists r, _win32_fhs s !! b = Some r /\ holds_pair p r /\ used r = true).

Definition fd_of (i : nat) : Z := Z.of_nat i + WIN32_FH_BASE.

Lemma to_int_run i s r :
  Z.of_nat i < WIN32_MAX_FHS -> _win32_fhs s !! i = Some r -> used r = true ->
  _fh_to_int (Some i) s = (Done (fd_of i), s).
Proof.
  intros Hi Hr Hu. unfold _fh_to_int. erewrite bind_done by (unfold get_fh, must; by rewrite Hr).
  rewrite Hu, (proj2 (Z.ltb_lt _ _)) by lia. done.
Qed.

(** The second half of [adb_socketpair]: two entries are joined. *)
Lemma join_run g s a b ra rb :
  a <> b -> _win32_fhs s !! a = Some ra -> _win32_fhs s !! b = Some rb ->
  used ra = true -> used rb = true -> Z.of_nat (length (_win32_fhs s)) = WIN32_MAX_FHS ->
  let p := next_pair s in
  (p ← gets next_pair;
   modify (set_next_pair (p + 1));;
   put_fh a (set_u p);;
   put_fh b (set_u p);;
   sv0 ← _fh_to_int (Some a);
   sv1 ← _fh_to_int (Some b);
   put_pair p {| a2b_bip := set_fds sv0 sv1 (Bip.bip_buffer_init g.1);
                 b2a_bip := set_fds sv1 sv0 (Bip.bip_buffer_init g.2);
                 a_fd := Some a; pair_used := 2 |};;
   mret (0, (sv0, sv1)) : W (Z * (Z * Z))) s
  = (Done (0, (fd_of a, fd_of b)),
     set_pairs (<[p := new_pair g a (fd_of a) (fd_of b)]> (pairs s))
       (set_fhs (<[b := set_u p rb]> (<[a := set_u p ra]> (_win32_fhs s))) (set_next_pair (p + 1) s))).
Proof.
  intros Hab Ha Hb Hua Hub HL p.
  apply lookup_lt_Some in Ha as La. apply lookup_lt_Some in Hb as Lb.
  erewrite bind_done by reflexivity. fold p. erewrite bind_done by reflexivity.
  rewrite (bind_done _ _ _ _ _ (put_fh_run a (set_u p) (set_next_pair (p + 1) s) ra Ha)).
  erewrite bind_done by (apply (put_fh_run b (set_u p) _ rb); cbn; by rewrite list_lookup_insert_ne).
  erewrite bind_done; [|apply (to_int_run a _ (set_u p ra)); [lia| |done];
    cbn; by rewrite list_lookup_insert_ne, list_lookup_insert_eq by done].
  erewrite bind_done; [|apply (to_int_run b _ (set_u p rb)); [lia| |done];
    cbn; by rewrite list_lookup_insert_eq by (by rewrite length_insert)].
  reflexivity.
Qed.

Lemma socketpair_run o g s :
  win_ok s -> 2 <= free_entries s -> sized g ->
  exists a b t s2 s', adb_socketpair o g s =
      (if o t (Malloc sizeof_SocketPairRec) =? 0 then socketpair_fail o (Some a) (Some b) s2
       else (Done (0, (fd_of a, fd_of b)), s')) /\
    (win_ok s2 /\ is_Some (_win32_fhs s2 !! a) /\ is_Some (_win32_fhs s2 !! b)) /\ win_ok s' /\
    ends s' a b (next_pair s) /\ turns s' = turns s /\
    pairs s' = <[next_pair s := new_pair g a (fd_of a) (fd_of b)]> (pairs s).
Proof.
  intros Hok Hf [Hg1 Hg2].
  destruct (alloc_free o _fh_socketpair_class s Hok) as (a & s1 & E1 & Hok1 & T1); [lia|].
  pose proof (taken_free _ _ _ _ T1) as F1.
  destruct (alloc_free o _fh_socketpair_class s1 Hok1) as (b & s2' & E2 & Hok2' & T2'); [lia|].
  set (s2 := set_trace (trace s2' ++ [Malloc sizeof_SocketPairRec]) s2').
  assert (Hok2 : win_ok s2) by (eapply win_ok_same; [..|exact Hok2']; done).
  assert (T2 : taken s1 s2 b _fh_socketpair_class) by exact T2'. clear T2'.
  destruct T1 as (r0 & ra & Hr0 & Hc0 & Ea & Hca & Hua & Hpa & Ep1 & En1 & Et1 & Hi1 & _).
  destruct T2 as (r1 & rb & Hr1 & Hc1 & Eb & Hcb & Hub & Hpb & Ep2 & En2 & Et2 & Hi2 & Hc2).
  set (p := next_pair s). assert (next_pair s2 = p) as Hp by (unfold p; congruence).
  assert (_win32_fhs s1 !! a = Some ra) as Ha1 by (rewrite Ea, list_lookup_insert_eq; [done|by eapply lookup_lt_Some]).
  assert (a <> b) as Hab by (intros ->; rewrite Ha1 in Hr1; congruence).
  assert (_win32_fhs s2 !! a = Some ra) as Ha2 by (by rewrite Eb, list_lookup_insert_ne).
  assert (_win32_fhs s2 !! b = Some rb) as Hb2 by (rewrite Eb, list_lookup_insert_eq; [done|by eapply lookup_lt_Some]).
  set (sp := new_pair g a (fd_of a) (fd_of b)).
  pose proof (win_ok_join s2 a b ra rb sp Hok2 Hab Ha2 Hb2 Hca Hcb (Hpa eq_refl) (Hpb eq_refl)) as HJ.
  rewrite Hp in HJ.
  pose proof (wk_next _ Hok) as Hp0. pose proof (wk_len _ Hok2) as HL2.
  apply lookup_lt_Some in Ha2 as La. apply lookup_lt_Some in Hb2 as Lb.
  exists a, b, (trace s2'), s2. eexists. split; [|split; [split; [done|by split; eexists]|split; [apply HJ|]]].
  - unfold adb_socketpair. rewrite (bind_done _ _ _ _ _ E1), (bind_done _ _ _ _ _ E2).
    erewrite bind_done by reflexivity. fold s2. destruct (_ =? 0); [reflexivity|].
    rewrite (join_run g s2 a b ra rb) by done. rewrite Hp. reflexivity.
  - apply bip_ok_fds. by apply bip_buffer_init_ok.
  - apply bip_ok_fds. by apply bip_buffer_init_ok.
  - done.
  - cbn in Ep2, Et2, Hi2, Hc2 |- *. rewrite Ep2, Ep1, Et2, Et1. split; [|done].
    split; [done|]. cbn. split; [lia|]. split; [lia|]. split; [lia|]. split.
    + exists (set_u p ra). rewrite list_lookup_insert_ne, list_lookup_insert_eq by done. done.
    + exists (set_u p rb). rewrite list_lookup_insert_eq by (by rewrite length_insert). done.
Qed.

(** An entry of a sound table exists. *)
Lemma entry_exists s i r s' : win_ok s -> win_ok s' -> _win32_fhs s !! i = Some r -> is_Some (_win32_fhs s' !! i).
Proof.
  intros Hok Hok' Hi. apply lookup_lt_is_Some. apply lookup_lt_Some in Hi. pose proof (wk_len _ Hok). pose proof (wk_len _ Hok'). lia.
Qed.

(** Without memory the two entries are given back. *)
Lemma socketpair_fail_keeps o a b ra rb s :
  win_ok s -> _win32_fhs s !! a = Some ra -> _win32_fhs s !! b = Some rb ->
  wp (socketpair_fail o (Some a) (Some b)) (fun _ => win_ok) safe s.
Proof.
  intros Hok Ha Hb. unfold socketpair_fail. wp_step. eapply wp_mono; [apply fh_close_ok; [done|by eexists]| |done].
  intros x s1 Hok1. wp_step. eapply wp_mono; [apply fh_close_ok; [done|exact (entry_exists s a ra s1 Hok Hok1 Ha)]| |done]. done.
Qed.

Lemma no_free_entry s : Forall (fun r => clazz r <> None) (_win32_fhs s) -> free_entries s = 0.
Proof.
  intros HF. unfold free_entries. replace (filter _ _) with (@nil FHRec); [done|]. symmetry. apply elem_of_nil_inv.
  intros r [Hr Hin]%list_elem_of_filter. rewrite Forall_forall in HF. by apply (HF r).
Qed.

Lemma socketpair_keeps o g s :
  win_ok s -> sized g -> wp (adb_socketpair o g) (fun _ => win_ok) (safe_op (Pair g) s) s.
Proof.
  intros Hok Hg. destruct (decide (free_entries s < 2)) as [Hf|Hf].
  - assert (Hstop : forall fa fb s', (fb = None) -> wp (socketpair_fail o fa fb) (fun _ => win_ok) (safe_op (Pair g) s) s').
    { intros fa fb s' ->. unfold socketpair_fail, _fh_close. right. by split_and!. }
    unfold adb_socketpair. wp_step. destruct (fh_alloc_ok o _fh_socketpair_class s Hok) as (fa & s1 & E1 & Hok1 & H1).
    unfold wp at 1. rewrite E1. wp_step. destruct (fh_alloc_ok o _fh_socketpair_class s1 Hok1) as (fb & s2 & E2 & Hok2 & H2).
    unfold wp at 1. rewrite E2. assert (fb = None) as ->; [|destruct fa; by apply Hstop].
    destruct fb as [b|]; [exfalso|done]. apply taken_free in H2. pose proof (Nat2Z.is_nonneg (length (filter (fun r => clazz r = None) (_win32_fhs s2)))) as Hn.
    unfold free_entries in H2 at 1. destruct fa as [a|].
    + apply taken_free in H1. lia.
    + destruct H1 as [-> HF]. apply no_free_entry in HF. lia.
  - destruct (socketpair_run o g s Hok) as (a & b & t & s2 & s' & E & (Hok2 & [ra Ha] & [rb Hb]) & Hok' & _); [lia|done|].
    unfold wp. rewrite E. destruct (_ =? 0); [|done]. pose proof (socketpair_fail_keeps o a b ra rb s2 Hok2 Ha Hb) as W.
    unfold wp in W. destruct (socketpair_fail o (Some a) (Some b) s2) as [[?|x] ?]; [done|by left].
Qed.

Lemma shutdown_close_keep o fd : keeps win_ok (adb_shutdown o fd) /\ keeps win_ok (adb_close o fd).
Proof.
  split; (apply with_fd; [keep|]; intros i c).
  - frees.
  - apply frees_close. keep.
Qed.

Lemma win_keeps_skip {A} (m : W A) s P : wp m (fun _ => P) safe s -> wp (m;; skip) (fun _ => P) safe s.
Proof. intros H. wp_step. eapply wp_mono; [done| |done]. done. Qed.

Lemma weaken_safe {A} op (m : W A) P s : wp m (fun _ => P) safe s -> wp m (fun _ => P) (safe_op op s) s.
Proof. intros H. eapply wp_mono; [exact H|done|]. by left. Qed.

(** C17: the descriptor table of the Windows build stays sound.  Whatever Win32,
    Winsock and other threads do, every operation on descriptors (opening,
    reading, writing, seeking, closing, all kinds of sockets, socket pairs),
    with valid or invalid descriptors, returns, exits or waits without undefined
    behaviour, and keeps the invariant: no entry in use without a class, no end
    of a pair that leads to freed memory, every pair counted exactly by its
    ends.  The one exception is a socket pair made when fewer than two entries
    are free, where the code closes a null pointer. *)
Theorem descriptors_stay_ok o tw op s :
  polite o -> win_ok s -> op_sized op -> wp (exec o tw op) (fun _ => win_ok) (safe_op op s) s.
Proof.
  intros Ho Hok Hm. destruct op; cbn [exec];
    lazymatch goal with |- wp (adb_socketpair _ _;; _) _ _ _ => idtac | _ => apply weaken_safe; try apply win_keeps_skip end.
  - by apply (open_keeps o tw path options 0).
  - by apply (open_keeps o tw path 0 mode).
  - by apply (io_keeps o fd len [] 0 0).
  - by apply (io_keeps o fd 0 buf 0 0).
  - by apply (io_keeps o fd 0 [] pos origin).
  - by apply (shutdown_close_keep o fd).
  - by apply (shutdown_close_keep o fd).
  - by apply (socket_keeps o port type).
  - by apply (socket_keeps o port type).
  - by apply network_client_keeps.
  - by apply (socket_keeps o port type).
  - by apply (accept_keeps o fd).
  - by apply (accept_keeps o fd).
  - wp_step. eapply wp_mono; [by apply socketpair_keeps| |done]. done.
Qed.

(** The table at start-up. *)
Definition start_up (ts : list Bip.turn) : win :=
  {| _win32_fhs := replicate 128 empty_fh; _win32_fh_count := 0; _winsock_init := false; pairs := ∅;
     next_pair := 1; errno := 0; trace := []; turns := ts |}.

Lemma start_up_ok ts : win_ok (start_up ts).
Proof.
  split; cbn [start_up _win32_fhs _win32_fh_count pairs next_pair]; try done.
  - intros i r _ [-> _]%lookup_replicate. done.
  - apply Forall_replicate. by split.
Qed.

(** Calls that succeed: every handle and socket is 7. *)
Definition yes (t : list wcall) (c : wcall) : wres c :=
  match c with
  | ReadFile _ n => Some (replicate (Z.to_nat n) 0)
  | Recv _ n => Some []
  | WriteFile _ b => Some (Z.of_nat (length b))
  | Gethostbyname _ => Some (2, [10; 0; 0; 1])
  | WSAEnumNetworkEvents _ _ => None
  | _ => 7
  end.

Lemma descriptors_stay_ok_witness :
  let op := Pair (replicate 4096 0, replicate 4096 0) in
  polite yes /\ win_ok (start_up []) /\ op_sized op /\
  wp (exec yes (fun b => b) op) (fun _ => win_ok) (safe_op op (start_up [])) (start_up []).
Proof.
  intros op. assert (polite yes) as Hp by (intros t host ty a E; injection E as <- <-; cbn; lia).
  assert (op_sized op) as Hm by (split; vm_compute; reflexivity).
  exact (conj Hp (conj (start_up_ok []) (conj Hm
    (descriptors_stay_ok yes (fun b => b) op _ Hp (start_up_ok []) Hm)))).
Defined.

(** ** A pair as a pipe *)

Lemma from_int_run i s r :
  Z.of_nat i < _win32_fh_count s -> _win32_fhs s !! i = Some r -> used r = true ->
  _fh_from_int (fd_of i) s = (Done (Some i), s).
Proof.
  intros Hi Hr Hu. unfold _fh_from_int, fd_of. erewrite bind_done by reflexivity.
  rewrite Z.add_simpl_r, Nat2Z.id, (proj2 (Z.ltb_ge _ _)), Z.geb_leb, (proj2 (Z.leb_gt _ _)) by lia. cbn [orb].
  erewrite bind_done by (unfold get_fh, must; by rewrite Hr). by rewrite Hu.
Qed.

(** Entry [i] is an end in use of the pair [sp] at [p]. *)
Definition end_of (s : win) (i : nat) (p : Z) (sp : SocketPairRec) (r : FHRec) : Prop :=
  Z.of_nat i < _win32_fh_count s /\ _win32_fhs s !! i = Some r /\ used r = true /\ holds_pair p r /\
  p <> 0 /\ pairs s !! p = Some sp.

Lemma write_run o i p sp r d n s :
  end_of s i p sp r ->
  adb_write o (fd_of i) d n s = on_bip p (bool_decide (a_fd sp = Some i)) (Bip.bip_buffer_write d n) s.
Proof.
  intros (Hi & Hr & Hu & [Hc Hp] & Hp0 & Hsp). unfold adb_write.
  assert (get_fh i s = (Done r, s)) as G by (unfold get_fh, must; by rewrite Hr).
  rewrite (bind_done _ _ _ _ _ (from_int_run _ _ _ Hi Hr Hu)). unfold class_of.
  rewrite bind_assoc, (bind_done _ _ _ _ _ G). unfold must. rewrite Hc.
  erewrite bind_done by reflexivity. unfold _fh_socketpair_write. rewrite (bind_done _ _ _ _ _ G), Hp.
  rewrite (proj2 (Z.eqb_neq _ _)) by done. by erewrite bind_done by (unfold get_pair, must; by rewrite Hsp).
Qed.

Lemma read_run o i p sp r n s :
  end_of s i p sp r ->
  adb_read o (fd_of i) n s = on_bip p (negb (bool_decide (a_fd sp = Some i))) (Bip.bip_buffer_read n) s.
Proof.
  intros (Hi & Hr & Hu & [Hc Hp] & Hp0 & Hsp). unfold adb_read.
  assert (get_fh i s = (Done r, s)) as G by (unfold get_fh, must; by rewrite Hr).
  rewrite (bind_done _ _ _ _ _ (from_int_run _ _ _ Hi Hr Hu)). unfold class_of.
  rewrite bind_assoc, (bind_done _ _ _ _ _ G). unfold must. rewrite Hc.
  erewrite bind_done by reflexivity. unfold _fh_socketpair_read. rewrite (bind_done _ _ _ _ _ G), Hp.
  rewrite (proj2 (Z.eqb_neq _ _)) by done. by erewrite bind_done by (unfold get_pair, must; by rewrite Hsp).
Qed.

Definition cut_pair (sp : SocketPairRec) (i : nat) : SocketPairRec :=
  {| a2b_bip := Bip.bip_buffer_close (a2b_bip sp); b2a_bip := Bip.bip_buffer_close (b2a_bip sp);
     a_fd := if bool_decide (a_fd sp = Some i) then None else a_fd sp; pair_used := pair_used sp - 1 |}.

Definition freed (r : FHRec) : FHRec :=
  {| clazz := None; used := false; eof := false; u := 0; event := event r; mask := mask r |}.

Lemma close_run o i p sp r s :
  end_of s i p sp r ->
  adb_close o (fd_of i) s
  = (Done 0, set_fhs (<[i := freed r]> (_win32_fhs s))
       (set_pairs (if pair_used sp - 1 =? 0 then delete p (pairs s) else <[p := cut_pair sp i]> (pairs s)) s)).
Proof.
  intros (Hi & Hr & Hu & [Hc Hp] & Hp0 & Hsp). unfold adb_close. apply lookup_lt_Some in Hr as Hlt.
  assert (get_fh i s = (Done r, s)) as G by (unfold get_fh, must; by rewrite Hr).
  rewrite (bind_done _ _ _ _ _ (from_int_run _ _ _ Hi Hr Hu)). unfold _fh_close.
  rewrite bind_assoc. erewrite bind_done by reflexivity. rewrite bind_assoc, (bind_done _ _ _ _ _ G), Hu.
  unfold class_of. rewrite !bind_assoc, (bind_done _ _ _ _ _ G). unfold must at 1. rewrite Hc.
  erewrite bind_done by reflexivity. cbn iota. unfold _fh_socketpair_close.
  rewrite !bind_assoc, (bind_done _ _ _ _ _ G), Hp, (proj2 (Z.eqb_neq _ _)) by done.
  rewrite !bind_assoc. erewrite bind_done by (unfold get_pair, must; by rewrite Hsp). fold (cut_pair sp i).
  rewrite !bind_assoc. erewrite bind_done by reflexivity. cbn [pair_used cut_pair].
  destruct (pair_used sp - 1 =? 0); rewrite !bind_assoc; erewrite bind_done by reflexivity; cbn;
    rewrite ?delete_insert_eq, !bind_assoc; (erewrite bind_done by (by apply put_fh_run)); cbn;
    rewrite bind_ret, bind_assoc; (erewrite bind_done by (apply put_fh_run; cbn; by apply list_lookup_insert_eq));
    cbn; rewrite list_insert_insert_eq; reflexivity.
Qed.

Lemma wait_now can evt s : can (Bip.bip s) = true -> Bip.wait_for can evt s = (Done None, s).
Proof.
  intros H. unfold Bip.wait_for. cbn [loop_fuel]. rewrite bind_assoc. erewrite bind_done by reflexivity.
  by rewrite H.
Qed.

Lemma wait_closed can evt s :
  can (Bip.bip s) = false -> Bip.closed (Bip.bip s) = true ->
  Bip.wait_for can evt s
  = (Done (Some (-1)), {| Bip.bip := Bip.bip s; Bip.turns := Bip.turns s; Bip.errno := Bip.EPIPE |}).
Proof.
  intros H Hc. unfold Bip.wait_for. cbn [loop_fuel]. rewrite bind_assoc. erewrite bind_done by reflexivity.
  rewrite H. cbn [negb]. rewrite bind_assoc. erewrite bind_done by reflexivity. by rewrite Hc.
Qed.

(** With no other thread an operation that need not wait is its locked part. *)
Lemma write_now src len b e :
  0 < len -> Bip.can_write b = true ->
  Bip.bip_buffer_write src len {| Bip.bip := b; Bip.turns := []; Bip.errno := e |}
  = ((Bip.write_locked src len b).1,
     {| Bip.bip := (Bip.write_locked src len b).2; Bip.turns := []; Bip.errno := e |}).
Proof.
  intros Hl Hw. unfold Bip.bip_buffer_write. rewrite (proj2 (Z.leb_gt _ _)) by done.
  erewrite bind_done by reflexivity. erewrite bind_done by (by apply wait_now).
  unfold zoom. cbn. by destruct (Bip.write_locked src len b).
Qed.

Lemma read_now len b e got b' :
  0 < len -> Bip.can_read b = true -> Bip.read_locked len b = (Done got, b') ->
  Bip.bip_buffer_read len {| Bip.bip := b; Bip.turns := []; Bip.errno := e |}
  = (Done (Z.of_nat (length got), got), {| Bip.bip := b'; Bip.turns := []; Bip.errno := e |}).
Proof.
  intros Hl Hw E. unfold Bip.bip_buffer_read. rewrite (proj2 (Z.leb_gt _ _)) by done.
  erewrite bind_done by reflexivity. erewrite bind_done by (by apply wait_now).
  cbn beta iota. erewrite bind_done by (unfold zoom; cbn; by rewrite E). done.
Qed.

(** On an empty buffer that is closed a read fails. *)
Lemma read_closed len b e :
  0 < len -> Bip.can_read b = false -> Bip.closed b = true ->
  Bip.bip_buffer_read len {| Bip.bip := b; Bip.turns := []; Bip.errno := e |}
  = (Done (-1, []), {| Bip.bip := b; Bip.turns := []; Bip.errno := Bip.EPIPE |}).
Proof.
  intros Hl Hr Hc. unfold Bip.bip_buffer_read. rewrite (proj2 (Z.leb_gt _ _)) by done.
  erewrite bind_done by reflexivity. erewrite bind_done by (by apply wait_closed).
  done.
Qed.

(** The direction of a pair that entry [i] writes to, or the other one. *)
Definition direction (sp : SocketPairRec) (a2b : bool) : Bip.BipBuffer :=
  if a2b then a2b_bip sp else b2a_bip sp.

Definition set_direction (sp : SocketPairRec) (a2b : bool) (b : Bip.BipBuffer) : SocketPairRec :=
  if a2b then {| a2b_bip := b; b2a_bip := b2a_bip sp; a_fd := a_fd sp; pair_used := pair_used sp |}
  else {| a2b_bip := a2b_bip sp; b2a_bip := b; a_fd := a_fd sp; pair_used := pair_used sp |}.

Lemma on_bip_run {A} p a2b (m : M Bip.bsys A) s sp a b e :
  pairs s !! p = Some sp -> turns s = [] ->
  m {| Bip.bip := direction sp a2b; Bip.turns := []; Bip.errno := errno s |}
  = (Done a, {| Bip.bip := b; Bip.turns := []; Bip.errno := e |}) ->
  on_bip p a2b m s = (Done a, set_pairs (<[p := set_direction sp a2b b]> (pairs s)) (set_win_errno e s)).
Proof.
  intros Hp Ht E. unfold on_bip. rewrite Hp. unfold direction in E. rewrite Ht, E. cbn.
  destruct s; cbn in *; subst. by destruct a2b.
Qed.

Lemma pipe_write o i p sp r d dir s :
  end_of s i p sp r -> turns s = [] -> bool_decide (a_fd sp = Some i) = dir ->
  bip_ok (direction sp dir) -> queue (direction sp dir) = [] ->
  0 < Z.of_nat (length d) <= Bip.BIP_BUFFER_SIZE ->
  exists b e, adb_write o (fd_of i) d (Z.of_nat (length d)) s
              = (Done (Z.of_nat (length d)), set_pairs (<[p := set_direction sp dir b]> (pairs s)) (set_win_errno e s)) /\
              bip_ok b /\ queue b = d.
Proof.
  intros He Ht Hdir Hb Hq Hd. rewrite (write_run _ _ _ _ _ _ _ _ He), Hdir.
  assert (room (direction sp dir) = Bip.BIP_BUFFER_SIZE) as HR by (unfold room; rewrite Hq; done).
  assert (Bip.can_write (direction sp dir) = true) as Hw by (rewrite can_write_room, HR by done; done).
  destruct (write_locked_ok d (Z.of_nat (length d)) _ Hb Hw) as (b & E & _ & Hb' & Hq' & _); [lia|].
  rewrite HR, Z.min_l in E, Hq' by lia. exists b, (errno s). split; [|split; [done|]].
  - apply on_bip_run; [apply He|done|]. rewrite write_now by (done || lia). by rewrite E.
  - by rewrite Hq', Hq, Nat2Z.id, firstn_all.
Qed.

(** Reading to the end of a closed direction. *)
Lemma pipe_drain o j p sp r d dir s :
  end_of s j p sp r -> turns s = [] -> negb (bool_decide (a_fd sp = Some j)) = dir ->
  bip_ok (direction sp dir) -> queue (direction sp dir) = d -> d <> [] ->
  Bip.closed (direction sp dir) = true ->
  exists b s4, adb_read o (fd_of j) (Z.of_nat (length d)) s = (Done (Z.of_nat (length d), d), s4) /\
    adb_read o (fd_of j) 1 s4
    = (Done (-1, []), set_pairs (<[p := set_direction sp dir b]> (pairs s)) (set_win_errno Bip.EPIPE s)).
Proof.
  intros He Ht Hdir Hb Hq Hd Hc. rewrite (read_run _ _ _ _ _ _ _ He), Hdir.
  assert (0 < Z.of_nat (length d)) as Hl by (destruct d; [done|cbn; lia]).
  assert (Bip.can_read (direction sp dir) = true) as Hr
    by (rewrite can_read_queue by done; apply negb_true_iff, bool_decide_eq_false; by rewrite Hq).
  destruct (read_locked_ok (Z.of_nat (length d)) _ Hb Hr Hl) as (b & E & _ & Hb' & Hq' & Hc' & _).
  rewrite Hq, Nat2Z.id, firstn_all in E. rewrite Hq, Nat2Z.id, drop_all in Hq'.
  destruct He as (Hi & Hfh & Hu & Hh & Hp0 & Hsp). eexists b, _. split.
  { apply on_bip_run; [done|done|]. by apply (read_now _ _ _ _ b). }
  assert (end_of (set_pairs (<[p := set_direction sp dir b]> (pairs s)) (set_win_errno (errno s) s))
            j p (set_direction sp dir b) r) as He'
    by (split_and!; try done; apply lookup_insert_eq).
  rewrite (read_run _ _ _ _ _ _ _ He').
  replace (a_fd (set_direction sp dir b)) with (a_fd sp) by (by destruct dir). rewrite Hdir.
  assert (direction (set_direction sp dir b) dir = b) as ED by (by destruct dir).
  erewrite on_bip_run; [|apply He'|done|rewrite ED; apply read_closed; [done| |congruence]].
  - cbn. rewrite insert_insert_eq. replace (set_direction (set_direction sp dir b) dir b) with (set_direction sp dir b) by (by destruct dir).
    done.
  - rewrite can_read_queue, Hq' by done. done.
Qed.

(** One end writes and closes; the other is left with the data. *)
Lemma pipe_send o i j p sp ri rj d dir s :
  end_of s i p sp ri -> end_of s j p sp rj -> i <> j -> turns s = [] -> pair_used sp = 2 ->
  bool_decide (a_fd sp = Some i) = dir -> (dir = false -> a_fd sp = Some j) ->
  bip_ok (direction sp dir) -> queue (direction sp dir) = [] ->
  0 < Z.of_nat (length d) <= Bip.BIP_BUFFER_SIZE ->
  exists sp' s2 s3,
    adb_write o (fd_of i) d (Z.of_nat (length d)) s = (Done (Z.of_nat (length d)), s2) /\
    adb_close o (fd_of i) s2 = (Done 0, s3) /\
    end_of s3 j p sp' rj /\ turns s3 = [] /\ pair_used sp' = 1 /\
    negb (bool_decide (a_fd sp' = Some j)) = dir /\ bip_ok (direction sp' dir) /\
    queue (direction sp' dir) = d /\ Bip.closed (direction sp' dir) = true /\
    pairs s3 = <[p := sp']> (pairs s).
Proof.
  intros Wi Wj Hij Ht Hu Hdir Hback Hb Hq Hd.
  destruct (pipe_write o i p sp ri d dir s Wi) as (b1 & e1 & E2 & Hb1 & Hq1); [done..|].
  set (s2 := set_pairs _ _) in E2. set (sp2 := set_direction sp dir b1) in *.
  assert (pair_used sp2 = 2 /\ a_fd sp2 = a_fd sp) as [Hu2 Ha2] by (unfold sp2; by destruct dir).
  assert (end_of s2 i p sp2 ri) as Wi2.
  { destruct Wi as (? & ? & ? & ? & ? & _). split_and!; try done. apply lookup_insert_eq. }
  pose proof (close_run o i p sp2 ri s2 Wi2) as E3. rewrite Hu2 in E3. cbn in E3.
  set (s3 := set_fhs _ _) in E3. set (sp3 := cut_pair sp2 i) in *.
  assert (end_of s3 j p sp3 rj) as Wj3.
  { destruct Wj as (? & ? & ? & ? & ? & _). split_and!; try done; cbn; [by rewrite list_lookup_insert_ne|].
    apply lookup_insert_eq. }
  assert (direction sp3 dir = Bip.bip_buffer_close b1) as Hd3 by (by unfold sp3, sp2; destruct dir).
  destruct (bip_buffer_close_ok b1 Hb1) as [Hb3 Hq3].
  exists sp3, s2, s3. rewrite Hd3. split_and!; try done; try congruence.
  - unfold sp3, cut_pair. cbn [pair_used]. lia.
  - unfold sp3, cut_pair. cbn [a_fd]. rewrite Ha2, Hdir. destruct dir; [done|].
    apply negb_false_iff, bool_decide_eq_true. auto.
  - cbn. by rewrite insert_insert_eq.
Qed.

(** an emulated socket pair is a pipe.  [adb_socketpair] on a table with two
    free entries and with memory gives two different descriptors; whatever is written to one of
    them, up to the capacity, can be read from the other even after the writer
    has closed its end; the next read fails with EPIPE instead of waiting; and
    when both ends are closed the memory of the pair is freed, and its two
    entries can be used again. *)
Theorem socketpair_lifecycle o g d (forward : bool) s :
  win_ok s -> turns s = [] -> may o g s -> 0 < Z.of_nat (length d) <= Bip.BIP_BUFFER_SIZE ->
  let n := Z.of_nat (length d) in
  exists x y s1 s2 s3 s4 s5 s6,
    adb_socketpair o g s = (Done (0, if forward then (x, y) else (y, x)), s1) /\ x <> y /\
    adb_write o x d n s1 = (Done n, s2) /\ adb_close o x s2 = (Done 0, s3) /\
    adb_read o y n s3 = (Done (n, d), s4) /\
    adb_read o y 1 s4 = (Done (-1, []), s5) /\ errno s5 = Bip.EPIPE /\
    adb_close o y s5 = (Done 0, s6) /\ pairs s6 = pairs s /\ turns s6 = [].
Proof.
  intros Hok Ht (Hf & [Hg1 Hg2] & Hmem) Hd n.
  destruct (socketpair_run o g s Hok Hf (conj Hg1 Hg2)) as (a & b & t & s0 & s1 & E1 & _ & Hok1 & Hends & Ht1 & Hp1).
  rewrite (proj2 (Z.eqb_neq _ _) (Hmem t)) in E1.
  destruct Hends as (Hab & Hp0 & Ha & Hb & (ra & Hra & Hha & Hua) & (rb & Hrb & Hhb & Hub)).
  set (p := next_pair s) in *. set (sp := new_pair g a (fd_of a) (fd_of b)) in *.
  (* the writing end [i], the reading end [j] *)
  set (i := if forward then a else b). set (j := if forward then b else a).
  set (ri := if forward then ra else rb). set (rj := if forward then rb else ra).
  assert (end_of s1 i p sp ri /\ end_of s1 j p sp rj) as [Wi Wj].
  { unfold i, j, ri, rj, end_of. rewrite Hp1, lookup_insert_eq. by destruct forward. }
  assert (i <> j) as Hij by (unfold i, j; destruct forward; congruence).
  destruct (pipe_send o i j p sp ri rj d forward s1)
    as (sp3 & s2 & s3 & E2 & E3 & Wj3 & Ht3 & Hu3 & Hdir3 & Hb3 & Hq3 & Hc3 & Hp3); try done; try congruence.
  { cbn. unfold i. destruct forward; [by apply bool_decide_eq_true|apply bool_decide_eq_false; congruence]. }
  { cbn. unfold j. by intros ->. }
  { unfold direction, sp. destruct forward; cbn; by apply bip_ok_fds, bip_buffer_init_ok. }
  { by destruct forward. }
  destruct (pipe_drain o j p sp3 rj d forward s3 Wj3) as (b4 & s4 & E4 & E5); try done; [intros ->; cbn in Hd; lia|].
  set (s5 := set_pairs _ _) in E5. set (sp5 := set_direction sp3 forward b4) in *.
  assert (end_of s5 j p sp5 rj) as Wj5.
  { destruct Wj3 as (? & ? & ? & ? & ? & _). split_and!; try done. apply lookup_insert_eq. }
  pose proof (close_run o j p sp5 rj s5 Wj5) as E6.
  assert (pair_used sp5 = 1) as Hu5 by (unfold sp5; by destruct forward).
  rewrite Hu5 in E6. change (1 - 1 =? 0) with true in E6. cbv iota in E6.
  exists (fd_of i), (fd_of j), s1, s2, s3, s4, s5. eexists.
  split_and!; [|unfold fd_of; lia|exact E2|exact E3|exact E4|exact E5|done|exact E6| |].
  - rewrite E1. unfold i, j. by destruct forward.
  - cbn. rewrite Hp3, Hp1, !insert_insert_eq, delete_insert_eq. apply delete_id.
    destruct (pairs s !! p) eqn:E; [|done]. apply (wk_pairs _ Hok) in E. destruct (pk_addr _ _ _ _ E).
    unfold p in *. lia.
  - cbn. congruence.
Qed.

Lemma socketpair_lifecycle_witness :
  exists x y s1 s2,
    adb_socketpair yes (replicate 4096 0, replicate 4096 0) (start_up []) = (Done (0, (y, x)), s1) /\
    adb_write yes x [1; 2; 3] 3 s1 = (Done 3, s2) /\ x <> y.
Proof.
  assert (may yes (replicate 4096 0, replicate 4096 0) (start_up [])) as Hm
    by (split; [|split; [split|]]; [vm_compute; congruence|done..]).
  destruct (socketpair_lifecycle yes (replicate 4096 0, replicate 4096 0) [1; 2; 3] false (start_up [])
              (start_up_ok []) eq_refl Hm ltac:(vm_compute; split; [reflexivity|discriminate]))
    as (x & y & s1 & s2 & s3 & s4 & s5 & s6 & E1 & Hxy & E2 & _).
  exists x, y, s1, s2. exact (conj E1 (conj E2 Hxy)).
Defined.

(** ** What the code does not expect *)

Definition busy_fh : FHRec :=
  {| clazz := Some _fh_file_class; used := true; eof := false; u := 7; event := 0; mask := 0 |}.

(** With one entry left [adb_socketpair] takes it, gets NULL for the other end
    and closes that. *)
Theorem socketpair_closes_null :
  let s := set_count 127 (set_fhs (replicate 127 busy_fh ++ [empty_fh]) (start_up [])) in
  win_ok s /\ free_entries s = 1 /\
  (adb_socketpair yes ([], []) s).1 = Stop (Undef "null descriptor record").
Proof.
  intros s. split_and!; [|vm_compute; reflexivity|vm_compute; reflexivity].
  assert (Forall (fun r => fh_ok (pairs s) r /\ ~ holds_pair 1 r) (_win32_fhs s)) as HF.
  { apply Forall_app. split; [apply Forall_replicate|apply Forall_singleton];
      (split; [by split|unfold holds_pair; cbn; intuition congruence]). }
  split; try (cbn -[replicate]; done).
  - intros i r Hi Hr. cbn -[replicate] in *. rewrite lookup_app_r in Hr by (rewrite length_replicate; lia).
    rewrite length_replicate in Hr. destruct (i - 127)%nat; cbn in Hr; by simplify_eq.
  - eapply Forall_impl; [exact HF|]. by intros r [? _].
Qed.

(** Winsock answers that [socket] has failed. *)
Definition no_socket (t : list wcall) (c : wcall) : wres c :=
  match c with
  | Socket _ _ => -1
  | ReadFile _ _ | Recv _ _ | WriteFile _ _ | Gethostbyname _ | WSAEnumNetworkEvents _ _ => None
  | _ => 0
  end.

(** A loopback server that cannot get a socket keeps its entry for ever; the
    other server gives it back. *)
Theorem loopback_server_leaks :
  let '(r, s) := socket_loopback_server no_socket 5037 SOCK_STREAM (start_up []) in
  r = Done (-1) /\ free_entries s = 127 /\
  let '(r', s') := socket_inaddr_any_server no_socket 5037 SOCK_STREAM (start_up []) in
  r' = Done (-1) /\ free_entries s' = 128.
Proof. vm_compute. done. Qed.

(** ** Splitting a string *)

(** The tokens of repeated calls, the first with the string, the others with NULL. *)
Fixpoint strtok_all (n : nat) (s : option bytes) (delim : bytes) (last : option bytes) : list bytes :=
  match n with
  | O => []
  | S n' =>
      match adb_strtok_r s delim last with
      | (Some tok, last') => tok :: strtok_all n' None delim last'
      | (None, _) => []
      end
  end.

(** The maximal runs of characters that are not delimiters. *)
Fixpoint fields (delim s : bytes) : list bytes :=
  match s with
  | [] => []
  | c :: s' =>
      if bool_decide (c ∈ delim) then fields delim s'
      else
        let starts := match s' with d :: _ => bool_decide (d ∉ delim) | [] => false end in
        match fields delim s' with
        | t :: ts => if (starts : bool) then (c :: t) :: ts else [c] :: t :: ts
        | [] => [[c]]
        end
  end.

Lemma fields_span delim s : fields delim (span_delims delim s) = fields delim s.
Proof. induction s as [|c s IH]; cbn; [done|]. case_bool_decide as H; [done|]. cbn. by rewrite bool_decide_eq_false_2. Qed.

Lemma fields_scan delim c s :
  c ∉ delim ->
  let '(tok, last) := scan_token delim (c :: s) in
  fields delim (c :: s) = tok :: (match last with Some r => fields delim r | None => [] end) /\
  (match last with Some r => length r < length (c :: s) | None => True end)%nat.
Proof.
  revert c. induction s as [|d s IH]; intros c Hc; cbn [scan_token fields]; rewrite !bool_decide_eq_false_2 by done.
  - done.
  - case_bool_decide as Hd.
    + rewrite bool_decide_eq_false_2 by tauto. split; [|cbn; lia]. by destruct (fields delim s).
    + specialize (IH d Hd). cbn [scan_token fields] in *. rewrite !(bool_decide_eq_false_2 (d ∈ delim)) in IH by done.
      rewrite (bool_decide_eq_true_2 (d ∉ delim)) by done.
      destruct (scan_token delim s) as [t last]. destruct IH as [E Hlt]. rewrite E. split; [done|].
      destruct last; cbn in *; lia.
Qed.

(** repeated calls of [adb_strtok_r] split a string into its fields: the
    maximal runs of characters that are not delimiters, all of them, in order;
    with as many calls as the string has characters, plus one, the splitting
    has ended. *)
Theorem strtok_splits delim s n :
  (length s < n)%nat -> strtok_all n (Some s) delim None = fields delim s.
Proof.
  assert (forall n s s0 last, (match s0 with Some x => Some x | None => last end) = Some s -> (length s < n)%nat ->
    strtok_all n s0 delim last = fields delim s) as H; [|by intros; eapply H].
  clear n s. intros n. induction n as [|m IH]; intros t s0 last E Hl; [lia|].
  cbn [strtok_all]. unfold adb_strtok_r. rewrite E, <-(fields_span delim t).
  assert (length (span_delims delim t) <= length t)%nat as Hs.
  { clear. induction t as [|c t IH]; cbn; [lia|]. case_bool_decide; cbn; lia. }
  assert (forall c s', span_delims delim t = c :: s' -> c ∉ delim) as Hc.
  { clear. induction t as [|c t IH]; cbn; [done|]. case_bool_decide; [apply IH|]. by intros ? ? [= <- <-]. }
  destruct (span_delims delim t) as [|c s']; [done|].
  pose proof (fields_scan delim c s' (Hc _ _ eq_refl)) as HF.
  destruct (scan_token delim (c :: s')) as [tok last']. destruct HF as [-> Hlt]. f_equal.
  destruct last' as [r|]; [|by destruct m]. apply IH; [done|lia].
Qed.

Lemma strtok_splits_witness :
  strtok_all 13 (Some (str "host:tcp::80")) (str ":") None = [str "host"; str "tcp"; str "80"].
Proof. rewrite (strtok_splits (str ":") (str "host:tcp::80") 13) by (cbn; lia). vm_compute. reflexivity. Defined.
