(* ===== verification/Win32Events.v ===== *)
(** * sysdeps_win32.cpp: the event loop of the Windows build

    The same interface as [fdevent.c] over [WaitForMultipleObjects].  An object
    that watches its descriptor has a hook on the list of the looper; a hook
    holds the events wanted and the functions of the descriptor's class that
    say whether they have happened and what to wait for.  The objects, the table
    of objects by descriptor and the pending list are those of [Fdevent].

    The list of hooks is a list in the order of its [next] pointers, a hook is
    its position; hooks are reused through [_free_hooks], of which only the
    number matters, because every field is set again.  A wait lets the other
    threads run: what they do to the socket pairs is the next entry of
    [meanwhile], and a wait with no entry left never returns ([Blocked]). *)

From S2P Require Import Prelude Effects DList Os Sysdeps Wire Globals Fdevent BipBuffer Win32.

Module WinEvents.
Import Win32.

(** ** State *)

(** A function pointer of a hook names the class whose function it is; [None] is
    NULL. *)
Record EventHook := {
  hk_fh : nat;
  hk_h : handle;
  wanted : Z;
  ready : Z;
  prepare : option FHClass;
  start : option FHClass;
  stop_ : option FHClass;
  check : option FHClass;
  peek : option FHClass;
}.

(** What another thread does to one direction of a pair. *)
Definition other_op : Type := Z * bool * Bip.bip_op.

Record evstate := {
  ev_win : win;
  hooks : list EventHook;
  _free_hooks : nat;
  htab : list handle;
  fde_heap : gmap N fdevent;
  fd_table : list (option ptr);
  fd_table_max : Z;
  meanwhile : list (list other_op);
}.

Abbreviation E := (M evstate).

#[global] Instance Budget_evstate : Budget evstate := fun s => length (meanwhile s).

#[global] Program Instance Lens_ev_win : Lens evstate win := {|
  view := ev_win;
  put w s := {| ev_win := w; hooks := hooks s; _free_hooks := _free_hooks s; htab := htab s; fde_heap := fde_heap s;
    fd_table := fd_table s; fd_table_max := fd_table_max s; meanwhile := meanwhile s |};
|}.
Next Obligation. done. Qed.
Next Obligation. by intros []. Qed.
Next Obligation. done. Qed.

#[global] Program Instance Lens_ev_heap : Lens evstate (gmap N fdevent) := {|
  view := fde_heap;
  put h s := {| ev_win := ev_win s; hooks := hooks s; _free_hooks := _free_hooks s; htab := htab s; fde_heap := h;
    fd_table := fd_table s; fd_table_max := fd_table_max s; meanwhile := meanwhile s |};
|}.
Next Obligation. done. Qed.
Next Obligation. by intros []. Qed.
Next Obligation. done. Qed.

Definition set_hooks (l : list EventHook) (n : nat) (s : evstate) : evstate :=
  {| ev_win := ev_win s; hooks := l; _free_hooks := n; htab := htab s; fde_heap := fde_heap s;
     fd_table := fd_table s; fd_table_max := fd_table_max s; meanwhile := meanwhile s |}.

Definition set_htab (l : list handle) (s : evstate) : evstate :=
  {| ev_win := ev_win s; hooks := hooks s; _free_hooks := _free_hooks s; htab := l; fde_heap := fde_heap s;
     fd_table := fd_table s; fd_table_max := fd_table_max s; meanwhile := meanwhile s |}.

Definition set_table (t : list (option ptr)) (max : Z) (s : evstate) : evstate :=
  {| ev_win := ev_win s; hooks := hooks s; _free_hooks := _free_hooks s; htab := htab s; fde_heap := fde_heap s;
     fd_table := t; fd_table_max := max; meanwhile := meanwhile s |}.

Definition set_meanwhile (l : list (list other_op)) (s : evstate) : evstate :=
  {| ev_win := ev_win s; hooks := hooks s; _free_hooks := _free_hooks s; htab := htab s; fde_heap := fde_heap s;
     fd_table := fd_table s; fd_table_max := fd_table_max s; meanwhile := l |}.

Definition win_ {A} (m : W A) : E A := zoom m.

Definition deref (p : ptr) : E fdevent := zoom (load p).

Definition assign (p : ptr) (f : fdevent -> fdevent) : E unit := zoom (store p f).

(** [fd_table[i]] *)
Definition table_get (i : Z) : E ptr :=
  if i <? 0 then undef "fd_table index" else
  x ← must "fd_table index" (fun s => fd_table s !! Z.to_nat i);
  match x with
  | Some p => mret p
  | None => undef "indeterminate fd_table entry"
  end.

Definition table_set (i : Z) (p : ptr) : E unit :=
  _ ← must "fd_table index" (fun s => fd_table s !! Z.to_nat i);
  modify (fun s => set_table (<[Z.to_nat i := Some p]> (fd_table s)) (fd_table_max s) s).

(** ** Hooks *)

Definition hk_set_h (h : handle) (k : EventHook) : EventHook :=
  {| hk_fh := hk_fh k; hk_h := h; wanted := wanted k; ready := ready k; prepare := prepare k;
     start := start k; stop_ := stop_ k; check := check k; peek := peek k |}.

Definition hk_set_wanted (w : Z) (k : EventHook) : EventHook :=
  {| hk_fh := hk_fh k; hk_h := hk_h k; wanted := w; ready := ready k; prepare := prepare k;
     start := start k; stop_ := stop_ k; check := check k; peek := peek k |}.

Definition hk_set_ready (r : Z) (k : EventHook) : EventHook :=
  {| hk_fh := hk_fh k; hk_h := hk_h k; wanted := wanted k; ready := r; prepare := prepare k;
     start := start k; stop_ := stop_ k; check := check k; peek := peek k |}.

Definition INVALID : handle := Handle INVALID_HANDLE_VALUE.

Definition get_hook (i : nat) : E EventHook := must "no hook" (fun s => hooks s !! i).

Definition put_hook (i : nat) (g : EventHook -> EventHook) : E unit :=
  k ← get_hook i;
  modify (fun s => set_hooks (<[i := g k]> (hooks s)) (_free_hooks s) s).

(** [hook->ready |= flag] *)
Definition add_ready (i : nat) (flag : Z) : E unit := put_hook i (fun k => hk_set_ready (Z.lor (ready k) flag) k).

Definition new_hook (fh : nat) : EventHook :=
  {| hk_fh := fh; hk_h := INVALID; wanted := 0; ready := 0; prepare := None; start := None; stop_ := None;
     check := None; peek := None |}.

(** [event_looper_find_p]: the position of the hook of [fh], or the end of the list. *)
Fixpoint event_looper_find_p (l : list EventHook) (fh : option nat) : nat :=
  match l with
  | [] => 0%nat
  | k :: l' => if bool_decide (Some (hk_fh k) = fh) then 0%nat else S (event_looper_find_p l' fh)
  end.

Section events.
Context (oracle : list wcall -> forall c, wres c).
Context (sizeof_ptr : Z).

Definition wcall_ (c : wcall) : E (wres c) := win_ (call oracle c).

Definition event_hook_alloc (fh : nat) : E EventHook :=
  n ← gets _free_hooks;
  match n with
  | S n' => modify (fun s => set_hooks (hooks s) n' s);; mret (new_hook fh)
  | O =>
      m ← wcall_ (Malloc 44);
      if m =? 0 then abort "could not allocate event hook" else mret (new_hook fh)
  end.

(** ** The pending list *)

Definition fdevent_plist_enqueue (node : ptr) : E unit :=
  zoom (
    store_next node list_pending;;
    lp ← load_prev list_pending;
    store_prev node lp;;
    np ← load_prev node;
    store_next np node;;
    store_prev list_pending node).

Definition fdevent_plist_remove (node : ptr) : E unit :=
  zoom (
    p ← load_prev node;
    n ← load_next node;
    store_next p n;;
    n' ← load_next node;
    p' ← load_prev node;
    store_prev n' p';;
    store_next node NULL;;
    store_prev node NULL).

Definition fdevent_plist_dequeue : E ptr :=
  zoom (
    node ← load_next list_pending;
    if bool_decide (node = list_pending) then mret NULL else
    n ← load_next node;
    store_next list_pending n;;
    n' ← load_next list_pending;
    store_prev n' list_pending;;
    store_next node NULL;;
    store_prev node NULL;;
    mret node).

(** The object is told every event that is wanted, not only those that are
    ready. *)
Definition event_hook_signal (i : nat) : E unit :=
  hook ← get_hook i;
  fd ← win_ (_fh_to_int (Some (hk_fh hook)));
  fde ← table_get (fd - WIN32_FH_BASE);
  if bool_decide (fde = NULL) then skip else
  f ← deref fde;
  if negb (fde_fd f =? fd) then skip else
  (if negb (has (fde_state f) FDE_PENDING) then
     assign fde (fun f => set_state (Z.lor (fde_state f) FDE_PENDING) f);;
     fdevent_plist_enqueue fde
   else skip);;
  assign fde (fun f => set_events (Z.lor (fde_events f) (wanted hook)) f).

(** ** The functions of the classes *)

Definition FD_READ : Z := 0x01.
Definition FD_WRITE : Z := 0x02.
Definition FD_OOB : Z := 0x04.
Definition FD_ACCEPT : Z := 0x08.
Definition FD_CONNECT : Z := 0x10.
Definition FD_CLOSE : Z := 0x20.

(** *** Files *)

Definition _event_file_prepare (i : nat) : E unit :=
  k ← get_hook i;
  if has (wanted k) (Z.lor FDE_READ FDE_WRITE) then add_ready i (Z.land (wanted k) (Z.lor FDE_READ FDE_WRITE)) else skip.

Definition _event_file_peek (i : nat) : E Z :=
  k ← get_hook i;
  mret (Z.land (wanted k) (Z.lor FDE_READ FDE_WRITE)).

(** *** Sockets *)

Definition _event_socket_verify (i : nat) (evts : Z * list Z) : E unit :=
  let '(lNetworkEvents, iErrorCode) := evts in
  k ← get_hook i;
  when (has lNetworkEvents (Z.lor (Z.lor FD_READ FD_ACCEPT) FD_CLOSE))
    (when (has (wanted k) FDE_READ) (add_ready i FDE_READ);;
     when (negb (nth (Z.to_nat FD_READ) iErrorCode 0 =? 0) && has (wanted k) FDE_ERROR) (add_ready i FDE_ERROR));;
  when (has lNetworkEvents (Z.lor (Z.lor FD_WRITE FD_CONNECT) FD_CLOSE))
    (when (has (wanted k) FDE_WRITE) (add_ready i FDE_WRITE);;
     when (negb (nth (Z.to_nat FD_WRITE) iErrorCode 0 =? 0) && has (wanted k) FDE_ERROR) (add_ready i FDE_ERROR));;
  when (has lNetworkEvents FD_OOB) (when (has (wanted k) FDE_ERROR) (add_ready i FDE_ERROR)).

Definition socket_of (i : nat) : E (EventHook * FHRec) :=
  k ← get_hook i;
  r ← win_ (get_fh (hk_fh k));
  mret (k, r).

Definition _event_socket_prepare (i : nat) : E unit :=
  '(k, r) ← socket_of i;
  evts ← wcall_ (WSAEnumNetworkEvents (u r) None);
  match evts with
  | Some evts => _event_socket_verify i evts
  | None => skip
  end.

Definition _socket_wanted_to_flags (w : Z) : Z :=
  Z.lor (Z.lor (if has w FDE_READ then Z.lor (Z.lor FD_READ FD_ACCEPT) FD_CLOSE else 0)
               (if has w FDE_WRITE then Z.lor (Z.lor FD_WRITE FD_CONNECT) FD_CLOSE else 0))
        (if has w FDE_ERROR then FD_OOB else 0).

Definition set_mask (m : Z) (r : FHRec) : FHRec :=
  {| clazz := clazz r; used := used r; eof := eof r; u := u r; event := event r; mask := m |}.

Definition _event_socket_start (i : nat) : E Z :=
  '(k, r) ← socket_of i;
  let flags := _socket_wanted_to_flags (wanted k) in
  put_hook i (hk_set_h (Handle (event r)));;
  if event r =? INVALID_HANDLE_VALUE then mret 0 else
  if negb (flags =? mask r) then
    e ← wcall_ (WSAEventSelect (u r) (Handle (event r)) flags);
    if negb (e =? 0) then
      wcall_ (CloseHandle (event r));;
      put_hook i (hk_set_h INVALID);;
      abort "exit"
    else
      win_ (put_fh (hk_fh k) (set_mask flags));;
      mret 1
  else mret 1.

Definition _event_socket_stop (i : nat) : E unit := put_hook i (hk_set_h INVALID).

Definition _event_socket_check (i : nat) : E Z :=
  '(k, r) ← socket_of i;
  evts ← wcall_ (WSAEnumNetworkEvents (u r) (Some (hk_h k)));
  match evts with
  | Some evts =>
      _event_socket_verify i evts;;
      k ← get_hook i;
      if negb (ready k =? 0) then wcall_ (ResetEvent (hk_h k));; mret 1 else mret 0
  | None => mret 0
  end.

Definition _event_socket_peek (i : nat) : E Z :=
  '(k, r) ← socket_of i;
  evts ← wcall_ (WSAEnumNetworkEvents (u r) None);
  (match evts with
   | Some evts =>
       _event_socket_verify i evts;;
       k ← get_hook i;
       if negb (ready k =? 0) then wcall_ (ResetEvent (hk_h k));; skip else skip
   | None => skip
   end);;
  k ← get_hook i;
  mret (if negb (ready k =? 0) then 1 else 0).

(** *** Socket pairs *)

(** The pair of a hook, and whether its descriptor is the end [a]. *)
Definition pair_of (i : nat) : E (EventHook * Z * SocketPairRec * bool) :=
  '(k, r) ← socket_of i;
  sp ← win_ (get_pair (u r));
  mret (k, u r, sp, bool_decide (a_fd sp = Some (hk_fh k))).

Definition _event_socketpair_prepare (i : nat) : E unit :=
  '(k, _, sp, a) ← pair_of i;
  let rbip := if (a : bool) then b2a_bip sp else a2b_bip sp in
  let wbip := if (a : bool) then a2b_bip sp else b2a_bip sp in
  when (has (wanted k) FDE_READ && Bip.can_read rbip) (add_ready i FDE_READ);;
  when (has (wanted k) FDE_WRITE && Bip.can_write wbip) (add_ready i FDE_WRITE).

Definition _event_socketpair_start (i : nat) : E Z :=
  '(k, p, _, a) ← pair_of i;
  if wanted k =? FDE_READ then put_hook i (hk_set_h (Pair_event p (negb a) true));; mret 1
  else if wanted k =? FDE_WRITE then put_hook i (hk_set_h (Pair_event p a false));; mret 1
  else mret 0.

Definition _event_socketpair_peek (i : nat) : E Z :=
  _event_socketpair_prepare i;;
  k ← get_hook i;
  mret (if negb (ready k =? 0) then 1 else 0).

(** *** The pointers of a hook *)

Definition hk_set_file (h : handle) (k : EventHook) : EventHook :=
  {| hk_fh := hk_fh k; hk_h := h; wanted := wanted k; ready := ready k; prepare := Some _fh_file_class;
     start := start k; stop_ := stop_ k; check := check k; peek := Some _fh_file_class |}.

Definition hk_set_socket (k : EventHook) : EventHook :=
  let c := Some _fh_socket_class in
  {| hk_fh := hk_fh k; hk_h := hk_h k; wanted := wanted k; ready := ready k; prepare := c; start := c;
     stop_ := c; check := c; peek := c |}.

Definition hk_set_pair (k : EventHook) : EventHook :=
  let c := Some _fh_socketpair_class in
  {| hk_fh := hk_fh k; hk_h := hk_h k; wanted := wanted k; ready := ready k; prepare := c; start := c;
     stop_ := stop_ k; check := check k; peek := c |}.

Definition _fh_file_hook (f : nat) (i : nat) : E unit :=
  r ← win_ (get_fh f);
  put_hook i (hk_set_file (Handle (u r))).

Definition _fh_socket_hook (f : nat) (i : nat) : E unit :=
  put_hook i hk_set_socket;;
  _event_socket_start i;;
  skip.

Definition _fh_socketpair_hook (f : nat) (i : nat) : E unit := put_hook i hk_set_pair.

(** [f->clazz->_fh_hook(f, events, hook)] *)
Definition fh_hook (f : nat) (i : nat) : E unit :=
  c ← win_ (class_of f);
  match c with
  | _fh_file_class => _fh_file_hook f i
  | _fh_socket_class => _fh_socket_hook f i
  | _fh_socketpair_class => _fh_socketpair_hook f i
  end.

(** A call through a pointer that is not NULL; files have no [start], [stop] and
    [check], pairs no [stop] and [check]. *)
Definition call_prepare (c : FHClass) (i : nat) : E unit :=
  match c with
  | _fh_file_class => _event_file_prepare i
  | _fh_socket_class => _event_socket_prepare i
  | _fh_socketpair_class => _event_socketpair_prepare i
  end.

Definition call_start (c : FHClass) (i : nat) : E Z :=
  match c with
  | _fh_file_class => undef "no such function"
  | _fh_socket_class => _event_socket_start i
  | _fh_socketpair_class => _event_socketpair_start i
  end.

Definition call_stop (c : FHClass) (i : nat) : E unit :=
  match c with
  | _fh_socket_class => _event_socket_stop i
  | _ => undef "no such function"
  end.

Definition call_check (c : FHClass) (i : nat) : E Z :=
  match c with
  | _fh_socket_class => _event_socket_check i
  | _ => undef "no such function"
  end.

Definition call_peek (c : FHClass) (i : nat) : E Z :=
  match c with
  | _fh_file_class => _event_file_peek i
  | _fh_socket_class => _event_socket_peek i
  | _fh_socketpair_class => _event_socketpair_peek i
  end.

(** ** The looper *)

Definition event_looper_hook (fd events : Z) : E unit :=
  f ← win_ (_fh_from_int fd);
  match f with
  | None => skip
  | Some f =>
      l ← gets hooks;
      let i := event_looper_find_p l (Some f) in
      (if (i =? length l)%nat then
         node ← event_hook_alloc f;
         modify (fun s => set_hooks (hooks s ++ [node]) (_free_hooks s) s)
       else skip);;
      node ← get_hook i;
      if negb (Z.land (wanted node) events =? events) then
        fh_hook f i;;
        put_hook i (fun k => hk_set_wanted (Z.lor (wanted k) events) k)
      else skip
  end.

Definition event_looper_unhook (fd events : Z) : E unit :=
  fh ← win_ (_fh_from_int fd);
  l ← gets hooks;
  let i := event_looper_find_p l fh in
  match l !! i with
  | None => skip
  | Some node =>
      let events2 := Z.land events (wanted node) in
      if events2 =? 0 then skip else
      let w := clear (wanted node) events2 in
      put_hook i (hk_set_wanted w);;
      if w =? 0 then modify (fun s => set_hooks (delete i (hooks s)) (S (_free_hooks s)) s) else skip
  end.

Definition fdevent_init : E unit := modify (fun s => set_htab [] (set_hooks [] (_free_hooks s) s)).

Definition fdevent_connect (p : ptr) : E unit :=
  fde ← deref p;
  let events := Z.land (fde_state fde) FDE_EVENTMASK in
  if negb (events =? 0) then event_looper_hook (fde_fd fde) events else skip.

Definition fdevent_disconnect (p : ptr) : E unit :=
  fde ← deref p;
  let events := Z.land (fde_state fde) FDE_EVENTMASK in
  if negb (events =? 0) then event_looper_unhook (fde_fd fde) events else skip.

Definition fdevent_update (p : ptr) (events : Z) : E unit :=
  fde ← deref p;
  let events0 := Z.land (fde_state fde) FDE_EVENTMASK in
  if negb (events =? events0) then
    let removes := clear events0 events in
    let adds := clear events events0 in
    when (negb (removes =? 0)) (event_looper_unhook (fde_fd fde) removes);;
    when (negb (adds =? 0)) (event_looper_hook (fde_fd fde) adds)
  else skip.

(** ** Waiting for more than 64 handles *)

Definition WAIT_ALL_CHUNK_SIZE : Z := 63.

Definition WAIT_FAILED : Z := -1.

Definition MAXIMUM_WAIT_OBJECTS : Z := 64.

(** What another thread does to a pair while this one waits. *)
Definition run_other (o : other_op) (ps : gmap Z SocketPairRec) : gmap Z SocketPairRec :=
  let '(p, a2b, op) := o in
  match ps !! p with
  | None => ps
  | Some sp =>
      <[p := {| a2b_bip := if a2b then Bip.run_op op (a2b_bip sp) else a2b_bip sp;
                b2a_bip := if a2b then b2a_bip sp else Bip.run_op op (b2a_bip sp);
                a_fd := a_fd sp; pair_used := pair_used sp |}]> ps
  end.

(** The time a wait takes, whatever its result. *)
Definition wait : E unit := fun s =>
  match meanwhile s with
  | [] => (Stop Blocked, s)
  | ops :: rest =>
      (Done tt, set_meanwhile rest
         (put (set_pairs (fold_left (fun ps o => run_other o ps) ops (pairs (ev_win s))) (ev_win s)) s))
  end.

Record WaitForAllParam := {
  main_event : Z;
  handles : list handle;
  first_handle_index : Z;
}.

(** The thread, with the value of [*signaled_index] before and after; main_event
    is the first of the objects it waits for. *)
Definition _in_waiter_thread (param : WaitForAllParam) (signaled_index : Z) : E Z :=
  res ← wcall_ (WaitForMultipleObjects (Handle (main_event param) :: handles param));
  let signaled_index :=
    if (res >? 0) && (res <? Z.of_nat (length (handles param)) + 1) then
      if signaled_index =? -1 then res - 1 + first_handle_index param else signaled_index
    else signaled_index in
  wcall_ (SetEvent (main_event param));;
  mret signaled_index.

(** The parameters of the threads: chunks of 63 handles and the remainder. *)
Definition make_params (ev : Z) (hs : list handle) : list WaitForAllParam :=
  let count := Z.of_nat (length hs) in
  let chunks := count / WAIT_ALL_CHUNK_SIZE in
  let param chunk n :=
    {| main_event := ev; first_handle_index := WAIT_ALL_CHUNK_SIZE * chunk;
       handles := take (Z.to_nat n) (drop (Z.to_nat (WAIT_ALL_CHUNK_SIZE * chunk)) hs) |} in
  ((fun chunk => param chunk WAIT_ALL_CHUNK_SIZE) <$> seqZ 0 chunks)
    ++ (if count mod WAIT_ALL_CHUNK_SIZE =? 0 then [] else [param chunks (count mod WAIT_ALL_CHUNK_SIZE)]).

(** The threads that could be started, with their handles: the first failure
    ends it. *)
Fixpoint begin_threads (ev : Z) (chunk : Z) (params : list WaitForAllParam) : E (list (WaitForAllParam * Z)) :=
  match params with
  | [] => mret []
  | p :: params' =>
      h ← wcall_ (Beginthreadex chunk);
      if h =? 0 then wcall_ (SetEvent ev);; mret [] else
      started ← begin_threads ev (chunk + 1) params';
      mret ((p, h) :: started)
  end.

(** The threads run until all have ended, in the order the system chooses; each
    one reads and writes [sig_index] only in one atomic operation. *)
Fixpoint run_threads (fuel : nat) (threads : list WaitForAllParam) (sig_index : Z) : E Z :=
  match fuel, threads with
  | _, [] => mret sig_index
  | O, _ => stop_with Diverge
  | S fuel', _ =>
      k ← wcall_ (Next_to_finish (first_handle_index <$> threads));
      let i := Z.to_nat (k mod Z.of_nat (length threads)) in
      p ← must "no thread" (fun _ => threads !! i);
      sig_index ← _in_waiter_thread p sig_index;
      run_threads fuel' (delete i threads) sig_index
  end.

(** Waiting for each thread and closing its handle. *)
Fixpoint join_threads (hs : list Z) : E unit :=
  match hs with
  | [] => skip
  | h :: hs' =>
      wcall_ (WaitForSingleObject (Handle h));;
      wcall_ (CloseHandle h);;
      join_threads hs'
  end.

Definition _wait_for_all (hs : list handle) : E Z :=
  m ← wcall_ (Malloc (24 * Z.of_nat (length (make_params 0 hs))));
  if m =? 0 then mret WAIT_FAILED else
  ev ← wcall_ CreateEventA;
  if ev =? 0 then mret WAIT_FAILED else
  threads ← begin_threads ev 0 (make_params ev hs);
  sig_index ← run_threads (length threads) threads.*1 (-1);
  wcall_ (WaitForSingleObject (Handle ev));;
  join_threads threads.*2;;
  wcall_ (CloseHandle ev);;
  mret (if sig_index >=? 0 then sig_index else WAIT_FAILED).

(** ** [fdevent_process] *)

(** [for (hook = looper->hooks; hook; hook = hook->next)] from position [i]; [Some]
    leaves the loop.  The bodies do not change which hooks there are. *)
Fixpoint each_hook {R} (n i : nat) (body : nat -> E (option R)) : E (option R) :=
  match n with
  | O => mret None
  | S n' =>
      r ← body i;
      match r with
      | Some _ => mret r
      | None => each_hook n' (S i) body
      end
  end.

Definition for_hooks {R} (body : nat -> E (option R)) : E (option R) :=
  l ← gets hooks;
  each_hook (length l) 0 body.

(** The first loop: which hooks are ready? *)
Definition prepare_hook (i : nat) : E bool :=
  put_hook i (hk_set_ready 0);;
  k ← get_hook i;
  match prepare k with
  | None => mret false
  | Some c =>
      call_prepare c i;;
      k ← get_hook i;
      if negb (ready k =? 0) then event_hook_signal i;; mret true else mret false
  end.

Fixpoint prepare_hooks (n i : nat) (gotone : bool) : E bool :=
  match n with
  | O => mret gotone
  | S n' =>
      g ← prepare_hook i;
      prepare_hooks n' (S i) (gotone || g)
  end.

(** [looper->htab[looper->htab_count++] = h], unless it is there already *)
Definition add_handle (h : handle) : E unit :=
  t ← gets htab;
  if bool_decide (h ∈ t) then skip else
  if Z.of_nat (length t) >=? WIN32_MAX_FHS then undef "write after htab" else
  modify (set_htab (t ++ [h])).

(** The second loop: [Some] is the [return] after an error. *)
Definition start_hook (i : nat) : E (option unit) :=
  k ← get_hook i;
  ok ← (match start k with None => mret 1 | Some c => call_start c i end);
  if ok =? 0 then mret (Some tt) else
  k ← get_hook i;
  (if bool_decide (hk_h k = INVALID) then skip else add_handle (hk_h k));;
  mret None.

(** The hook that waits for [h] and says that something has happened. *)
Definition signal_handle (h : handle) : E (option unit) :=
  for_hooks (fun i =>
    k ← get_hook i;
    if negb (bool_decide (h = hk_h k)) then mret None else
    ok ← (match check k with None => mret 1 | Some c => call_check c i end);
    if ok =? 0 then mret None else
    event_hook_signal i;;
    mret (Some tt)).

(** [do ... while (!gotone)] *)
Definition wait_for_hooks : E unit :=
  loop (fun _ : unit =>
    t ← gets htab;
    wait;;
    r ← (if Z.of_nat (length t) >? MAXIMUM_WAIT_OBJECTS then _wait_for_all t
         else wcall_ (WaitForMultipleObjects t) : E Z);
    if r =? WAIT_FAILED then mret (inl tt) else
    if (0 <=? r) && (r <? Z.of_nat (length t)) then
      h ← must "htab" (fun _ => t !! Z.to_nat r);
      g ← signal_handle h;
      mret (match g with Some _ => inr tt | None => inl tt end)
    else mret (inl tt)) tt.

Definition stop_hook (i : nat) : E (option unit) :=
  k ← get_hook i;
  match stop_ k with
  | None => mret None
  | Some c => call_stop c i;; mret None
  end.

Definition peek_hook (i : nat) : E (option unit) :=
  k ← get_hook i;
  match peek k with
  | None => mret None
  | Some c =>
      r ← call_peek c i;
      (if negb (r =? 0) then event_hook_signal i else skip);;
      mret None
  end.

Definition fdevent_process : E unit :=
  l ← gets hooks;
  gotone ← prepare_hooks (length l) 0 false;
  done ← (if (gotone : bool) then mret false else
          modify (set_htab []);;
          r ← for_hooks start_hook;
          match r with
          | Some _ => mret true
          | None =>
              t ← gets htab;
              if (length t =? 0)%nat then mret true else
              wait_for_hooks;;
              for_hooks stop_hook;;
              mret false
          end);
  if (done : bool) then skip else
  for_hooks peek_hook;;
  skip.

(** ** Registration *)

Definition fdevent_register (p : ptr) : E unit :=
  fde ← deref p;
  let fd := fde_fd fde - WIN32_FH_BASE in
  if fd <? 0 then abort "bogus negative fd" else
  max ← gets fd_table_max;
  (if fd >=? max then
     if fde_fd fde >? 32000 then abort "bogus huuuuge fd" else
     (if max =? 0 then fdevent_init else skip);;
     match double_until 8 (if max =? 0 then 256 else max) fd with
     | None => stop_with Diverge
     | Some max' =>
         r ← wcall_ (Malloc (sizeof_ptr * max'));
         if r =? 0 then abort "could not expand fd_table" else
         modify (fun s => set_table (grow_table sizeof_ptr (fd_table s) max max') max' s)
     end
   else skip);;
  table_set fd p.

Definition fdevent_unregister (p : ptr) : E unit :=
  fde ← deref p;
  let fd := fde_fd fde - WIN32_FH_BASE in
  max ← gets fd_table_max;
  if (fd <? 0) || (fd >=? max) then abort "fd out of range" else
  q ← table_get fd;
  if bool_decide (q <> p) then abort "fd_table out of sync" else
  table_set fd NULL;;
  if has (fde_state fde) FDE_DONT_CLOSE then skip else (win_ (adb_close oracle (fde_fd fde));; skip).

Definition fdevent_install (p : ptr) (fd : Z) (func : fd_func) (arg : ptr) : E unit :=
  assign p (fun _ => {| fde_next := NULL; fde_prev := NULL; fde_fd := fd; fde_force_eof := 0;
                        fde_state := FDE_ACTIVE; fde_events := 0; fde_func := func; fde_arg := arg |});;
  fdevent_register p;;
  fdevent_connect p;;
  assign p (fun f => set_state (Z.lor (fde_state f) FDE_ACTIVE) f).

Definition fdevent_create (fd : Z) (func : fd_func) (arg : ptr) : E ptr :=
  m ← wcall_ (Malloc 32);
  if m =? 0 then mret NULL else
  h ← gets fde_heap;
  let p := fresh_addr h in
  modify (put (<[p := blank]> h));;
  fdevent_install p fd func arg;;
  assign p (fun f => set_state (Z.lor (fde_state f) FDE_CREATED) f);;
  mret p.

Definition fdevent_remove (p : ptr) : E unit :=
  f ← deref p;
  when (has (fde_state f) FDE_PENDING) (fdevent_plist_remove p);;
  when (has (fde_state f) FDE_ACTIVE) (fdevent_disconnect p;; fdevent_unregister p);;
  assign p (fun f => set_events 0 (set_state 0 f)).

Definition fdevent_destroy (p : ptr) : E unit :=
  if bool_decide (p = NULL) then skip else
  f ← deref p;
  if negb (has (fde_state f) FDE_CREATED) then abort "fde not created by fdevent_create()" else
  fdevent_remove p.

(** ** Changing the events of interest *)

Definition fdevent_set (p : ptr) (events : Z) : E unit :=
  let events := Z.land events FDE_EVENTMASK in
  f ← deref p;
  if Z.land (fde_state f) FDE_EVENTMASK =? events then skip else
  when (has (fde_state f) FDE_ACTIVE) (fdevent_update p events);;
  assign p (fun f => set_state (Z.lor (Z.land (fde_state f) FDE_STATEMASK) events) f);;
  f' ← deref p;
  if has (fde_state f') FDE_PENDING then
    assign p (fun f => set_events (clear (fde_events f) events) f);;
    f'' ← deref p;
    if fde_events f'' =? 0 then
      fdevent_plist_remove p;;
      assign p (fun f => set_state (clear (fde_state f) FDE_PENDING) f)
    else skip
  else skip.

Definition fdevent_add (p : ptr) (events : Z) : E unit :=
  f ← deref p;
  fdevent_set p (Z.lor (Z.land (fde_state f) FDE_EVENTMASK) (Z.land events FDE_EVENTMASK)).

Definition fdevent_del (p : ptr) (events : Z) : E unit :=
  f ← deref p;
  fdevent_set p (Z.land (Z.land (fde_state f) FDE_EVENTMASK) (Z.lnot (Z.land events FDE_EVENTMASK))).

(** ** The loop *)

(** The functions of the clients with their arguments [(fd, events, arg)]. *)
Context (client : fd_func -> Z -> Z -> ptr -> E unit).

(** [while((fde = fdevent_plist_dequeue()))] *)
Fixpoint drain_fuel (fuel : nat) : E unit :=
  match fuel with
  | O => stop_with Diverge
  | S fuel' =>
      p ← fdevent_plist_dequeue;
      if bool_decide (p = NULL) then skip else
      fde ← deref p;
      let events := fde_events fde in
      assign p (set_events 0);;
      assign p (fun f => set_state (clear (fde_state f) FDE_PENDING) f);;
      client (fde_func fde) (fde_fd fde) events (fde_arg fde);;
      drain_fuel fuel'
  end.

Definition drain : E unit := fun s => drain_fuel (S (size (fde_heap s))) s.

(** One turn of [for(;;)]. *)
Definition fdevent_loop_turn : E unit :=
  fdevent_process;;
  drain.

(** The first [rounds] turns; a turn need not wait, so the loop has no bound of
    its own. *)
Fixpoint fdevent_loop (rounds : nat) : E unit :=
  match rounds with
  | O => skip
  | S rounds' => fdevent_loop_turn;; fdevent_loop rounds'
  end.
End events.

End WinEvents.
