(* ===== verification/Win32EventsSpec.v ===== *)
(** * Correctness of the event loop of the Windows build *)

From S2P Require Import Prelude Effects DList Os Sysdeps Wire Globals Fdevent FdeventFacts BipBuffer BipSpec Win32 Win32Spec Win32Events.

Import Win32 WinEvents.

(** ** Calls *)

(** The state after the calls [new]. *)
Definition ev_trace (new : list wcall) (s : evstate) : evstate :=
  put (set_trace (trace (ev_win s) ++ new) (ev_win s)) s.

Lemma ev_trace_nil s : ev_trace [] s = s.
Proof. unfold ev_trace. rewrite app_nil_r. by destruct s as [[]]. Qed.

Lemma ev_trace_app a b s : ev_trace b (ev_trace a s) = ev_trace (a ++ b) s.
Proof. unfold ev_trace. simpl. by rewrite app_assoc. Qed.

Lemma wp_wcall (oracle : list wcall -> forall c, wres c) c Q X s :
  Q (oracle (trace (ev_win s)) c) (ev_trace [c] s) -> wp (wcall_ oracle c) Q X s.
Proof. done. Qed.

Ltac ev_call := lazymatch goal with |- wp (wcall_ ?o ?c) _ _ _ => apply (wp_wcall o c) end.

Section calls.
Context (oracle : list wcall -> forall c, wres c).

(** The waits among the calls [new] made after [t], with their results. *)
Definition wait_result (t : list wcall) (c : wcall) : list (list handle * Z) :=
  match c with
  | WaitForMultipleObjects hs => [(hs, oracle t (WaitForMultipleObjects hs) : Z)]
  | _ => []
  end.

Fixpoint waited_on (t new : list wcall) : list (list handle * Z) :=
  match new with
  | [] => []
  | c :: new' => wait_result t c ++ waited_on (t ++ [c]) new'
  end.

Lemma waited_on_app t a b : waited_on t (a ++ b) = waited_on t a ++ waited_on (t ++ a) b.
Proof.
  revert t. induction a as [|c a IH]; intros t; [by rewrite app_nil_r|].
  cbn [app waited_on]. by rewrite IH, <- !app_assoc.
Qed.

(** The calls that give memory, an event or a thread succeeded. *)
Definition given (t : list wcall) (c : wcall) : Prop :=
  match c with
  | Malloc n => (oracle t (Malloc n) : Z) <> 0
  | CreateEventA => (oracle t CreateEventA : Z) <> 0
  | Beginthreadex k => (oracle t (Beginthreadex k) : Z) <> 0
  | _ => True
  end.

Fixpoint all_given (t new : list wcall) : Prop :=
  match new with
  | [] => True
  | c :: new' => given t c /\ all_given (t ++ [c]) new'
  end.

Lemma all_given_app t a b : all_given t (a ++ b) <-> all_given t a /\ all_given (t ++ a) b.
Proof.
  revert t. induction a as [|c a IH]; intros t; [rewrite app_nil_r; simpl; tauto|].
  cbn [app all_given]. rewrite IH, <- app_assoc. simpl. tauto.
Qed.

(** ** The chunks *)

(** The handles of [p] are those of [hs] from its first index on. *)
Definition chunk_of (hs : list handle) (ev : Z) (p : WaitForAllParam) : Prop :=
  main_event p = ev /\ 0 <= first_handle_index p /\ (length (handles p) <= 63)%nat /\
  (forall j h, handles p !! j = Some h -> hs !! (Z.to_nat (first_handle_index p) + j)%nat = Some h).

Lemma chunk_slice hs ev k n : 0 <= k -> n <= 63 ->
  chunk_of hs ev {| main_event := ev; first_handle_index := WAIT_ALL_CHUNK_SIZE * k;
    handles := take (Z.to_nat n) (drop (Z.to_nat (WAIT_ALL_CHUNK_SIZE * k)) hs) |}.
Proof.
  intros Hk Hn. unfold chunk_of, WAIT_ALL_CHUNK_SIZE. cbn [main_event first_handle_index handles]. split_and!; [done|lia|rewrite length_take; lia|].
  intros j h (Hj & _)%lookup_take_Some. by rewrite lookup_drop in Hj.
Qed.

Lemma make_params_chunks ev hs : Forall (chunk_of hs ev) (make_params ev hs).
Proof.
  unfold make_params. pose proof (Z.mod_pos_bound (Z.of_nat (length hs)) WAIT_ALL_CHUNK_SIZE ltac:(done)) as Hm.
  unfold WAIT_ALL_CHUNK_SIZE in Hm. apply Forall_app. split.
  - apply Forall_fmap, Forall_forall. intros k Hk%elem_of_seqZ. apply chunk_slice; [lia|done].
  - destruct (_ =? 0); [constructor|]. constructor; [|constructor].
    apply chunk_slice; [apply Z.div_pos; [lia|done]|]. unfold WAIT_ALL_CHUNK_SIZE. lia.
Qed.

(** Consecutive slices of a list. *)
Lemma concat_slices (hs : list handle) n :
  concat ((fun k => take 63 (drop (Z.to_nat (63 * k)) hs)) <$> seqZ 0 (Z.of_nat n)) = take (63 * n) hs.
Proof.
  induction n as [|n IH]; [by rewrite Nat.mul_0_r|].
  rewrite seqZ_S.
  rewrite fmap_app, concat_app, IH. cbn [fmap list_fmap concat]. rewrite app_nil_r.
  replace (Z.to_nat (63 * (0 + Z.of_nat n))) with (63 * n)%nat by lia.
  replace (63 * S n)%nat with (63 * n + 63)%nat by lia. by rewrite take_take_drop.
Qed.

Lemma make_params_cover ev hs : concat (handles <$> make_params ev hs) = hs.
Proof.
  unfold make_params. set (c := Z.of_nat (length hs)).
  pose proof (Z.div_mod c 63 ltac:(done)) as Hd. pose proof (Z.mod_pos_bound c 63 ltac:(done)) as Hm.
  assert (Hq : 0 <= c / 63) by (apply Z.div_pos; lia).
  rewrite fmap_app, concat_app, <- list_fmap_compose. unfold WAIT_ALL_CHUNK_SIZE.
  pose proof (concat_slices hs (Z.to_nat (c / 63))) as E. rewrite Z2Nat.id in E by lia.
  match goal with |- concat ?a ++ _ = _ => replace (concat a) with (take (63 * Z.to_nat (c / 63)) hs) by (rewrite <- E; reflexivity) end.
  clear E. destruct (Z.eqb_spec (c mod 63) 0) as [E0|E0]; cbn [fmap list_fmap concat handles];
    rewrite app_nil_r.
  - apply take_ge. lia.
  - replace (Z.to_nat (63 * (c / 63))) with (63 * Z.to_nat (c / 63))%nat by lia.
    rewrite take_take_drop. apply take_ge. lia.
Qed.

(** ** The threads *)

(** A run of calls that leaves everything else alone. *)
Definition ran {A} (s : evstate) (P : A -> list wcall -> Prop) (a : A) (s' : evstate) : Prop :=
  exists new, s' = ev_trace new s /\ P a new.

Definition never {S} (_ : stop) (_ : S) : Prop := False.

(** The thread of [p] reported the handle with the index [sig]. *)
Definition reported_by (p : WaitForAllParam) (ws : list (list handle * Z)) (sig : Z) : Prop :=
  exists res, (Handle (main_event p) :: handles p, res) ∈ ws /\
    0 < res <= Z.of_nat (length (handles p)) /\ sig = res - 1 + first_handle_index p.

(** The result of a wait names no handle of a chunk. *)
Definition no_report (w : list handle * Z) : Prop := w.2 <= 0 \/ Z.of_nat (length w.1) <= w.2.

Lemma wp_waiter_thread p sig s :
  wp (_in_waiter_thread oracle p sig)
     (ran s (fun sig' new =>
        (waited_on (trace (ev_win s)) new).*1 = [Handle (main_event p) :: handles p] /\
        (sig' = sig \/ sig = -1 /\ reported_by p (waited_on (trace (ev_win s)) new) sig') /\
        (sig' = -1 -> 0 <= first_handle_index p -> Forall no_report (waited_on (trace (ev_win s)) new)))) never s.
Proof.
  unfold _in_waiter_thread. wp_step. ev_call. cbv zeta. wp_step. ev_call. wp_step.
  set (t := trace (ev_win s)). set (c := WaitForMultipleObjects _). set (res := oracle t c : Z).
  exists [c; SetEvent (main_event p)]. rewrite ev_trace_app. split; [done|].
  assert (Ew : waited_on t [c; SetEvent (main_event p)] = [(Handle (main_event p) :: handles p, res)]) by done.
  rewrite Ew. split; [done|]. change (oracle t c) with res. clearbody res. clear Ew.
  destruct (Z.gtb_spec res 0), (Z.ltb_spec res (Z.of_nat (length (handles p)) + 1)); cbn [andb];
    try (split; [by left|]; intros _ _; constructor; [|constructor]; unfold no_report; cbn [fst snd length]; lia).
  destruct (Z.eqb_spec sig (-1)) as [->|Hs]; (split; [|lia]).
  - right. split; [done|]. exists res. split; [left|]. split; lia.
  - by left.
Qed.

Definition waits_of (p : WaitForAllParam) : list handle := Handle (main_event p) :: handles p.

Lemma waits_tails ps : ((waits_of <$> ps) ≫= tail) = concat (handles <$> ps).
Proof. induction ps as [|p ps IH]; [done|]. rewrite !fmap_cons, bind_cons, IH. done. Qed.

Lemma trace_ev_trace new s : trace (ev_win (ev_trace new s)) = trace (ev_win s) ++ new.
Proof. done. Qed.

(** Sequencing runs. *)
Lemma ran_app {A} s new (P : A -> list wcall -> Prop) a s' :
  ran (ev_trace new s) (fun a new' => P a (new ++ new')) a s' -> ran s P a s'.
Proof. intros (new' & -> & HP). exists (new ++ new'). by rewrite ev_trace_app. Qed.

Lemma reported_by_app p ws ws' sig :
  reported_by p ws sig \/ reported_by p ws' sig -> reported_by p (ws ++ ws') sig.
Proof. intros [(r & H & ?)|(r & H & ?)]; exists r; (split; [apply elem_of_app; auto|done]). Qed.

Lemma wp_run_threads n threads sig s : (length threads <= n)%nat ->
  wp (run_threads oracle n threads sig)
     (ran s (fun sig' new =>
        (waited_on (trace (ev_win s)) new).*1 ≡ₚ waits_of <$> threads /\
        (sig' = sig \/ sig = -1 /\ exists p, p ∈ threads /\ reported_by p (waited_on (trace (ev_win s)) new) sig') /\
        (sig' = -1 -> Forall (fun p => 0 <= first_handle_index p) threads ->
           Forall no_report (waited_on (trace (ev_win s)) new)))) never s.
Proof.
  revert threads sig s. induction n as [|n IH]; intros threads sig s Hn.
  { destruct threads; [|simpl in Hn; lia]. exists []. rewrite ev_trace_nil. split_and!; [done|done|by left|done]. }
  destruct threads as [|p0 ps]; [exists []; rewrite ev_trace_nil; split_and!; [done|done|by left|done]|].
  cbn [run_threads]. set (threads := p0 :: ps) in *. wp_step. ev_call. cbv zeta.
  set (k := Z.to_nat (_ mod _)).
  destruct (lookup_lt_is_Some_2 threads k) as [p Hp].
  { unfold k. pose proof (Z.mod_pos_bound (oracle (trace (ev_win s)) (Next_to_finish (first_handle_index <$> threads)) : Z)
      (Z.of_nat (length threads)) ltac:(simpl; lia)). lia. }
  wp_step. eapply wp_must; [exact Hp|]. wp_step. clearbody k.
  eapply wp_mono; [apply wp_waiter_thread| |done]. intros sig1 s1 (new1 & -> & W1 & S1 & N1). cbv beta.
  eapply wp_mono; [apply IH; rewrite length_delete by eauto; lia| |done].
  intros sig' s' R. apply (ran_app s ([Next_to_finish (first_handle_index <$> threads)] ++ new1)).
  rewrite <- ev_trace_app. destruct R as (new2 & -> & W2 & S2 & N2). exists new2. split; [done|].
  rewrite !trace_ev_trace in *. rewrite <- app_assoc, (waited_on_app _ [_]), (waited_on_app _ new1).
  cbn [waited_on wait_result app]. revert W1 S1 N1 W2 S2 N2.
  generalize (waited_on (trace (ev_win s) ++ [Next_to_finish (first_handle_index <$> threads)]) new1) as ws1.
  generalize (waited_on ((trace (ev_win s) ++ [Next_to_finish (first_handle_index <$> threads)]) ++ new1) new2) as ws2.
  intros ws2 ws1 W1 S1 N1 W2 S2 N2. pose proof (delete_Permutation threads k p Hp) as Hperm. rewrite fmap_app, W1. split_and!.
  - symmetry. etransitivity; [apply fmap_Permutation, Hperm|]. simpl. by rewrite W2.
  - destruct S1 as [->|[-> R1]].
    + destruct S2 as [->|[-> (q & Hq & R2)]]; [by left|]. right. split; [done|]. exists q. split.
      * rewrite Hperm. by right.
      * apply reported_by_app. by right.
    + right. split; [done|]. destruct S2 as [->|[-> (q & Hq & R2)]].
      * exists p. split; [by eapply list_elem_of_lookup_2|]. apply reported_by_app. by left.
      * exists q. split; [rewrite Hperm; by right|]. apply reported_by_app. by right.
  - intros -> Hf. assert (sig1 = -1) as -> by (destruct S2 as [->|[-> _]]; done).
    rewrite Hperm in Hf. apply Forall_cons in Hf as [Hf1 Hf2]. apply Forall_app. split; [by apply N1|by apply N2].
Qed.

Lemma wp_begin_threads ev k params s :
  wp (begin_threads oracle ev k params)
     (ran s (fun started new => waited_on (trace (ev_win s)) new = [] /\ (exists n, started.*1 = take n params) /\
        (all_given (trace (ev_win s)) new -> started.*1 = params))) never s.
Proof.
  revert k s. induction params as [|p params IH]; intros k s.
  { exists []. rewrite ev_trace_nil. split_and!; [done|done|by exists 0%nat|done]. }
  cbn [begin_threads]. wp_step. ev_call. cbv beta.
  destruct (Z.eqb_spec (oracle (trace (ev_win s)) (Beginthreadex k) : Z) 0) as [E0|E0].
  - wp_step. ev_call. wp_step. exists [Beginthreadex k; SetEvent ev]. rewrite ev_trace_app.
    split_and!; [done|done|by exists 0%nat|]. by intros [? _].
  - wp_step. eapply wp_mono; [apply IH| |done]. intros started s' (new & -> & W & [n Hn] & G). wp_step.
    apply (ran_app s [Beginthreadex k]). exists new. split; [done|]. rewrite trace_ev_trace in *.
    rewrite (waited_on_app _ [_]), (all_given_app _ [_]), W. split_and!; [done| |].
    + exists (S n). by rewrite fmap_cons, Hn.
    + intros [_ Hg]. by rewrite fmap_cons, G.
Qed.

Lemma wp_join_threads hs s :
  wp (join_threads oracle hs) (ran s (fun _ new => waited_on (trace (ev_win s)) new = [])) never s.
Proof.
  revert s. induction hs as [|h hs IH]; intros s; [exists []; by rewrite ev_trace_nil|].
  cbn [join_threads]. wp_step. ev_call. wp_step. ev_call. rewrite ev_trace_app.
  eapply wp_mono; [apply IH| |done]. intros [] s' (new & -> & W).
  apply (ran_app s [WaitForSingleObject (Handle h); CloseHandle h]). exists new. split; [done|].
  rewrite trace_ev_trace in *. cbn [app] in W. by rewrite (waited_on_app _ [_; _]), W.
Qed.

(** What [_wait_for_all] returns after the calls [new]. *)
Definition wait_outcome (hs : list handle) (t : list wcall) (r : Z) (new : list wcall) : Prop :=
  let ws := waited_on t new in
  Forall (fun l => (length l <= 64)%nat) ws.*1 /\
  (all_given t new -> (ws.*1 ≫= tail) ≡ₚ hs) /\
  ((0 <= r < Z.of_nat (length hs) /\
      exists ev l res, (Handle ev :: l, res) ∈ ws /\ 0 < res /\ l !! Z.to_nat (res - 1) = hs !! Z.to_nat r) \/
   (r = WAIT_FAILED /\ Forall no_report ws)).

Lemma chunk_report hs ev p ws sig :
  chunk_of hs ev p -> reported_by p ws sig ->
  0 <= sig < Z.of_nat (length hs) /\
  exists ev l res, (Handle ev :: l, res) ∈ ws /\ 0 < res /\ l !! Z.to_nat (res - 1) = hs !! Z.to_nat sig.
Proof.
  intros (_ & Hf & _ & Hl) (res & Hin & Hres & ->).
  destruct (lookup_lt_is_Some_2 (handles p) (Z.to_nat (res - 1))) as [h Hh]; [lia|].
  pose proof (Hl _ _ Hh) as Hhs. replace (Z.to_nat (res - 1 + first_handle_index p))
    with (Z.to_nat (first_handle_index p) + Z.to_nat (res - 1))%nat by lia.
  split; [apply lookup_lt_Some in Hhs; lia|]. exists (main_event p), (handles p), res.
  rewrite Hh, Hhs. split_and!; [done|lia|done].
Qed.

Lemma wp_wait_for_all hs s :
  wp (_wait_for_all oracle hs) (ran s (wait_outcome hs (trace (ev_win s)))) never s.
Proof.
  set (t := trace (ev_win s)). unfold _wait_for_all. wp_step. ev_call. cbv beta. fold t.
  set (c1 := Malloc _). destruct (Z.eqb_spec (oracle t c1 : Z) 0) as [E1|E1].
  { wp_step. exists [c1]. split; [done|]. split_and!; [constructor|by intros [? _]|]. right. split; [done|constructor]. }
  wp_step. ev_call. rewrite trace_ev_trace, ev_trace_app. fold t.
  set (ev := oracle (t ++ [c1]) CreateEventA : Z). destruct (Z.eqb_spec ev 0) as [E2|E2].
  { wp_step. exists [c1; CreateEventA]. split; [done|]. split_and!; [constructor|by intros (_ & ? & _)|].
    right. split; [done|constructor]. }
  clearbody ev. wp_step. eapply wp_mono; [apply wp_begin_threads| |done]. intros started s3 (n3 & -> & W3 & [k Hk] & G3).
  wp_step. eapply wp_mono; [apply wp_run_threads; by rewrite length_fmap| |done].
  intros sig s4 (n4 & -> & W4 & S4 & N4). wp_step. ev_call. wp_step.
  eapply wp_mono; [apply wp_join_threads| |done]. intros [] s5 (n5 & -> & W5). wp_step. ev_call. wp_step.
  rewrite !ev_trace_app. eexists. split; [reflexivity|]. rewrite !trace_ev_trace in *. fold t in W3, G3, W4, S4, N4, W5 |- *.
  rewrite <- !app_assoc in *.
  assert (Ews : waited_on t ([c1] ++ [CreateEventA] ++ n3 ++ n4 ++ [WaitForSingleObject (Handle ev)] ++ n5 ++ [CloseHandle ev])
    = waited_on (t ++ [c1] ++ [CreateEventA] ++ n3) n4).
  { rewrite (app_assoc [c1]), waited_on_app, (waited_on_app _ n3), (waited_on_app _ n4), (waited_on_app _ [WaitForSingleObject _]),
      (waited_on_app _ n5). rewrite <- !app_assoc, W3, W5. simpl. by rewrite app_nil_r. }
  pose proof (make_params_chunks ev hs) as Hc. unfold wait_outcome. rewrite Ews. split_and!.
  - rewrite W4, Hk. apply Forall_fmap, Forall_take.
    eapply Forall_impl; [exact Hc|]. intros p (_ & _ & Hl & _). cbn. lia.
  - rewrite (app_assoc [c1]), all_given_app, (all_given_app _ n3). intros (_ & Hg & _). rewrite W4, G3 by done.
    by rewrite waits_tails, make_params_cover.
  - destruct S4 as [->|[_ (p & Hp & Hr)]].
    + right. split; [done|]. apply N4; [done|]. rewrite Hk. apply Forall_take. eapply Forall_impl; [exact Hc|]. by intros p (_ & ? & _).
    + left. rewrite Hk in Hp. apply (Forall_forall _ _) with (x := p) in Hc.
      * pose proof (chunk_report hs ev p _ sig Hc Hr) as [Hb He]. rewrite (proj2 (Z.geb_le sig 0)) by lia. done.
      * by eapply elem_of_take in Hp as (? & ? & ?); eauto using list_elem_of_lookup_2.
Qed.
End calls.

(** C26: [_wait_for_all], which waits for any number of handles with threads that
    wait for at most 64 objects each.  It never stops; whatever the threads'
    waits report and in whatever order they end, a result that is not
    WAIT_FAILED is the index, in the array of the caller, of a handle that a
    thread's wait reported, and WAIT_FAILED is returned only when no thread's
    wait reported a handle.  When all threads could be started they wait for
    every handle of the array exactly once. *)
Theorem wait_for_all_reports (oracle : list wcall -> forall c, wres c) (hs : list handle) (s : evstate) :
  match _wait_for_all oracle hs s with
  | (Done r, s') => exists new, s' = ev_trace new s /\ wait_outcome oracle hs (trace (ev_win s)) r new
  | (Stop _, _) => False
  end.
Proof.
  pose proof (wp_wait_for_all oracle hs s) as H. unfold wp in H.
  by destruct (_wait_for_all oracle hs s) as [[r|x] s'].
Qed.
