(* ===== verification/Win32LoopSpec.v ===== *)
(** * The invariant of the event loop of the Windows build

    The hooks of the looper follow the objects: an active object that watches
    its descriptor has exactly one hook, which wants exactly the events of the
    object.  Every operation keeps this, waiting included, whatever Win32
    answers and whatever the other threads do to the socket pairs meanwhile. *)

From S2P Require Import Prelude Effects DList Os Sysdeps Wire Globals Fdevent FdeventFacts FdeventLoop FdeventReg FdeventSpec BipBuffer BipSpec Win32 Win32Spec Win32Events Win32EventsSpec.

Import Win32 WinEvents.

(** ** Hooks *)

(** Entry [i] of the table of descriptors is in use by class [c]; an end of a
    socket pair leads to its pair. *)
Definition open_fh (w : win) (i : nat) (c : FHClass) : Prop :=
  Z.of_nat i < _win32_fh_count w /\
  exists r, _win32_fhs w !! i = Some r /\ clazz r = Some c /\ (c = _fh_socketpair_class -> u r <> 0).

(** The pointers of the hook are those of the class. *)
Definition points (c : FHClass) (k : EventHook) : Prop :=
  prepare k = Some c /\ peek k = Some c /\
  start k = match c with _fh_file_class => None | _ => Some c end /\
  stop_ k = match c with _fh_socket_class => Some c | _ => None end /\
  check k = match c with _fh_socket_class => Some c | _ => None end.

Definition hook_ok (w : win) (k : EventHook) : Prop :=
  0 < wanted k <= 255 /\ exists c, open_fh w (hk_fh k) c /\ points c k.

Record looper_ok (w : win) (l : list EventHook) : Prop := {
  lo_win : win_ok w;
  lo_hooks : Forall (hook_ok w) l;
  lo_nodup : NoDup (hk_fh <$> l);
}.

(** The events the looper waits for on entry [i]. *)
Definition hook_mask (l : list EventHook) (i : nat) : Z :=
  from_option wanted 0 (l !! event_looper_find_p l (Some i)).

Lemma find_p_spec l i :
  (exists k, l !! event_looper_find_p l (Some i) = Some k /\ hk_fh k = i) \/
  (event_looper_find_p l (Some i) = length l /\ i ∉ hk_fh <$> l).
Proof.
  induction l as [|k l IH]; [right; split; [done|apply not_elem_of_nil]|].
  cbn [event_looper_find_p]. case_bool_decide as E; [left; exists k; by injection E as ->|].
  destruct IH as [(k' & Hk & E')|[El Hn]]; [left; eauto|right]. split; [simpl; by rewrite El|].
  rewrite fmap_cons, not_elem_of_cons. split; [congruence|done].
Qed.

Lemma find_p_none l : event_looper_find_p l None = length l.
Proof. induction l as [|k l IH]; [done|]. cbn. by rewrite IH. Qed.

(** The position of a hook is found. *)
Lemma find_p_at l j k : NoDup (hk_fh <$> l) -> l !! j = Some k -> event_looper_find_p l (Some (hk_fh k)) = j.
Proof.
  intros Hn Hj. destruct (find_p_spec l (hk_fh k)) as [(k' & Hk & E)|[_ Hx]].
  - apply (NoDup_lookup _ _ _ (hk_fh k) Hn); by rewrite list_lookup_fmap, ?Hk, ?Hj; cbn; rewrite ?E.
  - exfalso. apply Hx. apply list_elem_of_fmap. exists k. split; [done|]. by eapply list_elem_of_lookup_2.
Qed.

Lemma hook_mask_at l j k : NoDup (hk_fh <$> l) -> l !! j = Some k -> hook_mask l (hk_fh k) = wanted k.
Proof. intros Hn Hj. unfold hook_mask. by rewrite (find_p_at l j k Hn Hj), Hj. Qed.

Lemma hook_mask_none l i : i ∉ hk_fh <$> l -> hook_mask l i = 0.
Proof.
  intros Hn. unfold hook_mask. destruct (find_p_spec l i) as [(k & Hk & E)|[-> _]].
  - exfalso. apply Hn, list_elem_of_fmap. exists k. split; [done|]. by eapply list_elem_of_lookup_2.
  - by rewrite lookup_ge_None_2.
Qed.

Lemma hook_mask_cases l i : NoDup (hk_fh <$> l) ->
  (exists j k, l !! j = Some k /\ hk_fh k = i /\ event_looper_find_p l (Some i) = j /\ hook_mask l i = wanted k) \/
  (i ∉ hk_fh <$> l /\ event_looper_find_p l (Some i) = length l /\ hook_mask l i = 0).
Proof.
  intros Hn. destruct (find_p_spec l i) as [(k & Hk & E)|[El Hx]].
  - left. exists (event_looper_find_p l (Some i)), k. split_and!; [done|done|done|]. subst i. by eapply hook_mask_at.
  - right. split_and!; [done|done|by apply hook_mask_none].
Qed.

(** The masks see the descriptors and the wanted events only. *)
Definition sig (k : EventHook) : nat * Z := (hk_fh k, wanted k).

Lemma hook_mask_sig l l' i : sig <$> l' = sig <$> l -> hook_mask l' i = hook_mask l i.
Proof.
  revert l'. induction l as [|k l IH]; intros [|k' l'] E; try done.
  injection E as Ef Ew E. unfold hook_mask in *. cbn [event_looper_find_p]. rewrite Ef.
  case_bool_decide; [done|]. cbn. by apply IH.
Qed.

(** Replacing the mask of one entry. *)
Lemma hook_mask_insert l j k k' i : NoDup (hk_fh <$> l) -> l !! j = Some k -> hk_fh k' = hk_fh k ->
  hook_mask (<[j := k']> l) i = if decide (i = hk_fh k) then wanted k' else hook_mask l i.
Proof.
  intros Hn Hj E. assert (El : hk_fh <$> <[j := k']> l = hk_fh <$> l).
  { rewrite list_fmap_insert, E. apply list_insert_id. by rewrite list_lookup_fmap, Hj. }
  case_decide as Ei.
  - subst i. rewrite <- E. apply (hook_mask_at _ j); [by rewrite El|].
    apply list_lookup_insert_eq. by eapply lookup_lt_Some.
  - destruct (hook_mask_cases l i Hn) as [(m & km & Hm & <- & _ & ->)|(Hx & _ & ->)].
    + apply (hook_mask_at _ m); [by rewrite El|]. rewrite list_lookup_insert_ne; [done|]. intros <-. congruence.
    + apply hook_mask_none. by rewrite El.
Qed.

Lemma hook_mask_snoc l k i : hk_fh k ∉ hk_fh <$> l -> NoDup (hk_fh <$> l) ->
  hook_mask (l ++ [k]) i = if decide (i = hk_fh k) then wanted k else hook_mask l i.
Proof.
  intros Hx Hn. assert (Hn' : NoDup (hk_fh <$> l ++ [k])).
  { rewrite fmap_app. apply NoDup_app. split_and!; [done| |apply NoDup_singleton]. set_solver. }
  case_decide as Ei.
  - subst i. apply (hook_mask_at _ (length l)); [done|]. by apply list_lookup_middle.
  - destruct (hook_mask_cases l i Hn) as [(m & km & Hm & <- & _ & ->)|(Hy & _ & ->)].
    + apply (hook_mask_at _ m); [done|]. by apply lookup_app_l_Some.
    + apply hook_mask_none. rewrite fmap_app. set_solver.
Qed.

Lemma hook_mask_delete l j k i : NoDup (hk_fh <$> l) -> l !! j = Some k ->
  hook_mask (delete j l) i = if decide (i = hk_fh k) then 0 else hook_mask l i.
Proof.
  intros Hn Hj. pose proof (take_drop_middle l j k Hj) as El. rewrite <- El in Hn.
  rewrite delete_take_drop. rewrite fmap_app, fmap_cons in Hn. apply NoDup_app in Hn as (H1 & H12 & H2).
  apply NoDup_cons in H2 as [Hk H2].
  assert (Hn' : NoDup (hk_fh <$> take j l ++ drop (S j) l)).
  { rewrite fmap_app. apply NoDup_app. split_and!; [done| |done]. intros x Hx1 Hx2. apply (H12 x Hx1). by right. }
  case_decide as Ei.
  - subst i. apply hook_mask_none. rewrite fmap_app, not_elem_of_app. split; [|done].
    intros Hx. apply (H12 _ Hx). by left.
  - destruct (hook_mask_cases (take j l ++ drop (S j) l) i Hn') as [(m & km & Hm & <- & _ & ->)|(Hy & _ & ->)].
    + symmetry. assert (Hin : km ∈ l).
      { rewrite <- El. apply list_elem_of_lookup_2 in Hm. set_solver. }
      apply list_elem_of_lookup in Hin as [m' Hm']. apply (hook_mask_at _ m'); [|done].
      rewrite <- El, fmap_app, fmap_cons. apply NoDup_app. split_and!; [done|done|by apply NoDup_cons].
    + symmetry. apply hook_mask_none. rewrite <- El, fmap_app, fmap_cons. rewrite fmap_app in Hy. set_solver.
Qed.

(** ** The operations of the looper *)

(** A function may end the program or wait for ever, but does nothing undefined. *)
Definition ev_safe (x : stop) (s : evstate) : Prop :=
  match x with Undef _ | Diverge => False | _ => True end.

(** The state with another table of descriptors and other hooks. *)
Definition lstate (w : win) (l : list EventHook) (n : nat) (s : evstate) : evstate :=
  {| ev_win := w; hooks := l; _free_hooks := n; htab := htab s; fde_heap := fde_heap s;
     fd_table := fd_table s; fd_table_max := fd_table_max s; meanwhile := meanwhile s |}.

Lemma lstate_same s : lstate (ev_win s) (hooks s) (_free_hooks s) s = s.
Proof. by destruct s. Qed.

(** Every entry in use stays in use. *)
Definition same_open (w w' : win) : Prop := forall i c, open_fh w i c -> open_fh w' i c.

Lemma same_open_refl w : same_open w w.
Proof. by intros i c. Qed.

Lemma same_open_trans w1 w2 w3 : same_open w1 w2 -> same_open w2 w3 -> same_open w1 w3.
Proof. intros H1 H2 i c H. by apply H2, H1. Qed.

(** A change the entries in use do not see. *)
Lemma same_open_fhs w w' : _win32_fhs w' = _win32_fhs w -> _win32_fh_count w' = _win32_fh_count w -> same_open w w'.
Proof. intros E1 E2 i c. unfold open_fh. by rewrite E1, E2. Qed.

Lemma same_open_trace w t : same_open w (set_trace t w).
Proof. by apply same_open_fhs. Qed.

Lemma same_open_errno w e : same_open w (set_win_errno e w).
Proof. by apply same_open_fhs. Qed.

#[export] Hint Resolve same_open_refl same_open_trace same_open_errno : adb.

Lemma hook_ok_open w w' k : same_open w w' -> hook_ok w k -> hook_ok w' k.
Proof. intros H [Hw (c & Ho & Hp)]. split; [done|]. exists c. split; [by apply H|done]. Qed.

Lemma looper_ok_win w w' l : same_open w w' -> win_ok w' -> looper_ok w l -> looper_ok w' l.
Proof.
  intros H Hw [_ Hh Hn]. split; [done| |done]. eapply Forall_impl; [exact Hh|]. intros k. by apply hook_ok_open.
Qed.

Lemma open_fh_used w i c : win_ok w -> open_fh w i c ->
  exists r, _win32_fhs w !! i = Some r /\ clazz r = Some c /\ used r = true /\ Z.of_nat i < WIN32_MAX_FHS /\
    (c = _fh_socketpair_class -> u r <> 0 /\ is_Some (pairs w !! u r)).
Proof.
  intros Hok (Hi & r & Hr & Hc & Hu). exists r. pose proof (fh_ok_at _ _ _ Hok Hr) as [Hk Hp].
  split_and!; [done|done| | |].
  - rewrite Hk. apply bool_decide_eq_true. by rewrite Hc.
  - pose proof (wk_count _ Hok). lia.
  - intros ->. split; [by apply Hu|]. apply Hp; [done|by apply Hu].
Qed.

Section looper.
Context (oracle : list wcall -> forall c, wres c).

Lemma wp_get_hook j k Q X s : hooks s !! j = Some k -> Q k s -> wp (get_hook j) Q X s.
Proof. intros Hj HQ. unfold get_hook. by eapply wp_must. Qed.

Lemma wp_put_hook j k g Q X s : hooks s !! j = Some k ->
  Q tt (lstate (ev_win s) (<[j := g k]> (hooks s)) (_free_hooks s) s) -> wp (put_hook j g) Q X s.
Proof. intros Hj HQ. unfold put_hook. wp_step. eapply wp_get_hook; [done|]. wp_step. exact HQ. Qed.

Lemma wp_win_get_fh i r Q X s : _win32_fhs (ev_win s) !! i = Some r -> Q r s -> wp (win_ (get_fh i)) Q X s.
Proof.
  intros Hr HQ. unfold win_, get_fh. wp_step. eapply wp_must; [exact Hr|]. by rewrite put_view.
Qed.

Lemma wp_class_of i r c Q X s : _win32_fhs (ev_win s) !! i = Some r -> clazz r = Some c -> Q c s ->
  wp (win_ (class_of i)) Q X s.
Proof.
  intros Hr Hc HQ. unfold win_, class_of. wp_step. wp_step. unfold wp, get_fh, must. cbn [view Lens_ev_win].
  rewrite Hr, Hc. by destruct s.
Qed.

Lemma wp_socket_of j k r Q X s : hooks s !! j = Some k -> _win32_fhs (ev_win s) !! hk_fh k = Some r ->
  Q (k, r) s -> wp (socket_of j) Q X s.
Proof.
  intros Hj Hr HQ. unfold socket_of. wp_step. eapply wp_get_hook; [done|]. wp_step.
  eapply wp_win_get_fh; [done|]. by wp_step.
Qed.

(** The mask of Winsock events is of no concern. *)
Lemma set_mask_ok w i c r m : win_ok w -> open_fh w i c -> _win32_fhs w !! i = Some r ->
  win_ok (set_fhs (<[i := set_mask m r]> (_win32_fhs w)) w) /\
  same_open w (set_fhs (<[i := set_mask m r]> (_win32_fhs w)) w).
Proof.
  intros Hok (_ & r' & Hr' & Hc & _) Hr. rewrite Hr in Hr'. injection Hr' as <-. split.
  - assert (HL : live i c w) by (split; eauto).
    pose proof (put_fh_live i c (set_mask m) ltac:(intros ?; cbn; auto) w HL) as H. unfold wp in H.
    rewrite (put_fh_run _ _ _ _ Hr) in H. by destruct H.
  - intros j c' (Hj & rj & Hrj & Hcj & Hu). split; [done|]. cbn. destruct (decide (j = i)) as [->|].
    + rewrite Hr in Hrj. injection Hrj as <-. exists (set_mask m r).
      by rewrite list_lookup_insert_eq by (by eapply lookup_lt_Some).
    + exists rj. by rewrite list_lookup_insert_ne.
Qed.

(** The event of the socket at [i] could not be created. *)
Definition no_event (w : win) (i : nat) : Prop :=
  exists r, _win32_fhs w !! i = Some r /\ event r = INVALID_HANDLE_VALUE.

Lemma wp_socket_start j k Q s :
  looper_ok (ev_win s) [] -> hooks s !! j = Some k -> open_fh (ev_win s) (hk_fh k) _fh_socket_class ->
  (forall v h w', win_ok w' -> same_open (ev_win s) w' -> (v = 0 -> no_event w' (hk_fh k)) ->
     Q v (lstate w' (<[j := hk_set_h h k]> (hooks s)) (_free_hooks s) s)) ->
  wp (_event_socket_start oracle j) Q ev_safe s.
Proof.
  intros [Hok _ _] Hj Ho HQ. destruct (open_fh_used _ _ _ Hok Ho) as (r & Hr & Hc & Hu & Hi & _).
  unfold _event_socket_start. wp_step. eapply wp_socket_of; [done|done|]. cbv zeta. wp_step.
  eapply wp_put_hook; [done|]. destruct (Z.eqb_spec (event r) INVALID_HANDLE_VALUE) as [Ee|_].
  { wp_step. apply HQ; auto with adb. intros _. by exists r. }
  destruct (negb _); [|wp_step; apply HQ; [done|auto with adb|done]].
  wp_step. ev_call. destruct (negb _).
  { wp_step. ev_call. wp_step. eapply wp_put_hook; [apply list_lookup_insert_eq; by eapply lookup_lt_Some|]. done. }
  wp_step. unfold win_. wp_step. unfold wp. cbn [view Lens_ev_win ev_trace lstate ev_win put].
  rewrite (put_fh_run _ _ _ r); [|done]. 
  pose proof (set_mask_ok (ev_win s) _ _ r (_socket_wanted_to_flags (wanted k)) Hok Ho Hr) as [H1 H2].
  apply HQ; [by eapply win_ok_same; [..|exact H1]|by eapply same_open_trans; [exact H2|]; apply same_open_fhs|done].
Qed.

(** A hook that is new, or has the pointers of its class. *)
Definition hookable (c : FHClass) (k : EventHook) : Prop := k = new_hook (hk_fh k) \/ points c k.

Lemma wp_fh_hook j k c Q s :
  win_ok (ev_win s) -> hooks s !! j = Some k -> open_fh (ev_win s) (hk_fh k) c -> hookable c k ->
  (forall k' w', win_ok w' -> same_open (ev_win s) w' -> sig k' = sig k -> points c k' ->
     Q tt (lstate w' (<[j := k']> (hooks s)) (_free_hooks s) s)) ->
  wp (fh_hook oracle (hk_fh k) j) Q ev_safe s.
Proof.
  intros Hok Hj Ho Hk HQ. destruct (open_fh_used _ _ _ Hok Ho) as (r & Hr & Hc & _).
  assert (Hjl : (j < length (hooks s))%nat) by (by eapply lookup_lt_Some).
  unfold fh_hook. wp_step. eapply wp_class_of; [done|done|]. destruct c.
  - unfold _fh_file_hook. wp_step. eapply wp_win_get_fh; [done|]. eapply wp_put_hook; [done|].
    apply HQ; [done|auto with adb|done|]. destruct Hk as [->|(_ & _ & ? & ? & ?)]; by repeat split.
  - unfold _fh_socket_hook. wp_step. eapply wp_put_hook; [done|]. wp_step.
    eapply (wp_socket_start j (hk_set_socket k)); cbn [lstate ev_win hooks].
    + split; [done|constructor|constructor].
    + by apply list_lookup_insert_eq.
    + done.
    + intros v h w' Hw' Hs _. wp_step. cbn [lstate hooks]. rewrite list_insert_insert_eq.
      by apply HQ.
  - unfold _fh_socketpair_hook. eapply wp_put_hook; [done|].
    apply HQ; [done|auto with adb|done|]. destruct Hk as [->|(_ & _ & ? & ? & ?)]; by repeat split.
Qed.

(** The looper waits for [ev] more on entry [i]. *)
Definition masked (l l' : list EventHook) (i : nat) (m : Z) : Prop :=
  forall j, hook_mask l' j = if decide (j = i) then m else hook_mask l j.

Lemma lor_range a b : 0 <= a <= 255 -> 0 < b <= 255 -> 0 < Z.lor a b <= 255.
Proof.
  intros Ha Hb. pose proof (Z.lor_nonneg a b). assert (Z.lor a b <> 0).
  { intros E. apply Z.lor_eq_0_iff in E. lia. }
  assert (Z.lor a b = Z.lor a b mod 2 ^ 8); [|pose proof (Z.mod_pos_bound (Z.lor a b) (2 ^ 8) ltac:(lia)); lia].
  rewrite <- Z.land_ones, Z.land_lor_distr_l, !Z.land_ones, !Z.mod_small by lia. done.
Qed.

(** The hook at [j] has got its pointers and its events. *)
Lemma hooked_ok w w' l j k k' m :
  win_ok w' -> same_open w w' -> NoDup (hk_fh <$> l) -> l !! j = Some k ->
  (forall i x, i <> j -> l !! i = Some x -> hook_ok w x) ->
  hook_ok w' k' -> sig k' = (hk_fh k, m) ->
  looper_ok w' (<[j := k']> l) /\ masked l (<[j := k']> l) (hk_fh k) m.
Proof.
  intros Hw' Hs Hn Hj Hoth Hk Esig. injection Esig as Ef Ew. split.
  - split; [done| |].
    + apply Forall_lookup. intros i x Hx. destruct (decide (i = j)) as [->|Hne].
      * rewrite list_lookup_insert_eq in Hx by (by eapply lookup_lt_Some). by injection Hx as <-.
      * rewrite list_lookup_insert_ne in Hx by done. eapply hook_ok_open; [exact Hs|by eapply Hoth].
    + rewrite list_fmap_insert, Ef, list_insert_id; [done|]. by rewrite list_lookup_fmap, Hj.
  - intros i. rewrite (hook_mask_insert l j k k' i) by done. by rewrite Ew.
Qed.

(** The second half of [event_looper_hook]: the hook at [j] is there. *)
Lemma wp_hook_node j k c ev Q s :
  win_ok (ev_win s) -> NoDup (hk_fh <$> hooks s) -> hooks s !! j = Some k ->
  (forall i x, i <> j -> hooks s !! i = Some x -> hook_ok (ev_win s) x) ->
  open_fh (ev_win s) (hk_fh k) c -> hookable c k -> 0 <= wanted k <= 255 -> 0 < ev <= 255 ->
  Z.land (wanted k) ev <> ev ->
  (forall w' l', looper_ok w' l' -> same_open (ev_win s) w' -> masked (hooks s) l' (hk_fh k) (Z.lor (wanted k) ev) ->
     Q tt (lstate w' l' (_free_hooks s) s)) ->
  wp (fh_hook oracle (hk_fh k) j;; put_hook j (fun k => hk_set_wanted (Z.lor (wanted k) ev) k)) Q ev_safe s.
Proof.
  intros Hok Hn Hj Hoth Ho Hk Hw Hev Hne HQ. assert (Hjl : (j < length (hooks s))%nat) by (by eapply lookup_lt_Some).
  wp_step. eapply wp_fh_hook; [done|done|done|done|]. intros k' w' Hw' Hs [= Ef Ew] Hp.
  eapply wp_put_hook; [by apply list_lookup_insert_eq|]. cbn [lstate hooks ev_win _free_hooks].
  rewrite list_insert_insert_eq. set (k2 := hk_set_wanted _ k').
  destruct (hooked_ok (ev_win s) w' (hooks s) j k k2 (Z.lor (wanted k) ev)) as [H1 H2]; try done.
  - split; [unfold k2; cbn; rewrite Ew; by apply lor_range|]. exists c. split; [cbn; rewrite Ef; by apply Hs|exact Hp].
  - unfold k2, sig. cbn. by rewrite Ef, Ew.
  - by apply HQ.
Qed.

Lemma wp_from_int i c Q X s : win_ok (ev_win s) -> open_fh (ev_win s) i c -> Q (Some i) s ->
  wp (win_ (_fh_from_int (fd_of i))) Q X s.
Proof.
  intros Hok Ho HQ. destruct (open_fh_used _ _ _ Hok Ho) as (r & Hr & Hc & Hu & _). destruct Ho as [Hi _].
  unfold win_. wp_step. unfold wp. cbn [view Lens_ev_win]. rewrite (from_int_run i _ r) by done. by destruct s.
Qed.

Lemma land_lor_absorb a b : Z.land a b = b -> Z.lor a b = a.
Proof. intros E. rewrite <- E. bits. Qed.

Lemma wp_hook_alloc i s :
  win_ok (ev_win s) ->
  wp (event_hook_alloc oracle i)
     (fun k s1 => k = new_hook i /\ exists w1 n1, s1 = lstate w1 (hooks s) n1 s /\ win_ok w1 /\ same_open (ev_win s) w1)
     ev_safe s.
Proof.
  intros Hok. unfold event_hook_alloc. wp_step. wp_step. destruct (_free_hooks s) as [|n1].
  - wp_step. ev_call. destruct (_ =? 0); [done|]. wp_step. split; [done|]. eexists _, _.
    split; [reflexivity|]. auto with adb.
  - wp_step. wp_step. wp_step. split; [done|]. exists (ev_win s), n1. auto with adb.
Qed.

Lemma wp_looper_hook i c ev Q s :
  looper_ok (ev_win s) (hooks s) -> open_fh (ev_win s) i c -> 0 < ev <= 255 ->
  (forall w' l' n', looper_ok w' l' -> same_open (ev_win s) w' ->
     masked (hooks s) l' i (Z.lor (hook_mask (hooks s) i) ev) -> Q tt (lstate w' l' n' s)) ->
  wp (event_looper_hook oracle (fd_of i) ev) Q ev_safe s.
Proof.
  intros [Hok Hh Hn] Ho Hev HQ. unfold event_looper_hook. wp_step. eapply wp_from_int; [done|done|].
  wp_step. wp_step. cbv zeta. destruct (hook_mask_cases (hooks s) i Hn) as [(j & k & Hj & <- & -> & Em)|(Hx & El & Em)].
  - rewrite Em in HQ. assert (Hjl : (j < length (hooks s))%nat) by (by eapply lookup_lt_Some).
    rewrite (proj2 (Nat.eqb_neq j _)) by lia. wp_step. wp_step. wp_step. eapply wp_get_hook; [done|].
    pose proof (proj1 (Forall_lookup _ _) Hh _ _ Hj) as (Hw & c' & Ho' & Hp).
    assert (c' = c) as -> by (destruct Ho as (_ & r & Hr & Hc & _), Ho' as (_ & r' & Hr' & Hc' & _); congruence).
    destruct (Z.eqb_spec (Z.land (wanted k) ev) ev) as [Ea|Ea]; cbn [negb].
    + wp_step. rewrite <- (lstate_same s). apply HQ; [by split|auto with adb|].
      intros j'. case_decide as E; [|done]. subst j'. rewrite Em. symmetry. by apply land_lor_absorb.
    + eapply (wp_hook_node j k c); try done; [|by right|lia|].
      * intros i' x _ Hx. by eapply Forall_lookup.
      * intros w' l' H1 H2 H3. by apply HQ.
  - rewrite Em, Z.lor_0_l in HQ. rewrite El, Nat.eqb_refl. wp_step. wp_step.
    eapply wp_mono; [by apply (wp_hook_alloc i)| |done]. intros k s1 (-> & w1 & n1 & -> & Hok1 & Hs1).
    wp_step. wp_step. assert (Hlast : (hooks s ++ [new_hook i]) !! length (hooks s) = Some (new_hook i)) by (by apply list_lookup_middle).
    eapply wp_get_hook; [exact Hlast|]. cbn [new_hook wanted]. rewrite Z.land_0_l, (proj2 (Z.eqb_neq 0 ev)) by lia. cbn [negb].
    change i with (hk_fh (new_hook i)) at 1.
    eapply (wp_hook_node (length (hooks s)) (new_hook i) c); cbn [lstate set_hooks hooks ev_win new_hook hk_fh wanted]; try done.
    + rewrite fmap_app. apply NoDup_app. split_and!; [done| |apply NoDup_singleton]. set_solver.
    + intros i' x Hi Hx'. apply lookup_app_Some in Hx' as [Hx'|[Hl Hx']].
      * eapply hook_ok_open; [exact Hs1|]. by eapply Forall_lookup.
      * exfalso. apply lookup_lt_Some in Hx'. simpl in Hx'. lia.
    + by apply Hs1.
    + by left.
    + rewrite Z.land_0_l. lia.
    + intros w' l' H1 H2 H3. apply HQ; [done|by eapply same_open_trans|]. rewrite Z.lor_0_l in H3.
      intros j. rewrite H3. case_decide as E; [done|]. by rewrite hook_mask_snoc, decide_False.
Qed.

Lemma land_range a b : 0 <= a <= 255 -> 0 <= Z.land a b <= 255.
Proof.
  intros Ha. assert (E : Z.land a b = Z.land (Z.land a b) (Z.ones 8)).
  { rewrite <- Z.land_assoc, (Z.land_comm b), Z.land_assoc, (Z.land_ones a), Z.mod_small by lia. done. }
  rewrite E, Z.land_ones by lia. pose proof (Z.mod_pos_bound (Z.land a b) (2 ^ 8) ltac:(lia)). lia.
Qed.

Lemma wp_looper_unhook i c ev Q s :
  looper_ok (ev_win s) (hooks s) -> open_fh (ev_win s) i c -> ev <> 0 -> Z.land ev (hook_mask (hooks s) i) = ev ->
  (forall l' n', looper_ok (ev_win s) l' -> masked (hooks s) l' i (clear (hook_mask (hooks s) i) ev) ->
     Q tt (lstate (ev_win s) l' n' s)) ->
  wp (event_looper_unhook (fd_of i) ev) Q ev_safe s.
Proof.
  intros [Hok Hh Hn] Ho Hev Hsub HQ. unfold event_looper_unhook. wp_step. eapply wp_from_int; [done|done|].
  wp_step. wp_step. cbv zeta. destruct (hook_mask_cases (hooks s) i Hn) as [(j & k & Hj & <- & -> & Em)|(_ & _ & Em)].
  2:{ exfalso. rewrite Em, Z.land_0_r in Hsub. congruence. }
  rewrite Em in HQ, Hsub. rewrite Hj, Hsub, (proj2 (Z.eqb_neq ev 0)) by done.
  pose proof (proj1 (Forall_lookup _ _) Hh _ _ Hj) as (Hw & c' & Ho' & Hp).
  set (k' := hk_set_wanted (clear (wanted k) ev) k).
  assert (Hj' : <[j := k']> (hooks s) !! j = Some k') by (apply list_lookup_insert_eq; by eapply lookup_lt_Some).
  assert (El : hk_fh <$> <[j := k']> (hooks s) = hk_fh <$> hooks s).
  { rewrite list_fmap_insert. apply list_insert_id. by rewrite list_lookup_fmap, Hj. }
  assert (Hoth : forall i x, i <> j -> hooks s !! i = Some x -> hook_ok (ev_win s) x).
  { intros i x _ Hx. by eapply Forall_lookup. }
  wp_step. eapply wp_put_hook; [exact Hj|]. destruct (Z.eqb_spec (clear (wanted k) ev) 0) as [E0|E0].
  - wp_step. apply HQ; cbn [lstate hooks ev_win].
    + split; [done| |].
      * replace (delete j (<[j := hk_set_wanted (clear (wanted k) ev) k]> (hooks s))) with (delete j (hooks s)).
        -- by apply Forall_delete.
        -- symmetry. apply list_eq. intros m. destruct (decide (m < j)%nat).
           ++ by rewrite !list_lookup_delete_lt, list_lookup_insert_ne by lia.
           ++ by rewrite !list_lookup_delete_ge, list_lookup_insert_ne by lia.
      * eapply sublist_NoDup; [exact Hn|]. rewrite <- El. apply fmap_sublist, sublist_delete.
    + intros m. change (hk_set_wanted (clear (wanted k) ev) k) with k'. rewrite (hook_mask_delete _ j k'); [|by rewrite El|done].
      change (hk_fh k') with (hk_fh k).
      case_decide; [by rewrite E0|]. by rewrite (hook_mask_insert _ _ k), decide_False.
  - wp_step. destruct (hooked_ok (ev_win s) (ev_win s) (hooks s) j k k' (clear (wanted k) ev)) as [H1 H2]; auto with adb.
    split; [|eauto]. pose proof (land_range (wanted k) (Z.lnot ev) ltac:(lia)). unfold k', clear in *. cbn. lia.
Qed.
End looper.

(** ** Objects *)

Lemma wp_ev_deref p f Q X s : fde_heap s !! p = Some f -> Q f s -> wp (deref p) Q X s.
Proof. intros Hp HQ. unfold deref, load. wp_step. wp_step; [exact Hp|]. by destruct s. Qed.

Lemma wp_ev_assign p g f Q X s :
  fde_heap s !! p = Some f -> Q tt (put (<[p := g f]> (fde_heap s)) s) -> wp (assign p g) Q X s.
Proof. intros Hp HQ. unfold assign, store, load. wp_step. wp_step. wp_step; [exact Hp|]. by wp_step. Qed.

(** The operations on the pending list are those of [fdevent.c] on the same
    memory. *)
Definition fd_dummy (h : gmap N fdevent) : fdstate := put h (fd_boot ready_env 0).

Lemma wp_ev_plist_enqueue x xs Q X s :
  dll (fde_heap s) list_pending xs -> x ∉ list_pending :: xs -> is_Some (fde_heap s !! x) ->
  (forall h', dll h' list_pending (xs ++ [x]) -> same_payload (fde_heap s) h' -> Q tt (put h' s)) ->
  wp (fdevent_plist_enqueue x) Q X s.
Proof.
  intros Hl Hx Hs HQ. apply wp_zoom. cbn [view Lens_ev_heap].
  pose proof (wp_plist_enqueue x xs (fun _ sd => Q tt (put (Fdevent.fde_heap sd) s)) (fun _ _ => False)
    (fd_dummy (fde_heap s)) Hl Hx Hs HQ) as H. unfold Fdevent.fdevent_plist_enqueue in H.
  unfold wp, zoom in *. cbn [view Lens_fde_heap fd_dummy put Fdevent.fde_heap] in H.
  destruct ((store_next x list_pending;; _) (fde_heap s)) as [[[]|e] t]; done.
Qed.

Lemma wp_ev_plist_remove x xs ys Q X s :
  dll (fde_heap s) list_pending (xs ++ x :: ys) ->
  (forall h', dll h' list_pending (xs ++ ys) -> same_payload (fde_heap s) h' -> Q tt (put h' s)) ->
  wp (fdevent_plist_remove x) Q X s.
Proof.
  intros Hl HQ. apply wp_zoom. cbn [view Lens_ev_heap].
  pose proof (wp_plist_remove x xs ys (fun _ sd => Q tt (put (Fdevent.fde_heap sd) s)) (fun _ _ => False)
    (fd_dummy (fde_heap s)) Hl HQ) as H. unfold Fdevent.fdevent_plist_remove in H.
  unfold wp, zoom in *. cbn [view Lens_fde_heap fd_dummy put Fdevent.fde_heap] in H.
  destruct ((p ← load_prev x; _) (fde_heap s)) as [[[]|e] t]; done.
Qed.

Lemma wp_ev_plist_dequeue xs Q X s :
  dll (fde_heap s) list_pending xs ->
  match xs with
  | [] => Q NULL s
  | x :: ys => forall h', dll h' list_pending ys -> same_payload (fde_heap s) h' -> Q x (put h' s)
  end ->
  wp fdevent_plist_dequeue Q X s.
Proof.
  intros Hl HQ. apply wp_zoom. cbn [view Lens_ev_heap].
  pose proof (wp_plist_dequeue xs (fun x sd => Q x (put (Fdevent.fde_heap sd) s)) (fun _ _ => False)
    (fd_dummy (fde_heap s)) Hl) as H. unfold Fdevent.fdevent_plist_dequeue in H.
  unfold wp, zoom in *. cbn [view Lens_fde_heap fd_dummy put Fdevent.fde_heap] in H.
  destruct ((node ← load_next list_pending; _) (fde_heap s)) as [[y|e] t]; [apply H|exfalso; apply H];
    destruct xs; try done; by destruct s.
Qed.

(** The events an object watches. *)
Definition mask_of (f : fdevent) : Z := Z.land (fde_state f) FDE_EVENTMASK.

(** The table, the objects and the masks [m] of the looper agree. *)
Record objs_ok (w : win) (h : gmap N fdevent) (t : list (option ptr)) (max : Z) (m : nat -> Z) : Prop := {
  ob_len : Z.of_nat (length t) = max;
  ob_init : forall i, Z.of_nat i < Z.min max WIN32_MAX_FHS -> exists p, t !! i = Some (Some p);
  ob_size : max = 0 \/ max = 256;
  ob_table : forall i p, t !! i = Some (Some p) -> p <> NULL ->
    exists f, h !! p = Some f /\ fde_fd f = fd_of i /\ active f = true;
  ob_active : forall p f, h !! p = Some f -> active f = true ->
    p <> NULL /\ p <> list_pending /\
    exists i c, fde_fd f = fd_of i /\ open_fh w i c /\ t !! i = Some (Some p) /\ m i = mask_of f;
  ob_mask : forall i, m i <> 0 -> exists p, t !! i = Some (Some p) /\ p <> NULL;
  ob_pending : forall p f, h !! p = Some f -> pending f = true -> active f = true;
  ob_range : forall p f, h !! p = Some f -> 0 <= fde_state f < 2 ^ 16 /\ 0 <= fde_events f < 2 ^ 16;
}.

Record ev_inv (s : evstate) (pend : list ptr) : Prop := {
  ev_looper : looper_ok (ev_win s) (hooks s);
  ev_objs : objs_ok (ev_win s) (fde_heap s) (fd_table s) (fd_table_max s) (hook_mask (hooks s));
  ev_list : dll (fde_heap s) list_pending pend;
  ev_pend : forall p, p ∈ pend <-> exists f, fde_heap s !! p = Some f /\ pending f = true;
}.

Lemma objs_ok_payload w h h' t max m : same_payload h h' -> objs_ok w h t max m -> objs_ok w h' t max m.
Proof.
  intros Hs [].
  assert (Hb : forall p f', h' !! p = Some f' -> exists f, h !! p = Some f /\ payload f' = payload f).
  { intros p f' Hp. symmetry in Hs. destruct (same_payload_lookup _ _ _ _ Hs Hp) as (f & ? & ?). eauto. }
  split; try done.
  - intros i p Hi Hne. destruct (ob_table0 i p Hi Hne) as (f & Hf & E1 & E2).
    destruct (same_payload_lookup _ _ _ _ Hs Hf) as (f' & Hf' & Ep). exists f'.
    split_and!; [done|by rewrite <- E1; apply (f_equal fde_fd Ep)|by rewrite <- E2; apply (f_equal active Ep)].
  - intros p f' Hp Ha. destruct (Hb p f' Hp) as (f & Hf & Ep).
    destruct (ob_active0 p f Hf) as (H1 & H2 & i & c & H3 & H4 & H5 & H6).
    { rewrite <- Ha. symmetry. apply (f_equal active Ep). }
    split_and!; [done|done|]. exists i, c. rewrite H6. split_and!; [|done|done|].
    + rewrite <- H3. apply (f_equal fde_fd Ep).
    + symmetry. apply (f_equal mask_of Ep).
  - intros p f' Hp Hpe. destruct (Hb p f' Hp) as (f & Hf & Ep).
    change (active (payload f') = true). rewrite Ep. apply (ob_pending0 p f Hf).
    rewrite <- Hpe. symmetry. apply (f_equal pending Ep).
  - intros p f' Hp. destruct (Hb p f' Hp) as (f & Hf & Ep).
    change (0 <= fde_state (payload f') < 2 ^ 16 /\ 0 <= fde_events (payload f') < 2 ^ 16). rewrite Ep. exact (ob_range0 p f Hf).
Qed.

(** What [p] watches, when it is active, is what the looper waits for. *)
Definition remasked (m m' : nat -> Z) (f g : fdevent) : Prop :=
  forall j, m' j = if decide (active f = true /\ fde_fd f = fd_of j) then mask_of g else m j.

Lemma remasked_same m f : (forall i, active f = true -> fde_fd f = fd_of i -> m i = mask_of f) ->
  forall g, mask_of g = mask_of f -> remasked m m f g.
Proof. intros H g E j. case_decide as D; [|done]. rewrite E. apply H; apply D. Qed.

Lemma fd_of_inj i j : fd_of i = fd_of j -> i = j.
Proof. unfold fd_of. lia. Qed.

(** One object changes, with the looper's mask of its descriptor. *)
Lemma objs_ok_upd w w' h t max m m' p f g :
  objs_ok w h t max m -> h !! p = Some f -> same_open w w' -> remasked m m' f g ->
  fde_fd g = fde_fd f -> active g = active f -> (pending g = true -> active g = true) ->
  0 <= fde_state g < 2 ^ 16 -> 0 <= fde_events g < 2 ^ 16 ->
  objs_ok w' (<[p := g]> h) t max m'.
Proof.
  intros [] Hp Hs Hm Efd Eact Hpend Hr1 Hr2. split; try done.
  - intros i q Hi Hne. destruct (ob_table0 i q Hi Hne) as (f' & Hf' & E1 & E2).
    destruct (decide (q = p)) as [->|]; [|exists f'; by rewrite lookup_insert_ne].
    exists g. rewrite lookup_insert_eq. split_and!; [done|congruence|congruence].
  - intros q f' Hq Ha. apply lookup_insert_Some in Hq as [[<- <-]|[Hne Hq]].
    + rewrite Eact in Ha. destruct (ob_active0 p f Hp Ha) as (H1 & H2 & i & c & H3 & H4 & H5 & H6).
      split_and!; [done|done|]. exists i, c. rewrite Hm, decide_True by done.
      split_and!; [by rewrite Efd|by apply Hs|done|done].
    + destruct (ob_active0 q f' Hq Ha) as (H1 & H2 & i & c & H3 & H4 & H5 & H6).
      split_and!; [done|done|]. exists i, c. split_and!; [done|by apply Hs|done|]. rewrite Hm, decide_False; [done|].
      intros [Ha' E']. destruct (ob_active0 p f Hp Ha') as (_ & _ & i' & _ & H3' & _ & H5' & _).
      rewrite H3' in E'. apply fd_of_inj in E' as ->. congruence.
  - intros i. rewrite Hm. case_decide as D; [|apply ob_mask0]. intros _. destruct D as [Ha E].
    destruct (ob_active0 p f Hp Ha) as (Hn & _ & i' & _ & E' & _ & Ht & _). exists p. split; [|done].
    rewrite E in E'. apply fd_of_inj in E' as ->. done.
  - intros q f' Hq Hf'. apply lookup_insert_Some in Hq as [[<- <-]|[Hne Hq]]; [auto|by apply (ob_pending0 q)].
  - intros q f' Hq. apply lookup_insert_Some in Hq as [[<- <-]|[Hne Hq]]; [done|by apply (ob_range0 q)].
Qed.

(** The whole state after a change of one object and of the pending list. *)
Lemma ev_inv_upd s s' pend pend' p f g :
  ev_inv s pend -> fde_heap s !! p = Some f ->
  looper_ok (ev_win s') (hooks s') -> same_open (ev_win s) (ev_win s') ->
  fd_table s' = fd_table s -> fd_table_max s' = fd_table_max s ->
  same_payload (<[p := g]> (fde_heap s)) (fde_heap s') -> dll (fde_heap s') list_pending pend' ->
  (forall q, q ∈ pend' <-> if decide (q = p) then pending g = true else q ∈ pend) ->
  remasked (hook_mask (hooks s)) (hook_mask (hooks s')) f g ->
  fde_fd g = fde_fd f -> active g = active f -> (pending g = true -> active g = true) ->
  0 <= fde_state g < 2 ^ 16 -> 0 <= fde_events g < 2 ^ 16 ->
  ev_inv s' pend'.
Proof.
  intros [Hl Ho Hd Hp] Hf Hl' Hs Et Em Hpay Hd' Hpend Hm E1 E2 E3 E4 E5. split; [done| |done|].
  - rewrite Et, Em. eapply objs_ok_payload; [exact Hpay|]. by eapply objs_ok_upd.
  - intros q. rewrite Hpend. split.
    + intros Hq. assert (exists f', (<[p := g]> (fde_heap s) : gmap _ _) !! q = Some f' /\ pending f' = true) as (f' & Hf' & Hpf).
      { case_decide as D; [subst; exists g; by rewrite lookup_insert_eq|].
        destruct (proj1 (Hp q) Hq) as (f' & ? & ?). exists f'. by rewrite lookup_insert_ne. }
      destruct (same_payload_lookup _ _ _ _ Hpay Hf') as (f2 & Hf2 & Ep). exists f2. split; [done|].
      rewrite <- Hpf. apply (f_equal pending Ep).
    + intros (f2 & Hf2 & Hpf). symmetry in Hpay. destruct (same_payload_lookup _ _ _ _ Hpay Hf2) as (f' & Hf' & Ep).
      assert (Hpf' : pending f' = true) by (rewrite <- Hpf; apply (f_equal pending Ep)).
      apply lookup_insert_Some in Hf' as [[-> ->]|[Hne Hf']]; [by rewrite decide_True|].
      rewrite decide_False by done. apply Hp. eauto.
Qed.

Lemma ev_inv_active s pend p f : ev_inv s pend -> fde_heap s !! p = Some f ->
  forall i, active f = true -> fde_fd f = fd_of i -> hook_mask (hooks s) i = mask_of f /\ exists c, open_fh (ev_win s) i c.
Proof.
  intros Hi Hp i Ha Ef. destruct (ob_active _ _ _ _ _ (ev_objs _ _ Hi) p f Hp Ha) as (_ & _ & j & c & Ej & Ho & _ & Em).
  rewrite Ef in Ej. apply fd_of_inj in Ej as ->. eauto.
Qed.

(** ** Changing the events of interest *)

Lemma masks_meet e0 ev : Z.lor (clear e0 (clear e0 ev)) (clear ev e0) = ev.
Proof. unfold clear. bits. Qed.

Lemma wp_ev_update oracle i c ev p f Q s :
  looper_ok (ev_win s) (hooks s) -> open_fh (ev_win s) i c -> fde_heap s !! p = Some f -> fde_fd f = fd_of i ->
  hook_mask (hooks s) i = mask_of f -> 0 <= ev <= 255 -> mask_of f <> ev ->
  (forall w' l' n', looper_ok w' l' -> same_open (ev_win s) w' -> masked (hooks s) l' i ev -> Q tt (lstate w' l' n' s)) ->
  wp (fdevent_update oracle p ev) Q ev_safe s.
Proof.
  intros Hl Ho Hp Ef Em Hev Hne HQ. unfold fdevent_update. wp_step. eapply wp_ev_deref; [exact Hp|]. cbv zeta.
  fold (mask_of f). rewrite (proj2 (Z.eqb_neq ev (mask_of f))) by done. cbn [negb]. rewrite Ef.
  pose proof (land_eventmask_range (fde_state f) : 0 <= mask_of f <= 255) as Hr.
  apply wp_bind. apply wp_mono with
    (Q := fun _ s1 => exists l1 n1, s1 = lstate (ev_win s) l1 n1 s /\ looper_ok (ev_win s) l1 /\
            masked (hooks s) l1 i (clear (mask_of f) (clear (mask_of f) ev))) (X := ev_safe); [| |done].
  - assert (E0 : clear (mask_of f) ev = 0 \/ clear (mask_of f) ev <> 0) by lia.
    destruct E0 as [E0|E0]; [rewrite E0; cbn [Z.eqb negb when]|rewrite (proj2 (Z.eqb_neq _ 0) E0); cbn [negb when]].
    + wp_step. exists (hooks s), (_free_hooks s). rewrite lstate_same. split_and!; [done|done|].
      intros j. case_decide; [|done]. subst j. rewrite Em. unfold clear. bits.
    + eapply wp_looper_unhook; [done|done|done|rewrite Em; unfold clear; bits|]. intros l' n' H1 H2.
      rewrite Em in H2. eauto.
  - intros [] s1 (l1 & n1 & -> & Hl1 & Hm1). pose proof (Hm1 i) as Ei. rewrite decide_True in Ei by done.
    assert (E0 : clear ev (mask_of f) = 0 \/ clear ev (mask_of f) <> 0) by lia.
    pose proof (masks_meet (mask_of f) ev) as Emeet.
    destruct E0 as [E0|E0]; [rewrite E0; cbn [Z.eqb negb when]|rewrite (proj2 (Z.eqb_neq _ 0) E0); cbn [negb when]].
    + wp_step. rewrite E0, Z.lor_0_r in Emeet. rewrite Emeet in Hm1. apply HQ; auto with adb.
    + pose proof (land_range ev (Z.lnot (mask_of f)) ltac:(lia)) as Hrg. fold (clear ev (mask_of f)) in Hrg.
      eapply wp_looper_hook; [exact Hl1|exact Ho|lia|]. cbn [lstate hooks ev_win]. intros w' l' n' H1 H2 H3.
      apply HQ; [done|done|]. rewrite Ei, Emeet in H3. intros j. rewrite H3. case_decide; [done|].
      by rewrite Hm1, decide_False.
Qed.

Lemma wp_ev_update_active oracle ev p f pend Q s :
  ev_inv s pend -> fde_heap s !! p = Some f -> 0 <= ev <= 255 -> mask_of f <> ev ->
  (forall w' l' n', looper_ok w' l' -> same_open (ev_win s) w' ->
     (forall g, mask_of g = ev -> remasked (hook_mask (hooks s)) (hook_mask l') f g) -> Q tt (lstate w' l' n' s)) ->
  wp (when (active f) (fdevent_update oracle p ev)) Q ev_safe s.
Proof.
  intros Hi Hp Hev Hne HQ. pose proof (ev_looper _ _ Hi) as Hl. apply wp_when; intros Ha; cbn beta.
  - destruct (ob_active _ _ _ _ _ (ev_objs _ _ Hi) p f Hp Ha) as (_ & _ & i & c & Ef & Ho & _ & Em).
    eapply wp_ev_update; try done. intros w' l' n' H1 H2 H3. apply HQ; [done|done|]. intros g Eg j. rewrite H3.
    destruct (decide (j = i)) as [->|]; [by rewrite decide_True|]. rewrite decide_False; [done|].
    intros [_ E]. rewrite Ef in E. apply fd_of_inj in E. congruence.
  - rewrite <- (lstate_same s). apply HQ; [done|auto with adb|]. intros g Eg j. rewrite decide_False; [done|].
    rewrite Ha. by intros [].
Qed.

(** Storing to an object whose links stay leaves the list alone. *)
Lemma dll_assign (h : gmap N fdevent) l xs p f g : dll h l xs -> h !! p = Some f ->
  fde_next g = fde_next f -> fde_prev g = fde_prev f -> dll (<[p := g]> h) l xs.
Proof.
  intros Hd Hp E1 E2. eapply dll_ext; [exact Hd| |]; intros q;
    (destruct (decide (q = p)) as [->|]; [rewrite lookup_insert_eq, Hp; cbn; by f_equal|by rewrite lookup_insert_ne]).
Qed.

Lemma set_outcome_events f events : 0 <= fde_state f < 2 ^ 16 -> 0 <= fde_events f < 2 ^ 16 ->
  0 <= fde_state (set_outcome f events).1 < 2 ^ 16 /\ 0 <= fde_events (set_outcome f events).1 < 2 ^ 16.
Proof.
  intros H1 H2. unfold set_outcome. destruct (_ =? _); [done|]. destruct (negb _); [split; [apply u16_range|done]|].
  destruct (_ =? 0); split; apply u16_range.
Qed.

Lemma set_outcome_pending f events : 0 <= fde_state f < 2 ^ 16 ->
  pending (set_outcome f events).1 = pending f && negb (set_outcome f events).2.
Proof.
  intros Hst. unfold set_outcome. pose proof (land_eventmask_range events) as Hev.
  destruct (_ =? _); [by rewrite andb_true_r|]. destruct (pending f) eqn:Hp; cbn [negb].
  - destruct (_ =? 0); cbn [fst snd negb andb].
    + match goal with |- pending (set_state (clear (fde_state ?f2) _) _) = _ => apply (pending_clear f2) end.
      apply u16_range.
    + rewrite <- Hp. exact (pending_new_state f _ Hev Hst).
  - exact (eq_trans (pending_new_state f _ Hev Hst) Hp).
Qed.

(** The list after [fdevent_set]. *)
Definition set_pend (p : ptr) (f : fdevent) (events : Z) (pend : list ptr) : list ptr :=
  if (set_outcome f events).2 then filter (.≠ p) pend else pend.

Lemma set_pend_mem s pend p f events : ev_inv s pend -> fde_heap s !! p = Some f ->
  forall q, q ∈ set_pend p f events pend <-> if decide (q = p) then pending (set_outcome f events).1 = true else q ∈ pend.
Proof.
  intros Hi Hp q. destruct (ob_range _ _ _ _ _ (ev_objs _ _ Hi) p f Hp) as [Hst _].
  rewrite set_outcome_pending by done. pose proof (ev_pend _ _ Hi p) as Hpp.
  assert (Hin : p ∈ pend <-> pending f = true) by (rewrite Hpp; rewrite Hp; naive_solver).
  unfold set_pend. destruct (_.2); [rewrite list_elem_of_filter|]; case_decide as D; rewrite ?D, ?andb_false_r, ?andb_true_r;
    naive_solver.
Qed.

Lemma same_payload_restore (h h' : gmap N fdevent) p a b g :
  same_payload (<[p := a]> h) h' -> payload b = payload g -> same_payload (<[p := b]> h) (<[p := g]> h').
Proof.
  intros H E q. specialize (H q). destruct (decide (q = p)) as [->|].
  - rewrite !lookup_insert_eq. exact (f_equal Some E).
  - rewrite !lookup_insert_ne in * by done. done.
Qed.

(** [fdevent_set] runs through: the looper gets the new mask, the object its
    new state, the list may lose it. *)
Lemma wp_ev_set_run oracle p f events pend Q s :
  ev_inv s pend -> fde_heap s !! p = Some f ->
  (forall w' l' n' h', looper_ok w' l' -> same_open (ev_win s) w' ->
    (forall g, mask_of g = Z.land events FDE_EVENTMASK -> remasked (hook_mask (hooks s)) (hook_mask l') f g) ->
    same_payload (<[p := (set_outcome f events).1]> (fde_heap s)) h' -> dll h' list_pending (set_pend p f events pend) ->
    Q tt (put h' (lstate w' l' n' s))) ->
  wp (fdevent_set oracle p events) Q ev_safe s.
Proof.
  intros Hi Hp. destruct (ob_range _ _ _ _ _ (ev_objs _ _ Hi) p f Hp) as [Hst Hevs].
  unfold fdevent_set, set_pend, set_outcome. fold (mask_of f). cbv zeta.
  pose proof (land_eventmask_range events) as Hev. revert Hev. generalize (Z.land events FDE_EVENTMASK) as ev. intros ev Hev HQ.
  wp_step. eapply wp_ev_deref; [exact Hp|]. fold (mask_of f).
  destruct (Z.eqb_spec (mask_of f) ev) as [E|Hne].
  { wp_step. replace s with (put (fde_heap s) (lstate (ev_win s) (hooks s) (_free_hooks s) s)) by (by destruct s).
    apply HQ; [apply Hi|auto with adb| |by rewrite insert_id|apply Hi]. intros g Eg.
    apply remasked_same; [|congruence]. intros i Ha Ei. by apply (ev_inv_active s pend p f). }
  apply (wp_bind (when _ _)). fold (active f). eapply wp_ev_update_active; [exact Hi|exact Hp|exact Hev|done|].
  intros w' l' n' H1 H2 H3. wp_step. eapply wp_ev_assign; [exact Hp|]. cbn [put Lens_ev_heap lstate fde_heap].
  set (f1 := set_state (new_state (fde_state f) ev) f) in *.
  change (set_state (Z.lor (Z.land (fde_state f) FDE_STATEMASK) ev) f) with f1.
  wp_step. eapply wp_ev_deref; [apply lookup_insert_eq|]. cbn beta. fold (pending f1).
  assert (Epf : pending f1 = pending f) by (by apply pending_new_state). rewrite Epf.
  assert (Hd1 : dll (<[p := f1]> (fde_heap s)) list_pending pend) by (eapply dll_assign; [apply Hi|exact Hp|done|done]).
  destruct (pending f) eqn:Hpend; cbn [negb] in HQ; [|wp_step; by apply HQ].
  wp_step. eapply wp_ev_assign; [apply lookup_insert_eq|]. cbn [put Lens_ev_heap fde_heap]. rewrite insert_insert_eq.
  change (set_events (clear (fde_events f1) ev) f1) with (set_events (clear (fde_events f) ev) f1).
  set (f2 := set_events (clear (fde_events f) ev) f1) in *.
  assert (Hd2 : dll (<[p := f2]> (fde_heap s)) list_pending pend) by (eapply dll_assign; [apply Hi|exact Hp|done|done]).
  wp_step. eapply wp_ev_deref; [apply lookup_insert_eq|]. cbn beta.
  destruct (fde_events f2 =? 0); [|wp_step; by apply HQ]. cbn [fst snd] in HQ.
  assert (Hin : p ∈ pend) by (apply (ev_pend _ _ Hi); eauto).
  apply list_elem_of_split in Hin as (xs & ys & ->). destruct (dll_links _ _ _ _ _ Hd2) as (_ & _ & _ & _ & _ & Hn).
  rewrite filter_unlink in HQ by done. wp_step. eapply wp_ev_plist_remove; [exact Hd2|]. intros h3 Hl3 Hsp.
  destruct (same_payload_lookup _ _ _ _ Hsp (lookup_insert_eq _ p f2)) as (f3 & Hp3 & Ef3).
  eapply wp_ev_assign; [exact Hp3|]. apply HQ; [done|done|done| |by eapply dll_assign].
  eapply same_payload_restore; [exact Hsp|]. symmetry. by apply payload_clear_pending.
Qed.

Lemma wp_ev_set oracle p f events pend Q s :
  ev_inv s pend -> fde_heap s !! p = Some f ->
  (forall s', ev_inv s' (set_pend p f events pend) ->
     same_payload (<[p := (set_outcome f events).1]> (fde_heap s)) (fde_heap s') ->
     remasked (hook_mask (hooks s)) (hook_mask (hooks s')) f (set_outcome f events).1 -> Q tt s') ->
  wp (fdevent_set oracle p events) Q ev_safe s.
Proof.
  intros Hi Hp HQ. destruct (ob_range _ _ _ _ _ (ev_objs _ _ Hi) p f Hp) as [Hst Hevs].
  pose proof (set_outcome_mask f events Hst) as (Hmask & Hact & Hfd).
  pose proof (set_outcome_events f events Hst Hevs) as [Hr1 Hr2].
  eapply wp_ev_set_run; [exact Hi|exact Hp|]. intros w' l' n' h' H1 H2 H3 H4 H5.
  apply HQ; [|done|by apply H3]. eapply ev_inv_upd; try done; [by eapply set_pend_mem|by apply H3|].
  intros E. rewrite Hact. apply (ob_pending _ _ _ _ _ (ev_objs _ _ Hi) p f Hp).
  rewrite set_outcome_pending in E by done. by apply andb_true_iff in E as [? _].
Qed.
