(* ===== verification/Win32ProcessSpec.v ===== *)
(** * One wait of the event loop of the Windows build

    [fdevent_process] is safe whatever Win32 answers and whatever the other
    threads do to the socket pairs while it waits: it keeps the invariant of the
    looper and the objects, never writes after the table of handles, never
    follows a pointer of a hook that is not there, and tells an object exactly
    the events it watches. *)

From S2P Require Import Prelude Effects DList Os Sysdeps Wire Globals Fdevent FdeventFacts FdeventLoop FdeventReg FdeventSpec BipBuffer BipSpec Win32 Win32Spec Win32Events Win32EventsSpec Win32LoopSpec.

Import Win32 WinEvents.

(** ** What does not change *)

(** A hook without its handle and its ready events. *)
Definition core (k : EventHook) : nat * Z * list (option FHClass) :=
  (hk_fh k, wanted k, [prepare k; start k; stop_ k; check k; peek k]).

(** Only handles, ready events, masks, calls and pairs change. *)
Record quiet (s s' : evstate) : Prop := {
  qt_open : same_open (ev_win s) (ev_win s');
  qt_win : win_ok (ev_win s) -> win_ok (ev_win s');
  qt_core : core <$> hooks s' = core <$> hooks s;
  qt_heap : fde_heap s' = fde_heap s;
  qt_table : fd_table s' = fd_table s /\ fd_table_max s' = fd_table_max s;
  qt_htab : htab s' = htab s;
  qt_budget : (length (meanwhile s') <= length (meanwhile s))%nat;
}.

#[global] Instance quiet_preorder : PreOrder quiet.
Proof.
  split.
  - intros s. split; auto with adb.
  - intros s1 s2 s3 [] []. split; [by eapply same_open_trans|auto|congruence|congruence| |congruence|lia].
    destruct_and!. split; congruence.
Qed.

Lemma core_fh (l l' : list EventHook) : core <$> l' = core <$> l -> hk_fh <$> l' = hk_fh <$> l.
Proof. intros E. apply (f_equal (fmap (fun x => x.1.1))) in E. by rewrite <- !list_fmap_compose in E. Qed.

Lemma core_sig (l l' : list EventHook) : core <$> l' = core <$> l -> sig <$> l' = sig <$> l.
Proof. intros E. apply (f_equal (fmap fst)) in E. by rewrite <- !list_fmap_compose in E. Qed.

Lemma core_lookup (l l' : list EventHook) i k : core <$> l' = core <$> l -> l' !! i = Some k -> exists k', l !! i = Some k' /\ core k' = core k.
Proof.
  intros E Hi. apply (f_equal (lookup i)) in E. rewrite !list_lookup_fmap, Hi in E.
  destruct (l !! i) as [k'|]; [|done]. injection E as E. exists k'. split; [done|]. unfold core. congruence.
Qed.

Lemma hook_ok_core w k k' : core k = core k' -> hook_ok w k -> hook_ok w k'.
Proof.
  intros [= E1 E2 E3 E4 E5 E6 E7] (Hw & c & Ho & Hp). split; [by rewrite <- E2|]. exists c.
  rewrite <- E1. split; [done|]. unfold points in *. congruence.
Qed.

Lemma quiet_looper s s' : quiet s s' -> looper_ok (ev_win s) (hooks s) -> looper_ok (ev_win s') (hooks s').
Proof.
  intros [] [Hw Hh Hn]. split; [auto| |by rewrite (core_fh _ _ qt_core0)].
  apply Forall_lookup. intros i k Hk. destruct (core_lookup _ _ _ _ qt_core0 Hk) as (k' & Hk' & E).
  eapply hook_ok_core; [exact E|]. eapply hook_ok_open; [done|]. by eapply Forall_lookup.
Qed.

Lemma objs_ok_ext w w' h t max m m' :
  same_open w w' -> (forall i, m' i = m i) -> objs_ok w h t max m -> objs_ok w' h t max m'.
Proof.
  intros Hs Hm []. split; try done.
  - intros p f Hp Ha. destruct (ob_active p f Hp Ha) as (H1 & H2 & i & c & H3 & H4 & H5 & H6).
    split_and!; [done|done|]. exists i, c. rewrite Hm. split_and!; [done|by apply Hs|done|done].
  - intros i. rewrite Hm. apply ob_mask.
Qed.

Lemma quiet_inv s s' pend : quiet s s' -> ev_inv s pend -> ev_inv s' pend.
Proof.
  intros Hq [Hl Ho Hd Hp]. pose proof (quiet_looper _ _ Hq Hl). destruct Hq as [? ? ? Eh [Et Em] ? ?].
  split; rewrite ?Eh, ?Et, ?Em; try done. eapply objs_ok_ext; [done| |done].
  intros i. by apply hook_mask_sig, core_sig.
Qed.

(** ** The functions of the hooks *)

Section hooks.
Context (oracle : list wcall -> forall c, wres c).

(** The hook at [i] belongs to an entry in use by class [c] and wants [w]. *)
Definition at_hook (i : nat) (c : FHClass) (s : evstate) : Prop :=
  looper_ok (ev_win s) (hooks s) /\ exists k, hooks s !! i = Some k /\ open_fh (ev_win s) (hk_fh k) c /\ points c k.

Lemma at_hook_quiet i c s s' : quiet s s' -> at_hook i c s -> at_hook i c s'.
Proof.
  intros Hq [Hl (k & Hk & Ho & Hp)]. split; [by eapply quiet_looper|]. destruct Hq as [Hs _ Hc _ _ _ _].
  symmetry in Hc. destruct (core_lookup _ _ _ _ Hc Hk) as (k' & Hk' & [= E1 E2 E3 E4 E5 E6 E7]). exists k'.
  rewrite E1. split_and!; [done|by apply Hs|]. unfold points in *. congruence.
Qed.

(** A part of a function of class [c] on the hook at [i]. *)
Definition hook_op {A} (i : nat) (c : FHClass) (m : E A) : Prop :=
  forall s, at_hook i c s -> wp m (fun _ s' => quiet s s') ev_safe s.

Lemma hook_op_bind {A B} i c (m : E A) (f : A -> E B) :
  hook_op i c m -> (forall a, hook_op i c (f a)) -> hook_op i c (m ≫= f).
Proof.
  intros Hm Hf s Hs. wp_step. eapply wp_mono; [by apply Hm| |done]. intros a s1 H1.
  eapply wp_mono; [apply Hf, (at_hook_quiet _ _ _ _ H1 Hs)| |done]. intros b s2 H2. exact (transitivity H1 H2).
Qed.

Lemma hook_op_ret {A} i c (a : A) : hook_op i c (mret a).
Proof. intros s _. by wp_step. Qed.

Lemma hook_op_abort {A} i c why : hook_op i c (abort why : E A).
Proof. intros s _. exact I. Qed.

Lemma hook_op_when i c (b : bool) m : hook_op i c m -> hook_op i c (when b m).
Proof. intros Hm. destruct b; [done|apply hook_op_ret]. Qed.

Lemma ev_trace_quiet new s : quiet s (ev_trace new s).
Proof. split; try done; [by apply same_open_fhs|by apply win_ok_same]. Qed.

Lemma hook_op_call i c x : hook_op i c (wcall_ oracle x).
Proof. intros s _. ev_call. apply ev_trace_quiet. Qed.

(** A change of the handle or of the ready events. *)
Lemma put_hook_quiet s i k g : hooks s !! i = Some k -> core (g k) = core k ->
  quiet s (lstate (ev_win s) (<[i := g k]> (hooks s)) (_free_hooks s) s).
Proof.
  intros Hk E. split; auto with adb. cbn [lstate hooks]. rewrite list_fmap_insert, E.
  apply list_insert_id. by rewrite list_lookup_fmap, Hk.
Qed.

Lemma hook_op_put i c g : (forall k, core (g k) = core k) -> hook_op i c (put_hook i g).
Proof. intros Hg s [_ (k & Hk & _)]. eapply wp_put_hook; [exact Hk|]. by apply put_hook_quiet. Qed.

Lemma hook_op_get {A} i c (f : EventHook -> E A) :
  (forall k, points c k -> hook_op i c (f k)) -> hook_op i c (k ← get_hook i; f k).
Proof.
  intros Hf s Hs. pose proof Hs as [_ (k & Hk & _ & Hp)]. wp_step. eapply wp_get_hook; [exact Hk|]. by apply Hf.
Qed.

Lemma hook_op_socket {A} i c (f : EventHook * FHRec -> E A) :
  (forall x, hook_op i c (f x)) -> hook_op i c (x ← socket_of i; f x).
Proof.
  intros Hf s Hs. pose proof Hs as [_ (k & Hk & (_ & r & Hr & _) & _)]. wp_step.
  eapply wp_socket_of; [exact Hk|exact Hr|]. by apply Hf.
Qed.

Lemma hook_op_pair {A} i (f : EventHook * Z * SocketPairRec * bool -> E A) :
  (forall x, hook_op i _fh_socketpair_class (f x)) -> hook_op i _fh_socketpair_class (x ← pair_of i; f x).
Proof.
  intros Hf s Hs. pose proof Hs as [[Hok _ _] (k & Hk & Ho & _)].
  destruct (open_fh_used _ _ _ Hok Ho) as (r & Hr & _ & _ & _ & Hp). destruct (Hp eq_refl) as [Hu [sp Hsp]].
  unfold pair_of. wp_step. wp_step. eapply wp_socket_of; [exact Hk|exact Hr|]. cbn beta iota. wp_step.
  unfold win_, get_pair. wp_step. eapply wp_must; [exact Hsp|]. rewrite put_view. wp_step. by apply Hf.
Qed.

Ltac hook_step :=
  lazymatch goal with
  | |- hook_op _ _ (get_hook _ ≫= _) => apply hook_op_get; intros ? ?
  | |- hook_op _ _ (socket_of _ ≫= _) => apply hook_op_socket; intros [? ?]
  | |- hook_op _ _ (pair_of _ ≫= _) => apply hook_op_pair; intros [[[? ?] ?] ?]
  | |- hook_op _ _ (_ ≫= _) => apply hook_op_bind; [|intros ?]
  | |- hook_op _ _ (mret _) => apply hook_op_ret
  | |- hook_op _ _ skip => apply hook_op_ret
  | |- hook_op _ _ (abort _) => apply hook_op_abort
  | |- hook_op _ _ (wcall_ _ _) => apply hook_op_call
  | |- hook_op _ _ (when _ _) => apply hook_op_when
  | |- hook_op _ _ (put_hook _ _) => apply hook_op_put; intros ?; reflexivity
  | |- hook_op _ _ (if ?b then _ else _) => destruct b
  | |- hook_op _ _ (match ?o with Some _ => _ | None => _ end) => destruct o
  end.

Ltac hook_tac := cbv zeta; repeat hook_step.

Lemma add_ready_op i c flag : hook_op i c (add_ready i flag).
Proof. unfold add_ready. hook_tac. Qed.

Lemma socket_verify_op i c evts : hook_op i c (_event_socket_verify i evts).
Proof. unfold _event_socket_verify, add_ready. destruct evts. hook_tac. Qed.

Lemma socket_start_op i : hook_op i _fh_socket_class (_event_socket_start oracle i).
Proof.
  intros s [Hl (k & Hk & Ho & _)]. eapply wp_socket_start; [split; [apply Hl|constructor|constructor]|exact Hk|exact Ho|].
  intros v h w' H1 H2 _. split; try done. cbn [lstate hooks]. rewrite list_fmap_insert.
  apply list_insert_id. by rewrite list_lookup_fmap, Hk.
Qed.

Lemma call_prepare_op i c : hook_op i c (call_prepare oracle c i).
Proof.
  destruct c; cbn [call_prepare]; unfold _event_file_prepare, _event_socket_prepare, _event_socketpair_prepare, add_ready;
    [hook_tac|hook_tac; apply socket_verify_op|hook_tac].
Qed.

Lemma call_start_op i c : c <> _fh_file_class -> hook_op i c (call_start oracle c i).
Proof. intros Hc. destruct c; [done|apply socket_start_op|]. cbn [call_start]. unfold _event_socketpair_start. hook_tac. Qed.

Lemma call_stop_op i : hook_op i _fh_socket_class (call_stop _fh_socket_class i).
Proof. cbn [call_stop]. unfold _event_socket_stop. hook_tac. Qed.

Lemma call_check_op i : hook_op i _fh_socket_class (call_check oracle _fh_socket_class i).
Proof. cbn [call_check]. unfold _event_socket_check. hook_tac; apply socket_verify_op. Qed.

Lemma call_peek_op i c : hook_op i c (call_peek oracle c i).
Proof.
  destruct c; cbn [call_peek]; unfold _event_file_peek, _event_socket_peek, _event_socketpair_peek, _event_socketpair_prepare, add_ready;
    hook_tac; apply socket_verify_op.
Qed.
End hooks.

(** ** Signals *)

(** An object is left alone or told all the events it watches. *)
Definition told (h h' : gmap N fdevent) : Prop := forall q,
  match h !! q, h' !! q with
  | Some f, Some g => payload g = payload f \/ (active f = true /\ payload g = payload (marked (mask_of f) f))
  | None, None => True
  | _, _ => False
  end.

Lemma u16_ones z : u16 z = Z.land z (Z.ones 16).
Proof. by rewrite Z.land_ones. Qed.

Lemma mask_of_marked e f : mask_of (marked e f) = mask_of f.
Proof.
  unfold mask_of. cbn [marked set_state set_events fde_state]. rewrite u16_ones, <- Z.land_assoc, Z.land_lor_distr_l.
  apply Z.lor_0_r.
Qed.

Lemma active_marked_any e f : active (marked e f) = active f.
Proof.
  unfold active, has. cbn [marked set_state set_events fde_state]. rewrite u16_ones, <- Z.land_assoc, Z.land_lor_distr_l.
  by rewrite Z.lor_0_r.
Qed.

Lemma u16_lor_again a b : u16 (Z.lor (u16 (Z.lor a b)) b) = u16 (Z.lor a b).
Proof. rewrite !u16_ones. bits. Qed.

Lemma marked_again e f : payload (marked e (marked e f)) = payload (marked e f).
Proof.
  destruct f. unfold payload, marked, set_state, set_events. simpl. by rewrite !u16_lor_again.
Qed.

#[global] Instance told_preorder : PreOrder told.
Proof.
  split; [intros h q; destruct (h !! q); auto|]. intros h1 h2 h3 H12 H23 q. specialize (H12 q). specialize (H23 q).
  destruct (h1 !! q) as [f|], (h2 !! q) as [g|], (h3 !! q) as [k|]; try done.
  destruct H23 as [E23|[A23 E23]]; [rewrite E23; exact H12|].
  destruct H12 as [E12|[A12 E12]]; right.
  - rewrite (payload_marked (mask_of g) g f E12) in E23.
    replace (mask_of g) with (mask_of f) in E23 by (symmetry; exact (f_equal mask_of E12)). split; [|done].
    rewrite <- A23. symmetry. exact (f_equal active E12).
  - split; [done|]. rewrite E23, (payload_marked (mask_of g) g (marked (mask_of f) f) E12).
    replace (mask_of g) with (mask_of f); [apply marked_again|].
    rewrite <- (mask_of_marked (mask_of f) f). symmetry. exact (f_equal mask_of E12).
Qed.

Record moved (s s' : evstate) : Prop := {
  mv_open : same_open (ev_win s) (ev_win s');
  mv_core : core <$> hooks s' = core <$> hooks s;
  mv_heap : told (fde_heap s) (fde_heap s');
  mv_table : fd_table s' = fd_table s /\ fd_table_max s' = fd_table_max s;
  mv_budget : (length (meanwhile s') <= length (meanwhile s))%nat;
}.

#[global] Instance moved_preorder : PreOrder moved.
Proof.
  split.
  - intros s. split; auto with adb; reflexivity.
  - intros s1 s2 s3 [] []. split; [by eapply same_open_trans|congruence|by etrans| |lia].
    destruct_and!. split; congruence.
Qed.

Lemma quiet_moved s s' : quiet s s' -> moved s s'.
Proof. intros []. split; try done. by rewrite qt_heap0. Qed.

(** Pending objects are added behind [pend]. *)
Definition moves (s : evstate) (pend : list ptr) (must : bool) (s' : evstate) : Prop :=
  exists more, ev_inv s' (pend ++ more) /\ moved s s' /\ (must = true -> pend ++ more <> []).

Lemma moves_trans s1 s2 pend b1 s3 b2 more : ev_inv s2 (pend ++ more) -> moved s1 s2 ->
  (b1 = true -> pend ++ more <> []) -> moves s2 (pend ++ more) b2 s3 -> moves s1 pend (b1 || b2) s3.
Proof.
  intros _ H12 Hb1 (more' & Hi & H23 & Hb2). exists (more ++ more'). rewrite app_assoc. split_and!; [done|by etrans|].
  intros Hb. apply orb_true_iff in Hb as [Hb|Hb]; [|auto]. specialize (Hb1 Hb). destruct (pend ++ more); [done|]. done.
Qed.

Lemma quiet_moves s s' pend : ev_inv s pend -> quiet s s' -> moves s pend false s'.
Proof.
  intros Hi Hq. exists []. rewrite app_nil_r. split_and!; [by eapply quiet_inv|by apply quiet_moved|done].
Qed.

(** The object of a hook. *)
Lemma hook_object s pend i k : ev_inv s pend -> hooks s !! i = Some k ->
  exists p f, fd_table s !! hk_fh k = Some (Some p) /\ p <> NULL /\ p <> list_pending /\ fde_heap s !! p = Some f /\
    fde_fd f = fd_of (hk_fh k) /\ active f = true /\ wanted k = mask_of f.
Proof.
  intros [[Hw Hh Hn] [] _ _] Hk. pose proof (hook_mask_at _ _ _ Hn Hk) as Em.
  pose proof (proj1 (Forall_lookup _ _) Hh _ _ Hk) as (Hwk & _).
  destruct (ob_mask (hk_fh k)) as (p & Ht & Hp); [lia|]. destruct (ob_table _ _ Ht Hp) as (f & Hf & Ef & Ha).
  destruct (ob_active p f Hf Ha) as (_ & Hl & j & c & Ej & _ & _ & Emf). rewrite Ef in Ej. apply fd_of_inj in Ej as <-.
  exists p, f. split_and!; [done..|]. congruence.
Qed.

Lemma told_insert h h' p f g : h !! p = Some f -> active f = true -> payload g = payload (marked (mask_of f) f) ->
  same_payload (<[p := g]> h) h' -> told h h'.
Proof.
  intros Hp Ha Eg Hs q. specialize (Hs q). destruct (decide (q = p)) as [->|].
  - rewrite lookup_insert_eq in Hs. rewrite Hp. destruct (h' !! p); [|done]. apply (inj Some) in Hs. right. split; [done|].
    by rewrite <- Eg, <- Hs.
  - rewrite lookup_insert_ne in Hs by done. destruct (h !! q), (h' !! q); try done. apply (inj Some) in Hs. by left.
Qed.

(** The state in which only the objects have changed. *)
Lemma signal_moves s pend p f g h' pend' :
  ev_inv s pend -> fde_heap s !! p = Some f -> active f = true -> payload g = payload (marked (mask_of f) f) ->
  same_payload (<[p := g]> (fde_heap s)) h' -> dll h' list_pending pend' ->
  (exists more, pend' = pend ++ more /\ forall q, q ∈ more -> q = p) -> p ∈ pend' -> moves s pend true (put h' s).
Proof.
  intros Hi Hp Ha Eg Hs Hd (more & -> & Hmore) Hin.
  destruct (ob_range _ _ _ _ _ (ev_objs _ _ Hi) p f Hp) as [Hst Hev].
  assert (Hpg : pending g = true).
  { etrans; [exact (f_equal pending Eg)|]. change (pending (marked (mask_of f) f) = true).
    exact (proj1 (pending_mark (set_events (Z.lor (fde_events f) (mask_of f)) f) Hst)). }
  assert (Hag : active g = true) by (etrans; [exact (f_equal active Eg)|]; etrans; [exact (active_marked_any _ f)|done]).
  exists more. split_and!; [|split; auto with adb; by eapply told_insert|intros _ E; rewrite E in Hin; by apply not_elem_of_nil in Hin].
  eapply (ev_inv_upd s (put h' s) pend (pend ++ more) p f g); try done.
  - apply Hi.
  - auto with adb.
  - intros q. case_decide as D; [subst; tauto|]. rewrite elem_of_app. split; [|tauto]. intros [?|Hq]; [done|].
    by apply Hmore in Hq.
  - apply remasked_same; [intros i Ha' Ei; by apply (ev_inv_active s pend p f)|].
    etrans; [exact (f_equal mask_of Eg)|]. exact (mask_of_marked _ f).
  - exact (f_equal fde_fd Eg).
  - by rewrite Ha.
  - change (0 <= fde_state (payload g) < 2 ^ 16). rewrite Eg. apply u16_range.
  - change (0 <= fde_events (payload g) < 2 ^ 16). rewrite Eg. apply u16_range.
Qed.

Lemma wp_to_int i c Q X s : win_ok (ev_win s) -> open_fh (ev_win s) i c -> Q (fd_of i) s ->
  wp (win_ (_fh_to_int (Some i))) Q X s.
Proof.
  intros Hok Ho HQ. destruct (open_fh_used _ _ _ Hok Ho) as (r & Hr & _ & Hu & Hlt & _).
  unfold win_. wp_step. unfold wp. cbn [view Lens_ev_win]. rewrite (to_int_run _ _ r) by done. by destruct s.
Qed.

Lemma wp_hook_signal i k pend s :
  ev_inv s pend -> hooks s !! i = Some k -> wp (event_hook_signal i) (fun _ => moves s pend true) ev_safe s.
Proof.
  intros Hi Hk. destruct (hook_object s pend i k Hi Hk) as (p & f & Ht & Hn & Hlp & Hp & Ef & Ha & Em).
  pose proof (ev_looper _ _ Hi) as [Hw Hh _]. pose proof (proj1 (Forall_lookup _ _) Hh _ _ Hk) as (_ & c & Ho & _).
  destruct (ob_range _ _ _ _ _ (ev_objs _ _ Hi) p f Hp) as [Hst Hev].
  unfold event_hook_signal. wp_step. eapply wp_get_hook; [exact Hk|]. wp_step. eapply wp_to_int; [exact Hw|exact Ho|].
  wp_step. unfold table_get. unfold fd_of at 1 2. replace (_ - WIN32_FH_BASE) with (Z.of_nat (hk_fh k)) by lia.
  rewrite (proj2 (Z.ltb_ge (Z.of_nat (hk_fh k)) 0)), Nat2Z.id by lia. wp_step. eapply wp_must; [exact Ht|]. apply wp_ret.
  rewrite bool_decide_false by done. wp_step. eapply wp_ev_deref; [exact Hp|].
  rewrite Ef, Z.eqb_refl. cbn [negb]. fold (pending f).
  destruct (pending f) eqn:Hpe; cbn [negb].
  - apply wp_bind, wp_ret. eapply wp_ev_assign; [exact Hp|]. rewrite Em.
    eapply (signal_moves s pend p f _ _ pend); [done|done|done| |done| | |].
    + unfold marked. symmetry. f_equal. cbn [set_events fde_state]. rewrite (lor_has _ 9) by done.
      exact (set_state_same (set_events (Z.lor (fde_events f) (mask_of f)) f) Hst).
    + eapply dll_assign; [apply Hi|exact Hp|done|done].
    + exists []. rewrite app_nil_r. split; [done|]. by intros q Hq%not_elem_of_nil.
    + apply (ev_pend _ _ Hi). eauto.
  - wp_step. wp_step. eapply wp_ev_assign; [exact Hp|]. set (f1 := set_state (Z.lor (fde_state f) FDE_PENDING) f).
    assert (Hd1 : dll (<[p := f1]> (fde_heap s)) list_pending pend) by (eapply dll_assign; [apply Hi|exact Hp|done|done]).
    assert (Hnin : p ∉ pend).
    { intros Hin%(ev_pend _ _ Hi). destruct Hin as (f' & Hf' & Hpf). congruence. }
    eapply wp_ev_plist_enqueue; [exact Hd1|by rewrite not_elem_of_cons|exists f1; apply lookup_insert_eq|].
    intros h' Hd' Hs'. destruct (same_payload_lookup _ _ _ _ Hs' (lookup_insert_eq _ p f1)) as (f2 & Hp2 & E2).
    eapply wp_ev_assign; [exact Hp2|].
    eapply (signal_moves s pend p f (set_events (Z.lor (fde_events f2) (wanted k)) f2)); [done|done|done| | |by eapply dll_assign| |].
    + rewrite Em. clear - E2. destruct f, f2. unfold f1, payload in *. simpl in *. by injection E2 as -> -> -> -> -> ->.
    + eapply same_payload_restore; [exact Hs'|done].
    + exists [p]. split; [done|]. by intros q ->%list_elem_of_singleton.
    + apply elem_of_app. right. by apply list_elem_of_singleton.
Qed.

(** ** The loops over the hooks *)

Lemma moves_quiet s s1 s2 pend b : quiet s s1 -> moves s1 pend b s2 -> moves s pend b s2.
Proof. intros Hq (more & Hi & Hm & Hb). exists more. split_and!; [done| |done]. by etrans; [apply quiet_moved|]. Qed.

Lemma moves_weaken s s' pend b : moves s pend b s' -> moves s pend false s'.
Proof. intros (more & Hi & Hm & _). by exists more. Qed.

(** A hook that is there belongs to a class. *)
Lemma hook_at s pend i : ev_inv s pend -> (i < length (hooks s))%nat ->
  exists k c, hooks s !! i = Some k /\ points c k /\ at_hook i c s.
Proof.
  intros Hi Hlt. destruct (lookup_lt_is_Some_2 _ _ Hlt) as [k Hk]. pose proof (ev_looper _ _ Hi) as Hl.
  destruct (proj1 (Forall_lookup _ _) (lo_hooks _ _ Hl) _ _ Hk) as (_ & c & Ho & Hp). exists k, c.
  split_and!; [done|done|]. split; [done|]. eauto.
Qed.

Lemma core_length s s' : core <$> hooks s' = core <$> hooks s -> length (hooks s') = length (hooks s).
Proof. intros E. apply (f_equal length) in E. by rewrite !length_fmap in E. Qed.

Lemma wp_get_at i c Q X s : at_hook i c s -> (forall k, hooks s !! i = Some k -> points c k -> Q k s) -> wp (get_hook i) Q X s.
Proof. intros [_ (k & Hk & _ & Hp)] HQ. eapply wp_get_hook; [exact Hk|]. by apply HQ. Qed.

Section process.
Context (oracle : list wcall -> forall c, wres c).

Lemma wp_prepare_hook i pend s : ev_inv s pend -> (i < length (hooks s))%nat ->
  wp (prepare_hook oracle i) (fun g => moves s pend g) ev_safe s.
Proof.
  intros Hi Hlt. destruct (hook_at s pend i Hi Hlt) as (_ & c & _ & _ & Hat). unfold prepare_hook.
  wp_step. eapply wp_mono; [apply (hook_op_put i c); [|exact Hat]; done| |done]. intros [] s1 Hq1.
  pose proof (at_hook_quiet _ _ _ _ Hq1 Hat) as Hat1. wp_step. eapply wp_get_at; [exact Hat1|].
  intros k Hk (Hp & _). rewrite Hp. wp_step. eapply wp_mono; [by apply call_prepare_op| |done]. intros [] s2 Hq2.
  assert (Hq : quiet s s2) by exact (transitivity Hq1 Hq2). pose proof (quiet_inv _ _ _ Hq Hi) as Hi2.
  wp_step. eapply wp_get_at; [by apply (at_hook_quiet _ _ _ _ Hq)|]. intros k2 Hk2 _.
  destruct (negb _); [|wp_step; by apply quiet_moves].
  wp_step. eapply wp_mono; [by eapply wp_hook_signal| |done]. intros [] s3 H3. wp_step. by eapply moves_quiet.
Qed.

Lemma wp_prepare_hooks n i g pend s : ev_inv s pend -> (i + n <= length (hooks s))%nat -> (g = true -> pend <> []) ->
  wp (prepare_hooks oracle n i g) (fun g' => moves s pend g') ev_safe s.
Proof.
  revert i g pend s. induction n as [|n IH]; intros i g pend s Hi Hlt Hg; cbn [prepare_hooks].
  - wp_step. exists []. rewrite app_nil_r. split_and!; [done|reflexivity|done].
  - wp_step. eapply wp_mono; [apply (wp_prepare_hook i pend); [done|lia]| |done].
    intros g1 s1 (more & Hi1 & Hm1 & Hg1). eapply wp_mono; [apply (IH (S i) (g || g1) (pend ++ more)); [done| |]| |done].
    + rewrite (core_length s); [lia|apply Hm1].
    + intros E. apply orb_true_iff in E as [E|E]; [|auto]. specialize (Hg E). by destruct pend.
    + intros g2 s2 H2. exact (moves_trans s s1 pend false s2 g2 more Hi1 Hm1 ltac:(done) H2).
Qed.

Definition is_some {R} (r : option R) : bool := match r with Some _ => true | None => false end.

(** A loop whose body may signal, and leaves only after it has. *)
Lemma wp_each_hook {R} (body : nat -> E (option R)) n i pend s :
  (forall j s pend, ev_inv s pend -> (j < length (hooks s))%nat -> wp (body j) (fun r => moves s pend (is_some r)) ev_safe s) ->
  ev_inv s pend -> (i + n <= length (hooks s))%nat ->
  wp (each_hook n i body) (fun r => moves s pend (is_some r)) ev_safe s.
Proof.
  intros Hb. revert i pend s. induction n as [|n IH]; intros i pend s Hi Hlt; cbn [each_hook].
  - wp_step. exists []. rewrite app_nil_r. split_and!; [done|reflexivity|done].
  - wp_step. eapply wp_mono; [apply (Hb i s pend); [done|lia]| |done]. intros r s1 H1. destruct r as [r|]; [by wp_step|].
    destruct H1 as (more & Hi1 & Hm1 & _). eapply wp_mono; [apply (IH (S i) (pend ++ more)); [done|]| |done].
    + rewrite (core_length s); [lia|apply Hm1].
    + intros r s2 H2. exact (moves_trans s s1 pend false s2 _ more Hi1 Hm1 ltac:(done) H2).
Qed.

Lemma wp_for_hooks {R} (body : nat -> E (option R)) pend s :
  (forall j s pend, ev_inv s pend -> (j < length (hooks s))%nat -> wp (body j) (fun r => moves s pend (is_some r)) ev_safe s) ->
  ev_inv s pend -> wp (for_hooks body) (fun r => moves s pend (is_some r)) ev_safe s.
Proof. intros Hb Hi. unfold for_hooks. wp_step. wp_step. apply wp_each_hook; [done|done|lia]. Qed.

Lemma wp_signal_handle h pend s : ev_inv s pend -> wp (signal_handle oracle h) (fun r => moves s pend (is_some r)) ev_safe s.
Proof.
  intros Hi. unfold signal_handle. apply wp_for_hooks; [|done]. clear. intros j s pend Hi Hlt.
  destruct (hook_at s pend j Hi Hlt) as (_ & c & _ & _ & Hat). wp_step. eapply wp_get_at; [exact Hat|].
  intros k Hk (_ & _ & _ & _ & Hc). case_bool_decide; cbn [negb]; [|wp_step; by apply quiet_moves].
  wp_step. apply wp_mono with (Q := fun _ s1 => quiet s s1) (X := ev_safe); [| |done].
  { rewrite Hc. destruct c; [by wp_step| |by wp_step]. by apply call_check_op. }
  intros ok s1 Hq. destruct (ok =? 0); [wp_step; by apply quiet_moves|]. wp_step.
  pose proof (at_hook_quiet _ _ _ _ Hq Hat) as [_ (k1 & Hk1 & _)].
  eapply wp_mono; [eapply wp_hook_signal; [exact (quiet_inv _ _ _ Hq Hi)|exact Hk1]| |done]. intros [] s2 H2. wp_step.
  by eapply moves_quiet.
Qed.

Lemma wp_stop_hook j s pend : ev_inv s pend -> (j < length (hooks s))%nat ->
  wp (stop_hook j) (fun r => moves s pend (is_some r)) ev_safe s.
Proof.
  intros Hi Hlt. destruct (hook_at s pend j Hi Hlt) as (_ & c & _ & _ & Hat). unfold stop_hook. wp_step.
  eapply wp_get_at; [exact Hat|]. intros k Hk (_ & _ & _ & Hs & _). rewrite Hs.
  destruct c; [wp_step; by apply quiet_moves| |wp_step; by apply quiet_moves].
  wp_step. eapply wp_mono; [by apply call_stop_op| |done]. intros [] s1 Hq. wp_step. by apply quiet_moves.
Qed.

Lemma wp_peek_hook j s pend : ev_inv s pend -> (j < length (hooks s))%nat ->
  wp (peek_hook oracle j) (fun r => moves s pend (is_some r)) ev_safe s.
Proof.
  intros Hi Hlt. destruct (hook_at s pend j Hi Hlt) as (_ & c & _ & _ & Hat). unfold peek_hook. wp_step.
  eapply wp_get_at; [exact Hat|]. intros k Hk (_ & Hp & _). rewrite Hp. wp_step.
  eapply wp_mono; [by apply call_peek_op| |done]. intros r s1 Hq. wp_step.
  destruct (negb _); [|wp_step; wp_step; by apply quiet_moves].
  pose proof (at_hook_quiet _ _ _ _ Hq Hat) as [_ (k1 & Hk1 & _)].
  eapply wp_mono; [eapply wp_hook_signal; [exact (quiet_inv _ _ _ Hq Hi)|exact Hk1]| |done]. intros [] s2 H2. wp_step.
  eapply moves_quiet; [exact Hq|]. by eapply moves_weaken.
Qed.

(** ** Waiting *)

Lemma run_other_ok o ps l n :
  map_Forall (fun p sp => pair_ok p l n sp) ps ->
  map_Forall (fun p sp => pair_ok p l n sp) (run_other o ps) /\ (forall p, is_Some (ps !! p) -> is_Some (run_other o ps !! p)).
Proof.
  intros H. destruct o as [[p a2b] op]. cbn [run_other]. destruct (ps !! p) as [sp|] eqn:Hp; [|done]. split.
  - apply map_Forall_insert_2; [|done]. destruct (H p sp Hp). split; cbn; try done; destruct a2b; try done; by apply run_op_refines.
  - intros q Hq. destruct (decide (q = p)) as [->|]; [rewrite lookup_insert_eq; eauto|by rewrite lookup_insert_ne].
Qed.

Lemma run_others_ok ops ps l n :
  map_Forall (fun p sp => pair_ok p l n sp) ps ->
  let ps' := fold_left (fun ps o => run_other o ps) ops ps in
  map_Forall (fun p sp => pair_ok p l n sp) ps' /\ (forall p, is_Some (ps !! p) -> is_Some (ps' !! p)).
Proof.
  revert ps. induction ops as [|o ops IH]; intros ps H; [done|]. destruct (run_other_ok o ps l n H) as [H1 H2].
  destruct (IH _ H1) as [H3 H4]. split; [done|]. intros p Hp. by apply H4, H2.
Qed.

Lemma wp_ev_wait s : wp wait (fun _ s' => quiet s s' /\ (length (meanwhile s') < length (meanwhile s))%nat) ev_safe s.
Proof.
  unfold wp, wait. destruct (meanwhile s) as [|ops rest] eqn:Em; [done|]. split; [|cbn; lia].
  split; try done; [by apply same_open_fhs| |cbn; rewrite Em; cbn; lia]. intros [].
  destruct (run_others_ok ops (pairs (ev_win s)) _ _ wk_pairs) as [H1 H2].
  split; try done. cbn. eapply Forall_impl; [exact wk_fhs|]. intros r [Hu Hp]. split; [done|]. intros E1 E2. by apply H2, Hp.
Qed.

Lemma wp_ev_waiting t s : wp (if Z.of_nat (length t) >? MAXIMUM_WAIT_OBJECTS then _wait_for_all oracle t
    else wcall_ oracle (WaitForMultipleObjects t) : E Z) (fun _ s' => quiet s s') ev_safe s.
Proof.
  destruct (_ >? _).
  - eapply wp_mono; [apply wp_wait_for_all| |done]. intros r s' (new & -> & _). apply ev_trace_quiet.
  - ev_call. apply ev_trace_quiet.
Qed.

Lemma wp_wait_for_hooks pend s : ev_inv s pend -> wp (wait_for_hooks oracle) (fun _ => moves s pend true) ev_safe s.
Proof.
  intros Hi. unfold wait_for_hooks. apply wp_loop with (I := fun _ s1 => moves s pend false s1).
  { exists []. rewrite app_nil_r. split_and!; [done|reflexivity|done]. }
  intros [] s1 (more & Hi1 & Hm1 & _). wp_step. wp_step. wp_step.
  eapply wp_mono; [apply wp_ev_wait| |done]. intros [] s2 [Hq2 Hb2]. wp_step.
  eapply wp_mono; [apply wp_ev_waiting| |done]. intros r s3 Hq3.
  assert (Hq : quiet s1 s3) by exact (transitivity Hq2 Hq3). pose proof (quiet_inv _ _ _ Hq Hi1) as Hi3.
  assert (Hb : (budget s3 < budget s1)%nat) by (pose proof (qt_budget _ _ Hq3); unfold budget, Budget_evstate in *; lia).
  assert (H3 : moves s pend false s3).
  { eapply (moves_trans s s1 pend false s3 false); [done|done|done|]. by apply quiet_moves. }
  destruct (r =? WAIT_FAILED); [by wp_step|]. destruct ((0 <=? r) && _) eqn:Er; [|by wp_step].
  apply andb_true_iff in Er as [Er1%Z.leb_le Er2%Z.ltb_lt]. wp_step.
  destruct (lookup_lt_is_Some_2 (htab s1) (Z.to_nat r)) as [h Hh]; [lia|]. eapply wp_must; [exact Hh|].
  wp_step. eapply wp_mono; [by apply (wp_signal_handle h (pend ++ more))| |done]. intros g s4 H4. wp_step.
  assert (Hm3 : moved s s3) by (etrans; [exact Hm1|by apply quiet_moved]).
  pose proof (moves_trans s s3 pend false s4 _ more Hi3 Hm3 ltac:(done) H4) as H.
  destruct g; [exact H|]. split; [exact H|]. destruct H4 as (_ & _ & Hm4 & _).
  pose proof (mv_budget _ _ Hm4). unfold budget, Budget_evstate in *. lia.
Qed.

(** ** Starting the hooks *)

(** A hook nothing can be waited for: the descriptor is an end of a pair and
    both directions are watched, or the event of the socket is missing. *)
Definition cannot_wait (s : evstate) (k : EventHook) : Prop :=
  (start k = Some _fh_socketpair_class /\ wanted k <> FDE_READ /\ wanted k <> FDE_WRITE) \/
  (start k = Some _fh_socket_class /\ no_event (ev_win s) (hk_fh k)).

Definition someone_cannot (s : evstate) : Prop := exists i k, hooks s !! i = Some k /\ cannot_wait s k.

Lemma wp_pair_start i s : at_hook i _fh_socketpair_class s ->
  wp (call_start oracle _fh_socketpair_class i) (fun v s' => quiet s s' /\ (v = 0 -> someone_cannot s')) ev_safe s.
Proof.
  intros Hat. pose proof Hat as [[Hok _ _] (k & Hk & Ho & Hp)].
  destruct (open_fh_used _ _ _ Hok Ho) as (r & Hr & _ & _ & _ & Hpr). destruct (Hpr eq_refl) as [Hu [sp Hsp]].
  cbn [call_start]. unfold _event_socketpair_start, pair_of. wp_step. wp_step. eapply wp_socket_of; [exact Hk|exact Hr|].
  cbn beta iota. wp_step. unfold win_, get_pair. wp_step. eapply wp_must; [exact Hsp|]. rewrite put_view. wp_step. cbn beta iota.
  destruct (Z.eqb_spec (wanted k) FDE_READ) as [|H1].
  { wp_step. eapply wp_put_hook; [exact Hk|]. wp_step. split; [by apply put_hook_quiet|done]. }
  destruct (Z.eqb_spec (wanted k) FDE_WRITE) as [|H2].
  { wp_step. eapply wp_put_hook; [exact Hk|]. wp_step. split; [by apply put_hook_quiet|done]. }
  wp_step. split; [reflexivity|]. intros _. exists i, k. split; [done|]. left. destruct Hp as (_ & _ & Hs & _). done.
Qed.

Lemma wp_socket_started i s : at_hook i _fh_socket_class s ->
  wp (call_start oracle _fh_socket_class i) (fun v s' => quiet s s' /\ (v = 0 -> someone_cannot s')) ev_safe s.
Proof.
  intros [Hl (k & Hk & Ho & Hp)]. cbn [call_start].
  eapply wp_socket_start; [split; [apply Hl|constructor|constructor]|exact Hk|exact Ho|].
  intros v h w' H1 H2 Hv. split.
  - split; try done. cbn [lstate hooks]. rewrite list_fmap_insert. apply list_insert_id. by rewrite list_lookup_fmap, Hk.
  - intros E. exists i, (hk_set_h h k). split; [apply list_lookup_insert_eq; by eapply lookup_lt_Some|].
    right. destruct Hp as (_ & _ & Hs & _). split; [done|by apply Hv].
Qed.

Lemma hooks_bound s pend : ev_inv s pend -> Z.of_nat (length (hooks s)) <= WIN32_MAX_FHS.
Proof.
  intros Hi. destruct (ev_looper _ _ Hi) as [Hw Hh Hn]. rewrite <- (length_fmap hk_fh).
  assert (Hsub : hk_fh <$> hooks s ⊆+ seq 0 (Z.to_nat WIN32_MAX_FHS)).
  { apply NoDup_submseteq; [done|]. intros x (k & -> & Hk)%list_elem_of_fmap. apply elem_of_seq.
    apply list_elem_of_lookup in Hk as [i Hk]. destruct (proj1 (Forall_lookup _ _) Hh _ _ Hk) as (_ & c & Ho & _).
    destruct (open_fh_used _ _ _ Hw Ho) as (_ & _ & _ & _ & Hlt & _). lia. }
  apply submseteq_length in Hsub. rewrite length_seq in Hsub. unfold WIN32_MAX_FHS in *. lia.
Qed.

(** [quiet] but for the table of handles. *)
Definition steady (s s' : evstate) : Prop := quiet (set_htab [] s) (set_htab [] s').

#[global] Instance steady_preorder : PreOrder steady.
Proof. split; [intros s; unfold steady; reflexivity|intros s1 s2 s3; unfold steady; apply transitivity]. Qed.

Lemma quiet_steady s s' : quiet s s' -> steady s s'.
Proof. intros []. by split. Qed.

Lemma ev_inv_htab t s pend : ev_inv (set_htab t s) pend <-> ev_inv s pend.
Proof. split; intros []; by split. Qed.

Lemma steady_inv s s' pend : steady s s' -> ev_inv s pend -> ev_inv s' pend.
Proof. intros Hs Hi. rewrite <- (ev_inv_htab [] s'). eapply quiet_inv; [exact Hs|]. by apply ev_inv_htab. Qed.

Lemma steady_moved s s' : steady s s' -> moved s s'.
Proof. intros Hs. destruct (quiet_moved _ _ Hs). by split. Qed.

Lemma wp_start_hook i s pend : ev_inv s pend -> (i < length (hooks s))%nat -> (length (htab s) <= i)%nat ->
  wp (start_hook oracle i) (fun r s' => steady s s' /\ (length (htab s') <= S i)%nat /\ (is_some r = true -> someone_cannot s'))
     ev_safe s.
Proof.
  intros Hi Hlt Hht. destruct (hook_at s pend i Hi Hlt) as (_ & c & _ & _ & Hat). unfold start_hook. wp_step.
  eapply wp_get_at; [exact Hat|]. intros k Hk (_ & _ & Hs & _). wp_step.
  apply wp_mono with (Q := fun v s1 => quiet s s1 /\ (v = 0 -> someone_cannot s1)) (X := ev_safe); [| |done].
  { rewrite Hs. destruct c; [by wp_step|by apply wp_socket_started|by apply wp_pair_start]. }
  intros ok s1 [Hq Hok]. pose proof (qt_htab _ _ Hq) as Eh. destruct (Z.eqb_spec ok 0) as [E|_].
  { wp_step. split_and!; [by apply quiet_steady|rewrite Eh; lia|auto]. }
  wp_step. eapply wp_get_at; [by apply (at_hook_quiet _ _ _ _ Hq)|]. intros k1 _ _.
  case_bool_decide; [wp_step; wp_step; wp_step; split_and!; [by apply quiet_steady|rewrite Eh; lia|done]|].
  wp_step. unfold add_handle. wp_step. wp_step. case_bool_decide.
  { wp_step. wp_step. split_and!; [by apply quiet_steady|rewrite Eh; lia|done]. }
  pose proof (hooks_bound s pend Hi). destruct (Z.geb_spec (Z.of_nat (length (htab s1))) WIN32_MAX_FHS) as [Hge|_];
    [rewrite Eh in Hge; lia|].
  wp_step. wp_step. split_and!; [by apply quiet_steady in Hq|cbn; rewrite length_app, Eh; cbn; lia|done].
Qed.

Lemma wp_start_hooks n i s pend : ev_inv s pend -> (i + n <= length (hooks s))%nat -> (length (htab s) <= i)%nat ->
  wp (each_hook n i (start_hook oracle)) (fun r s' => steady s s' /\ (is_some r = true -> someone_cannot s')) ev_safe s.
Proof.
  revert i s. induction n as [|n IH]; intros i s Hi Hlt Hht; cbn [each_hook]; [wp_step; split; [reflexivity|done]|].
  wp_step. eapply wp_mono; [apply (wp_start_hook i s pend); [done|lia|done]| |done].
  intros r s1 (Hs1 & Hh1 & Hr). destruct r; [wp_step; auto|].
  eapply wp_mono; [apply (IH (S i)); [by eapply steady_inv| |done]| |done].
  - rewrite (core_length s); [lia|]. apply (mv_core _ _ (steady_moved _ _ Hs1)).
  - intros r s2 [Hs2 Hr2]. split; [by etrans|done].
Qed.

(** ** The whole wait *)

(** Why nothing is waited for. *)
Definition no_wait (s : evstate) : Prop := htab s = [] \/ someone_cannot s.

Definition processed (s : evstate) (pend : list ptr) (s' : evstate) : Prop :=
  exists more, ev_inv s' (pend ++ more) /\ moved s s' /\ (pend ++ more <> [] \/ no_wait s').

Lemma wp_ev_process pend s : ev_inv s pend -> wp (fdevent_process oracle) (fun _ => processed s pend) ev_safe s.
Proof.
  intros Hi. unfold fdevent_process. wp_step. wp_step. wp_step.
  eapply wp_mono; [apply (wp_prepare_hooks (length (hooks s)) 0 false pend s); [done|lia|done]| |done].
  intros g s1 (more & Hi1 & Hm1 & Hg). wp_step.
  apply wp_mono with (Q := fun d s2 => if (d : bool) then exists more, ev_inv s2 (pend ++ more) /\ moved s s2 /\ no_wait s2
    else moves s pend true s2) (X := ev_safe); [| |done].
  - destruct g; [wp_step; by exists more|]. wp_step. wp_step. wp_step. unfold for_hooks at 1. wp_step. wp_step.
    set (s2 := set_htab [] s1). assert (Hi2 : ev_inv s2 (pend ++ more)) by (by apply ev_inv_htab).
    assert (Hs12 : steady s1 s2) by (unfold steady; reflexivity).
    eapply wp_mono; [apply (wp_start_hooks (length (hooks s2)) 0 s2 (pend ++ more)); [done|lia|done]| |done].
    intros r s3 [Hs3 Hr]. pose proof (steady_inv _ _ _ Hs3 Hi2) as Hi3.
    assert (Hm3 : moved s s3) by (etrans; [exact Hm1|]; apply steady_moved; exact (transitivity Hs12 Hs3)).
    destruct r; [wp_step; exists more; split_and!; [done|done|right; by apply Hr]|].
    wp_step. wp_step. destruct (Nat.eqb_spec (length (htab s3)) 0) as [E|_].
    { wp_step. exists more. split_and!; [done|done|left; by apply nil_length_inv]. }
    wp_step. eapply wp_mono; [by apply wp_wait_for_hooks| |done]. intros [] s4 (more4 & Hi4 & Hm4 & H4). wp_step.
    eapply wp_mono; [apply wp_for_hooks; [apply wp_stop_hook|exact Hi4]| |done]. intros r s5 H5. wp_step.
    assert (Hm : moved s s4) by exact (transitivity Hm3 Hm4). rewrite <- app_assoc in *.
    pose proof (moves_trans s s4 pend true s5 _ _ Hi4 Hm ltac:(intros _; by apply H4) H5) as H. exact H.
  - intros [] s2 H2; [wp_step; destruct H2 as (more2 & ? & ? & ?); exists more2; auto|].
    destruct H2 as (more2 & Hi2 & Hm2 & Hb2). wp_step.
    eapply wp_mono; [apply wp_for_hooks; [apply wp_peek_hook|exact Hi2]| |done]. intros r s3 H3. wp_step.
    destruct (moves_trans s s2 pend true s3 _ _ Hi2 Hm2 Hb2 H3) as (more3 & ? & ? & ?). exists more3. auto.
Qed.
End process.
