(* ===== verification/Win32RegSpec.v ===== *)
(** * Creating and destroying objects in the Windows build, and the whole loop

    [fdevent_create] and [fdevent_destroy] keep the invariant of the looper and
    the objects too, so every sequence of operations on the event loop does. *)

From S2P Require Import Prelude Effects DList Os Sysdeps Wire Globals Fdevent FdeventFacts FdeventLoop FdeventReg FdeventSpec BipBuffer BipSpec Win32 Win32Spec Win32Events Win32EventsSpec Win32LoopSpec Win32ProcessSpec.

Import Win32 WinEvents.

(** ** Registration *)

(** The table [t] has room for every descriptor and the objects of [t0]. *)
Record roomy (t0 t : list (option ptr)) : Prop := {
  rm_len : length t = 256%nat;
  rm_init : forall i, Z.of_nat i < WIN32_MAX_FHS -> exists p, t !! i = Some (Some p);
  rm_same : forall i p, p <> NULL -> t !! i = Some (Some p) <-> t0 !! i = Some (Some p);
}.

(** The new table: the [memset] of [sizeof(int)] bytes an entry reaches the first
    128 entries also where pointers have eight bytes. *)
Lemma grow_table_roomy sz : 4 <= sz <= 8 -> roomy [] (grow_table sz [] 0 256).
Proof.
  intros Hsz. unfold grow_table. rewrite take_nil. cbn [app].
  assert (128 <= 4 * (256 - 0) / sz) by (apply Z.div_le_lower_bound; lia).
  assert (4 * (256 - 0) / sz <= 256) by (apply Z.div_le_upper_bound; lia).
  set (z := 4 * (256 - 0) / sz) in *. split.
  - rewrite length_app, !length_replicate. lia.
  - intros i Hi. unfold WIN32_MAX_FHS in Hi. exists NULL.
    rewrite lookup_app_l by (rewrite length_replicate; lia). rewrite lookup_replicate_2 by lia. done.
  - intros i p Hp. rewrite lookup_nil. split; [|done]. intros Hi. exfalso.
    apply lookup_app_Some in Hi as [[Hi _]%lookup_replicate|[_ [Hi _]%lookup_replicate]]; congruence.
Qed.

Lemma objs_roomy w h t m : objs_ok w h t 256 m -> roomy t t.
Proof. intros []. split; [lia| |done]. intros i Hi. apply ob_init. unfold WIN32_MAX_FHS in *. lia. Qed.

(** No object has descriptor [i]. *)
Definition free_entry (t : list (option ptr)) (i : nat) : Prop := forall p, t !! i = Some (Some p) -> p = NULL.

Lemma objs_ok_new w h t max m t' p g i c :
  objs_ok w h t max m -> h !! p = None -> p <> NULL -> p <> list_pending -> roomy t t' ->
  open_fh w i c -> Z.of_nat i < WIN32_MAX_FHS -> free_entry t i -> fde_fd g = fd_of i -> active g = true ->
  mask_of g = 0 -> pending g = false -> 0 <= fde_state g < 2 ^ 16 -> 0 <= fde_events g < 2 ^ 16 ->
  objs_ok w (<[p := g]> h) (<[i := Some p]> t') 256 m.
Proof.
  intros [] Hp Hp0 Hpl [Hl' Hi' Hs'] Ho Hlt Hfree Efd Ha Hm Hpe Hr1 Hr2.
  assert (Hil : (i < length t')%nat) by (unfold WIN32_MAX_FHS in Hlt; lia).
  assert (Hne : forall j q, q <> NULL -> t !! j = Some (Some q) -> j <> i).
  { intros j q Hq Hj ->. by apply Hq, Hfree. }
  split.
  - rewrite length_insert. lia.
  - intros j Hj. destruct (decide (j = i)) as [->|]; [exists p; by apply list_lookup_insert_eq|].
    rewrite list_lookup_insert_ne by done. apply Hi'. lia.
  - by right.
  - intros j q Hj Hq. destruct (decide (j = i)) as [->|].
    + rewrite list_lookup_insert_eq in Hj by done. injection Hj as <-. exists g. by rewrite lookup_insert_eq.
    + rewrite list_lookup_insert_ne in Hj by done. apply Hs' in Hj; [|done]. destruct (ob_table j q Hj Hq) as (f & Hf & ? & ?).
      exists f. rewrite lookup_insert_ne by congruence. done.
  - intros q f Hq Haf. apply lookup_insert_Some in Hq as [[<- <-]|[Hqp Hq]].
    + split_and!; [done|done|]. exists i, c. split_and!; [done|done|by apply list_lookup_insert_eq|]. rewrite Hm.
      destruct (decide (m i = 0)) as [|Hmi]; [done|]. destruct (ob_mask i Hmi) as (q & Hq & Hq0). by apply Hfree in Hq.
    + destruct (ob_active q f Hq Haf) as (H1 & H2 & j & c' & H3 & H4 & H5 & H6). split_and!; [done|done|]. exists j, c'.
      split_and!; [done|done| |done]. rewrite list_lookup_insert_ne by (symmetry; by eapply Hne). by apply Hs'.
  - intros j Hj. destruct (ob_mask j Hj) as (q & Hq & Hq0). exists q. split; [|done].
    rewrite list_lookup_insert_ne by (symmetry; by eapply Hne). by apply Hs'.
  - intros q f Hq Hpf. apply lookup_insert_Some in Hq as [[<- <-]|[_ Hq]]; [congruence|by apply (ob_pending q)].
  - intros q f Hq. apply lookup_insert_Some in Hq as [[<- <-]|[_ Hq]]; [done|by apply (ob_range q)].
Qed.

(** Before the first registration there is no hook. *)
Lemma objs_no_hooks s pend : ev_inv s pend -> fd_table_max s = 0 -> hooks s = [].
Proof.
  intros Hi Em. destruct (hooks s) as [|k l] eqn:El; [done|]. exfalso.
  destruct (hook_object s pend 0 k Hi) as (p & f & Ht & _); [by rewrite El|].
  apply lookup_lt_Some in Ht. pose proof (ob_len _ _ _ _ _ (ev_objs _ _ Hi)). lia.
Qed.

Section registration.
Context (oracle : list wcall -> forall c, wres c) (sz : Z).
Hypothesis Hsz : 4 <= sz <= 8.

Lemma wp_ev_table_set i p q X s (Q : unit -> evstate -> Prop) :
  fd_table s !! i = Some (Some q) -> Q tt (set_table (<[i := Some p]> (fd_table s)) (fd_table_max s) s) ->
  wp (table_set (Z.of_nat i) p) Q X s.
Proof.
  intros Hi HQ. unfold table_set. rewrite Nat2Z.id. wp_step. eapply wp_must; [exact Hi|]. by wp_step.
Qed.

Lemma wp_ev_register p f i s :
  fde_heap s !! p = Some f -> fde_fd f = fd_of i -> Z.of_nat i < WIN32_MAX_FHS ->
  (fd_table_max s = 0 /\ fd_table s = [] /\ hooks s = []) \/ (fd_table_max s = 256 /\ roomy (fd_table s) (fd_table s)) ->
  wp (fdevent_register oracle sz p)
     (fun _ s' => exists s1 t', steady s s1 /\ roomy (fd_table s) t' /\ s' = set_table (<[i := Some p]> t') 256 s1) ev_safe s.
Proof.
  intros Hp Ef Hi Hcase. unfold WIN32_MAX_FHS in Hi. unfold fdevent_register. wp_step. eapply wp_ev_deref; [exact Hp|]. cbv zeta.
  rewrite Ef. unfold fd_of. replace (Z.of_nat i + WIN32_FH_BASE - WIN32_FH_BASE) with (Z.of_nat i) by lia.
  rewrite (proj2 (Z.ltb_ge (Z.of_nat i) 0)) by lia. wp_step. wp_step. wp_step.
  destruct Hcase as [(Em & Et & El)|[Em Hr]]; rewrite Em.
  - rewrite (proj2 (Z.geb_le (Z.of_nat i) 0)) by lia.
    destruct (Z.gtb_spec (Z.of_nat i + WIN32_FH_BASE) 32000) as [Hb|_]; [unfold WIN32_FH_BASE in Hb; lia|].
    cbn [Z.eqb]. unfold fdevent_init. wp_step. wp_step.
    assert (Ed : double_until 8 256 (Z.of_nat i) = Some 256).
    { cbn [double_until]. by rewrite (proj2 (Z.leb_gt 256 (Z.of_nat i))) by lia. }
    rewrite Ed. wp_step. ev_call. destruct (_ =? 0); [done|]. wp_step.
    pose proof (grow_table_roomy sz Hsz) as Hr. destruct (rm_init _ _ Hr i Hi) as [q Hq].
    eapply wp_ev_table_set; [cbn; rewrite Et; exact Hq|].
    eexists _, (grow_table sz [] 0 256). cbn [ev_trace put Lens_ev_win set_htab set_hooks set_table fd_table fd_table_max]. rewrite Et.
    split_and!; [|done|].
    2:{ match goal with |- set_table _ _ ?a = _ => instantiate (1 := set_table [] 0 a) end. reflexivity. }
    split; cbn; rewrite ?Et, ?Em, ?El; try done; [by apply same_open_fhs|by apply win_ok_same].
  - destruct (Z.geb_spec (Z.of_nat i) 256); [lia|]. wp_step. destruct (rm_init _ _ Hr i Hi) as [q Hq].
    eapply wp_ev_table_set; [exact Hq|]. exists s, (fd_table s). rewrite Em. split_and!; [reflexivity|done|done].
Qed.

(** ** [fdevent_create] *)

Lemma inv_table s pend : ev_inv s pend ->
  (fd_table_max s = 0 /\ fd_table s = [] /\ hooks s = []) \/ (fd_table_max s = 256 /\ roomy (fd_table s) (fd_table s)).
Proof.
  intros Hi. destruct (ob_size _ _ _ _ _ (ev_objs _ _ Hi)) as [E|E]; [left|right].
  - split_and!; [done| |by eapply objs_no_hooks]. pose proof (ob_len _ _ _ _ _ (ev_objs _ _ Hi)).
    apply nil_length_inv. lia.
  - split; [done|]. pose proof (ev_objs _ _ Hi) as Ho. rewrite E in Ho. by eapply objs_roomy.
Qed.

(** The state with a new object at [p], registered for entry [i]. *)
Lemma created_inv s s1 pend p g i c t' :
  ev_inv s pend -> steady s s1 -> fde_heap s !! p = None -> p <> NULL -> p <> list_pending ->
  roomy (fd_table s) t' -> open_fh (ev_win s) i c -> free_entry (fd_table s) i ->
  fde_fd g = fd_of i -> active g = true -> mask_of g = 0 -> pending g = false ->
  0 <= fde_state g < 2 ^ 16 -> 0 <= fde_events g < 2 ^ 16 ->
  ev_inv (put (<[p := g]> (fde_heap s)) (set_table (<[i := Some p]> t') 256 s1)) pend.
Proof.
  intros Hi Hs Hp Hp0 Hpl Hr Ho Hfree Efd Ha Hm Hpe Hr1 Hr2. pose proof (steady_inv _ _ _ Hs Hi) as [Hl1 Ho1 _ _].
  destruct Hs as [Hopen _ _ Eh [Et Em] _ _]. cbn in Hopen, Eh, Et, Em. destruct Hi as [[Hw _ _] _ Hd Hpd].
  destruct (open_fh_used _ _ _ Hw Ho) as (_ & _ & _ & _ & Hlt & _). rewrite Eh, Et, Em in Ho1. split; cbn.
  - exact Hl1.
  - eapply objs_ok_new; try done. by apply Hopen.
  - eapply dll_frame; [exact Hd|]. intros q Hq. rewrite lookup_insert_ne; [done|]. intros <-.
    destruct (dll_is_Some _ _ _ _ Hd Hq). congruence.
  - intros q. rewrite Hpd. split; intros (f & Hf & Hpf); exists f; (split; [|done]).
    + rewrite lookup_insert_ne by congruence. done.
    + apply lookup_insert_Some in Hf as [[_ <-]|[_ Hf]]; [congruence|done].
Qed.

Lemma wp_ev_create i c func arg pend s :
  ev_inv s pend -> open_fh (ev_win s) i c -> free_entry (fd_table s) i ->
  wp (fdevent_create oracle sz (fd_of i) func arg)
     (fun p s' => ev_inv s' pend /\ same_open (ev_win s) (ev_win s') /\
        (p = NULL \/ (fde_heap s !! p = None /\ fde_heap s' = <[p := created (fd_of i) func arg]> (fde_heap s)))) ev_safe s.
Proof.
  intros Hi Ho Hfree. unfold fdevent_create. wp_step. ev_call. set (s0 := ev_trace _ s).
  assert (Hq0 : quiet s s0) by apply ev_trace_quiet.
  destruct (_ =? 0); [wp_step; split_and!; [by eapply quiet_inv|apply Hq0|by left]|].
  wp_step. wp_step. cbv zeta. destruct (fresh_addr_spec (fde_heap s)) as (Hp & Hp0 & Hpl).
  change (fde_heap s0) with (fde_heap s). set (p := fresh_addr (fde_heap s)) in *. wp_step. wp_step. wp_step.
  unfold fdevent_install. wp_step. eapply wp_ev_assign; [apply lookup_insert_eq|]. cbn [put Lens_ev_heap fde_heap].
  rewrite insert_insert_eq. set (f0 := {| fde_next := NULL |}). wp_step.
  destruct (open_fh_used _ _ _ (lo_win _ _ (ev_looper _ _ Hi)) Ho) as (_ & _ & _ & _ & Hlt & _).
  eapply wp_mono; [apply (wp_ev_register p f0 i); [apply lookup_insert_eq|done|exact Hlt|exact (inv_table s pend Hi)]| |done].
  intros [] s2 (s1 & t' & Hs & Hr & ->). pose proof Hs as [_ _ _ Eh _ _ _]. cbn in Eh.
  assert (Hp1 : fde_heap s1 !! p = Some f0) by (rewrite Eh; apply lookup_insert_eq).
  wp_step. unfold fdevent_connect. wp_step. eapply wp_ev_deref; [exact Hp1|]. apply wp_ret.
  eapply wp_ev_assign; [exact Hp1|]. wp_step. eapply wp_ev_assign; [apply lookup_insert_eq|]. wp_step.
  cbn [put Lens_ev_heap fde_heap set_table]. rewrite insert_insert_eq, Eh. cbn. rewrite insert_insert_eq.
  set (s1' := put (fde_heap s) s1). assert (Hs' : steady s s1').
  { destruct Hs as [A B C _ D F G]. split; [exact A| |exact C|done|exact D|exact F|exact G].
    intros Hw. apply B. by apply win_ok_trace. }
  split_and!.
  - exact (created_inv s s1' pend p (created (fd_of i) func arg) i c t' Hi Hs' Hp Hp0 Hpl Hr Ho Hfree
      eq_refl eq_refl eq_refl eq_refl ltac:(done) ltac:(done)).
  - apply (qt_open _ _ Hs').
  - right. done.
Qed.
End registration.

(** ** [fdevent_destroy] *)

(** Closing entry [i] leaves the others alone. *)
Definition others (i : nat) (s s' : win) : Prop :=
  (forall j, j <> i -> _win32_fhs s' !! j = _win32_fhs s !! j) /\ _win32_fh_count s' = _win32_fh_count s.

Definition spares {A} (i : nat) (m : W A) : Prop := forall s, wp m (fun _ => others i s) (fun _ _ => True) s.

Lemma spares_bind {A B} i (m : W A) (k : A -> W B) : spares i m -> (forall a, spares i (k a)) -> spares i (m ≫= k).
Proof.
  intros Hm Hk s. wp_step. eapply wp_mono; [apply Hm| |done]. intros a s1 [H1 C1].
  eapply wp_mono; [apply Hk| |done]. intros b s2 [H2 C2]. split; [|congruence]. intros j Hj. by rewrite H2, H1.
Qed.

Lemma spares_ret {A} i (a : A) : spares i (mret a).
Proof. by intros s. Qed.

Lemma spares_call oracle i c : spares i (call oracle c).
Proof. by intros s. Qed.

Lemma spares_must {A} i why (f : win -> option A) : spares i (must why f).
Proof. intros s. unfold wp, must. by destruct (f s). Qed.

Lemma spares_pairs i f : spares i (modify (fun s => set_pairs (f s) s)).
Proof. by intros s. Qed.

Lemma spares_put i g : spares i (put_fh i g).
Proof.
  intros s. unfold put_fh. wp_step. unfold get_fh. unfold wp, must. destruct (_win32_fhs s !! i); [|done].
  split; [|done]. intros j Hj. cbn. by rewrite list_lookup_insert_ne.
Qed.

Lemma spares_class i j : spares i (class_of j).
Proof. intros s. unfold class_of. wp_step. unfold wp, get_fh, must. destruct (_win32_fhs s !! j) as [r|]; [|done]. by destruct (clazz r). Qed.

Ltac spare_step :=
  lazymatch goal with
  | |- spares _ (mret _) => apply spares_ret
  | |- spares _ (_ ≫= _) => apply spares_bind; [|intros ?]
  | |- spares _ (call _ _) => apply spares_call
  | |- spares _ (put_fh _ _) => apply spares_put
  | |- spares _ (must _ _) => apply spares_must
  | |- spares _ (modify _) => apply spares_pairs
  | |- spares _ (if ?b then _ else _) => destruct b
  | |- spares _ (when ?b _) => destruct b; cbn [when]
  | |- spares _ skip => apply spares_ret
  end.

Ltac spare := repeat (cbv zeta; spare_step).

Lemma close_spares oracle i : spares i (_fh_close oracle (Some i)).
Proof.
  intros s. unfold _fh_close. wp_step. wp_step; [done|]. revert s. fold (spares i (A := Z)).
  match goal with |- forall s, wp ?m _ _ s => change (spares i m) end. unfold get_fh at 1.
  apply spares_bind; [apply spares_must|]. intros r. destruct (used r); [|apply spares_ret].
  apply spares_bind; [apply spares_class|]. intros c.
  destruct c; unfold _fh_file_close, _fh_socket_close, _fh_socketpair_close, get_fh, get_pair, put_pair; spare.
Qed.

Lemma others_open i s s' j c : others i s s' -> j <> i -> open_fh s j c -> open_fh s' j c.
Proof. intros [H C] Hj (Hlt & r & Hr & Hc). split; [by rewrite C|]. exists r. by rewrite H. Qed.

(** The table of descriptors after [adb_close]. *)
Lemma wp_ev_close oracle i c s : win_ok (ev_win s) -> open_fh (ev_win s) i c ->
  wp (win_ (adb_close oracle (fd_of i))) (fun _ s' => exists w', s' = put w' s /\ win_ok w' /\ others i (ev_win s) w') ev_safe s.
Proof.
  intros Hok Ho. destruct (open_fh_used _ _ _ Hok Ho) as (r & Hr & Hc & Hu & _). pose proof Ho as [Hi _].
  unfold win_. wp_step. cbn [view Lens_ev_win].
  pose proof (proj2 (shutdown_close_keep oracle (fd_of i)) (ev_win s) Hok) as Hk.
  assert (Hs : wp (adb_close oracle (fd_of i)) (fun _ => others i (ev_win s)) (fun _ _ => True) (ev_win s)).
  { unfold adb_close. wp_step. unfold wp at 1. rewrite (from_int_run i _ r) by done.
    revert Hr Hi Ho Hk Hok. generalize (ev_win s) as w. intros w _ _ _ _ _.
    revert w. apply (spares_bind i); [apply close_spares|]. intros a. apply spares_ret. }
  unfold wp in *. destruct (adb_close oracle (fd_of i) (ev_win s)) as [[v|x] w']; [eauto|]. by destruct x.
Qed.

(** An active object leaves the table and the looper. *)
Lemma objs_ok_drop w w' h t max m m' p f g i :
  objs_ok w h t max m -> h !! p = Some f -> active f = true -> fde_fd f = fd_of i ->
  (forall j c, j <> i -> open_fh w j c -> open_fh w' j c) -> (forall j, m' j = if decide (j = i) then 0 else m j) ->
  active g = false -> pending g = false -> 0 <= fde_state g < 2 ^ 16 -> 0 <= fde_events g < 2 ^ 16 ->
  objs_ok w' (<[p := g]> h) (<[i := Some NULL]> t) max m'.
Proof.
  intros [] Hp Ha Efd Ho Hm Hag Hpg Hr1 Hr2.
  destruct (ob_active p f Hp Ha) as (Hp0 & Hpl & i' & c & Ei & _ & Ht & _). rewrite Efd in Ei. apply fd_of_inj in Ei as <-.
  assert (Hil : (i < length t)%nat) by (by eapply lookup_lt_Some). split; try done.
  - by rewrite length_insert.
  - intros j Hj. destruct (decide (j = i)) as [->|]; [exists NULL; by apply list_lookup_insert_eq|].
    rewrite list_lookup_insert_ne by done. by apply ob_init.
  - intros j q Hj Hq. destruct (decide (j = i)) as [->|]; [rewrite list_lookup_insert_eq in Hj by done; congruence|].
    rewrite list_lookup_insert_ne in Hj by done. destruct (ob_table j q Hj Hq) as (f' & Hf' & E1 & E2). exists f'.
    rewrite lookup_insert_ne; [done|]. intros <-. rewrite Hp in Hf'. injection Hf' as <-. rewrite Efd in E1. by apply fd_of_inj in E1.
  - intros q f' Hq Haf. apply lookup_insert_Some in Hq as [[<- <-]|[Hqp Hq]]; [congruence|].
    destruct (ob_active q f' Hq Haf) as (H1 & H2 & j & c' & H3 & H4 & H5 & H6). split_and!; [done|done|]. exists j, c'.
    assert (j <> i) by (intros ->; congruence).
    split_and!; [done|by apply Ho|by rewrite list_lookup_insert_ne|by rewrite Hm, decide_False].
  - intros j. rewrite Hm. case_decide; [done|]. intros Hj. destruct (ob_mask j Hj) as (q & Hq & ?). exists q.
    by rewrite list_lookup_insert_ne.
  - intros q f' Hq Hpf. apply lookup_insert_Some in Hq as [[<- <-]|[_ Hq]]; [congruence|by apply (ob_pending q)].
  - intros q f' Hq. apply lookup_insert_Some in Hq as [[<- <-]|[_ Hq]]; [done|by apply (ob_range q)].
Qed.

Lemma looper_ok_drop w w' l i :
  looper_ok w l -> hook_mask l i = 0 -> win_ok w' -> (forall j c, j <> i -> open_fh w j c -> open_fh w' j c) -> looper_ok w' l.
Proof.
  intros [_ Hh Hn] Hm Hw' Ho. split; [done| |done]. apply Forall_lookup. intros j k Hk.
  pose proof (proj1 (Forall_lookup _ _) Hh _ _ Hk) as (Hwk & c & Hoc & Hp). split; [done|]. exists c. split; [|done].
  apply Ho; [|done]. intros <-. rewrite (hook_mask_at _ _ _ Hn Hk) in Hm. lia.
Qed.

Section removal.
Context (oracle : list wcall -> forall c, wres c).

Lemma wp_ev_disconnect p f i c s :
  looper_ok (ev_win s) (hooks s) -> fde_heap s !! p = Some f -> fde_fd f = fd_of i -> open_fh (ev_win s) i c ->
  hook_mask (hooks s) i = mask_of f ->
  wp (fdevent_disconnect p) (fun _ s' => exists l' n', s' = lstate (ev_win s) l' n' s /\ looper_ok (ev_win s) l' /\
    masked (hooks s) l' i 0) ev_safe s.
Proof.
  intros Hl Hp Ef Ho Em. unfold fdevent_disconnect. wp_step. eapply wp_ev_deref; [exact Hp|]. cbv zeta. fold (mask_of f).
  destruct (Z.eqb_spec (mask_of f) 0) as [E0|E0]; cbn [negb].
  - wp_step. exists (hooks s), (_free_hooks s). rewrite lstate_same. split_and!; [done|done|].
    intros j. case_decide; [subst j; congruence|done].
  - rewrite Ef. eapply wp_looper_unhook; [done|exact Ho|done|rewrite Em; apply Z.land_diag|].
    intros l' n' H1 H2. exists l', n'. split_and!; [done|done|]. rewrite Em in H2.
    unfold clear in H2. by rewrite Z.land_lnot_diag in H2.
Qed.

Lemma wp_ev_unregister p f i c s :
  win_ok (ev_win s) -> fde_heap s !! p = Some f -> fde_fd f = fd_of i -> open_fh (ev_win s) i c ->
  fd_table s !! i = Some (Some p) -> Z.of_nat (length (fd_table s)) = fd_table_max s ->
  wp (fdevent_unregister oracle p) (fun _ s' => exists w', s' = put w' (set_table (<[i := Some NULL]> (fd_table s)) (fd_table_max s) s) /\
    win_ok w' /\ (forall j c, j <> i -> open_fh (ev_win s) j c -> open_fh w' j c)) ev_safe s.
Proof.
  intros Hw Hp Ef Ho Ht Hlen. apply lookup_lt_Some in Ht as Hlt. unfold fdevent_unregister. wp_step.
  eapply wp_ev_deref; [exact Hp|]. cbv zeta. rewrite Ef. replace (fd_of i - WIN32_FH_BASE) with (Z.of_nat i) by (unfold fd_of; lia).
  wp_step. wp_step. rewrite (proj2 (Z.ltb_ge (Z.of_nat i) 0)) by lia.
  destruct (Z.geb_spec (Z.of_nat i) (fd_table_max s)); [lia|]. cbn [orb]. wp_step. unfold table_get.
  rewrite (proj2 (Z.ltb_ge (Z.of_nat i) 0)), Nat2Z.id by lia. wp_step. eapply wp_must; [exact Ht|]. apply wp_ret.
  rewrite bool_decide_false by naive_solver. wp_step. eapply wp_ev_table_set; [exact Ht|].
  destruct (has _ _).
  - wp_step. exists (ev_win s). by destruct s.
  - wp_step. eapply wp_mono; [eapply (wp_ev_close oracle i c); [exact Hw|exact Ho]| |done].
    intros v s' (w' & -> & Hw' & Hoth). apply wp_ret. exists w'. split_and!; [done|done|].
    intros j c' Hj. by eapply others_open.
Qed.

(** What is left of an object. *)
Definition dropped (f : fdevent) : fdevent := set_events 0 (set_state 0 f).

(** First the object leaves the list. *)
Lemma wp_ev_unlink p f pend Q s :
  ev_inv s pend -> fde_heap s !! p = Some f ->
  (forall h', dll h' list_pending (filter (.≠ p) pend) -> same_payload (fde_heap s) h' -> Q tt (put h' s)) ->
  wp (when (pending f) (fdevent_plist_remove p)) Q ev_safe s.
Proof.
  intros Hi Hp HQ. pose proof (ev_list _ _ Hi) as Hd. apply wp_when; intros Hpe; cbn beta.
  - assert (Hin : p ∈ pend) by (apply (ev_pend _ _ Hi); eauto). apply list_elem_of_split in Hin as (xs & ys & ->).
    destruct (dll_links _ _ _ _ _ Hd) as (_ & _ & _ & _ & _ & Hn). rewrite filter_unlink in HQ by done.
    by eapply wp_ev_plist_remove.
  - rewrite filter_notin in HQ.
    + replace s with (put (fde_heap s) s) by (by destruct s). by apply HQ.
    + intros Hin. apply (ev_pend _ _ Hi) in Hin as (f' & Hf' & Hpf). congruence.
Qed.

Lemma same_payload_drop (h h' : gmap N fdevent) p f f1 : same_payload h h' -> h !! p = Some f -> payload f1 = payload f ->
  same_payload (<[p := dropped f]> h) (<[p := dropped f1]> h').
Proof.
  intros Hs Hp E. eapply (same_payload_restore h h' p f); [by rewrite insert_id|].
  clear - E. destruct f, f1. unfold payload in *. simpl in *. by injection E as -> -> -> -> -> ->.
Qed.

Lemma pend_drop s pend p f h' : ev_inv s pend -> fde_heap s !! p = Some f ->
  same_payload (<[p := dropped f]> (fde_heap s)) h' ->
  forall q, q ∈ filter (.≠ p) pend <-> exists f, h' !! q = Some f /\ pending f = true.
Proof.
  intros Hi Hp Hs q. rewrite list_elem_of_filter, (ev_pend _ _ Hi q). split.
  - intros (Hne & f' & Hf' & Hpf). assert (Hl : (<[p := dropped f]> (fde_heap s) : gmap _ _) !! q = Some f') by (by rewrite lookup_insert_ne).
    destruct (same_payload_lookup _ _ _ _ Hs Hl) as (f2 & Hf2 & Ep). exists f2. split; [done|].
    rewrite <- Hpf. exact (f_equal pending Ep).
  - intros (f2 & Hf2 & Hpf). symmetry in Hs. destruct (same_payload_lookup _ _ _ _ Hs Hf2) as (f' & Hf' & Ep).
    assert (Hpf' : pending f' = true) by (rewrite <- Hpf; exact (f_equal pending Ep)).
    apply lookup_insert_Some in Hf' as [[_ <-]|[Hne Hf']]; [done|]. eauto.
Qed.

Lemma wp_ev_remove p f pend s :
  ev_inv s pend -> fde_heap s !! p = Some f ->
  wp (fdevent_remove oracle p) (fun _ s' => ev_inv s' (filter (.≠ p) pend) /\
    same_payload (<[p := dropped f]> (fde_heap s)) (fde_heap s') /\
    (forall i, active f = true -> fde_fd f = fd_of i -> hook_mask (hooks s') i = 0 /\ free_entry (fd_table s') i)) ev_safe s.
Proof.
  intros Hi Hp. unfold fdevent_remove. wp_step. eapply wp_ev_deref; [exact Hp|]. fold (pending f) (active f).
  apply (wp_bind (when (pending f) _)). eapply wp_ev_unlink; [exact Hi|exact Hp|]. intros h1 Hd1 Hs1.
  destruct (same_payload_lookup _ _ _ _ Hs1 Hp) as (f1 & Hp1 & E1). pose proof Hi as [Hl Ho _ _].
  assert (Hfin : forall h', h' = <[p := dropped f1]> h1 -> dll h' list_pending (filter (.≠ p) pend) /\
    same_payload (<[p := dropped f]> (fde_heap s)) h').
  { intros h' ->. split; [by eapply dll_assign|by apply same_payload_drop]. }
  destruct (Hfin _ eq_refl) as [Hd2 Hs2]. clear Hfin. pose proof (pend_drop s pend p f _ Hi Hp Hs2) as Hpend.
  apply wp_bind, wp_when; intros Ha; cbn beta.
  - destruct (ob_active _ _ _ _ _ Ho p f Hp Ha) as (_ & _ & i & c & Ef & Hopen & Ht & Em).
    assert (Ef1 : fde_fd f1 = fd_of i) by (rewrite <- Ef; exact (f_equal fde_fd E1)).
    assert (Em1 : hook_mask (hooks s) i = mask_of f1) by (rewrite Em; symmetry; exact (f_equal mask_of E1)).
    wp_step. eapply wp_mono; [exact (wp_ev_disconnect p f1 i c (put h1 s) Hl Hp1 Ef1 Hopen Em1)| |done].
    intros [] s2 (l' & n' & -> & Hl' & Hm'). cbn [put Lens_ev_heap ev_win hooks lstate] in Hl', Hm'.
    eapply wp_mono; [eapply (wp_ev_unregister p f1 i c); [apply Hl|exact Hp1|exact Ef1|exact Hopen|exact Ht|apply Ho]| |done].
    intros [] s3 (w' & -> & Hw' & Hoth). cbn in Hoth. eapply wp_ev_assign; [exact Hp1|]. split_and!.
    + assert (Hm0 : hook_mask l' i = 0) by (by rewrite Hm', decide_True). split; cbn; try done.
      * by eapply looper_ok_drop.
      * eapply objs_ok_payload; [exact Hs2|]. by eapply (objs_ok_drop (ev_win s) w').
    + done.
    + intros j _ Ej. rewrite Ef in Ej. apply fd_of_inj in Ej as <-. cbn. split; [by rewrite Hm', decide_True|].
      intros q. rewrite list_lookup_insert_eq by (by eapply lookup_lt_Some). by intros [= <-].
  - eapply wp_ev_assign; [exact Hp1|]. split_and!; [|done|congruence].
    eapply (ev_inv_upd s _ pend _ p f (dropped f)); try done; [apply same_open_refl| |].
    + intros q. rewrite list_elem_of_filter. case_decide; [subst; split; [naive_solver|done]|]. naive_solver.
    + intros j. rewrite decide_False; [done|]. rewrite Ha. by intros [].
Qed.

Lemma wp_ev_destroy p pend s :
  ev_inv s pend -> is_Some (fde_heap s !! p) ->
  wp (fdevent_destroy oracle p) (fun _ s' => ev_inv s' (if bool_decide (p = NULL) then pend else filter (.≠ p) pend)) ev_safe s.
Proof.
  intros Hi [f Hp]. unfold fdevent_destroy. case_bool_decide; [by wp_step|]. wp_step. eapply wp_ev_deref; [exact Hp|].
  destruct (negb _); [done|]. eapply wp_mono; [by eapply wp_ev_remove| |done]. by intros [] s' (? & _).
Qed.
End removal.

(** ** The operations of the loop *)

Inductive ev_op :=
  | Create (i : nat) (func : fd_func) (arg : ptr)
  | Install_events (p : ptr) (events : Z)
  | Add_events (p : ptr) (events : Z)
  | Del_events (p : ptr) (events : Z)
  | Destroy (p : ptr)
  | Process.

Definition exec_ev (oracle : list wcall -> forall c, wres c) (sz : Z) (op : ev_op) : E unit :=
  match op with
  | Create i func arg => fdevent_create oracle sz (fd_of i) func arg;; skip
  | Install_events p ev => fdevent_set oracle p ev
  | Add_events p ev => fdevent_add oracle p ev
  | Del_events p ev => fdevent_del oracle p ev
  | Destroy p => fdevent_destroy oracle p
  | Process => fdevent_process oracle
  end.

(** The descriptor of a new object is in use and has no object yet; other
    operations are about objects that were created. *)
Definition may_ev (op : ev_op) (s : evstate) : Prop :=
  match op with
  | Create i _ _ => (exists c, open_fh (ev_win s) i c) /\ free_entry (fd_table s) i
  | Install_events p _ | Add_events p _ | Del_events p _ | Destroy p => is_Some (fde_heap s !! p)
  | Process => True
  end.

(** The process before the first object. *)
Definition ev_start (w : win) (m : list (list other_op)) : evstate :=
  {| ev_win := w; hooks := []; _free_hooks := 0; htab := [];
     fde_heap := {[ list_pending := {| fde_next := list_pending; fde_prev := list_pending; fde_fd := 0;
       fde_force_eof := 0; fde_state := 0; fde_events := 0; fde_func := client_func 0; fde_arg := NULL |} ]};
     fd_table := []; fd_table_max := 0; meanwhile := m |}.

Lemma ev_start_inv w m : win_ok w -> ev_inv (ev_start w m) [].
Proof.
  intros Hw. assert (Hz : forall p f, fde_heap (ev_start w m) !! p = Some f -> fde_state f = 0 /\ fde_events f = 0).
  { intros p f Hp. cbn in Hp. by apply lookup_singleton_Some in Hp as [_ <-]. }
  split.
  - split; [done|constructor|constructor].
  - split; try done.
    + intros i Hi. cbn in Hi. lia.
    + by left.
    + intros p f Hp Ha. apply Hz in Hp as [E _]. unfold active in Ha. by rewrite E in Ha.
    + intros p f Hp Ha. apply Hz in Hp as [E _]. unfold pending in Ha. by rewrite E in Ha.
    + intros p f Hp. apply Hz in Hp as [-> ->]. done.
  - apply (inv_list _ _ (fd_boot_inv ready_env 0)).
  - intros p. split; [by intros ?%not_elem_of_nil|]. intros (f & Hf & Hp). apply Hz in Hf as [E _].
    unfold pending in Hp. by rewrite E in Hp.
Qed.

Section reach.
Context (oracle : list wcall -> forall c, wres c) (sz : Z) (w0 : win) (m0 : list (list other_op)).

(** The states the loop gets into. *)
Inductive ev_reach : evstate -> Prop :=
  | ev_reach_start : ev_reach (ev_start w0 m0)
  | ev_reach_op s op s' : ev_reach s -> may_ev op s -> exec_ev oracle sz op s = (Done tt, s') -> ev_reach s'.
End reach.

Lemma wp_exec_ev oracle sz op s pend : 4 <= sz <= 8 -> ev_inv s pend -> may_ev op s ->
  wp (exec_ev oracle sz op) (fun _ s' => exists pend', ev_inv s' pend') ev_safe s.
Proof.
  intros Hsz Hi Hm. destruct op as [i func arg|p ev|p ev|p ev|p|]; cbn [exec_ev may_ev] in *.
  - destruct Hm as [[c Ho] Hf]. wp_step. eapply wp_mono; [by eapply wp_ev_create| |done]. intros p s' [H' _]. wp_step. by exists pend.
  - destruct Hm as [f Hp]. eapply wp_ev_set; [done|done|]. intros s1 H1 _ _. by eexists.
  - destruct Hm as [f Hp]. unfold fdevent_add. wp_step. eapply wp_ev_deref; [done|]. eapply wp_ev_set; [done|done|]. intros s1 H1 _ _. by eexists.
  - destruct Hm as [f Hp]. unfold fdevent_del. wp_step. eapply wp_ev_deref; [done|]. eapply wp_ev_set; [done|done|]. intros s1 H1 _ _. by eexists.
  - eapply wp_mono; [by apply wp_ev_destroy| |done]. intros [] s' H'. by eexists.
  - eapply wp_mono; [by apply wp_ev_process| |done]. intros [] s' (more & H' & _). by eexists.
Qed.

Lemma ev_reach_inv oracle sz w m s : 4 <= sz <= 8 -> win_ok w -> ev_reach oracle sz w m s -> exists pend, ev_inv s pend.
Proof.
  intros Hsz Hw. induction 1 as [|s op s' _ [pend Hi] Hm E]; [exists []; by apply ev_start_inv|].
  pose proof (wp_exec_ev oracle sz op s pend Hsz Hi Hm) as H. unfold wp in H. by rewrite E in H.
Qed.

(** C24: the event loop of the Windows build stays sound.  In every state it gets
    into by creating objects for open descriptors, changing their events,
    destroying them and waiting, whatever Win32 answers and whatever other
    threads do to the socket pairs: the looper has exactly one hook for every
    active object that watches something, with exactly its events, on an open
    descriptor and with the functions of its class; the pending list holds the
    pending objects; and each further operation returns, ends the program or
    waits, without undefined behaviour and without looping for ever. *)
Theorem looper_stays_ok oracle sz w m s :
  4 <= sz <= 8 -> win_ok w -> ev_reach oracle sz w m s ->
  (exists pend, ev_inv s pend) /\ forall op, may_ev op s -> wp (exec_ev oracle sz op) (fun _ _ => True) ev_safe s.
Proof.
  intros Hsz Hw Hr. destruct (ev_reach_inv oracle sz w m s Hsz Hw Hr) as [pend Hi]. split; [eauto|].
  intros op Hm. eapply wp_mono; [by eapply wp_exec_ev| |done]. done.
Qed.

(** C25: [fdevent_set] of the Windows build.  The object gets the new events and
    keeps its descriptor; if it is active the looper from then on waits for
    exactly these events on its descriptor, with no hook at all when they are
    none, and waits for the same as before on every other descriptor; no other
    object changes. *)
Theorem looper_follows_set oracle p f events pend s :
  ev_inv s pend -> fde_heap s !! p = Some f ->
  wp (fdevent_set oracle p events)
     (fun _ s' => (exists pend', ev_inv s' pend') /\
        (exists f', fde_heap s' !! p = Some f' /\ mask_of f' = Z.land events FDE_EVENTMASK /\ fde_fd f' = fde_fd f /\
           active f' = active f) /\
        (forall q, q <> p -> payload <$> fde_heap s' !! q = payload <$> fde_heap s !! q) /\
        (forall i, hook_mask (hooks s') i =
           if decide (active f = true /\ fde_fd f = fd_of i) then Z.land events FDE_EVENTMASK else hook_mask (hooks s) i))
     ev_safe s.
Proof.
  intros Hi Hp. destruct (ob_range _ _ _ _ _ (ev_objs _ _ Hi) p f Hp) as [Hst _].
  destruct (set_outcome_mask f events Hst) as (Em & Ea & Ef).
  eapply wp_ev_set; [exact Hi|exact Hp|]. intros s' Hi' Hs Hm. split_and!; [eauto| | |].
  - destruct (same_payload_lookup _ _ _ _ Hs (lookup_insert_eq _ p _)) as (f' & Hf' & E). exists f'. split_and!; [done| | |].
    + etrans; [exact (f_equal mask_of E)|]. exact Em.
    + etrans; [exact (f_equal fde_fd E)|]. exact Ef.
    + etrans; [exact (f_equal active E)|]. exact Ea.
  - intros q Hq. specialize (Hs q). by rewrite lookup_insert_ne in Hs.
  - intros i. rewrite Hm. by rewrite <- Em.
Qed.

(** [fdevent_process] of the Windows build.  It keeps the invariant and the
    hooks; an object is left alone or becomes pending with all the events it
    watches, and pending objects stay in order; when it returns something is
    pending, unless there was nothing to wait for or a hook could not be waited
    for (the event of a socket is missing, or an end of a pair is watched in
    both directions). *)
Theorem process_reports oracle pend s :
  ev_inv s pend ->
  wp (fdevent_process oracle)
     (fun _ s' => exists more, ev_inv s' (pend ++ more) /\ told (fde_heap s) (fde_heap s') /\
        core <$> hooks s' = core <$> hooks s /\ (pend ++ more <> [] \/ htab s' = [] \/ someone_cannot s')) ev_safe s.
Proof.
  intros Hi. eapply wp_mono; [by apply wp_ev_process| |done]. intros [] s' (more & ? & [] & ?). exists more.
  split_and!; done.
Qed.

(** ** An example: the two ends of a pair *)

Definition garbage : bytes * bytes := (replicate 4096 0, replicate 4096 0).

Definition pair_win : win := (adb_socketpair yes garbage (start_up [])).2.

Lemma wp_run {S A} (m : M S A) Q X s : wp m Q X s -> (match (m s).1 with Done _ => true | Stop _ => false end) = true ->
  exists a, m s = (Done a, (m s).2) /\ Q a (m s).2.
Proof. unfold wp. destruct (m s) as [[a|x] t]; [|done]. intros HQ _. by exists a. Qed.

Lemma pair_win_ok : win_ok pair_win.
Proof.
  assert (Hm : sized garbage) by (split; vm_compute; congruence).
  destruct (wp_run _ _ _ _ (socketpair_keeps yes garbage (start_up []) (start_up_ok []) Hm)) as (a & _ & H); [by vm_compute|exact H].
Qed.

(** [open_fh] by computation. *)
Definition is_open (w : win) (i : nat) (c : FHClass) : bool :=
  (Z.of_nat i <? _win32_fh_count w) &&
  match _win32_fhs w !! i with
  | Some r => bool_decide (clazz r = Some c) && negb (u r =? 0)
  | None => false
  end.

Lemma is_open_fh w i c : is_open w i c = true -> open_fh w i c.
Proof.
  unfold is_open, open_fh. intros [Hi%Z.ltb_lt Hr]%andb_true_iff. split; [done|].
  destruct (_win32_fhs w !! i) as [r|]; [|done]. apply andb_true_iff in Hr as [Hc%bool_decide_eq_true Hu].
  exists r. split_and!; [done|done|]. intros _ E. by rewrite E in Hu.
Qed.

Lemma pair_win_open : open_fh pair_win 0 _fh_socketpair_class.
Proof. apply is_open_fh. by vm_compute. Qed.

Definition pair_turns : list (list other_op) := [[(1, false, Bip.Write [1])]].

Lemma pair_may : may_ev (Create 0 (client_func 7) NULL) (ev_start pair_win pair_turns).
Proof. split; [exists _fh_socketpair_class; exact pair_win_open|]. by intros p. Qed.

Definition pair_state : evstate := (exec_ev yes 4 (Create 0 (client_func 7) NULL) (ev_start pair_win pair_turns)).2.

Lemma pair_run : exec_ev yes 4 (Create 0 (client_func 7) NULL) (ev_start pair_win pair_turns) = (Done tt, pair_state).
Proof.
  destruct (wp_run _ _ _ _ (wp_exec_ev yes 4 _ _ [] ltac:(lia) (ev_start_inv pair_win pair_turns pair_win_ok) pair_may))
    as ([] & E & _); [by vm_compute|exact E].
Qed.

Lemma pair_reach : ev_reach yes 4 pair_win pair_turns pair_state.
Proof. eapply ev_reach_op; [constructor|exact pair_may|exact pair_run]. Qed.

Definition pair_ptr : ptr := fresh_addr (fde_heap (ev_start pair_win [])).

Lemma pair_obj : fde_heap pair_state !! pair_ptr = Some (created 100 (client_func 7) NULL).
Proof. by vm_compute. Qed.

Lemma pair_state_inv : ev_inv pair_state [].
Proof.
  assert (H : wp (exec_ev yes 4 (Create 0 (client_func 7) NULL)) (fun _ s' => ev_inv s' []) ev_safe (ev_start pair_win pair_turns)).
  { cbn [exec_ev]. wp_step. eapply wp_mono; [eapply wp_ev_create; [lia|apply ev_start_inv, pair_win_ok|exact pair_win_open|by intros p]| |done].
    intros p s' [H _]. by wp_step. }
  destruct (wp_run _ _ _ _ H) as (a & _ & Hi); [by vm_compute|exact Hi].
Qed.

Lemma looper_stays_ok_witness :
  (exists pend, ev_inv pair_state pend) /\
  wp (exec_ev yes 4 Process) (fun _ _ => True) ev_safe pair_state.
Proof.
  destruct (looper_stays_ok yes 4 pair_win pair_turns pair_state ltac:(lia) pair_win_ok pair_reach) as [H1 H2].
  split; [exact H1|]. exact (H2 Process I).
Defined.

Lemma looper_follows_set_witness :
  wp (fdevent_set yes pair_ptr FDE_READ) (fun _ s' => hook_mask (hooks s') 0 = FDE_READ) ev_safe pair_state.
Proof.
  eapply wp_mono; [exact (looper_follows_set yes pair_ptr _ FDE_READ [] pair_state pair_state_inv pair_obj)| |done].
  intros [] s' (_ & _ & _ & H). exact (H 0%nat).
Defined.

Lemma process_reports_witness :
  wp (fdevent_process yes) (fun _ s' => exists more, ev_inv s' more) ev_safe pair_state.
Proof.
  eapply wp_mono; [exact (process_reports yes [] pair_state pair_state_inv)| |done].
  intros [] s' (more & H & _). exists more. exact H.
Defined.

(** ** Where the code does not do what it means to *)

(** The pair is watched in both directions, and nothing can be read or written:
    the buffers towards the other end are full. *)
Definition both_state : evstate := (fdevent_set yes pair_ptr (Z.lor FDE_READ FDE_WRITE) pair_state).2.

Definition fill (s : evstate) : evstate :=
  put (set_pairs (run_other (1, true, Bip.Write (replicate 4096 0)) (pairs (ev_win s))) (ev_win s)) s.

(** [fdevent_process] returns without waiting and without any event when an end of
    a socket pair is watched for reading and for writing and is ready for
    neither: [_event_socketpair_start] has no handle for the two together, so
    the loop spins until one becomes ready. *)
Lemma pair_both_ways_spins :
  let s := fill both_state in
  match fdevent_process yes s with
  | (Done tt, s') => meanwhile s' = meanwhile s /\ fde_heap s' = fde_heap s
  | _ => False
  end.
Proof. vm_compute. done. Qed.

(** The end can be read from and not written to, and its object is told both. *)
Definition full_and_readable : evstate :=
  let s := fill both_state in
  put (set_pairs (run_other (1, false, Bip.Write [1]) (pairs (ev_win s))) (ev_win s)) s.

(** [event_hook_signal] reports the events that are wanted, not those that are
    ready: the end of a pair that can only be read is reported as writable. *)
Lemma unready_event_told :
  let s := full_and_readable in
  Bip.can_write (from_option a2b_bip (Bip.bip_buffer_init []) (pairs (ev_win s) !! 1)) = false /\
  match fdevent_process yes s with
  | (Done tt, s') => fde_events <$> fde_heap s' !! pair_ptr = Some (Z.lor FDE_READ FDE_WRITE)
  | _ => False
  end.
Proof. vm_compute. done. Qed.
