(* ===== verification/AdbClient.v ===== *)
(** * adb_client.cpp: the client's half of the smart socket protocol

    A client connects to the adb server, names a device if the request is for
    one, sends its request and reads the status.  [adb_connect] first asks the
    server for its version and starts or restarts it when needed
    ([launch_server], adb.cpp).

    The variables of the file are the record [client], which is passed along;
    of them only [__adb_error] changes after start-up.  [__adb_error] is the C
    string the array holds.  What is printed for the user is left out.  The
    descriptors are those of [Sysdeps]; [launch_server] is the fork and exec
    build. *)

From S2P Require Import Prelude Effects DList Os Sysdeps Wire Globals FileSync Sockets Registry Smart Jdwp Host.

Module Client.

Record client := {
  __adb_transport : transport_type;
  __adb_serial : option bytes;
  __adb_server_port : Z;
  __adb_server_name : option bytes;
  __adb_error : bytes;
}.

Definition DEFAULT_ADB_PORT : Z := 5037.

(** The values at start-up. *)
Definition client0 : client :=
  {| __adb_transport := kTransportAny; __adb_serial := None; __adb_server_port := DEFAULT_ADB_PORT;
     __adb_server_name := None; __adb_error := [] |}.

Definition adb_set_transport (type : transport_type) (serial : option bytes) (c : client) : client :=
  {| __adb_transport := type; __adb_serial := serial; __adb_server_port := __adb_server_port c;
     __adb_server_name := __adb_server_name c; __adb_error := __adb_error c |}.

Definition adb_set_tcp_specifics (server_port : Z) (c : client) : client :=
  {| __adb_transport := __adb_transport c; __adb_serial := __adb_serial c; __adb_server_port := server_port;
     __adb_server_name := __adb_server_name c; __adb_error := __adb_error c |}.

Definition adb_set_tcp_name (hostname : option bytes) (c : client) : client :=
  {| __adb_transport := __adb_transport c; __adb_serial := __adb_serial c;
     __adb_server_port := __adb_server_port c; __adb_server_name := hostname;
     __adb_error := __adb_error c |}.

(** [strcpy(__adb_error, e)] *)
Definition set_error (e : bytes) (c : client) : client :=
  {| __adb_transport := __adb_transport c; __adb_serial := __adb_serial c;
     __adb_server_port := __adb_server_port c; __adb_server_name := __adb_server_name c;
     __adb_error := e |}.

Definition adb_error (c : client) : bytes := __adb_error c.

(** ** Numbers *)

Definition drop_hex_prefix (s : bytes) : bytes :=
  match s with
  | z :: x :: s' => if (z =? 48) && ((x =? 120) || (x =? 88)) && is_digit_of 16 s' then s' else s
  | _ => s
  end.

Section client.
(** The width of [unsigned long] and [long]. *)
Context (ulong_bits : Z).

(** [strtoul(s, 0, 16)] *)
Definition strtoul_16 (s : bytes) : Z :=
  let '(neg, s2) := sign (skip_spaces s) in
  let v := scan_digits 16 (drop_hex_prefix s2) 0 in
  if v <? 2 ^ ulong_bits then (if (neg : bool) then (- v) mod 2 ^ ulong_bits else v) else 2 ^ ulong_bits - 1.

(** [(int) strtol(s, NULL, 10)] *)
Definition strtol_10 (s : bytes) : Z :=
  let '(neg, s2) := sign (skip_spaces s) in
  let v := with_sign neg (scan_digits 10 s2 0) in
  s32 (Z.max (- 2 ^ (ulong_bits - 1)) (Z.min (2 ^ (ulong_bits - 1) - 1) v)).

(** ** Status and requests *)

(** [%02x] *)
Definition fmt_02x (n : Z) : bytes := zero_pad 2 (fmt_x n).

(** "protocol fault (status %02x %02x %02x %02x?!)" *)
Definition bad_status (buf : bytes) : bytes :=
  str "protocol fault (status " ++ fmt_02x (nth 0 buf 0) ++ [32] ++ fmt_02x (nth 1 buf 0) ++ [32]
    ++ fmt_02x (nth 2 buf 0) ++ [32] ++ fmt_02x (nth 3 buf 0) ++ str "?!)".

Definition adb_status (c : client) (fd : Z) : M world (Z * client) :=
  b ← readx fd 4;
  match b with
  | None => mret (-1, set_error (str "protocol fault (no status)") c)
  | Some buf =>
      if bytes_eqb buf (str "OKAY") then mret (0, c) else
      if negb (bytes_eqb buf (str "FAIL")) then mret (-1, set_error (bad_status buf) c) else
      b ← readx fd 4;
      match b with
      | None => mret (-1, set_error (str "protocol fault (status len)") c)
      | Some buf =>
          let len := u32 (strtoul_16 (cstr buf)) in
          let len := if len >? 255 then 255 else len in
          b ← readx fd len;
          match b with
          | None => mret (-1, set_error (str "protocol fault (status read)") c)
          | Some s => mret (-1, set_error (cstr s) c)
          end
      end
  end.

(** [snprintf(tmp, sizeof tmp, "%04x", len)] with [char tmp[5]] *)
Definition length_digits (len : Z) : bytes := snprintf 5 (fmt_04x len).

(** [writex(fd, tmp, 4) || writex(fd, service, len)], with the status after it:
    what [switch_socket_transport] and [_adb_connect] both do with a request. *)
Definition send_request (c : client) (fd : Z) (service : bytes) : M world (Z * client) :=
  w ← writex2 fd (length_digits (Z.of_nat (length service))) service;
  if negb (w =? 0) then
    adb_close fd;;
    mret (-1, set_error (str "write failure during connection") c)
  else
  '(s, c) ← adb_status c fd;
  if negb (s =? 0) then adb_close fd;; mret (-1, c) else mret (0, c).

(** The request that names the device, in [char service[64]]; [None] when no
    switch is necessary. *)
Definition transport_service (c : client) : option bytes :=
  match __adb_serial c with
  | Some serial => Some (snprintf 64 (str "host:transport:" ++ serial))
  | None =>
      match __adb_transport c with
      | kTransportUsb => Some (snprintf 64 (str "host:transport-usb"))
      | kTransportLocal => Some (snprintf 64 (str "host:transport-local"))
      | kTransportAny => Some (snprintf 64 (str "host:transport-any"))
      | kTransportHost => None
      end
  end.

Definition switch_socket_transport (c : client) (fd : Z) : M world (Z * client) :=
  match transport_service c with
  | None => mret (0, c)
  | Some service => send_request c fd service
  end.

Definition connect_server (c : client) : M world Z :=
  match __adb_server_name c with
  | Some name => r ← syscall (Network_client name (__adb_server_port c)); mret (rc_int r)
  | None => r ← syscall (Loopback_client (__adb_server_port c)); mret (rc_int r)
  end.

Definition _adb_connect (c : client) (service : bytes) : M world (Z * client) :=
  let len := Z.of_nat (length service) in
  if (len <? 1) || (len >? 1024) then mret (-1, set_error (str "service name too long") c) else
  fd ← connect_server c;
  if fd <? 0 then mret (-2, set_error (str "cannot connect to daemon") c) else
  '(s, c) ← (if has_prefix (str "host") service then mret (0, c) else switch_socket_transport c fd);
  if negb (s =? 0) then mret (-1, c) else
  '(s, c) ← send_request c fd service;
  if negb (s =? 0) then mret (-1, c) else mret (fd, c).

(** ** Starting the server (adb.cpp, get_my_path_linux.c) *)

Definition PATH_MAX : Z := 4096.

Definition get_my_path (maxLen : Z) : M world bytes :=
  pid ← syscall Getpid;
  r ← syscall (Readlink (snprintf 64 (str "/proc/" ++ fmt_d (rc_int pid) ++ str "/exe")) (maxLen - 1));
  match r with
  | Ok exe => mret (cstr exe)
  | Err _ => mret []
  end.

(** In the child a successful [execl] does not return; a failed one falls
    through to [return 0]. *)
Definition launch_server (server_port : Z) : M world Z :=
  p ← syscall Pipe;
  match p with
  | Err _ => mret (-1)
  | Ok (fd0, fd1) =>
      path ← get_my_path PATH_MAX;
      pid ← syscall Fork;
      let pid := rc_int pid in
      if pid <? 0 then mret (-1) else
      if pid =? 0 then
        adb_close fd0;;
        syscall (Dup2 fd1 2);;
        adb_close fd1;;
        x ← syscall (Execl path [str "adb"; str "-P"; snprintf 30 (fmt_d server_port); str "fork-server"; str "server"]);
        match x with
        | Ok _ => abort "replaced by the server"
        | Err _ => mret 0
        end
      else
        adb_close fd1;;
        r ← adb_read fd0 3;
        adb_close fd0;;
        match r with
        | Err _ => mret (-1)
        | Ok temp =>
            if negb (bytes_eqb temp (str "OK" ++ [10])) then mret (-1) else
            syscall Setsid;;
            mret 0
        end
  end.

(** ** Connecting *)

(** The label [start_server]: [Some r] to return [r]. *)
Definition start_server (c : client) : M world (option Z) :=
  r ← launch_server (__adb_server_port c);
  if negb (r =? 0) then mret (Some (-1)) else
  adb_sleep_ms 3000;;
  mret None.

(** The version a running server reports on [fd]; [None] after [goto error],
    which closes [fd].  [buf] holds the bytes of the reply, and behind them what
    is left of the four digits and the NUL; the rest of it is indeterminate. *)
Definition read_version (fd : Z) : M world (option Z) :=
  b ← readx fd 4;
  match b with
  | None => adb_close fd;; mret None
  | Some digits =>
      let n := strtoul_16 (cstr digits) in
      if n >? 100 then adb_close fd;; mret None else
      b ← readx fd n;
      match b with
      | None => adb_close fd;; mret None
      | Some reply =>
          adb_close fd;;
          let buf := reply ++ drop (length reply) (digits ++ [0]) in
          if bool_decide (0 ∉ buf) then undef "sscanf of an unterminated string" else
          match sscanf_x buf with
          | None => adb_close fd;; mret None
          | Some version => mret (Some version)
          end
      end
  end.

(** The server runs, or answered something: is it this version?  [Some r] to
    return [r]. *)
Definition check_version (c : client) (fd : Z) : M world (option Z * client) :=
  v ← (if fd >=? 0 then
         v ← read_version fd;
         mret (match v with Some v => inr v | None => inl (-1) end)
       else if bytes_eqb (__adb_error c) (str "unknown host service") then mret (inr (ADB_SERVER_VERSION - 1))
       else mret (inl fd) : M world (Z + Z));
  match v with
  | inl r => mret (Some r, c)
  | inr version =>
      if negb (version =? ADB_SERVER_VERSION) then
        '(fd, c) ← _adb_connect c (str "host:kill");
        adb_close fd;;
        adb_sleep_ms 2000;;
        x ← start_server c;
        mret (x, c)
      else mret (None, c)
  end.

Definition adb_connect (c : client) (service : bytes) : M world (Z * client) :=
  '(fd, c) ← _adb_connect c (str "host:version");
  if (fd =? -2) && bool_decide (is_Some (__adb_server_name c)) then mret (fd, c) else
  '(x, c) ← (if fd =? -2 then x ← start_server c; mret (x, c) else check_version c fd);
  match x with
  | Some r => mret (r, c)
  | None =>
      if bytes_eqb service (str "host:start-server") then mret (0, c) else
      _adb_connect c service
  end.

Definition adb_command (c : client) (service : bytes) : M world (Z * client) :=
  '(fd, c) ← adb_connect c service;
  if fd <? 0 then mret (-1, c) else
  '(s, c) ← adb_status c fd;
  if negb (s =? 0) then adb_close fd;; mret (-1, c) else mret (0, c).

(** [adb_query] after the connection: the block it returns, without the NUL
    after it, or NULL. *)
Definition read_reply (c : client) (fd : Z) : M world (option bytes * client) :=
  b ← readx fd 4;
  match b with
  | None => adb_close fd;; mret (None, c)
  | Some buf =>
      let n := u32 (strtoul_16 (cstr buf)) in
      if n >=? 0xffff then adb_close fd;; mret (None, set_error (str "reply is too long (>= 64kB)") c) else
      m ← syscall (Malloc (n + 1));
      match m with
      | Err _ => adb_close fd;; mret (None, c)
      | Ok _ =>
          b ← readx fd n;
          adb_close fd;;
          mret (b, c)
      end
  end.

Definition adb_query (c : client) (service : bytes) : M world (option bytes * client) :=
  '(fd, c) ← adb_connect c service;
  if fd <? 0 then mret (None, c) else read_reply c fd.

(** ** The console of an emulator *)

Definition LOCAL_CLIENT_PREFIX : bytes := str "emulator-".

(** The lines of the list of devices. *)
Fixpoint lines (cur p : bytes) : list bytes :=
  match p with
  | [] => match cur with [] => [] | _ => [cur] end
  | x :: p' => if x =? 10 then cur :: lines [] p' else lines (cur ++ [x]) p'
  end.

(** The serial number is a pointer into the reply, which is freed before the
    number in it is read. *)
Definition adb_get_emulator_console_port (c : client) : M world (Z * client) :=
  match __adb_serial c with
  | None =>
      '(tmp, c) ← adb_query c (str "host:devices");
      match tmp with
      | None => mret (-1, c)
      | Some tmp =>
          match filter (fun l => has_prefix LOCAL_CLIENT_PREFIX l) (lines [] (cstr tmp)) with
          | [] => mret (-1, c)
          | [serial] => undef "read of the freed list of devices"
          | _ => mret (-2, c)
          end
      end
  | Some serial =>
      if negb (has_prefix LOCAL_CLIENT_PREFIX serial) then mret (-1, c) else
      mret (strtol_10 (drop 9 serial), c)
  end.
End client.

End Client.
