(* ===== verification/AdbClientSpec.v ===== *)
(** * The client and the server understand each other

    What [_adb_connect] writes is a sequence of requests the smart socket
    decodes as they were meant, a failed connection leaves no descriptor open,
    and the replies of the server ([send_msg_with_okay], [sendfailmsg]) reach
    the caller unchanged. *)

From S2P Require Import Prelude Effects DList Os Sysdeps Wire Globals FileSync FileSyncFacts Sockets Registry Smart Jdwp Host JdwpSpec HostSpec AdbClient.

Import Client.

(** ** Numbers in four digits *)

Lemma digit_val_hex d : 0 <= d < 16 -> digit_val (digit d) = Some d.
Proof.
  intros H. assert (Hd : d ∈ seqZ 0 16) by (apply elem_of_seqZ; lia). cbv in Hd.
  repeat (apply elem_of_cons in Hd as [->|Hd]; [by vm_compute|]). by apply elem_of_nil in Hd.
Qed.

Lemma length_fmt_04x n : 0 <= n < 65536 -> length (fmt_04x n) = 4%nat.
Proof. intros H. by rewrite fmt_04x_hex4. Qed.

Lemma fmt_04x_no_nul n : 0 <= n < 65536 -> cstr (fmt_04x n) = fmt_04x n.
Proof.
  intros H. rewrite fmt_04x_hex4 by done. unfold hex4.
  assert (H3 : 0 <= n / 16 / 16 / 16 < 16).
  { rewrite !Z.div_div by lia. split; [apply Z.div_pos|apply Z.div_lt_upper_bound]; lia. }
  pose proof (Z.mod_pos_bound (n / 16 / 16) 16 ltac:(lia)) as H2.
  pose proof (Z.mod_pos_bound (n / 16) 16 ltac:(lia)) as H1.
  pose proof (Z.mod_pos_bound n 16 ltac:(lia)) as H0.
  cbn [cstr]. by rewrite (proj1 (digit_facts _ H3)), (proj1 (digit_facts _ H2)), (proj1 (digit_facts _ H1)), (proj1 (digit_facts _ H0)).
Qed.

Lemma strtoul_16_fmt bits n : 16 <= bits -> 0 <= n < 65536 -> strtoul_16 bits (fmt_04x n) = n.
Proof.
  intros Hb H. rewrite fmt_04x_hex4 by done. unfold hex4.
  assert (H3 : 0 <= n / 16 / 16 / 16 < 16).
  { rewrite !Z.div_div by lia. split; [apply Z.div_pos|apply Z.div_lt_upper_bound]; lia. }
  pose proof (Z.mod_pos_bound (n / 16 / 16) 16 ltac:(lia)) as H2.
  pose proof (Z.mod_pos_bound (n / 16) 16 ltac:(lia)) as H1.
  pose proof (Z.mod_pos_bound n 16 ltac:(lia)) as H0.
  destruct (digit_facts _ H3) as (_ & A2 & A3 & A4 & _). destruct (digit_facts _ H2) as (_ & _ & _ & _ & B5 & _).
  pose proof (digit_val_hex _ H3) as A7. pose proof (digit_val_hex _ H2) as B7.
  pose proof (digit_val_hex _ H1) as C7. pose proof (digit_val_hex _ H0) as D7.
  unfold strtoul_16. cbn [skip_spaces]. rewrite A2. cbn [sign]. rewrite A3, A4. cbn [drop_hex_prefix].
  rewrite B5, andb_false_r. cbn [andb scan_digits].
  rewrite A7, (proj2 (Z.ltb_lt _ 16)) by lia. rewrite B7, (proj2 (Z.ltb_lt _ 16)) by lia.
  rewrite C7, (proj2 (Z.ltb_lt _ 16)) by lia. rewrite D7, (proj2 (Z.ltb_lt _ 16)) by lia.
  rewrite Z.mul_0_l, Z.add_0_l. rewrite !(Z.mul_comm _ 16), <- !Z.div_mod by lia.
  assert (2 ^ 16 <= 2 ^ bits) by (apply Z.pow_le_mono_r; lia). by rewrite (proj2 (Z.ltb_lt _ _)) by lia.
Qed.

Lemma length_digits_framed service : sendable service ->
  length_digits (Z.of_nat (length service)) ++ service = framed service.
Proof.
  intros [H1 H2]. unfold length_digits, snprintf, framed. f_equal.
  apply take_ge. rewrite length_fmt_04x by lia. lia.
Qed.

(** ** Contracts *)

Section contracts.
Context (ulong_bits : Z).
Context (Hbits : 32 <= ulong_bits).

(** The message [sendfailmsg] sends. *)
Definition fail_text (reason : bytes) : bytes :=
  str "FAIL" ++ fmt_04x (Z.of_nat (length reason)) ++ reason.

(** What a client can be told: the array for the reason has 256 bytes. *)
Definition tellable (reason : bytes) : Prop := (length reason <= 255)%nat /\ Forall (fun b => b <> 0) reason.

(** The status that was read is not OKAY: it broke off, or it is something else. *)
Definition not_granted (fd : Z) (h : list event) : Prop :=
  (Z.of_nat (length (read_from fd h)) < 4 /\ read_failed fd h) \/
  (4 <= Z.of_nat (length (read_from fd h)) /\ take 4 (read_from fd h) <> str "OKAY").

Lemma not_granted_more fd h1 h2 :
  Z.of_nat (length (read_from fd h1)) = 4 -> read_from fd h1 <> str "OKAY" -> not_granted fd (h1 ++ h2).
Proof.
  intros Hl Hne. right. rewrite read_from_app, length_app. split; [lia|].
  by rewrite take_app_length' by lia.
Qed.

Lemma ospec_adb_status e c fd :
  ospec e (adb_status ulong_bits c fd)
    (fun '(r, c') new _ => only (reads fd) new /\
       ((r = 0 /\ c' = c /\ read_from fd new = str "OKAY") \/
        (r = -1 /\ not_granted fd new /\ exists err, c' = set_error err c /\
           (forall reason, tellable reason -> read_from fd new = fail_text reason -> err = reason))))
    (blocked (fun new => only (reads fd) new)).
Proof.
  unfold adb_status. os_call ospec_readx_why; [lia|by intros x n (-> & Ho & _)|].
  intros [buf|] n1 e1 [Ho1 Hr1].
  2:{ destruct Hr1 as [Hr1 Hf1]. os_step. rewrite app_nil_r. split; [done|]. right. split; [done|]. split; [by left|]. eexists. split; [done|].
      intros reason Ht E. rewrite E in Hr1. unfold fail_text in Hr1. rewrite !length_app in Hr1. simpl in Hr1. lia. }
  destruct Hr1 as (Er1 & Hl1 & _). destruct (bytes_eqb buf (str "OKAY")) eqn:Eok.
  { os_step. rewrite app_nil_r. split; [done|]. left. rewrite Er1. by apply bool_decide_eq_true in Eok. }
  destruct (bytes_eqb buf (str "FAIL")) eqn:Ef; simpl negb; cbv iota.
  2:{ os_step. rewrite app_nil_r. split; [done|]. right. split; [done|].
      split; [rewrite <- (app_nil_r n1); apply not_granted_more; rewrite Er1; [done|by apply bool_decide_eq_false in Eok]|].
      eexists. split; [done|].
      intros reason Ht E. rewrite E in Er1. exfalso. apply bool_decide_eq_false in Ef. apply Ef.
      unfold fail_text in Er1. assert (El : length (str "FAIL") = length buf) by (simpl; lia).
      apply (f_equal length) in Er1 as El2. rewrite !length_app, length_fmt_04x in El2; [simpl in El2; lia|].
      destruct Ht. lia. }
  apply bool_decide_eq_true in Ef as ->.
  assert (Hng : forall h, not_granted fd (n1 ++ h)) by (intros h; apply not_granted_more; rewrite Er1; [done|by vm_compute]).
  os_call ospec_readx; [lia|intros x n (-> & Ho & _); split; [done|by rewrite only_app]|].
  intros [digits|] n2 e2 [Ho2 Hr2].
  2:{ os_step. rewrite app_nil_r, only_app. split; [done|]. right. split; [done|]. split; [apply Hng|]. eexists. split; [done|].
      intros reason [Ht _] E. rewrite read_from_app, Er1 in E. unfold fail_text in E. apply app_inv_head in E.
      rewrite E, length_app, length_fmt_04x in Hr2; lia. }
  destruct Hr2 as (Er2 & Hl2 & _). set (len := if _ >? 255 then 255 else _).
  assert (Hlen : 0 <= len).
  { unfold len. pose proof (u32_range (strtoul_16 ulong_bits (cstr digits))). by destruct (_ >? _); lia. }
  os_call ospec_readx; [exact Hlen|intros x n (-> & Ho & _); split; [done|by rewrite !only_app]|].
  intros r n3 e3 [Ho3 Hr3].
  assert (Htell : forall reason, tellable reason -> read_from fd (n1 ++ n2 ++ n3) = fail_text reason ->
            read_from fd n3 = reason /\ len = Z.of_nat (length reason)).
  { intros reason [Ht _] E. rewrite !read_from_app, Er1, Er2 in E. unfold fail_text in E. apply app_inv_head in E.
    apply app_inj_1 in E as [E1 E2]; [|rewrite length_fmt_04x; lia]. split; [done|]. unfold len. rewrite E1.
    rewrite fmt_04x_no_nul, strtoul_16_fmt, u32_small by lia.
    destruct (Z.gtb_spec (Z.of_nat (length reason)) 255); lia. }
  destruct r as [s|]; os_step; rewrite app_nil_r, !only_app; (split; [done|]; right; split; [done|]; split; [apply Hng|]; eexists; split; [done|]);
    intros reason Ht E; destruct (Htell reason Ht E) as [E3 El].
  - destruct Hr3 as (<- & _). rewrite E3. apply cstr_id, Ht.
  - rewrite E3 in Hr3. lia.
Qed.

(** The requests a connection makes, in order. *)
Definition requests (c : client) (service : bytes) : list bytes :=
  (if has_prefix (str "host") service then [] else option_list (transport_service c)) ++ [service].

(** Why a request failed: it could not be written, or its status is not OKAY; the
    reason the server gives is kept. *)
Definition request_failed (fd : Z) (service err : bytes) (h : list event) : Prop :=
  (err = str "write failure during connection" /\ write_failed fd h /\ read_from fd h = [] /\
     exists rest, rest <> [] /\ framed service = written_to fd h ++ rest) \/
  (written_to fd h = framed service /\ not_granted fd h /\
     forall reason, tellable reason -> read_from fd h = fail_text reason -> err = reason).

Lemma request_failed_close fd service err h a : request_failed fd service err h -> request_failed fd service err (h ++ [ev (Close fd) a]).
Proof.
  assert (Er : read_from fd (h ++ [ev (Close fd) a]) = read_from fd h) by (by rewrite read_from_app, app_nil_r).
  assert (Ew : written_to fd (h ++ [ev (Close fd) a]) = written_to fd h) by (by rewrite written_to_app, app_nil_r).
  unfold request_failed, not_granted. rewrite Er, Ew. intros [(H1 & H2 & H3 & H4)|(H1 & H2 & H3)]; [left|right]; split_and!; try done.
  - apply write_failed_app. by left.
  - destruct H2 as [[H2 H2']|H2]; [left|by right]. split; [done|]. apply read_failed_app. by left.
Qed.

Lemma ospec_writex2_failed e fd x y :
  ospec e (writex2 fd x y) (fun r new _ => r <> 0 -> write_failed fd new) (fun _ _ => True).
Proof.
  unfold writex2. os_call ospec_writex_failed; [done|]. intros a n1 e1 H1. destruct (Z.eqb_spec a 0); simpl negb; cbv iota.
  - eapply ospec_mono; [apply ospec_writex_failed| |done]. intros r n2 e2 H2 Hr. apply write_failed_app. right. auto.
  - os_step. rewrite app_nil_r. auto.
Qed.

(** One request: sent and granted, or the descriptor is closed. *)
Lemma ospec_send_request e c fd service :
  sendable service ->
  ospec e (send_request ulong_bits c fd service)
    (fun '(r, c') new _ => opened new = [] /\
       ((r = 0 /\ c' = c /\ closed new = [] /\ written_to fd new = framed service /\ read_from fd new = str "OKAY") \/
        (r = -1 /\ (exists err, c' = set_error err c /\ request_failed fd service err new) /\ closed new = [(false, fd)])))
    waits.
Proof.
  intros Hs. unfold send_request.
  eapply ospec_seq; [apply (ospec_conj _ _ _ _ _ _ (ospec_writex2 e fd _ service) (ospec_writex2_failed e fd _ service))|by intros x n [[-> _] _]|].
  intros w n1 e1 [[Ho1 Hw] Hwf]. rewrite length_digits_framed in Hw by done.
  destruct (neutral_opened n1 (only_mono _ _ _ Ho1 (writes_neutral fd))) as [O1 C1].
  destruct Hw as [[-> Ew]|[-> Hpart]]; simpl negb; cbv iota.
  2:{ os_call ospec_close; [by intros x n [-> _]|]. intros a n2 e2 ->. os_step. rewrite app_nil_r.
      autorewrite with adb_simpl. rewrite O1, C1. split; [done|]. right. split; [done|]. split; [|done].
      eexists. split; [done|]. apply request_failed_close. left.
      split_and!; [done|by apply Hwf|by apply (read_from_writes fd)|done]. }
  os_call ospec_adb_status; [by intros x n [-> _]|]. intros [s c'] n2 e2 [Ho2 Hst].
  destruct (neutral_opened n2 (only_mono _ _ _ Ho2 (reads_neutral fd))) as [O2 C2].
  pose proof (read_from_writes fd fd n1 Ho1) as R1.
  destruct Hst as [(-> & -> & Er)|(-> & Hng & err & -> & Htell)]; simpl negb; cbv iota.
  - os_step. rewrite app_nil_r. autorewrite with adb_simpl.
    rewrite O1, O2, C1, C2, Ew, Er, (written_to_reads fd fd n2 Ho2), R1, !app_nil_r.
    split; [done|]. by left.
  - os_call ospec_close; [by intros x n [-> _]|]. intros a n3 e3 ->. os_step. rewrite app_nil_r, (app_assoc n1).
    autorewrite with adb_simpl. rewrite O1, O2, C1, C2. split; [done|]. right. split; [done|]. split; [|done].
    exists err. split; [done|]. apply request_failed_close. right. unfold not_granted in *.
    rewrite !written_to_app, !read_from_app, Ew, (written_to_reads fd fd n2 Ho2), R1, app_nil_r. cbn [app].
    split_and!; [done| |done]. destruct Hng as [[H1 H2]|H]; [left|by right]. split; [done|]. apply read_failed_app. by right.
Qed.

Lemma transport_service_sendable c service : transport_service c = Some service -> sendable service.
Proof.
  unfold transport_service, sendable, snprintf.
  destruct (__adb_serial c) as [serial|].
  - intros E. apply (inj Some) in E as <-. rewrite length_take, length_app.
    change (length (str "host:transport:")) with 15%nat. lia.
  - by destruct (__adb_transport c); intros [= <-]; vm_compute; lia.
Qed.

Lemma requests_sendable c service : sendable service -> Forall sendable (requests c service).
Proof.
  intros Hs. unfold requests. apply Forall_app. split; [|by constructor].
  destruct (has_prefix _ _); [constructor|]. destruct (transport_service c) as [q|] eqn:E; [|constructor].
  constructor; [by apply (transport_service_sendable c)|constructor].
Qed.

Lemma ospec_connect_server e c :
  ospec e (connect_server c)
    (fun fd new _ => only quiet new /\ closed new = [] /\
       ((0 <= fd /\ opened new = [(false, fd)]) \/ (fd < 0 /\ opened new = []))) waits.
Proof.
  unfold connect_server. destruct (__adb_server_name c) as [name|];
    [os_call (ospec_one quiet e (Network_client name (__adb_server_port c)))
    |os_call (ospec_one quiet e (Loopback_client (__adb_server_port c)))].
  1,4: done. 1,3: by intros x n [-> _].
  all: intros a n1 e1 (-> & Ha & Hq & _); os_step; rewrite app_nil_r.
  all: split; [done|]; split; [done|]; destruct a as [fd|err]; simpl in *; [by left|right; split; [lia|done]].
Qed.

Lemma ospec_switch_socket_transport e c fd :
  ospec e (switch_socket_transport ulong_bits c fd)
    (fun '(r, c') new _ => opened new = [] /\
       ((r = 0 /\ c' = c /\ closed new = [] /\ written_to fd new = option_list (transport_service c) ≫= framed /\
         read_from fd new = option_list (transport_service c) ≫= (fun _ => str "OKAY")) \/
        (r = -1 /\ (exists q err, transport_service c = Some q /\ c' = set_error err c /\ request_failed fd q err new) /\
         closed new = [(false, fd)])))
    waits.
Proof.
  unfold switch_socket_transport. destruct (transport_service c) as [service|] eqn:E.
  - eapply ospec_mono; [by apply ospec_send_request, (transport_service_sendable c)| |done].
    intros [r c'] new _ (O & [(-> & -> & C & W & R)|(-> & (err & -> & Hf) & C)]); (split; [done|]); [left|right].
    + simpl. by rewrite !app_nil_r.
    + split_and!; [done| |done]. by exists service, err.
  - os_step. split; [done|]. by left.
Qed.

(** Why a connection failed: the name does not fit, or the descriptor was opened
    and closed, and after the requests [granted] the request [q] failed. *)
Definition connect_failed (c : client) (service err : bytes) (h : list event) : Prop :=
  ((Z.of_nat (length service) < 1 \/ 1024 < Z.of_nat (length service)) /\ h = [] /\ err = str "service name too long") \/
  exists fd granted q more before tail,
    requests c service = granted ++ q :: more /\ h = before ++ tail /\
    opened h = [(false, fd)] /\ closed h = [(false, fd)] /\
    written_to fd before = granted ≫= framed /\ read_from fd before = granted ≫= (fun _ => str "OKAY") /\
    request_failed fd q err tail.

(** The outcome of a connection. *)
Definition connected (c : client) (service : bytes) (r : Z) (c' : client) (new : list event) : Prop :=
  (0 <= r /\ c' = c /\ opened new = [(false, r)] /\ closed new = [] /\
     written_to r new = requests c service ≫= framed /\
     read_from r new = requests c service ≫= (fun _ => str "OKAY")) \/
  (r = -1 /\ exists err, c' = set_error err c /\ connect_failed c service err new) \/
  (r = -2 /\ opened new = [] /\ closed new = [] /\ c' = set_error (str "cannot connect to daemon") c).

Lemma ospec__adb_connect e c service :
  ospec e (_adb_connect ulong_bits c service) (fun '(r, c') new _ => connected c service r c' new) waits.
Proof.
  unfold _adb_connect. cbv zeta. destruct (_ || _) eqn:El.
  { os_step. right. left. split; [done|]. eexists. split; [done|]. left. split; [|done].
    apply orb_true_iff in El as [El%Z.ltb_lt|El]; [by left|right]. rewrite Z.gtb_ltb in El. by apply Z.ltb_lt in El. }
  apply orb_false_iff in El as [E1%Z.ltb_ge E2]. rewrite Z.gtb_ltb in E2. apply Z.ltb_ge in E2.
  assert (Hs : sendable service) by (unfold sendable; lia).
  os_call ospec_connect_server; [done|]. intros fd n1 e1 (Hq1 & C1 & Hfd).
  destruct Hfd as [[Hfd O1]|[Hfd O1]].
  2:{ rewrite (proj2 (Z.ltb_lt _ _)) by done. os_step. rewrite app_nil_r. right. right. done. }
  rewrite (proj2 (Z.ltb_ge _ _)) by done.
  set (dev := if has_prefix (str "host") service then [] else option_list (transport_service c)).
  pose proof (quiet_written fd n1 Hq1) as W1. pose proof (quiet_read fd n1 Hq1) as R1.
  eapply (ospec_bind _ _ _ (fun '(r, c') new _ => opened new = [] /\
       ((r = 0 /\ c' = c /\ closed new = [] /\ written_to fd new = dev ≫= framed /\
         read_from fd new = dev ≫= (fun _ => str "OKAY")) \/
        (r = -1 /\ (exists q err, dev = [q] /\ c' = set_error err c /\ request_failed fd q err new) /\ closed new = [(false, fd)])))).
  { unfold dev. destruct (has_prefix _ _); [os_step; split; [done|]; by left|].
    eapply ospec_mono; [apply ospec_switch_socket_transport| |done].
    intros [r c'] new _ (O & [H|(-> & (q & err & -> & -> & Hf) & C)]); (split; [done|]); [by left|right].
    split_and!; [done| |done]. by exists q, err. }
  intros [s c1] n2 e2 [O2 [(-> & -> & C2 & W2 & R2)|(-> & (q & err & Eq & -> & Hf) & C2)]]; simpl negb; cbv iota.
  2:{ os_step. rewrite app_nil_r. right. left. split; [done|]. exists err. split; [done|]. right.
      exists fd, [], q, [service], n1, n2. unfold requests. fold dev. rewrite Eq, !opened_app, !closed_app, O1, O2, C1, C2. by split_and!. }
  os_call (ospec_send_request e2 c fd service Hs); [done|].
  intros [s c1] n3 e3 [O3 [(-> & -> & C3 & W3 & R3)|(-> & (err & -> & Hf) & C3)]]; simpl negb; cbv iota; os_step; rewrite app_nil_r.
  - left. unfold requests. fold dev. rewrite !bind_app.
    autorewrite with adb_simpl. rewrite O1, O2, O3, C1, C2, C3, W2, W3, R2, R3, W1, R1.
    cbn [mbind list_bind app]. by rewrite !app_nil_r.
  - right. left. split; [done|]. exists err. split; [done|]. right. exists fd, dev, service, [], (n1 ++ n2), n3.
    unfold requests. fold dev. rewrite app_assoc. autorewrite with adb_simpl. rewrite O1, O2, O3, C1, C2, C3, W2, R2, W1, R1. by split_and!.
Qed.

(** The reply to a query. *)
Lemma ospec_read_reply e c fd :
  ospec e (read_reply ulong_bits c fd)
    (fun '(r, c') new _ => opened new = [] /\ closed new = [(false, fd)] /\
       (forall msg, Z.of_nat (length msg) < 0xffff ->
          read_from fd new = fmt_04x (Z.of_nat (length msg)) ++ msg ->
          (r = Some msg /\ c' = c) \/ exists err, ev (Malloc (Z.of_nat (length msg) + 1)) (Err err) ∈ new))
    waits.
Proof.
  unfold read_reply. os_call ospec_readx; [lia|by intros x n [-> _]|]. intros b n1 e1 [Ho1 Hr1].
  destruct (neutral_opened n1 (only_mono _ _ _ Ho1 (reads_neutral fd))) as [O1 C1].
  destruct b as [buf|].
  2:{ os_call ospec_close; [by intros x n [-> _]|]. intros a n2 e2 ->. os_step. rewrite app_nil_r.
      autorewrite with adb_simpl. rewrite O1, C1. split_and!; [done|done|]. intros msg Hm E.
      rewrite read_from_cons, app_nil_r in E. rewrite E, length_app, length_fmt_04x in Hr1; lia. }
  destruct Hr1 as (Er1 & Hl1 & _). set (n := u32 _). assert (Hn : 0 <= n) by apply u32_range.
  assert (Hmsg : forall rest msg, Z.of_nat (length msg) < 0xffff -> buf ++ rest = fmt_04x (Z.of_nat (length msg)) ++ msg ->
            rest = msg /\ n = Z.of_nat (length msg)).
  { intros rest msg Hm E. apply app_inj_1 in E as [E1 E2]; [|rewrite length_fmt_04x; lia]. split; [done|].
    unfold n. rewrite E1, fmt_04x_no_nul, strtoul_16_fmt, u32_small by lia. done. }
  destruct (Z.geb_spec n 0xffff) as [Hbig|Hsmall].
  { os_call ospec_close; [by intros x n2 [-> _]|]. intros a n2 e2 ->. os_step. rewrite app_nil_r.
    autorewrite with adb_simpl. rewrite O1, C1. split_and!; [done|done|]. intros msg Hm E.
    rewrite Er1 in E. destruct (Hmsg _ msg Hm E) as [_ En]. lia. }
  os_call (ospec_one neutral e1 (Malloc (n + 1))); [done|by intros x n2 [-> _]|]. intros m n2 e2 (-> & _ & Hn2 & _).
  destruct m as [[]|err].
  2:{ os_call ospec_close; [by intros x n2 [-> _]|]. intros a n3 e3 ->. os_step. rewrite app_nil_r.
      autorewrite with adb_simpl. rewrite O1, C1. split_and!; [done|done|]. intros msg Hm E. right. exists err.
      rewrite Er1 in E. destruct (Hmsg _ msg Hm E) as [_ ->]. set_solver. }
  os_call ospec_readx; [done|by intros x n2 [-> _]|]. intros b n3 e3 [Ho3 Hr3].
  destruct (neutral_opened n3 (only_mono _ _ _ Ho3 (reads_neutral fd))) as [O3 C3].
  os_call ospec_close; [by intros x n2 [-> _]|]. intros a n4 e4 ->. os_step. rewrite app_nil_r.
  autorewrite with adb_simpl. rewrite O1, O3, C1, C3. split_and!; [done|done|]. intros msg Hm E. left.
  rewrite Er1 in E. destruct (Hmsg _ msg Hm E) as [E3 En].
  assert (E4 : read_from fd n3 = msg) by (rewrite <- E3, !read_from_cons; cbn; by rewrite app_nil_r).
  destruct b as [bs|]; [by destruct Hr3 as (<- & _); rewrite E4|]. rewrite E4 in Hr3. lia.
Qed.
End contracts.

(** ** The server's replies *)

(** The message [send_msg_with_okay] sends. *)
Definition okay_text (msg : bytes) : bytes := str "OKAY" ++ fmt_04x (Z.of_nat (length msg)) ++ msg.

Lemma ospec_send_msg_with_okay e s msg :
  Z.of_nat (length msg) < 0xffff ->
  ospec e (send_msg_with_okay s msg)
    (fun _ new _ => ~ write_failed s new -> written_to s new = okay_text msg) waits.
Proof.
  intros Hm. unfold send_msg_with_okay. rewrite Z.min_l by lia. rewrite Nat2Z.id.
  rewrite (take_ge msg) by lia.
  rewrite (take_ge (str "OKAY" ++ _)) by (rewrite length_app, length_fmt_04x; [simpl; lia|lia]).
  os_call ospec_writex_why; [by intros x n [-> _]|]. intros r1 n1 e1 [Ho1 Hr1].
  os_call ospec_writex_why; [by intros x n [-> _]|]. intros r2 n2 e2 [Ho2 Hr2].
  os_step. rewrite app_nil_r. intros Hf. rewrite written_to_app. unfold okay_text.
  destruct Hr1 as [[_ ->]|(_ & Hf1 & _)]; [|by exfalso; apply Hf, write_failed_app; left].
  destruct Hr2 as [[_ ->]|(_ & Hf2 & _)]; [|by exfalso; apply Hf, write_failed_app; right].
  by rewrite <- app_assoc.
Qed.

Lemma ospec_sendfailmsg e s reason :
  Z.of_nat (length reason) < 0xffff ->
  ospec e (sendfailmsg s reason)
    (fun r new _ => r = 0 -> written_to s new = fail_text reason) waits.
Proof.
  intros Hm. unfold sendfailmsg. rewrite Z.min_l by lia. rewrite Nat2Z.id, (take_ge reason) by lia.
  os_call ospec_writex; [by intros x n [-> _]|]. intros r1 n1 e1 [Ho1 [[-> E1]|[-> _]]]; simpl negb; cbv iota.
  - eapply ospec_mono; [apply ospec_writex| |by intros x n [-> _]].
    intros r2 n2 e2 [_ [[-> E2]|[-> _]]]; [|done]. intros _. rewrite written_to_app, E1, E2. unfold fail_text.
    by rewrite <- app_assoc.
  - by os_step.
Qed.

(** ** Theorems *)

(** C21: A connection of the client to the server.  When [_adb_connect] returns a
    descriptor it is open, the client's variables are unchanged, and what was
    written to it is the request for the device (none for a request to the
    server itself) and the request for the service, each of which the smart
    socket decodes to exactly the bytes the client meant and granted with OKAY.
    It returns -2 only when the server cannot be reached, and -1 only when the
    name of the service is empty or longer than 1024 bytes, or when, after the
    requests before it had been granted, one of them could not be written or its
    status was not OKAY (broken off, or other bytes); then the descriptor has been
    closed, once, and [adb_error] gives the reason, that of the server if it sent
    FAIL with a text of at most 255 characters.  It stops only to wait for the
    server. *)
Theorem connect_makes_requests (ulong_bits : Z) (c : client) (service : bytes) (w : world) :
  32 <= ulong_bits -> posix (w_env w) ->
  match _adb_connect ulong_bits c service w with
  | (Done (r, c'), w') =>
      let h := calls_since w w' in
      (0 <= r /\ c' = c /\ opened h = [(false, r)] /\ closed h = [] /\
         written_to r h = requests c service ≫= framed /\
         read_from r h = requests c service ≫= (fun _ => str "OKAY") /\
         Forall (fun q => decode (Z.of_nat (length (framed q))) (framed q) = Request (length q) /\
                          take (length q) (drop 4 (framed q)) = q) (requests c service)) \/
      (r = -1 /\ exists err, c' = set_error err c /\ connect_failed c service err h) \/
      (r = -2 /\ opened h = [] /\ closed h = [] /\ c' = set_error (str "cannot connect to daemon") c)
  | (Stop x, _) => x = Blocked
  end.
Proof.
  intros Hb Hp. pose proof (ospec_total _ _ _ w (ospec__adb_connect ulong_bits Hb (w_errno w) c service) Hp) as H.
  destruct (_adb_connect ulong_bits c service w) as [[[r c']|x] w'] eqn:E; [|done].
  destruct H as [(H1 & H2 & H3 & H4 & H5 & H6)|[H|H]]; [left|by right; left|by right; right].
  split_and!; try done. apply (Forall_impl sendable).
  - apply requests_sendable. revert E. unfold _adb_connect, sendable. cbv zeta. destruct (_ || _) eqn:El.
    + intros [= <- _ _]. lia.
    + apply orb_false_iff in El as [E1%Z.ltb_ge E2]. rewrite Z.gtb_ltb in E2. apply Z.ltb_ge in E2. lia.
  - intros q Hq. split; [by apply decode_framed|]. unfold framed.
    rewrite drop_app_length' by (symmetry; apply length_fmt_04x; destruct Hq; lia). apply take_ge. lia.
Qed.

(** A reply to a query reaches the caller.  The server sends [msg] with
    [send_msg_with_okay] and no write fails; a client that has read the status
    and receives the rest gets exactly [msg], unless it has no memory for it,
    and has closed the connection. *)
Theorem query_roundtrip (ulong_bits s fd : Z) (msg : bytes) (c : client) (w1 w1' w2 : world) :
  32 <= ulong_bits -> posix (w_env w1) -> posix (w_env w2) -> Z.of_nat (length msg) < 0xffff ->
  send_msg_with_okay s msg w1 = (Done tt, w1') -> ~ write_failed s (calls_since w1 w1') ->
  str "OKAY" ++ read_from fd (calls_since w2 (read_reply ulong_bits c fd w2).2) = written_to s (calls_since w1 w1') ->
  match read_reply ulong_bits c fd w2 with
  | (Done (r, c'), w2') =>
      closed (calls_since w2 w2') = [(false, fd)] /\
      ((r = Some msg /\ c' = c) \/ exists err, ev (Malloc (Z.of_nat (length msg) + 1)) (Err err) ∈ calls_since w2 w2')
  | (Stop x, _) => x = Blocked
  end.
Proof.
  intros Hb Hp1 Hp2 Hm E1 Hw E.
  pose proof (ospec_run _ _ _ w1 _ _ (ospec_send_msg_with_okay _ s msg Hm) Hp1 E1 Hw) as Ew.
  pose proof (ospec_total _ _ _ w2 (ospec_read_reply ulong_bits Hb (w_errno w2) c fd) Hp2) as H.
  destruct (read_reply ulong_bits c fd w2) as [[[r c']|x] w2'] eqn:E2; [|done]. cbn [snd] in E.
  destruct H as (_ & Hc & Hr). split; [done|]. apply Hr; [done|].
  rewrite Ew in E. unfold okay_text in E. by apply app_inv_head in E.
Qed.

(** The reason for a refusal reaches the client.  A reason of at most 255
    characters that the server sends with [sendfailmsg] is what [adb_error]
    returns after [adb_status] has failed. *)
Theorem failure_roundtrip (ulong_bits s fd : Z) (reason : bytes) (c : client) (w1 w1' w2 : world) :
  32 <= ulong_bits -> posix (w_env w1) -> posix (w_env w2) -> tellable reason ->
  sendfailmsg s reason w1 = (Done 0, w1') ->
  read_from fd (calls_since w2 (adb_status ulong_bits c fd w2).2) = written_to s (calls_since w1 w1') ->
  match adb_status ulong_bits c fd w2 with
  | (Done (r, c'), w2') => r = -1 /\ adb_error c' = reason /\ only (reads fd) (calls_since w2 w2')
  | (Stop x, _) => x = Blocked
  end.
Proof.
  intros Hb Hp1 Hp2 Ht E1 E.
  pose proof (ospec_run _ _ _ w1 _ _ (ospec_sendfailmsg _ s reason ltac:(destruct Ht; lia)) Hp1 E1 eq_refl) as Ew.
  pose proof (ospec_total _ _ _ w2 (ospec_adb_status ulong_bits Hb (w_errno w2) c fd) Hp2) as H.
  destruct (adb_status ulong_bits c fd w2) as [[[r c']|x] w2'] eqn:E2; [|by destruct H]. cbn [snd] in E.
  destruct H as (Ho & [(_ & _ & Er)|(-> & _ & err & -> & Hr)]).
  - rewrite Er, Ew in E. unfold fail_text in E. by apply (f_equal head) in E.
  - split_and!; [done| |done]. apply Hr; [done|]. by rewrite E, Ew.
Qed.

(** ** Concrete runs *)

(** Every connection is descriptor 3, which delivers [reply] over the whole run;
    writes are accepted in full. *)
Definition client_env (reply : bytes) : env := stream_env (fun fd => if fd =? 3 then reply else []).

Lemma client_env_posix reply : Forall is_byte reply -> posix (client_env reply).
Proof. intros H. apply stream_env_posix. intros fd. by destruct (fd =? 3). Qed.

Definition granted : bytes := str "OKAY" ++ str "OKAY".

Lemma connect_makes_requests_witness :
  (_adb_connect 32 client0 (str "sync:") (boot (client_env granted) 20)).1 = Done (3, client0) /\
  match _adb_connect 32 client0 (str "sync:") (boot (client_env granted) 20) with
  | (Done (r, c'), w') =>
      let h := calls_since (boot (client_env granted) 20) w' in
      (0 <= r /\ c' = client0 /\ opened h = [(false, r)] /\ closed h = [] /\
         written_to r h = requests client0 (str "sync:") ≫= framed /\
         read_from r h = requests client0 (str "sync:") ≫= (fun _ => str "OKAY") /\
         Forall (fun q => decode (Z.of_nat (length (framed q))) (framed q) = Request (length q) /\
                          take (length q) (drop 4 (framed q)) = q) (requests client0 (str "sync:"))) \/
      (r = -1 /\ exists err, c' = set_error err client0 /\ connect_failed client0 (str "sync:") err h) \/
      (r = -2 /\ opened h = [] /\ closed h = [] /\ c' = set_error (str "cannot connect to daemon") client0)
  | (Stop x, _) => x = Blocked
  end.
Proof.
  split; [vm_compute; reflexivity|]. apply (connect_makes_requests 32 client0 (str "sync:")); [lia|].
  apply client_env_posix, all_bytes_spec. vm_compute. reflexivity.
Defined.

Definition server_world : world := boot (client_env []) 10.

Definition server_done (m : M world unit) : world := (m server_world).2.

Definition reply_world (reply : bytes) : world := boot (client_env reply) 20.

Lemma query_roundtrip_witness :
  match read_reply 32 client0 3 (reply_world (str "0003abc")) with
  | (Done (r, c'), w2') =>
      closed (calls_since (reply_world (str "0003abc")) w2') = [(false, 3)] /\
      ((r = Some (str "abc") /\ c' = client0) \/
       exists err, ev (Malloc (Z.of_nat (length (str "abc")) + 1)) (Err err) ∈ calls_since (reply_world (str "0003abc")) w2')
  | (Stop x, _) => x = Blocked
  end.
Proof.
  apply (query_roundtrip 32 7 3 (str "abc") client0 server_world (server_done (send_msg_with_okay 7 (str "abc")))).
  - lia.
  - apply client_env_posix. constructor.
  - apply client_env_posix, all_bytes_spec. vm_compute. reflexivity.
  - vm_compute. reflexivity.
  - vm_compute. reflexivity.
  - apply accepts_spec. vm_compute. reflexivity.
  - vm_compute. reflexivity.
Defined.

Definition refused_world : world := (sendfailmsg 7 (str "device offline") server_world).2.

Definition refusal : bytes := fail_text (str "device offline").

Lemma failure_roundtrip_witness :
  match adb_status 32 client0 3 (reply_world refusal) with
  | (Done (r, c'), w2') =>
      r = -1 /\ adb_error c' = str "device offline" /\ only (reads 3) (calls_since (reply_world refusal) w2')
  | (Stop x, _) => x = Blocked
  end.
Proof.
  apply (failure_roundtrip 32 7 3 (str "device offline") client0 server_world refused_world).
  - lia.
  - apply client_env_posix. constructor.
  - apply client_env_posix, all_bytes_spec. vm_compute. reflexivity.
  - split; [vm_compute; lia|]. repeat (constructor; [done|]). constructor.
  - vm_compute. reflexivity.
  - vm_compute. reflexivity.
Defined.

(** A whole query: the version of the server is checked on a first connection,
    the list of devices is asked for on a second one, and both are closed. *)
Definition devices_reply : bytes :=
  str "OKAY" ++ str "0004" ++ str "001f" ++ str "OKAY" ++ str "0016" ++ str "emulator-5554" ++ [9] ++ str "offline" ++ [10].

Theorem query_session :
  let w := reply_world devices_reply in
  let '(o, w') := adb_query 32 client0 (str "host:devices") w in
  o = Done (Some (str "emulator-5554" ++ [9] ++ str "offline" ++ [10]), client0) /\
  written_to 3 (calls_since w w') = framed (str "host:version") ++ framed (str "host:devices") /\
  opened (calls_since w w') = [(false, 3); (false, 3)] /\ closed (calls_since w w') = [(false, 3); (false, 3)].
Proof. vm_compute. done. Qed.

(** ** Behaviour the code does not mean to have *)

(** The serial number of a device is cut to 48 characters without notice: two
    devices whose names agree so far cannot be told apart. *)
Theorem long_serial_truncated (t : transport_type) (serial more more' : bytes) (c : client) :
  length serial = 48%nat ->
  transport_service (adb_set_transport t (Some (serial ++ more)) c) =
  transport_service (adb_set_transport t (Some (serial ++ more')) c).
Proof.
  intros H. unfold transport_service, snprintf. cbn [__adb_serial adb_set_transport]. f_equal.
  assert (Hl : (64 - 1)%nat = length (str "host:transport:" ++ serial)) by (rewrite length_app, H; reflexivity).
  by rewrite !(app_assoc (str "host:transport:") serial), !(take_app_length' _ _ _ Hl).
Qed.

(** With one emulator and no serial number the port is read from a string that
    has been freed. *)
Theorem console_port_use_after_free :
  (adb_get_emulator_console_port 32 client0 (reply_world devices_reply)).1 =
  Stop (Undef "read of the freed list of devices").
Proof. vm_compute. reflexivity. Qed.

(** A version of more than four characters leaves the buffer unterminated. *)
Theorem long_version_unterminated :
  (read_version 32 3 (reply_world (str "0005001f0"))).1 = Stop (Undef "sscanf of an unterminated string").
Proof. vm_compute. reflexivity. Qed.

(** A version that is not a number makes the descriptor be closed twice. *)
Theorem bad_version_closes_twice :
  let w := reply_world (str "0004what") in
  let '(o, w') := read_version 32 3 w in
  o = Done None /\ closed (calls_since w w') = [(false, 3); (false, 3)].
Proof. vm_compute. done. Qed.

(** The child of [launch_server], when the server cannot be executed, returns
    success and goes on as a second client. *)
Definition no_exec_env : env := fun h c =>
  match c return ans c with
  | Fork => Ok 0
  | Execl _ _ => Err ENOENT
  | c => ok_default c
  end.

Lemma no_exec_env_posix : posix no_exec_env.
Proof. intros h c. destruct c; try apply ok_default_answer; done. Qed.

Theorem launch_child_returns_success :
  posix no_exec_env /\ (launch_server 5037 (boot no_exec_env 20)).1 = Done 0.
Proof. split; [apply no_exec_env_posix|vm_compute; reflexivity]. Qed.

(** An old server that does not answer to [host:kill] makes [adb_connect] close
    the descriptor -2. *)
Definition deaf_env : env := fun h c =>
  match c return ans c with
  | Loopback_client _ => if (length h =? 0)%nat then Ok 3 else Err ENOENT
  | Read fd n => Ok (take (Z.to_nat n) (drop (length (read_from fd h)) (str "OKAY0004001e")))
  | c => ok_default c
  end.

Theorem kill_closes_invalid :
  let '(_, w') := adb_connect 32 client0 (str "host:devices") (boot deaf_env 30) in
  closed (w_hist w') = [(false, 3); (false, -2); (false, 4); (false, 3)].
Proof. vm_compute. reflexivity. Qed.
