(* ===== verification/StringCov.v ===== *)
(** * stringcov.cpp: conversions between encodings

    The Windows build converts names between UTF-8, UTF-16 and the code page
    for Chinese (936) through the two conversion functions of Win32, which are
    parameters: the conversion of a text in a code page to UTF-16 units and
    back.  A conversion that fails gives the empty text. *)

From S2P Require Import Prelude.

Module StringCov.

Definition CP_GBK : Z := 936.

Definition CP_UTF8 : Z := 65001.

Section conversions.
Context (MultiByteToWideChar : Z -> bytes -> list Z) (WideCharToMultiByte : Z -> list Z -> bytes).

Definition GBK_to_UTF8 (s : bytes) : bytes := WideCharToMultiByte CP_UTF8 (MultiByteToWideChar CP_GBK s).

Definition UTF8_to_GBK (s : bytes) : bytes := WideCharToMultiByte CP_GBK (MultiByteToWideChar CP_UTF8 s).

(** The output buffer has three bytes per unit; a text that does not fit is not
    converted. *)
Definition Unicode_to_UTF8 (s : list Z) : bytes :=
  let out := WideCharToMultiByte CP_UTF8 s in
  if (length s * 3 <? length out)%nat then [] else out.

(** The output buffer has a unit per byte and one more, but the call is told it
    has two per byte: [None] is a write after its end. *)
Definition UTF8_to_Unicode (s : bytes) : option (list Z) :=
  let out := MultiByteToWideChar CP_UTF8 s in
  if (length s * 2 <? length out)%nat then Some []
  else if (length s + 1 <? length out)%nat then None else Some out.
End conversions.

End StringCov.
