(* ===== verification/SyncClient.v ===== *)
(** * file_sync_client.cpp: the client's half of the sync protocol

    [adb push], [adb pull], [adb ls] and [adb sync].  The functions are written
    over the descriptors of [Sysdeps]; directories are read with [_chdir],
    [_findfirst] and [_findnext], as the Windows build does.  Names are
    converted for the functions that want the local code page ([StringCov]).

    A [copyinfo] list is a list in the order of its [next] pointers.  The
    transfer buffer is only a stage for what is read or written, and the
    counters behind the progress display are left out, as is what is printed,
    except for the lines of [adb ls]. *)

From S2P Require Import Prelude Effects DList Os Sysdeps Wire Globals FileSync Sockets Registry Smart Jdwp Host Zip AdbClient StringCov.

Module SyncClient.
Import Client.

Definition SEEK_SET : Z := 0.

Definition SEEK_END : Z := 2.

Definition MAX_PATH : nat := 260.

Definition S_ISDIR (m : Z) : bool := Z.land m S_IFMT =? 16384.

Definition S_ISCHR (m : Z) : bool := Z.land m S_IFMT =? 8192.

Definition S_ISBLK (m : Z) : bool := Z.land m S_IFMT =? 24576.

Definition S_IFDIR : Z := 16384.

(** Fields of the messages that were read ([ltohl]). *)
Definition field (i : nat) (bs : bytes) : Z := le_val (take 4 (drop (4 * i) bs)).

(** The end of the protocol. *)
Definition sync_quit (fd : Z) : M world unit :=
  writex fd (msg_data ID_QUIT 0);;
  skip.

(** [writex(fd, &msg.req, sizeof(msg.req)) || writex(fd, path, len)] *)
Definition send_req (fd id : Z) (path : bytes) : M world Z :=
  writex2 fd (msg_data id (Z.of_nat (length path))) path.

(** The [for(;;)] of [sync_ls]: [inr true] is [return 0], [inr false] leaves the
    loop.  [func] is given the mode, size, time and name of an entry and updates
    what the cookie points to. *)
Definition sync_ls_step {A} (fd : Z) (func : Z -> Z -> Z -> bytes -> A -> M world A) (cookie : A) :
    M world (A + bool * A) :=
  m ← readx fd 20;
  match m with
  | None => mret (inr (false, cookie))
  | Some msg =>
      if field 0 msg =? ID_DONE then mret (inr (true, cookie)) else
      if negb (field 0 msg =? ID_DENT) then mret (inr (false, cookie)) else
      let len := s32 (field 4 msg) in
      if len >? 256 then mret (inr (false, cookie)) else
      b ← readx_into 257 fd len;
      match b with
      | None => mret (inr (false, cookie))
      | Some buf =>
          if len <? 0 then undef "write before the buffer" else
          cookie ← func (field 1 msg) (field 2 msg) (field 3 msg) (cstr buf) cookie;
          mret (inl cookie)
      end
  end.

Definition sync_ls {A} (fd : Z) (path : bytes) (func : Z -> Z -> Z -> bytes -> A -> M world A) (cookie : A) :
    M world (Z * A) :=
  if Z.of_nat (length path) >? 1024 then adb_close fd;; mret (-1, cookie) else
  w ← send_req fd ID_LIST path;
  if negb (w =? 0) then adb_close fd;; mret (-1, cookie) else
  '(ok, cookie) ← loop (sync_ls_step fd func) cookie;
  if (ok : bool) then mret (0, cookie) else adb_close fd;; mret (-1, cookie).

(** The answer to STAT: mode, size and time. *)
Definition read_stat (fd : Z) : M world (option (Z * Z * Z)) :=
  m ← readx fd 16;
  match m with
  | None => mret None
  | Some msg =>
      if negb (field 0 msg =? ID_STAT) then mret None else
      mret (Some (field 1 msg, field 2 msg, field 3 msg))
  end.

(** [Some] of the time for a result of 0. *)
Definition sync_readtime (fd : Z) (path : bytes) : M world (option Z) :=
  w ← send_req fd ID_STAT path;
  if negb (w =? 0) then mret None else
  s ← read_stat fd;
  mret (match s with Some (_, _, time) => Some time | None => None end).

Definition sync_start_readtime (fd : Z) (path : bytes) : M world Z :=
  w ← send_req fd ID_STAT path;
  mret (if negb (w =? 0) then -1 else 0).

(** [Some] of the time, the mode and the size for a result of 0. *)
Definition sync_finish_readtime (fd : Z) : M world (option (Z * Z * Z)) :=
  s ← read_stat fd;
  mret (match s with Some (mode, size, time) => Some (time, mode, size) | None => None end).

Definition sync_readmode (fd : Z) (path : bytes) : M world (option Z) :=
  w ← send_req fd ID_STAT path;
  if negb (w =? 0) then mret None else
  s ← read_stat fd;
  mret (match s with Some (mode, _, _) => Some mode | None => None end).

Section sync.
(** The width of [unsigned long], and whether the build has symbolic links
    (HAVE_SYMLINKS); without them [lstat] is [stat] and [S_ISLNK] is 0. *)
Context (ulong_bits : Z) (have_symlinks : bool).
Context (MultiByteToWideChar : Z -> bytes -> list Z) (WideCharToMultiByte : Z -> list Z -> bytes).

Definition lstat (path : bytes) : M world (sysres stat_t) :=
  if have_symlinks then syscall (Lstat path) else syscall (Stat path).

Definition is_link (m : Z) : bool := have_symlinks && S_ISLNK m.

Definition to_gbk : bytes -> bytes := StringCov.UTF8_to_GBK MultiByteToWideChar WideCharToMultiByte.

(** ** Sending a file *)

(** A DATA message: the id, the size and the bytes are written as one block. *)
Definition write_data (fd : Z) (bs : bytes) : M world Z :=
  writex fd (msg_data ID_DATA (Z.of_nat (length bs)) ++ bs).

(** The [for(;;)] of [write_data_file]. *)
Definition write_file_step (fd lfd : Z) : M world (unit + Z) :=
  r ← adb_read lfd SYNC_DATA_MAX;
  match r with
  | Ok [] => mret (inr 0)
  | Ok bs =>
      w ← write_data fd bs;
      mret (if negb (w =? 0) then inr (-1) else inl tt)
  | Err e => mret (if e =? EINTR then inl tt else inr 0)
  end.

Definition write_data_file (fd : Z) (path : bytes) (show_progress : bool) : M world Z :=
  o ← adb_open path O_RDONLY;
  let lfd := rc_int o in
  if lfd <? 0 then mret (-1) else
  bad ← (if show_progress then r ← lstat path; mret (negb (rc r =? 0)) else mret false);
  if (bad : bool) then mret (-1) else
  err ← loop (fun _ : unit => write_file_step fd lfd) tt;
  adb_close lfd;;
  mret err.

Definition write_data_buffer (fd : Z) (file_buffer : bytes) : M world Z :=
  loop (fun rest =>
    match rest with
    | [] => mret (inr 0)
    | _ =>
        let count := Z.to_nat SYNC_DATA_MAX in
        w ← write_data fd (take count rest);
        mret (if negb (w =? 0) then inr (-1) else inl (drop count rest))
    end) file_buffer.

Definition write_data_link (fd : Z) (path : bytes) : M world Z :=
  r ← syscall (Readlink path (SYNC_DATA_MAX - 1));
  match r with
  | Err _ => mret (-1)
  | Ok target =>
      w ← write_data fd (target ++ [0]);
      mret (if negb (w =? 0) then -1 else 0)
  end.

(** Run the zip reader on a buffer of its own. *)
Definition with_zip {A} (mem : bytes) (m : M Zip.heap A) : M world A := fun w =>
  ((m {| Zip.mem := mem; Zip.zfiles := ∅; Zip.zentries := ∅; Zip.fresh := 1%positive |}).1, w).

(** Is the buffer an archive with an AndroidManifest.xml?  The entry is only
    compared with NULL after the archive has been released.  [memory] tells if
    the structure of the archive could be allocated. *)
Definition look_for_manifest (memory : bool) (file_buffer : bytes) : M Zip.heap bool :=
  zip ← Zip.init_zipfile memory 0 (Z.of_nat (length file_buffer));
  match zip with
  | None => mret false
  | Some zip =>
      entry ← Zip.lookup_zipentry zip (str "AndroidManifest.xml");
      Zip.release_zipfile zip;;
      mret (bool_decide (is_Some entry))
  end.

Definition sizeof_Zipfile : Z := 36.

Definition has_manifest (file_buffer : bytes) : M world bool :=
  m ← syscall (Malloc sizeof_Zipfile);
  with_zip file_buffer (look_for_manifest match m with Ok _ => true | Err _ => false end file_buffer).

(** The part of [sync_send] under [verifyApk]: the contents of the file, or the
    value to return. *)
Definition read_apk (lpath : bytes) : M world (Z + bytes) :=
  o ← adb_open lpath O_RDONLY;
  let lfd := rc_int o in
  if lfd <? 0 then mret (inl (-1)) else
  size ← adb_lseek lfd 0 SEEK_END;
  back ← (if size =? -1 then mret (-1) else adb_lseek lfd 0 SEEK_SET);
  if back =? -1 then adb_close lfd;; mret (inl 1) else
  m ← syscall (Malloc size);
  match m with
  | Err _ => adb_close lfd;; mret (inl 1)
  | Ok _ =>
      r ← adb_read lfd size;
      let amt := match r with Ok bs => Z.of_nat (length bs) | Err _ => -1 end in
      if negb (amt =? size) then adb_close lfd;; mret (inl 1) else
      adb_close lfd;;
      let file_buffer := match r with Ok bs => bs | Err _ => [] end in
      ok ← has_manifest file_buffer;
      mret (if (ok : bool) then inr file_buffer else inl 1)
  end.

(** The label [fail]. *)
Definition send_fail (fd : Z) : M world Z := adb_close fd;; mret (-1).

(** The answer to a SEND. *)
Definition read_status (fd : Z) : M world Z :=
  m ← readx fd 8;
  match m with
  | None => mret (-1)
  | Some msg =>
      if data_id msg =? ID_OKAY then mret 0 else
      if data_id msg =? ID_FAIL then
        let len := s32 (data_size msg) in
        let len := if len >? 256 then 256 else len in
        readx_into SYNC_DATA_MAX fd len;;
        if len <? 0 then undef "write before the buffer" else mret (-1)
      else mret (-1)
  end.

Definition sync_send (fd : Z) (lpath rpath : bytes) (mtime mode : Z) (verifyApk show_progress : bool) : M world Z :=
  let len := Z.of_nat (length rpath) in
  if len >? 1024 then send_fail fd else
  let tmp := snprintf 64 (44 :: fmt_d (s32 mode)) in
  a ← (if verifyApk then
         x ← read_apk lpath;
         mret (match x with inl r => inl r | inr bs => inr (Some bs) end)
       else mret (inr None) : M world (Z + option bytes));
  match a with
  | inl r => mret r
  | inr file_buffer =>
      w ← writex2 fd (msg_data ID_SEND (len + Z.of_nat (length tmp))) rpath;
      w ← (if negb (w =? 0) then mret w else writex fd tmp);
      if negb (w =? 0) then send_fail fd else
      sent ← (match file_buffer with
              | Some bs => write_data_buffer fd bs;; mret true
              | None =>
                  if S_ISREG mode then write_data_file fd lpath show_progress;; mret true
                  else if is_link mode then write_data_link fd lpath;; mret true
                  else mret false
              end);
      if negb sent then send_fail fd else
      w ← writex fd (msg_data ID_DONE mtime);
      if negb (w =? 0) then send_fail fd else read_status fd
  end.

(** ** Receiving a file *)

(** The directories of a local name, outermost first; it returns 0 also when one
    could not be made. *)
Definition mkdirs (name : bytes) : M world Z :=
  if (260 <? length name + 1)%nat then undef "strcpy beyond strFilePath" else
  loop (fun s : nat =>
    let p := strchr 47 (drop s name) in
    let dir := match p with Some i => take (s + i) name | None => name end in
    a ← syscall (Access dir);
    ok ← (match a with
          | Ok _ => mret true
          | Err _ => m ← syscall (Mkdir dir 511); mret (rc m =? 0)
          end);
    if negb ok then mret (inr 0) else
    mret (match p with Some i => inl (S (s + i)) | None => inr 0 end)) 0%nat.

(** [str.replace(2, 1, "/")], then the part before the last slash; a name of
    fewer than two bytes throws. *)
Definition local_dir (lpath : bytes) : M world bytes :=
  let s := to_gbk lpath in
  if (length s <? 2)%nat then abort "std::out_of_range" else
  let s := take 2 s ++ 47 :: drop 3 s in
  mret (match strrchr 47 s with Some i => take i s | None => s end).

(** The label [remote_error]. *)
Definition remote_error (fd lfd : Z) (lpath : bytes) (id size : Z) : M world Z :=
  adb_close lfd;;
  adb_unlink lpath;;
  if id =? ID_FAIL then
    let len := s32 size in
    let len := if len >? 256 then 256 else len in
    b ← readx_into SYNC_DATA_MAX fd len;
    match b with
    | None => mret (-1)
    | Some _ => if len <? 0 then undef "write before the buffer" else mret 0
    end
  else mret 0.

(** The [for(;;)] of [sync_recv], from the label [handle_data] with the message
    that was read last to the next message. *)
Definition recv_data_step (fd lfd : Z) (lpath : bytes) (msg : bytes) : M world (bytes + Z) :=
  let len := s32 (data_size msg) in
  if data_id msg =? ID_DONE then adb_close lfd;; mret (inr 0) else
  if negb (data_id msg =? ID_DATA) then
    r ← remote_error fd lfd lpath (data_id msg) (data_size msg);
    mret (inr r)
  else
  if len >? SYNC_DATA_MAX then adb_close lfd;; mret (inr (-1)) else
  b ← readx_into SYNC_DATA_MAX fd len;
  match b with
  | None => adb_close lfd;; mret (inr (-1))
  | Some bs =>
      w ← writex lfd bs;
      if negb (w =? 0) then adb_close lfd;; mret (inr (-1)) else
      m ← readx fd 8;
      mret (match m with None => inr (-1) | Some msg => inl msg end)
  end.

Definition recv_data (fd lfd : Z) (lpath : bytes) (msg : bytes) : M world Z :=
  loop (recv_data_step fd lfd lpath) msg.

Definition sync_recv (fd : Z) (rpath lpath : bytes) (show_progress : bool) : M world Z :=
  if Z.of_nat (length rpath) >? 1024 then mret (-1) else
  ok ← (if show_progress then
          w ← send_req fd ID_STAT rpath;
          if negb (w =? 0) then mret false else
          s ← read_stat fd;
          mret (bool_decide (is_Some s))
        else mret true);
  if negb ok then mret (-1) else
  w ← send_req fd ID_RECV rpath;
  if negb (w =? 0) then mret (-1) else
  m ← readx fd 8;
  match m with
  | None => mret (-1)
  | Some msg =>
      if (data_id msg =? ID_DATA) || (data_id msg =? ID_DONE) then
        adb_unlink lpath;;
        dir ← local_dir lpath;
        mkdirs dir;;
        o ← adb_creat lpath 420;
        let lfd := rc_int o in
        if lfd <? 0 then mret (-1) else recv_data fd lfd lpath msg
      else remote_error fd (-1) lpath (data_id msg) (data_size msg)
  end.

(** ** Lists of files *)

Record copyinfo := {
  src : bytes;
  dst : bytes;
  time : Z;
  mode : Z;
  size : Z;
  flag : bool;
}.

Definition sizeof_copyinfo : Z := 28.

Definition mkcopyinfo (spath dpath name : bytes) (isdir : bool) : M world copyinfo :=
  let ssize := Z.of_nat (length spath) + Z.of_nat (length name) + 2 in
  let dsize := Z.of_nat (length dpath) + Z.of_nat (length name) + 2 in
  m ← syscall (Malloc (sizeof_copyinfo + ssize + dsize));
  match m with
  | Err _ => abort "out of memory"
  | Ok _ =>
      let slash := if isdir then [47] else [] in
      mret {| src := spath ++ name ++ slash; dst := dpath ++ name ++ slash;
              time := 0; mode := 0; size := 0; flag := false |}
  end.

Definition set_attributes (t m s : Z) (ci : copyinfo) : copyinfo :=
  {| src := src ci; dst := dst ci; time := t; mode := m; size := s; flag := flag ci |}.

Definition set_flag (ci : copyinfo) : copyinfo :=
  {| src := src ci; dst := dst ci; time := time ci; mode := mode ci; size := size ci; flag := true |}.

(** [.] and [..] *)
Definition is_dots (name : bytes) : bool := bytes_eqb name [46] || bytes_eqb name [46; 46].

(** One entry of a directory: the file status, which keeps its old value when
    [stat] fails, and the lists; [None] to return -1. *)
Definition build_entry (lpath rpath name : bytes) (st : option stat_t) (filelist dirlist : list copyinfo) :
    M world (option (option stat_t * list copyinfo * list copyinfo)) :=
  r ← syscall (Stat (lpath ++ name));
  let st := match r with Ok s => Some s | Err _ => st end in
  s ← must "indeterminate stat" (fun _ => st);
  if has (st_mode s) S_IFDIR then
    ci ← mkcopyinfo lpath rpath name true;
    mret (Some (st, filelist, ci :: dirlist))
  else
    ci ← mkcopyinfo lpath rpath name false;
    r ← lstat (src ci);
    match r with
    | Err _ => mret None
    | Ok s =>
        if negb (S_ISREG (st_mode s)) && negb (is_link (st_mode s)) then mret (Some (Some s, filelist, dirlist))
        else mret (Some (Some s, set_attributes (u32 (st_mtime s)) (u32 (st_mode s)) (u32 (st_size s)) ci :: filelist, dirlist))
    end.

(** The [do ... while(_findnext(hFile, &c_file) == 0)] loop from the entry [name]:
    the lists, or [None] to return -1. *)
Definition build_entries (hFile : Z) (lpath rpath name : bytes) (filelist : list copyinfo) :
    M world (option (list copyinfo * list copyinfo)) :=
  loop (fun '(name, st, filelist, dirlist) =>
    x ← (if is_dots name then mret (Some (name, st, filelist, dirlist)) else
         if (MAX_PATH <? length lpath + length name + 1)%nat then
           n ← syscall (Findnext hFile);
           mret (Some (match n with Ok name' => cstr name' | Err _ => name end, st, filelist, dirlist))
         else
           e ← build_entry lpath rpath name st filelist dirlist;
           match e with
           | None => syscall (Findclose hFile);; mret None
           | Some (st, filelist, dirlist) => mret (Some (name, st, filelist, dirlist))
           end);
    match x with
    | None => mret (inr None)
    | Some (name, st, filelist, dirlist) =>
        n ← syscall (Findnext hFile);
        match n with
        | Ok name' => mret (inl (cstr name', st, filelist, dirlist))
        | Err _ => syscall (Findclose hFile);; mret (inr (Some (filelist, dirlist)))
        end
    end) (name, None, filelist, []).

(** [local_build_list(&filelist, lpath, rpath)] with directories nested up to
    [fuel] deep; each one takes a call, so the budget is enough. *)
Fixpoint local_build (fuel : nat) (filelist : list copyinfo) (lpath rpath : bytes) : M world (Z * list copyinfo) :=
  match fuel with
  | O => stop_with Diverge
  | S fuel' =>
      r ← syscall (Chdir lpath);
      if negb (rc r =? 0) then mret (-1, filelist) else
      h ← syscall (Findfirst (str "*.*"));
      match h with
      | Err _ => undef "indeterminate directory entry"
      | Ok (hFile, name) =>
          x ← build_entries hFile lpath rpath (cstr name) filelist;
          match x with
          | None => mret (-1, filelist)
          | Some (filelist, dirlist) =>
              filelist ←
                (fix subdirs (dirlist filelist : list copyinfo) : M world (list copyinfo) :=
                   match dirlist with
                   | [] => mret filelist
                   | ci :: dirlist' =>
                       '(_, filelist) ← local_build fuel' filelist (src ci) (dst ci);
                       subdirs dirlist' filelist
                   end) dirlist filelist;
              mret (0, filelist)
          end
      end
  end.

Definition local_build_list (filelist : list copyinfo) (lpath rpath : bytes) : M world (Z * list copyinfo) :=
  fun w => local_build (S (budget w)) filelist lpath rpath w.

(** A path with a slash at its end; [None] when there is no memory for it. *)
Definition with_slash (path : bytes) : M world (option bytes) :=
  if bool_decide (last path = Some 47) then mret (Some path) else
  m ← syscall (Malloc (Z.of_nat (length path) + 2));
  mret (match m with Ok _ => Some (path ++ [47]) | Err _ => None end).

(** Is the remote file as new as the local one? *)
Definition up_to_date (ci : copyinfo) (timestamp m s : Z) : bool :=
  (s =? size ci) &&
  ((S_ISREG (Z.land (mode ci) m) && (timestamp =? time ci)) ||
   (is_link (Z.land (mode ci) m) && (timestamp >=? time ci))).

Fixpoint start_readtimes (fd : Z) (filelist : list copyinfo) : M world bool :=
  match filelist with
  | [] => mret true
  | ci :: l =>
      r ← sync_start_readtime fd (dst ci);
      if negb (r =? 0) then mret false else start_readtimes fd l
  end.

Fixpoint finish_readtimes (fd : Z) (filelist : list copyinfo) : M world (option (list copyinfo)) :=
  match filelist with
  | [] => mret (Some [])
  | ci :: l =>
      r ← sync_finish_readtime fd;
      match r with
      | None => mret None
      | Some (timestamp, m, s) =>
          let ci := if up_to_date ci timestamp m s then set_flag ci else ci in
          l' ← finish_readtimes fd l;
          mret (cons ci <$> l')
      end
  end.

Fixpoint push_files (fd : Z) (filelist : list copyinfo) (listonly : bool) : M world Z :=
  match filelist with
  | [] => mret 0
  | ci :: l =>
      if flag ci || listonly then push_files fd l listonly else
      r ← sync_send fd (src ci) (dst ci) (time ci) (mode ci) false false;
      if negb (r =? 0) then mret 1 else push_files fd l listonly
  end.

Definition copy_local_dir_remote (fd : Z) (lpath rpath : bytes) (checktimestamps listonly : bool) : M world Z :=
  if bool_decide (lpath = []) || bool_decide (rpath = []) then mret (-1) else
  l ← with_slash lpath;
  match l with
  | None => mret (-1)
  | Some lpath =>
      r ← with_slash rpath;
      match r with
      | None => mret (-1)
      | Some rpath =>
          '(x, filelist) ← local_build_list [] lpath rpath;
          if negb (x =? 0) then mret (-1) else
          if checktimestamps then
            ok ← start_readtimes fd filelist;
            if negb ok then mret 1 else
            f ← finish_readtimes fd filelist;
            match f with
            | None => mret 1
            | Some filelist => push_files fd filelist listonly
            end
          else push_files fd filelist listonly
      end
  end.

(** [sync_ls_build_list_cb]: the cookie holds the two lists. *)
Definition sync_ls_build_list_cb (rpath lpath : bytes) (m s t : Z) (name : bytes) (lists : list copyinfo * list copyinfo) :
    M world (list copyinfo * list copyinfo) :=
  let '(filelist, dirlist) := lists in
  if S_ISDIR m then
    if is_dots name then mret lists else
    ci ← mkcopyinfo rpath lpath name true;
    mret (filelist, ci :: dirlist)
  else if S_ISREG m || is_link m then
    ci ← mkcopyinfo rpath lpath name false;
    mret (set_attributes t m s ci :: filelist, dirlist)
  else mret lists.

Fixpoint remote_build (fuel : nat) (syncfd : Z) (filelist : list copyinfo) (rpath lpath : bytes) :
    M world (Z * list copyinfo) :=
  match fuel with
  | O => stop_with Diverge
  | S fuel' =>
      '(r, (filelist, dirlist)) ← sync_ls syncfd rpath (sync_ls_build_list_cb rpath lpath) (filelist, []);
      if negb (r =? 0) then mret (1, filelist) else
      (fix subdirs (dirlist filelist : list copyinfo) : M world (Z * list copyinfo) :=
         match dirlist with
         | [] => mret (0, filelist)
         | ci :: dirlist' =>
             '(r, filelist) ← remote_build fuel' syncfd filelist (src ci) (dst ci);
             if negb (r =? 0) then mret (1, filelist) else subdirs dirlist' filelist
         end) dirlist filelist
  end.

Definition remote_build_list (syncfd : Z) (filelist : list copyinfo) (rpath lpath : bytes) : M world (Z * list copyinfo) :=
  fun w => remote_build (S (budget w)) syncfd filelist rpath lpath w.

Fixpoint pull_files (fd : Z) (filelist : list copyinfo) : M world Z :=
  match filelist with
  | [] => mret 0
  | ci :: l =>
      if flag ci then pull_files fd l else
      r ← sync_recv fd (src ci) (dst ci) false;
      if negb (r =? 0) then mret 1 else pull_files fd l
  end.

Definition copy_remote_dir_local (fd : Z) (rpath lpath : bytes) : M world Z :=
  if bool_decide (rpath = []) || bool_decide (lpath = []) then mret (-1) else
  r ← with_slash rpath;
  match r with
  | None => mret (-1)
  | Some rpath =>
      l ← with_slash lpath;
      match l with
      | None => mret (-1)
      | Some lpath =>
          '(x, filelist) ← remote_build_list fd [] rpath lpath;
          if negb (x =? 0) then mret (-1) else pull_files fd filelist
      end
  end.

(** ** Commands *)

(** "%08x %08x %08x %s\n" *)
Definition do_sync_ls_cb (m s t : Z) (name : bytes) (out : bytes) : M world bytes :=
  let x n := zero_pad 8 (fmt_x n) in
  mret (out ++ x m ++ [32] ++ x s ++ [32] ++ x t ++ [32] ++ to_gbk name ++ [10]).

(** The value returned and the text printed. *)
Definition do_sync_ls (c : client) (path : bytes) : M world (Z * bytes * client) :=
  '(fd, c) ← adb_connect ulong_bits c (str "sync:");
  if fd <? 0 then mret (1, [], c) else
  '(r, out) ← sync_ls fd path do_sync_ls_cb [];
  if negb (r =? 0) then mret (1, out, c) else
  sync_quit fd;;
  mret (0, out, c).

(** What follows the last separator. *)
Definition base_name (path : bytes) : bytes :=
  match adb_dirstop path with Some i => drop (S i) path | None => path end.

(** [snprintf(tmp, tmplen, "%s/%s", dir, name)] *)
Definition in_directory (dir name : bytes) : M world (option bytes) :=
  m ← syscall (Malloc (Z.of_nat (length name) + Z.of_nat (length dir) + 2));
  mret (match m with Ok _ => Some (dir ++ 47 :: name) | Err _ => None end).

(** After a transfer: the protocol is ended when it succeeded. *)
Definition finish (fd r : Z) : M world Z :=
  if negb (r =? 0) then mret 1 else
  sync_quit fd;;
  mret 0.

Definition do_sync_push (c : client) (lpath rpath : bytes) (verifyApk show_progress : bool) : M world (Z * client) :=
  '(fd, c) ← adb_connect ulong_bits c (str "sync:");
  if fd <? 0 then mret (1, c) else
  r ← syscall (Stat (to_gbk lpath));
  match r with
  | Err _ => sync_quit fd;; mret (1, c)
  | Ok st =>
      if S_ISDIR (st_mode st) then
        r ← copy_local_dir_remote fd lpath rpath false false;
        x ← finish fd r;
        mret (x, c)
      else
      m ← sync_readmode fd rpath;
      match m with
      | None => mret (1, c)
      | Some m =>
          rpath' ← (if negb (m =? 0) && S_ISDIR m then in_directory rpath (base_name lpath) else mret (Some rpath));
          match rpath' with
          | None => mret (1, c)
          | Some rpath =>
              r ← sync_send fd lpath rpath (u32 (st_mtime st)) (st_mode st) verifyApk show_progress;
              x ← finish fd r;
              mret (x, c)
          end
      end
  end.

Definition do_sync_pull (c : client) (rpath lpath : bytes) (show_progress : bool) : M world (Z * client) :=
  '(fd, c) ← adb_connect ulong_bits c (str "sync:");
  if fd <? 0 then mret (1, c) else
  m ← sync_readmode fd rpath;
  match m with
  | None => mret (1, c)
  | Some m =>
      if m =? 0 then mret (1, c) else
      if S_ISREG m || is_link m || S_ISCHR m || S_ISBLK m then
        s ← syscall (Stat lpath);
        lpath' ← (match s with
                  | Ok st => if S_ISDIR (st_mode st) then in_directory lpath (base_name rpath) else mret (Some lpath)
                  | Err _ => mret (Some lpath)
                  end);
        match lpath' with
        | None => mret (1, c)
        | Some lpath =>
            r ← sync_recv fd rpath lpath show_progress;
            x ← finish fd r;
            mret (x, c)
        end
      else if S_ISDIR m then
        r ← copy_remote_dir_local fd rpath lpath;
        x ← finish fd r;
        mret (x, c)
      else mret (1, c)
  end.

Definition do_sync_sync (c : client) (lpath rpath : bytes) (listonly : bool) : M world (Z * client) :=
  '(fd, c) ← adb_connect ulong_bits c (str "sync:");
  if fd <? 0 then mret (1, c) else
  r ← copy_local_dir_remote fd lpath rpath true listonly;
  x ← finish fd r;
  mret (x, c).
End sync.

End SyncClient.
