(* ===== verification/SyncClientSpec.v ===== *)
(** * adb push, adb pull and adb ls copy exactly

    The client's functions against the service they talk to: the file SEND
    stores is the file [sync_send] read, the file [sync_recv] writes is the file
    RECV read, and [sync_ls] reports the entries LIST examined. *)

From S2P Require Import Prelude Effects DList Os Sysdeps Wire Globals FileSync FileSyncFacts FileSyncSend FileSyncSpec Sockets Registry Smart Jdwp Host Zip AdbClient StringCov SyncClient.

Import SyncClient.

(** ** Reading a local file *)

(** The state of a copy from the file [lfd] to the service on [fd]. *)
Definition copied (fd lfd : Z) (h : list event) : Prop :=
  exists chunks, Forall sent_chunk chunks /\ written_to fd h = frames chunks /\ read_from fd h = [] /\
    read_from lfd h = concat chunks.

Lemma write_failed_not fd h1 h2 : ~ write_failed fd (h1 ++ h2) -> ~ write_failed fd h1 /\ ~ write_failed fd h2.
Proof. intros H. split; intros Hf; apply H, write_failed_app; auto. Qed.

Lemma ospec_write_data e fd bs :
  ospec e (write_data fd bs)
    (fun r new _ => only (writes fd) new /\ new <> [] /\
       (r = 0 \/ r = -1) /\ (~ write_failed fd new -> r = 0 /\ written_to fd new = data_frame bs)) waits.
Proof.
  unfold write_data. eapply ospec_mono; [apply (ospec_conj _ _ _ _ _ _ (ospec_writex_why e fd (data_frame bs)) (ospec_writex e fd (data_frame bs)))| |].
  - intros r new e' [[Ho Hr] _]. split; [done|].
    assert (Hne : new <> []).
    { intros ->. destruct Hr as [[_ E]|(_ & (? & ? & Hin & _) & _)]; [done|by apply elem_of_nil in Hin]. }
    split; [done|]. destruct Hr as [[-> E]|(-> & Hf & _)]; [by split; [left|]|]. split; [by right|]. by intros [].
  - by intros x new [[-> _] _].
Qed.

Lemma copied_read fd lfd h new :
  only (reads lfd) new -> lfd <> fd -> read_from lfd new = [] -> copied fd lfd h -> copied fd lfd (h ++ new).
Proof.
  intros Ho Hd E (chunks & Hk & W & R & L). exists chunks.
  rewrite written_to_app, !read_from_app, (written_to_reads lfd fd new Ho), (read_from_reads_ne lfd fd new Ho Hd).
  by rewrite W, R, L, E, !app_nil_r.
Qed.

Lemma copied_chunk fd lfd h n2 n3 bs :
  only (reads lfd) n2 -> lfd <> fd -> read_from lfd n2 = bs -> sent_chunk bs ->
  only (writes fd) n3 -> written_to fd n3 = data_frame bs -> copied fd lfd h -> copied fd lfd (h ++ n2 ++ n3).
Proof.
  intros Hor Hd E0 Hs How E3 (chunks & Hk & W & R & L). exists (chunks ++ [bs]).
  rewrite !written_to_app, !read_from_app, (written_to_reads lfd fd n2 Hor), (read_from_reads_ne lfd fd n2 Hor Hd).
  rewrite (read_from_writes fd fd n3 How), (read_from_writes fd lfd n3 How), W, R, L, E0, E3, frames_snoc, concat_app, !app_nil_r.
  cbn [concat]. rewrite app_nil_r. split_and!; [|done..]. apply Forall_app. split; [done|]. by constructor.
Qed.

(** One pass of the loop of [write_data_file]. *)
Lemma ospec_write_file_step e fd lfd h :
  only neutral h -> (lfd <> fd -> ~ write_failed fd h -> copied fd lfd h) ->
  ospec e (write_file_step fd lfd)
    (fun x new _ => only neutral (h ++ new) /\
       match x with
       | inl _ => new <> [] /\ (lfd <> fd -> ~ write_failed fd (h ++ new) -> copied fd lfd (h ++ new))
       | inr r => lfd <> fd -> ~ write_failed fd (h ++ new) -> r = 0 /\ copied fd lfd (h ++ new) /\ read_failed lfd (h ++ new)
       end)
    waits.
Proof.
  intros Hn Hs. unfold write_file_step. os_call ospec_adb_read_ev; [done|]. intros a n2 e3 (Hin & Hor & Hne & Hni & Har).
  assert (Hnn : only neutral n2) by exact (only_mono _ _ _ Hor (reads_neutral lfd)).
  destruct a as [[|b bs]|err].
  - os_step. rewrite app_nil_r, only_app. split; [done|]. intros Hd Hf. apply write_failed_not in Hf as [Hf _].
    split_and!; [done|apply copied_read; [done..|apply Har|auto]|].
    apply read_failed_app. right. by exists SYNC_DATA_MAX, (Ok []).
  - destruct Har as (E0 & Hl & _). os_call ospec_write_data; [done|]. intros w n3 e4 (How & Hne3 & Hw & Hok).
    assert (Hnn3 : only neutral n3) by exact (only_mono _ _ _ How (writes_neutral fd)).
    assert (Hcont : lfd <> fd -> ~ write_failed fd (h ++ n2 ++ n3) -> w = 0 /\ copied fd lfd (h ++ n2 ++ n3)).
    { intros Hd Hf. apply write_failed_not in Hf as [Hf1 Hf2]. apply write_failed_not in Hf2 as [_ Hf3].
      destruct (Hok Hf3) as [-> E3]. split; [done|]. eapply copied_chunk; [done..| |done|done|auto].
      split; [done|]. unfold chunk_ok, SYNC_DATA_MAX in *. lia. }
    os_step. rewrite app_nil_r, !only_app. split; [done|]. destruct Hw as [-> | ->]; simpl negb; cbv iota.
    + split; [by destruct n2|]. intros Hd Hf. by apply Hcont.
    + intros Hd Hf. by destruct (Hcont Hd Hf).
  - destruct (Z.eqb_spec err EINTR) as [->|]; [done|]. os_step. rewrite app_nil_r, only_app. split; [done|]. intros Hd Hf.
    apply write_failed_not in Hf as [Hf _].
    split_and!; [done|apply copied_read; [done..|apply Har|auto]|]. apply read_failed_app. right. by exists SYNC_DATA_MAX, (Err err).
Qed.

(** ** Sending *)

(** All of the file [lfd] was read: to its end or an error, or as much as its
    size. *)
Definition whole (lfd : Z) (bs : bytes) (h : list event) : Prop :=
  read_failed lfd h \/ exists n, ev (Lseek lfd 0 SEEK_END) (Ok n) ∈ h /\ s32 n = Z.of_nat (length bs).

Lemma whole_app lfd bs h1 h2 : whole lfd bs h1 \/ whole lfd bs h2 -> whole lfd bs (h1 ++ h2).
Proof.
  intros [[H|(n & H & E)]|[H|(n & H & E)]]; [left; apply read_failed_app; auto|right|left; apply read_failed_app; auto|right];
    exists n; (split; [set_solver|done]).
Qed.

(** Where the chunks come from: the client's file [lpath], the only one it
    opened, or nothing when it could not be opened. *)
Definition source (fd : Z) (lpath : bytes) (chunks : list bytes) (h : list event) : Prop :=
  (opened h = [] /\ chunks = []) \/
  exists lfd, opened h = [(false, lfd)] /\ ev (Open lpath O_RDONLY None) (Ok lfd) ∈ h /\ lfd <> fd /\ read_from lfd h = concat chunks /\ whole lfd (concat chunks) h.

Definition manifest (bs : bytes) : Prop := forall w, with_zip bs (look_for_manifest true bs) w = (Done true, w).

(** The request of a SEND. *)
Definition send_header (rpath : bytes) (mode : Z) : bytes :=
  let tmp := snprintf 64 (44 :: fmt_d (s32 mode)) in
  msg_data ID_SEND (Z.of_nat (length rpath) + Z.of_nat (length tmp)) ++ rpath ++ tmp.

(** Waiting, a crafted archive, or an answer of negative length. *)
Definition send_stops (verifyApk : bool) (x : stop) (_ : list event) : Prop :=
  x = Blocked \/ verifyApk = true \/ x = Undef "write before the buffer".

Lemma waits_send_stops v x h h' : waits x h -> send_stops v x h'.
Proof. by left. Qed.

Lemma blocked_send_stops v B x h h' : blocked B x h -> send_stops v x h'.
Proof. intros [-> _]. by left. Qed.

#[export] Hint Resolve waits_send_stops blocked_send_stops : adb.

Lemma ospec_write_data_buffer e fd bs :
  ospec e (write_data_buffer fd bs)
    (fun r new _ => only (writes fd) new /\
       (~ write_failed fd new -> exists chunks, Forall sent_chunk chunks /\ written_to fd new = frames chunks /\ concat chunks = bs))
    waits.
Proof.
  unfold write_data_buffer.
  apply (ospec_loop (fun rest h _ => only (writes fd) h /\
    (~ write_failed fd h -> exists chunks, Forall sent_chunk chunks /\ written_to fd h = frames chunks /\ concat chunks ++ rest = bs))).
  - split; [apply only_nil|]. intros _. exists []. split_and!; [constructor|done..].
  - intros rest h e1 [Ho Hs]. destruct rest as [|b rest].
    { os_step. rewrite app_nil_r. split; [done|]. intros Hf. destruct (Hs Hf) as (chunks & ?). rewrite app_nil_r in *. eauto. }
    cbv zeta. set (c := take _ (b :: rest)).
    assert (Hc : sent_chunk c).
    { assert (Hmax : (0 < Z.to_nat SYNC_DATA_MAX)%nat) by (unfold SYNC_DATA_MAX; lia).
      split; [|unfold chunk_ok, c; rewrite length_take; lia]. unfold c.
      destruct (Z.to_nat SYNC_DATA_MAX); [lia|done]. }
    os_call ospec_write_data; [done|]. intros w n1 e2 (Ho1 & Hne & Hw & Hok). os_step. rewrite app_nil_r.
    assert (Hnext : ~ write_failed fd (h ++ n1) -> w = 0 /\ exists chunks, Forall sent_chunk chunks /\
              written_to fd (h ++ n1) = frames chunks /\ concat chunks ++ drop (Z.to_nat SYNC_DATA_MAX) (b :: rest) = bs).
    { intros Hf. apply write_failed_not in Hf as [Hf1 Hf2]. destruct (Hok Hf2) as [-> E]. split; [done|].
      destruct (Hs Hf1) as (chunks & Hk & W & E2). exists (chunks ++ [c]).
      rewrite written_to_app, W, E, frames_snoc, concat_app. cbn [concat]. rewrite app_nil_r, <- app_assoc.
      rewrite (take_drop _ (b :: rest) : c ++ drop _ _ = b :: rest). split_and!; [|done|done]. apply Forall_app. split; [done|]. by constructor. }
    destruct Hw as [-> | ->]; simpl negb; cbv iota.
    + split; [done|]. rewrite only_app. split; [done|]. intros Hf. by apply Hnext.
    + rewrite only_app. split; [done|]. intros Hf. by destruct (Hnext Hf).
Qed.

Lemma ospec_with_zip {A} e mem (m : M Zip.heap A) :
  ospec e (with_zip mem m) (fun a new _ => new = [] /\ forall w, with_zip mem m w = (Done a, w)) (send_stops true).
Proof.
  intros w Hp He. unfold wp, with_zip. destruct (m _).1 as [a|x]; exists []; (split; [apply steps_refl|]).
  - done.
  - right. by left.
Qed.

Lemma ospec_has_manifest e bs :
  ospec e (has_manifest bs) (fun ok new _ => exists m, new = [ev (Malloc sizeof_Zipfile) m] /\ (ok = true -> manifest bs))
    (send_stops true).
Proof.
  unfold has_manifest. os_call (ospec_one neutral e (Malloc sizeof_Zipfile)); [done|by eauto with adb|].
  intros m n1 e1 (-> & _). eapply ospec_mono; [apply ospec_with_zip| |by eauto with adb].
  intros ok n2 e2 [-> Hz]. exists m. split; [done|]. intros ->. destruct m as [u|err]; [done|]. by specialize (Hz (boot ready_env 0)).
Qed.

(** The calls of [read_apk]. *)
Definition local_calls (lfd : Z) (c : call) : Prop := quiet c \/ reads lfd c.

Lemma local_calls_written lfd fd h : only (local_calls lfd) h -> written_to fd h = [].
Proof.
  induction 1 as [|[c a] h Hc _ IH]; [done|]. rewrite written_to_cons, IH, app_nil_r. by destruct Hc; destruct c.
Qed.

Lemma local_calls_read lfd fd h : only (local_calls lfd) h -> lfd <> fd -> read_from fd h = [].
Proof.
  intros Ho Hne. induction Ho as [|[c a] h Hc _ IH]; [done|]. rewrite read_from_cons, IH, app_nil_r.
  destruct Hc as [Hc|Hc]; destruct c; simpl in *; try done. subst. destruct a; [|done]. by rewrite (proj2 (Z.eqb_neq lfd fd)).
Qed.

(** What [read_apk] leaves behind. *)
Definition apk_read (lpath : bytes) (x : Z + bytes) (h : list event) : Prop :=
  balanced h /\ exists lfd, only (local_calls lfd) h /\
    match x with
    | inl r => r <> 0
    | inr bs => opened h = [(false, lfd)] /\ ev (Open lpath O_RDONLY None) (Ok lfd) ∈ h /\ read_from lfd h = bs /\ whole lfd bs h /\ manifest bs
    end.

(** Closing the file and giving up. *)
Lemma ospec_apk_give_up e lpath lfd r h :
  holds (false, lfd) h -> only (local_calls lfd) h -> r <> 0 ->
  ospec e (adb_close lfd;; mret (inl r)) (fun x new _ => apk_read lpath x (h ++ new)) (send_stops true).
Proof.
  intros Hh Ho Hr. os_call ospec_close; [by eauto with adb|]. intros a n e1 ->. os_step. rewrite app_nil_r.
  split; [by apply holds_close|]. exists lfd. split; [|done]. apply only_app. split; [done|]. apply only_one. by left.
Qed.

Lemma ospec_adb_lseek e fd pos where_ :
  ospec e (adb_lseek fd pos where_)
    (fun r new _ => exists a, new = [ev (Lseek fd pos where_) a] /\ r = s32 (rc_int a)) waits.
Proof.
  unfold adb_lseek. os_call (ospec_one neutral e (Lseek fd pos where_)); [done|by intros x n [-> _]|].
  intros a n e1 (-> & _). os_step. eauto.
Qed.

Lemma quiet_local lfd h : only quiet h -> only (local_calls lfd) h.
Proof. intros H. eapply only_mono; [exact H|]. by left. Qed.

(** The rest of [read_apk], when the size of the file is known. *)
Lemma ospec_apk_contents e lpath lfd size n h :
  ev (Open lpath O_RDONLY None) (Ok lfd) ∈ h -> opened h = [(false, lfd)] -> closed h = [] -> only (local_calls lfd) h -> read_from lfd h = [] ->
  ev (Lseek lfd 0 SEEK_END) (Ok n) ∈ h -> size = s32 n -> size <> -1 ->
  ospec e (m ← syscall (Malloc size);
    match m with
    | Err _ => adb_close lfd;; mret (inl 1)
    | Ok _ =>
        r ← adb_read lfd size;
        let amt := match r with Ok bs => Z.of_nat (length bs) | Err _ => -1 end in
        if negb (amt =? size) then adb_close lfd;; mret (inl 1) else
        adb_close lfd;;
        let file_buffer := match r with Ok bs => bs | Err _ => [] end in
        ok ← has_manifest file_buffer;
        mret (if (ok : bool) then inr file_buffer else inl 1)
    end) (fun x new _ => apk_read lpath x (h ++ new)) (send_stops true).
Proof.
  intros Hfile Hop Hcl Ho Hr Hin Hs Hne1. assert (Hh : holds (false, lfd) h) by (unfold holds; by rewrite Hop, Hcl).
  os_call (ospec_one neutral e (Malloc size)); [done|by eauto with adb|].
  intros m n1 e1 (-> & _ & Hn1 & _).
  assert (Hh1 : holds (false, lfd) (h ++ [ev (Malloc size) m])) by (by apply holds_neutral).
  assert (Ho1 : only (local_calls lfd) (h ++ [ev (Malloc size) m])) by (apply only_app; split; [done|apply only_one; by left]).
  destruct m as [[]|err].
  2:{ eapply ospec_mono; [by apply (ospec_apk_give_up e1 lpath lfd 1 _ Hh1 Ho1)| |done]. intros x new e2. cbv beta. by rewrite <- app_assoc. }
  os_call ospec_adb_read; [by eauto with adb|]. intros r n2 e2 (Ho2 & Hne & _ & Hr2). cbv zeta.
  set (h2 := (h ++ [ev (Malloc size) (Ok tt)]) ++ n2).
  assert (Hh2 : holds (false, lfd) h2) by exact (holds_neutral _ _ _ Hh1 (only_mono _ _ _ Ho2 (reads_neutral lfd))).
  assert (Hl2 : only (local_calls lfd) h2).
  { apply only_app. split; [done|]. eapply only_mono; [exact Ho2|]. by right. }
  destruct (_ =? size) eqn:E; simpl negb; cbv iota.
  2:{ eapply ospec_mono; [by apply (ospec_apk_give_up e2 lpath lfd 1 _ Hh2 Hl2)| |done]. intros x new e3. cbv beta. unfold h2. by rewrite <- !app_assoc. }
  apply Z.eqb_eq in E. destruct r as [bs|err]; [|lia]. destruct Hr2 as (Er & _).
  os_call ospec_close; [by eauto with adb|]. intros a n3 e3 ->.
  os_call ospec_has_manifest; [by eauto with adb|]. intros ok n4 e4 (m & -> & Hz). os_step. rewrite !app_nil_r.
  match goal with |- apk_read _ _ ?l => replace l with ((h2 ++ [ev (Close lfd) a]) ++ [ev (Malloc sizeof_Zipfile) m]) by (unfold h2; by rewrite <- !app_assoc) end.
  split; [apply balanced_neutral; [by apply holds_close|by apply only_one]|].
  exists lfd. split; [rewrite !only_app; split_and!; [done|apply only_one; by left..]|].
  destruct ok; [|done]. specialize (Hz eq_refl). rewrite !opened_app. unfold h2. rewrite !opened_app, Hop.
  rewrite (proj1 (neutral_opened n2 (only_mono _ _ _ Ho2 (reads_neutral lfd)))). rewrite !read_from_app, Hr, Er.
  split_and!; [done|set_solver|cbn; by rewrite !app_nil_r| |done]. right. exists n. split; [set_solver|]. lia.
Qed.

Lemma ospec_read_apk e lpath :
  ospec e (read_apk lpath) (fun x new _ => apk_read lpath x new) (send_stops true).
Proof.
  unfold read_apk. os_call ospec_adb_open; [by eauto with adb|]. intros a n1 e1 (Hq & Ho & Hc & Ha). cbv zeta.
  pose proof (quiet_local (match a with Ok fd => fd | _ => 0 end) n1 Hq) as Hl1.
  destruct a as [lfd|err]; simpl rc_int.
  2:{ change (-1 <? 0) with true. cbv iota. os_step. rewrite app_nil_r. split; [unfold balanced; by rewrite Ho, Hc|]. eauto. }
  destruct Ha as [Hlfd Hin]. rewrite (proj2 (Z.ltb_ge lfd 0)) by done. os_call ospec_adb_lseek; [by eauto with adb|]. intros size n2 e2 (a & -> & Hsz).
  eapply (ospec_bind _ _ _ (fun back h _ => only neutral h /\ only quiet h /\ (size = -1 -> back = -1))).
  { destruct (Z.eqb_spec size (-1)); [os_step; split_and!; [apply only_nil..|done]|].
    eapply ospec_mono; [apply ospec_adb_lseek| |by eauto with adb]. intros r h _ (b & -> & _).
    split_and!; [by apply only_one|by apply only_one|done]. }
  intros back n3 e3 (Hn3 & Hq3 & Hback).
  set (h := (n1 ++ [ev (Lseek lfd 0 SEEK_END) a]) ++ n3).
  assert (Hop : opened h = [(false, lfd)]).
  { unfold h. rewrite !opened_app, Ho, (proj1 (neutral_opened n3 Hn3)). done. }
  assert (Hcl : closed h = []).
  { unfold h. rewrite !closed_app, Hc, (proj2 (neutral_opened n3 Hn3)). done. }
  assert (Hl : only quiet h) by (unfold h; rewrite !only_app; split_and!; [done|by apply only_one|done]).
  destruct (Z.eqb_spec back (-1)) as [_|Hbne].
  - eapply ospec_mono; [apply (ospec_apk_give_up e3 lpath lfd 1 h)|intros x new e4; cbv beta; unfold h; by rewrite <- !app_assoc|done].
    + unfold holds. by rewrite Hop, Hcl.
    + by apply quiet_local.
    + done.
  - destruct a as [n|err]; simpl in Hsz; [|naive_solver].
    eapply ospec_mono; [apply (ospec_apk_contents e3 lpath lfd size n h ltac:(unfold h; set_solver) Hop Hcl)|intros x new e4; cbv beta; unfold h; by rewrite <- !app_assoc|done].
    + by apply quiet_local.
    + by apply quiet_read.
    + unfold h. set_solver.
    + done.
    + naive_solver.
Qed.


(** Calls on the connection only. *)
Definition socket (fd : Z) (c : call) : Prop := writes fd c \/ reads fd c.

Lemma socket_neutral fd c : socket fd c -> neutral c.
Proof. intros [H|H]; eauto with adb. Qed.

Lemma socket_opened fd h : only (socket fd) h -> opened h = [] /\ closed h = [].
Proof. intros H. apply neutral_opened. exact (only_mono _ _ _ H (socket_neutral fd)). Qed.

Lemma socket_read fd lfd h : only (socket fd) h -> lfd <> fd -> read_from lfd h = [].
Proof.
  intros Ho Hne. induction Ho as [|[c a] h Hc _ IH]; [done|]. rewrite read_from_cons, IH, app_nil_r.
  destruct Hc as [Hc|Hc]; destruct c; simpl in *; try done. subst. destruct a; [|done]. by rewrite (proj2 (Z.eqb_neq fd lfd)).
Qed.

Lemma writes_socket fd h : only (writes fd) h -> only (socket fd) h.
Proof. intros H. eapply only_mono; [exact H|]. by left. Qed.

Lemma reads_socket fd h : only (reads fd) h -> only (socket fd) h.
Proof. intros H. eapply only_mono; [exact H|]. by right. Qed.

#[local] Hint Resolve writes_socket reads_socket : adb.

(** What happens on the connection does not change where the chunks are from. *)
Lemma source_frame fd lpath chunks h1 h h2 :
  only (socket fd) h1 -> only (socket fd) h2 -> source fd lpath chunks h -> source fd lpath chunks (h1 ++ h ++ h2).
Proof.
  intros H1 H2. destruct (socket_opened fd h1 H1) as [O1 _]. destruct (socket_opened fd h2 H2) as [O2 _].
  intros [[O ->]|(lfd & O & Hin & Hne & R & W)]; [left|right; exists lfd]; rewrite !opened_app, O1, O2, O; [done|].
  rewrite !read_from_app, (socket_read fd lfd h1 H1 Hne), (socket_read fd lfd h2 H2 Hne), R, !app_nil_r.
  split_and!; [done|set_solver|done|done|]. apply whole_app. right. apply whole_app. by left.
Qed.

Lemma ospec_read_status v e fd :
  ospec e (read_status fd)
    (fun r new _ => only (reads fd) new /\ (r = 0 \/ r = -1) /\
       (r = 0 -> exists size, read_from fd new = msg_data ID_OKAY size)) (send_stops v).
Proof.
  unfold read_status. os_call ospec_readx; [lia|by eauto with adb|]. intros [msg|] n1 e1 [Ho1 Hr1].
  2:{ os_step. rewrite app_nil_r. split_and!; [done|by right|done]. }
  destruct Hr1 as (Er & Hl & Hb). destruct (Z.eqb_spec (data_id msg) ID_OKAY) as [E|_].
  { os_step. rewrite app_nil_r. split_and!; [done|by left|]. intros _. exists (data_size msg). by rewrite Er, <- E, <- msg_data_decode. }
  destruct (data_id msg =? ID_FAIL); [|os_step; rewrite app_nil_r; split_and!; [done|by right|done]].
  set (len := if _ >? 256 then 256 else _). destruct (Z.ltb_spec len 0).
  - rewrite readx_into_fits by (unfold SYNC_DATA_MAX; lia). unfold readx. intros w Hp He. unfold loop. cbn [loop_fuel]. unfold mbind at 1, M_bind at 1. unfold mbind at 1, M_bind at 1.
    rewrite (proj2 (Z.leb_le len 0)) by lia. cbn. exists []. split; [apply steps_refl|]. right. by right.
  - os_call ospec_readx_into; [split; [done|]; unfold len, SYNC_DATA_MAX; destruct (Z.gtb_spec (s32 (data_size msg)) 256); lia|by eauto with adb|]. intros b n2 e2 [Ho2 _]. os_step. rewrite app_nil_r, only_app.
    split_and!; [done|done|by right|done].
Qed.

(** The end of a SEND: DONE and the answer. *)
Lemma ospec_send_end v e fd mtime :
  ospec e (w ← writex fd (msg_data ID_DONE mtime); if negb (w =? 0) then send_fail fd else read_status fd)
    (fun r new _ => opened new = [] /\
       ((closed new = [] /\ only (socket fd) new /\
         (r = 0 -> written_to fd new = msg_data ID_DONE mtime /\ exists size, read_from fd new = msg_data ID_OKAY size)) \/
        (r = -1 /\ closed new = [(false, fd)]))) (send_stops v).
Proof.
  os_call ospec_writex; [by eauto with adb|]. intros w n1 e1 [Ho1 Hw]. destruct (socket_opened fd n1 ltac:(eauto with adb)) as [O1 C1].
  destruct Hw as [[-> E]|[-> _]]; simpl negb; cbv iota.
  - eapply ospec_mono; [apply (ospec_read_status v)| |done]. intros r n2 e2 (Ho2 & Hr & Hok).
    destruct (socket_opened fd n2 ltac:(eauto with adb)) as [O2 C2]. rewrite opened_app, closed_app, O1, O2, C1, C2.
    split; [done|]. left. rewrite only_app. split_and!; [done|eauto with adb|eauto with adb|]. intros ->.
    rewrite written_to_app, read_from_app, E, (written_to_reads fd fd n2 Ho2), (read_from_writes fd fd n1 Ho1), app_nil_r. eauto.
  - unfold send_fail. os_call ospec_close; [by eauto with adb|]. intros a n2 e2 ->. os_step. rewrite app_nil_r.
    autorewrite with adb_simpl. rewrite O1, C1. split; [done|]. by right.
Qed.

Section client.
Context (have_symlinks : bool).

Lemma ospec_write_data_file e fd path :
  ospec e (write_data_file have_symlinks fd path false)
    (fun r new _ => balanced new /\
       (fresh_from fd new -> ~ write_failed fd new ->
          exists lfd, copied fd lfd new /\
            ((r = -1 /\ opened new = [] /\ written_to fd new = []) \/
             (r = 0 /\ opened new = [(false, lfd)] /\ ev (Open path O_RDONLY None) (Ok lfd) ∈ new /\ read_failed lfd new))))
    waits.
Proof.
  unfold write_data_file. os_call ospec_adb_open; [by intros x n [-> _]|].
  intros a n1 e1 (Hq & Ho & Hc & Ha). cbv zeta. destruct a as [lfd|err]; simpl rc_int.
  2:{ change (-1 <? 0) with true. cbv iota. os_step. rewrite app_nil_r. split; [unfold balanced; by rewrite Ho, Hc|]. intros _ _. exists 0.
      split; [exists []; rewrite (quiet_written fd n1 Hq), !(quiet_read _ n1 Hq); split_and!; [constructor|done..]|].
      left. split_and!; [done|done|by apply quiet_written]. }
  destruct Ha as [Hlfd Hfile]. rewrite (proj2 (Z.ltb_ge lfd 0)) by done. os_step.
  eapply (ospec_bind _ _ _ (fun r h _ => only neutral h /\
    (lfd <> fd -> ~ write_failed fd h -> r = 0 /\ copied fd lfd h /\ read_failed lfd h))).
  - apply (ospec_loop (fun _ h _ => only neutral h /\ (lfd <> fd -> ~ write_failed fd h -> copied fd lfd h))).
    + split; [apply only_nil|]. intros _ _. exists []. split_and!; [constructor|done..].
    + intros [] h e2 [Hn Hs]. eapply ospec_mono; [by apply (ospec_write_file_step e2 fd lfd h)| |done].
      intros [[]|r] new e3 [Hnn Hx]; [|done]. by destruct Hx.
  - intros r h e2 [Hn Hs]. os_call ospec_close; [by intros x n [-> _]|]. intros a n3 e3 ->. os_step. rewrite app_nil_r.
    destruct (neutral_opened h Hn) as [O2 C2].
    split. { unfold balanced. autorewrite with adb_simpl. by rewrite Ho, Hc, O2, C2. }
    intros Hf Hw. assert (Hd : lfd <> fd).
    { intros ->. apply Hf. rewrite opened_app, Ho. simpl. by left. }
    apply write_failed_not in Hw as [_ Hw]. apply write_failed_not in Hw as [Hw _].
    destruct (Hs Hd Hw) as (-> & (chunks & Hk & W & R & L) & Hro). exists lfd. split.
    + exists chunks. autorewrite with adb_simpl. rewrite (quiet_written fd n1 Hq), !(quiet_read _ n1 Hq), W, R, L.
      rewrite written_to_cons, !read_from_cons. cbn. rewrite !app_nil_r. done.
    + right. split_and!; [done|autorewrite with adb_simpl; by rewrite Ho, O2|set_solver|].
      apply read_failed_app. right. apply read_failed_app. by left.
Qed.

(** What a successful SEND has done. *)
Definition sent_ok (fd : Z) (lpath rpath : bytes) (mode mtime : Z) (verifyApk : bool) (h : list event) : Prop :=
  Z.of_nat (length rpath) <= 1024 /\ exists chunks size, written_to fd h = send_header rpath mode ++ frames chunks ++ msg_data ID_DONE mtime /\
    read_from fd h = msg_data ID_OKAY size /\ Forall sent_chunk chunks /\ source fd lpath chunks h /\
    (verifyApk = true -> manifest (concat chunks)).

(** The contents between the request and DONE; [h] is what was done before the
    request. *)
Definition body_ok (fd : Z) (lpath : bytes) (fb : option bytes) (chunks : list bytes) (h new : list event) : Prop :=
  Forall sent_chunk chunks /\ written_to fd h = [] /\ read_from fd h = [] /\ read_from fd new = [] /\
  written_to fd new = frames chunks /\ (is_Some fb -> manifest (concat chunks)) /\
  (forall before after, only (socket fd) before -> only (socket fd) after -> source fd lpath chunks (h ++ before ++ new ++ after)).

Lemma ospec_send_body e fd lpath mode fb h :
  S_ISREG mode = true -> match fb with None => h = [] | Some bs => apk_read lpath (inr bs) h end ->
  ospec e (match fb with
           | Some bs => write_data_buffer fd bs;; mret true
           | None =>
               if S_ISREG mode then write_data_file have_symlinks fd lpath false;; mret true
               else if is_link have_symlinks mode then write_data_link fd lpath;; mret true
               else mret false
           end)
    (fun sent new _ => sent = true /\ balanced new /\
       (fresh_from fd (h ++ new) -> ~ write_failed fd new -> exists chunks, body_ok fd lpath fb chunks h new)) waits.
Proof.
  intros Hreg Hh. destruct fb as [bs|].
  - destruct Hh as (Hbal & lfd & Hl & Ho & Hfile & Hr & Hwh & Hm). os_call ospec_write_data_buffer; [done|].
    intros r n1 e1 [Ho1 Hok]. os_step. rewrite app_nil_r. split_and!; [done|by eapply balanced_only; [apply writes_neutral|]|].
    intros Hf Hw. assert (Hne : lfd <> fd) by (intros ->; apply Hf; rewrite opened_app, Ho; by left).
    destruct (Hok Hw) as (chunks & Hk & W & Ec). exists chunks.
    split_and!; [done|by eapply local_calls_written|by eapply local_calls_read|by eapply read_from_writes|done|by rewrite Ec|].
    intros before after Hb Ha. apply (source_frame fd lpath chunks [] h (before ++ n1 ++ after)); [apply only_nil| |].
    + rewrite !only_app. split_and!; [done|by apply writes_socket|done].
    + right. exists lfd. by rewrite Ec.
  - subst h. rewrite Hreg. os_call ospec_write_data_file; [done|]. intros r n1 e1 [Hb Hok]. os_step. rewrite app_nil_r.
    split_and!; [done|done|]. intros Hf Hw. destruct (Hok Hf Hw) as (lfd & (chunks & Hk & W & R & L) & Hcase).
    exists chunks. split_and!; [done..|by intros []|]. intros before after Hb1 Ha. apply (source_frame fd lpath chunks before n1 after); [done..|].
    destruct Hcase as [(_ & O & W0)|(_ & O & Hfile & Hend)].
    + left. split; [done|]. rewrite W0 in W. by destruct chunks.
    + right. exists lfd. split_and!; [done|done| |done|by left]. intros ->. apply Hf. simpl. rewrite O. by left.
Qed.

Lemma ospec_send_load e lpath (verifyApk : bool) :
  ospec e (if verifyApk then
             x ← read_apk lpath;
             mret (match x with inl r => inl r | inr bs => inr (Some bs) end)
           else mret (inr None) : M world (Z + option bytes))
    (fun a new _ => match a with
       | inl r => r <> 0 /\ balanced new
       | inr fb => balanced new /\ (verifyApk = true -> is_Some fb) /\
           match fb with None => new = [] | Some bs => apk_read lpath (inr bs) new end
       end) (send_stops verifyApk).
Proof.
  destruct verifyApk; [|os_step; by split_and!]. os_call ospec_read_apk; [done|].
  intros x n1 e1 Hx. os_step. rewrite app_nil_r. destruct x as [r|bs].
  - by destruct Hx as (Hb & lfd & _ & Hr).
  - split_and!; [apply Hx|eauto|done].
Qed.

Lemma sent_total fd lpath rpath mode mtime verifyApk fb n1 n2 n3 n4 :
  Z.of_nat (length rpath) <= 1024 ->
  (verifyApk = true -> is_Some fb) -> only (writes fd) n2 -> written_to fd n2 = send_header rpath mode ->
  (fresh_from fd (n1 ++ n3) -> ~ write_failed fd n3 -> exists chunks, body_ok fd lpath fb chunks n1 n3) ->
  opened n4 = [] -> only (socket fd) n4 -> written_to fd n4 = msg_data ID_DONE mtime ->
  (exists size, read_from fd n4 = msg_data ID_OKAY size) ->
  fresh_from fd (n1 ++ n2 ++ n3 ++ n4) -> ~ write_failed fd (n1 ++ n2 ++ n3 ++ n4) ->
  sent_ok fd lpath rpath mode mtime verifyApk (n1 ++ n2 ++ n3 ++ n4).
Proof.
  intros Hlen Hv Ho2 W2 Hbody O4 Ho4 W4 [size R4] Hf Hw.
  assert (Hf' : fresh_from fd (n1 ++ n3)).
  { unfold fresh_from in *. rewrite !opened_app in *. set_solver. }
  apply write_failed_not in Hw as [_ Hw]. apply write_failed_not in Hw as [_ Hw]. apply write_failed_not in Hw as [Hw _].
  destruct (Hbody Hf' Hw) as (chunks & Hk & W1 & R1 & R3 & W3 & Hm & Hs). split; [done|]. exists chunks, size.
  rewrite !written_to_app, !read_from_app, W1, W2, W3, W4, R1, R3, R4, (read_from_writes fd fd n2 Ho2). cbn [app].
  split_and!; [done|done|done|apply Hs; [by apply writes_socket|done]|auto].
Qed.

(** A connection closed after a failure. *)
Lemma closed_at_end n1 m fd a :
  balanced n1 -> opened m = [] -> closed m = [] ->
  closed (n1 ++ m ++ [ev (Close fd) a]) = opened (n1 ++ m ++ [ev (Close fd) a]) ++ [(false, fd)].
Proof. intros Hb O C. rewrite !opened_app, !closed_app, O, C, Hb. by rewrite app_nil_r. Qed.

Lemma ospec_sync_send e fd lpath rpath mtime mode verifyApk :
  S_ISREG mode = true ->
  ospec e (sync_send have_symlinks fd lpath rpath mtime mode verifyApk false)
    (fun r new _ => (closed new = opened new \/ (r = -1 /\ closed new = opened new ++ [(false, fd)])) /\
       (r = 0 -> fresh_from fd new -> ~ write_failed fd new -> sent_ok fd lpath rpath mode mtime verifyApk new))
    (send_stops verifyApk).
Proof.
  intros Hreg. unfold sync_send. cbv zeta. destruct (Z.gtb_spec (Z.of_nat (length rpath)) 1024) as [_|Hlen].
  { unfold send_fail. os_call ospec_close; [by eauto with adb|]. intros a n1 e1 ->. os_step. split; [by right|done]. }
  os_call ospec_send_load; [done|]. intros a n1 e1 Ha. destruct a as [r|fb].
  { os_step. rewrite app_nil_r. destruct Ha as [Hr Hb]. split; [by left|done]. }
  destruct Ha as (Hb1 & Hv & Hload).
  set (tmp := snprintf 64 _).
  os_call ospec_writex2; [by eauto with adb|]. intros w n2 e2 [Ho2 Hw2].
  eapply (ospec_bind _ _ _ (fun w' new _ => only (writes fd) (n2 ++ new) /\
    (w' <> 0 \/ (w' = 0 /\ written_to fd (n2 ++ new) = send_header rpath mode)))).
  { destruct Hw2 as [[-> E2]|[-> _]]; simpl negb; cbv iota; [|os_step; rewrite app_nil_r; by split; [|left]].
    eapply ospec_mono; [apply ospec_writex| |by eauto with adb]. intros w' n3 e3 [Ho3 Hw3]. rewrite only_app. split; [done|].
    destruct Hw3 as [[-> E3]|[-> _]]; [right|by left]. split; [done|]. rewrite written_to_app, E2, E3. by rewrite <- app_assoc. }
  intros w' n3 e3 [Ho3 Hw3]. destruct (socket_opened fd (n2 ++ n3) ltac:(by apply writes_socket)) as [O23 C23].
  destruct Hw3 as [Hw3|[-> W23]].
  { rewrite (proj2 (Z.eqb_neq w' 0)) by done. simpl negb. cbv iota. unfold send_fail.
    os_call ospec_close; [by eauto with adb|]. intros a n4 e4 ->. os_step. rewrite app_nil_r, !(app_assoc n2).
    split; [right|done]. split; [done|]. by apply closed_at_end. }
  simpl negb. cbv iota. os_call (ospec_send_body e3 fd lpath mode fb n1 Hreg Hload); [by eauto with adb|].
  intros sent n4 e4 (-> & Hb4 & Hbody). simpl negb. cbv iota.
  eapply ospec_mono; [apply (ospec_send_end verifyApk)| |done]. intros r n5 e5 [O5 H5]. rewrite !(app_assoc n2).
  revert Ho3 W23 O23 C23. generalize (n2 ++ n3) as m. intros m Ho3 W23 O23 C23. split.
  - destruct H5 as [(C5 & _)|[-> C5]]; [left|right; split; [done|]].
    + rewrite !opened_app, !closed_app, O23, C23, O5, C5, Hb1, Hb4. done.
    + rewrite !opened_app, !closed_app, O23, C23, O5, C5, Hb1, Hb4. rewrite app_nil_r. by rewrite <- app_assoc.
  - intros -> Hf Hw. destruct H5 as [(C5 & Ho5 & H5)|[? _]]; [|done]. destruct (H5 eq_refl) as [W5 R5].
    by apply (sent_total fd lpath rpath mode mtime verifyApk fb).
Qed.
End client.

(** ** Push *)

Lemma length_digits_le base fuel n acc : (length (digits base fuel n acc) <= fuel + length acc)%nat.
Proof.
  revert n acc. induction fuel as [|fuel IH]; intros n acc; cbn [digits]; [lia|].
  destruct (_ =? 0); cbn [length]; [lia|]. specialize (IH (n / base) (digit (n mod base) :: acc)). cbn [length] in IH. lia.
Qed.

Lemma send_name_untruncated mode : 0 <= mode < 65536 -> snprintf 64 (44 :: fmt_d (s32 mode)) = 44 :: fmt_d mode.
Proof.
  intros H. assert (Es : s32 mode = mode).
  { unfold s32. rewrite u32_small by lia. destruct (Z.ltb_spec mode (2 ^ 31)); [done|lia]. }
  rewrite Es. unfold snprintf. apply take_ge. cbn [length]. unfold fmt_d, fmt_base.
  rewrite (proj2 (Z.ltb_ge mode 0)) by lia. pose proof (length_digits_le 10 (S (Z.to_nat (Z.log2 mode))) mode []) as Hl.
  assert (Z.log2 mode <= 16) by (etransitivity; [apply (Z.log2_le_mono mode 65536); lia|done]).
  cbn [length] in Hl. lia.
Qed.

Lemma le32_inj x y : le32 x = le32 y -> u32 x = u32 y.
Proof. intros E. apply (f_equal le_val) in E. by rewrite !le_val_le_bytes in E. Qed.

(** The request a client sends is the request the service reads. *)
Lemma request_received id name more id' name' more' :
  0 <= id < 2 ^ 32 -> 0 <= id' < 2 ^ 32 -> Z.of_nat (length name) < 2 ^ 32 -> Z.of_nat (length name') < 2 ^ 32 ->
  (msg_data id (Z.of_nat (length name)) ++ name) ++ more = (msg_data id' (Z.of_nat (length name')) ++ name') ++ more' ->
  id = id' /\ name = name' /\ more = more'.
Proof.
  intros Hi Hi' Hl Hl' E. rewrite <- !app_assoc in E. apply msg_header_inj in E as (-> & Eh & E); [|done..].
  apply (f_equal data_size) in Eh. rewrite !data_size_msg in Eh by lia. apply app_inj_1 in E as [-> ->]; [done|lia].
Qed.

Lemma send_name_length mode : 0 <= mode < 65536 -> Z.of_nat (length (fmt_d mode)) < 63.
Proof.
  intros H. unfold fmt_d, fmt_base. rewrite (proj2 (Z.ltb_ge mode 0)) by lia.
  pose proof (length_digits_le 10 (S (Z.to_nat (Z.log2 mode))) mode []) as Hl.
  assert (Z.log2 mode <= 16) by (etransitivity; [apply (Z.log2_le_mono mode 65536); lia|done]).
  cbn [length] in Hl. lia.
Qed.

Lemma send_header_text rpath mode : 0 <= mode < 65536 ->
  send_header rpath mode = msg_data ID_SEND (Z.of_nat (length (rpath ++ 44 :: fmt_d mode))) ++ rpath ++ 44 :: fmt_d mode.
Proof. intros H. unfold send_header. rewrite send_name_untruncated by done. do 2 f_equal. rewrite length_app. lia. Qed.

(** A SEND that was answered by OKAY alone, seen from the service. *)
Definition stored (s : Z) (path : bytes) (owner : Z * Z * Z) (bs : bytes) (ts : Z) (h : list event) : Prop :=
  let '(uid, gid, mode) := owner in
  exists fd, opened h = [(false, fd)] /\ opened_as path mode fd h /\ prepared fd uid gid mode h /\
    written_to fd h = bs /\ okay_sent path ts h.

Lemma stored_after s path owner bs ts h1 h2 :
  (forall fd, written_to fd h1 = []) -> opened h1 = [] -> stored s path owner bs ts h2 -> stored s path owner bs ts (h1 ++ h2).
Proof.
  intros W1 O1. destruct owner as [[uid gid] mode]. intros (fd & O & (flags & Ho & Hf) & Hp & W & a & Ha). exists fd.
  rewrite opened_app, written_to_app, O1, W1. split_and!; [done| | |done|].
  - exists flags. split; [set_solver|done].
  - rewrite <- (app_nil_r h2). by apply prepared_app.
  - exists a. set_solver.
Qed.

(** OKAY is not the end of anything that ends in FAIL. *)
Lemma okay_not_fail size pre r : msg_data ID_OKAY size <> pre ++ fail_frame r.
Proof.
  intros E. assert (pre = []) as ->.
  { apply (f_equal length) in E. unfold fail_frame in E. rewrite !length_app, !length_msg_data in E.
    destruct pre; [done|]. cbn [length] in E. lia. }
  unfold fail_frame in E. rewrite <- (app_nil_r (msg_data ID_OKAY size)) in E. cbn [app] in E.
  by apply msg_header_inj in E as (? & _).
Qed.

Lemma send_success_stored s path owner h chunks mtime size :
  send_success s path owner h -> Forall chunk_ok chunks ->
  read_from s h = frames chunks ++ msg_data ID_DONE mtime -> written_to s h = msg_data ID_OKAY size ->
  stored s path owner (concat chunks) (u32 mtime) h.
Proof.
  destruct owner as [[uid gid] mode]. intros (chunks' & ts & pre & Hr & Hk' & Hts & Hres) Hk Hr' Hw.
  rewrite Hr' in Hr. assert (Ec : chunks = chunks').
  { rewrite <- (app_nil_r (msg_data ID_DONE ts)), <- (app_nil_r (msg_data ID_DONE mtime)) in Hr. by apply frames_inj in Hr as (-> & _). }
  subst chunks'. apply app_inv_head, app_inv_head, le32_inj in Hr. rewrite (u32_small ts) in Hr by lia. rewrite Hr.
  destruct Hres as [(fd & O & Ho & Hp & _ & W & Hu)|[r E]]; [by exists fd|]. rewrite Hw in E. by apply okay_not_fail in E.
Qed.


(** ** Pull *)

(** The DATA messages of a pull as the client reads them: the announced size is
    an [int], and nothing is read for one that is not positive. *)
Definition item_ok (x : Z * bytes) : Prop :=
  0 <= x.1 < 2 ^ 32 /\ Z.of_nat (length x.2) = Z.max 0 (s32 x.1) /\ s32 x.1 <= SYNC_DATA_MAX.

Definition item_bytes (x : Z * bytes) : bytes := msg_data ID_DATA x.1 ++ x.2.

Lemma items_frames items chunks id size rest id' size' rest' :
  Forall item_ok items -> Forall chunk_ok chunks ->
  0 <= id < 2 ^ 32 -> 0 <= id' < 2 ^ 32 -> id <> ID_DATA -> id' <> ID_DATA ->
  (items ≫= item_bytes) ++ msg_data id size ++ rest = frames chunks ++ msg_data id' size' ++ rest' ->
  items.*2 = chunks /\ id = id' /\ rest = rest'.
Proof.
  intros Hi Hc Hid Hid' Hne Hne'. revert chunks Hc.
  induction Hi as [|[n d] items (Hn & Hl & Hm) _ IH]; intros [|c chunks] Hc E.
  - apply msg_header_inj in E as (-> & _ & ->); [done..].
  - simpl in E. unfold data_frame in E. rewrite <- !app_assoc in E. by apply msg_header_inj in E as (? & _).
  - simpl in E. unfold item_bytes in E. rewrite <- !app_assoc in E. by apply msg_header_inj in E as (? & _).
  - apply Forall_cons in Hc as [Hck Hc]. rewrite bind_cons in E.
    change (frames (c :: chunks)) with (data_frame c ++ frames chunks) in E.
    change (item_bytes (n, d)) with (msg_data ID_DATA n ++ d) in E. unfold data_frame at 1 in E. cbn [fst snd] in *.
    rewrite <- !app_assoc in E. apply msg_header_inj in E as (_ & Eh & E); [|done..].
    apply (f_equal data_size) in Eh. unfold chunk_ok, SYNC_DATA_MAX in *. rewrite !data_size_msg in Eh by lia. subst n.
    assert (Es : s32 (Z.of_nat (length c)) = Z.of_nat (length c)).
    { unfold s32. rewrite u32_small by lia. destruct (Z.ltb_spec (Z.of_nat (length c)) (2 ^ 31)); [done|lia]. }
    rewrite Es in Hl. apply app_inj_1 in E as [-> E]; [|lia]. apply IH in E as (<- & -> & ->); [|done]. done.
Qed.

(** The calls of the client outside the connection and the file. *)
Lemma readx_nonpos fd len w : len <= 0 -> readx fd len w = (Done (Some []), w).
Proof.
  intros H. unfold readx, loop. cbn [loop_fuel]. unfold mbind, M_bind. rewrite (proj2 (Z.leb_le len 0)) by done. done.
Qed.

(** [readx] with any [int] that the buffer has room for. *)
Lemma ospec_readx_int e size fd len :
  len <= size ->
  ospec e (readx_into size fd len)
    (fun r new _ => only (reads fd) new /\
       match r with
       | Some bs => read_from fd new = bs /\ Z.of_nat (length bs) = Z.max 0 len /\ Forall is_byte bs
       | None => 0 < len
       end) waits.
Proof.
  intros Hle. rewrite readx_into_fits by done. destruct (Z.leb_spec len 0).
  - intros w Hp He. unfold wp. rewrite readx_nonpos by done. exists []. split; [apply steps_refl|].
    split_and!; [apply only_nil|done|simpl; lia|constructor].
  - eapply ospec_mono; [apply ospec_readx; lia| |by intros x new [-> _]].
    intros [bs|] new e' [Ho Hr]; [|split; [done|lia]]. destruct Hr as (? & ? & ?). split_and!; [done|done|lia|done].
Qed.

(** Where a pull can stop. *)
Definition recv_stops (x : stop) (_ : list event) : Prop :=
  x = Blocked \/ x = Undef "write before the buffer" \/ x = Undef "strcpy beyond strFilePath" \/ x = Abort "std::out_of_range".

Lemma waits_recv_stops x h h' : waits x h -> recv_stops x h'.
Proof. by left. Qed.

Lemma blocked_recv_stops B x h h' : blocked B x h -> recv_stops x h'.
Proof. intros [-> _]. by left. Qed.

#[export] Hint Resolve waits_recv_stops blocked_recv_stops : adb.

(** The file has been removed and the rest of the connection is not data. *)
Definition removed (lpath : bytes) (h : list event) : Prop := exists a, ev (Unlink lpath) a ∈ h.

Lemma ospec_remote_error e fd lfd lpath id size :
  ospec e (remote_error fd lfd lpath id size)
    (fun r new _ => (r = 0 \/ r = -1) /\ closed new = [(false, lfd)] /\ opened new = [] /\ written_to fd new = [] /\ removed lpath new)
    recv_stops.
Proof.
  unfold remote_error. os_call ospec_close; [by eauto with adb|]. intros a n1 e1 ->.
  unfold adb_unlink. os_call (ospec_one inert e1 (Unlink lpath)); [done|by eauto with adb|]. intros u n2 e2 (-> & _).
  destruct (id =? ID_FAIL).
  - set (len := if _ >? 256 then 256 else _). os_call ospec_readx_int; [unfold len, SYNC_DATA_MAX; destruct (Z.gtb_spec (s32 size) 256); lia|by eauto with adb|]. intros b n3 e3 [Ho3 _].
    destruct (neutral_opened n3 (only_mono _ _ _ Ho3 (reads_neutral fd))) as [O3 C3].
    assert (Hpost : forall r, r = 0 \/ r = -1 -> (r = 0 \/ r = -1) /\ closed ([ev (Close lfd) a] ++ [ev (Unlink lpath) u] ++ n3) = [(false, lfd)] /\
      opened ([ev (Close lfd) a] ++ [ev (Unlink lpath) u] ++ n3) = [] /\ written_to fd ([ev (Close lfd) a] ++ [ev (Unlink lpath) u] ++ n3) = [] /\
      removed lpath ([ev (Close lfd) a] ++ [ev (Unlink lpath) u] ++ n3)).
    { intros r Hr. rewrite !closed_app, !opened_app, !written_to_app, O3, C3, (written_to_reads fd fd n3 Ho3).
      split_and!; [done..|]. exists u. set_solver. }
    destruct b as [bs|]; [|os_step; rewrite app_nil_r; apply Hpost; by right].
    destruct (len <? 0); [apply ospec_stop; right; by left|]. os_step. rewrite app_nil_r. apply Hpost. by left.
  - os_step. rewrite app_nil_r. split_and!; [by left|done..|]. exists u. set_solver.
Qed.

Definition header_ok (msg : bytes) : Prop := Z.of_nat (length msg) = 8 /\ Forall is_byte msg.

(** The pull after the calls [h] of its loop, which began with the message
    [msg0] and has read [msg] last. *)
Definition recv_now (fd lfd : Z) (msg0 msg : bytes) (h : list event) : Prop :=
  header_ok msg /\ opened h = [] /\ closed h = [] /\
  (lfd <> fd -> written_to fd h = [] /\ exists items, Forall item_ok items /\
     msg0 ++ read_from fd h = (items ≫= item_bytes) ++ msg /\ written_to lfd h = concat items.*2).

(** How a pull ends. *)
Definition recv_end (fd lfd : Z) (lpath msg0 : bytes) (h : list event) : Prop :=
  written_to fd h = [] /\ exists items id size rest, Forall item_ok items /\ 0 <= id < 2 ^ 32 /\ id <> ID_DATA /\
    msg0 ++ read_from fd h = (items ≫= item_bytes) ++ msg_data id size ++ rest /\
    ((id = ID_DONE /\ rest = [] /\ written_to lfd h = concat items.*2) \/ (id <> ID_DONE /\ removed lpath h)).

Definition recv_post (fd lfd : Z) (lpath msg0 : bytes) (r : Z) (h : list event) : Prop :=
  (r = 0 \/ r = -1) /\ opened h = [] /\ (closed h = [(false, lfd)] \/ (r = -1 /\ closed h = [])) /\
  (r = 0 -> lfd <> fd -> recv_end fd lfd lpath msg0 h).

(** Giving up with the file closed. *)
Lemma ospec_recv_give_up {L} e fd lfd lpath msg0 h :
  opened h = [] -> closed h = [] ->
  ospec e (adb_close lfd;; mret (inr (-1)) : M world (L + Z))
    (fun x new _ => match x with inl _ => False | inr r => recv_post fd lfd lpath msg0 r (h ++ new) end) waits.
Proof.
  intros O C. os_call ospec_close; [by intros x n [-> _]|]. intros a n e1 ->. os_step. rewrite app_nil_r.
  unfold recv_post. rewrite opened_app, closed_app, O, C. split_and!; [by right|done|by left|done].
Qed.

(** A DATA message has been read and stored. *)
Lemma recv_now_data fd lfd msg0 msg msg' bs h n1 n2 n3 :
  recv_now fd lfd msg0 msg h -> data_id msg = ID_DATA -> s32 (data_size msg) <= SYNC_DATA_MAX ->
  only (reads fd) n1 -> read_from fd n1 = bs -> Z.of_nat (length bs) = Z.max 0 (s32 (data_size msg)) ->
  only (writes lfd) n2 -> written_to lfd n2 = bs ->
  only (reads fd) n3 -> read_from fd n3 = msg' -> header_ok msg' ->
  recv_now fd lfd msg0 msg' (h ++ n1 ++ n2 ++ n3).
Proof.
  intros ([Hl Hb] & O & C & Hs) Hid Hmax Ho1 R1 Hlen Ho2 W2 Ho3 R3 Hm'.
  destruct (neutral_opened n1 (only_mono _ _ _ Ho1 (reads_neutral fd))) as [O1 C1].
  destruct (neutral_opened n2 (only_mono _ _ _ Ho2 (writes_neutral lfd))) as [O2 C2].
  destruct (neutral_opened n3 (only_mono _ _ _ Ho3 (reads_neutral fd))) as [O3 C3].
  split; [done|]. rewrite !opened_app, !closed_app, O, O1, O2, O3, C, C1, C2, C3. split_and!; [done..|].
  intros Hne. destruct (Hs Hne) as (Wf & items & Hi & E & W). split.
  { by rewrite !written_to_app, Wf, (written_to_reads fd fd n1 Ho1), (written_to_reads fd fd n3 Ho3), (written_to_writes_ne lfd fd n2 Ho2 Hne). }
  exists (items ++ [(data_size msg, bs)]). split_and!.
  - apply Forall_app. split; [done|]. constructor; [|constructor]. split; [by apply data_size_range|done].
  - rewrite !read_from_app, R1, R3, (read_from_writes lfd fd n2 Ho2), app_assoc, E, bind_app.
    cbn [mbind list_bind app]. unfold item_bytes at 3. cbn [fst snd]. rewrite <- Hid, <- (msg_data_decode msg Hl Hb).
    by rewrite app_nil_r, <- !app_assoc.
  - rewrite !written_to_app, W, W2, (written_to_reads fd lfd n1 Ho1), (written_to_reads fd lfd n3 Ho3), fmap_app, concat_app.
    cbn. by rewrite !app_nil_r.
Qed.

Lemma ospec_recv_data_step e fd lfd lpath msg0 msg h :
  recv_now fd lfd msg0 msg h ->
  ospec e (recv_data_step fd lfd lpath msg)
    (fun x new _ => match x with
       | inl msg' => new <> [] /\ recv_now fd lfd msg0 msg' (h ++ new)
       | inr r => recv_post fd lfd lpath msg0 r (h ++ new)
       end) recv_stops.
Proof.
  intros Hnow. pose proof Hnow as ([Hl Hb] & O & C & Hs). unfold recv_data_step. cbv zeta.
  destruct (Z.eqb_spec (data_id msg) ID_DONE) as [Hdone|Hndone].
  { os_call ospec_close; [by eauto with adb|]. intros a n1 e1 ->. os_step. rewrite app_nil_r. unfold recv_post.
    rewrite opened_app, closed_app, O, C. split_and!; [by left|done|by left|]. intros _ Hne.
    destruct (Hs Hne) as (Wf & items & Hi & E & W). unfold recv_end. rewrite !written_to_app, read_from_app, Wf, W.
    split; [done|]. exists items, ID_DONE, (data_size msg), [].
    assert (Em : msg_data ID_DONE (data_size msg) = msg) by (rewrite <- Hdone; symmetry; by apply msg_data_decode). rewrite Em.
    change (read_from fd [ev (Close lfd) a]) with (@nil Z). change (written_to lfd [ev (Close lfd) a]) with (@nil Z).
    rewrite !app_nil_r, E. split_and!; [done..|]. left. by split_and!. }
  destruct (Z.eqb_spec (data_id msg) ID_DATA) as [Hdata|Hndata]; simpl negb; cbv iota.
  2:{ os_call ospec_remote_error; [done|]. intros r n1 e1 (Hr & C1 & O1 & W1 & Hrm). os_step. rewrite app_nil_r. unfold recv_post.
      rewrite opened_app, closed_app, O, C, O1, C1. split_and!; [done|done|by left|]. intros -> Hne.
      destruct (Hs Hne) as (Wf & items & Hi & E & W). unfold recv_end. rewrite written_to_app, Wf, W1. split; [done|].
      exists items, (data_id msg), (data_size msg), (read_from fd n1). rewrite <- (msg_data_decode msg Hl Hb), read_from_app, app_assoc, E.
      split_and!; [done|by apply data_id_range..|done|by rewrite <- app_assoc|]. right. split; [done|].
      destruct Hrm as [a Ha]. exists a. set_solver. }
  destruct (Z.gtb_spec (s32 (data_size msg)) SYNC_DATA_MAX) as [|Hmax].
  { eapply ospec_mono; [by apply (ospec_recv_give_up e fd lfd lpath msg0 h)| |by eauto with adb]. by intros [?|r] new e1 Hx. }
  os_call ospec_readx_int; [done|by eauto with adb|]. intros b n1 e1 [Ho1 Hr1].
  destruct (neutral_opened n1 (only_mono _ _ _ Ho1 (reads_neutral fd))) as [O1 C1].
  destruct b as [bs|].
  2:{ eapply ospec_mono; [apply (ospec_recv_give_up e1 fd lfd lpath msg0 (h ++ n1)); by rewrite ?opened_app, ?closed_app, ?O, ?C, ?O1, ?C1| |by eauto with adb].
      intros [?|r] new e2 Hx; [done|]. by rewrite <- app_assoc in Hx. }
  destruct Hr1 as (R1 & Hlen & _). os_call ospec_writex; [by eauto with adb|]. intros w n2 e2 [Ho2 Hw2].
  destruct (neutral_opened n2 (only_mono _ _ _ Ho2 (writes_neutral lfd))) as [O2 C2].
  destruct Hw2 as [[-> W2]|[-> _]]; simpl negb; cbv iota.
  2:{ eapply ospec_mono; [apply (ospec_recv_give_up e2 fd lfd lpath msg0 (h ++ n1 ++ n2)); by rewrite ?opened_app, ?closed_app, ?O, ?C, ?O1, ?C1, ?O2, ?C2| |by eauto with adb].
      intros [?|r] new e3 Hx; [done|]. by rewrite <- !app_assoc in Hx. }
  os_call ospec_readx; [lia|by eauto with adb|]. intros m n3 e3 [Ho3 Hr3]. os_step. rewrite app_nil_r.
  destruct m as [msg'|].
  - destruct Hr3 as (R3 & Hl3 & Hb3). split.
    + intros En. apply app_eq_nil in En as [_ En]. apply app_eq_nil in En as [_ ->].
      rewrite <- R3 in Hl3. simpl in Hl3. lia.
    + by eapply (recv_now_data fd lfd msg0 msg msg' bs).
  - destruct (neutral_opened n3 (only_mono _ _ _ Ho3 (reads_neutral fd))) as [O3 C3]. unfold recv_post.
    rewrite !opened_app, !closed_app, O, O1, O2, O3, C, C1, C2, C3. split_and!; [by right|done|by right|done].
Qed.

Lemma ospec_recv_data e fd lfd lpath msg :
  header_ok msg -> ospec e (recv_data fd lfd lpath msg) (fun r new _ => recv_post fd lfd lpath msg r new) recv_stops.
Proof.
  intros Hm. unfold recv_data. apply (ospec_loop (fun m h _ => recv_now fd lfd msg m h)).
  - split_and!; [done..|]. intros _. split; [done|]. exists []. split_and!; [constructor| |done]. by rewrite app_nil_r.
  - intros m h e1 Hnow. eapply ospec_mono; [by apply (ospec_recv_data_step e1 fd lfd lpath msg m h)|done|done].
Qed.

Lemma ospec_adb_creat e path mode :
  ospec e (adb_creat path mode)
    (fun a new _ => only quiet new /\ opened new = open_result a /\ closed new = [] /\
       match a with Ok fd => 0 <= fd /\ ev (Creat path mode) (Ok fd) ∈ new | Err _ => True end) waits.
Proof.
  unfold adb_creat. eapply (ospec_seq _ _ _ (fun a new _ => only quiet new /\ opened new = open_result a /\ closed new = [] /\
     match a with Ok fd => 0 <= fd /\ ev (Creat path mode) (Ok fd) ∈ new | Err _ => True end) waits).
  - assert (Hr : forall n, opened (replicate n (eintr (Creat path mode))) = [] /\ closed (replicate n (eintr (Creat path mode))) = []).
    { intros n. induction n as [|n [IH1 IH2]]; [done|]. simpl. by rewrite opened_cons, closed_cons, IH1, IH2. }
    apply (ospec_retry e (Creat path mode)); [|done]. intros a n Ha Hne. destruct (Hr n) as [E1 E2]. rewrite opened_app, closed_app, E1, E2.
    split_and!; [by apply only_retry|by destruct a|done|]. destruct a; [|done]. split; [done|]. set_solver.
  - done.
  - intros a n1 e1 (Hq & Ho & Hc & Ha). destruct a as [fd|err].
    + destruct Ha as [Hfd Hin]. rewrite (proj2 (Z.ltb_ge fd 0)) by done. unfold close_on_exec. os_step.
      os_call (ospec_one quiet e1 (Setfd fd FD_CLOEXEC)); [done|by intros x n [-> _]|].
      intros r n2 e2 (-> & _ & Hq2 & _). os_step. os_step. rewrite !app_nil_r, only_app, opened_app, closed_app, Ho, Hc.
      split_and!; [done..|]. set_solver.
    + os_step. by rewrite app_nil_r.
Qed.

(** The directories: nothing is opened or transferred. *)
Lemma ospec_client_mkdirs e name :
  ospec e (SyncClient.mkdirs name) (fun r new _ => r = 0 /\ only inert new) recv_stops.
Proof.
  unfold SyncClient.mkdirs. destruct (260 <? _)%nat; [apply ospec_stop; right; right; by left|].
  apply (ospec_loop (fun _ h _ => only inert h)); [apply only_nil|]. intros x h e1 Hh. cbv zeta.
  set (dir := match _ with Some i => _ | None => _ end).
  os_call (ospec_one inert e1 (Access dir)); [done|by eauto with adb|]. intros a n1 e2 (-> & _ & Hn1 & _).
  eapply (ospec_bind _ _ _ (fun _ new _ => only inert new)).
  - destruct a; [os_step; apply only_nil|]. os_call (ospec_one inert e2 (Mkdir dir 511)); [done|by eauto with adb|].
    intros m n2 e3 (-> & _ & Hn2 & _). os_step. by rewrite app_nil_r.
  - intros ok n2 e3 Hn2. assert (Hall : only inert (h ++ [ev (Access dir) a] ++ n2)) by (rewrite !only_app; by split_and!).
    destruct ok; simpl negb; cbv iota; os_step; rewrite app_nil_r; [|by split].
    destruct (strchr 47 (drop x name)); [|by split]. split; [by destruct n2|done].
Qed.

(** What a pull that returns 0 has done. *)
Definition recv_ok (fd : Z) (rpath lpath : bytes) (h : list event) : Prop :=
  Z.of_nat (length rpath) <= 1024 /\
  written_to fd h = msg_data ID_RECV (Z.of_nat (length rpath)) ++ rpath /\
  exists items id size rest, Forall item_ok items /\ 0 <= id < 2 ^ 32 /\ id <> ID_DATA /\
    read_from fd h = (items ≫= item_bytes) ++ msg_data id size ++ rest /\
    ((id = ID_DONE /\ rest = [] /\ exists lfd, opened h = [(false, lfd)] /\ closed h = [(false, lfd)] /\
        ev (Creat lpath 420) (Ok lfd) ∈ h /\ written_to lfd h = concat items.*2) \/
     (id <> ID_DONE /\ removed lpath h)).

Lemma recv_total fd lfd rpath lpath msg n1 n2 n3 n4 :
  Z.of_nat (length rpath) <= 1024 ->
  only (writes fd) n1 -> written_to fd n1 = msg_data ID_RECV (Z.of_nat (length rpath)) ++ rpath ->
  only (reads fd) n2 -> read_from fd n2 = msg -> only quiet n3 -> opened n3 = [(false, lfd)] -> closed n3 = [] ->
  ev (Creat lpath 420) (Ok lfd) ∈ n3 -> recv_post fd lfd lpath msg 0 n4 ->
  fresh_from fd (n1 ++ n2 ++ n3 ++ n4) -> recv_ok fd rpath lpath (n1 ++ n2 ++ n3 ++ n4).
Proof.
  intros Hlen Ho1 W1 Ho2 R2 Hq3 O3 C3 Hin (_ & O4 & C4 & Hend) Hf.
  destruct (neutral_opened n1 (only_mono _ _ _ Ho1 (writes_neutral fd))) as [O1 C1].
  destruct (neutral_opened n2 (only_mono _ _ _ Ho2 (reads_neutral fd))) as [O2 C2].
  assert (Hne : lfd <> fd). { intros ->. apply Hf. rewrite !opened_app, O3. set_solver. }
  destruct (Hend eq_refl Hne) as (W4 & items & id & size & rest & Hi & [Hid1 Hid2] & Hnd & E & Hcase). split; [done|]. split.
  { rewrite !written_to_app, W1, W4, (written_to_reads fd fd n2 Ho2), (quiet_written fd n3 Hq3), !app_nil_r. done. }
  exists items, id, size, rest. rewrite !read_from_app, R2, (read_from_writes fd fd n1 Ho1), (quiet_read fd n3 Hq3).
  split_and!; [done..|]. destruct Hcase as [(-> & -> & Wl)|[Hnd2 [a Ha]]]; [left|right].
  - split_and!; [done..|]. exists lfd. rewrite !opened_app, !closed_app, O1, O2, O3, O4, C1, C2, C3. destruct C4 as [->|[? _]]; [|done].
    split_and!; [done|done|set_solver|]. rewrite !written_to_app, Wl, (written_to_writes_ne fd lfd n1 Ho1 ltac:(done)).
    by rewrite (written_to_reads fd lfd n2 Ho2), (quiet_written lfd n3 Hq3).
  - split; [done|]. exists a. set_solver.
Qed.

Section pull.
Context (MultiByteToWideChar : Z -> bytes -> list Z) (WideCharToMultiByte : Z -> list Z -> bytes).

Lemma ospec_local_dir e lpath :
  ospec e (local_dir MultiByteToWideChar WideCharToMultiByte lpath) (fun _ new _ => new = []) recv_stops.
Proof.
  unfold local_dir. destruct (_ <? 2)%nat; [apply ospec_stop; right; right; by right|]. by os_step.
Qed.

Lemma ospec_sync_recv e fd rpath lpath :
  ospec e (sync_recv MultiByteToWideChar WideCharToMultiByte fd rpath lpath false)
    (fun r new _ => (r = 0 \/ r = -1) /\ (r = 0 -> fresh_from fd new -> recv_ok fd rpath lpath new)) recv_stops.
Proof.
  unfold sync_recv. destruct (Z.gtb_spec (Z.of_nat (length rpath)) 1024) as [_|Hlen]; [os_step; split; [by right|done]|]. os_step. simpl negb. cbv iota.
  unfold send_req. os_call ospec_writex2; [by eauto with adb|]. intros w n1 e1 [Ho1 Hw1].
  destruct Hw1 as [[-> W1]|[-> _]]; simpl negb; cbv iota; [|os_step; split; [by right|done]].
  os_call ospec_readx; [lia|by eauto with adb|]. intros m n2 e2 [Ho2 Hr2].
  destruct m as [msg|]; [|os_step; split; [by right|done]]. destruct Hr2 as (R2 & Hl & Hb).
  destruct (_ || _) eqn:Eid.
  - unfold adb_unlink. os_call (ospec_one quiet e2 (Unlink lpath)); [done|by eauto with adb|]. intros u n3 e3 (-> & _ & Hq3 & _).
    os_call ospec_local_dir; [done|]. intros dir n4 e4 ->. os_call ospec_client_mkdirs; [done|]. intros r n5 e5 [_ Hi5].
    os_call ospec_adb_creat; [by eauto with adb|]. intros a n6 e6 (Hq6 & O6 & C6 & Ha). cbv zeta.
    destruct a as [lfd|err]; simpl rc_int.
    2:{ change (-1 <? 0) with true. cbv iota. os_step. split; [by right|done]. }
    destruct Ha as [Hlfd Hin]. rewrite (proj2 (Z.ltb_ge lfd 0)) by done.
    eapply ospec_mono; [by apply (ospec_recv_data e6 fd lfd lpath msg)| |done]. intros r' n7 e7 Hpost.
    split; [by destruct Hpost|]. intros -> Hf. cbn [app] in *.
    destruct (neutral_opened n5 (only_mono _ _ _ Hi5 inert_neutral)) as [O5 C5].
    pose proof (recv_total fd lfd rpath lpath msg n1 n2 (ev (Unlink lpath) u :: n5 ++ n6) n7) as Ht.
    rewrite <- app_comm_cons, <- app_assoc in Ht. apply Ht; try done.
    + apply Forall_cons. split; [done|]. apply only_app. split; [by apply inert_only_quiet|done].
    + rewrite opened_cons, opened_app, O5, O6. done.
    + rewrite closed_cons, closed_app, C5, C6. done.
    + set_solver.
  - apply orb_false_iff in Eid as [Hn1%Z.eqb_neq Hn2%Z.eqb_neq].
    eapply ospec_mono; [apply ospec_remote_error| |done].
    intros r n3 e3 (Hr & C3 & O3 & W3 & Hrm). split; [done|]. intros -> Hf. split; [done|]. split.
    { by rewrite !written_to_app, W1, W3, (written_to_reads fd fd n2 Ho2), !app_nil_r. }
    exists [], (data_id msg), (data_size msg), (read_from fd n3).
    rewrite <- (msg_data_decode msg Hl Hb), !read_from_app, R2, (read_from_writes fd fd n1 Ho1).
    split_and!; [constructor|by apply data_id_range..|done|done|]. right. split; [done|]. destruct Hrm as [a Ha]. exists a. set_solver.
Qed.
End pull.


(** ** Listing *)

Lemma field_bytes i bs : (4 * i + 4 <= length bs)%nat -> Forall is_byte bs -> le32 (field i bs) = take 4 (drop (4 * i) bs).
Proof.
  intros Hl Hb. unfold field. set (x := take 4 (drop (4 * i) bs)).
  assert (Hx : length x = 4%nat) by (unfold x; rewrite length_take, length_drop; lia).
  rewrite <- Hx at 1. apply le_bytes_le_val. unfold x. by apply Forall_take, Forall_drop.
Qed.

Lemma field_range i bs : Forall is_byte bs -> 0 <= field i bs < 2 ^ 32.
Proof.
  intros Hb. unfold field. pose proof (le_val_range (take 4 (drop (4 * i) bs)) (Forall_take _ _ _ (Forall_drop _ _ _ Hb))) as H.
  split; [lia|]. eapply Z.lt_le_trans; [apply H|]. change (2 ^ 32) with (256 ^ 4). apply Z.pow_le_mono_r; [lia|].
  rewrite length_take. lia.
Qed.

(** A directory entry as the client reads it. *)
Lemma dent_decode bs : Z.of_nat (length bs) = 20 -> Forall is_byte bs ->
  bs = msg_dent (field 0 bs) (field 1 bs) (field 2 bs) (field 3 bs) (field 4 bs).
Proof.
  intros Hl Hb. unfold msg_dent. rewrite !field_bytes by (lia || done). cbn [Nat.mul Nat.add].
  rewrite <- (take_drop 4 bs) at 1. f_equal.
  rewrite <- (take_drop 4 (drop 4 bs)) at 1. f_equal; rewrite drop_drop.
  rewrite <- (take_drop 4 (drop (4 + 4) bs)) at 1. f_equal; rewrite drop_drop.
  rewrite <- (take_drop 4 (drop (4 + 4 + 4) bs)) at 1. f_equal; rewrite drop_drop.
  symmetry. apply take_ge. rewrite length_drop. lia.
Qed.

Lemma msg_dent_inj i m s t n i' m' s' t' n' rest rest' :
  msg_dent i m s t n ++ rest = msg_dent i' m' s' t' n' ++ rest' ->
  u32 i = u32 i' /\ u32 m = u32 m' /\ u32 s = u32 s' /\ u32 t = u32 t' /\ u32 n = u32 n' /\ rest = rest'.
Proof.
  unfold msg_dent. rewrite <- !app_assoc. intros E.
  repeat (apply app_inj_1 in E as [?%le32_inj E]; [|by rewrite !length_le_bytes]). by split_and!.
Qed.

(** An entry: mode, size, time and name. *)
Definition entry : Type := Z * Z * Z * bytes.

Definition dent_bytes (x : entry) : bytes :=
  let '(m, s, t, name) := x in msg_dent ID_DENT m s t (Z.of_nat (length name)) ++ name.

Definition entry_ok (x : entry) : Prop :=
  let '(m, s, t, name) := x in 0 <= m < 2 ^ 32 /\ 0 <= s < 2 ^ 32 /\ 0 <= t < 2 ^ 32 /\ Z.of_nat (length name) <= 256.

(** What the callback is told: the name is a C string. *)
Definition told (x : entry) : entry := let '(m, s, t, name) := x in (m, s, t, cstr name).

(** A callback that collects what it is told. *)
Definition collect (m s t : Z) (name : bytes) (l : list entry) : M world (list entry) := mret (l ++ [(m, s, t, name)]).

(** The listing after the calls [h] of the loop. *)
Definition ls_now (fd : Z) (l : list entry) (h : list event) : Prop :=
  only (reads fd) h /\ exists items, Forall entry_ok items /\ read_from fd h = items ≫= dent_bytes /\ l = told <$> items.

Definition ls_done (fd : Z) (l : list entry) (h : list event) : Prop :=
  exists items m s t n, Forall entry_ok items /\ l = told <$> items /\
    read_from fd h = (items ≫= dent_bytes) ++ msg_dent ID_DONE m s t n.

Lemma ospec_sync_ls_step e fd l h :
  ls_now fd l h ->
  ospec e (sync_ls_step fd collect l)
    (fun x new _ => only (reads fd) (h ++ new) /\
       match x with
       | inl l' => new <> [] /\ ls_now fd l' (h ++ new)
       | inr (ok, l') => ok = true -> ls_done fd l' (h ++ new)
       end) recv_stops.
Proof.
  intros (Ho & items & Hi & R & ->). unfold sync_ls_step. os_call ospec_readx; [lia|by eauto with adb|].
  intros [msg|] n1 e1 [Ho1 Hr1]; [|os_step; rewrite app_nil_r, only_app; by split].
  destruct Hr1 as (R1 & Hl & Hb). destruct (Z.eqb_spec (field 0 msg) ID_DONE) as [Ed|_].
  { os_step. rewrite app_nil_r, only_app. split; [done|]. intros _.
    exists items, (field 1 msg), (field 2 msg), (field 3 msg), (field 4 msg). rewrite read_from_app, R, R1, <- Ed, <- dent_decode by done. done. }
  destruct (Z.eqb_spec (field 0 msg) ID_DENT) as [Ed|_]; simpl negb; cbv iota;
    [|os_step; rewrite app_nil_r, only_app; by split].
  cbv zeta. destruct (Z.gtb_spec (s32 (field 4 msg)) 256) as [|Hmax]; [os_step; rewrite app_nil_r, only_app; by split|].
  os_call ospec_readx_int; [lia|by eauto with adb|]. intros [name|] n2 e2 [Ho2 Hr2]; [|os_step; rewrite app_nil_r, !only_app; by split].
  destruct Hr2 as (R2 & Hlen & _). destruct (Z.ltb_spec (s32 (field 4 msg)) 0) as [|Hpos]; [apply ospec_stop; right; by left|].
  unfold collect. os_step. os_step. rewrite app_nil_r, !only_app. split; [done|]. split.
  { intros En. apply app_eq_nil in En as [-> _]. rewrite <- R1 in Hl. simpl in Hl. lia. }
  assert (E4 : field 4 msg = Z.of_nat (length name)).
  { pose proof (field_range 4 msg Hb). revert Hmax Hpos Hlen. unfold s32. rewrite u32_small by lia.
    destruct (Z.ltb_spec (field 4 msg) (2 ^ 31)); lia. }
  split; [by rewrite !only_app|]. exists (items ++ [(field 1 msg, field 2 msg, field 3 msg, name)]). split_and!.
  - apply Forall_app. split; [done|]. constructor; [|constructor]. split_and!; try by apply field_range. lia.
  - rewrite !read_from_app, R, R1, R2, bind_app. cbn [mbind list_bind dent_bytes app]. rewrite <- E4, <- Ed, <- dent_decode by done.
    by rewrite app_nil_r.
  - by rewrite fmap_app.
Qed.

Lemma ospec_sync_ls e fd path :
  ospec e (sync_ls fd path collect [])
    (fun '(r, l) new _ => opened new = [] /\ (r = 0 \/ r = -1) /\
       (r = 0 -> closed new = [] /\ written_to fd new = msg_data ID_LIST (Z.of_nat (length path)) ++ path /\ ls_done fd l new) /\
       (r = -1 -> closed new = [(false, fd)])) recv_stops.
Proof.
  unfold sync_ls. destruct (_ >? 1024).
  { os_call ospec_close; [by eauto with adb|]. intros a n1 e1 ->. os_step. split_and!; [done|by right|done|done]. }
  unfold send_req. os_call ospec_writex2; [by eauto with adb|]. intros w n1 e1 [Ho1 Hw1].
  destruct (neutral_opened n1 (only_mono _ _ _ Ho1 (writes_neutral fd))) as [O1 C1].
  destruct Hw1 as [[-> W1]|[-> _]]; simpl negb; cbv iota.
  2:{ os_call ospec_close; [by eauto with adb|]. intros a n2 e2 ->. os_step. rewrite app_nil_r, opened_app, closed_app, O1, C1.
      split_and!; [done|by right|done|done]. }
  eapply (ospec_bind _ _ _ (fun '(ok, l) h _ => only (reads fd) h /\ (ok = true -> ls_done fd l h))).
  { eapply ospec_mono; [apply (ospec_loop (fun l h _ => ls_now fd l h) e1 _ [] (fun '(ok, l) h _ => only (reads fd) h /\ (ok = true -> ls_done fd l h)) recv_stops)| |done].
    - split; [apply only_nil|]. exists []. by split_and!.
    - intros l h e2 Hnow. eapply ospec_mono; [by apply ospec_sync_ls_step| |done].
      by intros [l'|[ok l']] new e3 [Ho Hx].
    - done. }
  intros [ok l] n2 e2 [Ho2 Hd]. destruct (neutral_opened n2 (only_mono _ _ _ Ho2 (reads_neutral fd))) as [O2 C2]. destruct ok.
  - os_step. rewrite app_nil_r, opened_app, closed_app, O1, O2, C1, C2. split_and!; [done|by left| |done]. intros _.
    rewrite written_to_app, W1, (written_to_reads fd fd n2 Ho2), !app_nil_r. split_and!; [done|done|].
    destruct (Hd eq_refl) as (items & m & s & t & n & Hi & El & R). exists items, m, s, t, n.
    by rewrite read_from_app, (read_from_writes fd fd n1 Ho1).
  - os_call ospec_close; [by eauto with adb|]. intros a n3 e3 ->. os_step. rewrite app_nil_r, !opened_app, !closed_app, O1, O2, C1, C2.
    split_and!; [done|by right|done|done].
Qed.

(** The listing of the client against the answers of the device. *)
Lemma dents_entries path items l m s t n rest :
  Forall entry_ok items -> Forall (fun x : bytes * stat_t => Z.of_nat (length x.1) < 2 ^ 32) l ->
  (items ≫= dent_bytes) ++ msg_dent ID_DONE m s t n ++ rest = (l ≫= dent_of path) ++ msg_dent ID_DONE 0 0 0 0 ->
  items = (fun x : bytes * stat_t => (u32 (st_mode x.2), u32 (st_size x.2), u32 (st_mtime x.2), drop (S (length path)) x.1)) <$> l.
Proof.
  intros Hi Hl. revert l Hl.
  induction Hi as [|[[[m' s'] t'] name] items (Hm & Hs & Ht & Hn) _ IH]; intros [|x l] Hl E; [done|..].
  - rewrite bind_cons in E. unfold dent_of at 1 in E. cbv zeta in E. rewrite <- !app_assoc in E. apply msg_dent_inj in E as (? & _). done.
  - rewrite bind_cons in E. cbn [dent_bytes mbind list_bind app] in E. rewrite <- !app_assoc in E.
    rewrite <- (app_nil_r (msg_dent ID_DONE 0 0 0 0)) in E. apply msg_dent_inj in E as (? & _). done.
  - apply Forall_cons in Hl as [Hx Hl]. rewrite !bind_cons in E. cbn [dent_bytes] in E. unfold dent_of at 1 in E. cbv zeta in E.
    rewrite <- !app_assoc in E. apply msg_dent_inj in E as (_ & Em & Es & Et & En & E).
    pose proof (length_drop x.1 (S (length path))) as Hd.
    rewrite !u32_small in En by lia. apply app_inj_1 in E as [-> E]; [|lia].
    rewrite (u32_small m'), (u32_small s'), (u32_small t') in * by lia.
    rewrite fmap_cons. f_equal; [|by apply IH]. rewrite Em, Es, Et. unfold u32. by rewrite !Zmod_mod.
Qed.

(** C20: [adb ls] reports the directory.  When the device's LIST and the client's
    [sync_ls] both succeed and the client read what the device wrote, the
    callback has been told exactly the entries the device could examine, in its
    order, with their mode, size, time and name; the client asked for the path it
    was given and left the connection open. *)
Theorem ls_reports (s : Z) (path : bytes) (w1 w1' : world) (fd : Z) (rpath : bytes) (l : list entry) (w2 w2' : world) :
  posix (w_env w1) -> posix (w_env w2) -> Z.of_nat (length path) <= 1024 ->
  Forall (fun x : bytes * stat_t => Z.of_nat (length x.1) < 2 ^ 32) (stats (calls_since w1 w1')) ->
  do_list s path w1 = (Done 0, w1') -> sync_ls fd rpath collect [] w2 = (Done (0, l), w2') ->
  read_from fd (calls_since w2 w2') `prefix_of` written_to s (calls_since w1 w1') ->
  l = (fun x : bytes * stat_t => (u32 (st_mode x.2), u32 (st_size x.2), u32 (st_mtime x.2), cstr (drop (S (length path)) x.1)))
        <$> stats (calls_since w1 w1') /\
  written_to fd (calls_since w2 w2') = msg_data ID_LIST (Z.of_nat (length rpath)) ++ rpath /\
  closed (calls_since w2 w2') = [].
Proof.
  intros Hp1 Hp2 Hpath Hshort E1 E2 [more Hpre].
  destruct (ospec_run _ _ _ _ _ _ (ospec_do_list _ s path Hpath) Hp1 E1) as (_ & _ & H1).
  destruct (ospec_run _ _ _ _ _ _ (ospec_sync_ls _ fd rpath) Hp2 E2) as (_ & _ & H2 & _).
  destruct (H1 eq_refl) as (sofar & _ & _ & _ & _ & W). destruct (H2 eq_refl) as (C & W2 & items & m & s' & t & n & Hi & -> & R).
  split_and!; [|done|done]. rewrite W, R, <- app_assoc in Hpre. symmetry in Hpre. apply dents_entries in Hpre as ->; [|done..].
  rewrite <- list_fmap_compose. done.
Qed.

(** ** Concrete runs *)

(** A push: the client reads the file on descriptor 3, the connection is
    descriptor 7 on both sides. *)
Definition push_client : world := boot (copy_env [1; 2; 3] (msg_data ID_OKAY 0)) 40.

Definition push_sent : outcome Z * world :=
  sync_send false 7 (str "a.txt") (str "/data/a,b") 99 33188 false false push_client.

(** The device reads what the client wrote. *)
Definition push_device : world :=
  boot (copy_env [] (send_header (str "/data/a,b") 33188 ++ frames [[1; 2; 3]] ++ msg_data ID_DONE 99)) 60.

Abbreviation push_stored := (sync_step 32 no_error root_owned 7 new_buf push_device).

Definition next_buf (x : outcome (buf + unit) * world) : buf := match x.1 with Done (inl b) => b | _ => [] end.

Definition goes_on (x : outcome (buf + unit) * world) : bool := match x.1 with Done (inl _) => true | _ => false end.

Lemma next_round x : goes_on x = true -> x = (Done (inl (next_buf x)), x.2).
Proof. destruct x as [[[b|[]]|e] w]; done. Qed.

Lemma file_fd_fresh h : opened h = [(false, 3)] -> fresh_from 7 h.
Proof. intros E. unfold fresh_from. rewrite E. intros H. by apply list_elem_of_singleton in H. Qed.


(** A pull of the same file. *)
Definition same_text (_ : Z) (s : bytes) : bytes := s.

Definition pull_client : world := boot (copy_env [] (frames [[1; 2; 3]] ++ msg_data ID_DONE 0)) 40.

Definition pull_got : outcome Z * world := sync_recv same_text same_text 7 (str "/data/a") (str "c:/f") false pull_client.

Definition pull_device : world := boot (copy_env [1; 2; 3] (msg_data ID_RECV 7 ++ str "/data/a")) 40.

Abbreviation pull_served := (sync_step 32 no_error root_owned 7 new_buf pull_device).


(** A listing of the directory with one entry. *)
Definition ls_device : world := boot dir_env 40.

Definition ls_served : outcome Z * world := do_list 7 (str "/d") ls_device.

Definition ls_client : world :=
  boot (copy_env [] (msg_dent ID_DENT 33188 5 77 1 ++ str "x" ++ msg_dent ID_DONE 0 0 0 0)) 40.

Definition ls_got : outcome (Z * list entry) * world := sync_ls 7 (str "/d") collect [] ls_client.

Lemma ls_reports_witness :
  [(33188, 5, 77, str "x")] = (fun x : bytes * stat_t =>
      (u32 (st_mode x.2), u32 (st_size x.2), u32 (st_mtime x.2), cstr (drop (S (length (str "/d"))) x.1)))
        <$> stats (calls_since ls_device ls_served.2) /\
  written_to 7 (calls_since ls_client ls_got.2) = msg_data ID_LIST (Z.of_nat (length (str "/d"))) ++ str "/d" /\
  closed (calls_since ls_client ls_got.2) = [].
Proof.
  apply (ls_reports 7 (str "/d") ls_device ls_served.2 7 (str "/d") [(33188, 5, 77, str "x")] ls_client ls_got.2).
  - exact dir_env_posix.
  - apply copy_env_posix; apply all_bytes_spec; vm_compute; reflexivity.
  - vm_compute. discriminate.
  - assert (E : stats (calls_since ls_device ls_served.2) = [(str "/d/x", {| st_mode := 33188; st_size := 5; st_mtime := 77 |})])
      by (vm_compute; reflexivity). rewrite E. constructor; [vm_compute; reflexivity|constructor].
  - apply injective_projections; [vm_compute; reflexivity|reflexivity].
  - apply injective_projections; [vm_compute; reflexivity|reflexivity].
  - exists []. vm_compute. reflexivity.
Defined.

(** ** Behaviour the code does not mean to have *)

(** A file that cannot be opened is pushed as an empty file and reported as a
    success. *)
Definition unreadable_env : env := fun h c =>
  match c return ans c with
  | Open _ _ _ => Err ENOENT
  | Read fd n => Ok (take (Z.to_nat n) (drop (length (read_from fd h)) (msg_data ID_OKAY 0)))
  | c => ok_default c
  end.

Theorem push_unreadable_succeeds :
  let '(o, w') := sync_send false 7 (str "a.txt") (str "/data/a") 99 33188 false false (boot unreadable_env 40) in
  o = Done 0 /\ written_to 7 (w_hist w') = send_header (str "/data/a") 33188 ++ frames [] ++ msg_data ID_DONE 99.
Proof. vm_compute. done. Qed.

(** A pull that the device refuses returns 0, the value of a success. *)
Theorem pull_refused_returns_zero :
  let w := boot (copy_env [] (fail_frame (str "No such file"))) 40 in
  (sync_recv same_text same_text 7 (str "/data/a") (str "c:/f") false w).1 = Done 0.
Proof. vm_compute. reflexivity. Qed.

(** When the connection is lost in the middle of a pull, the local file is left
    open. *)
Theorem pull_interrupted_leaks :
  let w := boot (copy_env [] (frames [[1; 2; 3]])) 40 in
  let '(o, w') := sync_recv same_text same_text 7 (str "/data/a") (str "c:/f") false w in
  o = Done (-1) /\ opened (w_hist w') = [(false, 3)] /\ closed (w_hist w') = [].
Proof. vm_compute. done. Qed.

(** The directory made for a file without a drive letter is not its own: for a
    name without any slash it is the first two characters of the name. *)
Theorem pull_makes_wrong_directory :
  let w := boot pull_env 40 in
  (local_dir same_text same_text (str "notes.txt") w).1 = Done (str "no").
Proof. vm_compute. reflexivity. Qed.

(** A negative length of a name makes the client write before its buffer. *)
Theorem ls_negative_length :
  let w := boot (copy_env [] (msg_dent ID_DENT 33188 5 77 (2 ^ 32 - 1))) 40 in
  (sync_ls 7 (str "/d") collect [] w).1 = Stop (Undef "write before the buffer").
Proof. vm_compute. reflexivity. Qed.

(** The entries of a directory that is named by a relative path are looked up
    after the change into it: [stat] fails and its result is used. *)
Definition relative_env : env := fun h c =>
  match c return ans c with
  | Findfirst _ => Ok (3, str "a")
  | Stat _ => Err ENOENT
  | c => ok_default c
  end.

Theorem push_failed_stat_used :
  (local_build_list false [] (str "dir/") (str "/data/") (boot relative_env 40)).1 = Stop (Undef "indeterminate stat").
Proof. vm_compute. reflexivity. Qed.
