(* ===== verification/DeviceServices.v ===== *)
(** * services.cpp: the services of the device

    [service_to_fd] starts the service a stream is opened for and returns the
    descriptor the stream reads from and writes to: a connection to a port or a
    socket of the device, a device file, one end of a socket pair whose other
    end a service thread works on, or the terminal of a shell.  The model is
    the daemon's build (ADB_HOST = 0, HOST = 0).

    A thread is recorded by the call that creates it and its function is run on
    its own; in the child after a fork the model follows the child until it
    executes another program or exits ([Abort]). *)

From S2P Require Import Prelude Effects DList Os Sysdeps Wire Globals Fdevent Transport FileSync Sockets Registry Smart Host Jdwp Services.

Module Device.

Definition O_RDWR : Z := 2.

Definition PROPERTY_VALUE_MAX : Z := 92.

(** ANDROID_RB_PROPERTY of android_reboot.h *)
Section device.
Context (ANDROID_RB_PROPERTY : bytes).

Definition property_get (key default_value : bytes) : M world bytes :=
  r ← syscall (Property_get key);
  mret (match r with Ok (c :: v) => c :: v | _ => default_value end).

(** The value [property_set] returns. *)
Definition property_set (key value : bytes) : M world Z :=
  r ← syscall (Property_set key value);
  mret (rc_int r).

(** [writex(fd, buf, strlen(buf)); adb_close(fd);] with [char buf[100]] *)
Definition say (fd : Z) (text : bytes) : M world unit :=
  writex fd (snprintf 100 text);;
  adb_close fd;;
  skip.

(** ** Restarting the daemon *)

Definition restart_root_service (fd : Z) : M world unit :=
  uid ← syscall Getuid;
  if rc_int uid =? 0 then say fd (str "adbd is already running as root" ++ [10]) else
  value ← property_get (str "ro.debuggable") [];
  if negb (bytes_eqb value (str "1")) then
    say fd (str "adbd cannot run as root in production builds" ++ [10])
  else
    property_set (str "service.adb.root") (str "1");;
    say fd (str "restarting adbd as root" ++ [10]).

Definition restart_tcp_service (fd port : Z) : M world unit :=
  if port <=? 0 then say fd (str "invalid port" ++ [10]) else
  property_set (str "service.adb.tcp.port") (snprintf (Z.to_nat PROPERTY_VALUE_MAX) (fmt_d port));;
  say fd (str "restarting in TCP mode port: " ++ fmt_d port ++ [10]).

Definition restart_usb_service (fd : Z) : M world unit :=
  property_set (str "service.adb.tcp.port") (str "0");;
  say fd (str "restarting in USB mode" ++ [10]).

(** The child that unmounts the card: a failed [execl] returns and goes on with
    the rest of the function.  The arguments end at a variable that is not set. *)
Definition unmount_card : M world unit :=
  pid ← syscall Fork;
  let pid := rc_int pid in
  if pid =? 0 then
    v ← syscall (Getenv (str "EXTERNAL_STORAGE"));
    x ← syscall (Execl (str "/system/bin/vdc")
                   ([str "/system/bin/vdc"; str "volume"; str "unmount"]
                      ++ match v with Ok (Some card) => [card; str "force"] | _ => [] end));
    match x with
    | Ok _ => abort "replaced by vdc"
    | Err _ => skip
    end
  else if pid >? 0 then syscall (Waitpid pid);; skip
  else skip.

Definition reboot_service (fd : Z) (arg : bytes) : M world unit :=
  syscall Sync;;
  unmount_card;;
  let property_val := str "reboot," ++ arg in
  let ret := Z.of_nat (length property_val) in
  if ret >=? PROPERTY_VALUE_MAX then
    say fd (str "reboot string too long. length=" ++ fmt_d ret ++ [10])
  else
  ret ← property_set ANDROID_RB_PROPERTY property_val;
  if ret <? 0 then say fd (str "reboot failed: " ++ fmt_d ret ++ [10]) else
  loop (fun _ : unit => syscall Pause;; mret (inl tt)) tt.

(** ** Shells *)

Definition SHELL_COMMAND : bytes := str "/system/bin/sh".

(** [grantpt(ptm) || unlockpt(ptm) || ((devname = ptsname(ptm)) == 0)]: the name of
    the terminal, if all succeed. *)
Definition open_terminal (ptm : Z) : M world (option bytes) :=
  g ← syscall (Grantpt ptm);
  if negb (rc g =? 0) then mret None else
  u ← syscall (Unlockpt ptm);
  if negb (rc u =? 0) then mret None else
  n ← syscall (Ptsname ptm);
  mret (match n with Ok devname => Some devname | Err _ => None end).

(** The child: its terminal becomes its input and output, and the shell is
    executed. *)
Definition subprocess_child (devname : bytes) (ptm : Z) (cmd : bytes) (args : list bytes) : M world (Z * option Z) :=
  syscall Setsid;;
  r ← unix_open devname O_RDWR 0;
  let pts := rc_int r in
  if pts <? 0 then abort "exit" else
  syscall (Dup2 pts 0);;
  syscall (Dup2 pts 1);;
  syscall (Dup2 pts 2);;
  adb_close pts;;
  adb_close ptm;;
  pid ← syscall Getpid;
  o ← adb_open (snprintf 64 (str "/proc/" ++ fmt_d (rc_int pid) ++ str "/oom_adj")) O_WRONLY;
  let fd := rc_int o in
  (if fd >=? 0 then adb_write fd (str "0");; adb_close fd;; skip else skip);;
  syscall (Execl cmd (cmd :: args));;
  abort "exit".

(** The value returned and what was stored in [*pid], if anything was. *)
Definition create_subprocess (cmd : bytes) (args : list bytes) : M world (Z * option Z) :=
  r ← unix_open (str "/dev/ptmx") O_RDWR 0;
  let ptm := rc_int r in
  if ptm <? 0 then mret (-1, None) else
  close_on_exec ptm;;
  d ← open_terminal ptm;
  match d with
  | None => adb_close ptm;; mret (-1, None)
  | Some devname =>
      p ← syscall Fork;
      let pid := rc_int p in
      if pid <? 0 then adb_close ptm;; mret (-1, Some pid) else
      if pid =? 0 then subprocess_child devname ptm cmd args else
      mret (ptm, Some pid)
  end.

(** Reading the status of a process (sys/wait.h) *)
Definition WTERMSIG (status : Z) : Z := Z.land status 0x7f.

Definition WIFEXITED (status : Z) : bool := WTERMSIG status =? 0.

Definition WIFSIGNALED (status : Z) : bool := negb (WTERMSIG status =? 0) && negb (WTERMSIG status =? 0x7f).

Definition WEXITSTATUS (status : Z) : Z := Z.shiftr (Z.land status 0xff00) 8.

(** One round of the wait: [inl] asks again. *)
Definition wait_round (pid : Z) : M world (unit + unit) :=
  r ← syscall (Wait_status pid);
  match r with
  | Ok (p, status) =>
      if p =? pid then
        if WIFSIGNALED status then mret (inr tt)
        else if negb (WIFEXITED status) then mret (inr tt)
        else if WEXITSTATUS status >=? 0 then mret (inr tt)
        else mret (inl tt)
      else mret (inl tt)
  | Err _ =>
      if pid =? -1 then must "indeterminate status" (fun _ => None) else mret (inl tt)
  end.

(** The thread that waits for the shell of [fd] and tells the event loop. *)
Definition subproc_waiter_service (notify_fd fd pid : Z) : M world unit :=
  loop (fun _ : unit => wait_round pid) tt;;
  if notify_fd >=? 0 then writex notify_fd (le32 fd);; skip else skip.

(** [create_subproc_thread(name)]; a null [name] is [None].  The pid is copied to
    the thread's cookie also when [create_subprocess] has not stored one. *)
Definition create_subproc_thread (name : option bytes) : M world Z :=
  '(ret_fd, pid) ← create_subprocess SHELL_COMMAND
                     match name with Some name => [str "-c"; name] | None => [str "-"] end;
  m ← syscall (Malloc 24);
  match m with
  | Err _ => abort "cannot allocate stinfo"
  | Ok _ =>
      must "indeterminate pid" (fun _ => pid);;
      t ← syscall (Thread_create "subproc_waiter_service");
      match t with
      | Err _ => adb_close ret_fd;; mret (-1)
      | Ok _ => mret ret_fd
      end
  end.

(** ** The table of services *)

Definition NAMESPACE_RESERVED : Z := 1.

Definition local_client (name : bytes) (namespace : Z) : M world Z :=
  r ← syscall (Local_client name namespace);
  mret (rc_int r).

(** "tcp:port"; [None] is [return -1] *)
Definition connect_port (name : bytes) : F (option Z) :=
  port ← atoi (drop 4 name);
  match strchr 58 (drop 4 name) with
  | Some _ => mret None
  | None =>
      r ← os (syscall (Loopback_client port));
      let ret := rc_int r in
      (if ret >=? 0 then os (disable_tcp_nagle ret) else skip);;
      mret (Some ret)
  end.

(** [strdup(text)]: is there memory? *)
Definition strdup (text : bytes) : M world bool :=
  m ← syscall (Malloc (Z.of_nat (length text) + 1));
  mret (match m with Ok _ => true | Err _ => false end).

(** [ret = create_service_thread(f, ...)] *)
Definition service_thread (f : string) : F (option Z) :=
  r ← os (create_service_thread f);
  mret (Some r).

(** The service that is started for [name]; [None] is an early [return -1]. *)
Definition start_service (name : bytes) : F (option Z) :=
  let pre p := has_prefix (str p) name in
  if pre "tcp:" then connect_port name
  else if pre "local:" then r ← os (local_client (drop 6 name) NAMESPACE_RESERVED); mret (Some r)
  else if pre "localreserved:" then r ← os (local_client (drop 14 name) NAMESPACE_RESERVED); mret (Some r)
  else if pre "localabstract:" then r ← os (local_client (drop 14 name) NAMESPACE_ABSTRACT); mret (Some r)
  else if pre "localfilesystem:" then r ← os (local_client (drop 16 name) NAMESPACE_FILESYSTEM); mret (Some r)
  else if pre "dev:" then r ← os (unix_open (drop 4 name) O_RDWR 0); mret (Some (rc_int r))
  else if pre "framebuffer:" then service_thread "framebuffer_service"
  else if pre "jdwp:" then pid ← atoi (drop 5 name); r ← create_jdwp_connection_fd pid; mret (Some r)
  else if pre "shell:" then
    r ← os (create_subproc_thread match drop 6 name with [] => None | cmd => Some cmd end);
    mret (Some r)
  else if pre "sync:" then service_thread "file_sync_service"
  else if pre "remount:" then service_thread "remount_service"
  else if pre "reboot:" then
    ok ← os (strdup (drop 7 name));
    if negb ok then mret None else service_thread "reboot_service"
  else if pre "root:" then service_thread "restart_root_service"
  else if pre "backup:" then
    ok ← os (strdup (drop 7 name));
    if negb ok then mret None else
    r ← os (backup_service BACKUP (drop 7 name));
    mret (Some r)
  else if pre "restore:" then r ← os (backup_service RESTORE []); mret (Some r)
  else if pre "tcpip:" then
    must "indeterminate port" (fun _ : fdstate =>
      match sscanf_d (drop 6 name) with Scanned n => Some n | No_match => Some 0 | End_of_input => None end);;
    service_thread "restart_tcp_service"
  else if pre "usb:" then service_thread "restart_usb_service"
  else mret (Some (-1)).

Definition service_to_fd (name : bytes) : F Z :=
  r ← start_service name;
  match r with
  | None => mret (-1)
  | Some ret =>
      (if ret >=? 0 then os (close_on_exec ret) else skip);;
      mret ret
  end.
End device.

End Device.
