(* ===== verification/DeviceServicesSpec.v ===== *)
(** * Correctness of the services of the device

    Opening a service leaves the transports alone, which closes the
    authentication argument for the daemon as it is built; the daemon restarts
    as root only where the system allows it; the end of a shell reaches the
    event loop. *)

From S2P Require Import Prelude Effects DList Os Sysdeps Wire Globals Fdevent Transport FdeventFacts FdeventLoop FdeventReg FileSync FileSyncFacts Sockets Registry Smart Host Jdwp Auth Protocol Frame AuthSpec Services DeviceServices.

Import Device.

(** ** Opening a service *)

Lemma keeps_atoi {B} (f : globals -> B) s : keeps f (atoi s).
Proof. unfold atoi. keep. Qed.

Lemma keeps_jdwp_connection pid : keeps_transports (create_jdwp_connection_fd pid).
Proof. unfold create_jdwp_connection_fd, set_proc. keep. Qed.

Lemma keeps_connect_port name : keeps_transports (connect_port name).
Proof. unfold connect_port. pose proof (@keeps_atoi _ transports). keep. Qed.
#[export] Hint Resolve keeps_atoi keeps_jdwp_connection keeps_connect_port : keep.

Lemma keeps_service_to_fd name : keeps_transports (service_to_fd name).
Proof. unfold service_to_fd, start_service, service_thread. cbv zeta. keep. Qed.

(** C2: With authentication enabled, the packet handler of the daemon brings a
    transport online only on an AUTH(SIGNATURE) packet of that transport.  Then
    handling the packet began with the calls that read the two key files of the
    device, each looked up by its path and read line by line, and on one of the
    lines read there is a key under which [RSA_verify] accepts the 256-byte payload
    of the packet for the token last sent on the transport; only after that, the
    transport is marked online and told so.  Every other packet, of whatever
    content and whatever service it opens, leaves every offline transport offline. *)
Theorem online_needs_signature sizeof_ptr b64_pton RSA_verify banner p t s u :
  let run := handle_packet sizeof_ptr b64_pton RSA_verify banner service_to_fd true p t in
  online (rest s) u = false -> online (rest (run s).2) u = true ->
  u = t /\ command (msg (p_body p)) = A_AUTH /\ arg0 (msg (p_body p)) = ADB_AUTH_SIGNATURE /\
  data_length (msg (p_body p)) = RSANUMBYTES /\
  exists tr w1 new lines k, transports (rest s) !! t = Some tr /\
    steps (fd_world s) new w1 /\ files_calls [str "/adb_keys"; str "/data/misc/adb/adb_keys"] lines new /\
    run s = ((adb_auth_verified sizeof_ptr banner t;; set (T := atransport) t (set_failed_auth_attempts 0));;
             put_apacket p) (put w1 s) /\
    k ∈ keys_of b64_pton lines /\ RSA_verify k (data (p_body p)) (at_token tr) <> 0.
Proof. apply online_rise_signed, keeps_service_to_fd. Qed.

Lemma online_needs_signature_witness :
  let s := auth_state key_file_env (auth_globals 0) in
  let p := auth_pkt 1 A_AUTH ADB_AUTH_SIGNATURE 0 demo_sig in
  online (rest s) 5%N = false /\
  exists tr w1 new lines k, transports (rest s) !! 5%N = Some tr /\
    steps (fd_world s) new w1 /\ files_calls [str "/adb_keys"; str "/data/misc/adb/adb_keys"] lines new /\
    handle_packet 4 demo_b64 demo_rsa (str "device") service_to_fd true p 5%N s =
      ((adb_auth_verified 4 (str "device") 5%N;; set (T := atransport) 5%N (set_failed_auth_attempts 0));;
       put_apacket p) (put w1 s) /\
    k ∈ keys_of demo_b64 lines /\ demo_rsa k demo_sig (at_token tr) <> 0.
Proof.
  split; [vm_compute; reflexivity|].
  apply (online_needs_signature 4 demo_b64 demo_rsa (str "device")
           (auth_pkt 1 A_AUTH ADB_AUTH_SIGNATURE 0 demo_sig) 5%N
           (auth_state key_file_env (auth_globals 0)) 5%N); vm_compute; reflexivity.
Defined.

(** ** Restarting as root *)

(** The properties a run set. *)
Definition ev_prop (e : event) : list (bytes * bytes) :=
  match e with
  | existT (Property_set k v) _ => [(k, v)]
  | _ => []
  end.

Definition props_set (h : list event) : list (bytes * bytes) := h ≫= ev_prop.

Arguments props_set : simpl never.

Lemma props_set_app h1 h2 : props_set (h1 ++ h2) = props_set h1 ++ props_set h2.
Proof. apply bind_app. Qed.

(** Calls that only write to [fd] or close it. *)
Definition talks (fd : Z) (c : call) : Prop := writes fd c \/ c = Close fd.

(** What [say] does: the text goes out, unless a write is refused, and the
    connection is closed. *)
Definition said (fd : Z) (text : bytes) (h : list event) : Prop :=
  only (talks fd) h /\ closed_fds h = [fd] /\ (written_to fd h = text \/ write_failed fd h).

Lemma ospec_say e fd text : (length text < 100)%nat ->
  ospec e (say fd text) (fun _ new _ => said fd text new) (blocked (only (talks fd))).
Proof.
  intros Hl. unfold say.
  assert (E : snprintf 100 text = text) by (unfold snprintf; apply take_ge; lia). rewrite E.
  assert (Hw : forall h, only (writes fd) h -> only (talks fd) h).
  { intros h Ho. eapply only_mono; [exact Ho|]. by left. }
  os_call ospec_writex_why; [intros x n (-> & Ho & _); split; [done|by apply Hw]|].
  intros r n1 e1 [Ho Hr]. os_call ospec_close.
  { intros x n (-> & ->). split; [done|]. rewrite app_nil_r. by apply Hw. }
  intros a n2 e2 ->. os_step. rewrite app_nil_r. unfold said.
  rewrite only_app, closed_fds_app, (closed_fds_writes _ _ Ho).
  split_and!; [by apply Hw|apply only_one; by right|done|]. destruct Hr as [[_ <-]|(_ & Hf & _)].
  - left. by rewrite written_to_app, app_nil_r.
  - right. apply write_failed_app. by left.
Qed.

(** What the system answered: the daemon is not root yet, and the build may be
    debugged. *)
Definition ev_not_root (e : event) : bool :=
  match e with existT Getuid a => negb (rc_int a =? 0) | _ => false end.

Definition ev_debuggable (e : event) : bool :=
  match e with
  | existT (Property_get k) (Ok v) => bytes_eqb k (str "ro.debuggable") && bytes_eqb v (str "1")
  | _ => false
  end.

Definition may_restart (h : list event) : bool := existsb ev_not_root h && existsb ev_debuggable h.

(** The answer of [restart_root_service] and the properties it sets. *)
Definition root_outcome (fd : Z) (h : list event) : Prop :=
  closed_fds h = [fd] /\
  props_set h = (if may_restart h then [(str "service.adb.root", str "1")] else []) /\
  (write_failed fd h \/
   written_to fd h = (if negb (existsb ev_not_root h) then str "adbd is already running as root" ++ [10]
                      else if existsb ev_debuggable h then str "restarting adbd as root" ++ [10]
                      else str "adbd cannot run as root in production builds" ++ [10])).

Lemma talks_silent fd h : only (talks fd) h ->
  props_set h = [] /\ existsb ev_not_root h = false /\ existsb ev_debuggable h = false.
Proof.
  induction 1 as [|[c a] h Hc _ (IH1 & IH2 & IH3)]; [done|].
  change (props_set (existT c a :: h)) with (ev_prop (existT c a) ++ props_set h).
  cbn [existsb]. rewrite IH1, IH2, IH3.
  destruct Hc as [Hc|Hc]; simpl in Hc; destruct c; try done; by destruct a.
Qed.

(** The answer, after calls that touch no descriptor. *)
Lemma said_after fd text pre h :
  closed_fds pre = [] -> written_to fd pre = [] -> said fd text h ->
  closed_fds (pre ++ h) = [fd] /\ props_set (pre ++ h) = props_set pre /\
  existsb ev_not_root (pre ++ h) = existsb ev_not_root pre /\
  existsb ev_debuggable (pre ++ h) = existsb ev_debuggable pre /\
  (write_failed fd (pre ++ h) \/ written_to fd (pre ++ h) = text).
Proof.
  intros Ec Ew (Ho & Hc & Hw). destruct (talks_silent _ _ Ho) as (E1 & E2 & E3).
  rewrite closed_fds_app, props_set_app, !existsb_app, written_to_app, Ec, Ew, E1, E2, E3, app_nil_r, !orb_false_r.
  split_and!; [done..|]. destruct Hw as [|Hw]; [by right|]. left. apply write_failed_app. by right.
Qed.

(** The answer, as the last step of the service. *)
Lemma ospec_root_say e fd text pre : (length text < 100)%nat ->
  closed_fds pre = [] -> written_to fd pre = [] ->
  props_set pre = (if may_restart pre then [(str "service.adb.root", str "1")] else []) ->
  text = (if negb (existsb ev_not_root pre) then str "adbd is already running as root" ++ [10]
          else if existsb ev_debuggable pre then str "restarting adbd as root" ++ [10]
          else str "adbd cannot run as root in production builds" ++ [10]) ->
  ospec e (say fd text) (fun _ new _ => root_outcome fd (pre ++ new))
    (fun x new => blocked (fun h => props_set h <> [] -> may_restart h = true) x (pre ++ new)).
Proof.
  intros Hl Ec Ew Ep Et. eapply ospec_mono; [by apply ospec_say|..].
  - intros a new e2 Hs. cbv beta in Hs. destruct (said_after _ _ _ _ Ec Ew Hs) as (H1 & H2 & H3 & H4 & H5).
    unfold root_outcome, may_restart in *. rewrite H2, H3, H4, <- Et. by split_and!.
  - intros x new [-> Ho]. split; [done|]. destruct (talks_silent _ _ Ho) as (E1 & E2 & E3).
    unfold may_restart in *. rewrite props_set_app, !existsb_app, E1, E2, E3, app_nil_r, !orb_false_r, Ep.
    by destruct (_ && _).
Qed.

Lemma ospec_root_service e fd :
  ospec e (restart_root_service fd) (fun _ new _ => root_outcome fd new)
    (blocked (fun new => props_set new <> [] -> may_restart new = true)).
Proof.
  assert (Hlen : forall m, In m [str "adbd is already running as root" ++ [10]; str "restarting adbd as root" ++ [10];
    str "adbd cannot run as root in production builds" ++ [10]] -> (length m < 100)%nat).
  { intros m [<-|[<-|[<-|[]]]]; vm_compute; lia. }
  unfold restart_root_service, property_get.
  os_call (ospec_one quiet e Getuid); [done|by intros x n [-> ->]|].
  intros u n1 e1 (-> & _). destruct (Z.eqb_spec (rc_int u) 0) as [Eu|Eu].
  { apply ospec_root_say; [by apply Hlen; left|done|done|..]; unfold may_restart; simpl; by rewrite Eu. }
  os_step. os_call (ospec_one quiet e1 (Property_get (str "ro.debuggable"))); [done|by intros x n [-> ->]|].
  intros v n2 e2 (-> & _). os_step.
  assert (Ev : forall x, x = match v with Ok (c :: t) => c :: t | _ => [] end ->
    bytes_eqb x (str "1") = ev_debuggable (ev (Property_get (str "ro.debuggable")) v)).
  { intros x ->. by destruct v as [[|]|]. }
  rewrite (Ev _ eq_refl). clear Ev. apply Z.eqb_neq in Eu.
  destruct (ev_debuggable _) eqn:Ed; cbn [negb].
  - unfold property_set. os_step.
    os_call (ospec_one quiet e2 (Property_set (str "service.adb.root") (str "1"))); [done| |].
    + intros x n [-> ->]. by rewrite !app_nil_r.
    + intros r n3 e3 (-> & _). os_step.
      apply (ospec_root_say e3 fd _ ([ev Getuid u] ++ [ev (Property_get _) v] ++ [ev (Property_set _ _) r]));
        [apply Hlen; simpl; tauto|done|done|..]; unfold may_restart; cbn [existsb app]; rewrite Ed;
        cbn [ev_not_root ev]; by rewrite Eu.
  - apply (ospec_root_say e2 fd _ ([ev Getuid u] ++ [ev (Property_get _) v]));
      [apply Hlen; simpl; tauto|done|done|..]; unfold may_restart; cbn [existsb app]; rewrite Ed;
      cbn [ev_not_root ev]; by rewrite Eu.
Qed.

(** C22: "adb root": the service answers once and closes its connection, and the
    property that makes init restart the daemon as root is set exactly when the
    daemon is not root yet and ro.debuggable is "1"; no other property is set,
    and the answer says which of the three cases it was, unless the connection
    refuses it.  While the service waits, it has set the property only if both
    conditions hold. *)
Theorem root_service_guarded (fd : Z) (w : world) :
  posix (w_env w) ->
  match restart_root_service fd w with
  | (Done _, w') => root_outcome fd (calls_since w w')
  | (Stop x, w') =>
      x = Blocked /\ (props_set (calls_since w w') <> [] -> may_restart (calls_since w w') = true)
  end.
Proof.
  intros Hp. pose proof (ospec_total _ _ _ w (ospec_root_service _ fd) Hp) as H.
  by destruct (restart_root_service fd w) as [[[]|x] w'].
Qed.

(** ** The end of a shell *)

(** Every status says that the process ended or was stopped: the loop takes the
    first one it gets. *)
Lemma status_ends (status : Z) : WEXITSTATUS status >= 0.
Proof.
  unfold WEXITSTATUS. apply Z.le_ge, Z.shiftr_nonneg, Z.land_nonneg. right. lia.
Qed.

(** The process was waited for. *)
Definition waited (pid : Z) (h : list event) : Prop :=
  exists status, ev (Wait_status pid) (Ok (pid, status)) ∈ h.

Lemma waited_app pid h1 h2 : waited pid h1 -> waited pid (h1 ++ h2).
Proof. intros [st H]. exists st. apply elem_of_app. by left. Qed.

(** One round of the waiter. *)
Definition waits_for (pid : Z) (c : call) : Prop := c = Wait_status pid.

Lemma waits_for_written fd pid h : only (waits_for pid) h -> written_to fd h = [].
Proof. intros H. apply quiet_written. eapply only_mono; [exact H|]. by intros c ->. Qed.

Lemma ospec_waiter e notify fd pid : pid <> -1 ->
  ospec e (subproc_waiter_service notify fd pid)
    (fun _ new _ => waited pid new /\
       if notify >=? 0 then written_to notify new = le32 fd \/ write_failed notify new
       else only (waits_for pid) new)
    (blocked (fun new => waited pid new \/ only (waits_for pid) new)).
Proof.
  intros Hpid. unfold subproc_waiter_service.
  eapply ospec_seq with (Q1 := fun _ new _ => waited pid new /\ only (waits_for pid) new)
    (X1 := blocked (only (waits_for pid))).
  - apply (ospec_loop (fun _ h _ => only (waits_for pid) h)); [constructor|]. intros _ h e1 Hh. unfold wait_round.
    os_call (ospec_one (waits_for pid) e1 (Wait_status pid)); [done|intros x n [-> ->]; by rewrite app_nil_r|].
    intros a n e2 (-> & _ & Ho & _). destruct a as [[p status]|err].
    + destruct (Z.eqb_spec p pid) as [->|].
      * pose proof (status_ends status) as Hs.
        assert (Hw : waited pid (h ++ [ev (Wait_status pid) (Ok (pid, status))])).
        { exists status. apply elem_of_app. right. by left. }
        destruct (WIFSIGNALED status), (WIFEXITED status); cbn [negb];
          try (rewrite (proj2 (Z.geb_le _ _)) by lia); os_step; rewrite app_nil_r, only_app; done.
      * os_step. rewrite app_nil_r, only_app. by split.
    + rewrite (proj2 (Z.eqb_neq pid (-1))) by done. os_step. rewrite app_nil_r, only_app. by split.
  - intros x n [-> H]. split; [done|]. by right.
  - intros _ n1 e1 [Hw Ho]. destruct (notify >=? 0).
    + os_call ospec_writex_why; [intros x n (-> & _); split; [done|left; by apply waited_app]|].
      intros r n2 e2 [Ho2 Hr]. os_step. rewrite app_nil_r. split; [by apply waited_app|].
      destruct Hr as [[_ E]|(_ & Hf & _)]; [left|right; apply write_failed_app; by right].
      by rewrite written_to_app, E, (waits_for_written _ _ _ Ho).
    + os_step. rewrite app_nil_r. by split.
Qed.

(** The descriptor as the event loop decodes it from the four bytes. *)
Lemma notified_fd fd : 0 <= fd < 2 ^ 31 -> s32 (le_val (le32 fd)) = fd.
Proof. intros H. rewrite le_val_le32 by lia. unfold s32, u32. rewrite Z.mod_small by lia. case_match; lia. Qed.

(** A run that continues as another one equals it. *)
Lemma wp_continues {S A} (m1 m2 : M S A) s1 s2 :
  (forall Q X, wp m2 Q X s2 -> wp m1 Q X s1) -> m1 s1 = m2 s2.
Proof.
  intros H. specialize (H (fun a s => m2 s2 = (Done a, s)) (fun x s => m2 s2 = (Stop x, s))).
  unfold wp in H. destruct (m2 s2) as [[a|x] s'], (m1 s1) as [[b|y] s'']; by rewrite H.
Qed.

Lemma wp_os_run {A} (m : M world A) a w' Q X (s : fdstate) :
  m (fd_world s) = (Done a, w') -> Q a (put w' s) -> wp (os m) Q X s.
Proof. intros E HQ. apply wp_zoom. unfold wp. change (view s) with (fd_world s). by rewrite E. Qed.

(** The flag that was set and cleared again. *)
Lemma mark_clear st : 0 <= st < 2 ^ 16 -> has st FDE_PENDING = false ->
  u16 (clear (u16 (Z.lor st FDE_PENDING)) FDE_PENDING) = st.
Proof.
  intros Hr Hn. rewrite (u16_small (Z.lor _ _)) by (apply lor_u16_range; [done|vm_compute; split; congruence]).
  assert (E : clear (Z.lor st FDE_PENDING) FDE_PENDING = st); [|rewrite E; by apply u16_small].
  unfold clear, has in *. apply negb_false_iff, Z.eqb_eq in Hn. apply testbit_ext. intros n Hn'.
  apply (f_equal (fun z => Z.testbit z n)) in Hn. revert Hn. bits_norm.
  destruct (Z.testbit st n), (Z.testbit FDE_PENDING n); simpl; congruence.
Qed.

(** The object of the shell in the loop: registered for its descriptor, with the
    function of the client [id]. *)
Definition shell_object (s : fdstate) (q : ptr) (g : fdevent) (id : N) : Prop :=
  fde_heap s !! q = Some g /\ active g = true /\ fde_func g = client_func id.

(** The object of the notification socket, watched for reading. *)
Definition notify_object (s : fdstate) (p : ptr) (f : fdevent) : Prop :=
  fde_heap s !! p = Some f /\ active f = true /\ has (fde_state f) FDE_READ = true.

(** What the loop does when it is told that the shell of [g] has ended: end of
    file is forced on its descriptor, and unless there still is output
    to be read ([rcount]) or the object waits for its call anyway, its client is called to
    read. *)
Definition shell_ended (client : N -> Z -> Z -> ptr -> F unit) (s : fdstate) (q : ptr) (g : fdevent) (id : N)
    (rcount : sysres Z) (w : world) : outcome unit * fdstate :=
  let after f := put w (put (<[q := f]> (fde_heap s)) s) in
  let events := Z.lor (fde_events g) FDE_READ in
  if negb (match rcount with Ok n => n | Err _ => 0 end =? 0) then (Done tt, after (set_force_eof 1 g))
  else if pending g then (Done tt, after (set_events events (set_force_eof 1 g)))
  else client id (fde_fd g) events (fde_arg g) (after (set_events 0 (set_force_eof 1 g))).

Lemma fdevent_add_again s p f events : fde_heap s !! p = Some f ->
  Z.lor (Z.land (fde_state f) FDE_EVENTMASK) (Z.land events FDE_EVENTMASK) = Z.land (fde_state f) FDE_EVENTMASK ->
  fdevent_add p events s = (Done tt, s).
Proof.
  intros Hp E. change (Done tt, s) with (mret (M := M fdstate) tt s). apply wp_continues. intros Q X H. unfold fdevent_add. wp_step.
  eapply wp_deref; [exact Hp|]. unfold fdevent_set. cbv zeta. wp_step. eapply wp_deref; [exact Hp|].
  rewrite E, <- Z.land_assoc, Z.land_diag, Z.eqb_refl. exact H.
Qed.

Lemma watched_again st : has st FDE_READ = true ->
  Z.lor (Z.land st FDE_EVENTMASK) (Z.land FDE_READ FDE_EVENTMASK) = Z.land st FDE_EVENTMASK.
Proof.
  change FDE_READ with (2 ^ 0). rewrite has_pow2 by lia. intros H. apply testbit_ext. intros n Hn. bits_norm.
  destruct (decide (n = 0)) as [->|]; [by rewrite H|]. rewrite (Z.pow2_bits_false 0 n) by lia.
  by rewrite andb_false_l, orb_false_r.
Qed.

(** The call of a client whose object was marked by the handler. *)
Lemma call_marked client depth s q g id :
  fde_heap s !! q = Some (set_state (Z.lor (fde_state g) FDE_PENDING) g) ->
  0 <= fde_state g < 2 ^ 16 -> pending g = false -> fde_func g = client_func id ->
  call_fdfunc client (S depth) q s =
    client id (fde_fd g) (fde_events g) (fde_arg g) (put (<[q := set_events 0 g]> (fde_heap s)) s).
Proof.
  intros Hq Hst Hn Hfun. apply wp_continues. intros Q X Hw.
  cbn [call_fdfunc]. wp_step. eapply wp_deref; [exact Hq|]. cbv zeta.
  wp_step. eapply wp_assign; [exact Hq|].
  pose proof (proj1 (pending_mark g Hst)) as Hm. unfold pending in Hm. rewrite Hm. cbn [negb].
  wp_step. eapply wp_assign; [apply lookup_insert_eq|]. cbn [fde_func set_state set_events]. rewrite Hfun.
  set (s1 := put _ (put _ s)) in |- *. assert (E : s1 = put (<[q := set_events 0 g]> (fde_heap s)) s); [|by rewrite E].
  unfold s1. cbn [put Lens_fde_heap fde_heap]. rewrite insert_insert_eq. do 2 f_equal.
  unfold set_state, set_events. cbn. f_equal. by apply mark_clear.
Qed.

(** The shell-exit handler, when it reads the number of the shell's descriptor. *)
Lemma subproc_event_runs client depth s p f q g id evs w2 rcount w3 :
  fd_ok s -> notify_object s p f -> shell_object s q g id -> has evs FDE_READ = true ->
  readx (fde_fd f) 4 (fd_world s) = (Done (Some (le32 (fde_fd g))), w2) ->
  syscall (Fionread (fde_fd g)) w2 = (Done rcount, w3) ->
  subproc_event (call_fdfunc client (S depth)) (fde_fd f) evs s = shell_ended client s q g id rcount w3.
Proof.
  intros Hok (Hp & Ha & Hr) (Hq & Hga & Hfun) Hev Erd Eio.
  destruct (ok_active s Hok p (payload f) (obj_payload _ _ _ Hp) Ha) as (_ & _ & Hfd & Hsel & Ht).
  destruct (ok_active s Hok q (payload g) (obj_payload _ _ _ Hq) Hga) as (HqN & _ & Hgfd & Hgsel & Hgt).
  change (fde_fd (payload f)) with (fde_fd f) in *. change (fde_fd (payload g)) with (fde_fd g) in *. pose proof (ok_select s Hok) as Hsn.
  pose proof (ok_state s q g Hok Hq) as Hgst. pose proof (ok_events s q g Hok Hq) as Hgev.
  apply (wp_continues _ (fun _ => shell_ended client s q g id rcount w3) s s). intros Q X Hw.
  change (match shell_ended client s q g id rcount w3 with (Done a, s') => Q a s' | (Stop e, s') => X e s' end) in Hw.
  assert (Hin : forall fd, 0 <= fd < fd_table_max s -> (fd <? 0) || (fd >=? fd_table_max s) = false).
  { intros fd Hb. rewrite Z.geb_leb. apply orb_false_iff. split; [apply Z.ltb_ge|apply Z.leb_gt]; lia. }
  unfold subproc_event. wp_step. wp_step. rewrite Hin by lia.
  wp_step. eapply wp_table_get; [lia|exact Ht|].
  wp_step. apply (wp_eq _ (mret tt)); [by apply (fdevent_add_again s p f); [|apply watched_again]|]. wp_step. rewrite Hev. cbn [negb].
  wp_step. eapply wp_os_run; [exact Erd|]. cbv iota zeta. rewrite notified_fd by (unfold FD_SETSIZE in *; lia).
  wp_step. wp_step. cbn [fd_table_max put Lens_fd_world]. rewrite Hin by lia.
  wp_step. eapply wp_table_get; [lia|exact Hgt|]. rewrite bool_decide_eq_false_2 by done.
  wp_step. eapply wp_deref; [exact Hq|]. rewrite Z.eqb_refl. cbn [negb].
  wp_step. eapply wp_assign; [exact Hq|]. set (s1 := put (<[q := set_force_eof 1 g]> (fde_heap (put w2 s))) (put w2 s)).
  wp_step. eapply wp_os_run; [exact Eio|]. revert Hw. unfold shell_ended. cbv zeta.
  destruct (negb _) eqn:Ec; [intros Hw; by wp_step|]. set (s2 := put w3 s1).
  assert (Hq2 : fde_heap s2 !! q = Some (set_force_eof 1 g)) by apply lookup_insert_eq.
  assert (Eput : forall h : gmap ptr fdevent, put h s2 = put w3 (put h s)) by done.
  assert (Eins : forall f', <[q := f']> (fde_heap s2) = <[q := f']> (fde_heap s)) by (intros f'; apply insert_insert_eq).
  intros Hw. wp_step. eapply wp_assign; [exact Hq2|]. rewrite Eput, Eins.
  wp_step. eapply wp_deref; [apply lookup_insert_eq|]. cbn [fde_state set_events set_force_eof].
  fold (pending g). destruct (pending g) eqn:Eg; [by wp_step|].
  wp_step. eapply wp_assign; [apply lookup_insert_eq|].
  unfold wp. rewrite (call_marked client depth _ q (set_events (Z.lor (fde_events g) FDE_READ) (set_force_eof 1 g)) id);
    [|apply lookup_insert_eq|done..].
  cbn [put Lens_fde_heap Lens_fd_world fde_heap fde_fd fde_events fde_arg set_events set_force_eof].
  rewrite !insert_insert_eq, u16_small by (apply lor_u16_range; [done|vm_compute; split; congruence]). exact Hw.
Qed.

(** C23: The end of a shell.  The waiter of the shell of the object [g] (its
    process has a pid, and the notification socket has been made) does not return
    before waitpid has reported that process; until then it has called nothing
    but waitpid, which it repeats also when it fails.  When it has returned, then
    either a write to the notification socket failed, or the handler of the event
    loop, when it reads from the other end the bytes the waiter wrote, finds the
    object of that shell: end of file is forced on its descriptor; if no output
    is left to be read (or that cannot be told), [FDE_READ] is added to its
    events, and its client is called with them unless the object is waiting for
    its call anyway.  Nothing else in the loop is changed. *)
Theorem shell_exit_notified (client : N -> Z -> Z -> ptr -> F unit) (depth : nat) (notify pid : Z) (w : world)
    (s : fdstate) (p q : ptr) (f g : fdevent) (id : N) (evs : Z) :
  posix (w_env w) -> 0 <= notify -> 0 < pid ->
  fd_ok s -> notify_object s p f -> shell_object s q g id -> has evs FDE_READ = true ->
  match subproc_waiter_service notify (fde_fd g) pid w with
  | (Done _, w') =>
      waited pid (calls_since w w') /\
      (write_failed notify (calls_since w w') \/
       forall w2 rcount w3,
         readx (fde_fd f) 4 (fd_world s) = (Done (Some (written_to notify (calls_since w w'))), w2) ->
         syscall (Fionread (fde_fd g)) w2 = (Done rcount, w3) ->
         subproc_event (call_fdfunc client (S depth)) (fde_fd f) evs s = shell_ended client s q g id rcount w3)
  | (Stop x, w') => x = Blocked /\ (waited pid (calls_since w w') \/ only (waits_for pid) (calls_since w w'))
  end.
Proof.
  intros Hp Hn Hpid Hok Hf Hg Hev. assert (Hne : pid <> -1) by lia.
  pose proof (ospec_total _ _ _ w (ospec_waiter _ notify (fde_fd g) pid Hne) Hp) as H.
  destruct (subproc_waiter_service notify (fde_fd g) pid w) as [[[]|x] w']; [|done].
  destruct H as [Hw H]. rewrite (proj2 (Z.geb_le notify 0)) in H by lia.
  split; [done|]. destruct H as [->|]; [right|by left]. intros w2 rcount w3 Erd Eio.
  by eapply subproc_event_runs.
Qed.

(** ** Runs *)

(** A debuggable build, where the daemon runs as the shell user. *)
Definition debuggable_env : env := fun h c =>
  match c return ans c with
  | Property_get _ => Ok (str "1")
  | Getuid => Ok 2000
  | c => ok_default c
  end.

Lemma debuggable_env_posix : posix debuggable_env.
Proof. intros h []; simpl; try done; try (split; [simpl; lia|by constructor]); lia. Qed.

Lemma root_service_guarded_witness :
  let w := boot debuggable_env 20 in
  (restart_root_service 7 w).1 = Done tt /\
  props_set (calls_since w (restart_root_service 7 w).2) = [(str "service.adb.root", str "1")] /\
  match restart_root_service 7 w with
  | (Done _, w') => root_outcome 7 (calls_since w w')
  | (Stop x, w') =>
      x = Blocked /\ (props_set (calls_since w w') <> [] -> may_restart (calls_since w w') = true)
  end.
Proof.
  split; [vm_compute; reflexivity|]. split; [vm_compute; reflexivity|].
  apply (root_service_guarded 7 (boot debuggable_env 20)). exact debuggable_env_posix.
Defined.

(** A loop with the notification socket 5 and a shell on descriptor 6; the end of
    the shell is read from the socket. *)
Definition shell_env : env := fun h c =>
  match c return ans c with
  | Read fd n => if fd =? 5 then Ok (take (Z.to_nat n) (le32 6)) else Ok []
  | Fionread _ => Ok 0
  | c => ok_default c
  end.

Lemma shell_env_posix : posix shell_env.
Proof.
  intros h []; simpl; try done; try (split; [simpl; lia|by constructor]); try lia.
  destruct (_ =? 5); [|split; [simpl; lia|by constructor]].
  split; [rewrite length_take; lia|]. apply Forall_take. by repeat constructor.
Qed.

Definition notify_loop : F unit := p ← fdevent_create 4 5 fdevent_subproc_event_func NULL; fdevent_set p FDE_READ.

Definition notify_state : fdstate := (notify_loop (fd_boot shell_env 50)).2.

Definition shell_state : fdstate := (fdevent_create 4 6 (client_func 7) NULL notify_state).2.

Lemma notify_state_inv : fd_inv notify_state [] /\ posix_state notify_state.
Proof.
  apply (wp_Done notify_loop (fun _ s => fd_inv s [] /\ posix_state s) (fun _ _ => True) (fd_boot shell_env 50) tt); [|done].
  unfold notify_loop. wp_step.
  apply (wp_fdevent_create 5 fdevent_subproc_event_func NULL []); [apply fd_boot_inv|exact shell_env_posix|done| | |by intros|done].
  - intros (p & f & Hf & Ha & _). apply fd_boot_obj in Hf as [Hf _]. unfold active in Ha. by rewrite Hf in Ha.
  - intros p s1 _ _ Hi1 Eh1 Hl1 _.
    eapply wp_fdevent_set; [exact Hi1|rewrite Eh1; apply lookup_insert_eq|].
    intros s2 Hi2 Hf2 _. split.
    + by destruct (_.2) in Hi2.
    + rewrite (frame_world _ _ Hf2). eapply later_posix; [exact Hl1|exact shell_env_posix].
Qed.

Definition shell_ptr : ptr := fresh_addr (fde_heap notify_state).

Lemma shell_state_ok : fd_ok shell_state.
Proof.
  apply (wp_Done (fdevent_create 4 6 (client_func 7) NULL) (fun p s => p <> NULL -> fd_ok s) (fun _ _ => True)
    notify_state shell_ptr); [|by vm_compute|by vm_compute].
  destruct notify_state_inv as [Hi Hpx].
  apply (wp_fdevent_create 6 (client_func 7) NULL []); [exact Hi|exact Hpx|done| | |by intros|done].
  - intros (p & f & (f0 & Hf & <-)%obj_inv & _ & E).
    assert (Hall : map_Forall (fun _ g => fde_fd g <> 6) (fde_heap notify_state)).
    { apply (bool_decide_unpack _). vm_compute. done. }
    by apply (Hall p f0 Hf).
  - intros p s' _ _ Hi' _ _ _ _. apply Hi'.
Qed.

Definition notify_ptr : ptr := fresh_addr (fde_heap (fd_boot shell_env 50)).

Definition idle_object (fd : Z) (st : Z) (func : fd_func) : fdevent :=
  {| fde_next := NULL; fde_prev := NULL; fde_fd := fd; fde_force_eof := 0;
     fde_state := st; fde_events := 0; fde_func := func; fde_arg := NULL |}.

(** The client of the witness keeps what it was called with as its result. *)
Definition told_client (id : N) (fd evs : Z) (arg : ptr) : F unit := stop_with (Abort (if has evs FDE_READ then "read" else "none")).

Lemma shell_exit_notified_witness :
  let w := boot debuggable_env 20 in
  written_to 4 (calls_since w (subproc_waiter_service 4 6 77 w).2) = [6; 0; 0; 0] /\
  (subproc_event (call_fdfunc told_client 1) 5 FDE_READ shell_state).1 = Stop (Abort "read") /\
  match subproc_waiter_service 4 6 77 w with
  | (Done _, w') =>
      waited 77 (calls_since w w') /\
      (write_failed 4 (calls_since w w') \/
       forall w2 rcount w3,
         readx 5 4 (fd_world shell_state) = (Done (Some (written_to 4 (calls_since w w'))), w2) ->
         syscall (Fionread 6) w2 = (Done rcount, w3) ->
         subproc_event (call_fdfunc told_client 1) 5 FDE_READ shell_state =
           shell_ended told_client shell_state shell_ptr (idle_object 6 0x0500 (client_func 7)) 7 rcount w3)
  | (Stop x, w') => x = Blocked /\ (waited 77 (calls_since w w') \/ only (waits_for 77) (calls_since w w'))
  end.
Proof.
  split; [vm_compute; reflexivity|]. split; [vm_compute; reflexivity|].
  apply (shell_exit_notified told_client 0 4 77 (boot debuggable_env 20) shell_state notify_ptr shell_ptr
    (idle_object 5 0x0501 fdevent_subproc_event_func) (idle_object 6 0x0500 (client_func 7)) 7 FDE_READ);
    [exact debuggable_env_posix|lia|lia|exact shell_state_ok|by vm_compute|by vm_compute|done].
Defined.

(** ** What the code gets wrong *)

(** Nothing can be opened, no process created or waited for. *)
Definition failing_env : env := fun h c =>
  match c return ans c with
  | Open _ _ _ => Err 2
  | Wait_status _ => Err 10
  | c => ok_default c
  end.

(** A shell that cannot be started: the pid handed to the waiter was never
    set. *)
Theorem failed_shell_uses_no_pid name n :
  (create_subproc_thread name (boot failing_env (3 + n))).1 = Stop (Undef "indeterminate pid").
Proof. by destruct name. Qed.

(** "tcpip:" without a port: [sscanf] answers EOF and not 0, and the port the
    thread gets was never set. *)
Theorem empty_tcpip_port s :
  (service_to_fd (str "tcpip:") s).1 = Stop (Undef "indeterminate port").
Proof. reflexivity. Qed.

(** When [waitpid] fails the waiter asks again, for ever: it makes every call
    it is given, and all of them are the same. *)
Theorem waiter_spins notify fd pid n :
  pid <> -1 ->
  let '(o, w) := subproc_waiter_service notify fd pid (boot failing_env n) in
  o = Stop Blocked /\ w_hist w = replicate n (ev (Wait_status pid) (Err 10)).
Proof.
  intros Hp.
  assert (H : forall n h e, exists w',
    loop_fuel (S n) (fun _ : unit => wait_round pid) tt
      {| w_env := failing_env; w_hist := h; w_budget := n; w_errno := e |} = (Stop Blocked, w') /\
    w_hist w' = h ++ replicate n (ev (Wait_status pid) (Err 10))).
  { intros m. induction m as [|m IH]; intros h e; [eexists; split; [done|by rewrite app_nil_r]|].
    destruct (IH (h ++ [ev (Wait_status pid) (Err 10)]) 10) as (w' & E & Eh). exists w'.
    split; [|by rewrite Eh, <- app_assoc]. rewrite <- E.
    cbn [loop_fuel]. unfold wait_round, mbind, M_bind, syscall. cbn [w_budget w_env w_hist w_errno failing_env].
    by rewrite (proj2 (Z.eqb_neq pid (-1))) by done. }
  destruct (H n [] 0) as (w' & E & Eh). unfold subproc_waiter_service, loop, mbind, M_bind.
  change (budget (boot failing_env n)) with n. unfold boot. by rewrite E.
Qed.

(** After a failed [fork] the waiter waits for process -1 and reads a status
    that was never stored. *)
Theorem waiter_reads_no_status notify fd n :
  (subproc_waiter_service notify fd (-1) (boot failing_env (S n))).1 = Stop (Undef "indeterminate status").
Proof. reflexivity. Qed.

(** The child of "reboot:" where vdc cannot be executed. *)
Definition no_vdc_env : env := fun h c =>
  match c return ans c with
  | Fork => Ok 0
  | Execl _ _ => Err 2
  | c => ok_default c
  end.

(** The child goes on as if it were the daemon and reboots the device
    itself. *)
Theorem reboot_child_goes_on rb :
  let '(o, w) := reboot_service rb 7 (str "bootloader") (boot no_vdc_env 20) in
  props_set (w_hist w) = [(rb, str "reboot,bootloader")].
Proof. vm_compute. reflexivity. Qed.
