(* ===== verification/CommandLine.v ===== *)
(** * commandline.cpp and console.cpp: the commands of the client

    [adb_commandline] reads the flags, names the device and the server for
    [adb_client.cpp], and runs the command; commands are requests to the
    server, file transfers ([SyncClient]) or shell commands built from the
    arguments.

    The state of a client is the world, the variables of [adb_client.cpp], the
    variables [gProductOutPath] and [gListenAll] and what has been written to
    the standard output.  What goes to the standard error is left out.  An
    argument vector is the list of its strings.  [argv[i][j]] of a string that
    ends at [j] is 0.  The build has [fork] and no termios; [adb_main], the
    server, and [load_file] of libcutils are parameters. *)

From S2P Require Import Prelude Effects DList Os Sysdeps Wire Globals FileSync Sockets Registry Smart Jdwp Host Zip AdbClient StringCov SyncClient.

Module CommandLine.
Import Client SyncClient StringCov.

Record clstate := {
  cl_world : world;
  cl_client : client;
  gProductOutPath : option bytes;
  gListenAll : bool;
  cl_stdout : bytes;
}.

Abbreviation CL := (M clstate).

#[global] Instance Budget_clstate : Budget clstate := fun s => budget (cl_world s).

#[global] Program Instance Lens_cl_world : Lens clstate world := {|
  view := cl_world;
  put w s := {| cl_world := w; cl_client := cl_client s; gProductOutPath := gProductOutPath s;
    gListenAll := gListenAll s; cl_stdout := cl_stdout s |};
|}.
Next Obligation. done. Qed.
Next Obligation. by intros []. Qed.
Next Obligation. done. Qed.

Definition set_client (c : client) (s : clstate) : clstate :=
  {| cl_world := cl_world s; cl_client := c; gProductOutPath := gProductOutPath s; gListenAll := gListenAll s;
     cl_stdout := cl_stdout s |}.

Definition set_product (p : option bytes) (s : clstate) : clstate :=
  {| cl_world := cl_world s; cl_client := cl_client s; gProductOutPath := p; gListenAll := gListenAll s;
     cl_stdout := cl_stdout s |}.

Definition set_listen_all (b : bool) (s : clstate) : clstate :=
  {| cl_world := cl_world s; cl_client := cl_client s; gProductOutPath := gProductOutPath s; gListenAll := b;
     cl_stdout := cl_stdout s |}.

Definition set_stdout (o : bytes) (s : clstate) : clstate :=
  {| cl_world := cl_world s; cl_client := cl_client s; gProductOutPath := gProductOutPath s;
     gListenAll := gListenAll s; cl_stdout := o |}.

Definition osc {A} (m : M world A) : CL A := zoom m.

(** A function of [adb_client.cpp] or [file_sync_client.cpp]. *)
Definition cli {A} (f : client -> M world (A * client)) : CL A :=
  c ← gets cl_client;
  '(a, c) ← osc (f c);
  modify (set_client c);;
  mret a.

Definition printf (text : bytes) : CL unit := modify (fun s => set_stdout (cl_stdout s ++ text) s).

Definition getenv (name : bytes) : CL (option bytes) :=
  r ← osc (syscall (Getenv name));
  mret (match r with Ok v => v | Err _ => None end).

(** [strcmp(a, b) == 0] for a literal [b] *)
Definition same_str (a : bytes) (b : string) : bool := bytes_eqb a (str b).

(** ** Buffers *)

(** [strcat(buf, s)] on [char buf[size]] *)
Definition strcat (size : nat) (buf s : bytes) : CL bytes :=
  if (size <? length buf + length s + 1)%nat then undef "write after the buffer" else mret (buf ++ s).

(** [strncat(buf, s, n)] *)
Definition strncat (size : nat) (buf s : bytes) (n : nat) : CL bytes := strcat size buf (take n s).

(** ** Shell arguments *)

Definition is_quoted_char (c : Z) : bool :=
  (c =? 32) || (c =? 34) || (c =? 92) || (c =? 40) || (c =? 41).

Fixpoint quote_chars (s : bytes) : bytes :=
  match s with
  | [] => []
  | c :: s' => if is_quoted_char c then 92 :: c :: quote_chars s' else c :: quote_chars s'
  end.

(** The length the first loop computes. *)
Fixpoint quoted_length (s : bytes) : nat :=
  match s with
  | [] => 0
  | c :: s' => (if is_quoted_char c then 2 else 1) + quoted_length s'
  end.

(** The result of [malloc] is used without a look at it. *)
Definition dupAndQuote (s : bytes) : CL bytes :=
  m ← osc (syscall (Malloc (Z.of_nat (quoted_length s + 1))));
  match m with
  | Err _ => undef "write to NULL"
  | Ok _ =>
      if (quoted_length s <? length (quote_chars s))%nat then undef "write after the block" else
      mret (quote_chars s)
  end.

(** ** Output and input of a connection *)

Section commands.
(** The width of [long], the build flag HAVE_SYMLINKS, the conversions of Win32,
    the server, and [load_file]. *)
Context (ulong_bits : Z) (have_symlinks : bool).
Context (MultiByteToWideChar : Z -> bytes -> list Z) (WideCharToMultiByte : Z -> list Z -> bytes).
Context (adb_main : bool -> Z -> M world Z) (load_file : bytes -> M world (option bytes)).

Definition cl_connect (service : bytes) : CL Z := cli (fun c => adb_connect ulong_bits c service).

Definition cl_query (service : bytes) : CL (option bytes) := cli (fun c => adb_query ulong_bits c service).

Definition cl_command (service : bytes) : CL Z := cli (fun c => adb_command ulong_bits c service).

(** The buffer keeps what earlier reads stored behind the new bytes, and
    [strlen] looks for the first NUL in all of it. *)
Definition read_and_dump (fd : Z) : CL unit :=
  loop (fun buf : bytes =>
    if fd <? 0 then mret (inr tt) else
    r ← osc (adb_read fd 4096);
    match r with
    | Err e => mret (if e =? EINTR then inl buf else inr tt)
    | Ok bs =>
        if (length bs =? 0)%nat then mret (inr tt) else
        let buf := bs ++ drop (length bs) buf in
        if bool_decide (0 ∉ buf) then undef "strlen after the buffer" else
        printf (to_gbk MultiByteToWideChar WideCharToMultiByte (cstr buf));;
        mret (inl buf)
    end) (replicate 4096 0).

(** The result of [adb_write] is ignored. *)
Definition copy_to_file (inFd outFd : Z) : CL unit :=
  m ← osc (syscall (Malloc 32768));
  loop (fun _ : unit =>
    match m with
    | Err _ => undef "read into NULL"
    | Ok _ =>
        r ← osc (adb_read inFd 32768);
        match r with
        | Err e => mret (if e =? EINTR then inl tt else inr tt)
        | Ok bs =>
            if (length bs =? 0)%nat then mret (inr tt) else
            osc (adb_write outFd bs);;
            mret (inl tt)
        end
    end) tt.

(** The state of the escape sequence after a byte; [None] is [exit(0)]. *)
Definition escape_step (state c : Z) : option Z :=
  if c =? 10 then Some 1 else
  if c =? 13 then Some 1 else
  if c =? 126 then Some (if state =? 1 then 2 else state) else
  if (c =? 46) && (state =? 2) then None else
  Some 0.

Fixpoint escape_scan (state : Z) (s : bytes) : option Z :=
  match s with
  | [] => Some state
  | c :: s' =>
      match escape_step state c with
      | None => None
      | Some state' => escape_scan state' s'
      end
  end.

(** As in [read_and_dump] the buffer keeps earlier bytes. *)
Definition stdin_read_thread (fd fdi : Z) : CL unit :=
  loop (fun '(state, buf) =>
    r ← osc (adb_read fdi 1024);
    match r with
    | Err e => mret (if e =? EINTR then inl (state, buf) else inr tt)
    | Ok bs =>
        if (length bs =? 0)%nat then mret (inr tt) else
        match escape_scan state bs with
        | None => abort "exit(0)"
        | Some state =>
            let buf := bs ++ drop (length bs) buf in
            if bool_decide (0 ∉ buf) then undef "strlen after the buffer" else
            w ← osc (adb_write fd (GBK_to_UTF8 MultiByteToWideChar WideCharToMultiByte (cstr buf)));
            if rc_int w <=? 0 then mret (inr tt) else mret (inl (state, buf))
        end
    end) (0, replicate 1024 0).

Definition interactive_shell : CL Z :=
  fd ← cl_connect (str "shell:");
  if fd <? 0 then mret 1 else
  m ← osc (syscall (Malloc 8));
  match m with
  | Err _ => undef "write to NULL"
  | Ok _ =>
      osc (syscall (Thread_create "stdin_read_thread"));;
      read_and_dump fd;;
      mret 0
  end.

Definition format_host_command (buflen : nat) (command : bytes) (ttype : transport_type) (serial : option bytes) : bytes :=
  match serial with
  | Some serial => snprintf buflen (str "host-serial:" ++ serial ++ [58] ++ command)
  | None =>
      let prefix :=
        match ttype with
        | kTransportUsb => str "host-usb"
        | kTransportLocal => str "host-local"
        | _ => str "host"
        end in
      snprintf buflen (prefix ++ [58] ++ command)
  end.

(** The chunks of [data], written in order; false when a write failed. *)
Fixpoint send_chunks (fuel : nat) (fd : Z) (data : bytes) : CL bool :=
  match fuel, data with
  | _, [] => mret true
  | O, _ => stop_with Diverge
  | S fuel', _ =>
      w ← osc (writex fd (take 65536 data));
      if negb (w =? 0) then mret false else
      send_chunks fuel' fd (drop 65536 data)
  end.

Definition adb_download_buffer (service data : bytes) : CL Z :=
  let request := service ++ [58] ++ fmt_d (Z.of_nat (length data)) in
  if (4096 <? length request + 1)%nat then undef "sprintf after the buffer" else
  fd ← cl_connect request;
  if fd <? 0 then mret (-1) else
  osc (syscall (Setsockopt fd 7 65536));;
  ok ← send_chunks (S (length data)) fd data;
  if negb ok then cli (fun c => adb_status ulong_bits c fd);; mret (-1) else
  b ← osc (readx fd 4);
  match b with
  | None => osc (adb_close fd);; mret (-1)
  | Some buf =>
      osc (adb_close fd);;
      mret (if bytes_eqb buf (str "OKAY") then 0 else -1)
  end.

Definition adb_download (service fn : bytes) : CL Z :=
  data ← osc (load_file fn);
  match data with
  | None => mret (-1)
  | Some data => adb_download_buffer service data
  end.

(** The text between the two escape sequences and the state; a state that cannot
    be had leaves the last one remembered. *)
Definition status_window (ttype : transport_type) (serial : option bytes) : CL unit :=
  fd ← osc (unix_open (str "/dev/null") O_WRONLY 0);
  osc (syscall (Dup2 (rc_int fd) 2));;
  osc (adb_close (rc_int fd));;
  let command := format_host_command 4096 (str "get-state") ttype serial in
  loop (fun laststate : option bytes =>
    osc (adb_sleep_ms 250);;
    state ← cl_query command;
    let state := cstr <$> state in
    match state with
    | Some st =>
        if bool_decide (laststate = Some st) then mret (inl laststate) else
        printf ([27] ++ str "[2J" ++ [27] ++ str "[2HAndroid Debug Bridge" ++ [10] ++ str "State: " ++ st ++ [10]);;
        mret (inl (Some st))
    | None =>
        printf ([27] ++ str "[2J" ++ [27] ++ str "[2HAndroid Debug Bridge" ++ [10] ++ str "State: offline" ++ [10]);;
        mret (inl laststate)
    end) None.

(** [argv] with [argv[0]]; a successful [execvp] does not return. *)
Definition ppp (argv : list bytes) : CL Z :=
  match argv with
  | _ :: adb_service_name :: opts =>
      fd ← cl_connect adb_service_name;
      if fd <? 0 then mret 1 else
      pid ← osc (syscall Fork);
      let pid := rc_int pid in
      if pid <? 0 then mret 1 else
      if pid =? 0 then
        osc (syscall (Dup2 fd 0));;
        osc (syscall (Dup2 fd 1));;
        osc (adb_close 2);;
        osc (adb_close fd);;
        osc (syscall (Execvp (str "pppd") (str "pppd" :: opts)));;
        abort "replaced by pppd, or exit(-1)"
      else
        osc (adb_close fd);;
        mret 0
  | _ => mret 1
  end.

(** ** Shell commands *)

Section recursive.
(** [adb_commandline], which [do_cmd] calls. *)
Context (adb_commandline : list bytes -> CL Z).

Definition do_cmd (ttype : transport_type) (serial : option bytes) (cmd : list bytes) : CL Z :=
  let device :=
    match serial with
    | Some serial => [str "-s"; serial]
    | None =>
        match ttype with
        | kTransportUsb => [str "-d"]
        | kTransportLocal => [str "-e"]
        | _ => []
        end
    end in
  adb_commandline (device ++ cmd).

Definition send_shellcommand (transport : transport_type) (serial : option bytes) (buf : bytes) : CL Z :=
  fd ← loop (fun _ : unit =>
    fd ← cl_connect buf;
    if fd >=? 0 then mret (inr fd) else
    osc (adb_sleep_ms 1000);;
    do_cmd transport serial [str "wait-for-device"];;
    mret (inl tt)) tt;
  read_and_dump fd;;
  ret ← osc (adb_close fd);
  mret (rc ret).

(** Each argument quoted and appended after a space; the bound given to
    [strncat] is that of the whole buffer. *)
Fixpoint append_args (buf : bytes) (args : list bytes) : CL bytes :=
  match args with
  | [] => mret buf
  | a :: args' =>
      quoted ← dupAndQuote a;
      buf ← strncat 4096 buf [32] 4095;
      buf ← strncat 4096 buf quoted 4095;
      append_args buf args'
  end.

Definition logcat (transport : transport_type) (serial : option bytes) (argv : list bytes) : CL Z :=
  log_tags ← getenv (str "ANDROID_LOG_TAGS");
  quoted_log_tags ← dupAndQuote (default [] log_tags);
  let buf := snprintf 4096 (str "shell:export ANDROID_LOG_TAGS=" ++ [34] ++ quoted_log_tags ++ [34] ++ str " ; exec logcat") in
  match argv with
  | [] => undef "argv[0]"
  | cmd :: args =>
      buf ← (if same_str cmd "longcat" then strncat 4096 buf (str " -v long") 4095 else mret buf);
      buf ← append_args buf args;
      send_shellcommand transport serial buf;;
      mret 0
  end.

Definition pm_command (transport : transport_type) (serial : option bytes) (argv : list bytes) : CL Z :=
  buf ← append_args (str "shell:pm") argv;
  send_shellcommand transport serial buf;;
  mret 0.

Definition uninstall_app (transport : transport_type) (serial : option bytes) (argv : list bytes) : CL Z :=
  match argv with
  | [_; k; app] => if same_str k "-k" then
        printf (str "The -k option uninstalls the application while retaining the data/cache." ++ [10]
          ++ str "At the moment, there is no way to remove the remaining data." ++ [10]
          ++ str "You will have to reinstall the application with the same signature, and fully uninstall it." ++ [10]
          ++ str "If you truly wish to continue, execute 'adb shell pm uninstall -k " ++ app ++ str "'" ++ [10]);;
        mret (-1)
      else pm_command transport serial argv
  | _ => pm_command transport serial argv
  end.

Definition delete_file (transport : transport_type) (serial : option bytes) (filename : bytes) : CL Z :=
  quoted ← dupAndQuote filename;
  buf ← strncat 4096 (str "shell:rm ") quoted 4095;
  send_shellcommand transport serial buf;;
  mret 0.

Definition get_basename (filename : bytes) : bytes :=
  match adb_dirstop filename with Some i => drop (S i) filename | None => filename end.

(** 1 when the file cannot be installed. *)
Definition check_file (filename : option bytes) : CL Z :=
  match filename with
  | None => mret 0
  | Some filename =>
      r ← osc (syscall (Stat (to_gbk MultiByteToWideChar WideCharToMultiByte filename)));
      match r with
      | Err _ => mret 1
      | Ok st => mret (if S_ISREG (st_mode st) then 0 else 1)
      end
  end.

(** *** [install_app] *)

Definition DATA_DEST : bytes := str "/data/local/tmp/".
Definition SD_DEST : bytes := str "/sdcard/tmp/".

(** The first argument that is not an option, from index [i] on, with the place
    to install from and whether to verify; the loop skips the argument of some
    options. *)
Fixpoint find_apk (fuel : nat) (argv : list bytes) (i : nat) (where_ : bytes) (verify : bool) : option nat * bytes * bool :=
  match fuel with
  | O => (None, where_, verify)
  | S fuel' =>
      match argv !! i with
      | None => (None, where_, verify)
      | Some a =>
          if negb (nth 0 a 0 =? 45) then (Some i, where_, verify) else
          if same_str a "-i" then find_apk fuel' argv (i + 2) where_ verify else
          if same_str a "-s" then find_apk fuel' argv (i + 1) SD_DEST verify else
          if same_str a "--algo" || same_str a "--iv" || same_str a "--key" then find_apk fuel' argv (i + 2) where_ false else
          find_apk fuel' argv (i + 1) where_ verify
      end
  end.

(** [snprintf(dest, PATH_MAX, where, get_basename(file))] *)
Definition dest_of (where_ file : bytes) : bytes := snprintf 4096 (where_ ++ get_basename file).

(** The label [cleanup_apk]. *)
Definition cleanup_apk (transport : transport_type) (serial : option bytes) (verification_dest : option bytes)
    (apk_dest : bytes) (err : Z) : CL Z :=
  (match verification_dest with
   | Some d => delete_file transport serial d;; skip
   | None => skip
   end);;
  delete_file transport serial apk_dest;;
  mret err.

Definition push (lpath rpath : bytes) (verify progress : bool) : CL Z :=
  cli (fun c => do_sync_push ulong_bits have_symlinks MultiByteToWideChar WideCharToMultiByte c lpath rpath verify progress).

(** The files are copied to the device and installed from there. *)
Definition install_files (transport : transport_type) (serial : option bytes) (argv : list bytes) (file_arg : nat)
    (where_ apk_file : bytes) (verification_file : option bytes) (verify : bool) : CL Z :=
  let apk_dest := dest_of where_ apk_file in
  let verification_dest := dest_of where_ <$> verification_file in
  if bool_decide (verification_dest = Some apk_dest) then mret 1 else
  err ← push apk_file apk_dest verify false;
  if negb (err =? 0) then cleanup_apk transport serial verification_dest apk_dest err else
  let argv := <[file_arg := apk_dest]> argv in
  match verification_file, verification_dest with
  | Some file, Some dest =>
      err ← push file dest false false;
      if negb (err =? 0) then cleanup_apk transport serial verification_dest apk_dest err else
      pm_command transport serial (<[S file_arg := dest]> argv);;
      cleanup_apk transport serial verification_dest apk_dest err
  | _, _ =>
      pm_command transport serial argv;;
      cleanup_apk transport serial verification_dest apk_dest err
  end.

Definition install_app (transport : transport_type) (serial : option bytes) (argv : list bytes) : CL Z :=
  let '(file_arg, where_, verify) := find_apk (length argv) argv 1 DATA_DEST true in
  match file_arg with
  | None => mret 1
  | Some file_arg =>
      if (file_arg + 2 <? length argv)%nat then mret 1 else
      apk_file ← must "argv[file_arg]" (fun _ => argv !! file_arg);
      let verification_file := argv !! S file_arg in
      a ← check_file (Some apk_file);
      if negb (a =? 0) then mret 1 else
      b ← check_file verification_file;
      if negb (b =? 0) then mret 1 else
      install_files transport serial argv file_arg where_ apk_file verification_file verify
  end.

(** ** Backup and restore *)

(** The directories of [path], as the daemon makes them. *)
Definition mkdirs (path : bytes) : CL Z :=
  match path with
  | [] => undef "read after the path"
  | _ =>
      loop (fun x : nat =>
        match adb_dirstart (drop x path) with
        | None => mret (inr 0)
        | Some i =>
            r ← osc (adb_mkdir (take (x + i) path) 509);
            match r with
            | Err e => if negb (e =? EEXIST) then mret (inr (-1)) else mret (inl (S (x + i)))
            | Ok _ => mret (inl (S (x + i)))
            end
        end) 1%nat
  end.

(** The position of the first "-f" from [i] on. *)
Fixpoint find_f (argv : list bytes) (i : nat) : option nat :=
  match argv with
  | [] => None
  | a :: argv' => if same_str a "-f" then Some i else find_f argv' (S i)
  end.

(** The name of the file and the other arguments; [None] is [usage()].  The
    arguments behind "-f" and its name move down over them; the loop does not
    look at them again. *)
Definition backup_file (argv : list bytes) : option (bytes * list bytes) :=
  match find_f (tail argv) 1 with
  | None => Some (str "./backup.ab", argv)
  | Some i =>
      match argv !! S i with
      | None => None
      | Some filename => Some (filename, take i argv ++ drop (i + 2) argv)
      end
  end.

Fixpoint backup_request (buf : bytes) (args : list bytes) : CL bytes :=
  match args with
  | [] => mret buf
  | a :: args' =>
      buf ← strncat 4096 buf [58] (4096 - length buf - 1);
      buf ← strncat 4096 buf a (4096 - length buf - 1);
      backup_request buf args'
  end.

Definition backup (argv : list bytes) : CL Z :=
  match backup_file argv with
  | None => mret 1
  | Some (filename, argv) =>
      if (length argv <? 2)%nat then mret 1 else
      osc (adb_unlink filename);;
      mkdirs filename;;
      o ← osc (adb_creat filename 416);
      let outFd := rc_int o in
      if outFd <? 0 then mret (-1) else
      buf ← backup_request (str "backup") (tail argv);
      fd ← cl_connect buf;
      if fd <? 0 then osc (adb_close outFd);; mret (-1) else
      printf (str "Now unlock your device and confirm the backup operation." ++ [10]);;
      copy_to_file fd outFd;;
      osc (adb_close fd);;
      osc (adb_close outFd);;
      mret 0
  end.

Definition restore (argv : list bytes) : CL Z :=
  match argv with
  | [_; filename] =>
      t ← osc (adb_open filename O_RDONLY);
      let tarFd := rc_int t in
      if tarFd <? 0 then mret (-1) else
      fd ← cl_connect (str "restore:");
      if fd <? 0 then osc (adb_close tarFd);; mret (-1) else
      printf (str "Now unlock your device and confirm the restore operation." ++ [10]);;
      copy_to_file tarFd fd;;
      osc (adb_close fd);;
      osc (adb_close tarFd);;
      mret 0
  | _ => mret 1
  end.

(** ** The product directory *)

Definition product_file (extra : bytes) : CL bytes :=
  p ← gets gProductOutPath;
  match p with
  | None => abort "exit(1)"
  | Some path =>
      m ← osc (syscall (Malloc (Z.of_nat (length path) + Z.of_nat (length extra) + 2)));
      match m with
      | Err _ => abort "exit(1)"
      | Ok _ => mret (path ++ 47 :: extra)
      end
  end.

Definition SENTINEL_FILE : bytes := str "config/envsetup.make".

Definition access_ok (path : bytes) : CL bool :=
  a ← osc (syscall (Access path));
  mret (rc a =? 0).

Definition top_works (top : bytes) : CL bool :=
  if adb_is_absolute_host_path top then access_ok (snprintf 4096 (top ++ 47 :: SENTINEL_FILE)) else mret false.

(** [strcpy(path_buf, s)] with [char path_buf[PATH_MAX]] *)
Definition path_copy (s : bytes) : CL bytes :=
  if (4096 <? length s + 1)%nat then undef "strcpy after the buffer" else mret s.

(** The directory itself or one above it; each turn makes the path shorter. *)
Fixpoint search_up (fuel : nat) (path : bytes) : CL (option bytes) :=
  match fuel with
  | O => stop_with Diverge
  | S fuel' =>
      ok ← top_works path;
      if (ok : bool) then mret (Some path) else
      match adb_dirstop path with
      | Some i => search_up fuel' (take i path)
      | None => mret None
      end
  end.

Definition find_top_from (indir : bytes) : CL (option bytes) :=
  path ← path_copy indir;
  search_up (S (length path)) path.

(** A directory named by the environment: [inl] is a value that does not work,
    [inr None] that none was given. *)
Definition env_top (name : bytes) : CL (unit + option bytes) :=
  top ← getenv name;
  match top with
  | Some (c :: rest) =>
      ok ← top_works (c :: rest);
      mret (if (ok : bool) then inr (Some (c :: rest)) else inl tt)
  | _ => mret (inr None)
  end.

(** The result of [getcwd] is used without a look at it. *)
Definition find_top : CL (option bytes) :=
  top ← env_top (str "ANDROID_BUILD_TOP");
  top ← (match top with inr None => env_top (str "TOP") | _ => mret top end);
  match top with
  | inl _ => mret None
  | inr (Some top) => path ← path_copy top; mret (Some path)
  | inr None =>
      r ← osc (syscall (Getcwd 4096));
      match r with
      | Err _ => undef "strcpy from NULL"
      | Ok dir =>
          top ← find_top_from dir;
          match top with
          | Some _ => mret top
          | None =>
              dir ← osc (get_my_path PATH_MAX);
              find_top_from dir
          end
      end
  end.

Definition find_product_out_path (hint : bytes) : CL (option bytes) :=
  match hint with
  | [] => mret None
  | _ =>
      if adb_is_absolute_host_path hint then path ← path_copy hint; mret (Some path) else
      match adb_dirstart hint with
      | Some _ =>
          r ← osc (syscall (Getcwd 4096));
          match r with
          | Err _ => mret None
          | Ok dir =>
              if (4096 <=? length dir + 1 + length hint)%nat then mret None else
              mret (Some (dir ++ 47 :: hint))
          end
      | None =>
          top ← find_top;
          match top with
          | None => mret None
          | Some top =>
              let path := snprintf 4096 (top ++ str "/out/target/product/" ++ hint) in
              ok ← access_ok path;
              mret (if (ok : bool) then Some path else None)
          end
      end
  end.

(** The directories for "/system" and for "/data"; [None] is a result of 1. *)
Definition find_sync_dirs (srcarg : option bytes) : CL (option (option bytes * option bytes)) :=
  match srcarg with
  | None =>
      a ← product_file (str "system");
      d ← product_file (str "data");
      mret (Some (Some a, Some d))
  | Some srcarg =>
      if same_str srcarg "system" then a ← product_file (str "system"); mret (Some (Some a, None)) else
      if same_str srcarg "data" then d ← product_file (str "data"); mret (Some (None, Some d)) else
      mret None
  end.

(** ** The console of an emulator (console.cpp) *)

Definition connect_to_console : CL Z :=
  port ← cli (adb_get_emulator_console_port ulong_bits);
  if port <? 0 then mret (-1) else
  r ← osc (syscall (Loopback_client port));
  if rc_int r <? 0 then mret (-1) else mret (rc_int r).

Fixpoint write_words (fd : Z) (args : list bytes) : CL unit :=
  match args with
  | [] => skip
  | a :: args' =>
      osc (adb_write fd a);;
      osc (adb_write fd [match args' with [] => 10 | _ => 32 end]);;
      write_words fd args'
  end.

Definition adb_send_emulator_command (argv : list bytes) : CL Z :=
  fd ← connect_to_console;
  if fd <? 0 then mret 1 else
  write_words fd (tail argv);;
  osc (adb_write fd (str "quit" ++ [10]));;
  osc (adb_close fd);;
  mret 0.

(** ** The commands *)

(** [tmp = adb_query(buf); if(tmp) { printf("%s\n", tmp); return 0; } return 1;] *)
Definition print_query (buf : bytes) : CL Z :=
  tmp ← cl_query buf;
  match tmp with
  | Some tmp => printf (cstr tmp ++ [10]);; mret 0
  | None => mret 1
  end.

Definition cmd_devices (argv : list bytes) : CL Z :=
  let ask listopt :=
    tmp ← cl_query (snprintf 4096 (str "host:devices" ++ listopt));
    match tmp with
    | Some tmp => printf (str "List of devices attached " ++ [10] ++ cstr tmp ++ [10]);; mret 0
    | None => mret 1
    end in
  match argv with
  | [_; l] => if same_str l "-l" then ask l else mret 1
  | [_] => ask []
  | _ => mret 1
  end.

Definition cmd_connect (argv : list bytes) : CL Z :=
  match argv with
  | [_; host] => print_query (snprintf 4096 (str "host:connect:" ++ host))
  | _ => mret 1
  end.

Definition cmd_disconnect (argv : list bytes) : CL Z :=
  match argv with
  | [_; host] => print_query (snprintf 4096 (str "host:disconnect:" ++ host))
  | [_] => print_query (snprintf 4096 (str "host:disconnect:"))
  | _ => mret 1
  end.

(** The arguments behind the first; one that is empty or has a space is put
    between quotes. *)
Fixpoint shell_args (buf : bytes) (args : list bytes) : CL bytes :=
  match args with
  | [] => mret buf
  | a :: args' =>
      let quote := match a with [] => true | _ => bool_decide (is_Some (strchr 32 a)) end in
      buf ← strcat 4096 buf [32];
      buf ← (if quote then strcat 4096 buf [34] else mret buf);
      buf ← strcat 4096 buf a;
      buf ← (if quote then strcat 4096 buf [34] else mret buf);
      shell_args buf args'
  end.

Definition cmd_shell (ttype : transport_type) (serial : option bytes) (persist : bool) (argv : list bytes) : CL Z :=
  let h := match argv with c :: _ => nth 0 c 0 =? 104 | [] => false end in
  let reset := if h then printf ([27] ++ str "[0m") else skip in
  (if h then printf ([27] ++ str "[41;33m") else skip);;
  match argv with
  | _ :: first :: args =>
      buf ← shell_args (snprintf 4096 (str "shell:" ++ first)) args;
      loop (fun _ : unit =>
        fd ← cl_connect buf;
        r ← (if fd >=? 0 then
               read_and_dump fd;;
               osc (adb_close fd);;
               mret 0
             else mret (-1));
        if (persist : bool) then
          osc (adb_sleep_ms 1000);;
          do_cmd ttype serial [str "wait-for-device"];;
          mret (inl tt)
        else
          reset;;
          mret (inr r)) tt
  | _ =>
      r ← interactive_shell;
      reset;;
      mret r
  end.

Definition cmd_kill_server : CL Z :=
  fd ← cli (fun c => _adb_connect ulong_bits c (str "host:kill"));
  mret (if fd =? -1 then 1 else 0).

Definition cmd_sideload (argv : list bytes) : CL Z :=
  match argv with
  | [_; file] => r ← adb_download (str "sideload") file; mret (if negb (r =? 0) then 1 else 0)
  | _ => mret 1
  end.

(** [remount], [reboot], [tcpip], [usb] and [root]; [char command[100]] *)
Definition cmd_service (argv : list bytes) : CL Z :=
  let command :=
    match argv with
    | cmd :: args =>
        if same_str cmd "reboot-bootloader" then snprintf 100 (str "reboot:bootloader") else
        match args with
        | arg :: _ => snprintf 100 (cmd ++ 58 :: arg)
        | [] => snprintf 100 (cmd ++ [58])
        end
    | [] => []
    end in
  fd ← cl_connect command;
  if fd >=? 0 then
    read_and_dump fd;;
    osc (adb_close fd);;
    mret 0
  else mret 1.

(** *** Forwarding *)

Record forward_opts := { f_list : bool; f_remove : bool; f_remove_all : bool; f_no_rebind : bool }.

(** The options behind "forward"; [None] is [usage()]. *)
Fixpoint forward_options (o : forward_opts) (args : list bytes) : option (forward_opts * list bytes) :=
  match args with
  | a :: args' =>
      if negb (nth 0 a 0 =? 45) then Some (o, args) else
      let '(Build_forward_opts l r ra n) := o in
      if same_str a "--list" then forward_options (Build_forward_opts true r ra n) args' else
      if same_str a "--remove" then forward_options (Build_forward_opts l true ra n) args' else
      if same_str a "--remove-all" then forward_options (Build_forward_opts l r true n) args' else
      if same_str a "--no-rebind" then forward_options (Build_forward_opts l r ra true) args' else
      None
  | [] => Some (o, [])
  end.

(** [char host_prefix[64]] *)
Definition forward_prefix (ttype : transport_type) (serial : option bytes) : bytes :=
  match serial with
  | Some serial => snprintf 64 (str "host-serial:" ++ serial)
  | None =>
      match ttype with
      | kTransportUsb => str "host-usb"
      | kTransportLocal => str "host-local"
      | _ => str "host"
      end
  end.

(** The request in [buf]; [None] is [usage()]. *)
Definition forward_request (prefix : bytes) (o : forward_opts) (args : list bytes) : option bytes :=
  if f_list o then
    match args with
    | [] => Some (snprintf 4096 (prefix ++ str ":list-forward"))
    | _ => None
    end
  else if f_remove_all o then
    match args with
    | [] => Some (snprintf 4096 (prefix ++ str ":killforward-all"))
    | _ => None
    end
  else if f_remove o then
    match args with
    | [local] => Some (snprintf 4096 (prefix ++ str ":killforward:" ++ local))
    | _ => None
    end
  else
    match args with
    | [local; remote] =>
        let command := if f_no_rebind o then str "forward:norebind:" else str "forward" in
        Some (snprintf 4096 (prefix ++ 58 :: command ++ 58 :: local ++ 59 :: remote))
    | _ => None
    end.

Definition cmd_forward (ttype : transport_type) (serial : option bytes) (argv : list bytes) : CL Z :=
  match forward_options (Build_forward_opts false false false false) (tail argv) with
  | None => mret 1
  | Some (o, args) =>
      if Z.b2z (f_list o) + Z.b2z (f_remove o) + Z.b2z (f_remove_all o) + Z.b2z (f_no_rebind o) >? 1 then mret 1 else
      match forward_request (forward_prefix ttype serial) o args with
      | None => mret 1
      | Some buf =>
          if f_list o then
            forwards ← cl_query buf;
            match forwards with
            | None => mret 1
            | Some forwards => printf (cstr forwards);; mret 0
            end
          else
            r ← cl_command buf;
            mret (if negb (r =? 0) then 1 else 0)
      end
  end.

(** *** File transfer *)

(** The paths and whether to show the progress; a path that is not given keeps
    its value. *)
Definition parse_push_pull_args (args : list bytes) (path1 path2 : option bytes) : option bytes * option bytes * bool :=
  let '(args, show_progress) :=
    match args with
    | a :: args' => if same_str a "-p" then (args', true) else (args, false)
    | [] => (args, false)
    end in
  match args with
  | [] => (path1, path2, show_progress)
  | [a] => (Some a, path2, show_progress)
  | a :: b :: _ => (Some a, Some b, show_progress)
  end.

Definition cmd_ls (argv : list bytes) : CL Z :=
  match argv with
  | [_; path] =>
      '(r, out) ← cli (fun c => do_sync_ls ulong_bits MultiByteToWideChar WideCharToMultiByte c path);
      printf out;;
      mret r
  | _ => mret 1
  end.

Definition cmd_push (argv : list bytes) : CL Z :=
  match parse_push_pull_args (tail argv) None None with
  | (Some lpath, Some rpath, show_progress) => push lpath rpath false show_progress
  | _ => mret 1
  end.

Definition cmd_pull (argv : list bytes) : CL Z :=
  match parse_push_pull_args (tail argv) None (Some (str ".")) with
  | (Some rpath, Some lpath, show_progress) =>
      cli (fun c => do_sync_pull ulong_bits have_symlinks MultiByteToWideChar WideCharToMultiByte c rpath lpath show_progress)
  | _ => mret 1
  end.

Definition sync_dir (path : option bytes) (rpath : bytes) (listonly : bool) (ret : Z) : CL Z :=
  match path with
  | Some path =>
      if ret =? 0 then
        cli (fun c => do_sync_sync ulong_bits have_symlinks c path rpath listonly)
      else mret ret
  | None => mret ret
  end.

Definition cmd_sync (argv : list bytes) : CL Z :=
  let run srcarg listonly :=
    dirs ← find_sync_dirs srcarg;
    match dirs with
    | None => mret 1
    | Some (android_srcpath, data_srcpath) =>
        ret ← sync_dir android_srcpath (str "/system") listonly 0;
        sync_dir data_srcpath (str "/data") listonly ret
    end in
  match argv with
  | [] | [_] => run None false
  | _ :: l :: rest =>
      if same_str l "-l" then run (match rest with [src] => Some src | _ => None end) true else
      match rest with
      | [] => run (Some l) false
      | _ => mret 1
      end
  end.

(** *** Waiting *)

Definition wait_service (service : bytes) (ttype : transport_type) : bytes :=
  if has_prefix (str "wait-for-device") service then
    match ttype with
    | kTransportUsb => str "wait-for-usb"
    | kTransportLocal => str "wait-for-local"
    | _ => str "wait-for-any"
    end
  else service.

Definition cmd_jdwp : CL Z :=
  fd ← cl_connect (str "jdwp");
  if fd >=? 0 then
    read_and_dump fd;;
    osc (adb_close fd);;
    mret 0
  else mret (-1).

Definition version : CL unit :=
  printf (str "Android Debug Bridge version 1.0." ++ fmt_d ADB_SERVER_VERSION ++ [10]).

Definition one_of (a : bytes) (l : list string) : bool := existsb (same_str a) l.

(** From the label [top] on. *)
Fixpoint run_command (ttype : transport_type) (serial : option bytes) (persist : bool) (argv : list bytes) : CL Z :=
  match argv with
  | [] => mret 1
  | cmd :: args =>
      if same_str cmd "devices" then cmd_devices argv else
      if same_str cmd "connect" then cmd_connect argv else
      if same_str cmd "disconnect" then cmd_disconnect argv else
      if same_str cmd "emu" then adb_send_emulator_command argv else
      if one_of cmd ["shell"; "hell"] then cmd_shell ttype serial persist argv else
      if same_str cmd "kill-server" then cmd_kill_server else
      if same_str cmd "sideload" then cmd_sideload argv else
      if one_of cmd ["remount"; "reboot"; "reboot-bootloader"; "tcpip"; "usb"; "root"] then cmd_service argv else
      if same_str cmd "bugreport" then
        match args with
        | [] => do_cmd ttype serial [str "shell"; str "bugreport"];; mret 0
        | _ => mret 1
        end
      else
      if has_prefix (str "wait-for-") cmd then
        r ← cl_command (format_host_command 4096 (wait_service cmd ttype) ttype serial);
        if negb (r =? 0) then mret 1 else
        match args with
        | [] => mret 0
        | _ => run_command ttype serial persist args
        end
      else
      if same_str cmd "forward" then cmd_forward ttype serial argv else
      if same_str cmd "ls" then cmd_ls argv else
      if same_str cmd "push" then cmd_push argv else
      if same_str cmd "pull" then cmd_pull argv else
      if same_str cmd "install" then match args with [] => mret 1 | _ => install_app ttype serial argv end else
      if same_str cmd "uninstall" then match args with [] => mret 1 | _ => uninstall_app ttype serial argv end else
      if same_str cmd "sync" then cmd_sync argv else
      if one_of cmd ["get-state"; "get-serialno"; "get-devpath"] then print_query (format_host_command 4096 cmd ttype serial) else
      if same_str cmd "status-window" then status_window ttype serial;; mret 0 else
      if one_of cmd ["logcat"; "lolcat"; "longcat"] then logcat ttype serial argv else
      if same_str cmd "ppp" then ppp argv else
      if same_str cmd "start-server" then cl_connect (str "host:start-server") else
      if same_str cmd "backup" then backup argv else
      if same_str cmd "restore" then restore argv else
      if same_str cmd "jdwp" then cmd_jdwp else
      if one_of cmd ["help"; "/?"] then mret 0 else
      if same_str cmd "version" then version;; mret 0 else
      mret 1
  end.

(** *** Flags *)

Record flags := {
  no_daemon : bool;
  is_daemon : bool;
  is_server : bool;
  persist : bool;
  ttype : transport_type;
  serial : option bytes;
  server_port : Z;
}.

Definition set_is_server (o : flags) : flags :=
  {| no_daemon := no_daemon o; is_daemon := is_daemon o; is_server := true; persist := persist o; ttype := ttype o;
     serial := serial o; server_port := server_port o |}.
Definition set_no_daemon (o : flags) : flags :=
  {| no_daemon := true; is_daemon := is_daemon o; is_server := is_server o; persist := persist o; ttype := ttype o;
     serial := serial o; server_port := server_port o |}.
Definition set_is_daemon (o : flags) : flags :=
  {| no_daemon := no_daemon o; is_daemon := true; is_server := is_server o; persist := persist o; ttype := ttype o;
     serial := serial o; server_port := server_port o |}.
Definition set_persist (o : flags) : flags :=
  {| no_daemon := no_daemon o; is_daemon := is_daemon o; is_server := is_server o; persist := true; ttype := ttype o;
     serial := serial o; server_port := server_port o |}.
Definition set_ttype (t : transport_type) (o : flags) : flags :=
  {| no_daemon := no_daemon o; is_daemon := is_daemon o; is_server := is_server o; persist := persist o; ttype := t;
     serial := serial o; server_port := server_port o |}.
Definition set_serial (s : bytes) (o : flags) : flags :=
  {| no_daemon := no_daemon o; is_daemon := is_daemon o; is_server := is_server o; persist := persist o; ttype := ttype o;
     serial := Some s; server_port := server_port o |}.
Definition set_server_port (p : Z) (o : flags) : flags :=
  {| no_daemon := no_daemon o; is_daemon := is_daemon o; is_server := is_server o; persist := persist o; ttype := ttype o;
     serial := serial o; server_port := p |}.

(** [(int) strtol(s, NULL, 0)] *)
Definition strtol_0 (s : bytes) : Z :=
  let '(neg, s2) := sign (skip_spaces s) in
  let '(base, digits) := detect_base s2 in
  let v := with_sign neg (scan_digits base digits 0) in
  s32 (Z.max (- 2 ^ (ulong_bits - 1)) (Z.min (2 ^ (ulong_bits - 1) - 1) v)).

(** The port a string names, when it may be one. *)
Definition port_of (s : bytes) : option Z :=
  let p := strtol_0 s in
  if (p <=? 0) || (p >? 65535) then None else Some p.

(** [gProductOutPath = find_product_out_path(product)], false for [usage()] *)
Definition set_product_path (product : bytes) : CL bool :=
  p ← find_product_out_path product;
  modify (set_product p);;
  mret (bool_decide (is_Some p)).

Definition set_host (name : bytes) : CL unit :=
  modify (fun s => set_client (adb_set_tcp_name (Some name) (cl_client s)) s).

(** The flags before the command, and the rest; [None] is [usage()]. *)
Fixpoint parse_flags (o : flags) (argv : list bytes) : CL (option (flags * list bytes)) :=
  match argv with
  | [] => mret (Some (o, []))
  | a :: rest =>
      if same_str a "server" then parse_flags (set_is_server o) rest else
      if same_str a "nodaemon" then parse_flags (set_no_daemon o) rest else
      if same_str a "fork-server" then parse_flags (set_is_daemon o) rest else
      if same_str a "persist" then parse_flags (set_persist o) rest else
      if has_prefix (str "-p") a then
        match drop 2 a, rest with
        | [], [] => mret None
        | [], product :: rest' => ok ← set_product_path product; if (ok : bool) then parse_flags o rest' else mret None
        | product, _ => ok ← set_product_path product; if (ok : bool) then parse_flags o rest else mret None
        end
      else
      if (nth 0 a 0 =? 45) && (nth 1 a 0 =? 115) then
        if (48 <=? nth 2 a 0) && (nth 2 a 0 <=? 57) then parse_flags (set_serial (drop 2 a) o) rest else
        match rest with
        | [] => mret None
        | s :: rest' => if negb (nth 2 a 0 =? 0) then mret None else parse_flags (set_serial s o) rest'
        end
      else
      if same_str a "-d" then parse_flags (set_ttype kTransportUsb o) rest else
      if same_str a "-e" then parse_flags (set_ttype kTransportLocal o) rest else
      if same_str a "-a" then modify (set_listen_all true);; parse_flags o rest else
      if has_prefix (str "-H") a then
        match drop 2 a, rest with
        | [], [] => mret None
        | [], name :: rest' => set_host name;; parse_flags o rest'
        | name, _ => set_host name;; parse_flags o rest
        end
      else
      if has_prefix (str "-P") a then
        match drop 2 a, rest with
        | [], [] => mret None
        | [], [] :: rest' => mret None
        | [], p :: rest' =>
            match port_of p with Some p => parse_flags (set_server_port p o) rest' | None => mret None end
        | p, _ => match port_of p with Some p => parse_flags (set_server_port p o) rest | None => mret None end
        end
      else mret (Some (o, argv))
  end.

(** A variable of the environment; a value that is not empty. *)
Definition nonempty (v : option bytes) : option bytes := match v with Some [] => None | _ => v end.

(** The values before the flags; [None] is [usage()]. *)
Definition initial_flags : CL (option flags) :=
  p ← getenv (str "ANDROID_PRODUCT_OUT");
  modify (set_product (nonempty p));;
  s ← getenv (str "ANDROID_SERIAL");
  port ← getenv (str "ANDROID_ADB_SERVER_PORT");
  let o := {| no_daemon := false; is_daemon := false; is_server := false; persist := false; ttype := kTransportAny;
              serial := s; server_port := DEFAULT_ADB_PORT |} in
  mret (match nonempty port with
        | None => Some o
        | Some port => (fun p => set_server_port p o) <$> port_of port
        end).

Definition adb_commandline_body (argv : list bytes) : CL Z :=
  o ← initial_flags;
  match o with
  | None => mret 1
  | Some o =>
      r ← parse_flags o argv;
      match r with
      | None => mret 1
      | Some (o, argv) =>
          modify (fun s => set_client (adb_set_tcp_specifics (server_port o)
            (adb_set_transport (ttype o) (serial o) (cl_client s))) s);;
          if is_server o then
            if no_daemon o || is_daemon o then osc (adb_main (is_daemon o) (server_port o))
            else osc (launch_server (server_port o))
          else run_command (ttype o) (serial o) (persist o) argv
      end
  end.
End recursive.

(** [do_cmd] calls [adb_commandline] again; [depth] bounds how often. *)
Fixpoint adb_commandline (depth : nat) (argv : list bytes) : CL Z :=
  match depth with
  | O => stop_with Diverge
  | S depth' => adb_commandline_body (adb_commandline depth') argv
  end.
End commands.

End CommandLine.
