(* ===== verification/CommandLineSpec.v ===== *)
(** * Correctness of the commands of the client *)

From Stdlib Require Import FunctionalExtensionality.
From S2P Require Import Prelude Effects DList Os Sysdeps Wire Globals FileSync Sockets Registry Smart Jdwp Host Zip AdbClient StringCov SyncClient CommandLine.

Import Client SyncClient StringCov CommandLine.

(** ** The escape sequence of the interactive shell *)

Definition newline (c : Z) : Prop := c = 10 \/ c = 13.

(** A line that begins with tildes and a full stop. *)
Definition escapes (s : bytes) : Prop :=
  exists pre nl k post, newline nl /\ s = pre ++ nl :: replicate (S k) 126 ++ 46 :: post.

(** The state after the input [seen]. *)
Definition remembers (state : Z) (seen : bytes) : Prop :=
  match state with
  | 0 => ~ (exists pre nl k, newline nl /\ seen = pre ++ nl :: replicate k 126)
  | 1 => exists pre nl, newline nl /\ seen = pre ++ [nl]
  | 2 => exists pre nl k, newline nl /\ seen = pre ++ nl :: replicate (S k) 126
  | _ => False
  end.

Lemma last_tildes pre nl k pre' nl' k' : newline nl -> newline nl' ->
  pre ++ nl :: replicate k 126 = pre' ++ nl' :: replicate k' 126 -> k = k'.
Proof.
  intros Hn Hn'. revert k'. induction k as [|k IH]; intros [|k'] E; [done| | |].
  - exfalso. rewrite replicate_S_end in E. change (pre ++ [nl] = pre' ++ (nl' :: replicate k' 126) ++ [126]) in E.
    rewrite app_assoc in E. apply app_inj_tail in E as [_ ->]. by destruct Hn.
  - exfalso. rewrite replicate_S_end in E. change (pre ++ (nl :: replicate k 126) ++ [126] = pre' ++ [nl']) in E.
    rewrite app_assoc in E. apply app_inj_tail in E as [_ <-]. by destruct Hn'.
  - f_equal. apply IH. rewrite !replicate_S_end in E.
    change (pre ++ (nl :: replicate k 126) ++ [126] = pre' ++ (nl' :: replicate k' 126) ++ [126]) in E.
    rewrite !app_assoc in E. by apply app_inj_tail in E as [E _].
Qed.

Lemma snoc_tildes seen c pre nl k : seen ++ [c] = pre ++ nl :: replicate k 126 ->
  (k = 0%nat /\ c = nl /\ seen = pre) \/ exists k', k = S k' /\ c = 126 /\ seen = pre ++ nl :: replicate k' 126.
Proof.
  destruct k as [|k]; intros E.
  - apply app_inj_tail in E as [-> ->]. by left.
  - right. exists k. rewrite replicate_S_end in E. change (seen ++ [c] = pre ++ (nl :: replicate k 126) ++ [126]) in E.
    rewrite app_assoc in E. by apply app_inj_tail in E as [-> ->].
Qed.

Lemma remembers_two st seen : remembers st seen ->
  (exists pre nl k, newline nl /\ seen = pre ++ nl :: replicate (S k) 126) -> st = 2.
Proof.
  intros Hr (pre & nl & k & Hn & ->). destruct st as [|p|p]; [| |done].
  - exfalso. apply Hr. by exists pre, nl, (S k).
  - destruct p as [p|[p|p|]|]; try done. destruct Hr as (pre' & nl' & Hn' & E). exfalso.
    by apply (last_tildes pre nl (S k) pre' nl' 0) in E.
Qed.

Lemma remembers_step st seen c st' : remembers st seen -> escape_step st c = Some st' -> remembers st' (seen ++ [c]).
Proof.
  intros Hr. unfold escape_step.
  destruct (Z.eqb_spec c 10) as [->|H10]; [intros [= <-]; exists seen, 10; split; [by left|done]|].
  destruct (Z.eqb_spec c 13) as [->|H13]; [intros [= <-]; exists seen, 13; split; [by right|done]|].
  destruct (Z.eqb_spec c 126) as [->|H126].
  - destruct (Z.eqb_spec st 1) as [->|H1]; intros [= <-].
    + destruct Hr as (pre & nl & Hn & ->). exists pre, nl, 0%nat. split; [done|]. by rewrite <- app_assoc.
    + destruct st as [|[p|[p|p|]|]|p]; try done.
      * intros (pre & nl & k & Hn & E). apply snoc_tildes in E as [(_ & <- & _)|(k' & _ & _ & ->)]; [by destruct Hn|].
        apply Hr. by exists pre, nl, k'.
      * destruct Hr as (pre & nl & k & Hn & ->). exists pre, nl, (S k). split; [done|].
        rewrite <- app_assoc. f_equal. rewrite (replicate_S_end (S k)). done.
  - destruct (_ && _) eqn:E; [done|]. intros [= <-] (pre & nl & k & Hn & Es).
    apply snoc_tildes in Es as [(_ & -> & _)|(k' & _ & -> & _)]; [by destruct Hn|done].
Qed.

Lemma escape_scan_spec s st seen : remembers st seen ->
  escape_scan st s = None <->
  exists p q, s = p ++ 46 :: q /\ exists pre nl k, newline nl /\ seen ++ p = pre ++ nl :: replicate (S k) 126.
Proof.
  revert st seen. induction s as [|c s IH]; intros st seen Hr; cbn [escape_scan].
  { split; [done|]. intros ([|? ?] & q & [=] & _). }
  destruct (escape_step st c) as [st'|] eqn:E.
  - rewrite (IH st' (seen ++ [c])) by (by eapply remembers_step). split.
    + intros (p & q & -> & H). exists (c :: p), q. split; [done|]. by rewrite <- app_assoc in H.
    + intros (p & q & Es & H). destruct p as [|c' p].
      * exfalso. injection Es as -> _. rewrite app_nil_r in H. apply (remembers_two _ _ Hr) in H as ->. by vm_compute in E.
      * injection Es as <- ->. exists p, q. split; [done|]. by rewrite <- app_assoc.
  - split; [|done]. intros _. unfold escape_step in E.
    destruct (c =? 10); [done|]. destruct (c =? 13); [done|]. destruct (c =? 126); [done|].
    destruct (Z.eqb_spec c 46) as [->|]; [|done]. destruct (Z.eqb_spec st 2) as [->|]; [|done].
    exists [], s. split; [done|]. by rewrite app_nil_r.
Qed.

(** C27: the interactive shell is left by the escape sequence and by nothing else
    that is typed: the bytes read from the terminal, in whatever pieces, make
    [stdin_read_thread] exit exactly when somewhere a line begins with one or
    more tildes followed by a full stop, and a line feed or a carriage return
    precedes it. *)
Theorem escape_detected (pieces : list bytes) :
  foldl (fun st s => st ≫= fun st => escape_scan st s) (Some 0) pieces = None <-> escapes (concat pieces).
Proof.
  assert (Hc : forall st, foldl (fun st s => st ≫= fun st => escape_scan st s) (Some st) pieces = escape_scan st (concat pieces)).
  { assert (Happ : forall a b st, escape_scan st (a ++ b) = escape_scan st a ≫= fun st => escape_scan st b).
    { induction a as [|c a IH]; intros b st; [done|]. cbn. destruct (escape_step st c); [apply IH|done]. }
    assert (Hn : forall l, foldl (fun st s => st ≫= fun st => escape_scan st s) None l = None) by (by induction l).
    induction pieces as [|p l IH]; intros st; [done|]. cbn. rewrite Happ. destruct (escape_scan st p); cbn; [apply IH|apply Hn]. }
  rewrite Hc, (escape_scan_spec _ 0 []) by (intros ([|? ?] & ? & ? & _ & E); done). split.
  - intros (p & q & -> & pre & nl & k & Hn & E). cbn in E. exists pre, nl, k, q. split; [done|]. rewrite E. by rewrite <- app_assoc.
  - intros (pre & nl & k & post & Hn & ->). exists (pre ++ nl :: replicate (S k) 126), post.
    split; [by rewrite <- app_assoc|]. by exists pre, nl, k.
Qed.

(** ** Shell commands *)

(** The characters that mean something to a POSIX shell outside of quotes (XCU
    2.2), without the blank and the backslash; NUL cannot be in a line. *)
Definition sh_special (c : Z) : bool :=
  bool_decide (c ∈ [9; 10; 124; 38; 59; 60; 62; 40; 41; 36; 96; 34; 39; 42; 63; 91; 35; 126; 61; 37; 0]).

Definition ordinary (c : Z) : Prop := c <> 92 /\ c <> 32 /\ sh_special c = false.

(** A token of ordinary characters and characters after a backslash, and the word
    it stands for: "a backslash that is not quoted preserves the literal value of
    the following character, with the exception of a newline" (XCU 2.2.1). *)
Inductive token : bytes -> bytes -> Prop :=
| token_nil : token [] []
| token_plain c t w : ordinary c -> token t w -> token (c :: t) (c :: w)
| token_escaped c t w : c <> 10 -> c <> 0 -> token t w -> token (92 :: c :: t) (c :: w).

(** The words that are not the name of a command (XCU 2.4). *)
Definition reserved : list bytes :=
  str <$> ["!"; "{"; "}"; "case"; "do"; "done"; "elif"; "else"; "esac"; "fi"; "for"; "if"; "in"; "then"; "until"; "while"]%string.

(** What the client relies on of the shell of the device, which is not part of the
    program: a line of tokens with one blank between them is a command of the
    words they stand for. *)
Class PosixShell (words : bytes -> option (list bytes)) : Prop :=
  words_of_tokens t w ts ws : t <> [] -> token t w -> w ∉ reserved ->
    Forall2 (fun t w => t <> [] /\ token t w) ts ws ->
    words (t ++ (ts ≫= cons 32)) = Some (w :: ws).

(** An argument [dupAndQuote] can carry: not empty, and no special character
    other than the quote and the parentheses. *)
Definition carried (c : Z) : bool := is_quoted_char c || negb (sh_special c).

Definition plain_arg (a : bytes) : Prop := a <> [] /\ Forall (fun c => carried c = true) a.

(** What [dupAndQuote] makes of such an argument stands for it. *)
Lemma quoted_token a : Forall (fun c => carried c = true) a -> token (quote_chars a) a.
Proof.
  induction 1 as [|c a Hc _ IH]; [constructor|]. cbn [quote_chars]. destruct (is_quoted_char c) eqn:Hq.
  - constructor; [by intros ->|by intros ->|done].
  - constructor; [|done]. unfold carried in Hc. rewrite Hq in Hc. apply negb_true_iff in Hc.
    unfold ordinary. split_and!; [by intros ->|by intros ->|done].
Qed.

Lemma quoted_nonempty a : a <> [] -> quote_chars a <> [].
Proof. destruct a as [|c a]; [done|]. intros _. cbn. by destruct (is_quoted_char c). Qed.

(** The text [append_args] adds. *)
Definition args_text (args : list bytes) : bytes := args ≫= fun a => 32 :: quote_chars a.

Lemma args_text_tokens args : args_text args = (quote_chars <$> args) ≫= cons 32.
Proof. unfold args_text. induction args as [|a args IH]; [done|]. cbn. by rewrite IH. Qed.

Lemma args_tokens args : Forall plain_arg args ->
  Forall2 (fun t w => t <> [] /\ token t w) (quote_chars <$> args) args.
Proof.
  induction 1 as [|a args [Hne Ha] _ IH]; [constructor|]. constructor; [|done].
  split; [by apply quoted_nonempty|by apply quoted_token].
Qed.

Lemma quoted_length_ok s : length (quote_chars s) = quoted_length s.
Proof. induction s as [|c s IH]; [done|]. cbn. destruct (is_quoted_char c); cbn; by rewrite IH. Qed.

(** Memory is never refused. *)
Definition memory (e : env) : Prop := forall h n, exists u, e h (Malloc n) = Ok u.

(** [k] calls later, nothing but the world has changed. *)
Definition later_by (k : nat) (s s' : clstate) : Prop :=
  exists w, s' = put w s /\ w_env w = w_env (cl_world s) /\ budget (cl_world s) = (k + budget w)%nat.

Lemma dupAndQuote_run a s : memory (w_env (cl_world s)) -> (1 <= budget (cl_world s))%nat ->
  exists s', dupAndQuote a s = (Done (quote_chars a), s') /\ later_by 1 s s'.
Proof.
  intros Hm Hb. unfold dupAndQuote. rewrite quoted_length_ok, Nat.ltb_irrefl.
  destruct s as [w c p g o]. cbn [cl_world] in *. unfold budget, Budget_world in Hb.
  destruct (w_budget w) as [|n] eqn:En; [lia|]. destruct (Hm (w_hist w) (Z.of_nat (quoted_length a + 1))) as [[] Eu].
  unfold osc, zoom, mbind, M_bind, syscall. cbn [view Lens_cl_world cl_world]. rewrite En, Eu.
  eexists. split; [reflexivity|]. eexists. split; [reflexivity|]. split; [done|]. cbn. unfold budget, Budget_world. cbn. lia.
Qed.

Lemma append_args_run args buf s :
  memory (w_env (cl_world s)) -> (length args <= budget (cl_world s))%nat ->
  (length (buf ++ args_text args) < 4096)%nat ->
  exists s', append_args buf args s = (Done (buf ++ args_text args), s') /\ later_by (length args) s s'.
Proof.
  revert buf s. induction args as [|a args IH]; intros buf s Hm Hb Hl.
  - exists s. rewrite app_nil_r. split; [done|]. exists (cl_world s). by destruct s.
  - cbn [append_args]. destruct (dupAndQuote_run a s Hm) as (s1 & E1 & w1 & -> & Ee & Eb); [cbn in Hb; lia|].
    rewrite (bind_done _ _ _ _ _ E1). unfold args_text in Hl. cbn [mbind list_bind app] in Hl. fold (args_text args) in Hl.
    rewrite !length_app, length_cons, length_app in Hl.
    unfold strncat, strcat. rewrite !take_ge by (cbn; lia).
    destruct (Nat.ltb_spec 4096 (length buf + length [32] + 1)); [cbn in *; lia|]. rewrite bind_ret.
    destruct (Nat.ltb_spec 4096 (length (buf ++ [32]) + length (quote_chars a) + 1));
      [rewrite length_app in *; cbn in *; lia|]. rewrite bind_ret.
    destruct (IH ((buf ++ [32]) ++ quote_chars a) (put w1 s)) as (s2 & E2 & w2 & -> & Ee2 & Eb2).
    + cbn. by rewrite Ee.
    + cbn in *. lia.
    + rewrite !length_app. cbn. lia.
    + rewrite E2. exists (put w2 (put w1 s)). split.
      * f_equal. f_equal. unfold args_text. cbn [mbind list_bind app]. by rewrite <- !app_assoc.
      * exists w2. split; [by destruct s|]. cbn in *. split; [congruence|]. lia.
Qed.

Section shell.
Context (words : bytes -> option (list bytes)) `{!PosixShell words}.

End shell.

Definition start_state (e : env) (n : nat) : clstate :=
  {| cl_world := boot e n; cl_client := client0; gProductOutPath := None; gListenAll := false; cl_stdout := [] |}.

(** A shell for such lines: [cur] is the word that is being read. *)
Fixpoint sh_split (cur : option bytes) (s : bytes) : option (list bytes) :=
  match s with
  | [] => Some (match cur with Some w => [w] | None => [] end)
  | c :: s' =>
      if c =? 92 then
        match s' with
        | [] => None
        | d :: s'' => if d =? 10 then None else sh_split (Some (default [] cur ++ [d])) s''
        end
      else if c =? 32 then
        match cur with
        | Some w => (cons w) <$> sh_split None s'
        | None => sh_split None s'
        end
      else if sh_special c then None
      else sh_split (Some (default [] cur ++ [c])) s'
  end.

Lemma sh_split_token t w cur rest : token t w ->
  sh_split cur (t ++ rest) = sh_split (match t with [] => cur | _ => Some (default [] cur ++ w) end) rest.
Proof.
  intros H. revert cur. induction H as [|c t w (H1 & H2 & H3) Ht IH|c t w H1 H2 Ht IH]; intros cur; [done| |].
  - cbn [app sh_split]. apply Z.eqb_neq in H1 as ->. apply Z.eqb_neq in H2 as ->. rewrite H3, IH.
    destruct t; [by inversion Ht; subst|]. cbn. by rewrite <- app_assoc.
  - cbn [app sh_split Z.eqb]. apply Z.eqb_neq in H1 as ->. rewrite IH.
    destruct t; [by inversion Ht; subst|]. cbn. by rewrite <- app_assoc.
Qed.

#[global] Instance sh_split_posix : PosixShell (sh_split None).
Proof.
  intros t w ts ws Hne Ht _ H. rewrite (sh_split_token t w) by exact Ht. destruct t as [|c t]; [done|].
  cbn [default app]. clear Hne Ht. revert w. induction H as [|t2 w2 ts ws [Hne Ht] _ IH]; intros w; [done|].
  cbn [mbind list_bind app sh_split Z.eqb].
  change ((cons w) <$> sh_split None (t2 ++ (ts ≫= cons 32)) = Some (w :: w2 :: ws)).
  rewrite (sh_split_token t2 w2) by exact Ht. destruct t2 as [|d t2]; [done|]. cbn [default app]. by rewrite IH.
Qed.


(** ** Forwarding: the request and the server that reads it *)

Lemma has_prefix_before p a x b : x ∉ p -> has_prefix p (a ++ x :: b) = true -> has_prefix p a = true.
Proof.
  revert a. induction p as [|c p IH]; intros a Hx H; [done|]. apply not_elem_of_cons in Hx as [Hc Hx].
  destruct a as [|c' a]; cbn in *; apply andb_true_iff in H as [Hcc H].
  - apply Z.eqb_eq in Hcc. congruence.
  - rewrite Hcc. by apply IH.
Qed.

Lemma strchr_found c a b : c ∉ a -> strchr c (a ++ c :: b) = Some (length a).
Proof.
  induction a as [|x a IH]; intros Ha; cbn; [by rewrite Z.eqb_refl|]. apply not_elem_of_cons in Ha as [Hx Ha].
  rewrite (proj2 (Z.eqb_neq x c)) by congruence. by rewrite IH.
Qed.

Definition no_options : forward_opts := Build_forward_opts false false false false.

(** a forwarding the client asks for is the one the server makes.  The request
    for [adb forward local remote] is the prefix that names the device, a colon
    and a service the server's [handle_host_request] takes for a forwarding;
    from it the server reads exactly [local] and [remote], and that an existing
    forwarding may be replaced.  [local] has no semicolon and does not begin
    like an option of the server, [remote] does not begin with a star, and the
    request fits into the client's buffer. *)
Theorem forward_request_understood prefix local remote :
  local <> [] -> remote <> [] -> 59 ∉ local -> has_prefix (str "norebind:") local = false -> nth 0 remote 0 <> 42 ->
  (length prefix + length local + length remote + 10 < 4096)%nat ->
  exists service, forward_request prefix no_options [local; remote] = Some (prefix ++ 58 :: service) /\
    forward_spec true (drop 8 service) = Some (local, remote, false) /\
    forall sizeof_ptr usb_close usb_kick fmt_p listen_all usb_cleanup ttype serial fd s,
      handle_host_request sizeof_ptr usb_close usb_kick fmt_p listen_all usb_cleanup service ttype serial fd s
      = request_forward sizeof_ptr listen_all true (drop 8 service) ttype serial fd.
Proof.
  intros Hl Hr Hs Hn Hstar Hlen. exists (str "forward:" ++ local ++ 59 :: remote). split_and!.
  - unfold forward_request. cbn [no_options f_list f_remove_all f_remove f_no_rebind]. f_equal.
    unfold snprintf. rewrite take_ge; [done|]. rewrite length_app, length_cons, length_app, length_cons, length_app, length_cons.
    change (length (str "forward")) with 7%nat. lia.
  - change (drop 8 _) with (local ++ 59 :: remote). unfold forward_spec, strip.
    destruct (has_prefix (str "norebind:") (local ++ 59 :: remote)) eqn:E.
    { apply has_prefix_before in E; [congruence|]. apply (bool_decide_eq_true (59 ∉ str "norebind:")). by vm_compute. }
    rewrite strchr_found by done. rewrite take_app_length.
    change (drop (S (length local)) (local ++ 59 :: remote)) with (drop (S (length local)) (local ++ [59] ++ remote)).
    rewrite app_assoc, drop_app_length' by (rewrite length_app; cbn; lia).
    destruct local as [|c local]; [done|]. destruct remote as [|d remote]; [done|]. cbn in Hstar.
    by rewrite (proj2 (Z.eqb_neq d 42)).
  - intros. reflexivity.
Qed.

Lemma forward_request_understood_witness :
  exists service, forward_request (str "host") no_options [str "tcp:5000"; str "tcp:6000"] = Some (str "host" ++ 58 :: service) /\
    forward_spec true (drop 8 service) = Some (str "tcp:5000", str "tcp:6000", false).
Proof.
  destruct (forward_request_understood (str "host") (str "tcp:5000") (str "tcp:6000")) as (svc & H1 & H2 & _);
    [done|done|by apply (bool_decide_eq_true _); vm_compute|done|done|apply Nat.ltb_lt; by vm_compute|].
  exists svc. split; [exact H1|exact H2].
Defined.

(** With "--no-rebind" the request has a colon too many: the server takes it for
    part of the local name, and no socket can be bound to such a name. *)
Lemma no_rebind_never_binds local remote listen_all :
  59 ∉ local -> remote <> [] -> nth 0 remote 0 <> 42 ->
  (length local + length remote + 30 < 4096)%nat ->
  exists service,
    forward_request (str "host") (Build_forward_opts false false false true) [local; remote] = Some (str "host:forward:" ++ service) /\
    forward_spec true service = Some (58 :: local, remote, true) /\
    local_name_to_fd listen_all (58 :: local) = mret (-1).
Proof.
  intros Hs Hr Hstar Hlen. exists (str "norebind:" ++ 58 :: local ++ 59 :: remote). split_and!; [| |done].
  - unfold forward_request. cbn [f_list f_remove_all f_remove f_no_rebind]. f_equal. unfold snprintf.
    rewrite take_ge; [done|]. repeat (rewrite length_app || rewrite length_cons).
    change (length (str "host")) with 4%nat. change (length (str "forward:norebind:")) with 17%nat.
    lia.
  - unfold forward_spec. change (strip (str "norebind:") _) with (Some (58 :: local ++ 59 :: remote)). cbv iota beta.
    change (58 :: local ++ 59 :: remote) with ((58 :: local) ++ 59 :: remote).
    rewrite strchr_found by (apply not_elem_of_cons; split; [done|done]). rewrite take_app_length.
    change ((58 :: local) ++ 59 :: remote) with ((58 :: local) ++ [59] ++ remote).
    rewrite app_assoc, drop_app_length' by (rewrite length_app; cbn; lia).
    destruct remote as [|d remote]; [done|]. cbn in Hstar. by rewrite (proj2 (Z.eqb_neq d 42)).
Qed.

(** ** Calling itself *)

Section depth.
Context (ulong_bits : Z) (have_symlinks : bool).
Context (MultiByteToWideChar : Z -> bytes -> list Z) (WideCharToMultiByte : Z -> list Z -> bytes).
Context (adb_main : bool -> Z -> M world Z) (load_file : bytes -> M world (option bytes)).

Abbreviation body := (adb_commandline_body ulong_bits have_symlinks MultiByteToWideChar WideCharToMultiByte adb_main load_file).

Abbreviation run rec := (run_command ulong_bits have_symlinks MultiByteToWideChar WideCharToMultiByte load_file rec).

Abbreviation line := (adb_commandline ulong_bits have_symlinks MultiByteToWideChar WideCharToMultiByte adb_main load_file).

(** The two commands [do_cmd] is used for. *)
Definition again : list (list bytes) := [[str "wait-for-device"]; [str "shell"; str "bugreport"]].

Definition agree (rec rec' : list bytes -> CL Z) : Prop :=
  forall ttype serial cmd, cmd ∈ again -> do_cmd rec ttype serial cmd = do_cmd rec' ttype serial cmd.

Lemma send_shellcommand_agree rec rec' : agree rec rec' ->
  send_shellcommand ulong_bits MultiByteToWideChar WideCharToMultiByte rec
  = send_shellcommand ulong_bits MultiByteToWideChar WideCharToMultiByte rec'.
Proof.
  intros H. extensionality t. extensionality s. extensionality b. unfold send_shellcommand.
  by rewrite (H t s [str "wait-for-device"]) by apply list_elem_of_here.
Qed.

Lemma run_command_agree rec rec' ttype serial persist argv : agree rec rec' ->
  run rec ttype serial persist argv = run rec' ttype serial persist argv.
Proof.
  intros H. pose proof (send_shellcommand_agree rec rec' H) as Hs.
  induction argv as [|cmd args IH]; [done|]. cbn [run_command].
  rewrite (H ttype serial [str "shell"; str "bugreport"]) by (right; apply list_elem_of_here).
  unfold cmd_shell, install_app, install_files, cleanup_apk, uninstall_app, pm_command, delete_file, logcat.
  rewrite (H ttype serial [str "wait-for-device"]) by apply list_elem_of_here.
  rewrite Hs. by rewrite IH.
Qed.

Lemma bind_ext {S A B} (m : M S A) (k k' : A -> M S B) : (forall a, k a = k' a) -> m ≫= k = m ≫= k'.
Proof. intros H. by replace k' with k by (extensionality a; apply H). Qed.

Lemma bind_modify {S A} f (k : unit -> M S A) s : (modify f ≫= k) s = k tt (f s).
Proof. done. Qed.

Lemma body_agree rec rec' : agree rec rec' -> body rec = body rec'.
Proof.
  intros H. extensionality argv. unfold adb_commandline_body. apply bind_ext. intros [o|]; [|reflexivity].
  apply bind_ext. intros [[o' argv']|]; [|reflexivity]. apply bind_ext. intros [].
  rewrite (run_command_agree rec rec') by exact H. reflexivity.
Qed.

(** Before the flags nothing is persistent. *)
Lemma initial_flags_fresh s o s' : initial_flags ulong_bits s = (Done (Some o), s') ->
  persist o = false /\ ttype o = kTransportAny /\ is_server o = false.
Proof.
  unfold initial_flags, getenv, osc, zoom, mbind, M_bind, modify, mret, M_ret.
  repeat match goal with |- context [match ?m with (_, _) => _ end] => destruct m as [[?|?] ?]; try done end.
  intros E. injection E as E _. destruct (nonempty _); [|by injection E as <-].
  destruct (port_of _ _); [|done]. by injection E as <-.
Qed.

(** The arguments that name the device. *)
Definition device (ttype : transport_type) (serial : option bytes) : list bytes :=
  match serial with
  | Some serial => [str "-s"; serial]
  | None => match ttype with kTransportUsb => [str "-d"] | kTransportLocal => [str "-e"] | _ => [] end
  end.

(** What the flags of [do_cmd] make of the initial values. *)
Definition device_flags (ttype : transport_type) (serial : option bytes) (o : flags) : flags :=
  match serial with
  | Some serial => set_serial serial o
  | None => match ttype with kTransportUsb => set_ttype kTransportUsb o | kTransportLocal => set_ttype kTransportLocal o | _ => o end
  end.

Lemma parse_device ttype serial cmd o : cmd ∈ again ->
  parse_flags ulong_bits o (device ttype serial ++ cmd) = mret (Some (device_flags ttype serial o, cmd)).
Proof.
  intros Hc. unfold again in Hc. rewrite !elem_of_cons, elem_of_nil in Hc.
  destruct Hc as [->|[->|[]]]; destruct serial, ttype; reflexivity.
Qed.

(** These commands do not call [adb_commandline] again. *)
Lemma again_closed rec rec' o cmd : cmd ∈ again -> persist o = false ->
  run rec (ttype o) (serial o) (persist o) cmd = run rec' (ttype o) (serial o) (persist o) cmd.
Proof.
  intros Hc Hp. rewrite Hp. unfold again in Hc. rewrite !elem_of_cons, elem_of_nil in Hc. by destruct Hc as [->|[->|[]]].
Qed.

Lemma body_closed rec rec' ttype serial cmd : cmd ∈ again ->
  body rec (device ttype serial ++ cmd) = body rec' (device ttype serial ++ cmd).
Proof.
  intros Hc. extensionality s. unfold adb_commandline_body.
  destruct (initial_flags ulong_bits s) as [[[o|]|x] s1] eqn:E.
  - destruct (initial_flags_fresh s o s1 E) as (Hp & _ & Hsv). rewrite !(bind_done _ _ _ _ _ E), !(parse_device _ _ _ _ Hc), !bind_ret.
    rewrite !bind_modify.
    assert (H : persist (device_flags ttype serial o) = false /\ is_server (device_flags ttype serial o) = false).
    { unfold device_flags. by destruct serial, ttype. }
    destruct H as [H1 ->]. by rewrite (again_closed rec rec') by done.
  - by rewrite !(bind_done _ _ _ _ _ E).
  - by rewrite !(bind_stop _ _ _ _ _ E).
Qed.

Lemma bodies_agree rec rec' : agree (body rec) (body rec').
Proof. intros ttype serial cmd Hc. exact (body_closed rec rec' ttype serial cmd Hc). Qed.
End depth.

(** C29: the client calls its own command line at most once more.  [adb_commandline]
    uses itself for waiting for the device and for the bug report, with the
    flags that name the same device; these commands never do so again.  So a
    depth of two is enough for every command line: whatever function stands
    for the calls below that depth, nothing changes. *)
Theorem commandline_depth ulong_bits have_symlinks mb wc adb_main load_file (deeper : list bytes -> CL Z) argv s :
  let body := adb_commandline_body ulong_bits have_symlinks mb wc adb_main load_file in
  body (body deeper) argv s = adb_commandline ulong_bits have_symlinks mb wc adb_main load_file 2 argv s.
Proof.
  cbn [adb_commandline]. rewrite (body_agree _ _ _ _ _ _ _ _ (bodies_agree _ _ _ _ _ _ deeper (fun _ => stop_with Diverge))).
  reflexivity.
Qed.

(** ** Flags *)

(** The device a request is for ([switch_socket_transport]). *)
Definition addressed (ttype : transport_type) (serial : option bytes) (c : client) : option bytes :=
  transport_service (adb_set_transport ttype serial c).

(** [do_cmd] stays with the device.  The flags it puts before a command are
    read back by [adb_commandline] as the device the caller was using, so that
    the nested command addresses the same one; a caller without a serial number
    has none in the environment either. *)
Theorem do_cmd_same_device ulong_bits ttype0 serial0 cmd o s c :
  cmd ∈ again -> ttype o = kTransportAny -> ttype0 <> kTransportHost ->
  (serial0 = None -> serial o = None) ->
  exists o', parse_flags ulong_bits o (device ttype0 serial0 ++ cmd) s = (Done (Some (o', cmd)), s) /\
    addressed (ttype o') (serial o') c = addressed ttype0 serial0 c /\ server_port o' = server_port o.
Proof.
  intros Hc Ht Hh Hs. exists (device_flags ttype0 serial0 o). split_and!.
  - by rewrite parse_device.
  - unfold addressed, device_flags. destruct serial0; [done|]. rewrite <- Hs by done.
    destruct ttype0; try done. cbn. by rewrite Ht.
  - unfold device_flags. by destruct serial0, ttype0.
Qed.

Definition fresh_flags (port : Z) : flags :=
  {| no_daemon := false; is_daemon := false; is_server := false; persist := false; ttype := kTransportAny;
     serial := None; server_port := port |}.

Lemma do_cmd_same_device_witness :
  exists o', parse_flags 64 (fresh_flags 5037) (device kTransportUsb None ++ [str "wait-for-device"]) (start_state ready_env 9)
      = (Done (Some (o', [str "wait-for-device"])), start_state ready_env 9) /\ ttype o' = kTransportUsb.
Proof.
  destruct (do_cmd_same_device 64 kTransportUsb None [str "wait-for-device"] (fresh_flags 5037) (start_state ready_env 9) client0)
    as (o' & E & _); [apply list_elem_of_here|done|done|done|].
  exists o'. split; [exact E|]. injection E as <-. reflexivity.
Defined.

Definition port_ok (p : Z) : Prop := 0 < p <= 65535.

Lemma port_of_ok ulong_bits s p : port_of ulong_bits s = Some p -> port_ok p.
Proof.
  unfold port_of, port_ok. destruct (_ || _) eqn:E; [done|]. intros [= <-]. apply orb_false_iff in E as [E1 E2].
  apply Z.leb_gt in E1. rewrite Z.gtb_ltb in E2. apply Z.ltb_ge in E2. lia.
Qed.

(** A result with a port in range. *)
Definition flags_ok (r : option (flags * list bytes)) (_ : clstate) : Prop :=
  match r with Some (o, _) => port_ok (server_port o) | None => True end.

Lemma wp_weak_bind {A B} (m : CL A) (k : A -> CL B) Q s :
  (forall a s', wp (k a) Q (fun _ _ => True) s') -> wp (m ≫= k) Q (fun _ _ => True) s.
Proof. intros H. wp_step. unfold wp. destruct (m s) as [[a|x] s']; [apply H|done]. Qed.

Ltac flag_step IH :=
  lazymatch goal with
  | |- wp (if ?b then _ else _) _ _ _ => destruct b
  | |- wp (match ?x with Some _ => _ | None => _ end) _ _ _ => let E := fresh "E" in destruct x eqn:E; [apply port_of_ok in E|]
  | |- wp (match ?x with [] => _ | _ :: _ => _ end) _ _ _ => destruct x
  | |- wp (_ ≫= _) _ _ _ => apply wp_weak_bind; intros ? ?
  | |- wp (mret None) _ _ _ => exact I
  | |- wp (mret (Some _)) _ _ _ => done
  | |- wp (parse_flags _ _ _) _ _ _ => apply IH; [cbn [length]; lia|done]
  end.

Lemma wp_parse_flags ulong_bits argv o s : port_ok (server_port o) ->
  wp (parse_flags ulong_bits o argv) flags_ok (fun _ _ => True) s.
Proof.
  remember (length argv) as n eqn:Hn. assert (Hle : (length argv <= n)%nat) by lia. clear Hn. revert argv o s Hle.
  induction n as [|n IH]; intros argv o s Hle Ho; destruct argv as [|a rest]; cbn [length] in Hle; try done; try lia;
    cbn [parse_flags]; [].
  assert (IH' : forall argv o s, (length argv < length (a :: rest))%nat -> port_ok (server_port o) ->
    wp (parse_flags ulong_bits o argv) flags_ok (fun _ _ => True) s) by (intros; apply IH; [cbn in *; lia|done]).
  clear IH Hle. repeat flag_step IH'.
Qed.

(** C30: the port of the server is a port.  Whatever the environment and the
    arguments are, flags that are accepted leave a port between 1 and 65535,
    which [adb_set_tcp_specifics] is then given; everything else ends with the
    usage message. *)
Theorem flags_port ulong_bits argv s :
  wp (o ← initial_flags ulong_bits;
      match o with Some o => parse_flags ulong_bits o argv | None => mret None end) flags_ok (fun _ _ => True) s.
Proof.
  destruct (initial_flags ulong_bits s) as [[[o|]|x] s1] eqn:E; unfold wp.
  - rewrite (bind_done _ _ _ _ _ E). apply wp_parse_flags.
    unfold initial_flags, getenv, osc, zoom, mbind, M_bind, modify, mret, M_ret in E.
    repeat match goal with H : context [match ?m with (_, _) => _ end] |- _ => destruct m as [[?|?] ?]; try done end.
    injection E as E _. destruct (nonempty _); [|injection E as <-; unfold port_ok; cbn; unfold DEFAULT_ADB_PORT; lia].
    destruct (port_of _ _) eqn:Ep; [|done]. apply port_of_ok in Ep. by injection E as <-.
  - by rewrite (bind_done _ _ _ _ _ E).
  - by rewrite (bind_stop _ _ _ _ _ E).
Qed.

(** ** Where the code does not do what it means to *)

(** Conversions that change nothing, and a connection that delivers [pieces]. *)
Definition keep (_ : Z) (s : bytes) : bytes := s.

Definition pieces_env (pieces : list bytes) : env := fun h c =>
  match c return ans c with
  | Read _ _ => Ok (nth (length h) pieces [])
  | c => ok_default c
  end.

(** [read_and_dump] prints what is left of an earlier, longer read again. *)
Lemma dump_repeats_old_bytes :
  cl_stdout (read_and_dump keep keep 3 (start_state (pieces_env [str "hello world"; str "bye"]) 9)).2
  = str "hello world" ++ str "byelo world".
Proof. by vm_compute. Qed.

(** When a read fills the buffer, [strlen] reads after its end. *)
Lemma dump_full_buffer :
  (read_and_dump keep keep 3 (start_state (pieces_env [replicate 4096 65]) 9)).1 = Stop (Undef "strlen after the buffer").
Proof. by vm_compute. Qed.

(** The bound given to [strncat] does not protect the buffer: two long arguments
    are written after its end. *)
Lemma pm_args_overflow :
  (append_args (str "shell:pm") [replicate 3000 65; replicate 3000 66] (start_state ready_env 9)).1
  = Stop (Undef "write after the buffer").
Proof. by vm_compute. Qed.

(** [adb shell] has no bound at all. *)
Lemma shell_args_overflow :
  (shell_args (str "shell:ls") [replicate 5000 65] (start_state ready_env 9)).1 = Stop (Undef "write after the buffer").
Proof. by vm_compute. Qed.

(** An empty argument is not quoted and disappears. *)
Lemma empty_argument_lost :
  sh_split None (str "pm" ++ args_text [str "install"; []; str "a.apk"]) = Some [str "pm"; str "install"; str "a.apk"].
Proof. by vm_compute. Qed.

(** No server answers. *)
Definition no_server_env : env := fun h c =>
  match c return ans c with
  | Loopback_client _ => Err 111
  | c => ok_default c
  end.

(** [adb kill-server] looks for -1, but a server that is not running is -2: the
    command succeeds silently. *)
Lemma kill_server_not_running : (cmd_kill_server 64 (start_state no_server_env 9)).1 = Done 0.
Proof. by vm_compute. Qed.

(** Nothing can be written to the file of the backup. *)
Definition disk_full_env : env := fun h c =>
  match c return ans c with
  | Read _ _ => Ok (nth (length h) [[]; str "data"; []] [])
  | Write _ _ => Err 28
  | c => ok_default c
  end.

(** [copy_to_file] ignores the result of its writes: a backup that could not be
    stored is reported as done. *)
Lemma copy_ignores_write_failure :
  (copy_to_file 3 4 (start_state disk_full_env 9)).1 = Done tt /\
  written_to 4 (w_hist (cl_world (copy_to_file 3 4 (start_state disk_full_env 9)).2)) = [].
Proof. split; by vm_compute. Qed.
