(* ===== verification/AuthHost.v ===== *)
(** * adb_auth_host.cpp: the keys of the host, and the host's side of the AUTH
    handshake (adb.cpp)

    The host keeps a list of RSA private keys: the user's, made on the first
    run, and those ADB_VENDOR_KEYS names.  When a device sends a token the host
    answers with the signature of the next key of the list, and after the last
    one with the user's public key, in the pre-computed form of mincrypt.

    OpenSSL is not part of the repository.  Its big numbers are a class
    [BigNum], what its manual says of them the class [BigNumLaws]; its other
    functions are calls answered by an environment, as those of the operating
    system are.  A number or a key object is never changed while it is shared,
    so numbers are values; freeing them has no effect in the model.  The model
    is the Unix build with ADB_HOST = 1. *)

From S2P Require Import Prelude Effects DList Os Sysdeps Wire Globals Fdevent Transport Sockets Auth Protocol Host AdbClient.

Module AuthHost.
Import Client.

(** ** OpenSSL *)

(** Numbers.  [BN_zero] is what [BN_new] makes; [None] stands for a failure,
    after which the destination is unspecified. *)
Class BigNum (bn : Type) := {
  BN_zero : bn;
  BN_set_bit : bn -> Z -> option bn;
  BN_mod_sqr : bn -> bn -> option bn;
  BN_div : bn -> bn -> option (bn * bn);
  BN_mod_inverse : bn -> bn -> option bn;
  BN_get_word : bn -> Z;
  BN_num_bytes : bn -> Z;
}.

(** What the manual says, with [bn_val] the number held and [BN_ULONG] of
    [ulong_bits] bits, as long as memory is not refused. *)
Class BigNumLaws (bn : Type) `{BigNum bn} (bn_val : bn -> Z) (ulong_bits : Z) := {
  bn_val_zero : bn_val BN_zero = 0;
  bn_val_nonneg : forall a, 0 <= bn_val a;
  bn_set_bit_ok : forall a k, 0 <= k -> exists b, BN_set_bit a k = Some b /\ bn_val b = Z.setbit (bn_val a) k;
  bn_mod_sqr_ok : forall a m, 0 < bn_val m ->
    exists b, BN_mod_sqr a m = Some b /\ bn_val b = (bn_val a * bn_val a) mod bn_val m;
  bn_div_ok : forall a d, 0 < bn_val d ->
    exists q r, BN_div a d = Some (q, r) /\ bn_val q = bn_val a / bn_val d /\ bn_val r = bn_val a mod bn_val d;
  bn_mod_inverse_ok : forall a m, 1 < bn_val m -> Z.gcd (bn_val a) (bn_val m) = 1 ->
    exists b, BN_mod_inverse a m = Some b /\ bn_val b < bn_val m /\ (bn_val a * bn_val b) mod bn_val m = 1;
  bn_get_word_ok : forall a, bn_val a < 2 ^ ulong_bits -> BN_get_word a = bn_val a;
  bn_num_bytes_ok : forall a, 0 < bn_val a -> BN_num_bytes a = Z.log2 (bn_val a) / 8 + 1;
  bn_ulong : 32 <= ulong_bits;
}.

(** The other functions.  A pointer is a number, 0 for NULL. *)
Inductive ssl_call :=
| Bn_new
| Bn_ctx_new
| Evp_pkey_new
| Evp_pkey_set1 (pkey rsa : Z)
| Evp_pkey_free (pkey : Z)
| Rsa_new
| Rsa_free (rsa : Z)
| Rsa_generate_key (rsa bits e : Z)
| Rsa_sign (rsa : Z) (digest : bytes)
| Pem_write_private_key (f pkey : Z)
| Pem_read_rsa (f rsa : Z)
| Bio_new_file (path : bytes)
| Bio_new_base64
| Bio_set_flags (b flags : Z)
| Bio_push (b next : Z)
| Bio_write (b : Z) (bs : bytes)
| Bio_flush (b : Z)
| Bio_pop (b : Z)
| Bio_free (b : Z)
| Bio_free_all (b : Z).

(** [RSA_sign] gives the signature, or nothing for 0. *)
Definition ssl_ans (c : ssl_call) : Type :=
  match c with Rsa_sign _ _ => option bytes | _ => Z end.

Definition ssl_event : Type := {c : ssl_call & ssl_ans c}.

Definition sev (c : ssl_call) (a : ssl_ans c) : ssl_event := existT c a.

(** The answers may depend on everything done before. *)
Record ssl := {
  ssl_env : list event -> list ssl_event -> forall c, ssl_ans c;
  ssl_hist : list ssl_event;
}.

(** ** State *)

Record adb_private_key := {
  key_next : ptr;
  key_prev : ptr;
  key_rsa : Z;
}.

#[global] Program Instance Linked_adb_private_key : Linked adb_private_key := {|
  next := key_next;
  prev := key_prev;
  set_next p k := {| key_next := p; key_prev := key_prev k; key_rsa := key_rsa k |};
  set_prev p k := {| key_next := key_next k; key_prev := p; key_rsa := key_rsa k |};
|}.
Solve All Obligations with done.

(** The address of the variable [key_list]. *)
Definition key_list : ptr := 1%N.

(** The state of the rest of adb, the keys, the field [key] of the transports
    (NULL where there is no entry), and OpenSSL. *)
Record hkstate := {
  hk_fd : fdstate;
  hk_heap : gmap N adb_private_key;
  hk_key : gmap N ptr;
  hk_ssl : ssl;
}.

Abbreviation H := (M hkstate).

#[global] Program Instance Lens_hk_fd : Lens hkstate fdstate := {|
  view := hk_fd;
  put f s := {| hk_fd := f; hk_heap := hk_heap s; hk_key := hk_key s; hk_ssl := hk_ssl s |};
|}.
Next Obligation. done. Qed.
Next Obligation. by intros []. Qed.
Next Obligation. done. Qed.

#[global] Program Instance Lens_hk_heap : Lens hkstate (gmap N adb_private_key) := {|
  view := hk_heap;
  put h s := {| hk_fd := hk_fd s; hk_heap := h; hk_key := hk_key s; hk_ssl := hk_ssl s |};
|}.
Next Obligation. done. Qed.
Next Obligation. by intros []. Qed.
Next Obligation. done. Qed.

Definition set_key (t k : ptr) (s : hkstate) : hkstate :=
  {| hk_fd := hk_fd s; hk_heap := hk_heap s; hk_key := <[t := k]> (hk_key s); hk_ssl := hk_ssl s |}.

Definition in_fd {A} (m : F A) : H A := zoom m.

Definition in_os {A} (m : M world A) : H A := in_fd (os m).

Definition heap {A} (m : M (gmap N adb_private_key) A) : H A := zoom m.

Definition ssl_do (c : ssl_call) : H (ssl_ans c) := fun s =>
  let a := ssl_env (hk_ssl s) (w_hist (fd_world (hk_fd s))) (ssl_hist (hk_ssl s)) c in
  (Done a, {| hk_fd := hk_fd s; hk_heap := hk_heap s; hk_key := hk_key s;
              hk_ssl := {| ssl_env := ssl_env (hk_ssl s); ssl_hist := ssl_hist (hk_ssl s) ++ [sev c a] |} |}).

(** A value that must be there: [*p] for a pointer that may be NULL, or the
    destination of a call whose result is not looked at. *)
Definition need {A} (why : string) (o : option A) : H A :=
  match o with Some a => mret a | None => undef why end.

(** ** Conversion of a key *)

Record RSAPublicKey := {
  len : Z;
  n0inv : Z;
  n : list Z;
  rr : list Z;
  exponent : Z;
}.

Section host_keys.
Context {bn : Type} `{BigNum bn}.
(** [rsa->n] and [rsa->e] of a key object, after the calls so far. *)
Context (rsa_n rsa_e : list ssl_event -> Z -> bn).
Context (big_endian : bool) (sizeof_ptr : Z) (load_file : bytes -> M world (option bytes)).

Definition BN_new : H (option bn) :=
  p ← ssl_do Bn_new;
  mret (if p =? 0 then None else Some BN_zero).

(** The body of the loop, [i] from 0: the words of [rr] and of [n]. *)
Fixpoint key_words (count : nat) (r32 rr n : bn) : H (list Z * list Z) :=
  match count with
  | O => mret ([], [])
  | S count' =>
      '(rr', rem) ← need "BN_div failed" (BN_div rr r32);
      let w := u32 (BN_get_word rem) in
      '(n', rem) ← need "BN_div failed" (BN_div n r32);
      let v := u32 (BN_get_word rem) in
      '(ws, vs) ← key_words count' r32 rr' n';
      mret (w :: ws, v :: vs)
  end.

(** [None] for a result of 0. *)
Definition RSA_to_RSAPublicKey (rsa : Z) : H (option RSAPublicKey) :=
  ctx ← ssl_do Bn_ctx_new;
  r32 ← BN_new;
  rr ← BN_new;
  r ← BN_new;
  rem ← BN_new;
  n ← BN_new;
  n0inv ← BN_new;
  h ← gets (fun s => ssl_hist (hk_ssl s));
  if negb (BN_num_bytes (rsa_n h rsa) =? RSANUMBYTES) then mret None else
  r32 ← need "r32 is NULL" r32;
  r32 ← need "BN_set_bit failed" (BN_set_bit r32 32);
  _ ← need "n is NULL" n;
  let n := rsa_n h rsa in
  r ← need "r is NULL" r;
  r ← need "BN_set_bit failed" (BN_set_bit r (RSANUMWORDS * 32));
  _ ← need "rr is NULL" rr;
  if ctx =? 0 then undef "ctx is NULL" else
  rr ← need "BN_mod_sqr failed" (BN_mod_sqr r n);
  _ ← need "rem is NULL" rem;
  '(_, rem) ← need "BN_div failed" (BN_div n r32);
  _ ← need "n0inv is NULL" n0inv;
  n0inv ← need "BN_mod_inverse failed" (BN_mod_inverse rem r32);
  '(ws, vs) ← key_words (Z.to_nat RSANUMWORDS) r32 rr n;
  mret (Some {| len := RSANUMWORDS; n0inv := u32 (0 - BN_get_word n0inv); n := vs; rr := ws;
                exponent := s32 (BN_get_word (rsa_e h rsa)) |}).

(** The [sizeof(RSAPublicKey)] bytes of the structure in memory. *)
Definition pkey_bytes (k : RSAPublicKey) : bytes :=
  ([len k; n0inv k] ++ n k ++ rr k ++ [u32 (exponent k)]) ≫= host_bytes big_endian.

(** ** Files of the user's key *)

(** [gethostname] may leave the buffer without a NUL; [getlogin_r] returns a
    positive number on failure and then the buffer is not written. *)
Definition get_user_info (size : nat) : H bytes :=
  r ← in_os (syscall (Gethostname 1024));
  hostname ← (match r with
              | Ok bs => if (1024 <=? length (cstr bs))%nat then undef "hostname is not terminated" else mret (cstr bs)
              | Err _ => mret (str "unknown")
              end);
  r ← in_os (syscall (Getlogin 1024));
  username ← (match r with
              | Ok bs => mret (cstr bs)
              | Err e => if e <? 0 then mret (str "unknown") else undef "username is indeterminate"
              end);
  mret (snprintf size (str " " ++ username ++ str "@" ++ hostname)).

Definition BIO_FLAGS_BASE64_NO_NL : Z := 0x100.

Definition write_public_keyfile (private_key : Z) (private_key_path : bytes) : H Z :=
  let path := private_key_path ++ str ".pub" in
  if Z.of_nat (length path) >=? PATH_MAX then mret 0 else
  pkey ← RSA_to_RSAPublicKey private_key;
  match pkey with
  | None => mret 0
  | Some pkey =>
      bfile ← ssl_do (Bio_new_file path);
      if bfile =? 0 then mret 0 else
      b64 ← ssl_do Bio_new_base64;
      if b64 =? 0 then undef "b64 is NULL" else
      ssl_do (Bio_set_flags b64 BIO_FLAGS_BASE64_NO_NL);;
      ssl_do (Bio_push b64 bfile);;
      ssl_do (Bio_write b64 (pkey_bytes pkey));;
      ssl_do (Bio_flush b64);;
      ssl_do (Bio_pop b64);;
      ssl_do (Bio_free b64);;
      info ← get_user_info (Z.to_nat MAX_PAYLOAD);
      ssl_do (Bio_write bfile info);;
      ssl_do (Bio_flush bfile);;
      ssl_do (Bio_free_all bfile);;
      mret 1
  end.

Definition RSA_F4 : Z := 0x10001.

(** The label [out]. *)
Definition generate_out (pkey rsa : Z) (f : option Z) (ret : Z) : H Z :=
  (match f with Some f => in_os (syscall (Fclose f));; skip | None => skip end);;
  ssl_do (Evp_pkey_free pkey);;
  ssl_do (Rsa_free rsa);;
  mret ret.

(** [umask(077)] *)
Definition generate_key (file : bytes) : H Z :=
  pkey ← ssl_do Evp_pkey_new;
  exponent ← BN_new;
  rsa ← ssl_do Rsa_new;
  if (pkey =? 0) || bool_decide (exponent = None) || (rsa =? 0) then generate_out pkey rsa None 0 else
  ssl_do (Rsa_generate_key rsa 2048 RSA_F4);;
  ssl_do (Evp_pkey_set1 pkey rsa);;
  m ← in_os (syscall (Umask 0x3f));
  let old_mask := rc_int m in
  f ← in_os (syscall (Fopen_write file));
  match f with
  | Err _ => in_os (syscall (Umask old_mask));; generate_out pkey rsa None 0
  | Ok f =>
      in_os (syscall (Umask old_mask));;
      w ← ssl_do (Pem_write_private_key f pkey);
      if w =? 0 then generate_out pkey rsa (Some f) 0 else
      p ← write_public_keyfile rsa file;
      if p =? 0 then generate_out pkey rsa (Some f) 0 else
      generate_out pkey rsa (Some f) 1
  end.

(** ** The list of keys *)

(** [malloc(sizeof( *key))]: an address not in use. *)
Definition new_key : H ptr :=
  r ← in_os (syscall (Malloc 24));
  match r with
  | Err _ => mret NULL
  | Ok _ => gets (fun s => fresh ({[NULL]} ∪ dom (hk_heap s)))
  end.

Definition read_key (file : bytes) (list : ptr) : H Z :=
  f ← in_os (syscall (Fopen file));
  match f with
  | Err _ => mret 0
  | Ok f =>
      key ← new_key;
      if bool_decide (key = NULL) then in_os (syscall (Fclose f));; mret 0 else
      rsa ← ssl_do Rsa_new;
      heap (modify (<[key := {| key_next := NULL; key_prev := NULL; key_rsa := rsa |}]>));;
      r ← ssl_do (Pem_read_rsa f rsa);
      if r =? 0 then
        in_os (syscall (Fclose f));;
        ssl_do (Rsa_free rsa);;
        heap (modify (base.delete key));;
        mret 0
      else
        heap (store key (fun k => {| key_next := key_next k; key_prev := key_prev k; key_rsa := r |}));;
        in_os (syscall (Fclose f));;
        heap (list_add_tail list key);;
        mret 1
  end.

Definition ANDROID_PATH : bytes := str ".android".
Definition ADB_KEY_FILE : bytes := str "adbkey".

Definition getenv (name : bytes) : H (option bytes) :=
  r ← in_os (syscall (Getenv name));
  mret (match r with Ok v => v | Err _ => None end).

(** The result and the contents of [filename]; the mode of the directory is 0750. *)
Definition get_user_keyfilepath (size : nat) : H (Z * bytes) :=
  home ← getenv (str "HOME");
  match home with
  | None => mret (-1, [])
  | Some home =>
      let android_dir := home ++ str "/" ++ ANDROID_PATH in
      if Z.of_nat (length android_dir) >=? PATH_MAX then mret (-1, []) else
      st ← in_os (syscall (Stat android_dir));
      ok ← (match st with
            | Ok _ => mret true
            | Err _ => r ← in_os (adb_mkdir android_dir 0x1e8); mret (negb (rc r <? 0))
            end);
      if negb ok then mret (-1, []) else
      let path := android_dir ++ str "/" ++ ADB_KEY_FILE in
      mret (Z.of_nat (length path), snprintf size path)
  end.

Definition get_user_key (list : ptr) : H Z :=
  '(ret, path) ← get_user_keyfilepath (Z.to_nat PATH_MAX);
  if (ret <? 0) || (ret >=? PATH_MAX) then mret 0 else
  st ← in_os (syscall (Stat path));
  ok ← (match st with
        | Ok _ => mret true
        | Err _ => g ← generate_key path; mret (negb (g =? 0))
        end);
  if negb ok then mret 0 else read_key path list.

(** One name of ADB_VENDOR_KEYS. *)
Definition vendor_key (list : ptr) (path : bytes) : H unit :=
  st ← in_os (syscall (Stat path));
  match st with
  | Err _ => skip
  | Ok _ => read_key path list;; skip
  end.

(** [strncpy] into [char keys_path[MAX_PAYLOAD]] does not terminate a text that
    fills it. *)
Definition get_vendor_keys (list : ptr) : H unit :=
  adb_keys_path ← getenv (str "ADB_VENDOR_KEYS");
  match adb_keys_path with
  | None => skip
  | Some p =>
      if Z.of_nat (length p) >=? MAX_PAYLOAD then undef "keys_path is not terminated" else
      for_each (strtok 58 [] p) (vendor_key list)
  end.

(** The variable [key_list] is there from the start. *)
Definition adb_auth_init : H unit :=
  heap (list_init key_list);;
  ret ← get_user_key key_list;
  if ret =? 0 then skip else get_vendor_keys key_list.

(** ** Using the keys *)

(** The signature, [None] for a result of 0. *)
Definition adb_auth_sign (node : ptr) (token : bytes) : H (option bytes) :=
  key ← heap (load node);
  sig ← ssl_do (Rsa_sign (key_rsa key) token);
  match sig with
  | None => mret None
  | Some sig =>
      if Z.of_nat (length sig) >? MAX_PAYLOAD then undef "signature after the packet" else
      mret (if s32 (Z.of_nat (length sig)) =? 0 then None else Some sig)
  end.

(** [list_for_each(item, &key_list)] *)
Fixpoint next_after (fuel : nat) (item current : ptr) : M (gmap N adb_private_key) ptr :=
  match fuel with
  | O => stop_with Diverge
  | S fuel' =>
      if bool_decide (item = key_list) then mret NULL else
      nx ← load_next item;
      if bool_decide (item = current) then mret (if bool_decide (nx = key_list) then NULL else nx)
      else next_after fuel' nx current
  end.

Definition adb_auth_nextkey (current : ptr) : H ptr :=
  e ← heap (list_empty key_list);
  if (e : bool) then mret NULL else
  if bool_decide (current = NULL) then heap (list_head key_list) else
  fuel ← gets (fun s => size (hk_heap s));
  first ← heap (load_next key_list);
  heap (next_after (S fuel) first current).

(** The bytes stored at [data], with their NUL; [None] for a result of 0. *)
Definition adb_auth_get_userkey (size : Z) : H (option bytes) :=
  '(ret, path) ← get_user_keyfilepath (Z.to_nat (PATH_MAX - 4));
  if (ret <? 0) || (ret >=? PATH_MAX - 4) then mret None else
  file ← in_os (load_file (path ++ str ".pub"));
  match file with
  | None => mret None
  | Some file =>
      if size <? Z.of_nat (length file) + 1 then mret None else mret (Some (file ++ [0]))
  end.

(** ** AUTH packets (adb.cpp) *)

Definition send_auth_response (token : bytes) (t : ptr) : H unit :=
  p ← in_fd get_apacket;
  k ← gets (fun s => default NULL (hk_key s !! t));
  sig ← adb_auth_sign k token;
  match sig with
  | None => in_fd (put_apacket p)
  | Some sig =>
      in_fd (send_packet sizeof_ptr (set_msg A_AUTH ADB_AUTH_SIGNATURE 0 (Z.of_nat (length sig)) (set_data sig p)) t)
  end.

Definition send_auth_publickey (t : ptr) : H unit :=
  p ← in_fd get_apacket;
  key ← adb_auth_get_userkey MAX_PAYLOAD;
  match key with
  | None => in_fd (put_apacket p)
  | Some key =>
      in_fd (send_packet sizeof_ptr (set_msg A_AUTH ADB_AUTH_RSAPUBLICKEY 0 (Z.of_nat (length key)) (set_data key p)) t)
  end.

(** [case A_AUTH] with the host's build of adb_auth.h: no signature verifies, no
    token can be made, and a public key is ignored. *)
Definition handle_auth (p : pkt) (t : ptr) : H unit :=
  let m := msg (p_body p) in
  if arg0 m =? ADB_AUTH_TOKEN then
    in_fd (set (T := atransport) t (set_connection_state CS_UNAUTHORIZED));;
    k ← gets (fun s => default NULL (hk_key s !! t));
    k ← adb_auth_nextkey k;
    modify (set_key t k);;
    if bool_decide (k <> NULL)
    then send_auth_response (take (Z.to_nat (data_length m)) (data (p_body p))) t
    else send_auth_publickey t
  else if arg0 m =? ADB_AUTH_SIGNATURE then
    tr ← in_fd (get (T := atransport) t);
    in_fd (set (T := atransport) t (set_failed_auth_attempts (u32 (at_failed_auth_attempts tr + 1))));;
    if at_failed_auth_attempts tr >? 10 then in_os (adb_sleep_ms 1000) else skip
  else skip.
End host_keys.
End AuthHost.
