(* ===== verification/AuthHostSpec.v ===== *)
(** * Correctness of the host's keys

    The conversion of a key to the form mincrypt needs, that the device reads
    back the public key the host writes, that every key is offered once and in
    order, and how the file of the private key is protected. *)

From Stdlib Require Import ZArith.Zcong.
From S2P Require Import Prelude Effects DList Os Sysdeps Wire Globals Fdevent Transport FdeventFacts FdeventLoop Sockets Auth Protocol Frame Host AdbClient AuthHost SocketsSpec.

Import AuthHost.

(** What cannot stop returns. *)
Lemma wp_total {S A} (m : M S A) Q X s :
  wp m Q X s -> (forall e s', ~ X e s') -> exists a s', m s = (Done a, s') /\ Q a s'.
Proof. unfold wp. destruct (m s) as [[a|e] s']; [eauto|]. intros HX Hn. by destruct (Hn e s'). Qed.

(** ** Calls of OpenSSL *)

(** The state after the calls [new] of OpenSSL and nothing else. *)
Definition ssl_more (new : list ssl_event) (s : hkstate) : hkstate :=
  {| hk_fd := hk_fd s; hk_heap := hk_heap s; hk_key := hk_key s;
     hk_ssl := {| ssl_env := ssl_env (hk_ssl s); ssl_hist := ssl_hist (hk_ssl s) ++ new |} |}.

Lemma ssl_more_app a b s : ssl_more b (ssl_more a s) = ssl_more (a ++ b) s.
Proof. unfold ssl_more. cbn. by rewrite app_assoc. Qed.

Lemma ssl_more_nil s : ssl_more [] s = s.
Proof. destruct s as [? ? ? []]. unfold ssl_more. cbn. by rewrite app_nil_r. Qed.

(** The answer of a call now. *)
Definition ssl_now (s : hkstate) (c : ssl_call) : ssl_ans c :=
  ssl_env (hk_ssl s) (w_hist (fd_world (hk_fd s))) (ssl_hist (hk_ssl s)) c.

Lemma wp_ssl c Q (X : stop -> hkstate -> Prop) s :
  (forall a, a = ssl_now s c -> Q a (ssl_more [sev c a] s)) -> wp (ssl_do c) Q X s.
Proof. intros HQ. by apply HQ. Qed.

Ltac ssl_step :=
  lazymatch goal with
  | |- wp (ssl_do ?c) _ _ _ => apply (wp_ssl c)
  | |- wp (ssl_do ?c ≫= _) _ _ _ => wp_step; apply (wp_ssl c)
  end.

(** Calls that have nothing to do with files or signatures. *)
Definition bio_quiet (e : ssl_event) : Prop :=
  match e with
  | existT Bn_new _ | existT Bn_ctx_new _ => True
  | _ => False
  end.

(** OpenSSL refuses memory at some point. *)
Definition ssl_refuses (s : hkstate) : Prop :=
  exists o h, let env := ssl_env (hk_ssl s) o h in env Bn_new = 0 \/ env Bn_ctx_new = 0 \/ env Bio_new_base64 = 0.

(** ** Conversion *)

(** The number the words spell, least significant first. *)
Fixpoint words_val (ws : list Z) : Z :=
  match ws with
  | [] => 0
  | w :: ws' => w + 2 ^ 32 * words_val ws'
  end.

(** [k] is the key with modulus [N] and exponent [E] as mincrypt/rsa.h describes
    it: [N] and the square of R = 2^2048 modulo [N] in little-endian words, and
    -1 / [N] modulo 2^32. *)
Record converted (N E : Z) (k : RSAPublicKey) : Prop := {
  cv_len : len k = RSANUMWORDS;
  cv_n_words : length (n k) = Z.to_nat (len k) /\ Forall (fun w => 0 <= w < 2 ^ 32) (n k);
  cv_rr_words : length (rr k) = Z.to_nat (len k) /\ Forall (fun w => 0 <= w < 2 ^ 32) (rr k);
  cv_n : words_val (n k) = N;
  cv_rr : words_val (rr k) = (2 ^ 2048 * 2 ^ 2048) mod N;
  cv_n0inv_word : 0 <= n0inv k < 2 ^ 32;
  cv_n0inv : (n0inv k * N) mod 2 ^ 32 = 2 ^ 32 - 1;
  cv_exponent : E < 2 ^ 31 -> exponent k = E;
}.

(** Keys of 2048 bits. *)
Definition size_ok (N : Z) : Prop := 2 ^ 2040 <= N < 2 ^ 2048.

Lemma num_bytes_256 N : 0 < N -> Z.log2 N / 8 + 1 = RSANUMBYTES <-> size_ok N.
Proof.
  intros HN. unfold RSANUMBYTES, size_ok. rewrite (Z.log2_le_pow2 N 2040), (Z.log2_lt_pow2 N 2048) by lia.
  pose proof (Z.log2_nonneg N). split; intros; [|cut (Z.log2 N / 8 = 255); [lia|]; symmetry; apply Z.div_unique with (Z.log2 N - 2040); lia].
  assert (Z.log2 N / 8 = 255) as E by lia. pose proof (Z.div_mod (Z.log2 N) 8 ltac:(lia)). pose proof (Z.mod_pos_bound (Z.log2 N) 8 ltac:(lia)). lia.
Qed.

Section conversion.
Context {bn : Type} `{BigNum bn} (bn_val : bn -> Z) (ulong_bits : Z) `{!BigNumLaws bn bn_val ulong_bits}.
Context (rsa_n rsa_e : list ssl_event -> Z -> bn).

Lemma get_word_32 a : bn_val a < 2 ^ 32 -> BN_get_word a = bn_val a.
Proof.
  intros Ha. apply bn_get_word_ok. pose proof (bn_ulong (bn_val := bn_val)).
  eapply Z.lt_le_trans; [done|]. apply Z.pow_le_mono_r; lia.
Qed.

(** One word is split off. *)
Lemma div_word a r32 :
  bn_val r32 = 2 ^ 32 ->
  exists q r, BN_div a r32 = Some (q, r) /\ bn_val q = bn_val a / 2 ^ 32 /\ u32 (BN_get_word r) = bn_val a mod 2 ^ 32.
Proof.
  intros Hr. destruct (bn_div_ok (bn_val := bn_val) a r32) as (q & r & E & Hq & Hm); [rewrite Hr; lia|].
  rewrite Hr in Hq, Hm. exists q, r. split_and!; [done|done|].
  pose proof (Z.mod_pos_bound (bn_val a) (2 ^ 32) ltac:(lia)).
  rewrite get_word_32 by (rewrite Hm; lia). rewrite Hm. unfold u32. by apply Z.mod_small.
Qed.

Lemma words_val_step a count : 0 <= a -> a mod 2 ^ 32 + 2 ^ 32 * ((a / 2 ^ 32) mod 2 ^ (32 * Z.of_nat count)) = a mod 2 ^ (32 * Z.of_nat (S count)).
Proof.
  intros Ha. replace (32 * Z.of_nat (S count)) with (32 + 32 * Z.of_nat count) by lia.
  rewrite Z.pow_add_r, Z.rem_mul_r by lia. lia.
Qed.

Lemma key_words_run count r32 a b s :
  bn_val r32 = 2 ^ 32 ->
  exists ws vs, key_words count r32 a b s = (Done (ws, vs), s) /\
    length ws = count /\ Forall (fun w => 0 <= w < 2 ^ 32) ws /\ words_val ws = bn_val a mod 2 ^ (32 * Z.of_nat count) /\
    length vs = count /\ Forall (fun w => 0 <= w < 2 ^ 32) vs /\ words_val vs = bn_val b mod 2 ^ (32 * Z.of_nat count).
Proof.
  intros Hr. revert a b. induction count as [|count IH]; intros a b.
  { exists [], []. cbn. rewrite !Z.mod_1_r. by split_and!. }
  destruct (div_word a r32 Hr) as (qa & ra & Ea & Ha & Wa). destruct (div_word b r32 Hr) as (qb & rb & Eb & Hb & Wb).
  destruct (IH qa qb) as (ws & vs & E & Lw & Fw & Vw & Lv & Fv & Vv).
  exists (u32 (BN_get_word ra) :: ws), (u32 (BN_get_word rb) :: vs). split_and!.
  - cbn [key_words]. rewrite Ea, Eb. cbn [need]. unfold mbind, M_bind, mret, M_ret in *. cbn. by rewrite E.
  - cbn. by rewrite Lw.
  - constructor; [rewrite Wa; apply Z.mod_pos_bound; lia|done].
  - cbn [words_val]. rewrite Wa, Vw, Ha. apply words_val_step, (bn_val_nonneg a).
  - cbn. by rewrite Lv.
  - constructor; [rewrite Wb; apply Z.mod_pos_bound; lia|done].
  - cbn [words_val]. rewrite Wb, Vv, Hb. apply words_val_step, (bn_val_nonneg b).
Qed.

(** The inverse of an odd number modulo 2^32, negated. *)
Lemma n0inv_word N v :
  0 <= v < 2 ^ 32 -> (N mod 2 ^ 32 * v) mod 2 ^ 32 = 1 ->
  0 <= u32 (0 - v) < 2 ^ 32 /\ (u32 (0 - v) * N) mod 2 ^ 32 = 2 ^ 32 - 1.
Proof.
  intros Hv E. unfold u32. split; [apply Z.mod_pos_bound; lia|].
  rewrite Z.mul_mod_idemp_l by lia. rewrite Z.mul_mod_idemp_l in E by lia.
  replace ((0 - v) * N) with (- (N * v)) by lia. by rewrite Z.mod_opp_l_nz, E by (rewrite ?E; lia).
Qed.

Lemma odd_coprime N : Z.odd N = true -> Z.gcd (N mod 2 ^ 32) (2 ^ 32) = 1.
Proof.
  intros Ho. rewrite Z.gcd_mod, Z.gcd_comm by lia. apply Z.coprime_pow_r; [lia|].
  change (Z.gcd N 2 = 1). rewrite Z.gcd_comm, <- Z.gcd_mod by lia. rewrite Zmod_odd, Ho. reflexivity.
Qed.

Lemma wp_BN_new Q (X : stop -> hkstate -> Prop) s :
  (forall o e, (o = Some BN_zero \/ o = None /\ ssl_refuses s) -> bio_quiet e -> Q o (ssl_more [e] s)) ->
  wp BN_new Q X s.
Proof.
  intros HQ. unfold BN_new. ssl_step. intros a Ha. apply wp_ret.
  apply (HQ _ (sev Bn_new a)); [|done]. destruct (Z.eqb_spec a 0) as [->|]; [right|by left].
  split; [done|]. eexists _, _. left. by symmetry.
Qed.

(** A number that is there, or a stop because it was refused. *)
Lemma wp_need {A} why (o : option A) (z : A) (R : Prop) Q (X : stop -> hkstate -> Prop) s :
  (o = Some z \/ o = None /\ R) -> Q z s -> (R -> X (Undef why) s) -> wp (need why o) Q X s.
Proof. intros [->|[-> He]] HQ HX; [exact HQ|by apply HX]. Qed.

(** 2^32 and R. *)
Lemma pow32 : exists b, BN_set_bit BN_zero 32 = Some b /\ bn_val b = 2 ^ 32.
Proof. destruct (bn_set_bit_ok (bn_val := bn_val) BN_zero 32) as (b & E & V); [lia|]. exists b. by rewrite V, bn_val_zero. Qed.

Lemma powR : exists b, BN_set_bit BN_zero (RSANUMWORDS * 32) = Some b /\ bn_val b = 2 ^ 2048.
Proof.
  destruct (bn_set_bit_ok (bn_val := bn_val) BN_zero (RSANUMWORDS * 32)) as (b & E & V); [done|]. exists b.
  split; [done|]. by rewrite V, bn_val_zero.
Qed.

Lemma inverse_word N rem r32 :
  Z.odd (bn_val N) = true -> bn_val r32 = 2 ^ 32 -> bn_val rem = bn_val N mod bn_val r32 ->
  exists b, BN_mod_inverse rem r32 = Some b /\
    0 <= u32 (0 - BN_get_word b) < 2 ^ 32 /\ (u32 (0 - BN_get_word b) * bn_val N) mod 2 ^ 32 = 2 ^ 32 - 1.
Proof.
  intros Ho V32 Vm. rewrite V32 in Vm.
  destruct (bn_mod_inverse_ok (bn_val := bn_val) rem r32) as (b & E & Vb & Wb).
  - rewrite V32. lia.
  - rewrite V32, Vm. by apply odd_coprime.
  - exists b. rewrite V32 in Vb, Wb. rewrite Vm in Wb. split; [done|]. rewrite get_word_32 by done.
    apply n0inv_word; [split; [apply bn_val_nonneg|done]|done].
Qed.

(** Only the memory for numbers is asked for; everything stops at most when some
    of it is refused. *)
Lemma wp_conversion rsa s :
  (forall h, 0 < bn_val (rsa_n h rsa) /\ Z.odd (bn_val (rsa_n h rsa)) = true) ->
  wp (RSA_to_RSAPublicKey rsa_n rsa_e rsa)
    (fun r s' => exists new, s' = ssl_more new s /\ Forall bio_quiet new /\
       let N := bn_val (rsa_n (ssl_hist (hk_ssl s')) rsa) in
       match r with
       | Some k => size_ok N /\ converted N (bn_val (rsa_e (ssl_hist (hk_ssl s')) rsa)) k
       | None => ~ size_ok N
       end)
    (fun e s' => exists new, s' = ssl_more new s /\ ssl_refuses s) s.
Proof.
  intros Hmod. unfold RSA_to_RSAPublicKey. ssl_step. intros ctx Hctx.
  wp_step. apply wp_BN_new. intros r32 e1 H1 Q1. wp_step. apply wp_BN_new. intros rr e2 H2 Q2.
  wp_step. apply wp_BN_new. intros r e3 H3 Q3. wp_step. apply wp_BN_new. intros rem e4 H4 Q4.
  wp_step. apply wp_BN_new. intros n e5 H5 Q5. wp_step. apply wp_BN_new. intros n0inv e6 H6 Q6.
  wp_step. wp_step. rewrite !ssl_more_app. cbn [app].
  set (new := [sev Bn_ctx_new ctx; e1; e2; e3; e4; e5; e6]). cbn [ssl_more hk_ssl ssl_hist].
  set (h := ssl_hist (hk_ssl s) ++ new). destruct (Hmod h) as [Hpos Hodd]. set (N := rsa_n h rsa) in *.
  assert (Hq : Forall bio_quiet new) by (by repeat constructor).
  assert (HX : ssl_refuses s -> exists new', ssl_more new s = ssl_more new' s /\ ssl_refuses s) by (intros; by exists new).
  destruct (Z.eqb_spec (BN_num_bytes N) RSANUMBYTES) as [Es|Es]; cbn [negb].
  2:{ apply wp_ret. exists new. split_and!; [done..|]. cbn. fold h N. rewrite <- num_bytes_256, <- bn_num_bytes_ok by done. done. }
  rewrite bn_num_bytes_ok, num_bytes_256 in Es by done.
  wp_step. eapply wp_need; [exact H1| |exact HX]. destruct pow32 as (b32 & E32 & V32). wp_step. rewrite E32. apply wp_ret.
  wp_step. eapply wp_need; [exact H5| |exact HX].
  wp_step. eapply wp_need; [exact H3| |exact HX]. destruct powR as (bR & ER & VR). wp_step. rewrite ER. apply wp_ret.
  wp_step. eapply wp_need; [exact H2| |exact HX].
  destruct (Z.eqb_spec ctx 0) as [Ec|_]; [apply HX; eexists _, _; right; left; by rewrite <- Ec|].
  destruct (bn_mod_sqr_ok (bn_val := bn_val) bR N Hpos) as (bq & Eq & Vq). wp_step. rewrite Eq. apply wp_ret.
  wp_step. eapply wp_need; [exact H4| |exact HX].
  destruct (bn_div_ok (bn_val := bn_val) N b32) as (bd & bm & Ed & _ & Vm); [rewrite V32; lia|]. wp_step. rewrite Ed. apply wp_ret.
  wp_step. eapply wp_need; [exact H6| |exact HX].
  destruct (inverse_word N bm b32 Hodd V32 Vm) as (bi & Ei & W1 & W2). wp_step. rewrite Ei. apply wp_ret.
  destruct (key_words_run (Z.to_nat RSANUMWORDS) b32 bq N (ssl_more new s) V32) as (ws & vs & Ek & Lw & Fw & Vw & Lv & Fv & Vv).
  unfold wp. rewrite (bind_done _ _ _ _ _ Ek). exists new. split; [done|]. split; [done|]. cbn. fold h N. split; [exact Es|].
  change (32 * Z.of_nat (Z.to_nat RSANUMWORDS)) with 2048 in Vw, Vv. unfold size_ok in Es.
  split; cbn; [done|done|done| | |done|done|].
  - rewrite Vv. apply Z.mod_small. lia.
  - rewrite Vw, Vq, VR. apply Z.mod_small. pose proof (Z.mod_pos_bound (2 ^ 2048 * 2 ^ 2048) (bn_val N) Hpos). lia.
  - intros He. rewrite get_word_32 by lia. apply s32_small. pose proof (bn_val_nonneg (bn_val := bn_val) (rsa_e h rsa)). lia.
Qed.

(** C31: a private key is converted to the form the device computes with.  As long
    as OpenSSL is given memory, [RSA_to_RSAPublicKey] returns; for a modulus of
    2048 bits it gives the modulus and the square of R = 2^2048 modulo it in 64
    words of 32 bits, the negated inverse of the modulus modulo 2^32 and the
    exponent, and for a modulus of another size it fails. *)
Theorem key_converted rsa s :
  (forall h, 0 < bn_val (rsa_n h rsa) /\ Z.odd (bn_val (rsa_n h rsa)) = true) -> ~ ssl_refuses s ->
  exists r s', RSA_to_RSAPublicKey rsa_n rsa_e rsa s = (Done r, s') /\
    let N := bn_val (rsa_n (ssl_hist (hk_ssl s')) rsa) in
    let E := bn_val (rsa_e (ssl_hist (hk_ssl s')) rsa) in
    match r with
    | Some k => size_ok N /\ converted N E k
    | None => ~ size_ok N
    end.
Proof.
  intros Hmod Hmem. destruct (wp_total _ _ _ _ (wp_conversion rsa s Hmod)) as (r & s' & E & new & _ & _ & W); [naive_solver|].
  by exists r, s'.
Qed.
End conversion.

(** Numbers that satisfy the laws: [N], with words of 64 bits. *)
#[global] Instance BigNum_N : BigNum N := {|
  BN_zero := 0%N;
  BN_set_bit a k := Some (Z.to_N (Z.setbit (Z.of_N a) k));
  BN_mod_sqr a m := if (m =? 0)%N then None else Some ((a * a) mod m)%N;
  BN_div a d := if (d =? 0)%N then None else Some (a / d, a mod d)%N;
  BN_mod_inverse a m := if Z.gcd (Z.of_N a) (Z.of_N m) =? 1 then Some (Z.to_N (Z.invmod (Z.of_N a) (Z.of_N m))) else None;
  BN_get_word a := if (a <? 2 ^ 64)%N then Z.of_N a else 2 ^ 64 - 1;
  BN_num_bytes a := if (a =? 0)%N then 0 else Z.log2 (Z.of_N a) / 8 + 1;
|}.

Lemma setbit_nonneg a k : 0 <= a -> 0 <= k -> 0 <= Z.setbit a k.
Proof. intros Ha Hk. rewrite Z.setbit_spec'. apply Z.lor_nonneg. split; [done|]. apply Z.pow_nonneg. lia. Qed.

#[global] Instance BigNumLaws_N : BigNumLaws N Z.of_N 64.
Proof.
  split; cbn.
  - done.
  - intros a. lia.
  - intros a k Hk. eexists. split; [done|]. rewrite Z2N.id; [done|]. apply setbit_nonneg; lia.
  - intros a m Hm. destruct (N.eqb_spec m 0); [lia|]. eexists. split; [done|]. by rewrite N2Z.inj_mod, N2Z.inj_mul.
  - intros a d Hd. destruct (N.eqb_spec d 0); [lia|]. eexists _, _. split_and!; [done|by rewrite N2Z.inj_div|by rewrite N2Z.inj_mod].
  - intros a m Hm Hg. rewrite Hg. cbn. pose proof (Z.mod_pos_bound (Z.invmod (Z.of_N a) (Z.of_N m)) (Z.of_N m) ltac:(lia)) as B.
    rewrite Z.mod_invmod in B. eexists. split; [done|]. rewrite Z2N.id by lia. split; [lia|].
    rewrite Z.mul_comm. apply Z.invmod_coprime; [lia|done].
  - intros a Ha. rewrite (proj2 (N.ltb_lt _ _)); [done|]. apply N2Z.inj_lt. exact Ha.
  - intros a Ha. destruct (N.eqb_spec a 0); [lia|done].
  - lia.
Qed.

(** ** The operating system as the keys see it *)

Definition hk_world (s : hkstate) : world := fd_world (hk_fd s).

(** The state with another world. *)
Definition at_world (w : world) (s : hkstate) : hkstate := put (put w (hk_fd s)) s.

Lemma at_world_at w w' s : at_world w (at_world w' s) = at_world w s.
Proof. done. Qed.

Lemma at_world_same s : at_world (hk_world s) s = s.
Proof. by destruct s as [[] ? ? ?]. Qed.

Lemma wp_in_os {A} (m : M world A) Q (X : stop -> hkstate -> Prop) s :
  wp m (fun a w => Q a (at_world w s)) (fun e w => X e (at_world w s)) (hk_world s) -> wp (in_os m) Q X s.
Proof. intros W. unfold in_os, in_fd, os. apply wp_zoom, wp_zoom. exact W. Qed.

Lemma wp_hk_call c Q (X : stop -> hkstate -> Prop) s :
  (forall a w, steps (hk_world s) [ev c a] w -> Q a (at_world w s)) -> X Blocked s -> wp (in_os (syscall c)) Q X s.
Proof.
  intros HQ HX. apply wp_in_os, wp_syscall; [intros w' a S _; by apply HQ|]. by rewrite at_world_same.
Qed.

Ltac os_step :=
  wp_step;
  lazymatch goal with |- wp (in_os (syscall ?c)) _ _ _ => apply (wp_hk_call c); [|try done] end.

(** Only the operating system was used. *)
Definition only_os (s s' : hkstate) : Prop := exists w new, s' = at_world w s /\ steps (hk_world s) new w.

Lemma only_os_refl s : only_os s s.
Proof. exists (hk_world s), []. split; [by rewrite at_world_same|apply steps_refl]. Qed.

Lemma only_os_call s new w s' : steps (hk_world s) new w -> only_os (at_world w s) s' -> only_os s s'.
Proof. intros S (w' & n' & -> & S'). exists w', (new ++ n'). split; [done|]. by eapply steps_trans. Qed.

Lemma only_os_trans s s1 s2 : only_os s s1 -> only_os s1 s2 -> only_os s s2.
Proof. intros (w & new & -> & S) O. by eapply only_os_call. Qed.

Lemma wp_getenv name s :
  wp (getenv name) (fun _ s' => only_os s s') (fun e _ => e = Blocked) s.
Proof.
  unfold getenv. os_step. intros a w S. apply wp_ret. eapply only_os_call; [done|]. apply only_os_refl.
Qed.

Lemma wp_keyfilepath size s :
  wp (get_user_keyfilepath size) (fun _ s' => only_os s s') (fun e _ => e = Blocked) s.
Proof.
  unfold get_user_keyfilepath. wp_step. eapply wp_mono; [apply wp_getenv| |done]. intros [home|] s1 O1; [|by apply wp_ret].
  cbv zeta. destruct (_ >=? _); [by apply wp_ret|]. os_step. intros a w S. cbv beta. wp_step.
  assert (O2 : only_os s (at_world w s1)) by (eapply only_os_trans; [done|]; eapply only_os_call; [done|apply only_os_refl]).
  destruct a as [st|e].
  - apply wp_ret. by apply wp_ret.
  - unfold adb_mkdir. os_step. intros a w' S'. apply wp_ret.
    assert (O3 : only_os s (at_world w' s1)) by (eapply only_os_trans; [exact O2|]; eapply only_os_call; [done|apply only_os_refl]).
    destruct (negb _); by apply wp_ret.
Qed.

(** The directory of the keys under a home, and the user's key in it. *)
Definition keys_dir (home : bytes) : bytes := home ++ str "/" ++ ANDROID_PATH.

Definition key_path (home : bytes) : bytes := keys_dir home ++ str "/" ++ ADB_KEY_FILE.

(** The calls that find or make the directory; [there] tells if it then is there. *)
Inductive dir_calls (dir : bytes) : bool -> list event -> Prop :=
| dir_found st : dir_calls dir true [ev (Stat dir) (Ok st)]
| dir_made e : dir_calls dir true [ev (Stat dir) (Err e); ev (Mkdir dir 0x1e8) (Ok tt)]
| dir_refused e e' : dir_calls dir false [ev (Stat dir) (Err e); ev (Mkdir dir 0x1e8) (Err e')].

(** How the path of the user's key is found: [None] for the result -1. *)
Inductive found_path (w : world) : option bytes -> world -> Prop :=
| no_home a w' : steps w [ev (Getenv (str "HOME")) a] w' -> (forall home, a <> Ok (Some home)) -> found_path w None w'
| long_home home w' : steps w [ev (Getenv (str "HOME")) (Ok (Some home))] w' ->
    Client.PATH_MAX <= Z.of_nat (length (keys_dir home)) -> found_path w None w'
| home_path home there new w' : steps w (ev (Getenv (str "HOME")) (Ok (Some home)) :: new) w' ->
    Z.of_nat (length (keys_dir home)) < Client.PATH_MAX -> dir_calls (keys_dir home) there new ->
    found_path w (if there then Some (key_path home) else None) w'.

Lemma wp_keyfilepath_why size s :
  wp (get_user_keyfilepath size)
    (fun '(ret, path) s' => exists r w', s' = at_world w' s /\ found_path (hk_world s) r w' /\
       (ret, path) = match r with Some p => (Z.of_nat (length p), snprintf size p) | None => (-1, []) end)
    (fun e _ => e = Blocked) s.
Proof.
  unfold get_user_keyfilepath. wp_step. unfold getenv. os_step. intros a w S. apply wp_ret.
  assert (Hno : (forall home, a <> Ok (Some home)) -> found_path (hk_world s) None w) by (intros; by eapply no_home).
  destruct a as [[home|]|e]; [|by apply wp_ret; exists None, w; split_and!; [|apply Hno|]..].
  cbv zeta. fold (keys_dir home). fold (key_path home). destruct (Z.geb_spec (Z.of_nat (length (keys_dir home))) Client.PATH_MAX) as [Hl|Hl].
  { apply wp_ret. exists None, w. split_and!; [done|by eapply long_home|done]. }
  assert (Hp : forall there new w', steps w new w' -> dir_calls (keys_dir home) there new ->
            found_path (hk_world s) (if there then Some (key_path home) else None) w').
  { intros there new w' S' Hd. eapply home_path; [exact (steps_trans _ _ _ _ _ S S')|lia|done]. }
  os_step. intros st w1 S1. cbv beta. wp_step. destruct st as [st|e].
  - apply wp_ret. cbn [negb]. apply wp_ret. exists (Some (key_path home)), w1. split_and!; [done| |done].
    eapply (Hp true); [exact S1|constructor].
  - unfold adb_mkdir. os_step. intros u w2 S2. pose proof (steps_trans _ _ _ _ _ S1 S2) as S3. apply wp_ret.
    destruct u as [[]|e']; cbn [rc Z.ltb Z.compare negb]; apply wp_ret.
    + exists (Some (key_path home)), w2. split_and!; [done| |done]. eapply (Hp true); [exact S3|constructor].
    + exists None, w2. split_and!; [done| |done]. eapply (Hp false); [exact S3|constructor].
Qed.

(** ** The next key *)

Lemma load_next_run {T} `{Linked T} (h : gmap N T) p q : next_is h p q -> load_next p h = (Done q, h).
Proof.
  unfold next_is, load_next, load, must. destruct (h !! p) as [t|] eqn:E; [|done]. intros [= <-].
  unfold mbind, M_bind. by rewrite E.
Qed.

Lemma next_after_run h pre x ys a fuel :
  lseg h a (pre ++ x :: ys) AuthHost.key_list -> NoDup (AuthHost.key_list :: pre ++ x :: ys) -> (length pre < fuel)%nat ->
  next_after fuel (List.hd NULL (pre ++ x :: ys)) x h = (Done (List.hd NULL ys), h).
Proof.
  revert a fuel. induction pre as [|y pre IH]; intros a [|fuel] Hs Hd Hf; [cbn in Hf; lia| |cbn in Hf; lia|].
  - cbn [app List.hd next_after]. apply NoDup_cons in Hd as [Hk Hd]. rewrite bool_decide_false by set_solver.
    destruct Hs as (_ & _ & Hs). rewrite (bind_done _ _ _ _ _ (load_next_run _ _ _ (lseg_next_hd _ _ _ _ Hs))).
    rewrite (bool_decide_true (x = x)) by done. destruct ys as [|y ys]; cbn.
    + by rewrite bool_decide_true.
    + rewrite bool_decide_false; [done|]. cbn in Hk. set_solver.
  - cbn [app List.hd next_after]. pose proof Hd as Hd0. apply NoDup_cons in Hd as [Hk Hd]. rewrite bool_decide_false by set_solver.
    destruct Hs as (_ & _ & Hs). rewrite (bind_done _ _ _ _ _ (load_next_run _ _ _ (lseg_next_hd _ _ _ _ Hs))).
    apply NoDup_cons in Hd as [Hy Hd]. rewrite bool_decide_false by set_solver.
    replace (List.hd AuthHost.key_list (pre ++ x :: ys)) with (List.hd NULL (pre ++ x :: ys)) by (by destruct pre).
    eapply IH; [exact Hs| |cbn in Hf; lia]. apply NoDup_cons. split; [set_solver|done].
Qed.

Lemma heap_run {A} (m : M (gmap N adb_private_key) A) (a : A) s :
  m (hk_heap s) = (Done a, hk_heap s) -> heap m s = (Done a, s).
Proof. intros E. unfold heap, zoom. cbn. rewrite E. by destruct s. Qed.

(** From the last key tried the search goes on to the next one. *)
Lemma nextkey_run s pre ys :
  dll (hk_heap s) AuthHost.key_list (pre ++ ys) -> NULL ∉ pre ++ ys ->
  adb_auth_nextkey (last_or NULL pre) s = (Done (List.hd NULL ys), s).
Proof.
  intros Hl Hn. unfold adb_auth_nextkey. pose proof (load_next_run _ _ _ (dll_next _ _ _ Hl)) as E1.
  assert (E2 : list_empty AuthHost.key_list (hk_heap s) = (Done (bool_decide (AuthHost.key_list = List.hd AuthHost.key_list (pre ++ ys))), hk_heap s)).
  { unfold list_empty. by rewrite (bind_done _ _ _ _ _ E1). }
  rewrite (bind_done _ _ _ _ _ (heap_run _ _ _ E2)). destruct (decide (pre ++ ys = [])) as [E|Hne].
  { rewrite E. cbn. rewrite bool_decide_true by done. by apply app_eq_nil in E as [_ ->]. }
  rewrite bool_decide_false by (intros E; by apply (dll_empty _ _ _ Hl) in E).
  destruct (decide (pre = [])) as [->|Hp].
  { rewrite bool_decide_true by done. unfold list_head. rewrite (heap_run _ _ _ E1). by destruct ys. }
  destruct (exists_last Hp) as (pre' & x & ->). replace (last_or NULL (pre' ++ [x])) with x by (unfold last_or; by rewrite last_snoc).
  assert (x <> NULL) by (intros ->; set_solver).
  rewrite bool_decide_false by done. unfold mbind at 1, M_bind at 1, gets. cbv beta iota.
  rewrite (bind_done _ _ _ _ _ (heap_run _ _ _ E1)). rewrite <- app_assoc in *. cbn [app] in *.
  replace (List.hd AuthHost.key_list (pre' ++ x :: ys)) with (List.hd NULL (pre' ++ x :: ys)) by (by destruct pre').
  apply heap_run. destruct Hl as [Hd Hs]. eapply next_after_run; [exact Hs|done|].
  pose proof (dll_length _ _ _ (conj Hd Hs)) as L. rewrite length_app in L. lia.
Qed.

(** ** Answering tokens *)

Section tokens.
Context (sizeof_ptr : Z) (load_file : bytes -> M world (option bytes)).
(** [load_file] uses the operating system and nothing else. *)
Hypothesis load_file_calls : forall path w,
  wp (load_file path) (fun _ w' => exists new, steps w new w') (fun e w' => e = Blocked /\ exists new, steps w new w') w.

(** A transport the host can answer on, and the keys [xs]. *)
Record ready (t : ptr) (xs : list ptr) (s : hkstate) : Prop := {
  rd_posix : posix_state (hk_fd s);
  rd_t : t <> NULL;
  rd_transport : is_Some (transports (rest (hk_fd s)) !! t);
  rd_keys : dll (hk_heap s) AuthHost.key_list xs;
  rd_null : NULL ∉ xs;
}.

(** An AUTH packet. *)
Definition auth_packet (kind : Z) (bs : bytes) : apacket :=
  seal {| msg := {| command := A_AUTH; arg0 := kind; arg1 := 0; data_length := Z.of_nat (length bs);
                    data_check := 0; magic := 0 |}; data := bs |}.

(** What was done to answer: the keys the transports are at, the calls of OpenSSL
    and the packets for [t]. *)
Record answered (t : ptr) (s : hkstate) (keys : gmap N ptr) (calls : list ssl_event) (packets : list apacket)
    (s' : hkstate) : Prop := {
  an_key : hk_key s' = keys;
  an_heap : hk_heap s' = hk_heap s;
  an_env : ssl_env (hk_ssl s') = ssl_env (hk_ssl s);
  an_calls : ssl_hist (hk_ssl s') = ssl_hist (hk_ssl s) ++ calls;
  an_sent : sent (rest (hk_fd s')) = sent (rest (hk_fd s)) ++ ((fun b => (t, b)) <$> packets);
  an_world : exists new, steps (hk_world s) new (hk_world s');
}.

Definition auth_stop (e : stop) (_ : hkstate) : Prop := send_stop e \/ e = Undef "signature after the packet".

(** The packet with a signature; none when signing failed. *)
Definition signature_packets (sig : option bytes) : list apacket :=
  match sig with
  | None | Some [] => []
  | Some sig => [auth_packet ADB_AUTH_SIGNATURE sig]
  end.

(** A new packet is sent, or given back. *)
Definition reply (t : ptr) (kind : Z) (answer : option bytes) (p : pkt) : F unit :=
  match answer with
  | None => put_apacket p
  | Some bs => send_packet sizeof_ptr (set_msg A_AUTH kind 0 (Z.of_nat (length bs)) (set_data bs p)) t
  end.

Lemma wp_reply t kind answer p s Q :
  posix_state (hk_fd s) -> t <> NULL -> is_Some (transports (rest (hk_fd s)) !! t) -> p_addr p ∈ live (rest (hk_fd s)) ->
  (forall f, posix_state f -> is_Some (transports (rest f) !! t) ->
     sent (rest f) = sent (rest (hk_fd s)) ++ ((fun b => (t, b)) <$> (auth_packet kind <$> option_list answer)) ->
     (exists new, steps (hk_world s) new (fd_world f)) -> Q tt (put f s)) ->
  wp (in_fd (reply t kind answer p)) Q auth_stop s.
Proof.
  intros Hp Ht [tr Htr] Hl HQ. apply wp_zoom. destruct answer as [bs|]; cbn [reply].
  - eapply wp_send_packet; [done|done|exact Htr|exact Hl| |intros e ? He; by left].
    intros w' new S _. apply HQ; [cbn; by rewrite (steps_env _ _ _ S)|cbn; by rewrite Htr|done|by exists new].
  - unfold put_apacket, release. wp_step. apply wp_global. rewrite bool_decide_true by exact Hl.
    apply wp_update. apply HQ; [done|cbn; by rewrite Htr|cbn; by rewrite app_nil_r|exists []; apply steps_refl].
Qed.

Lemma wp_sign node kd token s Q :
  hk_heap s !! node = Some kd ->
  (forall sig, Q (match sig with Some [] => None | _ => sig end) (ssl_more [sev (Rsa_sign (key_rsa kd) token) sig] s)) ->
  wp (adb_auth_sign node token) Q auth_stop s.
Proof.
  intros Hn HQ. unfold adb_auth_sign. wp_step. unfold heap, load. wp_step. eapply wp_must; [exact Hn|].
  rewrite put_view. ssl_step. intros sig _. specialize (HQ sig). destruct sig as [sig|]; [|exact HQ].
  destruct (Z.of_nat (length sig) >? MAX_PAYLOAD) eqn:E; [by right|]. apply wp_ret. revert HQ.
  rewrite s32_small by (unfold MAX_PAYLOAD in E; lia). by destruct sig.
Qed.

(** A packet to fill. *)
Lemma wp_packet s Q :
  posix_state (hk_fd s) ->
  (forall p f, posix_state f -> p_addr p ∈ live (rest f) -> sent (rest f) = sent (rest (hk_fd s)) ->
     transports (rest f) = transports (rest (hk_fd s)) -> (exists new, steps (hk_world s) new (fd_world f)) -> Q p (put f s)) ->
  wp (in_fd get_apacket) Q auth_stop s.
Proof.
  intros Hp HQ. apply wp_zoom, wp_get_apacket; [|intros; by left].
  intros p w' new _ _ _ S _. apply HQ; [cbn; by rewrite (steps_env _ _ _ S)|cbn; set_solver|done|done|by exists new].
Qed.

Lemma ready_put t xs s f s' :
  ready t xs s -> posix_state f -> is_Some (transports (rest f) !! t) -> hk_fd s' = f -> hk_heap s' = hk_heap s -> ready t xs s'.
Proof. intros [] Hp Ht <- Eh. split; [done|done|done| |done]. by rewrite Eh. Qed.

(** A signature by the current key, if there is one. *)
Lemma wp_send_response t xs s kd token :
  ready t xs s -> hk_heap s !! default NULL (hk_key s !! t) = Some kd ->
  wp (send_auth_response sizeof_ptr token t)
    (fun _ s' => ready t xs s' /\ exists sig,
       answered t s (hk_key s) [sev (Rsa_sign (key_rsa kd) token) sig] (signature_packets sig) s') auth_stop s.
Proof.
  intros R Hk. unfold send_auth_response. wp_step. apply wp_packet; [apply R|]. intros p f Pf Lf Sf Tf [n1 S1].
  wp_step. wp_step. wp_step. eapply wp_sign; [exact Hk|]. intros sig.
  set (ans := match sig with Some [] => None | _ => sig end).
  replace (match ans with None => _ | Some _ => _ end) with (in_fd (reply t ADB_AUTH_SIGNATURE ans p)) by (by destruct ans).
  apply wp_reply; [done|apply R|cbn; rewrite Tf; apply R|done|]. cbn. intros f' Pf' Tf' Sf' [n2 S2].
  split; [by eapply ready_put|]. exists sig. split; [done|done|done|done| |exists (n1 ++ n2); by eapply steps_trans].
  cbn. rewrite Sf', Sf. f_equal. subst ans. by destruct sig as [[|b sig]|].
Qed.

(** The public key of the user, as [adb_auth_get_userkey] finds it: the file of the
    key with its NUL, unless its path cannot be had, it cannot be loaded or it
    is too long. *)
Inductive userkey (size : Z) (w : world) : option bytes -> world -> Prop :=
| no_path w' : found_path w None w' -> userkey size w None w'
| long_path path w' : found_path w (Some path) w' -> Client.PATH_MAX - 4 <= Z.of_nat (length path) -> userkey size w None w'
| loaded_key path w1 r w' : found_path w (Some path) w1 -> Z.of_nat (length path) < Client.PATH_MAX - 4 ->
    load_file (path ++ str ".pub") w1 = (Done r, w') ->
    userkey size w
      (match r with
       | Some file => if Z.of_nat (length file) + 1 <=? size then Some (file ++ [0]) else None
       | None => None
       end) w'.

Lemma found_path_steps w r w' : found_path w r w' -> exists new, steps w new w'.
Proof. by intros []; eexists. Qed.

Lemma userkey_steps size w r w' : userkey size w r w' -> exists new, steps w new w'.
Proof.
  intros [w1 H|path w1 H _|path w1 r' w2 H _ E]; [by eapply found_path_steps..|].
  destruct (found_path_steps _ _ _ H) as [n1 S1]. pose proof (load_file_calls (path ++ str ".pub") w1) as L.
  unfold wp in L. rewrite E in L. destruct L as [n2 S2]. exists (n1 ++ n2). by eapply steps_trans.
Qed.

Lemma wp_userkey size s :
  wp (adb_auth_get_userkey load_file size) (fun r s' => exists w', s' = at_world w' s /\ userkey size (hk_world s) r w') auth_stop s.
Proof.
  unfold adb_auth_get_userkey. wp_step.
  eapply wp_mono; [apply wp_keyfilepath_why| |intros e s' ->; left; apply send_stop_blocked].
  intros [ret path] s1 (r & w1 & -> & F & E). cbv beta iota. destruct r as [q|]; injection E as -> ->.
  2:{ apply wp_ret. exists w1. split; [done|by apply no_path]. }
  rewrite (proj2 (Z.ltb_ge (Z.of_nat (length q)) 0)) by lia. cbn [orb].
  destruct (Z.geb_spec (Z.of_nat (length q)) (Client.PATH_MAX - 4)) as [Hl|Hl].
  { apply wp_ret. exists w1. split; [done|]. by eapply long_path. }
  replace (snprintf (Z.to_nat (Client.PATH_MAX - 4)) q) with q by (symmetry; apply take_ge; lia).
  wp_step. apply wp_in_os. change (hk_world (at_world w1 s)) with w1.
  pose proof (load_file_calls (q ++ str ".pub") w1) as L. unfold wp in L |- *.
  destruct (load_file _ w1) as [[r|e] w'] eqn:E; [|left; destruct L as [-> _]; apply send_stop_blocked].
  assert (U := loaded_key size (hk_world s) q w1 r w' F ltac:(lia) E). destruct r as [file|]; [|by exists w'].
  rewrite Z.ltb_antisym. destruct (_ <=? size); cbn [negb]; by exists w'.
Qed.

(** In a run from [s] to [s'], the public key is looked for and [pk] found. *)
Definition looked_up (pk : option bytes) (s s' : hkstate) : Prop :=
  exists n1 w1 w2 n2, steps (hk_world s) n1 w1 /\ userkey MAX_PAYLOAD w1 pk w2 /\ steps w2 n2 (hk_world s').

Lemma wp_send_publickey t xs s :
  ready t xs s ->
  wp (send_auth_publickey sizeof_ptr load_file t)
    (fun _ s' => ready t xs s' /\ exists pk, looked_up pk s s' /\
       answered t s (hk_key s) [] (auth_packet ADB_AUTH_RSAPUBLICKEY <$> option_list pk) s') auth_stop s.
Proof.
  intros R. unfold send_auth_publickey. wp_step. apply wp_packet; [apply R|]. intros p f Pf Lf Sf Tf [n1 S1].
  wp_step. eapply wp_mono; [apply wp_userkey| |done]. intros pk s1 (w & -> & U).
  destruct (userkey_steps _ _ _ _ U) as [new S].
  replace (match pk with None => _ | Some _ => _ end) with (in_fd (reply t ADB_AUTH_RSAPUBLICKEY pk p)) by (by destruct pk).
  apply wp_reply; [cbn; by rewrite (steps_env _ _ _ S)|apply R|cbn; rewrite Tf; apply R|done|]. cbn. intros f' Pf' Tf' Sf' [n2 S2].
  split; [by eapply ready_put|]. exists pk. split; [by exists n1, (fd_world f), w, n2|].
  split; [done|done|done|cbn; by rewrite app_nil_r|cbn; by rewrite Sf', Sf|].
  exists (n1 ++ new ++ n2). eapply steps_trans; [exact S1|]. by eapply steps_trans.
Qed.

(** The token of a packet. *)
Definition token_of (p : pkt) : bytes := take (Z.to_nat (data_length (msg (p_body p)))) (data (p_body p)).

Definition is_token (p : pkt) : Prop := arg0 (msg (p_body p)) = ADB_AUTH_TOKEN.

(** One token, when the keys [pre] have been tried and [ys] are left. *)
Lemma wp_token t pre ys p s :
  ready t (pre ++ ys) s -> is_token p -> default NULL (hk_key s !! t) = last_or NULL pre ->
  wp (handle_auth sizeof_ptr load_file p t)
    (fun _ s' => ready t (pre ++ ys) s' /\
       match ys with
       | k :: _ => exists kd sig, hk_heap s !! k = Some kd /\
           answered t s (<[t := k]> (hk_key s)) [sev (Rsa_sign (key_rsa kd) (token_of p)) sig] (signature_packets sig) s'
       | [] => exists pk, looked_up pk s s' /\
           answered t s (<[t := NULL]> (hk_key s)) [] (auth_packet ADB_AUTH_RSAPUBLICKEY <$> option_list pk) s'
       end) auth_stop s.
Proof.
  intros R Hp Hk. unfold handle_auth. rewrite Hp. cbn [ADB_AUTH_TOKEN Z.eqb Pos.eqb]. wp_step. apply wp_zoom.
  destruct (rd_transport _ _ _ R) as [tr Htr]. eapply wp_set; [exact Htr|]. cbv beta.
  set (s1 := put _ s). wp_step. wp_step. change (hk_key s1) with (hk_key s). rewrite Hk.
  assert (R1 : ready t (pre ++ ys) s1).
  { apply (ready_put _ _ s (hk_fd s1)); [exact R|apply R| |done|done]. cbn. by rewrite lookup_insert_eq. }
  wp_step. eapply wp_eq; [apply (nextkey_run s1 pre ys); apply R1|]. apply wp_ret. wp_step. wp_step.
  assert (R2 : ready t (pre ++ ys) (set_key t (List.hd NULL ys) s1)).
  { eapply ready_put; [exact R1|apply R1|apply R1|done|done]. }
  assert (A : forall keys calls pk s', answered t (set_key t (List.hd NULL ys) s1) keys calls pk s' -> answered t s keys calls pk s').
  { by intros keys calls pk s' []. }
  destruct ys as [|k ys]; cbn [List.hd] in *.
  - rewrite bool_decide_false by naive_solver. eapply wp_mono; [by apply wp_send_publickey| |done].
    intros _ s' (R' & pk & U & An). split; [done|]. exists pk. split; [done|]. by apply A.
  - assert (Hne : k <> NULL) by (intros ->; apply (rd_null _ _ _ R); set_solver). rewrite bool_decide_true by done.
    destruct (dll_is_Some _ _ _ k (rd_keys _ _ _ R) ltac:(set_solver)) as [kd Hkd].
    eapply wp_mono; [eapply (wp_send_response _ _ _ kd); [exact R2|cbn; by rewrite lookup_insert_eq]| |done].
    intros _ s' (R' & sig & An). split; [done|]. exists kd, sig. split; [done|]. by apply A.
Qed.

(** The calls that sign the tokens of [ps] with the keys [xs], one after the other. *)
Fixpoint sign_calls (h : gmap N adb_private_key) (xs : list ptr) (ps : list pkt) (sigs : list (option bytes)) : list ssl_event :=
  match xs, ps, sigs with
  | x :: xs', p :: ps', sig :: sigs' =>
      match h !! x with
      | Some kd => sev (Rsa_sign (key_rsa kd) (token_of p)) sig :: sign_calls h xs' ps' sigs'
      | None => []
      end
  | _, _, _ => []
  end.

Lemma answered_trans t s s1 s2 k1 k2 c1 c2 p1 p2 :
  answered t s k1 c1 p1 s1 -> answered t s1 k2 c2 p2 s2 -> answered t s k2 (c1 ++ c2) (p1 ++ p2) s2.
Proof.
  intros [A1 A2 A3 A4 A5 [n1 S1]] [B1 B2 B3 B4 B5 [n2 S2]].
  split; [done|by rewrite B2|by rewrite B3|by rewrite B4, A4, app_assoc|by rewrite B5, A5, fmap_app, app_assoc|].
  exists (n1 ++ n2). by eapply steps_trans.
Qed.

Lemma looked_up_later pk s s1 s2 : (exists new, steps (hk_world s) new (hk_world s1)) -> looked_up pk s1 s2 -> looked_up pk s s2.
Proof.
  intros [n S] (n1 & w1 & w2 & n2 & S1 & U & S2). exists (n ++ n1), w1, w2, n2. split; [by eapply steps_trans|done].
Qed.

(** The rest of a round, when the keys [pre] have been tried. *)
Lemma wp_round t ys pre ps s :
  ready t (pre ++ ys) s -> default NULL (hk_key s !! t) = last_or NULL pre -> Forall is_token ps ->
  length ps = S (length ys) ->
  wp (for_each ps (fun p => handle_auth sizeof_ptr load_file p t))
    (fun _ s' => exists sigs pk, length sigs = length ys /\ looked_up pk s s' /\
       answered t s (<[t := NULL]> (hk_key s)) (sign_calls (hk_heap s) ys ps sigs)
         ((sigs ≫= signature_packets) ++ (auth_packet ADB_AUTH_RSAPUBLICKEY <$> option_list pk)) s') auth_stop s.
Proof.
  revert pre ps s. induction ys as [|k ys IH]; intros pre [|p ps] s R Hk Hps Hl; try done; cbn in Hl;
    apply Forall_cons in Hps as [Hp Hps]; cbn [for_each]; wp_step;
    (eapply wp_mono; [by apply wp_token| |done]).
  - destruct ps; [|done]. intros _ s' (R' & pk & U & An). apply wp_ret. by exists [], pk.
  - intros _ s1 (R1 & kd & sig & Hkd & An). eapply wp_mono; [apply (IH (pre ++ [k]))| |done].
    + by rewrite <- app_assoc.
    + rewrite (an_key _ _ _ _ _ _ An), lookup_insert_eq. unfold last_or. by rewrite last_snoc.
    + done.
    + lia.
    + intros _ s2 (sigs & pk & Hs & U & An2). exists (sig :: sigs), pk. cbn [length sign_calls]. rewrite Hkd.
      split; [lia|]. split; [by eapply looked_up_later; [apply An|]|]. pose proof (answered_trans _ _ _ _ _ _ _ _ _ _ An An2) as A.
      rewrite (an_key _ _ _ _ _ _ An), (an_heap _ _ _ _ _ _ An), insert_insert_eq in A.
      cbn [mbind list_bind app]. rewrite <- app_assoc. exact A.
Qed.

(** C33: the host offers every key once, in the order of its list, and then its
    public key.  A device that refuses what it is sent asks with one more token
    each time; over one token more than there are keys the host has made
    exactly one signature with each key, of the token it was asked with, has
    sent each signature that could be made, and at last has looked up the file
    "$HOME/.android/adbkey.pub" and sent it, with a NUL, as its public key: not
    so only if there is no HOME, the path is too long, the directory is not
    there and cannot be made, the file cannot be loaded, or it does not fit into
    a packet.  Then it starts again with the first key. *)
Theorem every_key_tried t xs ps s :
  ready t xs s -> default NULL (hk_key s !! t) = NULL -> Forall is_token ps -> length ps = S (length xs) ->
  wp (for_each ps (fun p => handle_auth sizeof_ptr load_file p t))
    (fun _ s' => exists sigs pk, length sigs = length xs /\ looked_up pk s s' /\
       answered t s (<[t := NULL]> (hk_key s)) (sign_calls (hk_heap s) xs ps sigs)
         ((sigs ≫= signature_packets) ++ (auth_packet ADB_AUTH_RSAPUBLICKEY <$> option_list pk)) s') auth_stop s.
Proof. intros R Hk Hps Hl. by apply (wp_round t xs []). Qed.
End tokens.
