(* ===== verification/AuthKeySpec.v ===== *)
(** * Correctness of the host's key files and of the list of keys

    That the device reads back the public key the host writes, how the file of
    the private key is protected, and which keys the list holds after start-up. *)

From S2P Require Import Prelude Effects DList Os Sysdeps Wire Globals Fdevent Transport Sockets Auth Protocol Host AdbClient AuthHost SocketsSpec AuthHostSpec.

Import AuthHost.

(** ** The memory of a key *)

Lemma le_val_words ws rest :
  Forall (fun w => 0 <= w < 2 ^ 32) ws -> le_val (take (4 * length ws) ((ws ≫= le32) ++ rest)) = words_val ws.
Proof.
  induction ws as [|w ws IH]; intros Hw; [done|]. apply Forall_cons in Hw as [Hw Hws].
  cbn [mbind list_bind length words_val]. replace (4 * S (length ws))%nat with (4 + 4 * length ws)%nat by lia.
  change (le32 w) with [w mod 256; (w / 256) mod 256; (w / 256 / 256) mod 256; (w / 256 / 256 / 256) mod 256].
  cbn [app take Nat.add le_val]. rewrite IH by done.
  rewrite !Z.div_div by lia. change (256 * 256 * 256) with (2 ^ 24). change (256 * 256) with (2 ^ 16).
  assert (Hx : le_val (le32 w) = w) by (by apply le_val_le32).
  cbn [le_bytes le_val] in Hx. rewrite !Z.div_div in Hx by lia.
  change (256 * 256 * 256) with (2 ^ 24) in Hx. change (256 * 256) with (2 ^ 16) in Hx. lia.
Qed.

Lemma length_words ws : length (ws ≫= le32) = (4 * length ws)%nat.
Proof. induction ws as [|w ws IH]; [done|]. cbn [mbind list_bind length]. rewrite length_app, IH. cbn. lia. Qed.

(** The key in the memory of a little-endian machine. *)
Record key_memory (N : Z) (mem : bytes) : Prop := {
  km_length : Z.of_nat (length mem) = sizeof_RSAPublicKey;
  km_words : le_val (take 4 mem) = RSANUMWORDS;
  km_n0inv : (le_val (take 4 (drop 4 mem)) * N) mod 2 ^ 32 = 2 ^ 32 - 1;
  km_n : le_val (take 256 (drop 8 mem)) = N;
  km_rr : le_val (take 256 (drop 264 mem)) = (2 ^ 2048 * 2 ^ 2048) mod N;
}.

Lemma pkey_memory N E k : converted N E k -> key_memory N (pkey_bytes false k).
Proof.
  intros [Hl [Ln Fn] [Lr Fr] Vn Vr Hi Wi _]. unfold pkey_bytes. change (host_bytes false) with (fun x => le32 x).
  rewrite Hl in Ln, Lr. change (Z.to_nat RSANUMWORDS) with 64%nat in Ln, Lr.
  assert (Hd : forall a b, length a = 64%nat -> drop 256 ((a ≫= le32) ++ b) = b).
  { intros a b La. apply drop_app_length'. by rewrite length_words, La. }
  rewrite !bind_app. cbn [mbind list_bind app] in *. rewrite app_nil_r. rewrite <- !app_assoc.
  assert (E8 : forall x y rest, drop 8 (le32 x ++ le32 y ++ rest) = rest) by done.
  split.
  - rewrite !length_app, !length_words, Ln, Lr. done.
  - rewrite take_app_length' by done. rewrite Hl. done.
  - rewrite drop_app_length' by done. rewrite take_app_length' by done. by rewrite le_val_le32.
  - rewrite E8. change 256%nat with (4 * 64)%nat. rewrite <- Ln. by rewrite le_val_words.
  - change 264%nat with (8 + 256)%nat. rewrite <- drop_drop, E8, Hd by done.
    change 256%nat with (4 * 64)%nat. rewrite <- Lr. by rewrite le_val_words.
Qed.

(** ** The public key *)

(** The calls on an encoder that pass nothing on. *)
Definition about_encoder (c : ssl_call) (b : Z) : Prop :=
  match c with
  | Bio_set_flags b' _ | Bio_push b' _ | Bio_pop b' | Bio_free b' => b' = b
  | _ => False
  end.

Section public_key.
Context {bn : Type} `{BigNum bn} (bn_val : bn -> Z) (ulong_bits : Z) `{!BigNumLaws bn bn_val ulong_bits}.
Context (rsa_n rsa_e : list ssl_event -> Z -> bn).
(** What the base64 filter of OpenSSL writes, and the decoder of the device. *)
Context (base64 : bytes -> bytes) (b64_pton : bytes -> Z -> option bytes).
Hypothesis b64_decodes : forall bs size, Forall is_byte bs -> Z.of_nat (length bs) <= size -> b64_pton (base64 bs) size = Some bs.
Hypothesis b64_printable : forall bs, Forall (fun c => c <> 0 /\ c <> 32 /\ c <> 9) (base64 bs).

(** What OpenSSL is relied on for, after a history of calls: the stream of a file
    that was opened ([None] if it was not), with its path; a base64 encoder, with
    its flags, the stream it is pushed on, what that had been given before, and
    what the encoder has been given since; and what is on the disk. *)
Record encoder := { enc_flags : Z; enc_next : Z; enc_base : bytes; enc_data : bytes }.

Class BioLaws (stream : list ssl_event -> Z -> option (bytes * bytes)) (enc : list ssl_event -> Z -> option encoder)
    (disk : list ssl_event -> bytes -> bytes) : Prop := {
  (** BIO_new_file(3), mode "w": a file is created or emptied. *)
  bio_new_file h path f : f <> 0 -> stream (h ++ [sev (Bio_new_file path) f]) f = Some (path, []);
  (** BIO_f_base64(3), BIO_set_flags(3), BIO_push(3) *)
  bio_new_base64 h b : b <> 0 ->
    enc (h ++ [sev Bio_new_base64 b]) b = Some (Build_encoder 0 0 [] []) /\
    forall f, b <> f -> stream (h ++ [sev Bio_new_base64 b]) f = stream h f;
  bio_set_flags h b flags a e : enc h b = Some e ->
    enc (h ++ [sev (Bio_set_flags b flags) a]) b =
      Some (Build_encoder (Z.lor (enc_flags e) flags) (enc_next e) (enc_base e) (enc_data e));
  bio_push h b f a e path data : enc h b = Some e -> stream h f = Some (path, data) ->
    enc (h ++ [sev (Bio_push b f) a]) b = Some (Build_encoder (enc_flags e) f data []);
  (** BIO_write(3), all of the data accepted; an encoder may keep some of it back. *)
  bio_write_encoder h b bs e path data : enc h b = Some e -> stream h (enc_next e) = Some (path, data) ->
    let h' := h ++ [sev (Bio_write b bs) (Z.of_nat (length bs))] in
    enc h' b = Some (Build_encoder (enc_flags e) (enc_next e) (enc_base e) (enc_data e ++ bs)) /\
    exists data', stream h' (enc_next e) = Some (path, data');
  bio_write_stream h f bs path data : stream h f = Some (path, data) ->
    stream (h ++ [sev (Bio_write f bs) (Z.of_nat (length bs))]) f = Some (path, data ++ bs);
  (** BIO_f_base64(3): a flush ends the encoding; with BASE64_NO_NL it is one line
      without a newline. *)
  bio_flush_encoder h b e path data : enc h b = Some e -> enc_flags e = BIO_FLAGS_BASE64_NO_NL ->
    stream h (enc_next e) = Some (path, data) ->
    stream (h ++ [sev (Bio_flush b) 1]) (enc_next e) = Some (path, enc_base e ++ base64 (enc_data e));
  (** BIO_flush(3) *)
  bio_flush_stream h f path data : stream h f = Some (path, data) ->
    disk (h ++ [sev (Bio_flush f) 1]) path = data;
  (** What is done to an encoder itself does not reach the stream, and freeing a
      stream keeps the file. *)
  bio_apart h c a b f : about_encoder c b -> b <> f -> stream (h ++ [sev c a]) f = stream h f;
  bio_free_all h f a path : disk (h ++ [sev (Bio_free_all f) a]) path = disk h path;
}.

Context (stream : list ssl_event -> Z -> option (bytes * bytes)) (enc : list ssl_event -> Z -> option encoder).
Context (disk : list ssl_event -> bytes -> bytes) `{!BioLaws stream enc disk}.

(** The calls of [write_public_keyfile] on its file and its encoder, if all are
    carried out. *)
Definition bio_calls (path : bytes) (f b64 : Z) (mem info : bytes) (a : Z * Z * Z * Z * Z) : list ssl_event :=
  let '(a1, a2, a3, a4, a5) := a in
  [sev (Bio_new_file path) f; sev Bio_new_base64 b64; sev (Bio_set_flags b64 BIO_FLAGS_BASE64_NO_NL) a1;
   sev (Bio_push b64 f) a2; sev (Bio_write b64 mem) (Z.of_nat (length mem)); sev (Bio_flush b64) 1;
   sev (Bio_pop b64) a3; sev (Bio_free b64) a4; sev (Bio_write f info) (Z.of_nat (length info)); sev (Bio_flush f) 1;
   sev (Bio_free_all f) a5].

Lemma foldl_snoc {A} (h es : list A) : foldl (fun h e => h ++ [e]) h es = h ++ es.
Proof. revert h. induction es as [|e es IH]; intros h; [by rewrite app_nil_r|]. cbn. by rewrite IH, <- app_assoc. Qed.

Lemma bio_calls_disk h path f b64 mem info a : f <> 0 -> b64 <> 0 -> b64 <> f ->
  disk (h ++ bio_calls path f b64 mem info a) path = base64 mem ++ info.
Proof.
  intros Hf Hb Hne. destruct a as [[[[a1 a2] a3] a4] a5]. rewrite <- foldl_snoc. cbn [bio_calls foldl].
  pose proof (bio_new_file h path f Hf) as S1. set (h1 := h ++ _) in *.
  destruct (bio_new_base64 h1 b64 Hb) as [E2 S2]. specialize (S2 f Hne). rewrite S1 in S2. set (h2 := h1 ++ _) in *.
  pose proof (bio_set_flags h2 b64 BIO_FLAGS_BASE64_NO_NL a1 _ E2) as E3.
  pose proof (bio_apart h2 (Bio_set_flags b64 BIO_FLAGS_BASE64_NO_NL) a1 b64 f eq_refl Hne) as S3. rewrite S2 in S3.
  set (h3 := h2 ++ _) in *. pose proof (bio_push h3 b64 f a2 _ _ _ E3 S3) as E4.
  pose proof (bio_apart h3 (Bio_push b64 f) a2 b64 f eq_refl Hne) as S4. rewrite S3 in S4. set (h4 := h3 ++ _) in *.
  destruct (bio_write_encoder h4 b64 mem _ _ _ E4 S4) as [E5 [d S5]]. set (h5 := h4 ++ _) in *.
  pose proof (bio_flush_encoder h5 b64 _ _ _ E5 eq_refl S5) as S6. cbn [enc_next enc_base enc_data app] in S6.
  set (h6 := h5 ++ _) in *. pose proof (bio_apart h6 (Bio_pop b64) a3 b64 f eq_refl Hne) as S7. rewrite S6 in S7.
  set (h7 := h6 ++ _) in *. pose proof (bio_apart h7 (Bio_free b64) a4 b64 f eq_refl Hne) as S8. rewrite S7 in S8.
  set (h8 := h7 ++ _) in *. pose proof (bio_write_stream h8 f info _ _ S8) as S9. set (h9 := h8 ++ _) in *.
  rewrite bio_free_all. by apply bio_flush_stream.
Qed.

Lemma cut_blank_app a rest :
  Forall (fun c => c <> 0 /\ c <> 32 /\ c <> 9) a -> cut_blank (cstr (a ++ 32 :: rest)) = a.
Proof.
  induction 1 as [|c a (Hc0 & Hc1 & Hc2) _ IH]; [done|]. cbn. rewrite (proj2 (Z.eqb_neq c 0)) by done. cbn.
  rewrite (proj2 (Z.eqb_neq c 32)), (proj2 (Z.eqb_neq c 9)) by done. cbn. by rewrite IH.
Qed.

(** The device takes the text of a public key for the key. *)
Lemma parse_key_text N mem rest :
  key_memory N mem -> Forall is_byte mem -> parse_key b64_pton (base64 mem ++ 32 :: rest) = Some mem.
Proof.
  intros [Hl Hw _ _ _] Hb. unfold parse_key. rewrite cut_blank_app by apply b64_printable.
  rewrite b64_decodes by (done || (rewrite Hl; lia)). rewrite Hl, Z.eqb_refl, Hw. done.
Qed.

Lemma pkey_is_bytes k : Forall is_byte (pkey_bytes false k).
Proof.
  unfold pkey_bytes. generalize ([len k; n0inv k] ++ n k ++ rr k ++ [u32 (exponent k)]) as ws.
  induction ws as [|w ws IH]; [by constructor|]. cbn [mbind list_bind]. apply Forall_app. split; [apply le_bytes_bytes|done].
Qed.

(** The key is written in the byte order of the host: no device accepts the key
    of a big-endian host. *)
Lemma big_endian_key_refused N E k rest : converted N E k -> parse_key b64_pton (base64 (pkey_bytes true k) ++ 32 :: rest) = None.
Proof.
  intros [Hl [Ln _] [Lr _] _ _ _ _ _]. unfold parse_key. rewrite cut_blank_app by apply b64_printable.
  assert (Hw : forall ws, length (ws ≫= host_bytes true) = (4 * length ws)%nat /\ Forall is_byte (ws ≫= host_bytes true)).
  { induction ws as [|w ws [IH1 IH2]]; [by split|]. cbn [mbind list_bind length]. rewrite length_app, IH1.
    split; [cbn; lia|]. apply Forall_app. split; [apply Forall_rev, le_bytes_bytes|done]. }
  destruct (Hw ([len k; n0inv k] ++ n k ++ rr k ++ [u32 (exponent k)])) as [Lm Bm]. fold (pkey_bytes true k) in Lm, Bm.
  assert (L : Z.of_nat (length (pkey_bytes true k)) = sizeof_RSAPublicKey).
  { rewrite Lm, !length_app, Ln, Lr, Hl. done. }
  rewrite b64_decodes by (done || (rewrite L; lia)). rewrite L, Z.eqb_refl. cbn [negb].
  replace (take 4 (pkey_bytes true k)) with (rev (le32 RSANUMWORDS)); [done|].
  unfold pkey_bytes. cbn [app mbind list_bind]. rewrite Hl. done.
Qed.

(** Why writing the file can stop. *)
Definition file_stop (s : hkstate) (e : stop) : Prop :=
  e ∈ [Blocked; Undef "hostname is not terminated"; Undef "username is indeterminate"] \/ ssl_refuses s.

Lemma wp_user_info size s Q (X : stop -> hkstate -> Prop) :
  (2 <= size)%nat ->
  (forall rest s', only_os s s' -> Q (32 :: rest) s') ->
  (forall e s', e ∈ [Blocked; Undef "hostname is not terminated"; Undef "username is indeterminate"] -> X e s') ->
  wp (get_user_info size) Q X s.
Proof.
  intros Hs HQ HX. unfold get_user_info. os_step; [|apply HX; set_solver]. intros a w S. cbv beta. wp_step.
  assert (Hrest : forall hostname, wp (r ← in_os (syscall (Getlogin 1024));
    username ← (match r with Ok bs => mret (cstr bs) | Err e => if e <? 0 then mret (str "unknown") else undef "username is indeterminate" end);
    mret (snprintf size (str " " ++ username ++ str "@" ++ hostname))) Q X (at_world w s)).
  { intros hostname. os_step; [|apply HX; set_solver]. intros b w2 S2. cbv beta. wp_step.
    assert (O : only_os s (at_world w2 s)) by (eapply only_os_call; [exact S|]; eapply only_os_call; [exact S2|apply only_os_refl]).
    assert (Hp : forall u, wp (mret (snprintf size (str " " ++ u ++ str "@" ++ hostname))) Q X (at_world w2 s)).
    { intros u. apply wp_ret. unfold snprintf. destruct size as [|[|size]]; [lia|lia|]. cbn. by apply HQ. }
    destruct b as [u|e]; [apply wp_ret, Hp|]. destruct (e <? 0); [apply wp_ret, Hp|]. apply HX; set_solver. }
  destruct a as [bs|e]; [|apply wp_ret, Hrest]. destruct (1024 <=? _)%nat; [apply HX; set_solver|apply wp_ret, Hrest].
Qed.

(** A new filter is not one of the files that are open. *)
Definition fresh_filters (s : hkstate) : Prop :=
  forall o h path f, sev (Bio_new_file path) f ∈ h -> ssl_env (hk_ssl s) o h Bio_new_base64 <> f.

Definition ev_writes (e : ssl_event) : bool := match e with existT (Bio_write _ _) _ => true | _ => false end.

Lemma quiet_no_writes h : Forall bio_quiet h -> existsb ev_writes h = false.
Proof. induction 1 as [|[c a] h Hc _ IH]; [done|]. by destruct c. Qed.

(** OpenSSL took less than it was given, or could not flush. *)
Definition bio_refused (e : ssl_event) : bool :=
  match e with
  | existT (Bio_write _ bs) n => negb (n =? Z.of_nat (length bs))
  | existT (Bio_flush _) r => negb (r =? 1)
  | _ => false
  end.

(** What became of the file. *)
Definition file_written (rsa : Z) (path : bytes) (s : hkstate) (r : Z) (s' : hkstate) : Prop :=
  exists new, ssl_hist (hk_ssl s') = ssl_hist (hk_ssl s) ++ new /\
    (r = 0 /\ existsb ev_writes new = false \/
     r = 1 /\ (existsb bio_refused new = true \/
       exists h mem, h `prefix_of` ssl_hist (hk_ssl s') /\ key_memory (bn_val (rsa_n h rsa)) mem /\
         parse_key b64_pton (disk (ssl_hist (hk_ssl s')) (path ++ str ".pub")) = Some mem)).

(** The calls with whatever OpenSSL answered. *)
Lemma file_written_ok rsa path s s' pre k f b64 rest a1 a2 n1 r1 a3 a4 n2 r2 a5 :
  f <> 0 -> b64 <> 0 -> b64 <> f ->
  let h := ssl_hist (hk_ssl s) ++ pre in
  converted (bn_val (rsa_n h rsa)) (bn_val (rsa_e h rsa)) k ->
  ssl_hist (hk_ssl s') = h ++ [sev (Bio_new_file (path ++ str ".pub")) f; sev Bio_new_base64 b64;
    sev (Bio_set_flags b64 BIO_FLAGS_BASE64_NO_NL) a1;
    sev (Bio_push b64 f) a2; sev (Bio_write b64 (pkey_bytes false k)) n1; sev (Bio_flush b64) r1; sev (Bio_pop b64) a3;
    sev (Bio_free b64) a4; sev (Bio_write f (32 :: rest)) n2; sev (Bio_flush f) r2; sev (Bio_free_all f) a5] ->
  file_written rsa path s 1 s'.
Proof.
  intros Hf Hb Hne h Hk Eh. unfold h in Eh. rewrite <- app_assoc in Eh. eexists. split; [exact Eh|]. right. split; [done|].
  destruct (existsb bio_refused _) eqn:E; [by left|right]. exists h, (pkey_bytes false k). split_and!.
  - rewrite Eh, app_assoc. by apply prefix_app_r.
  - by eapply pkey_memory.
  - rewrite existsb_app in E. apply orb_false_iff in E as [_ E]. cbn [existsb bio_refused sev] in E.
    repeat (apply orb_false_iff in E as [?E E]).
    repeat match goal with Hn : negb (_ =? _) = false |- _ => apply negb_false_iff, Z.eqb_eq in Hn; subst end.
    rewrite Eh, app_assoc. fold h.
    pose proof (bio_calls_disk h (path ++ str ".pub") f b64 (pkey_bytes false k) (32 :: rest) (a1, a2, a3, a4, a5) Hf Hb Hne) as Ed.
    cbv beta iota delta [bio_calls] in Ed. rewrite Ed.
    eapply parse_key_text; [by eapply pkey_memory|apply pkey_is_bytes].
Qed.

(** C32: the device understands the public key the host writes.  On a little-endian
    host (no device accepts the key of a big-endian one), for a key with an odd
    modulus: when [write_public_keyfile] reports success, then either OpenSSL
    took less than it was given or could not flush (the code does not look), or
    the file "<path>.pub" is a line from which the device's [parse_key] gets the
    memory of the key: 64 words, the modulus, the square of R modulo it and the
    negated inverse at their places.  When it reports failure nothing was
    written; it stops only when OpenSSL has no memory, a system call does not
    return, the name of the host is not terminated or the name of the user
    cannot be had. *)
Theorem public_key_understood rsa path s :
  (forall h, 0 < bn_val (rsa_n h rsa) /\ Z.odd (bn_val (rsa_n h rsa)) = true) -> fresh_filters s ->
  wp (write_public_keyfile rsa_n rsa_e false rsa path) (file_written rsa path s) (fun e _ => file_stop s e) s.
Proof.
  intros Hmod Hfresh. unfold write_public_keyfile. cbv zeta. destruct (_ >=? _).
  { apply wp_ret. exists []. split; [by rewrite app_nil_r|by left]. }
  wp_step. eapply wp_mono; [exact (wp_conversion bn_val ulong_bits rsa_n rsa_e rsa s Hmod)| |].
  2:{ intros e s' (_ & _ & Hr). by right. }
  intros [k|] s1 (new1 & -> & Hq & Hk).
  2:{ apply wp_ret. exists new1. split; [done|]. left. split; [done|]. by apply quiet_no_writes. }
  cbv beta iota. destruct Hk as [_ Hk]. ssl_step. intros f Hf. destruct (Z.eqb_spec f 0) as [_|Hf0].
  { apply wp_ret. exists (new1 ++ [sev (Bio_new_file (path ++ str ".pub")) f]). split; [cbn; by rewrite app_assoc|]. left.
    split; [done|]. by rewrite existsb_app, quiet_no_writes. }
  ssl_step. intros b64 Hb. destruct (Z.eqb_spec b64 0) as [E|Hb0].
  { right. eexists _, _. right. right. rewrite <- E. by symmetry. }
  assert (Hne : b64 <> f).
  { rewrite Hb. apply (Hfresh _ _ (path ++ str ".pub")). cbn. set_solver. }
  ssl_step. intros a1 _. ssl_step. intros a2 _. ssl_step. intros n1 _. ssl_step. intros r1 _. ssl_step. intros a3 _. ssl_step. intros a4 _.
  wp_step. apply wp_user_info; [unfold MAX_PAYLOAD; lia| |intros e s' He; by left].
  intros rest s2 (w & wn & -> & S). ssl_step. intros n2 _. ssl_step. intros r2 _. ssl_step. intros a5 _.
  apply wp_ret. eapply (file_written_ok rsa path s _ new1 k); [exact Hf0|exact Hb0|exact Hne|exact Hk|].
  cbn -[pkey_bytes str]. by rewrite <- !app_assoc.
Qed.
End public_key.

(** ** What an operation leaves alone *)

(** The keys are not touched, the calls of the operating system satisfy [P] and
    those of OpenSSL [R]. *)
Record moved (P : event -> Prop) (R : ssl_event -> Prop) (s s' : hkstate) : Prop := {
  mv_heap : hk_heap s' = hk_heap s;
  mv_key : hk_key s' = hk_key s;
  mv_os : exists new, steps (hk_world s) new (hk_world s') /\ Forall P new;
  mv_ssl : exists new, ssl_hist (hk_ssl s') = ssl_hist (hk_ssl s) ++ new /\ Forall R new;
}.

Definition moves {A} P R (m : H A) : Prop := forall s, wp m (fun _ => moved P R s) (fun _ => moved P R s) s.

#[global] Instance moved_preorder P R : PreOrder (moved P R).
Proof.
  split.
  - intros s. split; [done|done|exists []; split; [apply steps_refl|done]|exists []; split; [by rewrite app_nil_r|done]].
  - intros s1 s2 s3 [H1 K1 (o1 & S1 & F1) (n1 & E1 & G1)] [H2 K2 (o2 & S2 & F2) (n2 & E2 & G2)]. split.
    + by rewrite H2.
    + by rewrite K2.
    + exists (o1 ++ o2). split; [by eapply steps_trans|by apply Forall_app].
    + exists (n1 ++ n2). split; [by rewrite E2, E1, app_assoc|by apply Forall_app].
Qed.

Lemma moves_ret {A} P R (a : A) : moves P R (mret a).
Proof. intros s. apply wp_ret. reflexivity. Qed.

Lemma moves_bind {A B} P R (m : H A) (k : A -> H B) : moves P R m -> (forall a, moves P R (k a)) -> moves P R (m ≫= k).
Proof.
  intros Hm Hk s. wp_step. eapply wp_mono; [apply Hm| |done]. intros a s1 M1.
  eapply wp_mono; [apply Hk| |]; intros ? s2 M2; exact (transitivity M1 M2).
Qed.

Lemma moves_undef {A} P R why : moves P R (undef why : H A).
Proof. intros s. unfold wp. cbn. reflexivity. Qed.

Lemma moves_gets {A} P R (f : hkstate -> A) : moves P R (gets f).
Proof. intros s. unfold wp. cbn. reflexivity. Qed.

Lemma moves_ssl P (R : ssl_event -> Prop) c : (forall a, R (sev c a)) -> moves P R (ssl_do c).
Proof.
  intros Hc s. apply (wp_ssl c). intros a _. split; [done|done|exists []; split; [apply steps_refl|done]|].
  exists [sev c a]. split; [done|]. by constructor.
Qed.

Lemma moves_call (P : event -> Prop) R c : (forall a, P (ev c a)) -> moves P R (in_os (syscall c)).
Proof.
  intros Hc s. apply (wp_hk_call c); [|reflexivity]. intros a w S. split; [done|done| |exists []; split; [cbn; by rewrite app_nil_r|done]].
  exists [ev c a]. split; [exact S|]. by constructor.
Qed.

Lemma moves_need {A} P R why (o : option A) : moves P R (need why o).
Proof. destruct o; [apply moves_ret|apply moves_undef]. Qed.

Ltac moves_tac :=
  repeat match goal with
  | |- moves _ _ (mret _) => apply moves_ret
  | |- moves _ _ skip => apply moves_ret
  | |- moves _ _ (_ ≫= _) => apply moves_bind
  | |- forall _, _ => intros ?
  | |- moves _ _ (undef _) => apply moves_undef
  | |- moves _ _ (gets _) => apply moves_gets
  | |- moves _ _ (need _ _) => apply moves_need
  | |- moves _ _ (ssl_do ?c) => apply (moves_ssl _ _ c); intros ?; done
  | |- moves _ _ (in_os (syscall ?c)) => apply (moves_call _ _ c); intros ?; done
  | |- moves _ _ (match ?x with _ => _ end) => destruct x
  | |- moves _ _ (let '(_, _) := ?x in _) => destruct x
  end.

Section moves.
Context {bn : Type} `{BigNum bn} (rsa_n rsa_e : list ssl_event -> Z -> bn).

(** No key is read. *)
Definition reads_nothing (e : ssl_event) : Prop := match e with existT (Pem_read_rsa _ _) _ => False | _ => True end.

(** No file is opened for writing and the mask stays. *)
Definition harmless (e : event) : Prop :=
  match e with existT (Gethostname _) _ | existT (Getlogin _) _ | existT (Fclose _) _ => True | _ => False end.

Lemma moves_key_words count r32 a b : moves harmless reads_nothing (key_words count r32 a b).
Proof. revert a b. induction count as [|count IH]; intros a b; cbn [key_words]; moves_tac; apply IH. Qed.

Lemma moves_conversion rsa : moves harmless reads_nothing (RSA_to_RSAPublicKey rsa_n rsa_e rsa).
Proof. unfold RSA_to_RSAPublicKey, BN_new. moves_tac; try apply moves_key_words. Qed.

Lemma moves_public_keyfile rsa path be : moves harmless reads_nothing (write_public_keyfile rsa_n rsa_e be rsa path).
Proof.
  unfold write_public_keyfile, get_user_info. cbv zeta. destruct (_ >=? _); [apply moves_ret|].
  apply moves_bind; [apply moves_conversion|]. intros o. moves_tac.
Qed.

Lemma moves_generate_out pkey rsa f ret : moves harmless reads_nothing (generate_out pkey rsa f ret).
Proof. unfold generate_out. moves_tac. Qed.

(** ** The private key *)

(** The calls of the operating system while a key is made: the mask keeps the
    group and others out when the file is opened, and is then set back to what
    it was.  Only a run that has not [ended] may lack the last part. *)
Definition protected (ended : bool) (file : bytes) (new : list event) : Prop :=
  match new with
  | [] => True
  | existT (Umask m) old :: new' =>
      m = 0x3f /\
      match new' with
      | [] => ended = false
      | existT (Fopen_write path) _ :: new'' =>
          path = file /\
          match new'' with
          | [] => ended = false
          | existT (Umask m') _ :: rest => m' = rc_int old /\ Forall harmless rest
          | _ => False
          end
      | _ => False
      end
  | _ => False
  end.

(** Harmless calls after the three. *)
Lemma protected_tail file s a f b w (m : H Z) :
  steps (hk_world s) [ev (Umask 0x3f) a; ev (Fopen_write file) f; ev (Umask (rc_int a)) b] (hk_world w) ->
  moves harmless reads_nothing m ->
  wp m (fun _ s' => exists new, steps (hk_world s) new (hk_world s') /\ protected true file new)
       (fun _ s' => exists new, steps (hk_world s) new (hk_world s') /\ protected false file new) w.
Proof.
  intros S Hm. eapply wp_mono; [apply Hm| |]; intros ? s' [_ _ (new & S' & F) _];
    (eexists; split; [eapply steps_trans; [exact S|exact S']|done]).
Qed.

(** C34: the file of the private key is never readable by others.  Whatever the
    system and OpenSSL answer and wherever [generate_key] ends, the mask is
    0077 when the file is opened for writing, the old mask is set back right
    after it, also when the file cannot be opened, and no other file is opened
    with [fopen]; a run that returns has set the old mask back. *)
Theorem private_key_protected file be s :
  wp (generate_key rsa_n rsa_e be file)
    (fun _ s' => exists new, steps (hk_world s) new (hk_world s') /\ protected true file new)
    (fun _ s' => exists new, steps (hk_world s) new (hk_world s') /\ protected false file new) s.
Proof.
  unfold generate_key, BN_new. ssl_step. intros pkey _. wp_step. ssl_step. intros ex _. apply wp_ret. ssl_step. intros rsa _.
  destruct (_ || _).
  { unfold generate_out. wp_step. apply wp_ret. ssl_step. intros ? _. ssl_step. intros ? _. apply wp_ret. exists []. split; [apply steps_refl|done]. }
  ssl_step. intros ? _. ssl_step. intros ? _.
  os_step; [|exists []; split; [apply steps_refl|done]]. intros old w1 S1. cbv zeta.
  os_step; [|eexists; split; [exact S1|done]]. intros f w2 S2. cbv beta. pose proof (steps_trans _ _ _ _ _ S1 S2) as S12.
  destruct f as [f|e]; (os_step; [|eexists; split; [exact S12|done]]); intros b w3 S3; pose proof (steps_trans _ _ _ _ _ S12 S3) as S.
  - eapply protected_tail; [exact S|]. moves_tac; try apply moves_public_keyfile; apply moves_generate_out.
  - eapply protected_tail; [exact S|apply moves_generate_out].
Qed.
End moves.

(** ** The list of keys *)

(** The heap holds the list with the key objects [ks], in order, and nothing else. *)
Definition keys_are (ks : list Z) (s : hkstate) : Prop :=
  exists xs, dll (hk_heap s) AuthHost.key_list xs /\ NULL ∉ xs /\ Forall2 (fun x r => key_rsa <$> hk_heap s !! x = Some r) xs ks /\
    (forall p, is_Some (hk_heap s !! p) -> p ∈ AuthHost.key_list :: xs).

Definition ev_key_read (e : ssl_event) : list Z :=
  match e with existT (Pem_read_rsa _ _) r => if r =? 0 then [] else [r] | _ => [] end.

(** The keys that were read. *)
Definition keys_read (h : list ssl_event) : list Z := h ≫= ev_key_read.

(** From [s] the list has grown by the keys read since, over the calls [new]. *)
Definition grown (ks : list Z) (s : hkstate) (s' : hkstate) : Prop :=
  exists new, ssl_hist (hk_ssl s') = ssl_hist (hk_ssl s) ++ new /\ keys_are (ks ++ keys_read new) s'.

Lemma keys_grown_refl ks s : keys_are ks s -> grown ks s s.
Proof. intros K. exists []. split; [by rewrite app_nil_r|]. by rewrite app_nil_r. Qed.

Lemma grown_quiet ks s s' new :
  keys_are ks s -> hk_heap s' = hk_heap s -> ssl_hist (hk_ssl s') = ssl_hist (hk_ssl s) ++ new -> keys_read new = [] -> grown ks s s'.
Proof. intros K Eh Es Hn. exists new. split; [done|]. rewrite Hn, app_nil_r. unfold keys_are. by rewrite Eh. Qed.

Lemma grown_trans ks s s1 (Q : hkstate -> Prop) :
  grown ks s s1 -> (forall ks', keys_are ks' s1 -> (forall s2, grown ks' s1 s2 -> grown ks s s2) -> Q s1) -> Q s1.
Proof.
  intros (n1 & E1 & K1) HQ. eapply HQ; [exact K1|]. intros s2 (n2 & E2 & K2). exists (n1 ++ n2).
  split; [by rewrite E2, E1, app_assoc|]. unfold keys_read in *. by rewrite bind_app, app_assoc.
Qed.

(** A new node at the end of the list. *)
Lemma wp_append ks x r s s' Q (X : stop -> hkstate -> Prop) :
  keys_are ks s -> x <> NULL -> hk_heap s !! x = None ->
  hk_heap s' = <[x := {| key_next := NULL; key_prev := NULL; key_rsa := r |}]> (hk_heap s) ->
  (forall h, keys_are (ks ++ [r]) (put h s') -> Q tt (put h s')) ->
  wp (heap (list_add_tail AuthHost.key_list x)) Q X s'.
Proof.
  intros (xs & Hl & Hn & Hk & Ho) Hx Hf Es HQ. apply wp_zoom. cbn [view Lens_hk_heap]. rewrite Es.
  assert (Hxl : x ∉ AuthHost.key_list :: xs).
  { intros Hin. destruct (dll_is_Some _ _ _ _ Hl Hin) as [k E]. by rewrite Hf in E. }
  set (h0 := <[x := _]> (hk_heap s)).
  assert (L0 : forall p, p <> x -> h0 !! p = hk_heap s !! p) by (intros p Hp; by apply lookup_insert_ne).
  apply (wp_list_add_tail _ _ xs).
  - eapply dll_frame; [exact Hl|]. intros p Hp. apply L0. intros ->. done.
  - done.
  - unfold h0. by rewrite lookup_insert_eq.
  - intros h' Hl' Sp Fr. apply HQ. exists (xs ++ [x]). cbn. split_and!; [done| | |].
    + set_solver.
    + assert (Hp : forall y r', key_rsa <$> h0 !! y = Some r' -> key_rsa <$> h' !! y = Some r').
      { intros y r' (k & E & ->)%fmap_Some. destruct (same_payload_lookup _ _ _ _ Sp E) as (k' & -> & Ep).
        cbn. f_equal. exact (f_equal key_rsa Ep). }
      apply Forall2_app; [|constructor; [apply Hp; unfold h0; by rewrite lookup_insert_eq|constructor]].
      eapply Forall2_impl; [exact Hk|]. intros y r' E. apply Hp. rewrite L0; [done|]. intros ->. by rewrite Hf in E.
    + intros p Hp. destruct (decide (p ∈ x :: AuthHost.key_list :: xs)) as [|Hnp]; [set_solver|].
      rewrite Fr in Hp by done. rewrite L0 in Hp by set_solver. apply Ho in Hp. set_solver.
Qed.

Lemma wp_read_key ks file s :
  keys_are ks s -> wp (read_key file AuthHost.key_list) (fun _ => grown ks s) (fun e _ => e = Blocked) s.
Proof.
  intros K. unfold read_key. os_step. intros f w1 S1. cbv beta. destruct f as [f|e]; [|by apply wp_ret, (grown_quiet _ _ _ []); rewrite ?app_nil_r].
  unfold new_key. wp_step. os_step. intros m w2 S2. cbv beta. destruct m as [[]|e].
  2:{ apply wp_ret. rewrite bool_decide_true by done. os_step. intros ? w3 S3. apply wp_ret. by apply (grown_quiet _ _ _ []); rewrite ?app_nil_r. }
  wp_step. set (key := fresh _). pose proof (is_fresh ({[NULL]} ∪ dom (hk_heap (at_world w2 (at_world w1 s))))) as Hf. fold key in Hf.
  apply not_elem_of_union in Hf as [Hn%not_elem_of_singleton Hd%not_elem_of_dom]. cbn in Hd.
  rewrite bool_decide_false by done. ssl_step. intros rsa _. wp_step. apply wp_zoom, wp_modify. ssl_step. intros r _.
  destruct (Z.eqb_spec r 0) as [->|Hr].
  - os_step. intros ? w3 S3. ssl_step. intros ? _. wp_step. apply wp_zoom, wp_modify. apply wp_ret.
    eapply grown_quiet; [done|cbn; by rewrite delete_insert_id|cbn; by rewrite <- !app_assoc|done].
  - wp_step. apply wp_zoom. unfold store, load. wp_step. eapply wp_must; [cbn; by rewrite lookup_insert_eq|]. apply wp_modify. cbn.
    rewrite insert_insert_eq. os_step. intros ? w3 S3. wp_step.
    apply (wp_append ks key r s); [done|done|done|done|]. intros h K2. apply wp_ret.
    exists ([sev Rsa_new rsa] ++ [sev (Pem_read_rsa f rsa) r]). split; [cbn; by rewrite <- app_assoc|].
    unfold keys_read. cbn. rewrite (proj2 (Z.eqb_neq r 0)) by done. exact K2.
Qed.

(** A name of ADB_VENDOR_KEYS, and all of them. *)
Lemma wp_vendor_key ks path s :
  keys_are ks s -> wp (vendor_key AuthHost.key_list path) (fun _ => grown ks s) (fun e _ => e = Blocked) s.
Proof.
  intros K. unfold vendor_key. os_step. intros st w S. cbv beta. destruct st as [st|e]; [|by apply wp_ret, (grown_quiet _ _ _ []); rewrite ?app_nil_r].
  wp_step. eapply wp_mono; [by apply (wp_read_key ks)| |done]. intros ? s' G. apply wp_ret. exact G.
Qed.

Lemma wp_vendor_keys ks paths s :
  keys_are ks s -> wp (for_each paths (vendor_key AuthHost.key_list)) (fun _ => grown ks s) (fun e _ => e = Blocked) s.
Proof.
  revert ks s. induction paths as [|p paths IH]; intros ks s K; cbn [for_each]; [by apply wp_ret, keys_grown_refl|].
  wp_step. eapply wp_mono; [by apply wp_vendor_key| |done]. intros ? s1 G.
  apply (grown_trans _ _ _ (fun s1 => wp _ (fun _ => grown ks s) _ s1) G). intros ks' K' Hg.
  eapply wp_mono; [by apply IH| |done]. intros ? s2 G2. by apply Hg.
Qed.

(** A stop of start-up: it waits, ADB_VENDOR_KEYS is too long, or the user had no
    key and making one failed. *)
Definition init_stop (s : hkstate) (e : stop) (s' : hkstate) : Prop :=
  e ∈ [Blocked; Undef "keys_path is not terminated"] \/
  exists new path err, steps (hk_world s) new (hk_world s') /\ ev (Stat path) (Err err) ∈ new.

Section init.
Context {bn : Type} `{BigNum bn} (rsa_n rsa_e : list ssl_event -> Z -> bn).

Lemma moves_generate_key be file : moves (fun _ => True) reads_nothing (generate_key rsa_n rsa_e be file).
Proof.
  assert (W : forall A (m : H A), moves harmless reads_nothing m -> moves (fun _ => True) reads_nothing m).
  { intros A m Hm s. eapply wp_mono; [apply Hm| |]; intros ? s' [? ? (new & S & _) ?]; (split; [done|done| |done]);
      exists new; (split; [done|by apply Forall_true]). }
  unfold generate_key, BN_new. moves_tac; try (apply W; first [apply moves_public_keyfile|apply moves_generate_out]).
Qed.

Lemma reads_nothing_keys new : Forall reads_nothing new -> keys_read new = [].
Proof. induction 1 as [|[c a] new Hc _ IH]; [done|]. by destruct c. Qed.

Lemma moved_grown ks P s s' : keys_are ks s -> moved P reads_nothing s s' -> grown ks s s'.
Proof. intros K [Eh _ _ (new & E & F)]. apply (grown_quiet _ _ _ new K Eh E). by apply reads_nothing_keys. Qed.

Lemma wp_user_key be ks s :
  keys_are ks s -> wp (get_user_key rsa_n rsa_e be AuthHost.key_list) (fun _ => grown ks s) (init_stop s) s.
Proof.
  intros K. assert (HB : forall s', init_stop s Blocked s') by (intros s'; left; left). unfold get_user_key. wp_step.
  eapply wp_mono; [apply wp_keyfilepath| |intros e s' ->; apply HB]. intros [ret path] s1 (w1 & n1 & -> & S1). cbv beta iota.
  destruct (_ || _); [by apply wp_ret, (grown_quiet _ _ _ []); rewrite ?app_nil_r|]. os_step. intros st w2 S2. cbv beta. wp_step.
  assert (Hread : forall s2, grown ks s s2 -> wp (read_key path AuthHost.key_list) (fun _ => grown ks s) (init_stop s) s2).
  { intros s2 G. apply (grown_trans _ _ _ (fun s2 => wp _ (fun _ => grown ks s) _ s2) G). intros ks' K' Hg.
    eapply wp_mono; [by apply wp_read_key| |intros e s' ->; apply HB]. intros ? s3 G3. by apply Hg. }
  destruct st as [st|err].
  - apply wp_ret. cbn [negb]. apply Hread. by apply (grown_quiet _ _ _ []); rewrite ?app_nil_r.
  - wp_step. eapply wp_mono; [apply moves_generate_key| |].
    + intros g s2 M. apply wp_ret. assert (G : grown ks s s2) by exact (moved_grown ks _ (at_world w2 s) s2 K M).
      destruct (negb (negb _)); [by apply wp_ret|by apply Hread].
    + intros e s2 [_ _ (n3 & S3 & _) _]. right. eexists _, path, err. split.
      * eapply steps_trans; [exact S1|]. eapply steps_trans; [exact S2|exact S3].
      * set_solver.
Qed.

(** C35: after start-up the list holds exactly the keys that were read, in order:
    the user's, made if there was none, and those of ADB_VENDOR_KEYS; no node
    is leaked.  Start-up stops only when a call does not return, when
    ADB_VENDOR_KEYS fills its buffer, or when the user had no key and making
    one failed. *)
Theorem keys_loaded be s :
  dom (hk_heap s) = ({[AuthHost.key_list]} : gset N) ->
  wp (adb_auth_init rsa_n rsa_e be) (fun _ => grown [] s) (init_stop s) s.
Proof.
  intros Hd. unfold adb_auth_init. wp_step. apply wp_zoom, wp_list_init.
  { change (is_Some (hk_heap s !! AuthHost.key_list)). apply elem_of_dom. rewrite Hd. set_solver. }
  intros h Hl Ho. set (s1 := put h s). assert (K : keys_are [] s1).
  { exists []. split_and!; [done|set_solver|constructor|]. intros p Hp. destruct (decide (p = AuthHost.key_list)) as [->|]; [left|].
    cbn in Hp. rewrite Ho in Hp by done. change (is_Some (hk_heap s !! p)) in Hp. apply elem_of_dom in Hp. rewrite Hd in Hp. set_solver. }
  wp_step. eapply wp_mono; [by apply wp_user_key| |by intros e s']. intros ret s2 G. change (grown [] s s2) in G.
  destruct (ret =? 0); [by apply wp_ret|]. unfold get_vendor_keys, getenv. wp_step. wp_step.
  apply (wp_hk_call (Getenv (str "ADB_VENDOR_KEYS"))); [|left; left]. intros v w S. apply wp_ret.
  destruct v as [[p|]|e]; [|exact G|exact G]. cbv iota.
  destruct (_ >=? _); [left; right; left|].
  apply (grown_trans _ _ _ (fun s2 => wp _ (fun _ => grown [] s) _ (at_world w s2)) G). intros ks' K' Hg.
  eapply wp_mono; [by apply (wp_vendor_keys ks')| |intros e s' ->; left; left]. intros ? s3 G3. by apply Hg.
Qed.
End init.
(** ** Concrete runs *)

(** A stand-in for base64: two letters per byte. *)
Definition hex_encode (bs : bytes) : bytes := bs ≫= fun b => [65 + b / 16; 65 + b mod 16].

Fixpoint hex_decode (s : bytes) : bytes :=
  match s with
  | a :: b :: s' => (a - 65) * 16 + (b - 65) :: hex_decode s'
  | _ => []
  end.

Definition hex_pton (s : bytes) (size : Z) : option bytes :=
  if Z.of_nat (length (hex_decode s)) <=? size then Some (hex_decode s) else None.

Lemma hex_decodes bs size : Forall is_byte bs -> Z.of_nat (length bs) <= size -> hex_pton (hex_encode bs) size = Some bs.
Proof.
  intros Hb Hs. assert (E : hex_decode (hex_encode bs) = bs).
  { induction Hb as [|b bs Hb _ IH]; [done|]. cbn [hex_encode mbind list_bind app hex_decode]. f_equal.
    - pose proof (Z.div_mod b 16 ltac:(lia)). lia.
    - apply IH. cbn in Hs. lia. }
  unfold hex_pton. rewrite E. by rewrite (proj2 (Z.leb_le _ _)).
Qed.

(** The encoding of anything has letters only when the bytes are bytes; the
    stand-in encodes the bytes modulo 256. *)
Definition demo_base64 (bs : bytes) : bytes := hex_encode ((fun b => b mod 256) <$> bs).

Lemma demo_decodes bs size : Forall is_byte bs -> Z.of_nat (length bs) <= size -> hex_pton (demo_base64 bs) size = Some bs.
Proof.
  intros Hb. unfold demo_base64. replace ((fun b => b mod 256) <$> bs) with bs; [by apply hex_decodes|].
  symmetry. induction Hb as [|b bs Hb _ IH]; [done|]. cbn. rewrite Z.mod_small by exact Hb. by f_equal.
Qed.

Lemma demo_printable bs : Forall (fun c => c <> 0 /\ c <> 32 /\ c <> 9) (demo_base64 bs).
Proof.
  induction bs as [|b bs IH]; [by constructor|]. unfold demo_base64. cbn.
  pose proof (Z.mod_pos_bound b 256 ltac:(lia)). pose proof (Z.mod_pos_bound (b mod 256) 16 ltac:(lia)).
  pose proof (Z.div_pos (b mod 256) 16 ltac:(lia) ltac:(lia)). repeat (constructor; [lia|]). exact IH.
Qed.

(** An OpenSSL that has memory and whose filters are new. *)
Fixpoint last_file (h : list ssl_event) : Z :=
  match h with
  | [] => 0
  | existT (Bio_new_file _) f :: h' => Z.max f (last_file h')
  | _ :: h' => last_file h'
  end.

Lemma last_file_pos h : 0 <= last_file h.
Proof. induction h as [|[c a] h IH]; [done|]. destruct c; cbn; lia. Qed.

Definition demo_ssl : ssl := {|
  ssl_env := fun _ h c =>
    match c return ssl_ans c with
    | Rsa_sign rsa digest => Some (rsa :: digest)
    | Bio_new_base64 => 1 + last_file h
    | Bio_write _ bs => Z.of_nat (length bs)
    | Pem_read_rsa f _ => 100 + f
    | _ => 1
    end;
  ssl_hist := [] |}.

Definition demo_modulus : N := (2 ^ 2047 + 1)%N.

Definition demo_n (h : list ssl_event) (rsa : Z) : N := demo_modulus.

Definition demo_e (h : list ssl_event) (rsa : Z) : N := 65537%N.

(** A system whose user has a home and a key file, and one vendor key. *)
Definition demo_env : env := fun h c =>
  match c return ans c with
  | Getenv name => Ok (Some (if bytes_eqb name (str "HOME") then str "/home/u" else str "/vendor/key"))
  | Fopen path => Ok (if bytes_eqb path (str "/vendor/key") then 4 else 3)
  | c => ok_default c
  end.

Definition empty_list : gmap N adb_private_key := {[ AuthHost.key_list := {| key_next := NULL; key_prev := NULL; key_rsa := 0 |} ]}.

Definition demo_state (h : gmap N adb_private_key) : hkstate :=
  {| hk_fd := pair_state demo_env []; hk_heap := h; hk_key := ∅; hk_ssl := demo_ssl |}.

Lemma demo_modulus_ok : forall h : list ssl_event, 0 < Z.of_N (demo_n h 1) /\ Z.odd (Z.of_N (demo_n h 1)) = true.
Proof. intros h. by vm_compute. Qed.

Lemma demo_fresh h : fresh_filters (demo_state h).
Proof.
  intros o hist path f Hin. change (1 + last_file hist <> f). enough (f <= last_file hist) by lia.
  induction hist as [|[c a] hist IH]; [by apply elem_of_nil in Hin|]. apply elem_of_cons in Hin as [E|Hin].
  - pose proof (f_equal last_file (f_equal (fun e => [e]) E)) as Ef.
    pose proof (f_equal (@projT1 _ _) E) as Ec. cbn in Ec. subst c. pose proof (last_file_pos hist). cbn in Ef |- *. lia.
  - specialize (IH Hin). destruct c; cbn; lia.
Qed.

Lemma demo_memory h : ~ ssl_refuses (demo_state h).
Proof.
  intros (o & hist & [E|[E|E]]); [done|done|]. change (1 + last_file hist = 0) in E.
  pose proof (last_file_pos hist). lia.
Qed.

Lemma key_converted_witness :
  exists r s', RSA_to_RSAPublicKey demo_n demo_e 1 (demo_state ∅) = (Done r, s') /\
    match r with
    | Some k => size_ok (Z.of_N demo_modulus) /\ converted (Z.of_N demo_modulus) 65537 k
    | None => ~ size_ok (Z.of_N demo_modulus)
    end.
Proof. exact (key_converted Z.of_N 64 demo_n demo_e 1 (demo_state ∅) demo_modulus_ok (demo_memory ∅)). Defined.

(** Streams, encoders and a disk that do what is relied on. *)
Record bios := { b_streams : gmap Z (bytes * bytes); b_encoders : gmap Z encoder; b_disk : gmap bytes bytes }.

Definition bios_step (s : bios) (e : ssl_event) : bios :=
  let '(Build_bios streams encs disk) := s in
  match e with
  | existT (Bio_new_file path) f => Build_bios (<[f := (path, [])]> streams) encs disk
  | existT Bio_new_base64 b => Build_bios streams (<[b := Build_encoder 0 0 [] []]> encs) disk
  | existT (Bio_set_flags b flags) _ =>
      Build_bios streams
        (alter (fun e => Build_encoder (Z.lor (enc_flags e) flags) (enc_next e) (enc_base e) (enc_data e)) b encs) disk
  | existT (Bio_push b f) _ =>
      Build_bios streams (alter (fun e => Build_encoder (enc_flags e) f (default ([], []) (streams !! f)).2 []) b encs) disk
  | existT (Bio_write b bs) n =>
      let bs := take (Z.to_nat n) bs in
      Build_bios (alter (fun '(path, data) => (path, data ++ bs)) b streams)
        (alter (fun e => Build_encoder (enc_flags e) (enc_next e) (enc_base e) (enc_data e ++ bs)) b encs) disk
  | existT (Bio_flush b) _ =>
      Build_bios
        match encs !! b with
        | Some e => alter (fun '(path, _) => (path, enc_base e ++ demo_base64 (enc_data e))) (enc_next e) streams
        | None => streams
        end encs
        match streams !! b with Some (path, data) => <[path := data]> disk | None => disk end
  | _ => s
  end.

Definition bios_after (h : list ssl_event) : bios := foldl bios_step (Build_bios ∅ ∅ ∅) h.

Definition demo_stream (h : list ssl_event) (f : Z) : option (bytes * bytes) := b_streams (bios_after h) !! f.

Definition demo_enc (h : list ssl_event) (b : Z) : option encoder := b_encoders (bios_after h) !! b.

Definition demo_disk (h : list ssl_event) (path : bytes) : bytes := default [] (b_disk (bios_after h) !! path).

Lemma bios_after_snoc h e : bios_after (h ++ [e]) = bios_step (bios_after h) e.
Proof. unfold bios_after. by rewrite foldl_app. Qed.

#[global] Instance demo_bio : BioLaws demo_base64 demo_stream demo_enc demo_disk.
Proof.
  split; intros h; unfold demo_stream, demo_enc, demo_disk; cbv zeta; setoid_rewrite bios_after_snoc;
    destruct (bios_after h) as [streams encs disk]; cbn [bios_step sev b_streams b_encoders b_disk].
  - intros path f _. apply lookup_insert_eq.
  - intros b _. split; [apply lookup_insert_eq|done].
  - intros b flags a e E. by rewrite lookup_alter_eq, E.
  - intros b f a e path data E Es. by rewrite lookup_alter_eq, E, Es.
  - intros b bs e path data E Es. rewrite Nat2Z.id, take_ge, lookup_alter_eq, E by lia. split; [done|].
    destruct (decide (b = enc_next e)) as [->|Hb]; [rewrite lookup_alter_eq|rewrite lookup_alter_ne by done]; rewrite Es; by eexists.
  - intros f bs path data Es. by rewrite Nat2Z.id, take_ge, lookup_alter_eq, Es by lia.
  - intros b e path data E _ Es. by rewrite E, lookup_alter_eq, Es.
  - intros f path data Es. by rewrite Es, lookup_insert_eq.
  - intros c a b f Hc _. by destruct c.
  - done.
Qed.

Lemma public_key_understood_witness :
  wp (write_public_keyfile demo_n demo_e false 1 (str "/home/u/.android/adbkey"))
    (file_written Z.of_N demo_n hex_pton demo_disk 1 (str "/home/u/.android/adbkey") (demo_state ∅))
    (fun e _ => file_stop (demo_state ∅) e) (demo_state ∅).
Proof.
  exact (public_key_understood Z.of_N 64 demo_n demo_e demo_base64 hex_pton demo_decodes demo_printable
           demo_stream demo_enc demo_disk 1 (str "/home/u/.android/adbkey") (demo_state ∅) demo_modulus_ok (demo_fresh ∅)).
Defined.

(** The run above ends with the key written. *)
Lemma demo_key_written : (write_public_keyfile demo_n demo_e false 1 (str "/home/u/.android/adbkey") (demo_state ∅)).1 = Done 1.
Proof. vm_compute. reflexivity. Qed.

Lemma keys_loaded_witness :
  wp (adb_auth_init demo_n demo_e false) (fun _ => grown [] (demo_state empty_list)) (init_stop (demo_state empty_list)) (demo_state empty_list).
Proof. apply (keys_loaded demo_n demo_e false (demo_state empty_list)). apply dom_singleton_L. Defined.

(** It ends with the user's key and the vendor's. *)
Lemma demo_keys :
  exists new, let s' := (adb_auth_init demo_n demo_e false (demo_state empty_list)).2 in
    (adb_auth_init demo_n demo_e false (demo_state empty_list)).1 = Done tt /\
    ssl_hist (hk_ssl s') = new /\ keys_read new = [103; 104].
Proof. eexists. vm_compute. done. Qed.

(** Two keys in the list. *)
Definition two_keys : gmap N adb_private_key :=
  <[AuthHost.key_list := {| key_next := 2%N; key_prev := 3%N; key_rsa := 0 |}]>
  (<[2%N := {| key_next := 3%N; key_prev := AuthHost.key_list; key_rsa := 103 |}]>
  {[3%N := {| key_next := AuthHost.key_list; key_prev := 2%N; key_rsa := 104 |}]}).

Definition demo_load (path : bytes) : M world (option bytes) := mret (Some (str "key")).

Definition demo_token (c : Z) : pkt :=
  {| p_addr := 1; p_len := 0; p_ptr := None;
     p_body := {| msg := {| command := A_AUTH; arg0 := ADB_AUTH_TOKEN; arg1 := 0; data_length := 1; data_check := 0; magic := 0 |};
                  data := [c] |} |}.

Lemma demo_env_posix : posix demo_env.
Proof. intros h c. destruct c; try apply ok_default_answer; done. Qed.

Lemma two_keys_ready : ready 5%N [2%N; 3%N] (demo_state two_keys).
Proof.
  split; [exact demo_env_posix|done|by eexists| |by apply (bool_decide_eq_true _); vm_compute].
  split; [by apply (bool_decide_eq_true _); vm_compute|by vm_compute].
Qed.

Lemma demo_load_calls path w :
  wp (demo_load path) (fun _ w' => exists new, steps w new w') (fun e w' => e = Blocked /\ exists new, steps w new w') w.
Proof. apply wp_ret. exists []. apply steps_refl. Qed.

Definition demo_tokens : list pkt := [demo_token 1; demo_token 2; demo_token 3].

Lemma demo_are_tokens : Forall is_token demo_tokens.
Proof. by repeat constructor. Qed.

Lemma every_key_tried_witness :
  wp (for_each demo_tokens (fun p => handle_auth 8 demo_load p 5%N))
    (fun _ s' => exists sigs pk, length sigs = length [2%N; 3%N] /\ looked_up demo_load pk (demo_state two_keys) s' /\
       answered 5%N (demo_state two_keys) (<[5%N := NULL]> (hk_key (demo_state two_keys)))
         (sign_calls (hk_heap (demo_state two_keys)) [2%N; 3%N] demo_tokens sigs)
         ((sigs ≫= signature_packets) ++ (auth_packet ADB_AUTH_RSAPUBLICKEY <$> option_list pk)) s')
    auth_stop (demo_state two_keys).
Proof.
  exact (every_key_tried 8 demo_load demo_load_calls 5%N [2%N; 3%N] demo_tokens (demo_state two_keys)
           two_keys_ready eq_refl demo_are_tokens eq_refl).
Defined.

(** ** Faults *)

(** [getlogin_r] reports a failure by a positive number, which is not looked
    for: without a terminal the name of the user is indeterminate. *)
Definition no_login_env : env := fun h c =>
  match c return ans c with
  | Getlogin _ => Err 25
  | c => ok_default c
  end.

Lemma no_login_indeterminate :
  (get_user_info 4096 {| hk_fd := pair_state no_login_env []; hk_heap := ∅; hk_key := ∅; hk_ssl := demo_ssl |}).1
  = Stop (Undef "username is indeterminate").
Proof. vm_compute. reflexivity. Qed.

(** A value of ADB_VENDOR_KEYS that fills the buffer is read after its end. *)
Definition long_vendor_env : env := fun h c =>
  match c return ans c with
  | Getenv name => Ok (Some (replicate 4096 97))
  | c => ok_default c
  end.

Lemma vendor_keys_unterminated :
  (get_vendor_keys AuthHost.key_list {| hk_fd := pair_state long_vendor_env []; hk_heap := empty_list; hk_key := ∅; hk_ssl := demo_ssl |}).1
  = Stop (Undef "keys_path is not terminated").
Proof. vm_compute. reflexivity. Qed.
