(* ===== verification/Usb.v ===== *)
(** * The USB back end on Linux: usb_vendors.cpp, usb_linux.c (host) and
    usb_linux_client.c (device)

    The host looks through the descriptors of every USB device for the ADB
    interface and moves packets through the bulk endpoints it finds; the device
    describes that interface to the kernel and serves the endpoints.

    The machine is little-endian.  Locks are not modelled: a thread runs until
    it gives up a lock to wait, and what the other threads have done to a
    handle by the time it goes on is the parameter [others]. *)

From S2P Require Import Prelude Effects DList Os Sysdeps Wire Globals Fdevent Transport Sockets Registry Host AdbClient.

(** ** Vendors (usb_vendors.cpp, transport_usb.cpp) *)

Module Usb.
Import Client.

Definition builtInVendorIds : list Z :=
  [
   0x0502; 0x1f3a; 0x1b8e; 0x16d5; 0x0e79; 0x0b05; 0x1d91; 0x04b7; 0x1219; 0x413c;
   0x03fc; 0x297f; 0x2207; 0x0489; 0x04c5; 0x0f1c; 0x091e; 0x0414; 0x1e85; 0x18d1;
   0x201e; 0x19a5; 0x109b; 0x03f0; 0x0bb4; 0x12d1; 0x2314; 0x8087; 0x067e; 0x2420;
   0x2237; 0x24e3; 0x2116; 0x0482; 0x1949; 0x17ef; 0x2006; 0x1004; 0x25e3; 0x22b8;
   0x0db0; 0x0e8d; 0x0409; 0x2080; 0x0955; 0x22d9; 0x2257; 0x2836; 0x10a9; 0x1d4d;
   0x0471; 0x04da; 0x1662; 0x29e4; 0x1d45; 0x05c6; 0x0408; 0x2207; 0x04e8; 0x04dd;
   0x1f53; 0x054c; 0x0fce; 0x1bbb; 0x1d09; 0x2340; 0x0451; 0x0930; 0xe040; 0x0531;
   0x2717; 0x2916; 0x1ebf; 0x19d2].

Definition VENDOR_COUNT_MAX : nat := 128.

Definition INT_MAX : Z := 2 ^ 31 - 1.

Definition EINVAL : Z := 22.

(** [snprintf(buff, len, "%s/%s/%s", home, ANDROID_PATH, ANDROID_ADB_INI)],
    nothing when it does not fit *)
Definition build_path (len : Z) (home : bytes) : option bytes :=
  let path := home ++ str "/.android/adb_usb.ini" in
  if Z.of_nat (length path) >=? len then None else Some path.

Definition get_adb_usb_ini (len : Z) : M world (option bytes) :=
  r ← syscall (Getenv (str "HOME"));
  mret (build_path len (match r with Ok (Some home) => home | _ => str "/tmp" end)).

Section vendors.
(** [strtol(s, NULL, 0)]: the value, and ERANGE or EINVAL when it sets [errno]. *)
Context (strtol : bytes -> Z * option Z).

(** The lines of the file; [vendorIds] is the part of the array in use. *)
Definition read_vendors (f : Z) (ids : list Z) : M world (list Z) :=
  loop (fun ids =>
    l ← syscall (Fgets f PATH_MAX);
    match l with
    | Ok (Some temp) =>
        if nth 0 temp 0 =? 35 then mret (inl ids) else
        let '(value, e) := strtol (cstr temp) in
        (match e with Some e => set_errno e | None => skip end);;
        err ← get_errno;
        if (err =? EINVAL) || (err =? ERANGE) || (value >? INT_MAX) || (value <? 0)
        then abort "Invalid content in adb_usb.ini. Quitting." else
        if (VENDOR_COUNT_MAX <=? length ids)%nat then undef "write after vendorIds" else
        let ids := ids ++ [value] in
        mret (if (length ids =? VENDOR_COUNT_MAX)%nat then inr ids else inl ids)
    | _ => mret (inr ids)
    end) ids.

(** The vendors known afterwards. *)
Definition usb_vendors_init : M world (list Z) :=
  if (VENDOR_COUNT_MAX <? length builtInVendorIds)%nat then abort "VENDOR_COUNT_MAX not big enough for built-in vendor list." else
  if (VENDOR_COUNT_MAX =? length builtInVendorIds)%nat then mret builtInVendorIds else
  temp ← get_adb_usb_ini PATH_MAX;
  match temp with
  | None => mret builtInVendorIds
  | Some path =>
      f ← syscall (Fopen path);
      match f with
      | Err _ => mret builtInVendorIds
      | Ok f => ids ← read_vendors f builtInVendorIds; syscall (Fclose f);; mret ids
      end
  end.
End vendors.

Definition ADB_CLASS : Z := 0xff.
Definition ADB_SUBCLASS : Z := 0x42.
Definition ADB_PROTOCOL : Z := 0x1.

Fixpoint is_adb_interface (vendorIds : list Z) (vid usb_class usb_subclass usb_protocol : Z) : bool :=
  match vendorIds with
  | [] => false
  | id :: ids =>
      if vid =? id then (usb_class =? ADB_CLASS) && (usb_subclass =? ADB_SUBCLASS) && (usb_protocol =? ADB_PROTOCOL)
      else is_adb_interface ids vid usb_class usb_subclass usb_protocol
  end.

(** ** Descriptors (usb_linux.c) *)

(** linux/usb/ch9.h *)
Definition USB_DT_DEVICE : Z := 1.
Definition USB_DT_CONFIG : Z := 2.
Definition USB_DT_STRING : Z := 3.
Definition USB_DT_INTERFACE : Z := 4.
Definition USB_DT_ENDPOINT : Z := 5.
Definition USB_DT_DEVICE_SIZE : nat := 18.
Definition USB_DT_CONFIG_SIZE : nat := 9.
Definition USB_DT_INTERFACE_SIZE : nat := 9.
Definition USB_DT_ENDPOINT_SIZE : nat := 7.
Definition USB_ENDPOINT_XFER_BULK : Z := 2.
Definition USB_DIR_IN : Z := 0x80.
Definition USB_DIR_OUT : Z := 0.

(** What [register_device_callback] is called with. *)
Record found := {
  f_ep_in : Z;
  f_ep_out : Z;
  f_ifc : Z;
  f_zero_mask : Z;
}.

(** How the search through the descriptors of a device ends: with or without a
    match, at a byte that was not read, or never. *)
Inductive scanned :=
| Found (f : found)
| NotFound
| Indeterminate
| Forever.

(** The field of one or two bytes at an offset of a descriptor. *)
Definition u8_at (d : bytes) (i : nat) : Z := nth i d 0.

Definition u16_at (d : bytes) (i : nat) : Z := nth i d 0 + 256 * nth (S i) d 0.

(** The match: which endpoint is in and which is out. *)
Definition match_endpoints (interface ep1 ep2 : bytes) (zero_mask : Z) : found :=
  let zero_mask := if u8_at interface 7 =? 1 then u32 (u16_at ep1 4 - 1) else zero_mask in
  if has (u8_at ep1 2) USB_DIR_IN
  then {| f_ep_in := u8_at ep1 2; f_ep_out := u8_at ep2 2; f_ifc := u8_at interface 2; f_zero_mask := zero_mask |}
  else {| f_ep_in := u8_at ep2 2; f_ep_out := u8_at ep1 2; f_ifc := u8_at interface 2; f_zero_mask := zero_mask |}.

Definition not_endpoint (ep : bytes) : bool :=
  negb (u8_at ep 0 =? Z.of_nat USB_DT_ENDPOINT_SIZE) || negb (u8_at ep 1 =? USB_DT_ENDPOINT).

(** [while (bufptr < bufend)] with [bufptr] at the offset [p] of what was read;
    a descriptor of length 0 is looked at again and again. *)
Fixpoint scan_descriptors (fuel : nat) (vendorIds : list Z) (vid : Z) (mem : bytes) (p : nat) (zero_mask : Z) : scanned :=
  match fuel with
  | O => Forever
  | S fuel' =>
      if (length mem <=? p)%nat then NotFound else
      match mem !! p, mem !! S p with
      | Some len, Some type =>
          let q := (p + Z.to_nat len)%nat in
          if type =? USB_DT_INTERFACE then
            if negb (len =? Z.of_nat USB_DT_INTERFACE_SIZE) then NotFound else
            if (length mem <? q)%nat then Indeterminate else
            let interface := take USB_DT_INTERFACE_SIZE (drop p mem) in
            if (u8_at interface 4 =? 2) &&
               is_adb_interface vendorIds vid (u8_at interface 5) (u8_at interface 6) (u8_at interface 7) then
              let ep1 := take USB_DT_ENDPOINT_SIZE (drop q mem) in
              let ep2 := take USB_DT_ENDPOINT_SIZE (drop (q + USB_DT_ENDPOINT_SIZE) mem) in
              let q := (q + USB_DT_ENDPOINT_SIZE + USB_DT_ENDPOINT_SIZE)%nat in
              if (length mem <? q)%nat || not_endpoint ep1 || not_endpoint ep2 then NotFound else
              if negb (u8_at ep1 3 =? USB_ENDPOINT_XFER_BULK) || negb (u8_at ep2 3 =? USB_ENDPOINT_XFER_BULK)
              then scan_descriptors fuel' vendorIds vid mem q zero_mask
              else Found (match_endpoints interface ep1 ep2 zero_mask)
            else scan_descriptors fuel' vendorIds vid mem q zero_mask
          else scan_descriptors fuel' vendorIds vid mem q zero_mask
      | _, _ => Indeterminate
      end
  end.

(** The checks before the loop.  A turn of the loop that goes on moves [bufptr],
    or is repeated for ever: more turns than bytes mean the latter. *)
Definition scan_device (vendorIds : list Z) (mem : bytes) : scanned :=
  if (length mem <? USB_DT_DEVICE_SIZE + USB_DT_CONFIG_SIZE)%nat then NotFound else
  let device := take USB_DT_DEVICE_SIZE mem in
  if negb (u8_at device 0 =? Z.of_nat USB_DT_DEVICE_SIZE) || negb (u8_at device 1 =? USB_DT_DEVICE) then NotFound else
  let config := take USB_DT_CONFIG_SIZE (drop USB_DT_DEVICE_SIZE mem) in
  if negb (u8_at config 0 =? Z.of_nat USB_DT_CONFIG_SIZE) || negb (u8_at config 1 =? USB_DT_CONFIG) then NotFound else
  scan_descriptors (S (length mem)) vendorIds (u16_at device 8) mem (USB_DT_DEVICE_SIZE + USB_DT_CONFIG_SIZE) 0.

(** ** Handles of the host (usb_linux.c) *)

Record usb_handle := {
  uh_prev : ptr;
  uh_next : ptr;
  fname : bytes;
  desc : Z;
  ep_in : Z;
  ep_out : Z;
  zero_mask : Z;
  writeable : bool;
  urb_out_status : Z;
  urb_out_actual : Z;
  urb_in_busy : bool;
  urb_out_busy : bool;
  dead : bool;
  mark : bool;
  reaper_thread : bool;
}.

#[global] Program Instance Linked_usb_handle : Linked usb_handle := {|
  next := uh_next;
  prev := uh_prev;
  set_next p h := {| uh_prev := uh_prev h; uh_next := p; fname := fname h; desc := desc h; ep_in := ep_in h;
    ep_out := ep_out h; zero_mask := zero_mask h; writeable := writeable h; urb_out_status := urb_out_status h;
    urb_out_actual := urb_out_actual h; urb_in_busy := urb_in_busy h; urb_out_busy := urb_out_busy h;
    dead := dead h; mark := mark h; reaper_thread := reaper_thread h |};
  set_prev p h := {| uh_prev := p; uh_next := uh_next h; fname := fname h; desc := desc h; ep_in := ep_in h;
    ep_out := ep_out h; zero_mask := zero_mask h; writeable := writeable h; urb_out_status := urb_out_status h;
    urb_out_actual := urb_out_actual h; urb_in_busy := urb_in_busy h; urb_out_busy := urb_out_busy h;
    dead := dead h; mark := mark h; reaper_thread := reaper_thread h |};
|}.
Solve All Obligations with done.

Definition set_mark (b : bool) (h : usb_handle) : usb_handle :=
  {| uh_prev := uh_prev h; uh_next := uh_next h; fname := fname h; desc := desc h; ep_in := ep_in h;
     ep_out := ep_out h; zero_mask := zero_mask h; writeable := writeable h; urb_out_status := urb_out_status h;
     urb_out_actual := urb_out_actual h; urb_in_busy := urb_in_busy h; urb_out_busy := urb_out_busy h;
     dead := dead h; mark := b; reaper_thread := reaper_thread h |}.

Definition set_out (busy : bool) (status actual : Z) (h : usb_handle) : usb_handle :=
  {| uh_prev := uh_prev h; uh_next := uh_next h; fname := fname h; desc := desc h; ep_in := ep_in h;
     ep_out := ep_out h; zero_mask := zero_mask h; writeable := writeable h; urb_out_status := status;
     urb_out_actual := actual; urb_in_busy := urb_in_busy h; urb_out_busy := busy;
     dead := dead h; mark := mark h; reaper_thread := reaper_thread h |}.

Definition set_in (busy reaper : bool) (h : usb_handle) : usb_handle :=
  {| uh_prev := uh_prev h; uh_next := uh_next h; fname := fname h; desc := desc h; ep_in := ep_in h;
     ep_out := ep_out h; zero_mask := zero_mask h; writeable := writeable h; urb_out_status := urb_out_status h;
     urb_out_actual := urb_out_actual h; urb_in_busy := busy; urb_out_busy := urb_out_busy h;
     dead := dead h; mark := mark h; reaper_thread := reaper |}.

Definition set_dead (h : usb_handle) : usb_handle :=
  {| uh_prev := uh_prev h; uh_next := uh_next h; fname := fname h; desc := desc h; ep_in := ep_in h;
     ep_out := ep_out h; zero_mask := zero_mask h; writeable := writeable h; urb_out_status := urb_out_status h;
     urb_out_actual := urb_out_actual h; urb_in_busy := urb_in_busy h; urb_out_busy := urb_out_busy h;
     dead := true; mark := mark h; reaper_thread := reaper_thread h |}.

(** The address of the variable [handle_list]. *)
Definition handle_list : ptr := 1%N.

Record usbstate := {
  us_fd : fdstate;
  handles : gmap N usb_handle;
}.

Abbreviation U := (M usbstate).

#[global] Program Instance Lens_us_fd : Lens usbstate fdstate := {|
  view := us_fd;
  put f s := {| us_fd := f; handles := handles s |};
|}.
Next Obligation. done. Qed.
Next Obligation. by intros []. Qed.
Next Obligation. done. Qed.

#[global] Program Instance Lens_handles : Lens usbstate (gmap N usb_handle) := {|
  view := handles;
  put h s := {| us_fd := us_fd s; handles := h |};
|}.
Next Obligation. done. Qed.
Next Obligation. by intros []. Qed.
Next Obligation. done. Qed.

#[global] Instance Budget_usbstate : Budget usbstate := fun s => w_budget (fd_world (us_fd s)).

Definition in_fd {A} (m : F A) : U A := zoom m.

Definition in_os {A} (m : M world A) : U A := in_fd (os m).

Definition handle (h : ptr) : U usb_handle := zoom (load h).

Definition set_handle (h : ptr) (f : usb_handle -> usb_handle) : U unit := zoom (store h f).

Definition badname (name : bytes) : bool := existsb (fun c => negb (is_digit c)) name.

(** Marks the device when it is known. *)
Definition known_device (dev_name : bytes) : U bool :=
  r ← list_scan (T := usb_handle) handle_list (fun usb =>
    h ← handle usb;
    if bytes_eqb (fname h) dev_name then set_handle usb (set_mark true);; mret (Some tt) else mret None);
  mret (bool_decide (is_Some r)).

Section usb.
Context (sizeof_ptr : Z) (vendorIds : list Z).
(** What the other threads do to a handle while this one waits. *)
Context (others : list event -> usb_handle -> usb_handle).

(** The lock is given up for a call, and taken again. *)
Definition unlocked (c : call) (h : ptr) : U (ans c) :=
  r ← in_os (syscall c);
  hist ← gets (fun s => w_hist (fd_world (us_fd s)));
  set_handle h (others hist);;
  mret r.

Definition ENODEV : Z := 19.
Definition ETIMEDOUT : Z := 110.

Definition usb_kick (h : ptr) : U unit :=
  k ← handle h;
  if dead k then skip else
  set_handle h set_dead;;
  if writeable k then
    in_os (syscall (Discard_urb (desc k) (ep_in k)));;
    in_os (syscall (Discard_urb (desc k) (ep_out k)));;
    set_handle h (fun k => set_out false (- ENODEV) (urb_out_actual k) (set_in false (reaper_thread k) k))
  else in_fd (unregister_usb_transport h).

Definition kick_disconnected_devices : U unit :=
  _ ← list_scan (T := usb_handle) (R := unit) handle_list (fun usb =>
    h ← handle usb;
    (if mark h then set_handle usb (set_mark false) else usb_kick usb);;
    mret None);
  skip.

Definition usb_close (h : ptr) : U Z :=
  zoom (unlink (T := usb_handle) h);;
  zoom (store_prev (T := usb_handle) h NULL);;
  zoom (store_next (T := usb_handle) h NULL);;
  k ← handle h;
  in_os (adb_close (desc k));;
  zoom (modify (fun hs : gmap N usb_handle => base.delete h hs));;
  mret 0.

(** *** Bulk transfers *)

(** [pthread_cond_timedwait] returns 0 or a positive number; the request itself
    is completed by the thread that reads. *)
Definition usb_bulk_write (h : ptr) (data : bytes) : U Z :=
  set_handle h (fun k => set_out (urb_out_busy k) (-1) 0 k);;
  k ← handle h;
  if dead k then mret (-1) else
  r ← in_os (temp_failure_retry (Submit_urb (desc k) (ep_out k) (Z.of_nat (length data)) data));
  match r with
  | Err _ => mret (-1)
  | Ok _ =>
      set_handle h (fun k => set_out true (urb_out_status k) (urb_out_actual k) k);;
      loop (fun _ : unit =>
        w ← unlocked Cond_timedwait h;
        let res := match w with Ok _ => 0 | Err e => e end in
        k ← handle h;
        if (res <? 0) || dead k then mret (inr res) else
        if urb_out_busy k then mret (inl tt) else
        mret (inr (if urb_out_status k =? 0 then urb_out_actual k else res))) tt
  end.

(** The result and the bytes stored at [data].  A completed request is told apart
    by its address: [true] for the one that writes. *)
Definition usb_bulk_read (h : ptr) (len : Z) : U (Z * bytes) :=
  k ← handle h;
  if dead k then mret (-1, []) else
  r ← in_os (temp_failure_retry (Submit_urb (desc k) (ep_in k) len []));
  match r with
  | Err _ => mret (-1, [])
  | Ok _ =>
      set_handle h (fun k => set_in true (reaper_thread k) k);;
      loop (fun _ : unit =>
        set_handle h (fun k => set_in (urb_in_busy k) true k);;
        k ← handle h;
        out ← unlocked (Reap_urb (desc k)) h;
        set_handle h (fun k => set_in (urb_in_busy k) false k);;
        k ← handle h;
        if dead k then mret (inr (-1, [])) else
        match out with
        | Err e => mret (if e =? EINTR then inl tt else inr (-1, []))
        | Ok (false, (status, bs)) =>
            set_handle h (fun k => set_in false (reaper_thread k) k);;
            mret (inr (if status =? 0 then Z.of_nat (length bs) else -1, bs))
        | Ok (true, (status, bs)) =>
            set_handle h (set_out false status (Z.of_nat (length bs)));;
            mret (inl tt)
        end) tt
  end.

Definition usb_write (h : ptr) (data : bytes) : U Z :=
  k ← handle h;
  let len := Z.of_nat (length data) in
  let need_zero := negb (zero_mask k =? 0) && (Z.land len (zero_mask k) =? 0) in
  r ← loop (fun rest : bytes =>
        if (length rest =? 0)%nat then mret (inr true) else
        let xfer := take 4096 rest in
        n ← usb_bulk_write h xfer;
        if negb (n =? Z.of_nat (length xfer)) then mret (inr false) else
        mret (inl (drop 4096 rest))) data;
  if negb r then mret (-1) else
  if need_zero then usb_bulk_write h [] else mret 0.

(** [Some] of the bytes stored for a result of 0, [None] for -1. *)
Definition usb_read (h : ptr) (len : Z) : U (option bytes) :=
  loop (fun '(len, acc) =>
    if len <=? 0 then mret (inr (Some acc)) else
    let xfer := Z.min len 4096 in
    '(n, bs) ← usb_bulk_read h xfer;
    if negb (n =? xfer) then
      e ← in_os get_errno;
      k ← handle h;
      if (e =? ETIMEDOUT) && negb (desc k =? -1) then
        mret (inl (if n >? 0 then (len - n, acc ++ take (Z.to_nat n) bs) else (len, acc)))
      else mret (inr None)
    else mret (inl (len - xfer, acc ++ bs))) (len, []).

(** *** Finding devices *)

Definition O_RDWR : Z := 2.

(** The words after the first, as characters. *)
Fixpoint words_text (bs : bytes) : bytes :=
  match bs with
  | lo :: _ :: bs' => lo :: words_text bs'
  | _ => []
  end.

(** The serial number in the first language that has one; the buffer has 128
    words. *)
Fixpoint read_serial (fd serial_index : Z) (languages : bytes) (idx : list nat) : U bytes :=
  match idx with
  | [] => mret []
  | i :: idx' =>
      r ← in_os (syscall (Usb_control fd (0x300 + serial_index) (u16_at languages (2 * i)) 256));
      match r with
      | Ok (b :: bs) => mret (cstr (words_text (drop 2 (take 256 (b :: bs)))))
      | _ => read_serial fd serial_index languages idx'
      end
  end.

Definition get_serial (fd serial_index : Z) : U bytes :=
  if serial_index =? 0 then mret [] else
  r ← in_os (syscall (Usb_control fd 0x300 0 256));
  let languages := match r with Ok bs => take 256 bs | Err _ => [] end in
  read_serial fd serial_index languages (seq 1 ((length languages - 2) / 2)).

Definition new_handle (dev_name : bytes) (f : found) : usb_handle :=
  {| uh_prev := NULL; uh_next := NULL; fname := dev_name; desc := 0; ep_in := f_ep_in f; ep_out := f_ep_out f;
     zero_mask := f_zero_mask f; writeable := true; urb_out_status := 0; urb_out_actual := 0; urb_in_busy := false;
     urb_out_busy := false; dead := false; mark := true; reaper_thread := false |}.

Definition set_desc (d : Z) (w : bool) (h : usb_handle) : usb_handle :=
  {| uh_prev := uh_prev h; uh_next := uh_next h; fname := fname h; desc := d; ep_in := ep_in h;
     ep_out := ep_out h; zero_mask := zero_mask h; writeable := w; urb_out_status := urb_out_status h;
     urb_out_actual := urb_out_actual h; urb_in_busy := urb_in_busy h; urb_out_busy := urb_out_busy h;
     dead := dead h; mark := mark h; reaper_thread := reaper_thread h |}.

(** The label [fail]. *)
Definition register_fail (usb : ptr) (desc : Z) : U unit :=
  (if desc >=? 0 then in_os (adb_close desc);; skip else skip);;
  zoom (modify (fun hs : gmap N usb_handle => base.delete usb hs)).

(** From the serial number on. *)
Definition register_handle (usb : ptr) (devpath : option bytes) (serial_index : Z) : U unit :=
  h ← handle usb;
  serial ← get_serial (desc h) serial_index;
  zoom (link_before (T := usb_handle) usb handle_list);;
  in_fd (register_usb_transport sizeof_ptr usb (Some serial) devpath (writeable h)).

Definition register_device (dev_name : bytes) (devpath : option bytes) (f : found) (serial_index : Z) : U unit :=
  known ← list_scan (T := usb_handle) handle_list (fun usb =>
    h ← handle usb; mret (if bytes_eqb (fname h) dev_name then Some tt else None));
  if bool_decide (is_Some known) then skip else
  m ← in_os (syscall (Malloc 256));
  match m with
  | Err _ => undef "write to NULL"
  | Ok _ =>
      usb ← gets (fun s => fresh ({[NULL]} ∪ dom (handles s)));
      zoom (modify (<[usb := new_handle dev_name f]>));;
      r ← in_os (unix_open dev_name O_RDWR 0);
      if rc_int r <? 0 then
        r ← in_os (unix_open dev_name O_RDONLY 0);
        if rc_int r <? 0 then register_fail usb (rc_int r) else
        set_handle usb (set_desc (rc_int r) false);;
        register_handle usb devpath serial_index
      else
        set_handle usb (set_desc (rc_int r) true);;
        n ← in_os (syscall (Claim_interface (rc_int r) (f_ifc f)));
        match n with
        | Err _ => register_fail usb (rc_int r)
        | Ok _ => register_handle usb devpath serial_index
        end
  end.

(** The path of the device in sysfs. *)
Definition device_path (fd : Z) : U (option bytes) :=
  st ← in_os (syscall (Fstat fd));
  match st with
  | Ok (mode, (major, minor)) =>
      if negb (Z.land mode 0xf000 =? 0x2000) then mret None else
      l ← in_os (syscall (Readlink (snprintf 128 (str "/sys/dev/char/" ++ fmt_d major ++ str ":" ++ fmt_d minor)) 255));
      match l with
      | Ok (c :: link) =>
          match strrchr 47 (cstr (c :: link)) with
          | Some slash => mret (Some (snprintf 128 (str "usb:" ++ drop (S slash) (cstr (c :: link)))))
          | None => mret None
          end
      | _ => mret None
      end
  | Err _ => mret None
  end.

(** One file of a bus; the length that [read] returns is stored unsigned, so a
    failure passes the test of the length. *)
Definition look_at (devname : bytes) : U unit :=
  known ← known_device devname;
  if (known : bool) then skip else
  r ← in_os (unix_open devname O_RDONLY 0);
  let fd := rc_int r in
  if fd <? 0 then skip else
  d ← in_os (adb_read fd 4096);
  match d with
  | Err _ => undef "descriptors were not read"
  | Ok mem =>
      (match scan_device vendorIds mem with
       | Found f => devpath ← device_path fd; register_device devname devpath f (u8_at mem 16)
       | NotFound => skip
       | Indeterminate => undef "descriptor after the bytes read"
       | Forever => stop_with Diverge
       end);;
      in_os (adb_close fd);; skip
  end.

(** [while((de = readdir(dir)) != 0)] over the names that are numbers. *)
Definition each_number (dir : Z) (body : bytes -> U unit) : U unit :=
  loop (fun _ : unit =>
    de ← in_os (syscall (Readdir dir));
    match de with
    | Ok (Some name) => (if badname name then skip else body name);; mret (inl tt)
    | _ => mret (inr tt)
    end) tt.

Definition find_usb_device (base : bytes) : U unit :=
  busdir ← in_os (syscall (Opendir base));
  match busdir with
  | Err _ => skip
  | Ok busdir =>
      each_number busdir (fun bus =>
        let busname := snprintf 32 (base ++ str "/" ++ bus) in
        devdir ← in_os (syscall (Opendir busname));
        match devdir with
        | Err _ => skip
        | Ok devdir =>
            each_number devdir (fun dev => look_at (snprintf 32 (busname ++ str "/" ++ dev)));;
            in_os (syscall (Closedir devdir));; skip
        end);;
      in_os (syscall (Closedir busdir));; skip
  end.

Definition device_poll_thread : U unit :=
  loop (fun _ : unit =>
    find_usb_device (str "/dev/bus/usb");;
    kick_disconnected_devices;;
    in_os (syscall (Usleep 1000000));;
    mret (inl tt)) tt.

Definition usb_init : U unit :=
  r ← in_os (syscall (Thread_create "device_poll_thread"));
  match r with
  | Ok _ => skip
  | Err _ => abort "cannot create input thread"
  end.
End usb.
End Usb.
