(* ===== verification/UsbClient.v ===== *)
(** * usb_linux_client.c: the device's end of USB

    The daemon serves one USB function, either through FunctionFS (three
    endpoint files, after the descriptors of the function were written to the
    first) or through the older driver (one file).  A thread opens the files,
    registers the transport and waits until the transport is kicked.

    As in [Usb] locks are not modelled, and [others] is what the other threads
    have done to the handle when the thread goes on. *)

From S2P Require Import Prelude Effects DList Os Sysdeps Wire Globals Fdevent Transport Sockets Registry Usb.

Module UsbClient.
Import Usb.

(** ** Descriptors *)

Definition MAX_PACKET_SIZE_FS : Z := 64.
Definition MAX_PACKET_SIZE_HS : Z := 512.
Definition FUNCTIONFS_DESCRIPTORS_MAGIC : Z := 1.
Definition FUNCTIONFS_STRINGS_MAGIC : Z := 2.

(** [struct usb_interface_descriptor] *)
Definition intf : bytes :=
  [Z.of_nat USB_DT_INTERFACE_SIZE; USB_DT_INTERFACE; 0; 0; 2; ADB_CLASS; ADB_SUBCLASS; ADB_PROTOCOL; 1].

(** [struct usb_endpoint_descriptor_no_audio] *)
Definition endpoint (address packet_size : Z) : bytes :=
  [Z.of_nat USB_DT_ENDPOINT_SIZE; USB_DT_ENDPOINT; address; USB_ENDPOINT_XFER_BULK] ++ le_bytes 2 packet_size ++ [0].

Definition source (packet_size : Z) : bytes := endpoint (Z.lor 1 USB_DIR_OUT) packet_size.

Definition sink (packet_size : Z) : bytes := endpoint (Z.lor 2 USB_DIR_IN) packet_size.

Definition descs (packet_size : Z) : bytes := intf ++ source packet_size ++ sink packet_size.

Definition descriptors : bytes :=
  le32 FUNCTIONFS_DESCRIPTORS_MAGIC ++ le32 62 ++ le32 3 ++ le32 3 ++
  descs MAX_PACKET_SIZE_FS ++ descs MAX_PACKET_SIZE_HS.

Definition strings : bytes :=
  le32 FUNCTIONFS_STRINGS_MAGIC ++ le32 32 ++ le32 1 ++ le32 1 ++ le_bytes 2 0x0409 ++ str "ADB Interface" ++ [0].

Definition USB_FFS_ADB_EP0 : bytes := str "/dev/usb-ffs/adb/ep0".
Definition USB_FFS_ADB_OUT : bytes := str "/dev/usb-ffs/adb/ep1".
Definition USB_FFS_ADB_IN : bytes := str "/dev/usb-ffs/adb/ep2".

(** ** The handle *)

(** Which functions [write], [read] and [kick] point to. *)
Inductive usb_methods := usb_adb_fns | usb_ffs_fns.

Record usb_handle := {
  fns : usb_methods;
  fd : Z;
  control : Z;
  bulk_out : Z;
  bulk_in : Z;
}.

Definition set_fd (x : Z) (h : usb_handle) : usb_handle :=
  {| fns := fns h; fd := x; control := control h; bulk_out := bulk_out h; bulk_in := bulk_in h |}.

Definition set_control (x : Z) (h : usb_handle) : usb_handle :=
  {| fns := fns h; fd := fd h; control := x; bulk_out := bulk_out h; bulk_in := bulk_in h |}.

Definition set_bulk_out (x : Z) (h : usb_handle) : usb_handle :=
  {| fns := fns h; fd := fd h; control := control h; bulk_out := x; bulk_in := bulk_in h |}.

Definition set_bulk_in (x : Z) (h : usb_handle) : usb_handle :=
  {| fns := fns h; fd := fd h; control := control h; bulk_out := bulk_out h; bulk_in := x |}.

(** The address of the one handle. *)
Definition the_handle : ptr := 1%N.

Record ucstate := {
  uc_fd : fdstate;
  uc_handle : usb_handle;
}.

Abbreviation D := (M ucstate).

#[global] Program Instance Lens_uc_fd : Lens ucstate fdstate := {|
  view := uc_fd;
  put f s := {| uc_fd := f; uc_handle := uc_handle s |};
|}.
Next Obligation. done. Qed.
Next Obligation. by intros []. Qed.
Next Obligation. done. Qed.

#[global] Instance Budget_ucstate : Budget ucstate := fun s => w_budget (fd_world (uc_fd s)).

Definition in_fd {A} (m : F A) : D A := zoom m.

Definition in_os {A} (m : M world A) : D A := in_fd (os m).

Definition h {A} (f : usb_handle -> A) : D A := gets (fun s => f (uc_handle s)).

Definition set_h (f : usb_handle -> usb_handle) : D unit :=
  modify (fun s => {| uc_fd := uc_fd s; uc_handle := f (uc_handle s) |}).

Section client.
Context (sizeof_ptr : Z) (others : list event -> usb_handle -> usb_handle).

(** [adb_cond_wait] *)
Definition cond_wait : D unit :=
  in_os (syscall Cond_wait);;
  hist ← gets (fun s => w_hist (fd_world (uc_fd s)));
  set_h (others hist).

Definition register : D unit := in_fd (register_usb_transport sizeof_ptr the_handle None None true).

(** ** The older driver *)

Definition open_adb : D Z :=
  loop (fun _ : unit =>
    r ← in_os (unix_open (str "/dev/android_adb") O_RDWR 0);
    fd ← (if rc_int r <? 0 then r' ← in_os (unix_open (str "/dev/android") O_RDWR 0); mret (rc_int r') else mret (rc_int r));
    if fd <? 0 then in_os (adb_sleep_ms 1000);; mret (inl tt) else mret (inr fd)) tt.

Definition usb_adb_open_thread : D unit :=
  loop (fun _ : unit =>
    loop (fun _ : unit =>
      x ← h fd;
      if x =? -1 then mret (inr tt) else cond_wait;; mret (inl tt)) tt;;
    x ← open_adb;
    in_os (close_on_exec x);;
    set_h (set_fd x);;
    register;;
    mret (inl tt)) tt.

Definition usb_adb_write (data : bytes) : D Z :=
  x ← h fd;
  r ← in_os (adb_write x data);
  mret (if rc_int r =? Z.of_nat (length data) then 0 else -1).

Definition usb_adb_read (len : Z) : D (option bytes) :=
  x ← h fd;
  r ← in_os (adb_read x len);
  mret (match r with
        | Ok bs => if Z.of_nat (length bs) =? len then Some bs else None
        | Err _ => None
        end).

Definition usb_adb_kick : D unit :=
  x ← h fd;
  in_os (adb_close x);;
  set_h (set_fd (-1)).

Definition start_thread (name : string) : D unit :=
  r ← in_os (syscall (Thread_create name));
  match r with
  | Ok _ => skip
  | Err _ => abort "cannot create usb thread"
  end.

Definition usb_adb_init : D unit :=
  set_h (fun _ => {| fns := usb_adb_fns; fd := -1; control := 0; bulk_out := 0; bulk_in := 0 |});;
  r ← in_os (unix_open (str "/dev/android_adb_enable") O_RDWR 0);
  (if rc_int r <? 0 then skip else in_os (close_on_exec (rc_int r)));;
  start_thread "usb_adb_open_thread".

(** ** FunctionFS *)

(** The label [err]. *)
Definition functionfs_err : D unit :=
  i ← h bulk_in;
  (if i >? 0 then in_os (adb_close i);; set_h (set_bulk_in (-1)) else skip);;
  o ← h bulk_out;
  (if o >? 0 then in_os (adb_close o);; set_h (set_bulk_out (-1)) else skip);;
  c ← h control;
  (if c >? 0 then in_os (adb_close c);; set_h (set_control (-1)) else skip).

Definition open_endpoint (path : bytes) (set : Z -> usb_handle -> usb_handle) : D bool :=
  r ← in_os (adb_open path O_RDWR);
  set_h (set (rc_int r));;
  mret (negb (rc_int r <? 0)).

(** The control endpoint; false for [goto err]. *)
Definition open_control : D bool :=
  c ← h control;
  if negb (c <? 0) then mret true else
  ok ← open_endpoint USB_FFS_ADB_EP0 set_control;
  if negb ok then mret false else
  c ← h control;
  r ← in_os (adb_write c descriptors);
  if rc_int r <? 0 then mret false else
  r ← in_os (adb_write c strings);
  mret (negb (rc_int r <? 0)).

Definition init_functionfs : D unit :=
  ok ← open_control;
  if negb ok then functionfs_err else
  ok ← open_endpoint USB_FFS_ADB_OUT set_bulk_out;
  if negb ok then functionfs_err else
  ok ← open_endpoint USB_FFS_ADB_IN set_bulk_in;
  if negb ok then functionfs_err else skip.

Definition usb_ffs_open_thread : D unit :=
  loop (fun _ : unit =>
    loop (fun _ : unit =>
      c ← h control; i ← h bulk_in; o ← h bulk_out;
      if negb (c =? -1) && negb (i =? -1) && negb (o =? -1) then cond_wait;; mret (inl tt) else mret (inr tt)) tt;;
    loop (fun _ : unit =>
      init_functionfs;;
      c ← h control; i ← h bulk_in; o ← h bulk_out;
      if (c >=? 0) && (i >=? 0) && (o >=? 0) then mret (inr tt) else in_os (adb_sleep_ms 1000);; mret (inl tt)) tt;;
    register;;
    mret (inl tt)) tt.

(** [bulk_write(bulk_in, buf, length)]: the number of bytes, or -1. *)
Definition bulk_write (fd : Z) (buf : bytes) : M world Z :=
  loop (fun count : nat =>
    r ← adb_write fd (drop count buf);
    match r with
    | Err e => if negb (e =? EINTR) then mret (inr (-1)) else
               mret (if (count <? length buf)%nat then inl count else inr (Z.of_nat count))
    | Ok n =>
        let count := (count + Z.to_nat n)%nat in
        mret (if (count <? length buf)%nat then inl count else inr (Z.of_nat count))
    end) 0%nat.

Definition usb_ffs_write (data : bytes) : D Z :=
  i ← h bulk_in;
  n ← in_os (bulk_write i data);
  mret (if n =? Z.of_nat (length data) then 0 else -1).

(** [bulk_read(bulk_out, buf, length)]: the bytes, or nothing for -1. *)
Definition bulk_read (fd length : Z) : M world (option bytes) :=
  loop (fun acc : bytes =>
    r ← adb_read fd (length - Z.of_nat (List.length acc));
    match r with
    | Err e => if negb (e =? EINTR) then mret (inr None) else
               mret (if Z.of_nat (List.length acc) <? length then inl acc else inr (Some acc))
    | Ok bs =>
        let acc := acc ++ bs in
        mret (if Z.of_nat (List.length acc) <? length then inl acc else inr (Some acc))
    end) [].

Definition usb_ffs_read (len : Z) : D (option bytes) :=
  o ← h bulk_out;
  r ← in_os (bulk_read o len);
  mret (match r with
        | Some bs => if Z.of_nat (length bs) =? len then Some bs else None
        | None => None
        end).

Definition usb_ffs_kick : D unit :=
  i ← h bulk_in;
  in_os (syscall (Clear_halt i));;
  o ← h bulk_out;
  in_os (syscall (Clear_halt o));;
  in_os (adb_close o);;
  in_os (adb_close i);;
  set_h (fun k => set_bulk_out (-1) (set_bulk_in (-1) k)).

(** [bulk_out] is set twice, and [bulk_in] stays 0. *)
Definition usb_ffs_init : D unit :=
  set_h (fun _ => {| fns := usb_ffs_fns; fd := 0; control := -1; bulk_out := -1; bulk_in := 0 |});;
  start_thread "usb_ffs_open_thread".

(** ** The functions of the rest of adb *)

Definition usb_init : D unit :=
  a ← in_os (syscall (Access USB_FFS_ADB_EP0));
  match a with
  | Ok _ => usb_ffs_init
  | Err _ => usb_adb_init
  end.

Definition usb_write (data : bytes) : D Z :=
  f ← h fns;
  match f with usb_ffs_fns => usb_ffs_write data | usb_adb_fns => usb_adb_write data end.

Definition usb_read (len : Z) : D (option bytes) :=
  f ← h fns;
  match f with usb_ffs_fns => usb_ffs_read len | usb_adb_fns => usb_adb_read len end.

Definition usb_kick : D unit :=
  f ← h fns;
  match f with usb_ffs_fns => usb_ffs_kick | usb_adb_fns => usb_adb_kick end.
End client.
End UsbClient.
