(* ===== verification/UsbSpec.v ===== *)
(** * Correctness of the USB back end

    The search for the ADB interface against a definition on lists of
    descriptors, that the host finds the interface the device describes, and
    the transfers of both ends. *)

From S2P Require Import Prelude Effects DList Os Sysdeps Wire Globals Fdevent Transport FdeventLoop Sockets Registry Host AdbClient Usb UsbClient.

Import Usb.

(** ** The search *)

Record descriptor := { d_type : Z; d_body : bytes }.

(** A descriptor in memory: its length, its type and the rest. *)
Definition encode (d : descriptor) : bytes := Z.of_nat (2 + length (d_body d)) :: d_type d :: d_body d.

Definition encode_all (ds : list descriptor) : bytes := ds ≫= encode.

Definition is_endpoint (d : descriptor) : bool := (length (encode d) =? USB_DT_ENDPOINT_SIZE)%nat && (d_type d =? USB_DT_ENDPOINT).

Definition is_bulk (d : descriptor) : bool := u8_at (encode d) 3 =? USB_ENDPOINT_XFER_BULK.

(** The first ADB interface that is followed by two bulk endpoints; a bad
    interface, or an ADB interface without its endpoints, ends the search. *)
Fixpoint find_adb (vendorIds : list Z) (vid : Z) (ds : list descriptor) : option found :=
  match ds with
  | [] => None
  | d :: rest =>
      if d_type d =? USB_DT_INTERFACE then
        if negb (length (encode d) =? USB_DT_INTERFACE_SIZE)%nat then None else
        if (u8_at (encode d) 4 =? 2) &&
           is_adb_interface vendorIds vid (u8_at (encode d) 5) (u8_at (encode d) 6) (u8_at (encode d) 7) then
          match rest with
          | e1 :: e2 :: rest' =>
              if negb (is_endpoint e1 && is_endpoint e2) then None else
              if is_bulk e1 && is_bulk e2 then Some (match_endpoints (encode d) (encode e1) (encode e2) 0)
              else find_adb vendorIds vid rest'
          | _ => None
          end
        else find_adb vendorIds vid rest
      else find_adb vendorIds vid rest
  end.

Definition of_option (o : option found) : scanned := match o with Some f => Found f | None => NotFound end.

Lemma length_encode d : length (encode d) = (2 + length (d_body d))%nat.
Proof. done. Qed.

(** The descriptor at the end of [pre]. *)
Lemma at_descriptor pre d tail :
  (pre ++ encode d ++ tail) !! length pre = Some (Z.of_nat (length (encode d))) /\
  (pre ++ encode d ++ tail) !! S (length pre) = Some (d_type d) /\
  drop (length pre) (pre ++ encode d ++ tail) = encode d ++ tail /\
  drop (length pre + length (encode d)) (pre ++ encode d ++ tail) = tail.
Proof.
  split_and!.
  - rewrite lookup_app_r by lia. by rewrite Nat.sub_diag.
  - rewrite lookup_app_r by lia. by replace (S (length pre) - length pre)%nat with 1%nat by lia.
  - apply drop_app_length.
  - rewrite app_assoc. apply drop_app_length'. by rewrite length_app.
Qed.

(** An endpoint in memory. *)
Lemma not_endpoint_head d tail :
  (USB_DT_ENDPOINT_SIZE <= length (encode d ++ tail))%nat ->
  not_endpoint (take USB_DT_ENDPOINT_SIZE (encode d ++ tail)) = negb (is_endpoint d).
Proof.
  intros _. unfold not_endpoint, is_endpoint, encode, USB_DT_ENDPOINT_SIZE, u8_at. cbn [app take nth].
  rewrite negb_andb. f_equal. f_equal. cbn [length].
  destruct (Nat.eqb_spec (S (S (length (d_body d)))) 7); [apply Z.eqb_eq; lia|apply Z.eqb_neq; lia].
Qed.

Lemma take_endpoint d tail : is_endpoint d = true -> take USB_DT_ENDPOINT_SIZE (encode d ++ tail) = encode d.
Proof. unfold is_endpoint. intros [E%Nat.eqb_eq _]%andb_true_iff. by apply take_app_length'. Qed.

Lemma is_endpoint_length d : is_endpoint d = true -> length (encode d) = USB_DT_ENDPOINT_SIZE.
Proof. unfold is_endpoint. by intros [E%Nat.eqb_eq _]%andb_true_iff. Qed.

(** What follows an ADB interface: two endpoints, or the search ends. *)
Lemma endpoints_follow mem q rest :
  drop q mem = encode_all rest -> length mem = (q + length (encode_all rest))%nat ->
  let ep1 := take USB_DT_ENDPOINT_SIZE (drop q mem) in
  let ep2 := take USB_DT_ENDPOINT_SIZE (drop (q + USB_DT_ENDPOINT_SIZE) mem) in
  let bad := (length mem <? q + USB_DT_ENDPOINT_SIZE + USB_DT_ENDPOINT_SIZE)%nat || not_endpoint ep1 || not_endpoint ep2 in
  (bad = true /\ forall e1 e2 rest', rest = e1 :: e2 :: rest' -> is_endpoint e1 && is_endpoint e2 = false) \/
  (bad = false /\ exists e1 e2 rest', rest = e1 :: e2 :: rest' /\ is_endpoint e1 && is_endpoint e2 = true /\
     ep1 = encode e1 /\ ep2 = encode e2).
Proof.
  intros Hd Hl. cbv zeta. rewrite <- drop_drop, Hd, Hl.
  destruct (Nat.ltb_spec (q + length (encode_all rest)) (q + USB_DT_ENDPOINT_SIZE + USB_DT_ENDPOINT_SIZE)) as [Hs|Hs].
  { left. split; [done|]. intros e1 e2 rest' ->. apply not_true_iff_false. intros [E1 E2]%andb_true_iff.
    apply is_endpoint_length in E1, E2. unfold encode_all in Hs. cbn [mbind list_bind] in Hs. rewrite !length_app, E1, E2 in Hs. lia. }
  cbn [orb]. destruct rest as [|e1 rest]; [cbn in Hs; unfold USB_DT_ENDPOINT_SIZE in Hs; lia|].
  unfold encode_all in Hs |- *. cbn [mbind list_bind] in Hs |- *. change (rest ≫= encode) with (encode_all rest) in *.
  rewrite not_endpoint_head by (unfold USB_DT_ENDPOINT_SIZE in *; lia).
  destruct (is_endpoint e1) eqn:E1; cbn [negb orb].
  2:{ left. split; [done|]. intros ? ? ? [= <- _]. by rewrite E1. }
  rewrite take_endpoint by done. rewrite drop_app_length' by (by rewrite is_endpoint_length).
  rewrite length_app, (is_endpoint_length _ E1) in Hs.
  destruct rest as [|e2 rest]; [cbn in Hs; unfold USB_DT_ENDPOINT_SIZE in Hs; lia|].
  unfold encode_all in Hs |- *. cbn [mbind list_bind] in Hs |- *. change (rest ≫= encode) with (encode_all rest) in *.
  rewrite not_endpoint_head by lia. destruct (is_endpoint e2) eqn:E2; cbn [negb].
  - right. split; [done|]. exists e1, e2, rest. by rewrite take_endpoint, E1, E2.
  - left. split; [done|]. intros ? ? ? [= <- <- _]. by rewrite E2, andb_false_r.
Qed.

(** The loop on memory that holds a list of descriptors. *)
Lemma scan_finds ids vid count ds pre fuel :
  (length ds <= count)%nat -> (length ds < fuel)%nat ->
  scan_descriptors fuel ids vid (pre ++ encode_all ds) (length pre) 0 = of_option (find_adb ids vid ds).
Proof.
  revert ds pre fuel. induction count as [|count IH]; intros ds pre fuel Hc Hf.
  { destruct ds; [|cbn in Hc; lia]. destruct fuel; [lia|]. cbn [scan_descriptors]. by rewrite app_nil_r, Nat.leb_refl. }
  destruct ds as [|d ds], fuel as [|fuel]; try (cbn in Hf; lia); cbn [scan_descriptors].
  { by rewrite app_nil_r, Nat.leb_refl. }
  unfold encode_all. cbn [mbind list_bind]. change (ds ≫= encode) with (encode_all ds).
  destruct (at_descriptor pre d (encode_all ds)) as (L0 & L1 & D0 & D1). rewrite L0, L1. cbv beta iota zeta.
  rewrite (proj2 (Nat.leb_gt _ _)) by (rewrite !length_app, length_encode; lia). rewrite Nat2Z.id, D0.
  assert (IH1 : forall l r n, ds = l ++ r -> (length r <= count)%nat -> (length r < n)%nat ->
    scan_descriptors n ids vid (pre ++ encode d ++ encode_all ds) (length pre + length (encode d) + length (encode_all l)) 0
    = of_option (find_adb ids vid r)).
  { intros l r n -> Hr Hn. unfold encode_all at 1. rewrite bind_app. change (l ≫= encode) with (encode_all l). change (r ≫= encode) with (encode_all r).
    rewrite !app_assoc, <- !length_app. by apply IH. }
  assert (IH0 : scan_descriptors fuel ids vid (pre ++ encode d ++ encode_all ds) (length pre + length (encode d)) 0 = of_option (find_adb ids vid ds)).
  { rewrite <- (IH1 [] ds fuel) by (done || (cbn in *; lia)). f_equal. cbn. lia. }
  cbn [find_adb]. destruct (d_type d =? USB_DT_INTERFACE); [|exact IH0].
  destruct (Nat.eqb_spec (length (encode d)) USB_DT_INTERFACE_SIZE) as [E9|E9].
  2:{ rewrite (proj2 (Z.eqb_neq _ _)) by lia. done. }
  rewrite (proj2 (Z.eqb_eq _ _)) by lia. cbn [negb].
  rewrite (proj2 (Nat.ltb_ge _ _)) by (rewrite !length_app; lia). rewrite (take_app_length' (encode d)) by done.
  destruct ((u8_at (encode d) 4 =? 2) && _); [|exact IH0].
  destruct (endpoints_follow (pre ++ encode d ++ encode_all ds) (length pre + length (encode d)) ds D1) as [(-> & Hno)|(-> & e1 & e2 & rest & -> & He & Ep1 & Ep2)].
  { rewrite !length_app. lia. }
  { destruct ds as [|e1 [|e2 rest]]; [done|done|]. by rewrite (Hno _ _ _ eq_refl). }
  rewrite Ep1, Ep2, He. cbn [negb].
  destruct (is_bulk e1 && is_bulk e2) eqn:Eb.
  - apply andb_true_iff in Eb as [B1 B2]. unfold is_bulk in B1, B2. by rewrite B1, B2.
  - assert (negb (u8_at (encode e1) 3 =? USB_ENDPOINT_XFER_BULK) || negb (u8_at (encode e2) 3 =? USB_ENDPOINT_XFER_BULK) = true) as ->.
    { rewrite <- negb_andb. fold (is_bulk e1) (is_bulk e2). by rewrite Eb. }
    rewrite <- (IH1 [e1; e2] rest fuel) by (done || (cbn in *; lia)). f_equal. apply andb_true_iff in He as [H1 H2].
    unfold encode_all. cbn [mbind list_bind]. rewrite !length_app, (is_endpoint_length _ H1), (is_endpoint_length _ H2). cbn [length]. lia.
Qed.

Lemma length_encode_all ds : (length ds <= length (encode_all ds))%nat.
Proof.
  induction ds as [|d ds IH]; [done|]. unfold encode_all. cbn [mbind list_bind length].
  rewrite length_app, length_encode. unfold encode_all in IH. lia.
Qed.

(** A device descriptor and a configuration descriptor. *)
Definition is_device (d : descriptor) : Prop := length (encode d) = USB_DT_DEVICE_SIZE /\ d_type d = USB_DT_DEVICE.

Definition is_config (d : descriptor) : Prop := length (encode d) = USB_DT_CONFIG_SIZE /\ d_type d = USB_DT_CONFIG.

Lemma scan_device_run ids dev cfg ds :
  is_device dev -> is_config cfg ->
  scan_device ids (encode_all (dev :: cfg :: ds)) = of_option (find_adb ids (u16_at (encode dev) 8) ds).
Proof.
  intros [Ld Td] [Lc Tc]. unfold scan_device, encode_all. cbn [mbind list_bind]. change (ds ≫= encode) with (encode_all ds).
  rewrite (proj2 (Nat.ltb_ge _ _)) by (rewrite !length_app, Ld, Lc; lia).
  rewrite (take_app_length' (encode dev)), (drop_app_length' (encode dev)), (take_app_length' (encode cfg)) by done.
  assert (Hh : forall d k, length (encode d) = k -> u8_at (encode d) 0 =? Z.of_nat k = true).
  { intros d k <-. apply Z.eqb_eq. done. }
  rewrite !Hh by done. change (u8_at (encode dev) 1) with (d_type dev). change (u8_at (encode cfg) 1) with (d_type cfg).
  rewrite Td, Tc. cbn [negb orb Z.eqb Pos.eqb USB_DT_DEVICE USB_DT_CONFIG]. rewrite app_assoc.
  replace (USB_DT_DEVICE_SIZE + USB_DT_CONFIG_SIZE)%nat with (length (encode dev ++ encode cfg)) by (by rewrite length_app, Ld, Lc).
  apply (scan_finds _ _ (length ds)); [done|]. pose proof (length_encode_all ds). rewrite length_app. lia.
Qed.

(** C37: the host finds exactly the ADB interface of a device.  For every device
    that describes itself by a list of descriptors, the search over the bytes
    ends and gives what the definition on the list gives: the first ADB
    interface of a known vendor that is followed by two bulk endpoints, with
    the endpoints told apart by their direction and the mask of zero packets;
    it reads no byte after those it was given. *)
Theorem scan_is_search ids dev cfg ds :
  is_device dev -> is_config cfg ->
  scan_device ids (encode_all (dev :: cfg :: ds)) =
    match find_adb ids (u16_at (encode dev) 8) ds with
    | Some f => Found f
    | None => NotFound
    end.
Proof. apply scan_device_run. Qed.

(** ** The device's own interface *)

(** Descriptors that the search passes over. *)
Definition passed_over (ids : list Z) (vid : Z) (d : descriptor) : bool :=
  negb (d_type d =? USB_DT_INTERFACE) ||
  ((length (encode d) =? USB_DT_INTERFACE_SIZE)%nat &&
   negb ((u8_at (encode d) 4 =? 2) && is_adb_interface ids vid (u8_at (encode d) 5) (u8_at (encode d) 6) (u8_at (encode d) 7))).

Lemma find_adb_passes ids vid pre ds :
  forallb (passed_over ids vid) pre = true -> find_adb ids vid (pre ++ ds) = find_adb ids vid ds.
Proof.
  induction pre as [|d pre IH]; [done|]. cbn [forallb app find_adb]. intros [Hd Hp]%andb_true_iff. unfold passed_over in Hd.
  destruct (d_type d =? USB_DT_INTERFACE); [|by apply IH]. cbn [negb orb] in Hd.
  apply andb_true_iff in Hd as [-> Ha]. cbn [negb]. apply negb_true_iff in Ha. rewrite Ha. by apply IH.
Qed.

(** The three descriptors of [usb_linux_client.c]. *)
Definition gadget (packet_size : Z) : list descriptor :=
  [{| d_type := USB_DT_INTERFACE; d_body := drop 2 UsbClient.intf |};
   {| d_type := USB_DT_ENDPOINT; d_body := drop 2 (UsbClient.source packet_size) |};
   {| d_type := USB_DT_ENDPOINT; d_body := drop 2 (UsbClient.sink packet_size) |}].

Lemma gadget_bytes packet_size : encode_all (gadget packet_size) = UsbClient.descs packet_size.
Proof. unfold encode_all. cbn. done. Qed.

Lemma known_vendor ids vid : vid ∈ ids -> is_adb_interface ids vid ADB_CLASS ADB_SUBCLASS ADB_PROTOCOL = true.
Proof.
  induction ids as [|i ids IH]; [by intros ?%elem_of_nil|]. cbn. intros [->|Hin]%elem_of_cons; [by rewrite Z.eqb_refl|].
  destruct (vid =? i); [done|by apply IH].
Qed.

(** C38: the host finds the daemon.  A device of a known vendor whose configuration
    has the descriptors the daemon writes, at either speed, among descriptors
    the search passes over, is found with the endpoint the daemon reads as the
    one to write to, the endpoint it writes as the one to read from, and the
    mask of its packet size. *)
Theorem daemon_is_found ids dev cfg pre post packet_size :
  is_device dev -> is_config cfg -> u16_at (encode dev) 8 ∈ ids ->
  forallb (passed_over ids (u16_at (encode dev) 8)) pre = true ->
  packet_size ∈ [UsbClient.MAX_PACKET_SIZE_FS; UsbClient.MAX_PACKET_SIZE_HS] ->
  scan_device ids (encode_all (dev :: cfg :: pre) ++ UsbClient.descs packet_size ++ encode_all post) =
    Found {| f_ep_in := Z.lor 2 USB_DIR_IN; f_ep_out := Z.lor 1 USB_DIR_OUT; f_ifc := 0; f_zero_mask := packet_size - 1 |}.
Proof.
  intros Hd Hc Hv Hp Hs. set (vid := u16_at (encode dev) 8) in *.
  rewrite <- gadget_bytes. unfold encode_all. rewrite <- !bind_app. cbn [app].
  change ((dev :: cfg :: pre ++ gadget packet_size ++ post) ≫= encode) with (encode_all (dev :: cfg :: (pre ++ gadget packet_size ++ post))).
  rewrite scan_device_run by done. fold vid. rewrite find_adb_passes by done.
  cbn [gadget app find_adb d_type].
  change (u8_at (encode {| d_type := USB_DT_INTERFACE; d_body := drop 2 UsbClient.intf |}) 5) with ADB_CLASS.
  change (u8_at (encode {| d_type := USB_DT_INTERFACE; d_body := drop 2 UsbClient.intf |}) 6) with ADB_SUBCLASS.
  change (u8_at (encode {| d_type := USB_DT_INTERFACE; d_body := drop 2 UsbClient.intf |}) 7) with ADB_PROTOCOL.
  rewrite known_vendor by done.
  repeat (apply elem_of_cons in Hs as [->|Hs]; [reflexivity|]). by apply elem_of_nil in Hs.
Qed.

(** ** A device *)

Definition nexus : descriptor :=
  {| d_type := USB_DT_DEVICE; d_body := [0; 2; 0; 0; 0; 64; 0xd1; 0x18; 0xe7; 0x4e; 0; 0; 1; 2; 3; 1] |}.

Definition nexus_config : descriptor := {| d_type := USB_DT_CONFIG; d_body := [0; 0; 2; 1; 0; 0x80; 250] |}.

(** A storage interface with its endpoints. *)
Definition storage : list descriptor :=
  [{| d_type := USB_DT_INTERFACE; d_body := [0; 0; 2; 8; 6; 80; 0] |};
   {| d_type := USB_DT_ENDPOINT; d_body := [0x83; 2; 0; 2; 0] |};
   {| d_type := USB_DT_ENDPOINT; d_body := [3; 2; 0; 2; 0] |}].

Lemma scan_is_search_witness :
  scan_device builtInVendorIds (encode_all (nexus :: nexus_config :: storage)) = NotFound.
Proof. rewrite (scan_is_search builtInVendorIds nexus nexus_config storage) by done. vm_compute. reflexivity. Defined.

Lemma daemon_is_found_witness :
  scan_device builtInVendorIds (encode_all (nexus :: nexus_config :: storage) ++ UsbClient.descs 512 ++ encode_all []) =
    Found {| f_ep_in := 0x82; f_ep_out := 1; f_ifc := 0; f_zero_mask := 511 |}.
Proof.
  apply (daemon_is_found builtInVendorIds nexus nexus_config storage [] 512);
    [done|done|by apply (bool_decide_eq_true _); vm_compute|by vm_compute|right; left].
Defined.

(** ** Faults *)

(** A descriptor of length 0 makes the search go on for ever. *)
Lemma zero_length_hangs fuel ids vid mem p zm type :
  mem !! p = Some 0 -> mem !! S p = Some type -> type <> USB_DT_INTERFACE ->
  scan_descriptors fuel ids vid mem p zm = Forever.
Proof.
  intros H0 H1 Ht. induction fuel as [|fuel IH]; [done|]. cbn [scan_descriptors].
  rewrite (proj2 (Nat.leb_gt _ _)) by (by apply (lookup_lt_Some _ _ _ H0)). rewrite H0, H1.
  rewrite (proj2 (Z.eqb_neq type _)) by done. by rewrite Nat.add_0_r.
Qed.

(** A value of [errno] from before makes a valid file of vendors fatal. *)
Definition vendor_file_env : env := fun h c =>
  match c return ans c with
  | Fgets _ _ => Ok (match h with [_; _] => Some (str "0x1234" ++ [10]) | _ => None end)
  | c => ok_default c
  end.

Definition strtol_1234 (s : bytes) : Z * option Z := (0x1234, None).

Lemma vendors_stale_errno :
  (usb_vendors_init strtol_1234 (boot vendor_file_env 20)).1 = Done (builtInVendorIds ++ [0x1234]) /\
  (usb_vendors_init strtol_1234 {| w_env := vendor_file_env; w_hist := []; w_budget := 20; w_errno := EINVAL |}).1 =
    Stop (Abort "Invalid content in adb_usb.ini. Quitting.").
Proof. by vm_compute. Qed.
