(* ===== verification/UsbIoSpec.v ===== *)
(** * Correctness of the transfers over USB

    What the host hands to the endpoint for writing, and what the device reads
    and writes through FunctionFS. *)

From S2P Require Import Prelude Effects DList Os Sysdeps Wire Globals Fdevent Transport FdeventLoop FdeventSpec Sockets Registry Host AdbClient Usb UsbClient.

(** ** The host *)

Section host.
Import Usb.
Context (others : list event -> usb_handle -> usb_handle).
(** The other threads leave alone what is fixed when a handle is made. *)
Hypothesis others_keep : forall h k, desc (others h k) = desc k /\ ep_out (others h k) = ep_out k /\ zero_mask (others h k) = zero_mask k.

Definition us_world (s : usbstate) : world := fd_world (us_fd s).

(** The requests for writing the kernel accepted. *)
Definition ev_transfer (fd ep : Z) (e : event) : list bytes :=
  match e with
  | existT (Submit_urb fd' ep' _ bs) (Ok _) => if (fd' =? fd) && (ep' =? ep) then [bs] else []
  | _ => []
  end.

Definition transfers (fd ep : Z) (h : list event) : list bytes := h ≫= ev_transfer fd ep.

Lemma transfers_app fd ep a b : transfers fd ep (a ++ b) = transfers fd ep a ++ transfers fd ep b.
Proof. apply bind_app. Qed.

(** A handle with the given fixed fields. *)
Definition usable (h : ptr) (fd ep zm : Z) (s : usbstate) : Prop :=
  posix_state (us_fd s) /\ exists k, handles s !! h = Some k /\ desc k = fd /\ ep_out k = ep /\ zero_mask k = zm.

(** The requests [ts] were made on the way to a state where the handle is usable. *)
Definition requested (h : ptr) (fd ep zm : Z) (ts : list bytes) (s s' : usbstate) : Prop :=
  usable h fd ep zm s' /\ exists new, steps (us_world s) new (us_world s') /\ transfers fd ep new = ts.

Lemma requested_refl h fd ep zm s : usable h fd ep zm s -> requested h fd ep zm [] s s.
Proof. intros Hu. split; [done|]. exists []. split; [apply steps_refl|done]. Qed.

Lemma requested_trans h fd ep zm t1 t2 s s1 s2 :
  requested h fd ep zm t1 s s1 -> requested h fd ep zm t2 s1 s2 -> requested h fd ep zm (t1 ++ t2) s s2.
Proof.
  intros (_ & n1 & S1 & <-) (Hu & n2 & S2 & <-). split; [done|]. exists (n1 ++ n2).
  split; [by eapply steps_trans|apply transfers_app].
Qed.

(** Fields of the handle are changed, but not the fixed ones. *)
Lemma wp_set_handle h fd ep zm f s Q (X : stop -> usbstate -> Prop) :
  usable h fd ep zm s ->
  (forall k, desc (f k) = desc k /\ ep_out (f k) = ep_out k /\ zero_mask (f k) = zero_mask k) ->
  (forall s', requested h fd ep zm [] s s' -> us_fd s' = us_fd s -> Q tt s') -> wp (set_handle h f) Q X s.
Proof.
  intros (Hp & k & Hk & Ed & Ee & Ez) Hf HQ. unfold set_handle, store, load. apply wp_zoom. wp_step. eapply wp_must; [exact Hk|].
  apply wp_modify. apply HQ; [|done]. split; [|exists []; split; [apply steps_refl|done]]. split; [done|].
  exists (f k). cbn. rewrite lookup_insert_eq. destruct (Hf k) as (-> & -> & ->). by split_and!.
Qed.

Lemma wp_handle h fd ep zm s Q (X : stop -> usbstate -> Prop) :
  usable h fd ep zm s -> (forall k, handles s !! h = Some k -> desc k = fd -> ep_out k = ep -> zero_mask k = zm -> Q k s) ->
  wp (handle h) Q X s.
Proof.
  intros (_ & k & Hk & Ed & Ee & Ez) HQ. unfold handle, load. apply wp_zoom. eapply wp_must; [exact Hk|]. rewrite put_view. by apply HQ.
Qed.

(** A call that is not a request for writing, with the lock given up. *)
Lemma wp_unlocked c h fd ep zm s Q (X : stop -> usbstate -> Prop) :
  usable h fd ep zm s -> (forall a, ev_transfer fd ep (ev c a) = []) ->
  (forall a s', requested h fd ep zm [] s s' -> (budget s' < budget s)%nat -> Q a s') -> X Blocked s ->
  wp (unlocked others c h) Q X s.
Proof.
  intros Hu Hc HQ HX. unfold unlocked. wp_step. unfold in_os, in_fd. apply wp_zoom, wp_zoom, wp_syscall.
  2:{ by destruct s as [[] ?]. }
  intros w a S _. cbv beta. set (s1 := put _ s). assert (R1 : requested h fd ep zm [] s s1).
  { destruct Hu as (Hp & Hk). split; [split; [cbn; by rewrite (steps_env _ _ _ S)|exact Hk]|].
    exists [ev c a]. split; [exact S|]. unfold transfers. cbn [mbind list_bind]. by rewrite (Hc a). }
  assert (B : (budget s1 < budget s)%nat) by (eapply (steps_budget_lt _ _ _ S); done).
  wp_step. wp_step. wp_step. eapply wp_set_handle; [apply R1|apply others_keep|]. intros s2 R2 Ef. apply wp_ret.
  apply HQ; [exact (requested_trans _ _ _ _ [] [] _ _ _ R1 R2)|]. unfold budget, Budget_usbstate in *. by rewrite Ef.
Qed.

(** One request: all that is asked for, or nothing. *)
Lemma wp_submit h fd ep zm data s Q (X : stop -> usbstate -> Prop) :
  usable h fd ep zm s ->
  (forall s', requested h fd ep zm [data] s s' -> (budget s' < budget s)%nat -> Q (Ok tt) s') ->
  (forall e s', requested h fd ep zm [] s s' -> Q (Err e) s') -> (forall s', X Blocked s') ->
  wp (in_os (temp_failure_retry (Submit_urb fd ep (Z.of_nat (length data)) data))) Q X s.
Proof.
  intros (Hp & Hk) HQ1 HQ2 HX. unfold in_os, in_fd. apply wp_zoom.
  set (c := Submit_urb fd ep (Z.of_nat (length data)) data).
  assert (E0 : forall n, transfers fd ep (replicate n (eintr c)) = []) by (induction n as [|n IH]; [done|]; by cbn).
  eapply ospec_os; [apply (ospec_retry _ c (fun a new _ => new <> [] /\ transfers fd ep new = match a with Ok _ => [data] | Err _ => [] end)
                             (fun x _ => x = Blocked)); [|done]|exact Hp| |].
  - intros a n _ _. split; [by destruct n|]. rewrite transfers_app, E0. destruct a as [[]|e]; cbn; [by rewrite !Z.eqb_refl|done].
  - intros a new w' S [Hne Ht]. set (s1 := put (put w' (us_fd s)) s).
    assert (R : requested h fd ep zm (transfers fd ep new) s s1).
    { split; [split; [cbn; by rewrite (steps_env _ _ _ S)|exact Hk]|]. exists new. done. }
    rewrite Ht in R. destruct a as [[]|e]; [|by apply HQ2]. apply HQ1; [exact R|]. by eapply (steps_budget_lt _ _ _ S).
  - intros x new w' ->. apply HX.
Qed.

(** [usb_bulk_write] asks for one transfer, unless it returns -1. *)
Lemma wp_bulk_write h fd ep zm data s :
  usable h fd ep zm s ->
  wp (usb_bulk_write others h data)
    (fun r s' => (r = -1 /\ exists ts, requested h fd ep zm ts s s' /\ ts ∈ [[]; [data]]) \/
       r <> -1 /\ requested h fd ep zm [data] s s' /\ (budget s' < budget s)%nat)
    (fun e _ => e = Blocked) s.
Proof.
  intros Hu. unfold usb_bulk_write. wp_step. eapply wp_set_handle; [exact Hu|done|]. intros s1 R1 F1.
  wp_step. eapply wp_handle; [apply R1|]. intros k _ <- <- <-. set (fd := desc k) in *. set (ep := ep_out k) in *. set (zm := zero_mask k) in *.
  destruct (dead k). { apply wp_ret. left. split; [done|]. exists []. split; [done|left]. }
  wp_step. eapply wp_submit; [apply R1| | |done].
  2:{ intros e s2 R2. apply wp_ret. left. split; [done|]. exists []. split; [exact (requested_trans _ _ _ _ [] [] _ _ _ R1 R2)|left]. }
  intros s2 R2 B2. pose proof (requested_trans _ _ _ _ [] _ _ _ _ R1 R2) as R02. cbn [app] in R02.
  assert (B02 : (budget s2 < budget s)%nat) by (unfold budget, Budget_usbstate in *; by rewrite F1 in B2).
  cbv iota. wp_step. eapply wp_set_handle; [apply R02|done|]. intros s3 R3 F3.
  apply (wp_loop (fun _ s' => requested h fd ep zm [data] s s' /\ (budget s' < budget s)%nat)).
  { split; [exact (requested_trans _ _ _ _ _ [] _ _ _ R02 R3)|]. unfold budget, Budget_usbstate in *. by rewrite F3. }
  clear dependent s3 s2 s1. intros _ s1 (R1 & B1). wp_step. eapply wp_unlocked; [apply R1|done| |done]. intros a s2 R2 B2.
  pose proof (requested_trans _ _ _ _ _ [] _ _ _ R1 R2) as R. cbn [app] in R.
  assert (Hdone : forall n, (n = -1 /\ exists ts, requested h fd ep zm ts s s2 /\ ts ∈ [[]; [data]]) \/
       n <> -1 /\ requested h fd ep zm [data] s s2 /\ (budget s2 < budget s)%nat).
  { intros n. destruct (decide (n = -1)) as [->|]; [left|right; split_and!; [done|done|lia]].
    split; [done|]. exists [data]. split; [done|right; left]. }
  wp_step. eapply wp_handle; [apply R2|]. intros k' _ _ _ _. destruct (_ || dead k'); [apply wp_ret, Hdone|].
  destruct (urb_out_busy k'); [|apply wp_ret, Hdone]. apply wp_ret. split; [split; [exact R|lia]|lia].
Qed.

(** Data in pieces of at most 4096 bytes. *)
Fixpoint chunks_fuel (n : nat) (data : bytes) : list bytes :=
  match n, data with
  | S n', _ :: _ => take 4096 data :: chunks_fuel n' (drop 4096 data)
  | _, _ => []
  end.

Definition chunks (data : bytes) : list bytes := chunks_fuel (length data) data.

Lemma chunks_fuel_enough n m data : (length data <= n)%nat -> (length data <= m)%nat -> chunks_fuel n data = chunks_fuel m data.
Proof.
  revert m data. induction n as [|n IH]; intros [|m] [|b data] Hn Hm; try done; try (cbn in *; lia).
  cbn [chunks_fuel]. f_equal. apply IH; rewrite length_drop; cbn in *; lia.
Qed.

Lemma chunks_step data : data <> [] -> chunks data = take 4096 data :: chunks (drop 4096 data).
Proof.
  destruct data as [|b data]; [done|]. intros _. unfold chunks at 1. cbn [length chunks_fuel]. f_equal.
  apply chunks_fuel_enough; [rewrite length_drop; cbn; lia|done].
Qed.

Lemma chunks_concat data : concat (chunks data) = data.
Proof.
  unfold chunks. assert (H : forall n d, (length d <= n)%nat -> concat (chunks_fuel n d) = d); [|by apply H].
  induction n as [|n IH]; intros [|b d] Hn; try done; [cbn in Hn; lia|]. cbn [chunks_fuel concat].
  rewrite IH by (rewrite length_drop; cbn in *; lia). apply take_drop.
Qed.

(** The empty packet that ends a transfer of full packets. *)
Definition zero_packet (zm : Z) (data : bytes) : list bytes :=
  if negb (zm =? 0) && (Z.land (Z.of_nat (length data)) zm =? 0) then [[]] else [].

(** C39: the host writes what it is given, in pieces and in order.  Unless
    [usb_write] fails, the requests the kernel accepted for the endpoint are
    the data in pieces of 4096 bytes, followed by an empty packet exactly when
    the device needs one and the last packet was full; after a failure they are
    a beginning of that.  Whatever the other threads do meanwhile, it stops
    only to wait. *)
Theorem usb_write_requests h fd ep zm data s :
  usable h fd ep zm s ->
  wp (usb_write others h data)
    (fun r s' => exists ts, requested h fd ep zm ts s s' /\
       (r = -1 /\ ts `prefix_of` chunks data ++ zero_packet zm data \/
        r <> -1 /\ ts = chunks data ++ zero_packet zm data /\ concat ts = data))
    (fun e _ => e = Blocked) s.
Proof.
  intros Hu. unfold usb_write. wp_step. eapply wp_handle; [exact Hu|]. intros k _ _ _ ->. cbv zeta. wp_step.
  apply (wp_loop (fun rest s' => exists ts, requested h fd ep zm ts s s' /\ ts ++ chunks rest = chunks data)).
  { exists []. split; [by apply requested_refl|done]. }
  intros rest s1 (ts & R1 & E). destruct (Nat.eqb_spec (length rest) 0) as [E0|Hne].
  { apply wp_ret. cbn [negb]. destruct rest; [|done]. cbn in E. rewrite app_nil_r in E. subst ts. unfold zero_packet.
    destruct (negb (zm =? 0) && _).
    - eapply wp_mono; [eapply wp_bulk_write, R1| |done]. intros r s2 [(-> & t2 & R2 & Ht)|(Hr & R2 & _)].
      + exists (chunks data ++ t2). split; [by eapply requested_trans|]. left. split; [done|]. apply prefix_app.
        apply elem_of_cons in Ht as [->|Ht]; [apply prefix_nil|]. apply list_elem_of_singleton in Ht as ->. done.
      + exists (chunks data ++ [[]]). split; [by eapply requested_trans|]. right. split_and!; [done|done|].
        by rewrite concat_app, chunks_concat, app_nil_r.
    - apply wp_ret. exists (chunks data). split; [done|]. right. rewrite app_nil_r. split_and!; [done|done|apply chunks_concat]. }
  assert (Hr : rest <> []) by (by intros ->). rewrite (chunks_step rest Hr) in E.
  wp_step. eapply wp_mono; [eapply wp_bulk_write, R1| |done]. intros r s2 [(-> & t2 & R2 & Ht)|(Hr' & R2 & B2)].
  - rewrite (proj2 (Z.eqb_neq _ _)) by lia. apply wp_ret, wp_ret. exists (ts ++ t2). split; [by eapply requested_trans|]. left.
    split; [done|]. rewrite <- E, <- app_assoc. apply prefix_app. apply elem_of_cons in Ht as [->|Ht]; [apply prefix_nil|].
    apply list_elem_of_singleton in Ht as ->. apply (prefix_app_r [_] [_]). by exists [].
  - pose proof (requested_trans _ _ _ _ _ _ _ _ _ R1 R2) as R. destruct (_ =? _); apply wp_ret; cbn [negb].
    + split; [|exact B2]. exists (ts ++ [take 4096 rest]). split; [exact R|]. by rewrite <- app_assoc.
    + apply wp_ret. exists (ts ++ [take 4096 rest]). split; [exact R|]. left. split; [done|].
      rewrite <- E, <- app_assoc. apply prefix_app. cbn. by apply prefix_cons, prefix_nil.
Qed.
End host.

(** ** The device *)

Lemma ospec_bulk_write e fd buf :
  ospec e (UsbClient.bulk_write fd buf)
    (fun r new _ => only (writes fd) new /\
       (r = Z.of_nat (length buf) /\ written_to fd new = buf \/ r = -1 /\ written_to fd new `prefix_of` buf))
    (blocked (fun new => only (writes fd) new /\ written_to fd new `prefix_of` buf)).
Proof.
  unfold UsbClient.bulk_write.
  apply (ospec_loop (fun count hist _ => only (writes fd) hist /\ written_to fd hist = take count buf /\ (count <= length buf)%nat)).
  - split; [constructor|]. split; [done|lia].
  - intros count hist e1 (Ho & Hw & Hc). assert (Hpre : take count buf `prefix_of` buf) by (exists (drop count buf); by rewrite take_drop).
    os_call ospec_adb_write.
    + intros x new (-> & Ho' & Hw'). split; [done|]. rewrite only_app, written_to_app, Hw', app_nil_r, Hw. by split.
    + intros a n1 e2 (Ho' & Hne & Ha & Hres). destruct a as [r|err].
      * destruct Hres as (Hw' & Hr). rewrite length_drop in Hr.
        assert (Hall : written_to fd (hist ++ n1) = take (count + Z.to_nat r) buf).
        { rewrite written_to_app, Hw, Hw'. apply take_take_drop. }
        destruct (Nat.ltb_spec (count + Z.to_nat r) (length buf)) as [Hlt|Hge]; os_step; rewrite app_nil_r.
        -- split; [done|]. rewrite only_app. split_and!; [done|done|done|lia].
        -- rewrite only_app. split; [done|]. left. assert ((count + Z.to_nat r)%nat = length buf) as E by lia.
           split; [lia|]. by rewrite Hall, E, firstn_all.
      * destruct Hres as (Hw' & ->). destruct (Z.eqb_spec err EINTR) as [->|_]; [done|]. cbn [negb]. os_step.
        rewrite app_nil_r, only_app, written_to_app, Hw', app_nil_r, Hw. split; [done|]. by right.
Qed.

Lemma ospec_bulk_read e fd len : 0 <= len ->
  ospec e (UsbClient.bulk_read fd len)
    (fun r new _ => only (reads fd) new /\
       match r with Some bs => read_from fd new = bs /\ Z.of_nat (length bs) = len | None => True end)
    (blocked (fun new => only (reads fd) new)).
Proof.
  intros Hlen. unfold UsbClient.bulk_read.
  apply (ospec_loop (fun acc hist _ => only (reads fd) hist /\ read_from fd hist = acc /\ Z.of_nat (length acc) <= len)).
  - split; [constructor|]. split; [done|cbn; lia].
  - intros acc hist e1 (Ho & Hr & Hl). os_call ospec_adb_read.
    + intros x new (-> & Ho' & Hr'). split; [done|]. rewrite only_app. by split.
    + intros a n1 e2 (Ho' & Hne & Ha & Hres). destruct a as [bs|err].
      * destruct Hres as (Hr' & Hb & _). assert (Hall : read_from fd (hist ++ n1) = acc ++ bs) by (by rewrite read_from_app, Hr, Hr').
        destruct (Z.ltb_spec (Z.of_nat (length (acc ++ bs))) len) as [Hlt|Hge]; os_step; rewrite app_nil_r, only_app.
        -- split; [done|]. split; [done|]. split; [done|lia].
        -- split; [done|]. split; [done|]. rewrite length_app in *. lia.
      * destruct Hres as (_ & ->). destruct (Z.eqb_spec err EINTR) as [->|_]; [done|]. cbn [negb]. os_step.
        rewrite app_nil_r, only_app. done.
Qed.

(** ** Runs *)

Section runs.
Import Usb.

Definition demo_handle : usb_handle :=
  {| uh_prev := handle_list; uh_next := handle_list; fname := str "/dev/bus/usb/001/002"; desc := 5; ep_in := 0x82; ep_out := 1;
     zero_mask := 511; writeable := true; urb_out_status := 0; urb_out_actual := 0; urb_in_busy := false;
     urb_out_busy := false; dead := false; mark := true; reaper_thread := false |}.

Definition usb_demo (e : env) : usbstate :=
  {| us_fd := put (boot e 60) demo_state; handles := {[7%N := demo_handle]} |}.

(** The thread that reads completes every request. *)
Fixpoint last_request (h : list event) (n : Z) : Z :=
  match h with
  | [] => n
  | existT (Submit_urb _ _ n' _) _ :: h' => last_request h' n'
  | _ :: h' => last_request h' n
  end.

Definition completing (h : list event) (k : usb_handle) : usb_handle := set_out false 0 (last_request h 0) k.

Lemma usb_write_requests_witness :
  wp (usb_write completing 7%N (str "data"))
    (fun r s' => exists ts, requested 7%N 5 1 511 ts (usb_demo (fun _ => ok_default)) s' /\
       (r = -1 /\ ts `prefix_of` chunks (str "data") ++ zero_packet 511 (str "data") \/
        r <> -1 /\ ts = chunks (str "data") ++ zero_packet 511 (str "data") /\ concat ts = str "data"))
    (fun e _ => e = Blocked) (usb_demo (fun _ => ok_default)).
Proof.
  apply (usb_write_requests completing (fun _ _ => conj eq_refl (conj eq_refl eq_refl))).
  split; [intros h c; apply ok_default_answer|]. by exists demo_handle.
Defined.

(** The run succeeds. *)
Lemma usb_write_succeeds : (usb_write completing 7%N (str "data") (usb_demo (fun _ => ok_default))).1 = Done 0.
Proof. vm_compute. reflexivity. Qed.

(** [pthread_cond_timedwait] never returns a negative number: the 110 of a wait
    that timed out on a dead device is taken for the number of bytes written. *)
Definition timeout_env : env := fun h c =>
  match c return ans c with
  | Cond_timedwait => Err ETIMEDOUT
  | c => ok_default c
  end.

Lemma timeout_taken_for_length :
  (usb_write (fun _ => set_dead) 7%N (replicate 110 0) (usb_demo timeout_env)).1 = Done 0.
Proof. vm_compute. reflexivity. Qed.

(** A failed read of the descriptors is not noticed: the length is unsigned. *)
Definition unreadable_env : env := fun h c =>
  match c return ans c with
  | Read _ _ => Err 5
  | c => ok_default c
  end.

Lemma failed_read_examined :
  (look_at 8 builtInVendorIds (str "/dev/bus/usb/001/003")
     {| us_fd := put (boot unreadable_env 60) demo_state; handles := {[handle_list := set_next handle_list demo_handle]} |}).1
  = Stop (Undef "descriptors were not read").
Proof. vm_compute. reflexivity. Qed.

(** At the end of the input [bulk_read] asks again for ever. *)
Lemma bulk_read_spins n : (n < 12)%nat -> (UsbClient.bulk_read 5 1 (boot (stream_env (fun _ => [])) n)).1 = Stop Blocked.
Proof. intros Hn. do 12 (destruct n as [|n]; [vm_compute; reflexivity|]). lia. Qed.
End runs.
