(* ===== verification/Startup.v ===== *)
(** * Start-up (adb.cpp): tracing, privileges, logging and [adb_main]

    The daemon reads its properties, gives up root unless the build and the
    properties allow it to keep it, opens its ways in and enters the event
    loop; the server does the same without the privileges.  ALLOW_ADBD_ROOT is
    a flag of the build; the numbers of users and groups come from the
    platform.  Output to the terminal
    and the registration of handlers for signals and for the exit are left out;
    [usb_cleanup] does nothing on Linux. *)

From S2P Require Import Prelude Effects DList Os Sysdeps Wire Globals Fdevent Transport Sockets Registry Smart Jdwp Auth Host Protocol AdbClient StringCov DeviceServices.

Module Startup.
Import Client.

(** ** Tracing *)

(** [enum AdbTrace] *)
Definition tags : list (bytes * Z) :=
  [(str "1", 0); (str "all", 0); (str "adb", 0); (str "sockets", 1); (str "packets", 2); (str "rwx", 4); (str "usb", 5);
   (str "sync", 6); (str "sysdeps", 7); (str "transport", 3); (str "jdwp", 8); (str "services", 9); (str "auth", 10)].

Definition is_separator (c : Z) : bool := (c =? 32) || (c =? 44) || (c =? 58) || (c =? 59).

(** [strpbrk(p, " ,:;")]: the bytes before the separator, and from it on. *)
Fixpoint split_tag (p : bytes) : bytes * bytes :=
  match p with
  | [] => ([], [])
  | c :: p' => if is_separator c then ([], p) else let '(a, b) := split_tag p' in (c :: a, b)
  end.

(** The flag of a tag. *)
Definition find_tag (t : bytes) : option Z := snd <$> List.find (fun x => bytes_eqb (fst x) t) tags.

(** [while ( *p)]: [p] gets shorter with every turn. *)
Fixpoint trace_tags (fuel : nat) (p : bytes) (mask : Z) : Z :=
  match fuel, p with
  | S fuel', _ :: _ =>
      let '(tag, q) := split_tag p in
      match find_tag tag with
      | Some flag => if flag =? 0 then -1 else trace_tags fuel' (drop 1 q) (Z.lor mask (Z.shiftl 1 flag))
      | None => trace_tags fuel' (drop 1 q) mask
      end
  | _, _ => mask
  end.

(** The new [adb_trace_mask]. *)
Definition adb_trace_init (mask : Z) : M world Z :=
  r ← syscall (Getenv (str "ADB_TRACE"));
  mret (match r with Ok (Some p) => trace_tags (length p) p mask | _ => mask end).

(** ** Names and arguments *)

Definition build_local_name (target_size : nat) (server_port : Z) : bytes := snprintf target_size (str "tcp:" ++ fmt_d server_port).

(** The arguments of the client as [wmain] copies them: at most ten of at most
    255 bytes fit. *)
Definition wmain_arguments (utf8 : list Z -> bytes) (argv : list (list Z)) : M world (list bytes) :=
  if (10 <? length argv)%nat then undef "write after pTemp" else
  let args := utf8 <$> argv in
  if existsb (fun a => (255 <? length a)%nat) args then undef "write after an argument" else
  mret (cstr <$> args).

(** ** Privileges of the daemon *)

Definition CAP_SETGID : Z := 6.
Definition CAP_SETUID : Z := 7.

Section daemon.
Context (sizeof_ptr : Z) (allow_adbd_root : bool) (AID_SHELL : Z) (groups : list Z).
(** [root_seclabel], set by an option of the command line. *)
Context (root_seclabel : option bytes).
(** [gListenAll], the USB back end, and the handlers of events, which depend on
    [auth_enabled]. *)
Context (listen_all : bool) (usb_init : F unit) (client : bool -> N -> Z -> Z -> ptr -> F unit).

Abbreviation property_get := Device.property_get.

Definition property_is (key default_value value : bytes) : M world bool :=
  v ← property_get key default_value;
  mret (bytes_eqb v value).

(** [for (i = 0; prctl(PR_CAPBSET_READ, i) >= 0; i++)] *)
Definition drop_capabilities : M world unit :=
  loop (fun i : Z =>
    r ← syscall (Capbset_read i);
    match r with
    | Err _ => mret (inr tt)
    | Ok _ =>
        if (i =? CAP_SETUID) || (i =? CAP_SETGID) then mret (inl (i + 1)) else
        d ← syscall (Capbset_drop i);
        match d with
        | Err e => if negb (e =? 22) then abort "exit" else mret (inl (i + 1))
        | Ok _ => mret (inl (i + 1))
        end
    end) 0.

Definition drop_capabilities_bounding_set_if_needed : M world unit :=
  keep ← (if allow_adbd_root then property_is (str "ro.debuggable") [] (str "1") else mret false);
  if (keep : bool) then skip else drop_capabilities.

Definition should_drop_privileges : M world bool :=
  if negb allow_adbd_root then mret true else
  qemu ← property_is (str "ro.kernel.qemu") [] (str "1");
  if (qemu : bool) then mret false else
  secure ← property_is (str "ro.secure") (str "1") (str "1");
  if negb secure then mret false else
  debuggable ← property_is (str "ro.debuggable") [] (str "1");
  if negb debuggable then mret true else
  root ← property_is (str "service.adb.root") [] (str "1");
  mret (negb root).

(** A call that must succeed, or [exit(1)]. *)
Definition or_exit (c : call) : M world unit :=
  r ← syscall c;
  match r with Ok _ => skip | Err _ => abort "exit" end.

(** The user "shell" with its groups. *)
Definition become_shell : M world unit :=
  drop_capabilities_bounding_set_if_needed;;
  or_exit (Setgroups groups);;
  or_exit (Setgid AID_SHELL);;
  or_exit (Setuid AID_SHELL).

(** The result says whether root was given up. *)
Definition privileges : M world bool :=
  drop ← should_drop_privileges;
  (if (drop : bool) then become_shell else skip);;
  mret drop.

(** The port of the daemon, for a daemon that stays root. *)
Definition listen_as_root (server_port : Z) : F unit :=
  (match root_seclabel with
   | None => skip
   | Some label =>
       e ← os (syscall Is_selinux_enabled);
       if rc_int e >? 0 then os (or_exit (Setcon label)) else skip
   end);;
  r ← install_listener sizeof_ptr listen_all (build_local_name 30 server_port) (str "*smartsocket*") NULL false;
  if r =? 0 then skip else abort "exit".

Definition DEFAULT_ADB_LOCAL_TRANSPORT_PORT : Z := 5555.

(** USB, and the port of the property or, without USB, the default one. *)
Definition listen_to_hosts : F unit :=
  a ← os (syscall (Access (str "/dev/android_adb")));
  usb ← (match a with
         | Ok _ => mret true
         | Err _ => b ← os (syscall (Access (str "/dev/usb-ffs/adb/ep0"))); mret (match b with Ok _ => true | Err _ => false end)
         end);
  (if (usb : bool) then usb_init else skip);;
  v ← os (property_get (str "service.adb.tcp.port") []);
  v ← (if (length v =? 0)%nat then os (property_get (str "persist.adb.tcp.port") []) else mret v);
  match sscanf_d v with
  | Scanned port => if port >? 0 then local_init false port else if (usb : bool) then skip else local_init false DEFAULT_ADB_LOCAL_TRANSPORT_PORT
  | _ => if (usb : bool) then skip else local_init false DEFAULT_ADB_LOCAL_TRANSPORT_PORT
  end.

(** [dup2(fd, ...)] of the log; O_APPEND is 0x400. *)
Definition start_logging : M world unit :=
  r ← unix_open (str "/dev/null") O_RDONLY 0;
  syscall (Dup2 (rc_int r) 0);;
  adb_close (rc_int r);;
  r ← unix_open (str "/tmp/adb.log") (Z.lor (Z.lor O_WRONLY O_CREAT) 0x400) 0x1a0;
  fd ← (if rc_int r <? 0 then r' ← unix_open (str "/dev/null") O_WRONLY 0; mret (rc_int r') else mret (rc_int r));
  syscall (Dup2 fd 1);;
  syscall (Dup2 fd 2);;
  adb_close fd;;
  skip.

(** [adb_main] of the daemon, up to the event loop; the result is
    [auth_enabled]. *)
Definition adb_main_start (server_port : Z) : F bool :=
  os (syscall (Umask 0));;
  init_transport_registration sizeof_ptr;;
  auth_enabled ← os (property_is (str "ro.adb.secure") (str "0") (str "1"));
  (if (auth_enabled : bool) then adb_auth_init sizeof_ptr else skip);;
  ext ← os (syscall (Getenv (str "ADB_EXTERNAL_STORAGE")));
  (match ext with Ok (Some v) => os (syscall (Setenv (str "EXTERNAL_STORAGE") v));; skip | _ => skip end);;
  dropped ← os privileges;
  (if (dropped : bool) then skip else listen_as_root server_port);;
  listen_to_hosts;;
  init_jdwp sizeof_ptr;;
  mret auth_enabled.

Definition adb_main (is_daemon : bool) (server_port : Z) : F Z :=
  auth_enabled ← adb_main_start server_port;
  (if is_daemon then os start_logging else skip);;
  fdevent_loop sizeof_ptr (client auth_enabled);;
  mret 0.
End daemon.
End Startup.
