(* ===== verification/StartupSpec.v ===== *)
(** * Correctness of the start-up: who the daemon runs as, and what it traces *)

From S2P Require Import Prelude Effects DList Os Sysdeps Wire Globals Fdevent Transport FileSyncFacts DeviceServices Startup.

Import Startup.

(** ** Privileges *)

Section privileges.
Context (allow_adbd_root : bool) (AID_SHELL : Z) (groups : list Z).

(** The answers about properties are those of the table [P], where an unset
    property is empty. *)
Definition ev_reads (P : bytes -> bytes) (e : event) : Prop :=
  match e with
  | existT (Property_get k) r => match r with Ok v => v | Err _ => [] end = P k
  | _ => True
  end.

Definition reads_from (P : bytes -> bytes) (new : list event) : Prop := Forall (ev_reads P) new.

Lemma reads_app P a b : reads_from P (a ++ b) <-> reads_from P a /\ reads_from P b.
Proof. apply Forall_app. Qed.

(** The rule: root is kept only in a build that allows it, and there in the
    emulator, or when the device is not secure, or when it is debuggable and
    root was asked for. *)
Definition is_one (v : bytes) : bool := bytes_eqb v (str "1").
Definition keeps_root (P : bytes -> bytes) : bool :=
  allow_adbd_root &&
  (is_one (P (str "ro.kernel.qemu")) ||
   negb (is_one (match P (str "ro.secure") with [] => str "1" | v => v end)) ||
   is_one (P (str "ro.debuggable")) && is_one (P (str "service.adb.root"))).

Definition keeps_capabilities (P : bytes -> bytes) : bool := allow_adbd_root && is_one (P (str "ro.debuggable")).

(** Calls that leave the user as it is. *)
Definition looks (c : call) : Prop := match c with Property_get _ => True | _ => False end.
Definition prepares (c : call) : Prop := match c with Property_get _ | Capbset_read _ | Capbset_drop _ => True | _ => False end.

Lemma looks_prepares new : only looks new -> only prepares new.
Proof. intros H. eapply only_mono; [exact H|]. by intros []. Qed.

(** The capability [i] was given up, or the kernel has no file capabilities. *)
Definition given_up (new : list event) (i : Z) : Prop :=
  exists a : ans (Capbset_drop i), ev (Capbset_drop i) a ∈ new /\ (a = Ok tt \/ a = Err 22).

(** All capabilities the kernel knows, below the number it refuses, but the two
    that run-as needs. *)
Definition bounded (new : list event) : Prop :=
  exists n e, ev (Capbset_read n) (Err e) ∈ new /\ forall i, 0 <= i < n -> i <> CAP_SETUID -> i <> CAP_SETGID -> given_up new i.

Lemma given_up_app new new' i : given_up new i -> given_up (new ++ new') i.
Proof. intros (a & Ha & H). exists a. split; [apply elem_of_app; by left|done]. Qed.

Lemma bounded_after a b : bounded b -> bounded (a ++ b).
Proof.
  intros (n & e & Hn & Hb). exists n, e. split; [apply elem_of_app; by right|]. intros i Hi H1 H2.
  destruct (Hb i Hi H1 H2) as (x & Hx & H). exists x. split; [apply elem_of_app; by right|done].
Qed.

(** Why the daemon may stop here. *)
Definition gives_up (x : stop) (new : list event) : Prop := x = Blocked \/ x = Abort "exit".

Lemma ospec_property_is e key d v :
  ospec e (property_is key d v)
    (fun b new _ => only looks new /\ forall P, reads_from P new -> b = bytes_eqb (match P key with [] => d | x => x end) v) gives_up.
Proof.
  unfold property_is, Device.property_get. os_step. eapply ospec_bind.
  - apply (ospec_syscall _ (Property_get key) (fun a new _ => new = [ev (Property_get key) a])); [done|by left].
  - intros a n1 e1 ->. os_step. os_step. rewrite app_nil_r. split; [by repeat constructor|]. intros P HP.
    apply (proj1 (Forall_singleton _ _)) in HP. change (match a with Ok v => v | Err _ => [] end = P key) in HP. by destruct a as [[|c x]|err]; rewrite <- HP.
Qed.

Lemma or_empty (v : bytes) : match v with [] => [] | z :: l => z :: l end = v.
Proof. by destruct v. Qed.

Lemma ospec_drop_capabilities e :
  ospec e drop_capabilities (fun _ new _ => only prepares new /\ bounded new) gives_up.
Proof.
  unfold drop_capabilities.
  apply (ospec_loop (fun i h _ => only prepares h /\ 0 <= i /\ forall j, 0 <= j < i -> j <> CAP_SETUID -> j <> CAP_SETGID -> given_up h j)).
  { split; [constructor|]. split; [done|]. lia. }
  intros i h e1 (Ho & Hi & Hj). eapply ospec_bind.
  { apply (ospec_syscall _ (Capbset_read i) (fun a new _ => new = [ev (Capbset_read i) a])); [done|by left]. }
  intros a n1 e2 ->. assert (Ho1 : only prepares (h ++ [ev (Capbset_read i) a])) by (apply only_app; split; [done|by repeat constructor]).
  destruct a as [u|err].
  2:{ os_step. rewrite app_nil_r. split; [done|]. exists i, err. split; [apply elem_of_app; right; left|].
      intros j H1 H2 H3. by apply given_up_app, Hj. }
  destruct (_ || _) eqn:Ekeep.
  { os_step. rewrite app_nil_r. split; [done|]. split; [done|]. split; [lia|]. intros j H1 H2 H3. apply given_up_app, Hj; [|done|done].
    apply orb_true_iff in Ekeep as [E%Z.eqb_eq|E%Z.eqb_eq]; lia. }
  eapply ospec_bind.
  { apply (ospec_syscall _ (Capbset_drop i) (fun a new _ => new = [ev (Capbset_drop i) a])); [done|by left]. }
  intros d n2 e3 ->. assert (Hnext : d = Ok tt \/ d = Err 22 -> forall h', h' = h ++ [ev (Capbset_read i) (Ok u)] ++ [ev (Capbset_drop i) d] ++ [] ->
    only prepares h' /\ 0 <= i + 1 /\ forall j, 0 <= j < i + 1 -> j <> CAP_SETUID -> j <> CAP_SETGID -> given_up h' j).
  { intros Hd h' ->. rewrite app_assoc, only_app. split; [split; [done|by repeat constructor]|]. split; [lia|]. intros j H1 H2 H3.
    destruct (decide (j = i)) as [->|]; [|rewrite <- app_assoc; apply given_up_app, Hj; [lia|done|done]].
    exists d. split; [apply elem_of_app; right; left|done]. }
  destruct d as [[]|err]; [os_step; split; [done|]; by eapply Hnext; [left|]|].
  destruct (Z.eqb_spec err 22) as [->|Hne]; cbn [negb]; [os_step; split; [done|]; by eapply Hnext; [right|]|].
  apply ospec_stop. by right.
Qed.

Lemma ospec_bounding_set e :
  ospec e (drop_capabilities_bounding_set_if_needed allow_adbd_root)
    (fun _ new _ => only prepares new /\ forall P, reads_from P new -> keeps_capabilities P = false -> bounded new) gives_up.
Proof.
  unfold drop_capabilities_bounding_set_if_needed, keeps_capabilities. destruct allow_adbd_root.
  2:{ os_step. eapply ospec_mono; [apply ospec_drop_capabilities| |done]. by intros _ new _ (H1 & H2). }
  os_call ospec_property_is; [done|]. intros b n1 e1 (Ho & Hb). destruct b.
  - os_step. rewrite app_nil_r. split; [by apply looks_prepares|]. intros P HP. specialize (Hb P HP). rewrite or_empty in Hb. cbn [andb]. unfold is_one.
    by rewrite <- Hb.
  - eapply ospec_mono; [apply ospec_drop_capabilities| |done]. intros _ n2 _ (Ho2 & HB). split.
    + apply only_app. split; [by apply looks_prepares|done].
    + intros P _ _. by apply bounded_after.
Qed.

Lemma ospec_should_drop e :
  ospec e (should_drop_privileges allow_adbd_root)
    (fun b new _ => only looks new /\ forall P, reads_from P new -> b = negb (keeps_root P)) gives_up.
Proof.
  unfold should_drop_privileges, keeps_root. destruct allow_adbd_root; cbn [negb andb]; [|by os_step; split; [constructor|]].
  os_call ospec_property_is; [done|]. intros qemu n1 e1 (O1 & H1). destruct qemu.
  { os_step. rewrite app_nil_r. split; [done|]. intros P HP. specialize (H1 P HP). rewrite or_empty in H1. unfold is_one. by rewrite <- H1. }
  os_call ospec_property_is; [done|]. intros secure n2 e2 (O2 & H2). destruct secure; cbn [negb].
  2:{ os_step. rewrite app_nil_r, only_app. split; [done|]. intros P [_ HP]%reads_app. unfold is_one at 2. rewrite <- (H2 P HP). by rewrite orb_true_r. }
  assert (E : forall P, reads_from P (n1 ++ n2) -> is_one (P (str "ro.kernel.qemu")) = false /\
    is_one (match P (str "ro.secure") with [] => str "1" | v => v end) = true).
  { intros P [P1 P2]%reads_app. specialize (H1 P P1). specialize (H2 P P2). rewrite or_empty in H1. unfold is_one. by rewrite <- H1, <- H2. }
  os_call ospec_property_is; [done|]. intros debuggable n3 e3 (O3 & H3). destruct debuggable; cbn [negb].
  2:{ os_step. rewrite app_nil_r, !only_app. split; [done|]. intros P HP. rewrite app_assoc, reads_app in HP. destruct HP as [P12 P3].
      destruct (E P P12) as [-> ->]. specialize (H3 P P3). rewrite or_empty in H3. unfold is_one. by rewrite <- H3. }
  os_call ospec_property_is; [done|]. intros root n4 e4 (O4 & H4). os_step. rewrite app_nil_r, !only_app. split; [done|].
  intros P HP. rewrite app_assoc, !reads_app in HP. destruct HP as (P12 & P3 & P4). apply reads_app in P12. destruct (E P P12) as [-> ->].
  specialize (H3 P P3). specialize (H4 P P4).
  rewrite or_empty in H3, H4. unfold is_one. by rewrite <- H3, <- H4.
Qed.

Lemma ospec_or_exit e c :
  ospec e (or_exit c) (fun _ new _ => exists x, new = [ev c (Ok x)]) gives_up.
Proof.
  unfold or_exit. eapply ospec_bind.
  - apply (ospec_syscall _ c (fun a new _ => new = [ev c a])); [done|by left].
  - intros [x|err] n1 e1 ->; [os_step; by exists x|]. apply ospec_stop. by right.
Qed.

(** What the daemon did about its user. *)
Definition settled (dropped : bool) (new : list event) : Prop :=
  if dropped then
    exists before, new = before ++ [ev (Setgroups groups) (Ok tt); ev (Setgid AID_SHELL) (Ok tt); ev (Setuid AID_SHELL) (Ok tt)] /\
      only prepares before /\ forall P, reads_from P new -> keeps_capabilities P = false -> bounded before
  else only looks new.

Lemma ospec_become_shell e :
  ospec e (become_shell allow_adbd_root AID_SHELL groups) (fun _ new _ => settled true new) gives_up.
Proof.
  unfold become_shell. os_call ospec_bounding_set; [done|]. intros _ n1 e1 (Ho & HB).
  os_call (ospec_or_exit e1 (Setgroups groups)); [done|]. intros _ n2 e2 [[] ->].
  os_call (ospec_or_exit e2 (Setgid AID_SHELL)); [done|]. intros _ n3 e3 [[] ->].
  eapply ospec_mono; [apply (ospec_or_exit e3 (Setuid AID_SHELL))| |done]. intros _ n4 e4 [[] ->].
  exists n1. split; [done|]. split; [done|]. intros P HP. apply HB. by apply reads_app in HP as [? _].
Qed.

Lemma ospec_privileges e :
  ospec e (privileges allow_adbd_root AID_SHELL groups)
    (fun b new _ => settled b new /\ forall P, reads_from P new -> b = negb (keeps_root P)) gives_up.
Proof.
  unfold privileges. os_call ospec_should_drop; [done|]. intros b n1 e1 (Ho & Hb). destruct b.
  2:{ do 2 os_step. by rewrite app_nil_r. }
  os_call ospec_become_shell; [done|]. intros _ n2 e2 (before & -> & Ho2 & HB). os_step. rewrite app_nil_r. split.
  - exists (n1 ++ before). split; [by rewrite app_assoc|]. rewrite only_app. split; [split; [by apply looks_prepares|done]|].
    intros P [_ HP]%reads_app Hk. by apply bounded_after, (HB P).
  - intros P [HP _]%reads_app. by apply Hb.
Qed.
End privileges.

(** C36: who the daemon runs as.  When the daemon goes on, it has given up root
    exactly when the build and the properties do not let it keep it.  If so,
    its last three calls all succeeded: the groups, then the group, then the
    user, each set to those of the shell, and before them it had dropped every
    capability the kernel knows but CAP_SETUID and CAP_SETGID, unless the
    device is debuggable; if not, it only looked at properties.  When any of
    these calls fails it exits instead of going on. *)
Theorem privileges_settled (allow : bool) (AID_SHELL : Z) (groups : list Z) (w : world) :
  posix (w_env w) ->
  match privileges allow AID_SHELL groups w with
  | (Done b, w') =>
      settled allow AID_SHELL groups b (calls_since w w') /\
      forall P, reads_from P (calls_since w w') -> b = negb (keeps_root allow P)
  | (Stop x, _) => x = Blocked \/ x = Abort "exit"
  end.
Proof.
  intros Hp. pose proof (ospec_total _ _ _ w (ospec_privileges allow AID_SHELL groups (w_errno w)) Hp) as H.
  by destruct (privileges _ _ _ w) as [[b|x] w'].
Qed.

(** A device with three capabilities. *)
Definition device_env : env := fun h c =>
  match c return ans c with
  | Capbset_read n => if n <? 3 then Ok tt else Err 22
  | Property_get k => if bytes_eqb k (str "ro.secure") then Ok (str "1") else Ok []
  | c => ok_default c
  end.

Lemma device_env_posix : posix device_env.
Proof.
  intros h c. destruct c; try apply ok_default_answer; unfold device_env; by case_match.
Qed.

Lemma privileges_settled_witness :
  match privileges true 2000 [1011] (boot device_env 20) with
  | (Done b, w') =>
      settled true 2000 [1011] b (calls_since (boot device_env 20) w') /\
      forall P, reads_from P (calls_since (boot device_env 20) w') -> b = negb (keeps_root true P)
  | (Stop x, _) => x = Blocked \/ x = Abort "exit"
  end.
Proof. apply privileges_settled. exact device_env_posix. Defined.

(** Three capabilities are dropped, and the daemon is the shell. *)
Lemma shell_run : (privileges true 2000 [1011] (boot device_env 20)).1 = Done true.
Proof. vm_compute. reflexivity. Qed.

(** ** Tracing *)

(** The words of [p] between separators, in order. *)
Fixpoint tag_words_fuel (n : nat) (p : bytes) : list bytes :=
  match n, p with
  | S n', _ :: _ => let '(t, q) := split_tag p in t :: tag_words_fuel n' (drop 1 q)
  | _, _ => []
  end.

Definition tag_words (p : bytes) : list bytes := tag_words_fuel (length p) p.

(** Bits of the mask: all of them after one of the tags with flag 0, else those
    of the tags found. *)
Definition traced (words : list bytes) (bit : Z) : Prop :=
  exists t f, t ∈ words /\ find_tag t = Some f /\ (f = 0 \/ f = bit).

Lemma trace_tags_bits n p mask bit :
  0 <= bit -> Z.testbit (trace_tags n p mask) bit = true <-> Z.testbit mask bit = true \/ traced (tag_words_fuel n p) bit.
Proof.
  intros Hbit. revert p mask. induction n as [|n IH]; intros p mask.
  { cbn. split; [by left|]. intros [?|(t & f & Ht & _)]; [done|]. by apply not_elem_of_nil in Ht. }
  destruct p as [|c p]. { cbn. split; [by left|]. intros [?|(t & f & Ht & _)]; [done|]. by apply not_elem_of_nil in Ht. }
  cbn [trace_tags tag_words_fuel]. destruct (split_tag (c :: p)) as [t q]. unfold traced in *.
  destruct (find_tag t) as [f|] eqn:Ef.
  - destruct (Z.eqb_spec f 0) as [->|Hf].
    + rewrite Z.bits_m1 by done. split; [|done]. intros _. right. exists t, 0. split_and!; [left|done|by left].
    + rewrite IH, Z.lor_spec, orb_true_iff. split.
      * intros [[?|Hb]|(t' & f' & Ht & Hr)]; [by left| |right; exists t', f'; split; [by right|done]].
        right. exists t, f. split_and!; [left|done|right]. rewrite Z.shiftl_1_l in Hb. destruct (decide (f = bit)) as [|Hne]; [done|].
        destruct (decide (0 <= f)); [rewrite Z.pow2_bits_false in Hb; done|]. rewrite Z.pow_neg_r in Hb by lia. by rewrite Z.bits_0 in Hb.
      * intros [?|(t' & f' & Ht & Ef' & Hr)]; [by left; left|]. apply elem_of_cons in Ht as [->|Ht]; [|right; exists t', f'; by split_and!].
        left. right. simplify_eq. destruct Hr as [->| ->]; [done|]. rewrite Z.shiftl_1_l. by apply Z.pow2_bits_true.
  - rewrite IH. split; (intros [?|(t' & f' & Ht & Ef' & Hr)]; [by left|right; exists t', f'; split; [|done]]).
    + by right.
    + apply elem_of_cons in Ht as [->|Ht]; [congruence|done].
Qed.

(** The words "adb" and "1" both turn everything on: TRACE_ADB is 0, the flag
    that stands for all tags. *)
Lemma adb_tag_means_all : trace_tags 3 (str "adb") 0 = -1 /\ trace_tags 7 (str "sockets") 0 = 2.
Proof. done. Qed.

(** More than ten arguments do not fit. *)
Lemma eleven_arguments w : (wmain_arguments (fun a => a) (replicate 11 (str "x")) w).1 = Stop (Undef "write after pTemp").
Proof. reflexivity. Qed.
