(* ===== verification/Buff.v ===== *)
(** * utils.cpp: text in a buffer of fixed size

    The [buff_] functions append to a buffer of fixed size and move a cursor;
    the caller looks only at the end whether everything fitted.  The buffer is
    its bytes [mem] and the cursor an offset into it; [buffEnd] is its length.
    A write outside the buffer gives [None]. *)

From S2P Require Import Prelude.

Module Buff.

(** [memcpy] of [bs] to the offset [i]. *)
Definition store_at (mem : bytes) (i : nat) (bs : bytes) : option bytes :=
  if (i + length bs <=? length mem)%nat then Some (take i mem ++ bs ++ drop (i + length bs) mem) else None.

(** The new contents and the value returned. *)
Definition buff_addc (mem : bytes) (buff : nat) (c : Z) : option (bytes * nat) :=
  let avail := (length mem - buff)%nat in
  if (avail =? 0)%nat then Some (mem, buff) else
  if (avail =? 1)%nat then m ← store_at mem buff [0]; Some (m, S buff) else
  m ← store_at mem buff [u8 c];
  m ← store_at m (S buff) [0];
  Some (m, S buff).

(** "Ensure there is a terminating zero." *)
Definition terminate (mem : bytes) (buff : nat) : option (bytes * nat) :=
  m ← store_at mem (if (length mem <=? buff)%nat then buff - 1 else buff)%nat [0];
  Some (m, buff).

(** [data] has at least [len] bytes. *)
Definition buff_addb (mem : bytes) (buff : nat) (data : bytes) (len : Z) : option (bytes * nat) :=
  let avail := (length mem - buff)%nat in
  if (avail =? 0)%nat || (len <=? 0) then Some (mem, buff) else
  let len := Nat.min (Z.to_nat len) avail in
  m ← store_at mem buff (take len data);
  terminate m (buff + len).

Definition buff_adds (mem : bytes) (buff : nat) (s : bytes) : option (bytes * nat) :=
  buff_addb mem buff s (Z.of_nat (length s)).

(** [vsnprintf] stores as much of the text as fits and a zero, and returns the
    length of the text; some libraries return -1 when it did not fit. *)
Definition buff_add (old_library : bool) (mem : bytes) (buff : nat) (text : bytes) : option (bytes * nat) :=
  let avail := (length mem - buff)%nat in
  if (avail =? 0)%nat then Some (mem, buff) else
  m ← store_at mem buff (take (avail - 1) text ++ [0]);
  let nn := if old_library && (avail <=? length text)%nat then avail else Nat.min (length text) avail in
  terminate m (buff + nn).

(** A use of the buffer. *)
Inductive piece :=
| Char (c : Z)
| Str (s : bytes)
| Bytes (data : bytes)
| Text (old_library : bool) (text : bytes).

Definition add_piece (mem : bytes) (buff : nat) (p : piece) : option (bytes * nat) :=
  match p with
  | Char c => buff_addc mem buff c
  | Str s => buff_adds mem buff s
  | Bytes data => buff_addb mem buff data (Z.of_nat (length data))
  | Text old text => buff_add old mem buff text
  end.

Fixpoint add_all (mem : bytes) (buff : nat) (ps : list piece) : option (bytes * nat) :=
  match ps with
  | [] => Some (mem, buff)
  | p :: ps => '(mem', buff') ← add_piece mem buff p; add_all mem' buff' ps
  end.
End Buff.

Import Buff.

(** ** What the buffer holds *)

Definition piece_bytes (p : piece) : bytes :=
  match p with Char c => [u8 c] | Str s => s | Bytes data => data | Text _ text => text end.

(** The buffer of [size] bytes after [acc] was appended: as much as fits before
    the zero; the cursor counts what was appended and stops at the end. *)
Definition holds_text (size : nat) (acc mem : bytes) (buff : nat) : Prop :=
  length mem = size /\ buff = Nat.min size (length acc) /\ take (size - 1) acc ++ [0] `prefix_of` mem.

Lemma store_at_in mem i bs : (i + length bs <= length mem)%nat -> store_at mem i bs = Some (take i mem ++ bs ++ drop (i + length bs) mem).
Proof. intros H. unfold store_at. by rewrite (proj2 (Nat.leb_le _ _) H). Qed.

Lemma length_stored (mem bs : bytes) i : (i + length bs <= length mem)%nat -> length (take i mem ++ bs ++ drop (i + length bs) mem) = length mem.
Proof. intros H. rewrite !length_app, length_take, length_drop. lia. Qed.

(** The beginning of the buffer before the cursor. *)
Lemma holds_take size acc mem buff : holds_text size acc mem buff -> (buff < size)%nat -> take buff mem = acc.
Proof.
  intros (Hl & -> & [rest ->]) Hb. assert (length acc < size)%nat by lia. rewrite Nat.min_r by lia.
  rewrite firstn_all2 with (n := (size - 1)%nat) by lia. by rewrite <- app_assoc, take_app_length.
Qed.

(** Once the cursor is at the end nothing changes any more. *)
Lemma holds_full size acc mem buff bs : (0 < size)%nat -> holds_text size acc mem buff -> (size <= buff)%nat -> holds_text size (acc ++ bs) mem buff.
Proof.
  intros Hs (Hl & -> & Hp) Hb. split; [done|]. rewrite length_app. split; [lia|]. by rewrite take_app_le by lia.
Qed.

(** The zero after the text. *)
Lemma terminate_holds size t m : (0 < size)%nat -> length m = size -> take (Nat.min (size - 1) (length t)) m = take (size - 1) t ->
  exists m', terminate m (Nat.min size (length t)) = Some (m', Nat.min size (length t)) /\ holds_text size t m' (Nat.min size (length t)).
Proof.
  intros Hs Hl Ht. unfold terminate. rewrite Hl.
  replace (if (size <=? Nat.min size (length t))%nat then (Nat.min size (length t) - 1)%nat else Nat.min size (length t))
    with (Nat.min (size - 1) (length t)) by (destruct (Nat.leb_spec size (Nat.min size (length t))); lia).
  rewrite store_at_in by (cbn; lia). cbn [mbind option_bind]. eexists. split; [done|]. split; [rewrite length_stored by (cbn; lia); done|].
  split; [done|]. rewrite Ht. rewrite app_assoc. by apply prefix_app_r.
Qed.

(** Bytes stored at the cursor. *)
Lemma take_stored acc bs (rest : bytes) n : (n <= length acc + length bs)%nat -> take n (acc ++ bs ++ rest) = take n (acc ++ bs).
Proof. intros H. rewrite app_assoc. apply take_app_le. rewrite length_app. lia. Qed.

Section steps.
Context (size : nat) (acc mem : bytes) (buff : nat).
Hypothesis (Hs : (0 < size)%nat) (H : holds_text size acc mem buff).

Lemma buff_full bs : (length mem - buff)%nat = 0%nat -> holds_text size (acc ++ bs) mem buff.
Proof. intros E. pose proof H as (Hl & _ & _). apply holds_full; [done|done|lia]. Qed.

Lemma addb_holds data : exists mem' buff', buff_addb mem buff data (Z.of_nat (length data)) = Some (mem', buff') /\ holds_text size (acc ++ data) mem' buff'.
Proof.
  pose proof H as (Hl & Eb & _). unfold buff_addb. destruct (Nat.eqb_spec (length mem - buff) 0) as [E|E]; cbn [orb].
  { eauto using buff_full. }
  destruct (Z.leb_spec (Z.of_nat (length data)) 0) as [E0|E0].
  { exists mem, buff. split; [done|]. destruct data; [by rewrite app_nil_r|cbn in E0; lia]. }
  rewrite Nat2Z.id. set (n := Nat.min (length data) (length mem - buff)).
  assert (Hn : length (take n data) = n) by (rewrite length_take; lia).
  rewrite store_at_in by lia. cbn [mbind option_bind]. rewrite (holds_take size acc mem buff H) by lia.
  replace (buff + n)%nat with (Nat.min size (length (acc ++ data))) by (rewrite length_app; lia).
  destruct (terminate_holds size (acc ++ data) (acc ++ take n data ++ drop (buff + length (take n data)) mem)) as (m' & -> & Hm); [done| | |by eauto].
  - rewrite <- (holds_take size acc mem buff H) at 1 by lia. rewrite length_stored by lia. done.
  - rewrite length_app, take_stored by (rewrite Hn; lia). rewrite !take_app, !(firstn_all2 acc) by lia. f_equal. rewrite take_take.
    destruct (decide (length data <= size - 1 - length acc)%nat).
    + rewrite !firstn_all2 by lia. done.
    + f_equal. lia.
Qed.

Lemma addc_holds c : exists mem' buff', buff_addc mem buff c = Some (mem', buff') /\ holds_text size (acc ++ [u8 c]) mem' buff'.
Proof.
  pose proof H as (Hl & Eb & _). unfold buff_addc. destruct (Nat.eqb_spec (length mem - buff) 0) as [E|E].
  { eauto using buff_full. }
  pose proof (holds_take size acc mem buff H ltac:(lia)) as Ht. destruct (Nat.eqb_spec (length mem - buff) 1) as [E1|E1].
  - rewrite store_at_in by (cbn; lia). cbn [mbind option_bind]. eexists _, _. split; [done|]. split; [rewrite length_stored by (cbn; lia); done|].
    rewrite length_app. cbn [length]. split; [lia|]. rewrite Ht, take_app_le, firstn_all2 by lia. rewrite app_assoc. by apply prefix_app_r.
  - rewrite store_at_in by (cbn; lia). cbn [mbind option_bind]. rewrite store_at_in by (rewrite length_stored by (cbn; lia); cbn; lia).
    cbn [mbind option_bind]. eexists _, _. split; [done|].
    split; [rewrite length_stored; rewrite length_stored; cbn; lia|]. rewrite length_app. cbn [length]. split; [lia|].
    rewrite Ht. rewrite firstn_all2 by (rewrite length_app; cbn; lia). rewrite take_stored by (cbn; lia).
    rewrite firstn_all2 by (rewrite length_app; cbn; lia). rewrite app_assoc. by apply prefix_app_r.
Qed.

Lemma add_holds old text : exists mem' buff', buff_add old mem buff text = Some (mem', buff') /\ holds_text size (acc ++ text) mem' buff'.
Proof.
  pose proof H as (Hl & Eb & _). unfold buff_add. destruct (Nat.eqb_spec (length mem - buff) 0) as [E|E].
  { eauto using buff_full. }
  set (avail := (length mem - buff)%nat) in *. set (bs := take (avail - 1) text ++ [0]).
  assert (Hn : length bs = S (Nat.min (avail - 1) (length text))) by (unfold bs; rewrite length_app, length_take; cbn; lia).
  rewrite store_at_in by lia. cbn [mbind option_bind]. rewrite (holds_take size acc mem buff H) by lia.
  set (nn := if _ && _ then avail else _). replace (buff + nn)%nat with (Nat.min size (length (acc ++ text)))
    by (unfold nn; rewrite length_app; destruct old; cbn [andb]; [destruct (Nat.leb_spec avail (length text))|]; lia).
  destruct (terminate_holds size (acc ++ text) (acc ++ bs ++ drop (buff + length bs) mem)) as (m' & -> & Hm); [done| | |by eauto].
  - rewrite <- (holds_take size acc mem buff H) at 1 by lia. rewrite length_stored by lia. done.
  - rewrite length_app, take_stored by lia. unfold bs. rewrite app_assoc.
    rewrite take_app_le by (rewrite length_app, length_take; lia). rewrite !take_app.
    rewrite !(firstn_all2 acc) by lia. f_equal. rewrite take_take. destruct (decide (length text <= avail - 1)%nat).
    + rewrite !firstn_all2 by lia. done.
    + f_equal. lia.
Qed.

Lemma piece_holds p : exists mem' buff', add_piece mem buff p = Some (mem', buff') /\ holds_text size (acc ++ piece_bytes p) mem' buff'.
Proof. destruct p; [apply addc_holds|apply addb_holds|apply addb_holds|apply add_holds]. Qed.
End steps.

(** Any uses of a buffer that is terminated to begin with write inside it, keep
    it terminated and append: it holds as much of the pieces as fits, and the
    cursor is at the end exactly when something was lost. *)
Theorem buffer_appends size acc mem buff ps :
  (0 < size)%nat -> holds_text size acc mem buff ->
  exists mem' buff', add_all mem buff ps = Some (mem', buff') /\ holds_text size (acc ++ (ps ≫= piece_bytes)) mem' buff'.
Proof.
  intros Hs. revert acc mem buff. induction ps as [|p ps IH]; intros acc mem buff H.
  - exists mem, buff. cbn. by rewrite app_nil_r.
  - destruct (piece_holds size acc mem buff Hs H p) as (m1 & b1 & E & H1). cbn [add_all]. rewrite E. cbn [mbind option_bind].
    destruct (IH _ _ _ H1) as (m2 & b2 & E2 & H2). exists m2, b2. split; [done|]. by rewrite <- app_assoc in H2.
Qed.

(** An empty string does not terminate a fresh buffer. *)
Lemma empty_piece_not_terminated : add_piece [7; 7] 0 (Str []) = Some ([7; 7], 0%nat).
Proof. done. Qed.
